(* ===== verification/_CoqProject ===== *)
-Q . S2P
Prelude.v
PyStr.v
PyInt.v
PyTime.v
PyBase64.v
PyFloat.v
PySort.v
PyDict.v
PyJson.v
PyJsonProps.v
Workspace.v
Execution.v
Coordinator.v
CoordinatorInv.v
CoordinatorStore.v
CoordinatorSafety.v
CoordinatorLife.v
CoordinatorRuns.v
CoordinatorLive.v
CoordinatorProps.v
Scheduler.v
SchedulerProps.v
Auth.v
AuthProps.v
TerminalHistory.v
TerminalHistoryProps.v
TerminalSearch.v
TerminalSearchProps.v
TerminalSessions.v
TerminalSessionsInv.v
TerminalSessionsOps.v
TerminalSessionsProps.v
TerminalPersist.v
TerminalBridge.v
SafePath.v
Settings.v
SettingsStore.v
McpServers.v
McpServersProps.v
RunnerProtocol.v
Containers.v
Backends.v
BackendsProps.v
HostProcess.v
HostProcessProps.v
AgentTrigger.v
AgentTriggerProps.v
Db.v
Groups.v
GroupRoutes.v
GroupsProps.v
TerminalRoutes.v
TerminalRoutesProps.v
TerminalSocket.v
TerminalSocketProps.v
Messages.v
MessagesProps.v
UsageAudit.v
UsageAuditProps.v
PyPath.v
FileSys.v
FileSysProps.v
Confinement.v
WorkspaceFiles.v
FileRoutes.v
FileRoutesProps.v
Memory.v
MemoryRoutesProps.v
Skills.v
SkillsProps.v
ChatSocket.v
ChatSocketProps.v
TelegramHtml.v
TelegramHtmlProps.v
ImClients.v
ImRoutesProps.v
ConfigRoutes.v
ConfigRoutesProps.v
Monitor.v
MonitorProps.v
