(* ===== verification/Prelude.v ===== *)
(** * Portex: a verified model of its services

    Portex is a gateway that runs agents and terminals for groups of users. This
    library models the code that decides what runs when, who may do what, and
    what is kept of it, and proves it correct. It is written against the Python
    sources under [src/]. Python objects are records, dictionaries are [gmap]s
    or, where their order is observed, the insertion-ordered lists of
    [PyDict.v]. An [async] service is a transition system whose steps are the
    stretches of code between two suspensions of the event loop, so every
    interleaving the event loop allows is a sequence of steps. A request handler
    is a computation over the state it touches that can raise; what it changed
    before the exception stays.

    ** Files: Python and its library

    - [Prelude.v]: results and their monad, the development's tactics, pages.
    - [PyStr.v], [PyInt.v], [PyTime.v], [PyBase64.v], [PyFloat.v]: strings,
      integers of text and the ranges of [datetime], ISO timestamps, bytes and
      base64, the floats read from a text (IEEE doubles) and the dates they give.
      [PySort.v]: ordering of sort keys and the stable [sorted]. [PyDict.v]:
      insertion-ordered dictionaries. [PyJson.v], [PyJsonProps.v]: the JSON
      scanner and printer. [PyPath.v]: lexical paths, UTF-8, text files.
    - [FileSys.v], [FileSysProps.v]: a disk with symbolic links and its system
      calls. [Confinement.v]: what it takes to stay below a directory.
    - [Db.v]: the interface of a database table, computations over a database.

    ** Files: runs of agents

    - [Workspace.v]: [services/workspace_lifecycle.py], which session the next
      run of a workspace continues.
    - [Execution.v], [Coordinator.v]: the data of
      [services/execution_coordinator.py], the interface to its policy (a class,
      with [PolicyCovers] as its law) and the default policy of
      [services/execution_policy.py]; the coordinator. [CoordinatorInv.v],
      [CoordinatorStore.v], [CoordinatorSafety.v], [CoordinatorLife.v],
      [CoordinatorRuns.v], [CoordinatorLive.v] hold its invariants, the effect of
      storing a result, the queue discipline, the life of a run, termination;
      [CoordinatorProps.v] the theorems.
    - [RunnerProtocol.v], [Containers.v], [Backends.v], [HostProcess.v]:
      [services/execution_backends.py] with [infra/exec]: the envelope of the
      agent runner, what docker is asked for, the processes of containers and of
      the host. [AgentTrigger.v]: [services/agent_trigger.py] and
      [infra/runtime], the stream of an agent run.
    - [Scheduler.v]: [services/scheduler.py] and the services of tasks and logs.
    - [ChatSocket.v]: [app/routes/websocket.py] and [app/websocket.py], the chat
      websocket over the coordinator. [Monitor.v]: the routes of executions, of
      the monitor (with its health probes) and of tasks.

    ** Files: terminals

    - [TerminalHistory.v], [TerminalSearch.v], [TerminalSessions.v],
      [TerminalPersist.v]: [services/terminal_sessions.py], split into the queries
      on history snapshots, the ranked search, the sessions (with what they rely
      on of [services/terminal_bridge.py]) and the files of the history.
      [TerminalSessionsInv.v], [TerminalSessionsOps.v]: the invariant.
    - [TerminalBridge.v]: the bridge itself, with its tasks, threads and
      descriptors, and the shutdown of its container.
    - [TerminalRoutes.v], [TerminalSocket.v]: [app/routes/terminals.py], the
      handlers and the websocket.

    ** Files: users, groups and what they keep

    - [Auth.v]: [domain/permissions.py], [services/auth.py], the dependencies
      and handlers of requests that need a user.
    - [Groups.v], [GroupRoutes.v]: the registry of groups, members and
      conversation slots, and their routes. [Messages.v]: intake, dispatch and
      routing of messages. [UsageAudit.v]: statistics and the audit feed.
    - [SafePath.v], [Settings.v], [SettingsStore.v], [McpServers.v]: the
      configurations kept in JSON files, and the stores they implement.
      [ConfigRoutes.v]: their routes.
    - [WorkspaceFiles.v], [FileRoutes.v], [Memory.v], [Skills.v]: the services on
      the disk and their routes.
    - [TelegramHtml.v], [ImClients.v]: [infra/im], the Markdown Telegram is sent,
      the clients of Telegram and Feishu; [app/routes/im.py], their webhooks.

    The theorems about [X.v] are in [XProps.v] where there is one, else at its
    end; those about the routes of memory and of the webhooks are in
    [MemoryRoutesProps.v] and [ImRoutesProps.v], those about the workspace files
    in [FileRoutesProps.v]. A definition has the name of the function it models;
    most [_underscored] functions lose the underscore.

    ** What the theorems show

    - Coordinator, in every reachable state: one active execution per group,
      first in first out, no lost wake-up, bounded retention. For environments
      that do not reuse an active request id, do not cancel waiters and whose
      backends end ([sensible]): [cancel] does what it says, every run is answered
      ([work] bounds the events left), and the monitor shows the queues as they
      are. The chat websocket is such an environment; its clients are sent what
      their own room causes and leave nothing behind. A run is shown to those
      who see its workspace.
    - Backends and agent runs: a cancelled process is stopped, an execution whose
      environment lets go of its process settles, a run out of time is a timeout
      however its stream ends, each mount stays at or below the root of its mount
      point, the envelope survives the output of the runner.
    - Scheduler: no task runs twice at a time, an interval task is next due at
      the first multiple after now.
    - Terminals: the dictionaries agree, the history is bounded and accounted
      for, an attached client misses nothing, up to the frames of its websocket,
      a client that leaves the receiving loop of its socket is detached on every
      schedule; a user who does not own a session is refused the calls that name
      it; the routes open nothing to users without access. The search returns the
      matching snapshots with their occurrences, read from the left without
      overlap, in an order that does not depend on the input. The file of a
      history reads back as it was written. A close of a bridge that began when
      no start was under way leaves no descriptor, shell or task behind, and the
      output of the shell arrives in order.
    - Users: privileges are granted by those who hold them. Groups and messages:
      who may read what, and who may change the names, members, slots and
      bindings of a coherent registry; what keeps it coherent; answers have
      questions, and the answer to a message of Telegram or Feishu goes to the
      chat it came from. The HTML sent to Telegram is balanced and escaped.
    - Settings, MCP servers and skills refine abstract stores. The routes of the
      settings show no secret and take the permission they name.
    - Files and memory: requests change only what is below the directory they are
      about. A path with [..] can make directories elsewhere, and nothing else.
      What the disk must be like is stated per request: [links_safe] for the files
      (no link from outside into the workspace where a file is replaced or
      deleted, and none with the name of a temporary file where one is replaced),
      [memory_request_safe] for the memory (plain directories on the way).
    - The [Example]s of the [Props] files run the model on inputs and sequences
      of events where the code does not do what it means to.

    ** Fuel and oracles

    Fuel is used where the recursion of the code is not structural, with a
    theorem that it is enough: the scan of a text (its length), the JSON scanner
    (the length of its input, [json_loads_fuel]), the periods an interval task
    skips ([interval_fuel]), the access check that looks through the binding of an
    endpoint (2, [access_ends]), the decoding of UTF-8 (the number of bytes,
    [utf8_roundtrip]). Resolving a path gives up after [max_links] links, as the
    system does.

    The outcome of a call out of the program is part of the event that resumes
    it. [uuid4] and the clock are functions from the number of earlier calls, or
    arguments of the operation that draws. Parameters stand for what is not in
    the repository: [cron_next] (croniter), [scrypt], [jwt_encode] and
    [jwt_decode] (jose), SHA-1 and SHA-256, AES-CBC, the HTTP requests to Telegram
    and Feishu, [model_dump_json] (pydantic), the further formats of
    [fromisoformat], the [repr] of a float, the guess of a media type, the order
    of [scandir]. The theorems that need it assume that [uuid4] does not repeat
    itself. Where the disk is not the
    subject ([Containers.v], [Settings.v], [McpServers.v]), [Path.resolve] is a
    parameter as well. Datetimes are microseconds; the match density of the
    search, a float in the code, is the exact quotient.

    ** Not modelled

    Strings are over U+0000 to U+00FF, so the appearance settings and their two
    routes, whose default emoji is beyond, are left out. The Docker client, the
    kernel's terminals and the Agents SDK are outside the program. Of the pydantic schemas only
    the constraints the handlers rely on are modelled; validation errors (422)
    are FastAPI's, and so are the security headers and the wiring of the
    application. Disks have no permissions, hard links or names that are too
    long; a JSON document nested deeper than Python's recursion limit and a
    settings file that is not UTF-8 are not distinguished. The process-wide
    singletons with their resets, the health route, the scripts, the proofs of
    concept and the agent runner's own use of the SDK are left out. *)

(** ** This file: results, tactics and generic lemmas *)

From stdpp Require Import base tactics option list gmap strings.
From Stdlib Require Import ZArith Lia Ascii.

(** ** Notations and scopes *)

Declare Scope portex_scope.
Delimit Scope portex_scope with portex.
Open Scope portex_scope.

(** ** Results of operations that can raise

    [Ok a] is a normal return, [Err e] a raised exception of the component's
    own error type. *)

Inductive result (E A : Type) : Type :=
| Ok (a : A)
| Err (e : E).
Arguments Ok {E A} _.
Arguments Err {E A} _.

#[export] Instance result_ret {E} : MRet (result E) := fun A a => Ok a.
#[export] Instance result_bind {E} : MBind (result E) := fun A B f m =>
  match m with Ok a => f a | Err e => Err e end.
#[export] Instance result_map {E} : FMap (result E) := fun A B f m =>
  match m with Ok a => Ok (f a) | Err e => Err e end.

Definition is_ok {E A} (r : result E A) : bool :=
  match r with Ok _ => true | Err _ => false end.

#[export] Instance result_eq_dec {E A} `{EqDecision E, EqDecision A} :
  EqDecision (result E A).
Proof. solve_decision. Defined.

Notation "'raise' e" := (Err e) (at level 10, e at level 9) : portex_scope.
Notation "'guard!' b 'orelse' e ; k" := (if (b : bool) then k else Err e)
  (at level 100, b at level 99, e at level 99, k at level 200,
   format "'guard!'  b  'orelse'  e ; '//' k") : portex_scope.

(** ** Tactics of the development *)

(** Split a result or option equation all the way down. *)
Ltac inv_res :=
  repeat match goal with
  | H : Ok _ = Ok _ |- _ => injection H as H; subst
  | H : Err _ = Err _ |- _ => injection H as H; subst
  | H : Ok _ = Err _ |- _ => discriminate H
  | H : Err _ = Ok _ |- _ => discriminate H
  | H : Some _ = Some _ |- _ => injection H as H; subst
  | H : Some _ = None |- _ => discriminate H
  | H : None = Some _ |- _ => discriminate H
  end.

(** Case analysis on the conditions of the goal or of a hypothesis. *)
Ltac case_cond :=
  match goal with
  | |- context [if ?b then _ else _] => destruct b eqn:?
  | H : context [if ?b then _ else _] |- _ => destruct b eqn:?
  | |- context [match ?o with Some _ => _ | None => _ end] => destruct o eqn:?
  | H : context [match ?o with Some _ => _ | None => _ end] |- _ => destruct o eqn:?
  | H : context [match ?o with Ok _ => _ | Err _ => _ end] |- _ => destruct o eqn:?
  end.

(** Boolean hypotheses to propositions. *)
Ltac bool_hyps :=
  repeat match goal with
  | H : andb _ _ = true |- _ => apply andb_true_iff in H as [? ?]
  | H : orb _ _ = false |- _ => apply orb_false_iff in H as [? ?]
  | H : negb _ = true |- _ => apply negb_true_iff in H
  | H : negb _ = false |- _ => apply negb_false_iff in H
  | H : bool_decide _ = true |- _ => apply bool_decide_eq_true in H
  | H : bool_decide _ = false |- _ => apply bool_decide_eq_false in H
  end.

Create HintDb portex.
Create Rewrite HintDb portex.

(** ** Lists: the filter/first idiom and pages *)

(** Python's [xs[offset : offset + limit]] for non-negative bounds. *)
Definition page {A} (offset limit : nat) (l : list A) : list A :=
  take limit (drop offset l).

(** The page arithmetic of the listing endpoints:
    [has_more = (offset + limit) < len(items)]. *)
Definition has_more_than {A} (offset limit : nat) (l : list A) : bool :=
  bool_decide (offset + limit < length l).

(** First element satisfying a boolean predicate. *)
Fixpoint find_first {A} (p : A -> bool) (l : list A) : option A :=
  match l with
  | [] => None
  | x :: l' => if p x then Some x else find_first p l'
  end.

(** ** Generic lemmas *)

Lemma page_all {A} (l : list A) n : length l <= n -> page 0 n l = l.
Proof. intros H. unfold page. rewrite drop_0. by apply take_ge. Qed.

Lemma page_app_next {A} (l : list A) off n m :
  page off n l ++ page (off + n) m l = page off (n + m) l.
Proof.
  unfold page. rewrite <- drop_drop.
  apply take_take_drop.
Qed.

Lemma page_length {A} (l : list A) off n :
  length (page off n l) = min n (length l - off).
Proof. unfold page. by rewrite length_take, length_drop. Qed.

Lemma page_elem {A} (l : list A) off n x : x ∈ page off n l -> x ∈ l.
Proof.
  unfold page. intros H%list_elem_of_In.
  apply list_elem_of_In. rewrite <- (take_drop off l).
  apply in_or_app. right. rewrite <- (take_drop n (drop off l)).
  apply in_or_app. by left.
Qed.

Lemma has_more_spec {A} (l : list A) off n :
  has_more_than off n l = true <-> drop (off + n) l <> [].
Proof.
  unfold has_more_than. rewrite bool_decide_eq_true. split.
  - intros H E. apply (f_equal length) in E. rewrite length_drop in E. simpl in E. lia.
  - intros H. destruct (decide (off + n < length l)) as [|n0]; [done|].
    exfalso. apply H. apply drop_ge. lia.
Qed.

Lemma find_first_some {A} (p : A -> bool) l x :
  find_first p l = Some x -> x ∈ l /\ p x = true.
Proof.
  induction l as [|y l IH]; simpl; [done|]. destruct (p y) eqn:E; intros H.
  - inv_res. split; [left|done].
  - destruct (IH H). split; [by right|done].
Qed.

Lemma find_first_none {A} (p : A -> bool) l :
  find_first p l = None <-> forall x, x ∈ l -> p x = false.
Proof.
  induction l as [|y l IH]; simpl.
  - split; [intros _ x H; inversion H|done].
  - destruct (p y) eqn:E; split.
    + done.
    + intros H. rewrite H in E; [done|left].
    + intros H x Hx. apply elem_of_cons in Hx as [->|Hx]; [done|]. by apply IH.
    + intros H. apply IH. intros x Hx. apply H. by right.
Qed.

(** ** One element of a list changes *)

Lemma elem_alter {A} (f : A -> A) i (l : list A) y :
  y ∈ alter f i l -> y ∈ l \/ exists x, l !! i = Some x /\ y = f x.
Proof.
  intros [j E]%list_elem_of_lookup. destruct (decide (j = i)) as [->|N].
  - rewrite list_lookup_alter_eq in E. destruct (l !! i) as [x|] eqn:Ex; [|done]. injection E as <-. right. by exists x.
  - rewrite list_lookup_alter_ne in E by done. left. by eapply list_elem_of_lookup_2.
Qed.

Lemma alter_elem {A} (f : A -> A) i (l : list A) x : x ∈ l -> l !! i = Some x \/ x ∈ alter f i l.
Proof.
  intros [j E]%list_elem_of_lookup. destruct (decide (j = i)) as [->|N]; [by left|]. right.
  apply (list_elem_of_lookup_2 _ j). by rewrite list_lookup_alter_ne.
Qed.

Lemma alter_here {A} (f : A -> A) i (l : list A) x : l !! i = Some x -> f x ∈ alter f i l.
Proof. intros E. apply (list_elem_of_lookup_2 _ i). by rewrite list_lookup_alter_eq, E. Qed.

Lemma fmap_alter_same {A B} (g : A -> B) (f : A -> A) i (l : list A) :
  (forall x, g (f x) = g x) -> g <$> alter f i l = g <$> l.
Proof. intros H. apply list_eq. intros j. rewrite !list_lookup_fmap. destruct (decide (j = i)) as [->|N].
  - rewrite list_lookup_alter_eq. destruct (l !! i); cbn; [by rewrite H|done].
  - by rewrite list_lookup_alter_ne.
Qed.

(** Two members with the same key are one. *)
Lemma same_key {A B} (g : A -> B) (l : list A) x y : NoDup (g <$> l) -> x ∈ l -> y ∈ l -> g x = g y -> x = y.
Proof.
  intros ND [i Ei]%list_elem_of_lookup [j Ej]%list_elem_of_lookup E.
  assert (i = j) as ->.
  { eapply NoDup_lookup; [exact ND| |]; rewrite list_lookup_fmap; [by rewrite Ei|by rewrite Ej, E]. }
  congruence.
Qed.

#[export] Hint Resolve page_elem : portex.
