(* ===== verification/PyStr.v ===== *)
(** * Python strings

    The [str] operations the code uses, on the Rocq type [string]. A Rocq
    [ascii] is one of the 256 code points U+0000 to U+00FF, so [string] is a
    Python [str] over that range and every operation below is exact on it:
    [isspace], [lower] and the UTF-8 width follow the Unicode tables for
    Latin-1. Scanning code works on [list ascii], the sequence of characters. *)

From stdpp Require Import base list strings.
From Stdlib Require Import ZArith NArith Lia Ascii String.
From S2P Require Import Prelude.

Definition str_chars (s : string) : list ascii := list_ascii_of_string s.
Definition of_chars (l : list ascii) : string := string_of_list_ascii l.

Definition code (c : ascii) : N := N_of_ascii c.

(** [c.isspace()] for a one-character string. *)
Definition isspace_char (c : ascii) : bool :=
  let n := code c in
  ((9 <=? n) && (n <=? 13) || (28 <=? n) && (n <=? 32) || (n =? 133) || (n =? 160))%N.

(** [c.lower()] for a one-character string. *)
Definition lower_char (c : ascii) : ascii :=
  let n := code c in
  if ((65 <=? n) && (n <=? 90) || (192 <=? n) && (n <=? 222) && negb (n =? 215))%N
  then ascii_of_N (n + 32) else c.

(** [s.lower()]. *)
Definition lower (s : string) : string := of_chars (map lower_char (str_chars s)).

(** [len(c.encode("utf-8"))]. *)
Definition utf8_width (c : ascii) : Z := if (code c <? 128)%N then 1%Z else 2%Z.

Definition utf8_len (s : string) : Z :=
  foldr (fun c acc => (utf8_width c + acc)%Z) 0%Z (str_chars s).

Fixpoint drop_while (p : ascii -> bool) (l : list ascii) : list ascii :=
  match l with
  | [] => []
  | c :: l' => if p c then drop_while p l' else l
  end.

(** [s.strip()]. *)
Definition strip_chars (l : list ascii) : list ascii :=
  rev (drop_while isspace_char (rev (drop_while isspace_char l))).
Definition strip (s : string) : string := of_chars (strip_chars (str_chars s)).

(** [s.startswith(p)]. *)
Definition startswith (p s : string) : bool := String.prefix p s.

(** [p in s] for strings. *)
Fixpoint chars_prefix (p l : list ascii) : bool :=
  match p, l with
  | [], _ => true
  | _ :: _, [] => false
  | a :: p', b :: l' => bool_decide (a = b) && chars_prefix p' l'
  end.

(** [l[a:b]] for non-negative bounds. *)
Definition slice (a b : nat) (l : list ascii) : list ascii := take (b - a) (drop a l).

(** [text.find(pat, pos)]; [None] is [-1]. *)
Fixpoint find_from (pat l : list ascii) (i : nat) : option nat :=
  if chars_prefix pat l then Some i
  else match l with
       | [] => None
       | _ :: l' => find_from pat l' (S i)
       end.
Definition py_find (pat text : list ascii) (pos : nat) : option nat :=
  if bool_decide (pos <= List.length text) then find_from pat (drop pos text) pos else None.

(** ** Lemmas *)

Lemma of_chars_str_chars s : of_chars (str_chars s) = s.
Proof. apply string_of_list_ascii_of_string. Qed.

Lemma str_chars_of_chars l : str_chars (of_chars l) = l.
Proof. apply list_ascii_of_string_of_list_ascii. Qed.

Lemma str_chars_app s t : str_chars (s +:+ t) = str_chars s ++ str_chars t.
Proof. induction s as [|c s IH]; [done|]. by unfold str_chars in *; simpl; rewrite <- IH. Qed.

Lemma append_assoc (a b c : string) : (a +:+ b) +:+ c = a +:+ (b +:+ c).
Proof.
  induction a as [|x a IH]; [done|]. change (String x ((a +:+ b) +:+ c) = String x (a +:+ (b +:+ c))).
  by rewrite IH.
Qed.

Lemma string_length_app (a b : string) : String.length (a +:+ b) = String.length a + String.length b.
Proof.
  induction a as [|c a IH]; [done|].
  change (S (String.length (a +:+ b)) = S (String.length a + String.length b)). by rewrite IH.
Qed.

Lemma utf8_width_pos c : (1 <= utf8_width c <= 2)%Z.
Proof. unfold utf8_width. case_match; lia. Qed.

Lemma utf8_len_nonneg s : (0 <= utf8_len s)%Z.
Proof.
  unfold utf8_len. induction (str_chars s) as [|c l IH]; simpl; [lia|].
  pose proof (utf8_width_pos c). lia.
Qed.

Lemma utf8_len_app s t : utf8_len (s +:+ t) = (utf8_len s + utf8_len t)%Z.
Proof.
  unfold utf8_len. rewrite str_chars_app, foldr_app.
  induction (str_chars s) as [|c l IH]; simpl; [lia|]. rewrite IH. lia.
Qed.

Lemma utf8_len_zero s : utf8_len s = 0%Z -> s = ""%string.
Proof.
  destruct s as [|c s]; [done|]. intros H. unfold utf8_len in H. simpl in H.
  pose proof (utf8_width_pos c). pose proof (utf8_len_nonneg s) as Hs.
  unfold utf8_len in Hs. change (list_ascii_of_string s) with (str_chars s) in H. lia.
Qed.

Lemma length_slice a b l : List.length (slice a b l) = min (b - a) (List.length l - a).
Proof. unfold slice. by rewrite length_take, length_drop. Qed.

Lemma slice_one a l : slice a (a + 1) l = option_list (l !! a).
Proof.
  unfold slice. replace (a + 1 - a) with 1 by lia. rewrite <- (Nat.add_0_r a) at 2.
  rewrite <- lookup_drop. destruct (drop a l); [done|]. simpl. by rewrite take_0.
Qed.

Lemma chars_prefix_spec p l : chars_prefix p l = true <-> exists r, l = p ++ r.
Proof.
  revert l. induction p as [|a p IH]; intros l; simpl; [naive_solver|].
  destruct l as [|b l]; simpl.
  { split; [done|]. by intros [r Hr]. }
  rewrite andb_true_iff, bool_decide_eq_true, IH. split.
  - intros [-> [r ->]]. by exists r.
  - intros [r Hr]. injection Hr as -> ->. eauto.
Qed.

Lemma chars_prefix_length p l :
  chars_prefix p l = true -> List.length p <= List.length l.
Proof. intros [r ->]%chars_prefix_spec. rewrite length_app. lia. Qed.

(** [find] returns the least position at which the pattern occurs. *)
Lemma find_from_some pat l i k :
  find_from pat l i = Some k ->
  i <= k <= i + List.length l /\ chars_prefix pat (drop (k - i) l) = true /\
  forall j, i <= j < k -> chars_prefix pat (drop (j - i) l) = false.
Proof.
  revert i. induction l as [|c l IH]; intros i; simpl.
  - case_match eqn:E; [|done]. intros [= <-]. rewrite Nat.sub_diag. simpl.
    split; [lia|]. split; [done|]. intros; lia.
  - case_match eqn:E.
    + intros [= <-]. rewrite Nat.sub_diag. split; [lia|]. split; [done|]. intros; lia.
    + intros H%IH. destruct H as (H1 & H2 & H3).
      replace (k - i) with (S (k - S i)) by lia. split; [lia|]. split; [done|].
      intros j Hj. destruct (decide (j = i)) as [->|].
      * by rewrite Nat.sub_diag.
      * replace (j - i) with (S (j - S i)) by lia. apply H3. lia.
Qed.

Lemma find_from_none pat l i :
  find_from pat l i = None -> forall j, chars_prefix pat (drop j l) = false.
Proof.
  revert i. induction l as [|c l IH]; intros i; simpl.
  - case_match eqn:E; [done|]. intros _ j. by rewrite drop_nil.
  - case_match eqn:E; [done|]. intros H j. destruct j; [done|]. by apply (IH (S i)).
Qed.

Lemma py_find_some pat text pos k :
  py_find pat text pos = Some k ->
  pos <= k /\ chars_prefix pat (drop k text) = true /\
  forall j, pos <= j < k -> chars_prefix pat (drop j text) = false.
Proof.
  unfold py_find. case_bool_decide; [|done].
  intros (H1 & H2 & H3)%find_from_some. rewrite drop_drop in H2.
  replace (pos + (k - pos)) with k in H2 by lia. split; [lia|]. split; [done|].
  intros j Hj. specialize (H3 j Hj). rewrite drop_drop in H3.
  by replace (pos + (j - pos)) with j in H3 by lia.
Qed.

Lemma py_find_none pat text pos :
  py_find pat text pos = None -> 0 < List.length pat ->
  forall j, pos <= j -> chars_prefix pat (drop j text) = false.
Proof.
  unfold py_find. case_bool_decide as Hp.
  - intros H _ j Hj. pose proof (find_from_none _ _ _ H (j - pos)) as E.
    rewrite drop_drop in E. by replace (pos + (j - pos)) with j in E by lia.
  - intros _ Hl j Hj. rewrite drop_ge by lia. by destruct pat; simpl in *; [lia|].
Qed.

Lemma py_find_bound pat text pos k :
  py_find pat text pos = Some k -> k + List.length pat <= List.length text \/ pat = [].
Proof.
  intros (_ & H & _)%py_find_some. apply chars_prefix_length in H as H'.
  rewrite length_drop in H'. destruct pat; [by right|]. left. simpl in *. lia.
Qed.

Lemma startswith_spec p s : startswith p s = true <-> exists rest, s = p +:+ rest.
Proof.
  unfold startswith. revert p. induction s as [|c' s IH]; intros [|c p]; simpl.
  - split; [by exists ""|done].
  - split; [done|]. by intros [rest H].
  - split; [by eexists|done].
  - destruct (Ascii.ascii_dec c c') as [->|Hne].
    + rewrite IH. split; intros [rest H]; exists rest; [by rewrite H|].
      by injection H.
    + split; [done|]. intros [rest H]. injection H as H _. by destruct Hne.
Qed.

Lemma drop_while_idemp p l : drop_while p (drop_while p l) = drop_while p l.
Proof.
  induction l as [|c l IH]; simpl; [done|]. destruct (p c) eqn:E; [done|]. simpl. by rewrite E.
Qed.

Lemma drop_while_suffix p l : exists pre, l = pre ++ drop_while p l.
Proof.
  induction l as [|c l [pre IH]]; simpl; [by exists []|]. destruct (p c); [|by exists []].
  exists (c :: pre). simpl. by rewrite <- IH.
Qed.

Lemma drop_while_prefix p l k : drop_while p (l ++ k) = l ++ k -> l = [] \/ drop_while p l = l.
Proof.
  intros H. destruct l as [|c l]; [by left|right]. simpl in *. destruct (p c); [|done]. exfalso.
  destruct (drop_while_suffix p (l ++ k)) as [pre H']. rewrite H in H'.
  apply (f_equal List.length) in H'. rewrite !length_app in H'. simpl in H'. rewrite length_app in H'. lia.
Qed.

Lemma strip_chars_idemp l : strip_chars (strip_chars l) = strip_chars l.
Proof.
  unfold strip_chars. set (x := drop_while isspace_char l).
  set (y := rev (drop_while isspace_char (rev x))).
  assert (Hy : drop_while isspace_char y = y).
  { destruct (drop_while_suffix isspace_char (rev x)) as [pre H]. apply (f_equal (@rev _)) in H.
    rewrite rev_involutive, rev_app_distr in H. fold y in H.
    assert (drop_while isspace_char x = x) as Hx by apply drop_while_idemp. rewrite H in Hx.
    apply drop_while_prefix in Hx as [->|]; done. }
  rewrite Hy. unfold y. by rewrite rev_involutive, drop_while_idemp.
Qed.

Lemma strip_idemp s : strip (strip s) = strip s.
Proof. unfold strip. by rewrite str_chars_of_chars, strip_chars_idemp. Qed.

#[export] Hint Resolve utf8_len_nonneg utf8_width_pos : portex.
#[export] Hint Rewrite of_chars_str_chars str_chars_of_chars str_chars_app utf8_len_app : portex.
