(* ===== verification/PyInt.v ===== *)
(** * Python integers and datetimes at the edges

    [int(s)] for a decimal string, and the ranges of [timedelta] and
    [datetime], whose arithmetic raises [OverflowError]. Datetimes are
    microseconds since 1970. *)

From stdpp Require Import base list strings.
From Stdlib Require Import ZArith Lia Ascii String.
From S2P Require Import Prelude PyStr.

(** ** [int(s)] *)

Definition digit (c : ascii) : option Z :=
  if ((48 <=? code c) && (code c <=? 57))%N then Some (Z.of_N (code c) - 48)%Z else None.

(** Digits, with single underscores between them. *)
Fixpoint parse_digits (acc : Z) (after_digit : bool) (l : list ascii) : option Z :=
  match l with
  | [] => if after_digit then Some acc else None
  | c :: l' =>
      match digit c with
      | Some d => parse_digits (10 * acc + d)%Z true l'
      | None => if after_digit && bool_decide (c = "_"%char) then parse_digits acc false l' else None
      end
  end.

(** The whitespace [int] skips around the number: of an ASCII string, that of C. *)
Definition int_space (ascii_only : bool) (c : ascii) : bool :=
  let n := code c in
  if ascii_only then ((9 <=? n) && (n <=? 13) || (n =? 32))%N else isspace_char c.

Definition count_digits (l : list ascii) : nat :=
  List.length (List.filter (fun c => match digit c with Some _ => true | None => false end) l).

(** [int(s)]; [None] is the [ValueError], that of more than 4300 digits included. *)
Definition parse_int (s : string) : option Z :=
  let l := str_chars s in
  let sp := int_space (forallb (fun c => (code c <? 128)%N) l) in
  let l := rev (drop_while sp (rev (drop_while sp l))) in
  if (4300 <? Z.of_nat (count_digits l))%Z then None
  else match l with
       | "+"%char :: l' => parse_digits 0 false l'
       | "-"%char :: l' => Z.opp <$> parse_digits 0 false l'
       | _ => parse_digits 0 false l
       end.

(** ** Datetimes *)

(** A [datetime] argument: naive (its wall clock, read as UTC) or aware (the
    instant). *)
Inductive datetime := Naive (wall : Z) | Aware (instant : Z).

(** [value.astimezone(timezone.utc)] of an aware value; the wall clock of a
    naive one. *)
Definition utc_wall (v : datetime) : Z := match v with Naive w => w | Aware i => i end.

Definition datetime_min : Z := -62135596800000000.
Definition datetime_max : Z := 253402300799999999.

(** [timedelta(seconds=n)]: from -999999999 days to one second short of 10^9 days. *)
Definition timedelta_seconds (n : Z) : option Z :=
  if ((-86399999913600 <=? n) && (n <=? 86399999999999))%Z then Some (n * 1000000)%Z else None.

(** [datetime + timedelta]. *)
Definition datetime_add (t d : Z) : option Z :=
  if ((datetime_min <=? t + d) && (t + d <=? datetime_max))%Z then Some (t + d)%Z else None.

Lemma datetime_add_some t d u :
  datetime_add t d = Some u <-> u = (t + d)%Z /\ (datetime_min <= t + d <= datetime_max)%Z.
Proof.
  unfold datetime_add. destruct (_ && _)%bool eqn:E.
  - apply andb_true_iff in E as [H1%Z.leb_le H2%Z.leb_le]. split; [intros [= <-]; lia|].
    intros [-> _]. done.
  - split; [done|]. intros [_ H]. apply andb_false_iff in E as [E%Z.leb_gt|E%Z.leb_gt]; lia.
Qed.

Example parse_int_examples :
  parse_int "60" = Some 60%Z /\ parse_int " +1_000 " = Some 1000%Z /\ parse_int "-5" = Some (-5)%Z /\
  parse_int "1__0" = None /\ parse_int "_1" = None /\ parse_int "" = None /\ parse_int "1.5" = None.
Proof. repeat split; vm_compute; reflexivity. Qed.
