(* ===== verification/PyTime.v ===== *)
(** * [datetime.isoformat] and [datetime.fromisoformat]

    The calendar of Python's [datetime] (day ordinals, 1 is 0001-01-01), the text
    of a UTC datetime, and the part of [fromisoformat] that reads the extended
    format [isoformat] writes; [other_iso] stands for the further formats, and the
    [ValueError]s, of the standard library. Datetimes are microseconds since 1970. *)

From stdpp Require Import base list option strings.
From Stdlib Require Import ZArith Lia Ascii.
From S2P Require Import Prelude PyStr PyInt.

Local Open Scope Z_scope.

(** ** The calendar *)

Definition is_leap (y : Z) : bool :=
  (y mod 4 =? 0) && (negb (y mod 100 =? 0) || (y mod 400 =? 0)).

(** The days of the year before a month, and of a month. *)
Definition days_before_month (leap : bool) (m : Z) : Z :=
  nth (Z.to_nat (m - 1)) [0; 31; 59; 90; 120; 151; 181; 212; 243; 273; 304; 334] 0 +
  (if leap && (3 <=? m) then 1 else 0).
Definition days_in_month (leap : bool) (m : Z) : Z :=
  if (m =? 2) && leap then 29 else nth (Z.to_nat (m - 1)) [31; 28; 31; 30; 31; 30; 31; 31; 30; 31; 30; 31] 0.

Definition days_before_year (y : Z) : Z :=
  let p := y - 1 in p * 365 + p / 4 - p / 100 + p / 400.

Definition ymd2ord (y m d : Z) : Z := days_before_year y + days_before_month (is_leap y) m + d.

Definition valid_date (y m d : Z) : bool :=
  (1 <=? y) && (y <=? 9999) && (1 <=? m) && (m <=? 12) && (1 <=? d) && (d <=? days_in_month (is_leap y) m).

(** The month and the day of the month of a day of the year, from 0. *)
Fixpoint month_day (leap : bool) (n : Z) (months : list Z) : Z * Z :=
  match months with
  | [] => (1, n + 1)
  | m :: ms => if days_before_month leap m <=? n then (m, n - days_before_month leap m + 1)
               else month_day leap n ms
  end.
Definition twelve_to_one : list Z := [12; 11; 10; 9; 8; 7; 6; 5; 4; 3; 2; 1].

Definition ord2ymd (o : Z) : Z * Z * Z :=
  let n := o - 1 in
  let n400 := n / 146097 in let n := n mod 146097 in
  let n100 := n / 36524 in let n := n mod 36524 in
  let n4 := n / 1461 in let n := n mod 1461 in
  let n1 := n / 365 in let n := n mod 365 in
  let y := n400 * 400 + 1 + n100 * 100 + n4 * 4 + n1 in
  if (n1 =? 4) || (n100 =? 4) then (y - 1, 12, 31)
  else let '(m, d) := month_day (is_leap y) n twelve_to_one in (y, m, d).

(** ** Digits *)

Definition digit_char (n : Z) : ascii := ascii_of_N (Z.to_N (48 + n)).

(** [n] in exactly [k] digits. *)
Fixpoint fixed (k : nat) (n : Z) : list ascii :=
  match k with
  | O => []
  | S k => fixed k (n / 10) ++ [digit_char (n mod 10)]
  end.

(** The value of a text of digits only. *)
Fixpoint digits_value (acc : Z) (l : list ascii) : option Z :=
  match l with
  | [] => Some acc
  | c :: l => d ← digit c; digits_value (10 * acc + d) l
  end.
Definition number (l : list ascii) : option Z := digits_value 0 l.

(** ** [isoformat] of a UTC datetime *)

Definition epoch_ordinal : Z := 719163.
Definition us_per_day : Z := 86400000000.

Definition isoformat (t : Z) : string :=
  let '(y, m, d) := ord2ymd (t / us_per_day + epoch_ordinal) in
  let r := t mod us_per_day in
  let us := r mod 1000000 in
  let sec := r / 1000000 in
  of_chars (fixed 4 y ++ "-"%char :: fixed 2 m ++ "-"%char :: fixed 2 d ++ "T"%char ::
    fixed 2 (sec / 3600) ++ ":"%char :: fixed 2 (sec / 60 mod 60) ++ ":"%char :: fixed 2 (sec mod 60) ++
    (if us =? 0 then [] else "."%char :: fixed 6 us) ++ str_chars "+00:00").

(** ** [fromisoformat] *)

(** An offset [+HH:MM] or [-HH:MM], in seconds. *)
Definition parse_offset (l : list ascii) : option Z :=
  match l with
  | [s; h1; h2; c; m1; m2] =>
      h ← number [h1; h2]; m ← number [m1; m2];
      if bool_decide (c = ":"%char) && (h <=? 23) && (m <=? 59) then
        if bool_decide (s = "+"%char) then Some (h * 3600 + m * 60)
        else if bool_decide (s = "-"%char) then Some (- (h * 3600 + m * 60)) else None
      else None
  | _ => None
  end.

(** The end of a datetime: no offset, or an aware one. *)
Definition with_offset (wall : Z) (l : list ascii) : option datetime :=
  match l with
  | [] => Some (Naive wall)
  | _ => o ← parse_offset l; Some (Aware (wall - o * 1000000))
  end.

Definition parse_tail (wall : Z) (l : list ascii) : option datetime :=
  match l with
  | "."%char :: f1 :: f2 :: f3 :: f4 :: f5 :: f6 :: l' =>
      us ← number [f1; f2; f3; f4; f5; f6]; with_offset (wall + us) l'
  | _ => with_offset wall l
  end.

(** [YYYY-MM-DD?HH:MM:SS[.ffffff][+HH:MM]] with any separator. *)
Definition parse_extended (l : list ascii) : option datetime :=
  match l with
  | y1 :: y2 :: y3 :: y4 :: c1 :: m1 :: m2 :: c2 :: d1 :: d2 :: _ ::
    h1 :: h2 :: c3 :: i1 :: i2 :: c4 :: s1 :: s2 :: l' =>
      y ← number [y1; y2; y3; y4]; m ← number [m1; m2]; d ← number [d1; d2];
      h ← number [h1; h2]; i ← number [i1; i2]; s ← number [s1; s2];
      if bool_decide (c1 = "-"%char) && bool_decide (c2 = "-"%char) && bool_decide (c3 = ":"%char) &&
         bool_decide (c4 = ":"%char) && valid_date y m d && (h <=? 23) && (i <=? 59) && (s <=? 59)
      then parse_tail ((ymd2ord y m d - epoch_ordinal) * us_per_day + (h * 3600 + i * 60 + s) * 1000000) l'
      else None
  | _ => None
  end.

Definition fromisoformat (other_iso : string -> option datetime) (s : string) : option datetime :=
  match parse_extended (str_chars s) with
  | Some d => Some d
  | None => other_iso s
  end.

(** ** Lemmas *)

(** What holds of the ten digits, checked one by one. *)
Lemma digit_cases (P : Z -> Prop) `{forall n, Decision (P n)} :
  forallb (fun n => bool_decide (P n)) (seqZ 0 10) = true -> forall n, 0 <= n < 10 -> P n.
Proof.
  rewrite forallb_forall. intros A n Hn. apply (bool_decide_eq_true_1 (P n)), A, list_elem_of_In, elem_of_seqZ. lia.
Qed.

Lemma digit_of n : 0 <= n < 10 -> digit (digit_char n) = Some n.
Proof.
  revert n. apply (digit_cases (fun n => digit (digit_char n) = Some n)). vm_compute. reflexivity.
Qed.

Lemma digits_value_app acc l k :
  digits_value acc (l ++ k) = digits_value acc l ≫= fun v => digits_value v k.
Proof.
  revert acc. induction l as [|c l IH]; intros acc; [done|]. simpl.
  destruct (digit c); [|done]. apply IH.
Qed.

Lemma fixed_value k n acc : 0 <= n < 10 ^ Z.of_nat k ->
  digits_value acc (fixed k n) = Some (acc * 10 ^ Z.of_nat k + n).
Proof.
  revert n. induction k as [|k IH]; intros n H.
  - simpl in *. f_equal. lia.
  - rewrite Nat2Z.inj_succ, Z.pow_succ_r in * by lia. cbn [fixed]. rewrite digits_value_app.
    rewrite IH by (pose proof (Z.div_pos n 10); split; [lia|apply Z.div_lt_upper_bound; lia]).
    cbn [mbind option_bind digits_value]. rewrite digit_of by (apply Z.mod_pos_bound; lia).
    cbn [mbind option_bind]. f_equal. pose proof (Z.div_mod n 10 ltac:(lia)). lia.
Qed.

Lemma number_fixed k n : 0 <= n < 10 ^ Z.of_nat k -> number (fixed k n) = Some n.
Proof. intros H. unfold number. by rewrite fixed_value. Qed.

Lemma length_fixed k n : length (fixed k n) = k.
Proof. revert n. induction k as [|k IH]; intros n; [done|]. simpl. rewrite length_app, IH. simpl. lia. Qed.

(** The month and day found are a date of the year, at the right distance. *)
Definition month_day_ok (leap : bool) (n : Z) : bool :=
  let '(m, d) := month_day leap n twelve_to_one in
  (1 <=? m) && (m <=? 12) && (1 <=? d) && (d <=? days_in_month leap m) &&
  (days_before_month leap m + d =? n + 1).

Lemma month_day_spec (leap : bool) n :
  0 <= n < (if leap then 366 else 365) -> month_day_ok leap n = true.
Proof.
  intros H.
  assert (A : forallb (month_day_ok true) (map Z.of_nat (seq 0 366)) = true) by (vm_compute; reflexivity).
  assert (B : forallb (month_day_ok false) (map Z.of_nat (seq 0 365)) = true) by (vm_compute; reflexivity).
  rewrite forallb_forall in A, B. destruct leap; [apply A|apply B]; apply in_map_iff;
    exists (Z.to_nat n); (split; [lia|apply in_seq; lia]).
Qed.

(** Years by their place in the cycle of 400 years. *)
Lemma days_before_year_cycle a b c e :
  0 <= b <= 3 -> 0 <= c <= 24 -> 0 <= e <= 3 ->
  days_before_year (400 * a + 100 * b + 4 * c + e + 1) = 146097 * a + 36524 * b + 1461 * c + 365 * e.
Proof.
  intros Hb Hc He. unfold days_before_year.
  replace (400 * a + 100 * b + 4 * c + e + 1 - 1) with (400 * a + 100 * b + 4 * c + e) by lia.
  assert ((400 * a + 100 * b + 4 * c + e) / 4 = 100 * a + 25 * b + c) as ->
    by (symmetry; apply Z.div_unique with e; lia).
  assert ((400 * a + 100 * b + 4 * c + e) / 100 = 4 * a + b) as ->
    by (symmetry; apply Z.div_unique with (4 * c + e); lia).
  assert ((400 * a + 100 * b + 4 * c + e) / 400 = a) as ->
    by (symmetry; apply Z.div_unique with (100 * b + 4 * c + e); lia).
  lia.
Qed.

Lemma leap_four_hundred a : is_leap (400 * a) = true.
Proof.
  unfold is_leap. replace (400 * a) with (a * 100 * 4) by lia. rewrite Z.mod_mul by lia.
  replace (a * 100 * 4) with (a * 400) by lia. rewrite Z.mod_mul by lia. by rewrite orb_true_r.
Qed.

Lemma leap_fourth a b c : 0 <= b <= 3 -> 0 <= c < 24 -> is_leap (400 * a + 100 * b + 4 * c + 4) = true.
Proof.
  intros Hb Hc. unfold is_leap.
  replace (400 * a + 100 * b + 4 * c + 4) with ((100 * a + 25 * b + c + 1) * 4) by lia. rewrite Z.mod_mul by lia.
  replace ((100 * a + 25 * b + c + 1) * 4) with (4 * c + 4 + (4 * a + b) * 100) by lia.
  rewrite Z.mod_add, Z.mod_small by lia. destruct (Z.eqb_spec (4 * c + 4) 0); [lia|done].
Qed.

(** The last day of a leap year that starts a place in the cycle. *)
Lemma last_day y : 1 <= y <= 9999 -> is_leap y = true ->
  valid_date y 12 31 = true /\ ymd2ord y 12 31 = days_before_year y + 366.
Proof.
  intros Hy L. unfold valid_date, ymd2ord. rewrite L.
  rewrite (proj2 (Z.leb_le 1 y)), (proj2 (Z.leb_le y 9999)) by lia. split; [reflexivity|].
  change (days_before_month true 12) with 335. lia.
Qed.

Lemma ord2ymd_spec o :
  1 <= o <= 3652059 ->
  let '(y, m, d) := ord2ymd o in valid_date y m d = true /\ ymd2ord y m d = o.
Proof.
  intros Ho. unfold ord2ymd.
  pose proof (Z.div_mod (o - 1) 146097 ltac:(lia)) as D1. pose proof (Z.mod_pos_bound (o - 1) 146097 ltac:(lia)) as B1.
  set (a := (o - 1) / 146097) in *. set (r1 := (o - 1) mod 146097) in *.
  pose proof (Z.div_mod r1 36524 ltac:(lia)) as D2. pose proof (Z.mod_pos_bound r1 36524 ltac:(lia)) as B2.
  set (b := r1 / 36524) in *. set (r2 := r1 mod 36524) in *.
  pose proof (Z.div_mod r2 1461 ltac:(lia)) as D3. pose proof (Z.mod_pos_bound r2 1461 ltac:(lia)) as B3.
  set (c := r2 / 1461) in *. set (r3 := r2 mod 1461) in *.
  pose proof (Z.div_mod r3 365 ltac:(lia)) as D4. pose proof (Z.mod_pos_bound r3 365 ltac:(lia)) as B4.
  set (e := r3 / 365) in *. set (n := r3 mod 365) in *.
  clearbody a r1 b r2 c r3 e n.
  replace (a * 400 + 1 + b * 100 + c * 4 + e) with (400 * a + 100 * b + 4 * c + e + 1) by lia.
  destruct (Z.eqb_spec e 4) as [E|E]; [|destruct (Z.eqb_spec b 4) as [B|B]]; cbn [orb].
  - replace (400 * a + 100 * b + 4 * c + e + 1 - 1) with (400 * a + 100 * b + 4 * c + 3 + 1) by lia.
    destruct (last_day (400 * a + 100 * b + 4 * c + 3 + 1)) as [V ->]; [lia| |split; [done|]].
    + replace (400 * a + 100 * b + 4 * c + 3 + 1) with (400 * a + 100 * b + 4 * c + 4) by lia.
      apply leap_fourth; lia.
    + rewrite days_before_year_cycle by lia. lia.
  - replace (400 * a + 100 * b + 4 * c + e + 1 - 1) with (400 * a + 100 * 3 + 4 * 24 + 3 + 1) by lia.
    destruct (last_day (400 * a + 100 * 3 + 4 * 24 + 3 + 1)) as [V ->]; [lia| |split; [done|]].
    + replace (400 * a + 100 * 3 + 4 * 24 + 3 + 1) with (400 * (a + 1)) by lia. apply leap_four_hundred.
    + rewrite days_before_year_cycle by lia. lia.
  - set (y := 400 * a + 100 * b + 4 * c + e + 1).
    assert (Hn : 0 <= n < if is_leap y then 366 else 365) by (destruct (is_leap y); lia).
    pose proof (month_day_spec (is_leap y) n Hn) as M. unfold month_day_ok in M.
    destruct (month_day (is_leap y) n twelve_to_one) as [m d]. bool_hyps. rewrite Z.eqb_eq in *.
    split.
    + unfold valid_date. rewrite (proj2 (Z.leb_le 1 y)), (proj2 (Z.leb_le y 9999)) by (unfold y; lia).
      repeat (apply andb_true_intro; split); done.
    + unfold ymd2ord, y. rewrite days_before_year_cycle by lia. fold y. lia.
Qed.

Lemma valid_date_bounds y m d : valid_date y m d = true -> 1 <= y <= 9999 /\ 1 <= m <= 12 /\ 1 <= d <= 31.
Proof.
  unfold valid_date. intros H. bool_hyps. rewrite Z.leb_le in *. repeat split; try done.
  etrans; [eassumption|]. unfold days_in_month. destruct ((m =? 2) && _); [lia|].
  assert (forall k, nth k [31; 28; 31; 30; 31; 30; 31; 31; 30; 31; 30; 31] 0 <= 31) as K.
  { intros k. do 12 (destruct k as [|k]; [simpl; lia|]). simpl. by destruct k. }
  apply K.
Qed.

Lemma fixed_two n : 0 <= n < 100 -> exists a b, fixed 2 n = [a; b] /\ number [a; b] = Some n.
Proof.
  intros H. pose proof (length_fixed 2 n) as L. pose proof (number_fixed 2 n H) as V.
  destruct (fixed 2 n) as [|a [|b [|? l]]]; try discriminate L. by exists a, b.
Qed.

Lemma fixed_four n : 0 <= n < 10000 -> exists a b c d, fixed 4 n = [a; b; c; d] /\ number [a; b; c; d] = Some n.
Proof.
  intros H. pose proof (length_fixed 4 n) as L. pose proof (number_fixed 4 n H) as V.
  destruct (fixed 4 n) as [|a [|b [|c [|d [|? l]]]]]; try discriminate L. by exists a, b, c, d.
Qed.

Lemma fixed_six n : 0 <= n < 1000000 -> exists a b c d e f,
  fixed 6 n = [a; b; c; d; e; f] /\ number [a; b; c; d; e; f] = Some n.
Proof.
  intros H. pose proof (length_fixed 6 n) as L. pose proof (number_fixed 6 n H) as V.
  destruct (fixed 6 n) as [|a [|b [|c [|d [|e [|f [|? l]]]]]]]; try discriminate L. by exists a, b, c, d, e, f.
Qed.

Lemma with_offset_utc wall : with_offset wall (str_chars "+00:00") = Some (Aware wall).
Proof.
  transitivity (o ← parse_offset (str_chars "+00:00"); Some (Aware (wall - o * 1000000))); [reflexivity|].
  change (parse_offset (str_chars "+00:00")) with (Some 0). cbn [mbind option_bind]. do 2 f_equal. lia.
Qed.

Lemma parse_tail_iso wall us :
  0 <= us < 1000000 ->
  parse_tail wall ((if us =? 0 then [] else "."%char :: fixed 6 us) ++ str_chars "+00:00") =
  Some (Aware (wall + us)).
Proof.
  intros Hu. destruct (Z.eqb_spec us 0) as [->|N].
  - rewrite Z.add_0_r. transitivity (with_offset wall (str_chars "+00:00")); [reflexivity|].
    apply with_offset_utc.
  - destruct (fixed_six us Hu) as (a & b & c & d & e & f & -> & V).
    transitivity (us' ← number [a; b; c; d; e; f]; with_offset (wall + us') (str_chars "+00:00")); [reflexivity|].
    rewrite V. apply with_offset_utc.
Qed.

(** Reading a written datetime gives it back. *)
Lemma iso_roundtrip other_iso t :
  datetime_min <= t <= datetime_max -> fromisoformat other_iso (isoformat t) = Some (Aware t).
Proof.
  intros Ht. unfold fromisoformat, isoformat.
  pose proof (Z.div_mod t us_per_day ltac:(done)) as D. pose proof (Z.mod_pos_bound t us_per_day ltac:(done)) as R.
  set (q := t / us_per_day) in *. set (r := t mod us_per_day) in *. clearbody q r.
  unfold datetime_min, datetime_max, us_per_day, epoch_ordinal in *.
  pose proof (ord2ymd_spec (q + 719163) ltac:(lia)) as S. destruct (ord2ymd _) as [[y m] d].
  destruct S as [V O]. destruct (valid_date_bounds _ _ _ V) as (By & Bm & Bd).
  pose proof (Z.div_mod r 1000000 ltac:(lia)) as D1. pose proof (Z.mod_pos_bound r 1000000 ltac:(lia)) as R1.
  set (sec := r / 1000000) in *. set (us := r mod 1000000) in *. clearbody sec us.
  pose proof (Z.div_mod sec 3600 ltac:(lia)) as D2. pose proof (Z.mod_pos_bound sec 3600 ltac:(lia)) as R2.
  pose proof (Z.div_mod (sec / 60) 60 ltac:(lia)) as D3. pose proof (Z.mod_pos_bound (sec / 60) 60 ltac:(lia)) as R3.
  pose proof (Z.div_mod sec 60 ltac:(lia)) as D4. pose proof (Z.mod_pos_bound sec 60 ltac:(lia)) as R4.
  assert (E : sec / 60 / 60 = sec / 3600) by (rewrite Z.div_div by lia; reflexivity).
  set (hh := sec / 3600) in *. set (mi := sec / 60 mod 60) in *. set (ss := sec mod 60) in *.
  rewrite E in D3. clearbody hh mi ss.
  destruct (fixed_four y ltac:(lia)) as (y1 & y2 & y3 & y4 & -> & Vy).
  destruct (fixed_two m ltac:(lia)) as (m1 & m2 & -> & Vm). destruct (fixed_two d ltac:(lia)) as (d1 & d2 & -> & Vd).
  destruct (fixed_two hh ltac:(lia)) as (h1 & h2 & -> & Vh). destruct (fixed_two mi ltac:(lia)) as (i1 & i2 & -> & Vi).
  destruct (fixed_two ss ltac:(lia)) as (s1 & s2 & -> & Vs).
  rewrite str_chars_of_chars. cbn [app parse_extended]. rewrite Vy, Vm, Vd, Vh, Vi, Vs. cbn [mbind option_bind].
  rewrite !bool_decide_eq_true_2 by done. rewrite V.
  rewrite !(proj2 (Z.leb_le _ _)) by lia. cbn [andb].
  rewrite parse_tail_iso by lia. rewrite O. unfold epoch_ordinal, us_per_day. do 2 f_equal. lia.
Qed.

Example iso_examples :
  isoformat 0 = "1970-01-01T00:00:00+00:00"%string /\
  isoformat datetime_max = "9999-12-31T23:59:59.999999+00:00"%string /\
  isoformat 951827696000001 = "2000-02-29T12:34:56.000001+00:00"%string /\
  fromisoformat (fun _ => None) "2024-03-01 08:00:00+08:00" = Some (Aware 1709251200000000) /\
  fromisoformat (fun _ => None) "2023-02-29T00:00:00" = None.
Proof. vm_compute. repeat split; reflexivity. Qed.
