(* ===== verification/PyBase64.v ===== *)
(** * Bytes, UTF-8, [str.split] and URL-safe base64

    Byte strings are [list ascii], a byte per [ascii]. [base64.urlsafe_b64encode]
    and the lenient [base64.urlsafe_b64decode], which skips what is not in the
    alphabet and stops at complete padding; [services/auth.py] strips the padding
    and puts it back. *)

From stdpp Require Import base list option strings.
From Stdlib Require Import NArith ZArith Lia Ascii.
From S2P Require Import Prelude PyStr.

Local Open Scope N_scope.

Definition bytes := list ascii.

(** ** [s.encode("utf-8")] over U+0000 to U+00FF *)

Definition utf8_char (c : ascii) : bytes :=
  let n := code c in
  if n <? 128 then [c] else [ascii_of_N (192 + n / 64); ascii_of_N (128 + n mod 64)].
Definition utf8_encode (s : string) : bytes := flat_map utf8_char (str_chars s).

(** ** [s.split(sep)] for a one-character separator *)

Fixpoint split_chars (sep : ascii) (l : list ascii) : list (list ascii) :=
  match l with
  | [] => [[]]
  | c :: l' =>
      if bool_decide (c = sep) then [] :: split_chars sep l'
      else match split_chars sep l' with
           | [] => [[c]]
           | w :: ws => (c :: w) :: ws
           end
  end.
Definition py_split (sep : ascii) (s : string) : list string :=
  map of_chars (split_chars sep (str_chars s)).

(** ** The alphabet *)

Definition sextet_char (n : N) : ascii :=
  ascii_of_N (if n <? 26 then 65 + n else if n <? 52 then 71 + n else if n <? 62 then n - 4
              else if n =? 62 then 45 else 95).

(** The value of a character; [urlsafe_b64decode] maps [-] and [_] to [+] and [/]
    first, so all four are accepted. *)
Definition char_sextet (c : ascii) : option N :=
  let n := code c in
  if (65 <=? n) && (n <=? 90) then Some (n - 65)
  else if (97 <=? n) && (n <=? 122) then Some (n - 71)
  else if (48 <=? n) && (n <=? 57) then Some (n + 4)
  else if (n =? 45) || (n =? 43) then Some 62
  else if (n =? 95) || (n =? 47) then Some 63
  else None.

Definition pad_char : ascii := "="%char.

(** ** Encoding *)

Fixpoint b64_body (l : bytes) : list ascii :=
  match l with
  | a :: b :: c :: l' =>
      sextet_char (code a / 4) :: sextet_char (code a mod 4 * 16 + code b / 16)
      :: sextet_char (code b mod 16 * 4 + code c / 64) :: sextet_char (code c mod 64) :: b64_body l'
  | [a; b] =>
      [sextet_char (code a / 4); sextet_char (code a mod 4 * 16 + code b / 16);
       sextet_char (code b mod 16 * 4)]
  | [a] => [sextet_char (code a / 4); sextet_char (code a mod 4 * 16)]
  | [] => []
  end.

(** The padding of an encoding of that many bytes. *)
Definition b64_pad (n : nat) : list ascii :=
  match Nat.modulo n 3 with 0%nat => [] | 1%nat => [pad_char; pad_char] | _ => [pad_char] end.

(** [base64.urlsafe_b64encode]. *)
Definition urlsafe_b64encode (l : bytes) : list ascii := b64_body l ++ b64_pad (length l).

(** [s.rstrip("=")]. *)
Definition rstrip_pad (l : list ascii) : list ascii :=
  rev (drop_while (fun c => bool_decide (c = pad_char)) (rev l)).

(** ** Decoding *)

(** The loop of [binascii.a2b_base64]: the position in the group of four, the
    bits left over and the pads seen. *)
Fixpoint a2b (pos : nat) (left : N) (pads : nat) (l : list ascii) : option bytes :=
  match l with
  | [] => match pos with 0%nat => Some [] | _ => None end
  | c :: l' =>
      if bool_decide (c = pad_char) then
        if (2 <=? pos)%nat then
          if (4 <=? pos + S pads)%nat then Some [] else a2b pos left (S pads) l'
        else a2b pos left pads l'
      else
        match char_sextet c with
        | None => a2b pos left pads l'
        | Some n =>
            match pos with
            | 0%nat => a2b 1 n 0 l'
            | 1%nat => cons (ascii_of_N (left * 4 + n / 16)) <$> a2b 2 (n mod 16) 0 l'
            | 2%nat => cons (ascii_of_N (left * 16 + n / 4)) <$> a2b 3 (n mod 4) 0 l'
            | _ => cons (ascii_of_N (left * 64 + n)) <$> a2b 0 0 0 l'
            end
        end
  end.
Definition urlsafe_b64decode (l : list ascii) : option bytes := a2b 0 0 0 l.

(** ** Lemmas *)

Lemma code_lt c : code c < 256.
Proof. apply N_ascii_bounded. Qed.

Lemma ascii_code c : ascii_of_N (code c) = c.
Proof. apply ascii_N_embedding. Qed.

(** A property of the 64 sextets is checked one by one. *)
Lemma sextet_cases (P : N -> bool) :
  forallb P (map N.of_nat (seq 0 64)) = true -> forall n, n < 64 -> P n = true.
Proof.
  intros H n Hn. rewrite forallb_forall in H. apply H. apply in_map_iff.
  exists (N.to_nat n). rewrite N2Nat.id. split; [done|]. apply in_seq. lia.
Qed.

Lemma sextet_char_value n : n < 64 -> char_sextet (sextet_char n) = Some n.
Proof.
  intros Hn. assert (bool_decide (char_sextet (sextet_char n) = Some n) = true) as H.
  { revert n Hn. apply sextet_cases. vm_compute. reflexivity. }
  by apply bool_decide_eq_true in H.
Qed.

Lemma sextet_char_plain n : n < 64 -> sextet_char n <> pad_char /\ sextet_char n <> "$"%char.
Proof.
  intros Hn.
  assert (bool_decide (sextet_char n <> pad_char /\ sextet_char n <> "$"%char) = true) as H.
  { revert n Hn. apply sextet_cases. vm_compute. reflexivity. }
  by apply bool_decide_eq_true in H.
Qed.

(** Three bytes at a time. *)
Lemma triple_ind (P : bytes -> Prop) :
  P [] -> (forall a, P [a]) -> (forall a b, P [a; b]) ->
  (forall a b c l, P l -> P (a :: b :: c :: l)) -> forall l, P l.
Proof.
  intros H0 H1 H2 H3. fix IH 1. intros [|a [|b [|c l]]]; [exact H0|apply H1|apply H2|].
  apply H3, IH.
Qed.

Ltac sextet_bounds a :=
  pose proof (code_lt a); zify; Z.to_euclidean_division_equations; lia.

Lemma b64_body_sextet l c : c ∈ b64_body l -> exists n, n < 64 /\ c = sextet_char n.
Proof.
  revert l. apply (triple_ind (fun l => c ∈ b64_body l -> _)).
  - intros H. by apply not_elem_of_nil in H.
  - intros a. simpl. rewrite !elem_of_cons.
    intros [->|[->|Hin]]; [eexists; split; [|reflexivity]; sextet_bounds a..|by apply not_elem_of_nil in Hin].
  - intros a b. pose proof (code_lt b). simpl. rewrite !elem_of_cons.
    intros [->|[->|[->|Hin]]]; [eexists; split; [|reflexivity]; sextet_bounds a..|by apply not_elem_of_nil in Hin].
  - intros a b d l IH. pose proof (code_lt b). pose proof (code_lt d). cbn [b64_body].
    rewrite !elem_of_cons. intros [->|[->|[->|[->|Hin]]]]; [eexists; split; [|reflexivity]; sextet_bounds a..|].
    by apply IH.
Qed.
Lemma b64_body_plain l c : c ∈ b64_body l -> c <> pad_char /\ c <> "$"%char.
Proof. intros (n & Hn & ->)%b64_body_sextet. by apply sextet_char_plain. Qed.

Lemma rstrip_encoded l : rstrip_pad (urlsafe_b64encode l) = b64_body l.
Proof.
  unfold rstrip_pad, urlsafe_b64encode. rewrite rev_app_distr.
  set (p := fun c : ascii => bool_decide (c = pad_char)).
  assert (A : drop_while p (rev (b64_body l)) = rev (b64_body l)).
  { destruct (rev (b64_body l)) as [|c k] eqn:E; [done|]. cbn [drop_while].
    assert (c ∈ b64_body l) as [Hc _]%b64_body_plain.
    { apply list_elem_of_In, in_rev. rewrite E. by left. }
    unfold p. by rewrite bool_decide_eq_false_2. }
  assert (B : drop_while p (rev (b64_pad (length l)) ++ rev (b64_body l)) = rev (b64_body l)).
  { unfold b64_pad. destruct (Nat.modulo _ 3) as [|[|]]; simpl; exact A. }
  rewrite B. apply rev_involutive.
Qed.

Lemma a2b_sextet pos left pads n l :
  n < 64 ->
  a2b pos left pads (sextet_char n :: l) =
    match pos with
    | 0%nat => a2b 1 n 0 l
    | 1%nat => cons (ascii_of_N (left * 4 + n / 16)) <$> a2b 2 (n mod 16) 0 l
    | 2%nat => cons (ascii_of_N (left * 16 + n / 4)) <$> a2b 3 (n mod 4) 0 l
    | _ => cons (ascii_of_N (left * 64 + n)) <$> a2b 0 0 0 l
    end.
Proof.
  intros Hn. cbn [a2b]. destruct (sextet_char_plain n Hn) as [Hp _].
  rewrite bool_decide_eq_false_2 by done. by rewrite (sextet_char_value n Hn).
Qed.

Lemma a2b_pad_two left : a2b 2 left 0 [pad_char; pad_char] = Some [].
Proof. reflexivity. Qed.
Lemma a2b_pad_one left : a2b 3 left 0 [pad_char] = Some [].
Proof. reflexivity. Qed.

Lemma ascii_is n c : n = code c -> ascii_of_N n = c.
Proof. intros ->. apply ascii_code. Qed.

(** Decoding undoes encoding. *)
Lemma b64_roundtrip l : urlsafe_b64decode (b64_body l ++ b64_pad (length l)) = Some l.
Proof.
  unfold urlsafe_b64decode. revert l. apply triple_ind.
  - done.
  - intros a. cbn [b64_body app length b64_pad Nat.modulo Nat.divmod Nat.sub snd].
    rewrite !a2b_sextet by (sextet_bounds a). rewrite a2b_pad_two. cbn [fmap option_fmap option_map].
    by rewrite (ascii_is _ a) by (sextet_bounds a).
  - intros a b. pose proof (code_lt b). cbn [b64_body app length b64_pad Nat.modulo Nat.divmod Nat.sub snd].
    rewrite !a2b_sextet by (sextet_bounds a). rewrite a2b_pad_one. cbn [fmap option_fmap option_map].
    by rewrite (ascii_is _ a), (ascii_is _ b) by (sextet_bounds a).
  - intros a b c l IH. pose proof (code_lt b). pose proof (code_lt c). cbn [b64_body app].
    rewrite !a2b_sextet by (sextet_bounds a).
    replace (b64_pad (length (a :: b :: c :: l))) with (b64_pad (length l)).
    2:{ unfold b64_pad. simpl length. replace (S (S (S (length l)))) with (length l + 1 * 3)%nat by lia.
        by rewrite Nat.Div0.mod_add. }
    rewrite IH. cbn [fmap option_fmap option_map].
    by rewrite (ascii_is _ a), (ascii_is _ b), (ascii_is _ c) by (sextet_bounds a).
Qed.

Lemma length_b64_body l :
  Nat.modulo (length (b64_body l)) 4 = match Nat.modulo (length l) 3 with 0%nat => 0 | 1%nat => 2 | _ => 3 end%nat.
Proof.
  revert l. apply triple_ind; [done..|]. intros a b c l IH. cbn [b64_body]. simpl length.
  replace (S (S (S (S (length (b64_body l)))))) with (length (b64_body l) + 1 * 4)%nat by lia.
  replace (S (S (S (length l)))) with (length l + 1 * 3)%nat by lia. by rewrite !Nat.Div0.mod_add.
Qed.

Lemma b64_body_nil l : b64_body l = [] <-> l = [].
Proof. destruct l as [|a [|b [|c l]]]; split; done. Qed.

Lemma split_chars_app sep w l :
  sep ∉ w -> split_chars sep (w ++ sep :: l) = w :: split_chars sep l.
Proof.
  induction w as [|c w IH]; simpl; intros H.
  - by rewrite bool_decide_eq_true_2.
  - apply not_elem_of_cons in H as [H1 H2]. rewrite bool_decide_eq_false_2 by done.
    by rewrite IH.
Qed.

Lemma split_chars_none sep w : sep ∉ w -> split_chars sep w = [w].
Proof.
  induction w as [|c w IH]; simpl; intros H; [done|].
  apply not_elem_of_cons in H as [H1 H2]. rewrite bool_decide_eq_false_2 by done. by rewrite IH.
Qed.

Example b64_examples :
  of_chars (urlsafe_b64encode (str_chars "any carnal pleasure")) = "YW55IGNhcm5hbCBwbGVhc3VyZQ==" /\
  of_chars (rstrip_pad (urlsafe_b64encode (str_chars "ab"))) = "YWI" /\
  urlsafe_b64decode (str_chars "YW*I=") = Some (str_chars "ab") /\
  urlsafe_b64decode (str_chars "YWI") = None /\
  py_split "$"%char "a$$b" = ["a"; ""; "b"].
Proof. vm_compute. repeat split; reflexivity. Qed.
