(* ===== verification/PyFloat.v ===== *)
(** * Python floats

    A [float] is a dyadic number, an infinity or a NaN. The conversions from a ratio of
    integers, from an [int] and from a text round to the nearest double, ties to even;
    [datetime.fromtimestamp] of a [float]. The sign of zero is not kept. *)

From stdpp Require Import base list option strings.
From Stdlib Require Import ZArith NArith Lia Ascii.
From S2P Require Import Prelude PyStr PyInt.

Local Open Scope Z_scope.

(** [m * 2^e]. *)
Inductive float := FFinite (m e : Z) | FInf (negative : bool) | FNan.

(** ** Rounding *)

(** [a / b] to the nearest integer, ties to even, for [0 < b]. *)
Definition round_half_even (a b : Z) : Z :=
  let q := a / b in
  let r := a mod b in
  if 2 * r <? b then q else if b <? 2 * r then q + 1 else if Z.even q then q else q + 1.

(** The double next to [p / q], for [0 < q]: 53 bits, or as many as there are above [2^-1074]. *)
Definition of_ratio (p q : Z) : float :=
  if p =? 0 then FFinite 0 0
  else
    let k := Z.log2 (Z.abs p) - Z.log2 q in
    let above := if 0 <=? k then q * 2 ^ k <=? Z.abs p else q <=? Z.abs p * 2 ^ (- k) in
    let e := Z.max ((if above then k else k - 1) - 52) (-1074) in
    let m := if 0 <=? e then round_half_even p (q * 2 ^ e) else round_half_even (p * 2 ^ (- e)) q in
    if (0 <=? e) && (2 ^ 1024 <=? Z.abs m * 2 ^ e) then FInf (p <? 0) else FFinite m e.

(** A finite double as a ratio. *)
Definition num (m e : Z) : Z := m * 2 ^ Z.max e 0.
Definition den (e : Z) : Z := 2 ^ Z.max (- e) 0.

(** [float(n)]; [None] is the [OverflowError]. *)
Definition float_of_int (n : Z) : option float :=
  match of_ratio n 1 with FInf _ => None | x => Some x end.

(** ** [float(s)] *)

Fixpoint take_digits (acc : Z) (count : nat) (l : list ascii) : Z * nat * list ascii :=
  match l with
  | c :: l' => match digit c with Some d => take_digits (10 * acc + d) (S count) l' | None => (acc, count, l) end
  | [] => (acc, count, l)
  end.
Definition sign (l : list ascii) : bool * list ascii :=
  match l with "+"%char :: l => (false, l) | "-"%char :: l => (true, l) | _ => (false, l) end.
(** [m * 10^x]. *)
Definition of_decimal (m x : Z) : float := if 0 <=? x then of_ratio (m * 10 ^ x) 1 else of_ratio m (10 ^ (- x)).
(** An underscore counts only between two digits. *)
Fixpoint drop_underscores (after_digit : bool) (l : list ascii) : option (list ascii) :=
  match l with
  | [] => Some []
  | c :: l' =>
      if bool_decide (c = "_"%char) then
        if after_digit && match l' with d :: _ => bool_decide (is_Some (digit d)) | [] => false end
        then drop_underscores false l' else None
      else cons c <$> drop_underscores (bool_decide (is_Some (digit c))) l'
  end.

(** The number after its sign. *)
Definition unsigned_float (negative : bool) (l : list ascii) : option float :=
  let word := lower (of_chars l) in
  if bool_decide (word ∈ ["inf"; "infinity"]) then Some (FInf negative)
  else if bool_decide (word = "nan") then Some FNan
  else
    let '(m, whole, l) := take_digits 0 0 l in
    let '(m, fraction, l) := match l with "."%char :: l => take_digits m 0 l | _ => (m, 0%nat, l) end in
    if bool_decide (whole + fraction = 0)%nat then None
    else
      let m := if negative then - m else m in
      match l with
      | [] => Some (of_decimal m (- Z.of_nat fraction))
      | c :: l =>
          if bool_decide (lower_char c = "e"%char) then
            let '(minus, l) := sign l in
            let '(x, count, l) := take_digits 0 0 l in
            if bool_decide (count = 0%nat) || negb (bool_decide (l = [])) then None
            else Some (of_decimal m ((if minus then - x else x) - Z.of_nat fraction))
          else None
      end.
(** [None] is the [ValueError]. *)
Definition float_of_str (s : string) : option float :=
  l ← drop_underscores false (strip_chars (str_chars s));
  let '(negative, l) := sign l in
  unsigned_float negative l.

(** ** [datetime.fromtimestamp(x, tz=timezone.utc)] *)

(** [POutOfRange]: an [OverflowError], a [ValueError] or an [OSError], by the platform. *)
Inductive timestamp := PInstant (us : Z) | PNan | POutOfRange.
(** The seconds are split into their whole and their fraction, which is multiplied by a
    million as a float and rounded. *)
Definition fromtimestamp (x : float) : timestamp :=
  match x with
  | FNan => PNan
  | FInf _ => POutOfRange
  | FFinite m e =>
      let whole := Z.quot (num m e) (den e) in
      let fraction := num m e - whole * den e in
      let us := match of_ratio (fraction * 1000000) (den e) with
                | FFinite m e => round_half_even (num m e) (den e)
                | _ => 0
                end in
      let t := whole * 1000000 + us in
      if (datetime_min <=? t) && (t <=? datetime_max) then PInstant t else POutOfRange
  end.

(** [abs(x) >= n] and [x / d]. *)
Definition abs_at_least (x : float) (n : Z) : bool :=
  match x with FFinite m e => n * den e <=? Z.abs (num m e) | FInf _ => true | FNan => false end.
Definition divide (x : float) (d : Z) : float :=
  match x with FFinite m e => of_ratio (num m e) (den e * d) | x => x end.

(** ** Lemmas *)

Lemma round_half_even_exact a b : 0 < b -> round_half_even (a * b) b = a.
Proof. intros H. unfold round_half_even. rewrite Z.mod_mul, Z.div_mul by lia. destruct (Z.ltb_spec (2 * 0) b); lia. Qed.

(** Integers of up to 53 bits are exact. *)
Lemma of_ratio_int n : Z.abs n < 2 ^ 53 -> exists m e, of_ratio n 1 = FFinite m e /\ e <= 0 /\ m = n * 2 ^ (- e).
Proof.
  intros B. unfold of_ratio. destruct (Z.eqb_spec n 0) as [->|N]; [by exists 0, 0|].
  assert (P : 0 < Z.abs n) by lia. pose proof (Z.log2_spec _ P) as [L1 L2]. pose proof (Z.log2_nonneg (Z.abs n)) as L0.
  assert (L : Z.log2 (Z.abs n) < 53) by (apply Z.log2_lt_pow2; lia).
  change (Z.log2 1) with 0. rewrite Z.sub_0_r. set (k := Z.log2 (Z.abs n)) in *. cbv zeta.
  rewrite (proj2 (Z.leb_le 0 k)) by done. assert (A : (1 * 2 ^ k <=? Z.abs n) = true) by (apply Z.leb_le; lia). rewrite A.
  set (e := Z.max (k - 52) (-1074)). assert (E : e <= 0) by lia.
  exists (n * 2 ^ (- e)), e. split; [|done].
  assert (X : forall a, round_half_even a 1 = a) by (intros a; pose proof (round_half_even_exact a 1); rewrite Z.mul_1_r in *; lia).
  destruct (Z.leb_spec 0 e) as [E0|E0]; cbn [andb]; [|by rewrite X].
  replace e with 0 by lia. change (1 * 2 ^ 0) with 1. change (2 ^ (- 0)) with 1. change (2 ^ 0) with 1.
  assert (2 ^ 53 < 2 ^ 1024) by (by vm_compute). rewrite X, !Z.mul_1_r.
  by rewrite (proj2 (Z.leb_gt _ _)) by lia.
Qed.

(** A whole number of seconds is read as it stands. *)
Lemma fromtimestamp_seconds n x :
  float_of_int n = Some x -> (datetime_min <= n * 1000000 <= datetime_max) -> fromtimestamp x = PInstant (n * 1000000).
Proof.
  unfold float_of_int. intros E R. unfold datetime_min, datetime_max in R.
  destruct (of_ratio_int n) as (m & e & H & E0 & ->); [lia|]. rewrite H in E. injection E as <-.
  unfold fromtimestamp, num, den. rewrite Z.max_r, Z.max_l, Z.mul_1_r by lia.
  assert (P : 0 < 2 ^ (- e)) by (apply Z.pow_pos_nonneg; lia).
  rewrite Z.quot_mul, Z.sub_diag, Z.mul_0_l by lia. cbn -[Z.mul Z.add].
  rewrite Z.add_0_r. rewrite !(proj2 (Z.leb_le _ _)) by (unfold datetime_min, datetime_max; lia). done.
Qed.

Example float_examples :
  fromtimestamp <$> float_of_str "1700000000.5" = Some (PInstant 1700000000500000) /\
  fromtimestamp <$> float_of_str " 1_7e8 " = Some (PInstant 1700000000000000) /\
  fromtimestamp <$> float_of_str "0.1" = Some (PInstant 100000) /\
  fromtimestamp <$> float_of_str "-1.5" = Some (PInstant (-1500000)) /\
  fromtimestamp <$> float_of_str "1e400" = Some POutOfRange /\
  fromtimestamp <$> float_of_str "nan" = Some PNan /\
  float_of_str "" = None /\ float_of_str "." = None /\ float_of_str "1__0" = None /\ float_of_str "1e" = None /\
  float_of_int (2 ^ 53 + 1) = Some (FFinite (2 ^ 52) 1) /\ float_of_int (2 ^ 1024) = None /\
  (fun x => fromtimestamp (divide x 1000)) <$> float_of_int 1700000000123 = Some (PInstant 1700000000123000).
Proof. vm_compute. repeat split. Qed.
