(* ===== verification/PySort.v ===== *)
(** * Python ordering and sorting

    Lexicographic comparison of tuples, as Python compares sort keys, and the
    stable sort [sorted] / [list.sort]. [PyOrd] gives the comparison of a key
    type, [PyOrdLaws] what makes it a total preorder; keys of the code are
    nested pairs, so their instances are found by search. *)

From stdpp Require Import base list strings sorting.
From Stdlib Require Import ZArith QArith Lia Permutation Ascii String.
From S2P Require Import Prelude.

Class PyOrd (K : Type) := pcmp : K -> K -> comparison.

Class PyOrdLaws (K : Type) `{PyOrd K} := {
  pcmp_opp : forall x y : K, pcmp y x = CompOpp (pcmp x y);
  pcmp_eq_l : forall x y : K, pcmp x y = Eq -> forall z, pcmp x z = pcmp y z;
  pcmp_lt_trans : forall x y z : K, pcmp x y = Lt -> pcmp y z = Lt -> pcmp x z = Lt
}.

#[export] Instance PyOrd_Z : PyOrd Z := Z.compare.
#[export] Instance PyOrd_string : PyOrd string := String.compare.
#[export] Instance PyOrd_Q : PyOrd Q := Qcompare.

Definition lex (a b : comparison) : comparison := match a with Eq => b | _ => a end.

#[export] Instance PyOrd_pair {A B} `{PyOrd A, PyOrd B} : PyOrd (A * B) :=
  fun x y => lex (pcmp x.1 y.1) (pcmp x.2 y.2).

Fixpoint list_cmp {A} `{PyOrd A} (x y : list A) : comparison :=
  match x, y with
  | a :: x', b :: y' => lex (pcmp a b) (list_cmp x' y')
  | _ :: _, [] => Gt
  | [], _ :: _ => Lt
  | [], [] => Eq
  end.
#[export] Instance PyOrd_list {A} `{PyOrd A} : PyOrd (list A) := list_cmp.

(** [not (key y < key x)]: the test under which Python keeps [x] before [y]. *)
Definition key_leb {A K} `{PyOrd K} (key : A -> K) (x y : A) : bool :=
  match pcmp (key x) (key y) with Gt => false | _ => true end.

(** Python's [sorted(xs, key=key)]: a stable sort. *)
Fixpoint insert_by {A} (leb : A -> A -> bool) (x : A) (l : list A) : list A :=
  match l with
  | [] => [x]
  | y :: l' => if leb x y then x :: y :: l' else y :: insert_by leb x l'
  end.

Fixpoint sort_by {A} (leb : A -> A -> bool) (l : list A) : list A :=
  match l with
  | [] => []
  | x :: l' => insert_by leb x (sort_by leb l')
  end.

Definition py_sorted {A K} `{PyOrd K} (key : A -> K) (l : list A) : list A :=
  sort_by (key_leb key) l.

(** [sorted(xs, key=key, reverse=True)]: stable as well. *)
Definition py_sorted_rev {A K} `{PyOrd K} (key : A -> K) (l : list A) : list A :=
  sort_by (fun x y => key_leb key y x) l.

(** ** Laws of the key orders *)

Lemma lex_opp a b : CompOpp (lex a b) = lex (CompOpp a) (CompOpp b).
Proof. by destruct a. Qed.

#[export] Instance PyOrdLaws_Z : PyOrdLaws Z.
Proof.
  split; unfold pcmp, PyOrd_Z.
  - intros x y. apply Z.compare_antisym.
  - intros x y ->%Z.compare_eq_iff z. done.
  - intros x y z. rewrite !Z.compare_lt_iff. lia.
Qed.

#[export] Instance PyOrdLaws_Q : PyOrdLaws Q.
Proof.
  split; unfold pcmp, PyOrd_Q.
  - intros x y. symmetry. apply Qcompare_antisym.
  - intros x y H%Qeq_alt z. by rewrite H.
  - intros x y z H1%Qlt_alt H2%Qlt_alt. apply Qlt_alt. by eapply Qlt_trans.
Qed.

Lemma string_compare_lt_trans s1 s2 s3 :
  String.compare s1 s2 = Lt -> String.compare s2 s3 = Lt -> String.compare s1 s3 = Lt.
Proof.
  revert s2 s3. induction s1 as [|a s1 IH]; intros [|b s2] [|c s3]; simpl; try done.
  unfold Ascii.compare.
  destruct (N.compare_spec (N_of_ascii a) (N_of_ascii b)) as [E1|L1|L1];
  destruct (N.compare_spec (N_of_ascii b) (N_of_ascii c)) as [E2|L2|L2]; try done; intros H1 H2.
  - rewrite E1, E2, N.compare_refl. eauto.
  - rewrite E1. by apply N.compare_lt_iff in L2 as ->.
  - rewrite <- E2. by apply N.compare_lt_iff in L1 as ->.
  - assert ((N_of_ascii a ?= N_of_ascii c)%N = Lt) as ->; [|done].
    apply N.compare_lt_iff. lia.
Qed.

#[export] Instance PyOrdLaws_string : PyOrdLaws string.
Proof.
  split; unfold pcmp, PyOrd_string.
  - intros x y. apply String.compare_antisym.
  - by intros x y ->%String.compare_eq_iff z.
  - intros x y z. apply string_compare_lt_trans.
Qed.

#[export] Instance PyOrdLaws_pair {A B} `{PyOrdLaws A, PyOrdLaws B} : PyOrdLaws (A * B).
Proof.
  split; unfold pcmp, PyOrd_pair.
  - intros [a b] [a' b']; simpl. by rewrite (pcmp_opp a a'), (pcmp_opp b b'), lex_opp.
  - intros [a b] [a' b'] E [a'' b'']; simpl in *.
    destruct (pcmp a a') eqn:Ea; try done. simpl in E.
    by rewrite (pcmp_eq_l _ _ Ea), (pcmp_eq_l _ _ E).
  - intros [a b] [a' b'] [a'' b''] L1 L2; simpl in *.
    destruct (pcmp a a') eqn:Ea; try done; simpl in L1.
    + rewrite (pcmp_eq_l _ _ Ea). destruct (pcmp a' a''); simpl in *; try done.
      by eapply pcmp_lt_trans.
    + destruct (pcmp a' a'') eqn:Ea'; try done.
      * assert (pcmp a a'' = Lt) as ->; [|done].
        apply (f_equal CompOpp) in Ea'. rewrite <- pcmp_opp in Ea'. simpl in Ea'.
        rewrite pcmp_opp, (pcmp_eq_l _ _ Ea'), <- pcmp_opp. done.
      * by rewrite (pcmp_lt_trans _ _ _ Ea Ea').
Qed.

#[export] Instance PyOrdLaws_list {A} `{PyOrdLaws A} : PyOrdLaws (list A).
Proof.
  assert (Hopp : forall x y : list A, list_cmp y x = CompOpp (list_cmp x y)).
  { induction x as [|a x IH]; intros [|b y]; simpl; try done.
    by rewrite (pcmp_opp a b), IH, lex_opp. }
  assert (Heq : forall x y : list A, list_cmp x y = Eq -> forall z, list_cmp x z = list_cmp y z).
  { induction x as [|a x IH]; intros [|b y] E [|c z]; simpl in *; try done.
    destruct (pcmp a b) eqn:Ea; try done. by rewrite (pcmp_eq_l _ _ Ea), (IH _ E). }
  split; unfold pcmp, PyOrd_list; [done..|].
  induction x as [|a x IH]; intros [|b y] [|c z]; simpl; try done. intros L1 L2.
  destruct (pcmp a b) eqn:Ea; try done; simpl in L1.
  - rewrite (pcmp_eq_l _ _ Ea). destruct (pcmp b c); simpl in *; try done. by eapply IH.
  - destruct (pcmp b c) eqn:Ec; try done.
    + assert (pcmp a c = Lt) as ->; [|done].
      apply (f_equal CompOpp) in Ec. rewrite <- pcmp_opp in Ec. simpl in Ec.
      rewrite pcmp_opp, (pcmp_eq_l _ _ Ec), <- pcmp_opp. done.
    + by rewrite (pcmp_lt_trans _ _ _ Ea Ec).
Qed.

Section key_laws.
Context {A K : Type} `{PyOrdLaws K} (key : A -> K).

Lemma pcmp_refl (x : K) : pcmp x x = Eq.
Proof. pose proof (pcmp_opp x x) as E. by destruct (pcmp x x). Qed.

Lemma key_leb_refl x : key_leb key x x = true.
Proof. unfold key_leb. by rewrite pcmp_refl. Qed.

Lemma key_leb_total x y : key_leb key x y = true \/ key_leb key y x = true.
Proof. unfold key_leb. rewrite (pcmp_opp (key x) (key y)). destruct (pcmp _ _); auto. Qed.

Lemma key_leb_trans x y z :
  key_leb key x y = true -> key_leb key y z = true -> key_leb key x z = true.
Proof.
  unfold key_leb. destruct (pcmp (key x) (key y)) eqn:E1; try done.
  - by rewrite (pcmp_eq_l _ _ E1).
  - destruct (pcmp (key y) (key z)) eqn:E2; try done; intros _ _.
    + apply (f_equal CompOpp) in E2. rewrite <- pcmp_opp in E2. simpl in E2.
      by rewrite pcmp_opp, (pcmp_eq_l _ _ E2), <- pcmp_opp, E1.
    + by rewrite (pcmp_lt_trans _ _ _ E1 E2).
Qed.

Lemma key_leb_antisym x y :
  key_leb key x y = true -> key_leb key y x = true -> pcmp (key x) (key y) = Eq.
Proof. unfold key_leb. rewrite (pcmp_opp (key x) (key y)). by destruct (pcmp _ _). Qed.
End key_laws.

(** ** The sort is a stable sorting permutation *)

Section sort_laws.
Context {A : Type} (leb : A -> A -> bool).
Hypothesis leb_total : forall x y, leb x y = true \/ leb y x = true.
Hypothesis leb_trans : forall x y z, leb x y = true -> leb y z = true -> leb x z = true.

Lemma insert_by_perm x l : insert_by leb x l ≡ₚ x :: l.
Proof.
  clear leb_total leb_trans. induction l as [|y l IH]; simpl; [done|].
  case_match; [done|]. rewrite IH. by constructor.
Qed.

Lemma sort_by_perm l : sort_by leb l ≡ₚ l.
Proof.
  clear leb_total leb_trans.
  induction l as [|x l IH]; simpl; [done|]. by rewrite insert_by_perm, IH.
Qed.

Lemma insert_by_sorted x l :
  StronglySorted (fun a b => leb a b = true) l ->
  StronglySorted (fun a b => leb a b = true) (insert_by leb x l).
Proof.
  induction 1 as [|y l Hl IH Hy]; simpl; [by repeat constructor|].
  destruct (leb x y) eqn:E.
  - constructor; [by constructor|]. constructor; [done|].
    eapply Forall_impl; [exact Hy|]. intros z Hz. eauto.
  - constructor; [done|]. rewrite insert_by_perm. constructor; [|done].
    destruct (leb_total x y); congruence.
Qed.

Lemma sort_by_sorted l : StronglySorted (fun a b => leb a b = true) (sort_by leb l).
Proof. induction l as [|x l IH]; simpl; [constructor|]. by apply insert_by_sorted. Qed.

(** Elements the order cannot tell apart keep their relative order. *)
Lemma insert_by_stable (x : A) (p : A -> bool) l :
  (forall y, p x = true -> p y = true -> leb x y = true) ->
  List.filter p (insert_by leb x l) = List.filter p (x :: l).
Proof.
  clear leb_total leb_trans. intros Hp. induction l as [|y l IH]; simpl; [done|].
  destruct (leb x y) eqn:E; simpl; [done|]. rewrite IH. simpl.
  destruct (p x) eqn:Ex, (p y) eqn:Ey; try done.
  rewrite Hp in E; done.
Qed.

Lemma sort_by_stable (p : A -> bool) l :
  (forall x y, p x = true -> p y = true -> leb x y = true) ->
  List.filter p (sort_by leb l) = List.filter p l.
Proof.
  clear leb_total leb_trans. intros Hp. induction l as [|x l IH]; simpl; [done|].
  rewrite insert_by_stable by auto. simpl. by rewrite IH.
Qed.

Lemma sorted_perm_unique l1 l2 :
  (forall x y, x ∈ l1 -> y ∈ l1 -> leb x y = true -> leb y x = true -> x = y) ->
  StronglySorted (fun a b => leb a b = true) l1 ->
  StronglySorted (fun a b => leb a b = true) l2 ->
  l1 ≡ₚ l2 -> l1 = l2.
Proof.
  clear leb_total leb_trans.
  intros Hanti H1. revert l2 Hanti. induction H1 as [|x l1 H1 IH Hx]; intros l2 Hanti H2 Hp.
  - by apply Permutation_nil in Hp.
  - destruct H2 as [|y l2 H2 Hy]; [by apply Permutation_sym, Permutation_nil in Hp|].
    assert (x = y) as <-.
    { assert (x ∈ y :: l2) as Hxy by (rewrite <- Hp; left).
      assert (y ∈ x :: l1) as Hyx by (rewrite Hp; left).
      apply elem_of_cons in Hxy as [->|Hxy]; [done|].
      apply elem_of_cons in Hyx as [->|Hyx]; [done|].
      rewrite Forall_forall in Hx, Hy.
      apply Hanti; [left|by right|by apply Hx|by apply Hy]. }
    f_equal. apply IH; [|done|by apply Permutation_cons_inv in Hp].
    intros a b Ha Hb. apply Hanti; by right.
Qed.
End sort_laws.

Lemma py_sorted_perm {A K} `{PyOrd K} (key : A -> K) l : py_sorted key l ≡ₚ l.
Proof. apply sort_by_perm. Qed.

Lemma py_sorted_rev_perm {A K} `{PyOrd K} (key : A -> K) l : py_sorted_rev key l ≡ₚ l.
Proof. apply sort_by_perm. Qed.

Lemma py_sorted_sorted {A K} `{PyOrdLaws K} (key : A -> K) l :
  StronglySorted (fun a b => key_leb key a b = true) (py_sorted key l).
Proof.
  apply sort_by_sorted; intros; [apply key_leb_total|by eapply key_leb_trans].
Qed.

Lemma py_sorted_rev_sorted {A K} `{PyOrdLaws K} (key : A -> K) l :
  StronglySorted (fun a b => key_leb key b a = true) (py_sorted_rev key l).
Proof.
  apply (sort_by_sorted (fun x y => key_leb key y x)); intros;
    [apply key_leb_total|by eapply key_leb_trans].
Qed.

Lemma py_sorted_elem {A K} `{PyOrd K} (key : A -> K) l x : x ∈ py_sorted key l <-> x ∈ l.
Proof. by rewrite py_sorted_perm. Qed.

Lemma py_sorted_rev_elem {A K} `{PyOrd K} (key : A -> K) l x :
  x ∈ py_sorted_rev key l <-> x ∈ l.
Proof. by rewrite py_sorted_rev_perm. Qed.

(** When the key separates the elements the result does not depend on the
    order of the input. *)
Lemma py_sorted_determined {A K} `{PyOrdLaws K} (key : A -> K) l1 l2 :
  (forall x y, x ∈ l1 -> y ∈ l1 -> pcmp (key x) (key y) = Eq -> x = y) ->
  l1 ≡ₚ l2 -> py_sorted key l1 = py_sorted key l2.
Proof.
  intros Hinj Hp. apply (sorted_perm_unique (key_leb key)); [|apply py_sorted_sorted..|].
  - intros x y Hx%py_sorted_elem Hy%py_sorted_elem H1 H2.
    apply Hinj; [done..|]. by apply key_leb_antisym.
  - by rewrite !py_sorted_perm.
Qed.

#[export] Hint Resolve py_sorted_perm py_sorted_rev_perm : portex.
