(* ===== verification/PyDict.v ===== *)
(** * Python dictionaries in insertion order

    A [dict] whose iteration order is observable is an association list in
    insertion order: assignment to an existing key keeps its position, to a
    new key appends, [pop] removes. Dictionaries that are only looked up are
    [gmap]s in the components. *)

From stdpp Require Import base list option sets.
From Stdlib Require Import Lia.
From S2P Require Import Prelude.

Section defs.
Context {K V : Type} `{EqDecision K}.

Fixpoint od_get (k : K) (d : list (K * V)) : option V :=
  match d with
  | [] => None
  | (k', v) :: d' => if decide (k' = k) then Some v else od_get k d'
  end.

(** [d[k] = v]. *)
Fixpoint od_set (k : K) (v : V) (d : list (K * V)) : list (K * V) :=
  match d with
  | [] => [(k, v)]
  | (k', v') :: d' => if decide (k' = k) then (k, v) :: d' else (k', v') :: od_set k v d'
  end.

(** [d.pop(k, None)], the dictionary left. *)
Fixpoint od_pop (k : K) (d : list (K * V)) : list (K * V) :=
  match d with
  | [] => []
  | (k', v) :: d' => if decide (k' = k) then od_pop k d' else (k', v) :: od_pop k d'
  end.

(** [d.setdefault(k, v)], the dictionary left. *)
Definition od_setdefault (k : K) (v : V) (d : list (K * V)) : list (K * V) :=
  match od_get k d with Some _ => d | None => od_set k v d end.

(** In-place mutation of the value stored under [k], if any. *)
Definition od_update (k : K) (f : V -> V) (d : list (K * V)) : list (K * V) :=
  match od_get k d with Some v => od_set k (f v) d | None => d end.

Definition od_keys (d : list (K * V)) : list K := d.*1.
Definition od_values (d : list (K * V)) : list V := d.*2.

Definition od_wf (d : list (K * V)) : Prop := NoDup (od_keys d).
End defs.

Section laws.
Context {K V : Type} `{EqDecision K}.
Implicit Types (d : list (K * V)) (k : K) (v : V).

Lemma od_get_set_eq k v d : od_get k (od_set k v d) = Some v.
Proof.
  induction d as [|[k' v'] d IH]; csimpl; [by rewrite decide_True|].
  destruct (decide (k' = k)) as [->|]; csimpl; [by rewrite decide_True|].
  by rewrite decide_False.
Qed.

Lemma od_get_set_ne k k' v d : k <> k' -> od_get k' (od_set k v d) = od_get k' d.
Proof.
  intros Hne. induction d as [|[k0 v0] d IH]; csimpl; [by rewrite decide_False|].
  destruct (decide (k0 = k)) as [->|]; csimpl; [by rewrite !decide_False|].
  by rewrite IH.
Qed.

Lemma od_get_set k k' v d :
  od_get k' (od_set k v d) = if decide (k = k') then Some v else od_get k' d.
Proof. case_decide as H; [subst; apply od_get_set_eq|by apply od_get_set_ne]. Qed.

Lemma od_get_pop_eq k d : od_get k (od_pop k d) = None.
Proof.
  induction d as [|[k' v'] d IH]; csimpl; [done|].
  case_decide; csimpl; [done|]. by rewrite decide_False.
Qed.

Lemma od_get_pop_ne k k' d : k <> k' -> od_get k' (od_pop k d) = od_get k' d.
Proof.
  intros Hne. induction d as [|[k0 v0] d IH]; csimpl; [done|].
  destruct (decide (k0 = k)) as [->|]; csimpl; [by rewrite decide_False|]. by rewrite IH.
Qed.

Lemma od_get_pop k k' d :
  od_get k' (od_pop k d) = if decide (k = k') then None else od_get k' d.
Proof. case_decide as H; [subst; apply od_get_pop_eq|by apply od_get_pop_ne]. Qed.

Lemma od_get_update k k' f d :
  od_get k' (od_update k f d) = if decide (k = k') then f <$> od_get k d else od_get k' d.
Proof.
  unfold od_update. destruct (od_get k d) eqn:E.
  - rewrite od_get_set. by case_decide.
  - case_decide as H; [by subst|done].
Qed.

Lemma od_get_None k d : od_get k d = None <-> k ∉ od_keys d.
Proof.
  induction d as [|[k' v'] d IH]; csimpl; [set_solver|].
  unfold od_keys in *. csimpl. rewrite not_elem_of_cons, <- IH.
  case_decide; naive_solver.
Qed.

Lemma od_get_Some_elem k v d : od_get k d = Some v -> (k, v) ∈ d.
Proof.
  induction d as [|[k' v'] d IH]; csimpl; [done|].
  case_decide as H; [intros; subst; inv_res; left|right; auto].
Qed.

Lemma od_elem_get k v d : od_wf d -> (k, v) ∈ d -> od_get k d = Some v.
Proof.
  unfold od_wf, od_keys. induction d as [|[k' v'] d IH]; csimpl; [set_solver|].
  intros [Hn Hd]%NoDup_cons [Hin|Hin]%elem_of_cons.
  - injection Hin as -> ->. by rewrite decide_True.
  - rewrite decide_False; [by apply IH|]. intros ->. apply Hn.
    by apply (list_elem_of_fmap_2 fst) in Hin.
Qed.

Lemma od_keys_set_in k v d : k ∈ od_keys d -> od_keys (od_set k v d) = od_keys d.
Proof.
  unfold od_keys. induction d as [|[k' v'] d IH]; csimpl; [by intros ?%elem_of_nil|].
  destruct (decide (k' = k)) as [->|Hne]; csimpl; [done|].
  intros [->|Hin]%elem_of_cons; [done|]. by rewrite IH.
Qed.

Lemma od_keys_set_notin k v d : k ∉ od_keys d -> od_keys (od_set k v d) = od_keys d ++ [k].
Proof.
  unfold od_keys. induction d as [|[k' v'] d IH]; csimpl; [done|].
  intros [Hne Hin]%not_elem_of_cons. rewrite decide_False by congruence.
  csimpl. by rewrite IH.
Qed.

Lemma od_keys_pop_elem k k' d : k' ∈ od_keys (od_pop k d) <-> k' <> k /\ k' ∈ od_keys d.
Proof.
  unfold od_keys. induction d as [|[k0 v0] d IH]; csimpl; [set_solver|].
  case_decide; csimpl; set_solver.
Qed.

Lemma od_wf_nil : od_wf (@nil (K * V)).
Proof. constructor. Qed.

Lemma od_wf_set k v d : od_wf d -> od_wf (od_set k v d).
Proof.
  unfold od_wf. intros Hd. destruct (decide (k ∈ od_keys d)) as [H|H].
  { by rewrite od_keys_set_in. }
  rewrite od_keys_set_notin by done. apply NoDup_app. split; [done|]. split; [set_solver|apply NoDup_singleton].
Qed.

Lemma od_wf_pop k d : od_wf d -> od_wf (od_pop k d).
Proof.
  unfold od_wf, od_keys. induction d as [|[k' v'] d IH]; csimpl; [done|].
  intros [Hn Hd]%NoDup_cons. case_decide; csimpl; [auto|].
  constructor; [|auto]. intros Hin.
  change (k' ∈ od_keys (od_pop k d)) in Hin. apply od_keys_pop_elem in Hin as [_ Hin]. done.
Qed.

Lemma od_wf_update k f d : od_wf d -> od_wf (od_update k f d).
Proof. unfold od_update. case_match; [apply od_wf_set|done]. Qed.

Lemma od_wf_setdefault k v d : od_wf d -> od_wf (od_setdefault k v d).
Proof. unfold od_setdefault. case_match; [done|apply od_wf_set]. Qed.

Lemma od_get_setdefault k k' v d :
  od_get k' (od_setdefault k v d) =
    if decide (k = k') then Some (default v (od_get k d)) else od_get k' d.
Proof.
  unfold od_setdefault. destruct (od_get k d) eqn:E; csimpl.
  - case_decide; [by subst|done].
  - by rewrite od_get_set.
Qed.
End laws.

#[export] Hint Resolve od_wf_nil od_wf_set od_wf_pop od_wf_update od_wf_setdefault : portex.
#[export] Hint Rewrite @od_get_set_eq @od_get_pop_eq : portex.
