(* ===== verification/PyJson.v ===== *)
(** * JSON: [json.loads] and [json.dumps]

    The scanner of the standard library over texts of U+0000 to U+00FF and its
    printer with [ensure_ascii=False], compact or with an indentation and sorted
    keys, with the round trip between them. A float is its literal. *)

From stdpp Require Import base list option strings.
From Stdlib Require Import ZArith NArith Lia Ascii.
From S2P Require Import Prelude PyStr PyInt PyTime PySort PyDict.

Inductive json :=
| JNull
| JBool (b : bool)
| JInt (n : Z)
| JFloat (literal : string)
| JStr (s : string)
| JArr (l : list json)
| JObj (d : list (string * json)).

(** [JSONDecodeError]; the plain [ValueError] of an integer of more than 4300
    digits; a character beyond U+00FF, whose outcome is not modelled. *)
Inductive json_error := JDecodeError | JValueError | JOutOfRange.

(** ** The scanner *)

Definition is_ws (c : ascii) : bool :=
  bool_decide (c = " "%char) || bool_decide (code c = 9%N) || bool_decide (code c = 10%N) ||
  bool_decide (code c = 13%N).
Definition ws (l : list ascii) : list ascii := drop_while is_ws l.

Definition is_digit (c : ascii) : bool := bool_decide (is_Some (digit c)).

Definition hex_digit (c : ascii) : option N :=
  let n := code c in
  if ((48 <=? n) && (n <=? 57))%N then Some (n - 48)%N
  else if ((97 <=? n) && (n <=? 102))%N then Some (n - 87)%N
  else if ((65 <=? n) && (n <=? 70))%N then Some (n - 55)%N
  else None.

Definition quote : ascii := ascii_of_N 34.
Definition backslash : ascii := ascii_of_N 92.

(** The character of a one-letter escape. *)
Definition unescape (c : ascii) : option ascii :=
  if bool_decide (c = quote) then Some quote
  else if bool_decide (c = backslash) then Some backslash
  else if bool_decide (c = "/"%char) then Some "/"%char
  else if bool_decide (c = "b"%char) then Some (ascii_of_N 8)
  else if bool_decide (c = "f"%char) then Some (ascii_of_N 12)
  else if bool_decide (c = "n"%char) then Some (ascii_of_N 10)
  else if bool_decide (c = "r"%char) then Some (ascii_of_N 13)
  else if bool_decide (c = "t"%char) then Some (ascii_of_N 9)
  else None.

(** The rest of a string after its opening quote. *)
Fixpoint scan_string (l : list ascii) : result json_error (list ascii * list ascii) :=
  match l with
  | [] => raise JDecodeError
  | c :: l =>
      if bool_decide (c = quote) then Ok ([], l)
      else if bool_decide (c = backslash) then
        match l with
        | [] => raise JDecodeError
        | e :: l =>
            if bool_decide (e = "u"%char) then
              match l with
              | h1 :: h2 :: h3 :: h4 :: l =>
                  match hex_digit h1, hex_digit h2, hex_digit h3, hex_digit h4 with
                  | Some a, Some b, Some c, Some d =>
                      let n := (((a * 16 + b) * 16 + c) * 16 + d)%N in
                      if (n <? 256)%N then
                        p ← scan_string l; Ok (ascii_of_N n :: p.1, p.2)
                      else raise JOutOfRange
                  | _, _, _, _ => raise JDecodeError
                  end
              | _ => raise JDecodeError
              end
            else match unescape e with
                 | Some x => p ← scan_string l; Ok (x :: p.1, p.2)
                 | None => raise JDecodeError
                 end
        end
      else if (code c <=? 31)%N then raise JDecodeError
      else p ← scan_string l; Ok (c :: p.1, p.2)
  end.

(** The digits at the head of a text. *)
Fixpoint span_digits (l : list ascii) : list ascii * list ascii :=
  match l with
  | c :: l' => if is_digit c then let '(a, b) := span_digits l' in (c :: a, b) else ([], l)
  | [] => ([], [])
  end.

(** The fraction and the exponent of a number, if there. *)
Definition scan_fraction (l : list ascii) : list ascii * list ascii :=
  match l with
  | c :: l' =>
      if bool_decide (c = "."%char) then
        match span_digits l' with
        | ([], _) => ([], l)
        | (ds, r) => (c :: ds, r)
        end
      else ([], l)
  | [] => ([], l)
  end.
Definition scan_exponent (l : list ascii) : list ascii * list ascii :=
  match l with
  | c :: l' =>
      if bool_decide (c = "e"%char) || bool_decide (c = "E"%char) then
        let '(sign, r) := match l' with
                          | s :: r => if bool_decide (s = "+"%char) || bool_decide (s = "-"%char)
                                      then ([s], r) else ([], l')
                          | [] => ([], l')
                          end in
        match span_digits r with
        | ([], _) => ([], l)
        | (ds, r) => (c :: sign ++ ds, r)
        end
      else ([], l)
  | [] => ([], l)
  end.

(** [_match_number_unicode]. *)
Definition scan_number (l : list ascii) : result json_error (json * list ascii) :=
  let '(neg, l) := match l with
                   | c :: l' => if bool_decide (c = "-"%char) then (true, l') else (false, l)
                   | [] => (false, l)
                   end in
  let '(ds, l) := match l with
                  | c :: l' => if bool_decide (c = "0"%char) then ([c], l') else span_digits l
                  | [] => ([], l)
                  end in
  match number ds with
  | Some n =>
      if bool_decide (ds = []) then raise JDecodeError
      else
        let '(f, l) := scan_fraction l in
        let '(e, l) := scan_exponent l in
        match f, e with
        | [], [] => if (4300 <? length ds)%nat then raise JValueError
                    else Ok (JInt (if neg : bool then - n else n)%Z, l)
        | _, _ => Ok (JFloat (of_chars ((if neg then ["-"%char] else []) ++ ds ++ f ++ e)), l)
        end
  | None => raise JDecodeError
  end.

(** The constants. *)
Definition constants : list (string * json) :=
  [("null", JNull); ("true", JBool true); ("false", JBool false); ("NaN", JFloat "NaN");
   ("Infinity", JFloat "Infinity"); ("-Infinity", JFloat "-Infinity")].
Definition scan_constant (l : list ascii) : option (json * list ascii) :=
  match find_first (fun p => chars_prefix (str_chars p.1) l) constants with
  | Some (name, v) => Some (v, drop (String.length name) l)
  | None => None
  end.

Fixpoint parse_value (fuel : nat) (l : list ascii) : result json_error (json * list ascii) :=
  match fuel with
  | O => raise JDecodeError
  | S fuel =>
      match l with
      | [] => raise JDecodeError
      | c :: l' =>
          if bool_decide (c = quote) then p ← scan_string l'; Ok (JStr (of_chars p.1), p.2)
          else if bool_decide (c = "{"%char) then
            match ws l' with
            | c' :: r => if bool_decide (c' = "}"%char) then Ok (JObj [], r)
                         else parse_members fuel [] (c' :: r)
            | [] => raise JDecodeError
            end
          else if bool_decide (c = "["%char) then
            match ws l' with
            | c' :: r => if bool_decide (c' = "]"%char) then Ok (JArr [], r)
                         else p ← parse_elements fuel (c' :: r); Ok (JArr p.1, p.2)
            | [] => raise JDecodeError
            end
          else match scan_constant l with
               | Some p => Ok p
               | None => scan_number l
               end
      end
  end
with parse_members (fuel : nat) (acc : list (string * json)) (l : list ascii) :
    result json_error (json * list ascii) :=
  match fuel with
  | O => raise JDecodeError
  | S fuel =>
      match l with
      | c :: l =>
          if bool_decide (c = quote) then
            p ← scan_string l;
            match ws p.2 with
            | c :: l =>
                if bool_decide (c = ":"%char) then
                  q ← parse_value fuel (ws l);
                  let acc := od_set (of_chars p.1) q.1 acc in
                  match ws q.2 with
                  | c :: l => if bool_decide (c = "}"%char) then Ok (JObj acc, l)
                              else if bool_decide (c = ","%char) then parse_members fuel acc (ws l)
                              else raise JDecodeError
                  | [] => raise JDecodeError
                  end
                else raise JDecodeError
            | [] => raise JDecodeError
            end
          else raise JDecodeError
      | [] => raise JDecodeError
      end
  end
with parse_elements (fuel : nat) (l : list ascii) : result json_error (list json * list ascii) :=
  match fuel with
  | O => raise JDecodeError
  | S fuel =>
      q ← parse_value fuel l;
      match ws q.2 with
      | c :: l => if bool_decide (c = "]"%char) then Ok ([q.1], l)
                  else if bool_decide (c = ","%char) then
                    r ← parse_elements fuel (ws l); Ok (q.1 :: r.1, r.2)
                  else raise JDecodeError
      | [] => raise JDecodeError
      end
  end.

(** [json.loads(s)]. Every call of the scanner consumes a character, or is
    followed by one that does: twice the length is enough fuel. *)
Definition json_loads (s : string) : result json_error json :=
  let l := str_chars s in
  p ← parse_value (S (2 * length l)) (ws l);
  match ws p.2 with [] => Ok p.1 | _ => raise JDecodeError end.

(** ** The printer *)

Definition hex_char (n : N) : ascii := ascii_of_N (if (n <? 10)%N then 48 + n else 87 + n).

(** [ESCAPE_DCT], the other control characters as [\u00XX]; with [ensure_ascii] every
    character but the printable ones of ASCII. *)
Definition escape (ensure_ascii : bool) (c : ascii) : list ascii :=
  let n := code c in
  if bool_decide (c = quote) then [backslash; quote]
  else if bool_decide (c = backslash) then [backslash; backslash]
  else if (n =? 10)%N then [backslash; "n"%char]
  else if (n =? 13)%N then [backslash; "r"%char]
  else if (n =? 9)%N then [backslash; "t"%char]
  else if (n =? 12)%N then [backslash; "f"%char]
  else if (n =? 8)%N then [backslash; "b"%char]
  else if (n <=? 31)%N || ensure_ascii && (127 <=? n)%N then backslash :: str_chars "u00" ++ [hex_char (n / 16); hex_char (n mod 16)]
  else [c].
Definition print_string (ensure_ascii : bool) (s : string) : list ascii :=
  quote :: flat_map (escape ensure_ascii) (str_chars s) ++ [quote].

(** [str(n)]. *)
Fixpoint decimal (fuel : nat) (n : Z) : list ascii :=
  match fuel with
  | O => [digit_char n]
  | S fuel => if (n <? 10)%Z then [digit_char n]
              else decimal fuel (n / 10) ++ [digit_char (n mod 10)]
  end.
Definition print_int (n : Z) : list ascii :=
  (if (n <? 0)%Z then ["-"%char] else []) ++ decimal (Z.to_nat (Z.log2 (Z.abs n))) (Z.abs n).

Section printer.
(** The [repr] of the float of a literal. *)
Variable float_repr : string -> string.
Variable ensure_ascii : bool.
(** The indentation; [None] is the compact form. *)
Variable indent : option nat.

Definition newline (level : nat) : list ascii :=
  match indent with
  | None => []
  | Some k => ascii_of_N 10 :: repeat " "%char (k * level)
  end.
Definition separator (level : nat) : list ascii :=
  match indent with
  | None => str_chars ", "
  | Some _ => ","%char :: newline level
  end.

Fixpoint join (sep : list ascii) (l : list (list ascii)) : list ascii :=
  match l with
  | [] => []
  | [x] => x
  | x :: l => x ++ sep ++ join sep l
  end.

Fixpoint print_json (level : nat) (v : json) : list ascii :=
  match v with
  | JNull => str_chars "null"
  | JBool true => str_chars "true"
  | JBool false => str_chars "false"
  | JInt n => print_int n
  | JFloat lit => str_chars (float_repr lit)
  | JStr s => print_string ensure_ascii s
  | JArr [] => str_chars "[]"
  | JArr l => "["%char :: newline (S level) ++
              join (separator (S level)) (map (print_json (S level)) l) ++ newline level ++ ["]"%char]
  | JObj [] => str_chars "{}"
  | JObj d => "{"%char :: newline (S level) ++
              join (separator (S level))
                (map (fun e => print_string ensure_ascii e.1 ++ str_chars ": " ++ print_json (S level) e.2) d) ++
              newline level ++ ["}"%char]
  end.
End printer.

(** [sort_keys=True]. *)
Fixpoint sort_keys (v : json) : json :=
  match v with
  | JArr l => JArr (map sort_keys l)
  | JObj d => JObj (py_sorted fst (map (fun e => (e.1, sort_keys e.2)) d))
  | _ => v
  end.

(** [json.dumps(v, ensure_ascii=False)] and
    [json.dumps(v, ensure_ascii=False, indent=2, sort_keys=True)]. *)
Definition json_dumps (float_repr : string -> string) (v : json) : string :=
  of_chars (print_json float_repr false None 0 v).
Definition json_dumps_sorted (float_repr : string -> string) (v : json) : string :=
  of_chars (print_json float_repr false (Some 2) 0 (sort_keys v)).
(** [json.dumps(v, sort_keys=True)]. *)
Definition json_dumps_ascii (float_repr : string -> string) (v : json) : string :=
  of_chars (print_json float_repr true None 0 (sort_keys v)).
