(* ===== verification/PyJsonProps.v ===== *)
(** * The round trip of the JSON printer and scanner *)

From stdpp Require Import base list option strings sorting.
From Stdlib Require Import ZArith NArith Lia Ascii.
From S2P Require Import Prelude PyStr PyInt PyTime PySort PyDict PyJson.

(** ** Induction on values *)

Section json_induction.
Variable P : json -> Prop.
Hypothesis Pnull : P JNull.
Hypothesis Pbool : forall b, P (JBool b).
Hypothesis Pint : forall n, P (JInt n).
Hypothesis Pfloat : forall s, P (JFloat s).
Hypothesis Pstr : forall s, P (JStr s).
Hypothesis Parr : forall l, Forall P l -> P (JArr l).
Hypothesis Pobj : forall d, Forall (fun e => P e.2) d -> P (JObj d).

Fixpoint json_rect' (v : json) : P v :=
  match v with
  | JNull => Pnull
  | JBool b => Pbool b
  | JInt n => Pint n
  | JFloat s => Pfloat s
  | JStr s => Pstr s
  | JArr l => Parr l ((fix go l : Forall P l :=
      match l with [] => Forall_nil_2 _ | x :: l => Forall_cons_2 _ _ _ (json_rect' x) (go l) end) l)
  | JObj d => Pobj d ((fix go d : Forall (fun e => P e.2) d :=
      match d with [] => Forall_nil_2 _ | e :: d => Forall_cons_2 _ _ _ (json_rect' e.2) (go d) end) d)
  end.
End json_induction.

(** ** Strings *)

Lemma scan_escaped a c l :
  scan_string (escape a c ++ l) = (p ← scan_string l; Ok (c :: p.1, p.2)).
Proof. destruct a, c as [[] [] [] [] [] [] [] []]; reflexivity. Qed.

Lemma scan_printed a cs rest :
  scan_string (flat_map (escape a) cs ++ quote :: rest) = Ok (cs, rest).
Proof.
  induction cs as [|c cs IH]; [reflexivity|]. cbn [flat_map]. rewrite <- app_assoc, scan_escaped, IH. done.
Qed.

(** ** Numbers *)

(** A text at which a number ends. *)
Definition number_end (l : list ascii) : bool :=
  match l with
  | [] => true
  | c :: _ => negb (is_digit c || bool_decide (c = "."%char) || bool_decide (c = "e"%char) ||
                    bool_decide (c = "E"%char))
  end.

Lemma digit_char_cases n : (0 <= n < 10)%Z ->
  is_digit (digit_char n) = true /\ (n <> 0%Z -> digit_char n <> "0"%char).
Proof.
  revert n. apply (digit_cases (fun n => is_digit (digit_char n) = true /\ (n <> 0%Z -> digit_char n <> "0"%char))).
  vm_compute. reflexivity.
Qed.

Lemma one_digit_value n acc : (0 <= n < 10)%Z ->
  digits_value acc [digit_char n] = Some (acc * 10 ^ Z.of_nat (length [digit_char n]) + n)%Z.
Proof.
  intros H. cbn [digits_value]. rewrite digit_of by done. cbn [mbind option_bind length].
  change (10 ^ Z.of_nat 1)%Z with 10%Z. f_equal. lia.
Qed.

(** The decimal digits of a number: its value, without leading zeros. *)
Lemma decimal_spec fuel n : (0 <= n)%Z -> (Z.log2 n <= Z.of_nat fuel)%Z ->
  (forall acc, digits_value acc (decimal fuel n) =
    Some (acc * 10 ^ Z.of_nat (length (decimal fuel n)) + n)%Z) /\
  forallb is_digit (decimal fuel n) = true /\
  (n = 0%Z -> decimal fuel n = ["0"%char]) /\
  (n <> 0%Z -> exists c l, decimal fuel n = c :: l /\ c <> "0"%char).
Proof.
  revert n. induction fuel as [|fuel IH]; intros n Hn Hl.
  - assert (n < 2)%Z.
    { destruct (Z.lt_ge_cases n 2); [done|]. pose proof (Z.log2_le_mono 2 n ltac:(lia)).
      change (Z.log2 2) with 1%Z in *. lia. }
    assert (n = 0 \/ n = 1)%Z as [->| ->] by lia; cbn [decimal]; (split; [intros acc; by apply one_digit_value|]);
      (split; [done|]); split; try done; intros _; by eexists _, _.
  - cbn [decimal]. destruct (Z.ltb_spec n 10) as [L|L].
    + split; [intros acc; apply one_digit_value; lia|].
      destruct (digit_char_cases n ltac:(lia)) as [D1 D2].
      split; [cbn; by rewrite D1|]. split; [by intros ->|]. intros H. exists (digit_char n), []. auto.
    + pose proof (Z.div_mod n 10 ltac:(lia)) as E. pose proof (Z.mod_pos_bound n 10 ltac:(lia)) as B.
      assert (Hq : (1 <= n / 10)%Z) by (apply Z.div_le_lower_bound; lia).
      destruct (IH (n / 10)%Z ltac:(lia)) as (I1 & I2 & I3 & I4).
      { pose proof (Z.log2_le_mono (2 * (n / 10)) n ltac:(lia)) as M. rewrite Z.log2_double in M by lia. lia. }
      destruct (digit_char_cases (n mod 10) B) as [D1 _].
      split; [|split; [|split; [lia|]]].
      * intros acc. rewrite digits_value_app, I1. cbn [mbind option_bind digits_value].
        rewrite digit_of by lia. cbn [mbind option_bind]. f_equal. rewrite length_app. cbn [length].
        rewrite Nat2Z.inj_add, Z.pow_add_r by lia. change (10 ^ Z.of_nat 1)%Z with 10%Z. lia.
      * rewrite forallb_app, I2. cbn. by rewrite D1.
      * intros _. destruct (I4 ltac:(lia)) as (c & l & -> & Hc). by exists c, (l ++ [digit_char (n mod 10)]).
Qed.

Lemma span_digits_all ds rest :
  forallb is_digit ds = true -> (match rest with c :: _ => is_digit c = false | [] => True end) ->
  span_digits (ds ++ rest) = (ds, rest).
Proof.
  intros H R. induction ds as [|c ds IH]; simpl in *.
  - destruct rest as [|c r]; [done|]. simpl. by rewrite R.
  - apply andb_true_iff in H as [H1 H2]. rewrite H1, (IH H2). done.
Qed.

(** The digits of an integer. *)
Definition int_digits (n : Z) : list ascii := decimal (Z.to_nat (Z.log2 (Z.abs n))) (Z.abs n).

Lemma int_digits_spec n :
  number (int_digits n) = Some (Z.abs n) /\ forallb is_digit (int_digits n) = true /\
  (int_digits n = ["0"%char] \/ exists c l, int_digits n = c :: l /\ c <> "0"%char).
Proof.
  destruct (decimal_spec (Z.to_nat (Z.log2 (Z.abs n))) (Z.abs n)) as (H1 & H2 & H3 & H4);
    [lia|pose proof (Z.log2_nonneg (Z.abs n)); lia|]. fold (int_digits n) in *.
  split; [unfold number; by rewrite H1|]. split; [done|].
  destruct (decide (Z.abs n = 0%Z)); auto.
Qed.

Lemma number_end_tail rest : number_end rest = true ->
  (match rest with c :: _ => is_digit c = false | [] => True end) /\
  scan_fraction rest = ([], rest) /\ scan_exponent rest = ([], rest).
Proof.
  destruct rest as [|c r]; [done|]. cbn [number_end]. intros H%negb_true_iff.
  apply orb_false_iff in H as [[[H1 H2]%orb_false_iff H3]%orb_false_iff H4].
  unfold scan_fraction, scan_exponent. by rewrite H1, H2, H3, H4.
Qed.

Lemma digit_plain c : is_digit c = true ->
  c <> quote /\ c <> "{"%char /\ c <> "["%char /\ c <> "-"%char /\ is_ws c = false /\ c <> "]"%char /\
  c <> "n"%char /\ c <> "t"%char /\ c <> "f"%char /\ c <> "N"%char /\ c <> "I"%char.
Proof. destruct c as [[] [] [] [] [] [] [] []]; try discriminate; done. Qed.

Lemma scan_number_printed n rest :
  number_end rest = true -> length (int_digits n) <= 4300 ->
  scan_number (print_int n ++ rest) = Ok (JInt n, rest).
Proof.
  intros [R1 [R2 R3]]%number_end_tail Hl. destruct (int_digits_spec n) as (V & D & S).
  unfold print_int. fold (int_digits n).
  assert (K : forall neg : bool,
    (let '(ds, l) := match int_digits n ++ rest with
                     | c :: l' => if bool_decide (c = "0"%char) then ([c], l') else span_digits (int_digits n ++ rest)
                     | [] => ([], int_digits n ++ rest) end in
     match number ds with
     | Some n =>
        if bool_decide (ds = []) then raise JDecodeError
        else
        let '(f, l) := scan_fraction l in
        let '(e, l) := scan_exponent l in
        match f, e with
        | [], [] => if (4300 <? length ds)%nat then raise JValueError
                    else Ok (JInt (if neg then - n else n)%Z, l)
        | _, _ => Ok (JFloat (of_chars ((if neg then ["-"%char] else []) ++ ds ++ f ++ e)), l)
        end
     | None => raise JDecodeError end) = Ok (JInt (if neg then - Z.abs n else Z.abs n)%Z, rest)).
  { intros neg.
    assert (E : match int_digits n ++ rest with
                | c :: l' => if bool_decide (c = "0"%char) then ([c], l') else span_digits (int_digits n ++ rest)
                | [] => ([], int_digits n ++ rest) end = (int_digits n, rest)).
    { destruct S as [->|(c & l & E & Hc)]; [done|]. rewrite E. cbn [app].
      rewrite bool_decide_eq_false_2 by done. rewrite app_comm_cons, <- E. by apply span_digits_all. }
    rewrite E, V, R2, R3.
    rewrite bool_decide_eq_false_2 by (intros E'; destruct S as [S|(? & ? & S & _)]; congruence).
    by rewrite (proj2 (Nat.ltb_ge 4300 _)) by lia. }
  unfold scan_number. destruct (Z.ltb_spec n 0) as [L|L].
  - cbn [app]. rewrite bool_decide_eq_true_2 by done. rewrite (K true). do 3 f_equal. lia.
  - cbn [app]. destruct (int_digits n ++ rest) as [|c k] eqn:E.
    + destruct S as [S|(? & ? & S & _)]; by rewrite S in E.
    + assert (is_digit c = true) as (_ & _ & _ & Hm & _)%digit_plain.
      { destruct S as [S|(c' & l & S & _)]; rewrite S in E, D; cbn [app] in E; injection E as <- _; [done|].
        simpl in D. by apply andb_true_iff in D as [D _]. }
      rewrite bool_decide_eq_false_2 by done. rewrite (K false). do 3 f_equal. lia.
Qed.

(** ** Values *)

(** The values the round trip is about: integers that can be read back, distinct
    keys, no floats. *)
Fixpoint json_wf (v : json) : Prop :=
  match v with
  | JFloat _ => False
  | JInt n => length (int_digits n) <= 4300
  | JArr l => fold_right (fun x P => json_wf x /\ P) True l
  | JObj d => od_wf d /\ fold_right (fun e P => json_wf e.2 /\ P) True d
  | _ => True
  end.

Lemma fold_and_Forall {A} (Q : A -> Prop) l : fold_right (fun x P => Q x /\ P) True l <-> Forall Q l.
Proof. induction l as [|x l IH]; simpl; [by split|]. by rewrite IH, Forall_cons. Qed.

Lemma ws_skip x l : forallb is_ws x = true -> ws (x ++ l) = ws l.
Proof.
  unfold ws. induction x as [|c x IH]; simpl; [done|]. intros [H1 H2]%andb_true_iff. rewrite H1. by apply IH.
Qed.

Lemma ws_stop c l : is_ws c = false -> ws (c :: l) = c :: l.
Proof. unfold ws. simpl. by intros ->. Qed.

Section values.
Variable float_repr : string -> string.
Variable ensure_ascii : bool.
Variable indent : option nat.

Local Abbreviation print := (print_json float_repr ensure_ascii indent).
Local Abbreviation newline := (newline indent).
Local Abbreviation separator := (separator indent).

Lemma newline_ws level : forallb is_ws (newline level) = true.
Proof.
  unfold PyJson.newline. destruct indent as [k|]; [|done]. cbn [forallb]. change (is_ws (ascii_of_N 10)) with true.
  cbn [andb]. induction (k * level) as [|m IH]; [done|]. by cbn.
Qed.

(** A separator is a comma and whitespace. *)
Lemma separator_comma level : exists x, separator level = ","%char :: x /\ forallb is_ws x = true.
Proof.
  unfold PyJson.separator. destruct indent as [k|] eqn:E; [|by exists [" "%char]].
  eexists. split; [done|]. rewrite <- E. apply newline_ws.
Qed.

(** A printed value starts with a character that is neither whitespace nor a
    closing bracket. *)
Lemma print_head level v : json_wf v ->
  exists c l, print level v = c :: l /\ is_ws c = false /\ c <> "]"%char /\ c <> "}"%char.
Proof.
  destruct v as [|[]|n|s|s|[|x l]|[|e d]]; intros W; try done;
    cbn [print_json]; try (eexists _, _; split; [reflexivity|]; done).
  unfold print_int. fold (int_digits n). destruct (int_digits_spec n) as (_ & D & S).
  destruct (n <? 0)%Z; cbn [app]; [eexists _, _; split; [reflexivity|]; done|].
  assert (exists c l, int_digits n = c :: l) as (c & l & E)
    by (destruct S as [S|(c & l & S & _)]; rewrite S; by eexists _, _).
  rewrite E in *. simpl in D. apply andb_true_iff in D as [D _]. exists c, l. split; [done|].
  apply digit_plain in D as D'. destruct D' as (_ & _ & _ & _ & H1 & H2 & _). split; [done|].
  split; [done|]. intros ->. discriminate D.
Qed.

Lemma number_end_comma level l : number_end (separator level ++ l) = true.
Proof. destruct (separator_comma level) as (x & -> & _). reflexivity. Qed.

Lemma number_end_newline level c l :
  is_digit c = false -> c <> "."%char -> c <> "e"%char -> c <> "E"%char ->
  number_end (newline level ++ c :: l) = true.
Proof.
  intros H1 H2 H3 H4. unfold PyJson.newline. destruct indent as [k|]; [reflexivity|]. cbn [app number_end].
  rewrite H1. by rewrite !bool_decide_eq_false_2.
Qed.

Definition reads (v : json) : Prop :=
  json_wf v -> forall level rest n, number_end rest = true -> 2 * length (print level v) <= n ->
    parse_value n (print level v ++ rest) = Ok (v, rest).

Lemma print_pos level v : json_wf v -> 1 <= length (print level v).
Proof. intros W. destruct (print_head level v W) as (c & l & -> & _). simpl. lia. Qed.

Lemma scan_constant_none c l :
  c <> "n"%char -> c <> "t"%char -> c <> "f"%char -> c <> "N"%char -> c <> "I"%char ->
  (c = "-"%char -> exists d k, l = d :: k /\ is_digit d = true) -> scan_constant (c :: l) = None.
Proof.
  intros H1 H2 H3 H4 H5 H6. unfold scan_constant, constants. simpl. rewrite !(bool_decide_eq_false_2 (_ = c)) by congruence. cbn [andb].
  destruct (decide (c = "-"%char)) as [->|].
  - destruct H6 as (d & k & -> & Hd); [done|]. rewrite bool_decide_eq_true_2 by done. cbn [andb].
    apply digit_plain in Hd as (_ & _ & _ & _ & _ & _ & _ & _ & _ & _ & Hd).
    by rewrite bool_decide_eq_false_2 by congruence.
  - by rewrite bool_decide_eq_false_2 by congruence.
Qed.

Lemma reads_int z : reads (JInt z).
Proof.
  intros W level rest n R Hn. simpl in W. pose proof (scan_number_printed z rest R W) as E.
  destruct (int_digits_spec z) as (_ & D & S).
  assert (exists c l, int_digits z = c :: l /\ is_digit c = true) as (c & l & Ec & Hc).
  { destruct S as [S|(c & l & S & _)]; [by exists "0"%char, []|]. rewrite S in D. exists c, l.
    simpl in D. by apply andb_true_iff in D as [D _]. }
  cbn [print_json] in *. destruct n as [|n].
  { exfalso. unfold print_int in Hn. fold (int_digits z) in Hn. rewrite Ec, length_app in Hn. simpl in Hn. lia. }
  unfold print_int in *. fold (int_digits z) in *. rewrite Ec in *.
  apply digit_plain in Hc as Hd. destruct Hd as (P1 & P2 & P3 & P4 & _ & _ & P5 & P6 & P7 & P8 & P9).
  destruct (z <? 0)%Z; cbn [app parse_value] in *.
  - rewrite !(bool_decide_eq_false_2 ("-"%char = _)) by done.
    rewrite scan_constant_none; [exact E|done..|]. intros _. by exists c, (l ++ rest).
  - rewrite !bool_decide_eq_false_2 by done. rewrite scan_constant_none; [exact E|done..].
Qed.

(** After a comma: the whitespace of the separator is skipped, the next item is not. *)
Lemma ws_item level x v l :
  forallb is_ws x = true -> json_wf v -> ws (x ++ print level v ++ l) = print level v ++ l.
Proof.
  intros Hx W. rewrite ws_skip by done. destruct (print_head level v W) as (c & k & -> & H & _).
  cbn [app]. by apply ws_stop.
Qed.

Lemma ws_close level c l : is_ws c = false -> ws (newline level ++ c :: l) = c :: l.
Proof. intros H. rewrite ws_skip by apply newline_ws. by apply ws_stop. Qed.

Lemma reads_elements level l rest n :
  l <> [] -> Forall reads l -> Forall json_wf l ->
  2 * length (join (separator (S level)) (map (print (S level)) l)) + 1 <= n ->
  parse_elements n (join (separator (S level)) (map (print (S level)) l) ++ newline level ++ "]"%char :: rest) =
    Ok (l, rest).
Proof.
  intros Hne. revert n. induction l as [|x l IH]; intros n; [done|clear Hne].
  intros [Rx Rl]%Forall_cons [Wx Wl]%Forall_cons Hn. destruct n as [|n]; [lia|]. cbn [parse_elements].
  destruct l as [|y l].
  - cbn [map join] in *. rewrite (Rx Wx) by (lia || by apply number_end_newline).
    cbn [mbind result_bind fst snd]. rewrite ws_close by done. by rewrite bool_decide_eq_true_2.
  - change (join (separator (S level)) (map (print (S level)) (x :: y :: l))) with
      (print (S level) x ++ separator (S level) ++ join (separator (S level)) (map (print (S level)) (y :: l))) in *.
    set (j := join _ (map _ (y :: l))) in *. rewrite !length_app in Hn.
    destruct (separator_comma (S level)) as (w & Ew & Hw). rewrite Ew in *. cbn [length] in Hn.
    rewrite <- !app_assoc. rewrite (Rx Wx); [|reflexivity|lia].
    cbn [mbind result_bind fst snd app]. rewrite ws_stop by done. rewrite bool_decide_eq_false_2 by done.
    rewrite bool_decide_eq_true_2 by done.
    assert (E : ws (w ++ j ++ newline level ++ "]"%char :: rest) = j ++ newline level ++ "]"%char :: rest).
    { apply Forall_cons in Wl as [Wy _]. unfold j. destruct l; cbn [map join]; rewrite <- ?app_assoc;
        by apply ws_item. }
    rewrite E, IH by (done || lia). done.
Qed.

Lemma od_set_fresh k v (acc : list (string * json)) : k ∉ od_keys acc -> od_set k v acc = acc ++ [(k, v)].
Proof.
  induction acc as [|[k' v'] acc IH]; [done|]. unfold od_keys. csimpl. intros H.
  apply not_elem_of_cons in H as [H1 H2]. rewrite decide_False by congruence. by rewrite IH.
Qed.

Definition print_member (level : nat) (e : string * json) : list ascii :=
  print_string ensure_ascii e.1 ++ str_chars ": " ++ print (S level) e.2.

Lemma reads_members level d acc rest n :
  d <> [] -> Forall (fun e => reads e.2) d -> Forall (fun e => json_wf e.2) d -> od_wf (acc ++ d) ->
  2 * length (join (separator (S level)) (map (print_member level) d)) + 1 <= n ->
  parse_members n acc (join (separator (S level)) (map (print_member level) d) ++ newline level ++ "}"%char :: rest) =
    Ok (JObj (acc ++ d), rest).
Proof.
  intros Hne. revert n acc. induction d as [|[k v] d IH]; intros n acc; [done|clear Hne].
  intros [Rx Rl]%Forall_cons [Wx Wl]%Forall_cons D Hn. simpl in Rx, Wx. destruct n as [|n]; [lia|].
  assert (Hk : k ∉ od_keys acc).
  { unfold od_wf, od_keys in *. rewrite fmap_app in D. apply NoDup_app in D as (_ & D & _).
    intros H. apply (D k H). csimpl. by left. }
  assert (Step : forall tail, number_end tail = true -> 2 * length (print_member level (k, v)) <= n + 1 ->
    parse_members (S n) acc (print_member level (k, v) ++ tail) =
    (let acc := acc ++ [(k, v)] in
     match ws tail with
     | c :: l => if bool_decide (c = "}"%char) then Ok (JObj acc, l)
                 else if bool_decide (c = ","%char) then parse_members n acc (ws l) else raise JDecodeError
     | [] => raise JDecodeError
     end)).
  { intros tail Ht Hl. cbn [parse_members]. unfold print_member in *. cbn [fst snd] in *. unfold print_string in *.
    rewrite <- !app_assoc. cbn [app]. rewrite bool_decide_eq_true_2 by done.
    rewrite <- app_assoc. cbn [app]. rewrite scan_printed. cbn [mbind result_bind fst snd].
    change (str_chars ": " ++ print (S level) v ++ tail) with (":"%char :: [" "%char] ++ print (S level) v ++ tail).
    rewrite ws_stop by done. rewrite bool_decide_eq_true_2 by done. rewrite ws_item by done.
    assert (Hv : 2 * length (print (S level) v) <= n).
    { rewrite !length_app in Hl. cbn [length] in Hl. rewrite !length_app in Hl. cbn [length] in Hl. lia. }
    rewrite (Rx Wx _ _ _ Ht Hv). cbn [mbind result_bind fst snd].
    unfold str_chars. rewrite of_chars_str_chars. by rewrite od_set_fresh. }
  destruct d as [|e d].
  - change (join (separator (S level)) (map (print_member level) [(k, v)])) with (print_member level (k, v)) in *.
    rewrite Step by (lia || by apply number_end_newline). cbv zeta. rewrite ws_close by done.
    by rewrite bool_decide_eq_true_2.
  - change (join (separator (S level)) (map (print_member level) ((k, v) :: e :: d))) with
      (print_member level (k, v) ++ separator (S level) ++
       join (separator (S level)) (map (print_member level) (e :: d))) in *.
    set (j := join _ (map _ (e :: d))) in *. rewrite !length_app in Hn.
    destruct (separator_comma (S level)) as (w & Ew & Hw). rewrite Ew in *. cbn [length] in Hn.
    rewrite <- !app_assoc. rewrite Step by (reflexivity || lia). cbv zeta. cbn [app]. rewrite ws_stop by done.
    rewrite bool_decide_eq_false_2 by done. rewrite bool_decide_eq_true_2 by done.
    assert (E : ws (w ++ j ++ newline level ++ "}"%char :: rest) = j ++ newline level ++ "}"%char :: rest).
    { rewrite ws_skip by done. unfold j. destruct d; reflexivity. }
    rewrite E. rewrite IH; [by rewrite <- app_assoc|done|done|done|by rewrite <- app_assoc|lia].
Qed.

(** Reading a printed value gives it back. *)
Lemma reads_all v : reads v.
Proof.
  induction v as [|b|z|s|s|l IH|d IH] using json_rect'.
  - intros _ level rest n R Hn. destruct n as [|n]; [simpl in Hn; lia|]. reflexivity.
  - intros _ level rest n R Hn. destruct n as [|n]; [destruct b; simpl in Hn; lia|]. by destruct b.
  - apply reads_int.
  - by intros [].
  - intros _ level rest n R Hn. destruct n as [|n]; [simpl in Hn; lia|]. cbn [print_json].
    unfold print_string. cbn [app parse_value]. rewrite bool_decide_eq_true_2 by done.
    rewrite <- app_assoc. cbn [app]. rewrite scan_printed. cbn [mbind result_bind fst snd].
    by rewrite of_chars_str_chars.
  - intros W level rest n R Hn. simpl in W. apply fold_and_Forall in W.
    destruct n as [|n]; [destruct l; simpl in Hn; lia|]. destruct l as [|x l]; [reflexivity|].
    change (print level (JArr (x :: l))) with ("["%char :: newline (S level) ++
      join (separator (S level)) (map (print (S level)) (x :: l)) ++ newline level ++ ["]"%char]) in *.
    set (j := join _ _) in *. cbn [app parse_value]. rewrite !(bool_decide_eq_false_2 ("["%char = _)) by done.
    rewrite bool_decide_eq_true_2 by done. rewrite <- !app_assoc. cbn [app].
    assert (E : exists c k, ws (newline (S level) ++ j ++ newline level ++ "]"%char :: rest) = c :: k /\
      c <> "]"%char /\ c :: k = j ++ newline level ++ "]"%char :: rest).
    { apply Forall_cons in W as [Wx _]. destruct (print_head (S level) x Wx) as (c & k & Ec & Hc & H1 & _).
      assert (exists k', j = c :: k') as [k' ->].
      { unfold j. destruct l; cbn [map join]; rewrite Ec; by eexists. }
      rewrite ws_skip by apply newline_ws. cbn [app]. rewrite ws_stop by done. by eexists _, _. }
    destruct E as (c & k & E1 & E2 & E3). rewrite E1, bool_decide_eq_false_2 by done. rewrite E3.
    unfold j. rewrite reads_elements; [done|done|done|done|]. fold j.
    cbn [length] in Hn. rewrite !length_app in Hn. cbn [length] in Hn. lia.
  - intros W level rest n R Hn. simpl in W. destruct W as [D W]. apply (fold_and_Forall (fun e => json_wf e.2)) in W.
    destruct n as [|n]; [destruct d; simpl in Hn; lia|]. destruct d as [|e d]; [reflexivity|].
    change (print level (JObj (e :: d))) with ("{"%char :: newline (S level) ++
      join (separator (S level)) (map (print_member level) (e :: d)) ++ newline level ++ ["}"%char]) in *.
    set (j := join _ _) in *. cbn [app parse_value]. rewrite !(bool_decide_eq_false_2 ("{"%char = _)) by done.
    rewrite bool_decide_eq_true_2 by done. rewrite <- !app_assoc. cbn [app].
    assert (exists k', j = quote :: k') as [k' E] by (unfold j; destruct d; cbn [map join]; by eexists).
    assert (E1 : ws (newline (S level) ++ j ++ newline level ++ "}"%char :: rest) =
      quote :: k' ++ newline level ++ "}"%char :: rest).
    { rewrite ws_skip by apply newline_ws. rewrite E. cbn [app]. by rewrite ws_stop. }
    rewrite E1. rewrite bool_decide_eq_false_2 by done. rewrite app_comm_cons, <- E.
    unfold j. rewrite (reads_members level (e :: d) []); [done|done|done|done|done|]. fold j.
    cbn [length] in Hn. rewrite !length_app in Hn. cbn [length] in Hn. lia.
Qed.

(** Reading a printed value, and whitespace after it, gives the value back. *)
Lemma print_parse_ws v x :
  json_wf v -> forallb is_ws x = true -> json_loads (of_chars (print 0 v ++ x)) = Ok v.
Proof.
  intros W Hx. unfold json_loads. rewrite str_chars_of_chars.
  assert (E : ws (print 0 v ++ x) = print 0 v ++ x).
  { destruct (print_head 0 v W) as (c & l & -> & H & _). by apply ws_stop. }
  assert (N : number_end x = true).
  { destruct x as [|c x]; [done|]. simpl in Hx. apply andb_true_iff in Hx as [Hx _]. revert Hx. clear.
    destruct c as [[] [] [] [] [] [] [] []]; reflexivity || discriminate. }
  rewrite E. rewrite length_app, (reads_all v W 0 x _ N) by lia. cbn [mbind result_bind fst snd].
  rewrite <- (app_nil_r x), ws_skip by done. done.
Qed.

Lemma print_parse v : json_wf v -> json_loads (of_chars (print 0 v)) = Ok v.
Proof. intros W. rewrite <- (app_nil_r (print 0 v)). by apply print_parse_ws. Qed.
End values.

(** ** Sorted keys *)

Lemma sort_keys_wf v : json_wf v -> json_wf (sort_keys v).
Proof.
  induction v as [| | | | |l IH|d IH] using json_rect'; try done; simpl; rewrite !fold_and_Forall.
  - intros W. rewrite Forall_map. rewrite !Forall_forall in *. intros x Hx. simpl. auto.
  - intros [D W].
    assert (P : py_sorted fst (map (fun e => (e.1, sort_keys e.2)) d) ≡ₚ map (fun e => (e.1, sort_keys e.2)) d)
      by apply py_sorted_perm.
    split.
    + unfold od_wf, od_keys in *. rewrite P. change (map ?f d) with (f <$> d). rewrite <- list_fmap_compose.
      exact D.
    + rewrite P, Forall_map.
      rewrite !Forall_forall in *. intros e He. simpl. auto.
Qed.

Lemma dumps_roundtrip float_repr v : json_wf v -> json_loads (json_dumps float_repr v) = Ok v.
Proof. intros W. by apply print_parse. Qed.

Lemma dumps_ascii_roundtrip float_repr v :
  json_wf v -> json_loads (json_dumps_ascii float_repr v) = Ok (sort_keys v).
Proof. intros W. by apply print_parse, sort_keys_wf. Qed.

Lemma dumps_sorted_roundtrip float_repr v :
  json_wf v -> json_loads (json_dumps_sorted float_repr v) = Ok (sort_keys v).
Proof. intros W. by apply print_parse, sort_keys_wf. Qed.

(** A sorted dictionary of scalars has the same entries. *)
Definition scalar (v : json) : bool :=
  match v with JArr _ | JObj _ => false | _ => true end.

Lemma sort_keys_scalar v : scalar v = true -> sort_keys v = v.
Proof. by destruct v. Qed.

Lemma sort_keys_get d :
  od_wf d -> Forall (fun e => scalar e.2 = true) d ->
  exists d', sort_keys (JObj d) = JObj d' /\ od_wf d' /\ forall k, od_get k d' = od_get k d.
Proof.
  intros W S. cbn [sort_keys]. assert (E : map (fun e => (e.1, sort_keys e.2)) d = d).
  { clear W. induction S as [|[a v] d Hs S IH]; [done|]. simpl in *. by rewrite IH, sort_keys_scalar. }
  rewrite E. eexists. split; [reflexivity|].
  assert (P : py_sorted fst d ≡ₚ d) by apply py_sorted_perm.
  assert (W' : od_wf (py_sorted fst d)) by (unfold od_wf, od_keys in *; by rewrite P).
  split; [done|]. intros k. apply option_eq. intros v. split; intros H%od_get_Some_elem.
  - apply od_elem_get; [done|]. by rewrite P in H.
  - apply od_elem_get; [done|]. by rewrite P.
Qed.

(** The encoding does not depend on the order of the keys, at any depth. *)

Lemma od_get_map (f : json -> json) (d : list (string * json)) k : od_get k (map (fun e => (e.1, f e.2)) d) = f <$> od_get k d.
Proof. induction d as [|[a v] d IH]; [done|]. cbn. by destruct (decide (a = k)). Qed.

Lemma keys_map (f : json -> json) (d : list (string * json)) : od_keys (map (fun e => (e.1, f e.2)) d) = od_keys d.
Proof. unfold od_keys. induction d as [|[a v] d IH]; [done|]. cbn. by f_equal. Qed.

Lemma od_perm (d d' : list (string * json)) :
  od_wf d -> od_wf d' -> (forall k, od_get k d = od_get k d') -> d ≡ₚ d'.
Proof.
  intros W W' G. assert (N : forall l : list (string * json), od_wf l -> NoDup l) by (intros l; apply NoDup_fmap_1).
  apply NoDup_Permutation; [by apply N..|]. intros [k v]. split; intros H; apply od_get_Some_elem.
  - rewrite <- G. by apply od_elem_get.
  - rewrite G. by apply od_elem_get.
Qed.

Lemma od_perm_get (d d' : list (string * json)) k : od_wf d -> d ≡ₚ d' -> od_get k d = od_get k d'.
Proof.
  intros W P. assert (W' : od_wf d') by (unfold od_wf, od_keys in *; by rewrite <- P).
  apply option_eq. intros v. split; intros H%od_get_Some_elem; (apply od_elem_get; [done|]); [by rewrite <- P|by rewrite P].
Qed.

Lemma keys_sorted_determined (d d' : list (string * json)) : od_wf d -> d ≡ₚ d' -> py_sorted fst d = py_sorted fst d'.
Proof.
  intros W P. apply py_sorted_determined; [|done]. intros [a v] [b w] Ha Hb E%String.compare_eq_iff. cbn in E. subst b.
  pose proof (od_elem_get a v d W Ha). pose proof (od_elem_get a w d W Hb). congruence.
Qed.

Lemma sort_keys_canonical d d' :
  od_wf d -> od_wf d' -> (forall k, sort_keys <$> od_get k d = sort_keys <$> od_get k d') ->
  sort_keys (JObj d) = sort_keys (JObj d').
Proof.
  intros W W' G. cbn [sort_keys]. f_equal.
  apply keys_sorted_determined; [unfold od_wf; by rewrite keys_map|].
  apply od_perm; [unfold od_wf; by rewrite keys_map..|]. intros k. by rewrite !od_get_map.
Qed.

Lemma sort_keys_obj d :
  od_wf d -> exists d', sort_keys (JObj d) = JObj d' /\ od_wf d' /\ (forall k, od_get k d' = sort_keys <$> od_get k d) /\
    od_keys d' = py_sorted (fun k => k) (od_keys d).
Proof.
  intros W. cbn [sort_keys]. eexists. split; [reflexivity|]. set (l := map _ d).
  assert (Wl : od_wf l) by (unfold od_wf, l; by rewrite keys_map).
  assert (P : py_sorted fst l ≡ₚ l) by apply py_sorted_perm. split; [|split].
  - unfold od_wf, od_keys in *. by rewrite P.
  - intros k. rewrite <- (od_perm_get l (py_sorted fst l)) by done. unfold l. by rewrite od_get_map.
  - rewrite <- (keys_map sort_keys d). fold l.
    apply (sorted_perm_unique (key_leb (fun k => k))).
    + intros x y _ _ H1 H2. pose proof (key_leb_antisym (fun k : string => k) x y H1 H2) as E. by apply String.compare_eq_iff.
    + pose proof (py_sorted_sorted fst l) as S. unfold od_keys. clear -S. induction S as [|e m S IH F]; [constructor|].
      cbn. constructor; [done|]. apply Forall_map. exact F.
    + apply py_sorted_sorted.
    + etrans; [|symmetry; apply py_sorted_perm]. unfold od_keys. by rewrite P.
Qed.

Lemma sort_keys_idemp v : json_wf v -> sort_keys (sort_keys v) = sort_keys v.
Proof.
  induction v as [| | | | |l IH|d IH] using json_rect'; try done.
  - cbn [json_wf]. rewrite fold_and_Forall. intros W. cbn [sort_keys]. f_equal. rewrite map_map.
    rewrite Forall_forall in *. apply map_ext_in. intros x Hx%list_elem_of_In. auto.
  - intros [Wd W]. rewrite (fold_and_Forall (fun e : string * json => json_wf e.2)) in W. cbn [sort_keys]. f_equal.
    set (l := map (fun e => (e.1, sort_keys e.2)) d).
    assert (Wl : od_wf l) by (unfold od_wf, l; by rewrite keys_map).
    assert (P : py_sorted fst l ≡ₚ l) by apply py_sorted_perm.
    assert (E : map (fun e : string * json => (e.1, sort_keys e.2)) (py_sorted fst l) = py_sorted fst l).
    { rewrite <- (map_id (py_sorted fst l)) at 2. apply map_ext_in. intros [a v] Ha%list_elem_of_In. rewrite P in Ha.
      unfold l in Ha. apply list_elem_of_In, in_map_iff in Ha as ([b w] & [= <- <-] & Hb%list_elem_of_In).
      rewrite Forall_forall in IH, W. cbn [fst snd]. f_equal. apply (IH (b, w) Hb). by apply (W (b, w)). }
    rewrite E. symmetry. apply keys_sorted_determined; [done|by symmetry].
Qed.

(** ** The fuel of the scanner *)

Lemma ws_length l : length (ws l) <= length l.
Proof.
  unfold ws. destruct (drop_while_suffix is_ws l) as [p E]. rewrite E at 2. rewrite length_app. lia.
Qed.

Lemma scan_string_length l p : scan_string l = Ok p -> length p.2 < length l.
Proof.
  revert p. induction l as [l IH] using (induction_ltof1 _ (@length ascii)). unfold ltof in IH. intros p.
  assert (K : forall x k c, length k < length l -> (q ← scan_string k; Ok ((x : ascii) :: q.1, q.2)) = Ok p ->
    length p.2 < length l /\ c = c :> nat).
  { intros x k c Hk. destruct (scan_string k) as [q|] eqn:E; [|done]. cbn. intros [= <-]. cbn.
    apply IH in E; [lia|done]. }
  destruct l as [|c l]; [done|]. cbn [scan_string].
  repeat case_match; try done; intros E; try (injection E as <-; simpl; lia);
    (eapply (K _ _ 0) in E as [E _]; [exact E|simpl; lia]).
Qed.

Lemma span_digits_length l a b : span_digits l = (a, b) -> length l = length a + length b.
Proof.
  revert a b. induction l as [|c l IH]; intros a b; cbn [span_digits]; [by intros [= <- <-]|].
  destruct (is_digit c); [|by intros [= <- <-]]. destruct (span_digits l) as [x y].
  intros [= <- <-]. simpl. by rewrite (IH x y).
Qed.

Lemma scan_fraction_length l a b : scan_fraction l = (a, b) -> length b <= length l.
Proof.
  unfold scan_fraction. destruct l as [|c l]; [by intros [= <- <-]|]. case_bool_decide; [|by intros [= <- <-]].
  destruct (span_digits l) as [[|x ds] r] eqn:E; intros [= <- <-]; [done|].
  apply span_digits_length in E. simpl in *. lia.
Qed.

Lemma scan_exponent_length l a b : scan_exponent l = (a, b) -> length b <= length l.
Proof.
  unfold scan_exponent. destruct l as [|c l]; [by intros [= <- <-]|].
  destruct (bool_decide (c = "e"%char) || bool_decide (c = "E"%char)); [|by intros [= <- <-]].
  set (q := match l with [] => ([], l) | s :: r => _ end).
  assert (Hq : length q.2 <= length l) by (unfold q; destruct l as [|s r]; [done|]; destruct (_ || _); simpl; lia).
  destruct q as [sign r]. simpl in Hq. destruct (span_digits r) as [[|x ds] k] eqn:E; intros [= <- <-]; [done|].
  apply span_digits_length in E. simpl in *. lia.
Qed.

Lemma scan_number_length l p : scan_number l = Ok p -> length p.2 < length l.
Proof.
  unfold scan_number. set (q := match l with [] => (false, l) | c :: l' => _ end).
  assert (Hq : length q.2 <= length l) by (unfold q; destruct l; [done|]; case_bool_decide; simpl; lia).
  destruct q as [neg l1]. simpl in Hq. set (d := match l1 with [] => ([], l1) | c :: l' => _ end).
  assert (Hd : length l1 = length d.1 + length d.2).
  { unfold d. destruct l1 as [|c k]; [done|]. case_bool_decide; [simpl; lia|].
    destruct (span_digits (c :: k)) as [a b] eqn:E. by apply span_digits_length in E. }
  destruct d as [ds l2]. simpl in Hd. destruct (number ds); [|done]. case_bool_decide as N; [done|].
  assert (0 < length ds) by (destruct ds; [done|simpl; lia]).
  destruct (scan_fraction l2) as [f l3] eqn:F. destruct (scan_exponent l3) as [e l4] eqn:X.
  apply scan_fraction_length in F. apply scan_exponent_length in X.
  repeat case_match; intros [= <-]; simpl; lia.
Qed.

Lemma scan_constant_length l p : scan_constant l = Some p -> length p.2 < length l.
Proof.
  unfold scan_constant. destruct (find_first _ _) as [[name v]|] eqn:E; [|done]. intros [= <-]. cbn [snd].
  apply find_first_some in E as [E1 E2]. apply chars_prefix_length in E2. cbn [fst] in E2.
  assert (F : Forall (fun e : string * json =>
    0 < length (str_chars e.1) /\ String.length e.1 = length (str_chars e.1)) constants).
  { repeat (apply Forall_cons; split; [split; vm_compute; [repeat constructor|reflexivity]|]). constructor. }
  rewrite Forall_forall in F. destruct (F _ E1) as [F1 F2]. cbn [fst] in *. rewrite length_drop. lia.
Qed.

Lemma parse_length n :
  (forall l p, parse_value n l = Ok p -> length p.2 < length l) /\
  (forall acc l p, parse_members n acc l = Ok p -> length p.2 < length l) /\
  (forall l p, parse_elements n l = Ok p -> length p.2 < length l).
Proof.
  induction n as [|n (V & M & E)]; [done|]. split; [|split].
  - intros [|c l] p; cbn [parse_value]; [done|]. pose proof (ws_length l) as Hw.
    case_bool_decide.
    { destruct (scan_string l) as [q|] eqn:S; [|done]. cbn. intros [= <-]. apply scan_string_length in S.
      simpl. lia. }
    case_bool_decide.
    { destruct (ws l) as [|c' r]; [done|]. case_bool_decide; [intros [= <-]; simpl in *; lia|].
      intros Hr%M. simpl in *. lia. }
    case_bool_decide.
    { destruct (ws l) as [|c' r]; [done|]. case_bool_decide; [intros [= <-]; simpl in *; lia|].
      destruct (parse_elements n (c' :: r)) as [q|] eqn:Q; [|done]. cbn. intros [= <-].
      apply E in Q. simpl in *. lia. }
    destruct (scan_constant (c :: l)) as [q|] eqn:S.
    + intros [= <-]. by apply scan_constant_length in S.
    + apply scan_number_length.
  - intros acc [|c l] p; cbn [parse_members]; [done|]. case_bool_decide; [|done].
    destruct (scan_string l) as [q|] eqn:S; [|done]. cbn [mbind result_bind]. apply scan_string_length in S.
    pose proof (ws_length q.2). destruct (ws q.2) as [|c2 l2]; [done|]. case_bool_decide; [|done].
    pose proof (ws_length l2). destruct (parse_value n (ws l2)) as [w|] eqn:Q; [|done]. cbn [mbind result_bind].
    apply V in Q. pose proof (ws_length w.2). destruct (ws w.2) as [|c3 l3]; [done|]. simpl in *.
    case_bool_decide; [intros [= <-]; simpl; lia|]. case_bool_decide; [|done].
    pose proof (ws_length l3). intros Hr%M. lia.
  - intros l p; cbn [parse_elements]. destruct (parse_value n l) as [w|] eqn:Q; [|done]. cbn [mbind result_bind].
    apply V in Q. pose proof (ws_length w.2). destruct (ws w.2) as [|c3 l3]; [done|]. simpl in *.
    case_bool_decide; [intros [= <-]; simpl; lia|]. case_bool_decide; [|done].
    pose proof (ws_length l3). destruct (parse_elements n (ws l3)) as [r|] eqn:R; [|done]. cbn.
    intros [= <-]. apply E in R. simpl. lia.
Qed.

(** Fuel beyond twice the length changes nothing: the scanner is total, and a
    [JDecodeError] is never the end of the fuel. *)
Lemma parse_fuel k :
  (forall l n m, length l <= k -> 2 * length l < n -> 2 * length l < m -> parse_value n l = parse_value m l) /\
  (forall acc l n m, length l <= k -> 2 * length l + 1 < n -> 2 * length l + 1 < m ->
     parse_members n acc l = parse_members m acc l) /\
  (forall l n m, length l <= k -> 2 * length l + 1 < n -> 2 * length l + 1 < m ->
     parse_elements n l = parse_elements m l).
Proof.
  induction k as [|k (V & M & E)].
  { assert (V : forall l n m, length l <= 0 -> 2 * length l < n -> 2 * length l < m -> parse_value n l = parse_value m l).
    { intros [|] [|n] [|m] H; simpl in *; try lia. done. }
    split; [exact V|]. split.
    - intros acc [|] [|n] [|m] H; simpl in *; try lia. done.
    - intros [|] [|n] [|m] H H1 H2; simpl in *; try lia. rewrite (V [] n m) by (simpl; lia).
      destruct (parse_value m []) as [w|] eqn:Q; [|done]. apply parse_length in Q. simpl in Q. lia. }
  assert (V' : forall l n m, length l <= S k -> 2 * length l < n -> 2 * length l < m -> parse_value n l = parse_value m l).
  { intros [|c l] [|n] [|m] H H1 H2; simpl in H, H1, H2; try lia; [done|]. cbn [parse_value].
    pose proof (ws_length l). case_bool_decide; [done|]. case_bool_decide; [|case_bool_decide; [|done]].
    - destruct (ws l) as [|c' r]; [done|]. case_bool_decide; [done|]. simpl in *. apply M; simpl; lia.
    - destruct (ws l) as [|c' r]; [done|]. case_bool_decide; [done|]. simpl in *.
      rewrite (E (c' :: r) n m) by (simpl; lia). done. }
  split; [exact V'|]. split.
  - intros acc [|c l] [|n] [|m] H H1 H2; simpl in H, H1, H2; try lia; [done|]. cbn [parse_members].
    case_bool_decide; [|done]. destruct (scan_string l) as [q|] eqn:S; [|done]. cbn [mbind result_bind].
    apply scan_string_length in S. pose proof (ws_length q.2). destruct (ws q.2) as [|c2 l2]; [done|].
    case_bool_decide; [|done]. pose proof (ws_length l2). simpl in *. rewrite (V (ws l2) n m) by lia.
    destruct (parse_value m (ws l2)) as [w|] eqn:Q; [|done]. cbn [mbind result_bind]. apply parse_length in Q.
    pose proof (ws_length w.2). destruct (ws w.2) as [|c3 l3]; [done|]. case_bool_decide; [done|].
    case_bool_decide; [|done]. simpl in *. pose proof (ws_length l3). apply M; lia.
  - intros l [|n] [|m] H H1 H2; try lia. cbn [parse_elements]. rewrite (V' l n m) by lia.
    destruct (parse_value m l) as [w|] eqn:Q; [|done]. cbn [mbind result_bind]. apply parse_length in Q.
    pose proof (ws_length w.2). destruct (ws w.2) as [|c3 l3]; [done|]. case_bool_decide; [done|].
    case_bool_decide; [|done]. simpl in *. pose proof (ws_length l3). rewrite (E (ws l3) n m) by lia. done.
Qed.

Lemma json_loads_fuel s n :
  2 * length (str_chars s) < n ->
  json_loads s =
    (p ← parse_value n (ws (str_chars s)); match ws p.2 with [] => Ok p.1 | _ => raise JDecodeError end).
Proof.
  intros H. unfold json_loads. pose proof (ws_length (str_chars s)).
  rewrite (proj1 (parse_fuel (length (str_chars s))) _ _ n) by lia. done.
Qed.

(** A text with its single quotes made double. *)
Definition dq (s : string) : string :=
  of_chars (map (fun c => if bool_decide (c = "'"%char) then quote else c) (str_chars s)).

Example json_examples :
  json_loads (dq " { 'a' : [1, -20, true, null, 1.5e3 ], 'b':'x\u00e9\n' , 'a':{}} ") =
    Ok (JObj [("a", JObj []); ("b", JStr (of_chars (str_chars "x" ++ [ascii_of_N 233; ascii_of_N 10])))]) /\
  json_loads "[1,]" = raise JDecodeError /\ json_loads "01" = raise JDecodeError /\
  json_loads "" = raise JDecodeError /\
  json_dumps_sorted (fun s => s) (JObj [("b", JArr [JInt 1; JStr "x"]); ("a", JInt (-305))]) =
    of_chars (str_chars "{" ++ [ascii_of_N 10] ++ str_chars (dq "  'a': -305,") ++ [ascii_of_N 10] ++
      str_chars (dq "  'b': [") ++ [ascii_of_N 10] ++ str_chars "    1," ++ [ascii_of_N 10] ++
      str_chars (dq "    'x'") ++ [ascii_of_N 10] ++ str_chars "  ]" ++ [ascii_of_N 10] ++ str_chars "}").
Proof. vm_compute. repeat split; reflexivity. Qed.
