(* ===== verification/Workspace.v ===== *)
(** * Workspace sessions ([services/workspace_lifecycle.py])

    The committed session of each workspace: [preview_session_id] proposes the
    session id of the next run, [commit_success] records it after a completed
    run, [invalidate] forgets it after a failed resume. The states are a
    [gmap] from workspace key to [WorkspaceSessionState]; the factory of new
    session ids is a function of the workspace key and of a counter that
    stands for the draws of [uuid4]. *)

From stdpp Require Import base gmap strings.
From Stdlib Require Import Lia.
From S2P Require Import Prelude.

Record WorkspaceSessionState := mkWSS {
  workspace_key : string;
  wss_session_id : option string;
  wss_backend : option string;
  ever_committed : bool
}.

(** [WorkspaceSessionState(workspace_key)]: the dataclass defaults. *)
Definition fresh_state (k : string) : WorkspaceSessionState := mkWSS k None None false.

(** [build_slot_workspace_key] and the default resolver that calls it. *)
Definition build_slot_workspace_key (group_folder slot_id : string) : string :=
  group_folder +:+ "#slot:" +:+ slot_id.

Definition resolve_workspace_key (group_folder slot_id : string) : string :=
  build_slot_workspace_key group_folder slot_id.

Definition store := gmap string WorkspaceSessionState.

Definition state_or_fresh (st : gmap string WorkspaceSessionState) (k : string) :
    WorkspaceSessionState := default (fresh_state k) (st !! k).

(** [self._states.setdefault(key, WorkspaceSessionState(key))], the store left. *)
Definition touch (k : string) (st : gmap string WorkspaceSessionState) :=
  match st !! k with Some _ => st | None => <[k := fresh_state k]> st end.

Section session_store.
(** [_new_session_id_factory]: the [n]-th call for a workspace key. *)
Variable new_session_id : nat -> string -> string.

(** The call draws a fresh id only on its last branch; the counter left says so. *)
Definition preview_session_id (n : nat) (st : gmap string WorkspaceSessionState)
    (k backend : string) (fresh_session : bool) :
    string * nat * gmap string WorkspaceSessionState :=
  let st' := touch k st in
  let s := state_or_fresh st k in
  match wss_session_id s with
  | Some sid =>
      if negb fresh_session && bool_decide (wss_backend s = Some backend)
      then (sid, n, st')
      else (new_session_id n k, S n, st')
  | None =>
      if negb (ever_committed s) then (k, n, st')
      else (new_session_id n k, S n, st')
  end.
End session_store.

Definition commit_success (st : gmap string WorkspaceSessionState)
    (k backend session_id : string) : gmap string WorkspaceSessionState :=
  let s := state_or_fresh st k in
  <[k := mkWSS (workspace_key s) (Some session_id) (Some backend) true]> st.

Definition invalidate (st : gmap string WorkspaceSessionState) (k : string) :
    gmap string WorkspaceSessionState :=
  let s := state_or_fresh st k in
  <[k := mkWSS (workspace_key s) None None true]> st.

(** [get_state]: a copy, so callers cannot alias the stored state. *)
Definition get_state (st : gmap string WorkspaceSessionState) (k : string) :
    WorkspaceSessionState := state_or_fresh st k.

(** [_default_new_session_id] from the hex digits of the [n]-th [uuid4]. *)
Definition default_new_session_id (uuid4_hex : nat -> string) (n : nat) (k : string) : string :=
  k +:+ ":" +:+ String.substring 0 8 (uuid4_hex n).

(** Well-formedness: a session id comes with its backend and marks the
    workspace as committed, and each state is filed under its own key. *)
Definition wss_wf (k : string) (s : WorkspaceSessionState) : Prop :=
  workspace_key s = k /\
  (is_Some (wss_session_id s) <-> is_Some (wss_backend s)) /\
  (is_Some (wss_session_id s) -> ever_committed s = true).

Definition store_wf (st : gmap string WorkspaceSessionState) : Prop :=
  map_Forall wss_wf st.

(** ** Lemmas *)

Lemma fresh_state_wf k : wss_wf k (fresh_state k).
Proof. split; [done|]. split; [|intros [? ?]; done]. split; intros [? ?]; done. Qed.

Lemma state_or_fresh_wf st k : store_wf st -> wss_wf k (state_or_fresh st k).
Proof.
  intros H. unfold state_or_fresh. destruct (st !! k) eqn:E; simpl.
  - by apply H in E.
  - apply fresh_state_wf.
Qed.

Lemma touch_wf k st : store_wf st -> store_wf (touch k st).
Proof.
  intros H. unfold touch. destruct (st !! k); [done|].
  apply map_Forall_insert_2; [apply fresh_state_wf|done].
Qed.

Lemma state_or_fresh_touch k k' st : state_or_fresh (touch k st) k' = state_or_fresh st k'.
Proof.
  unfold touch, state_or_fresh. destruct (st !! k) eqn:E; [done|].
  destruct (decide (k = k')) as [->|]; simplify_map_eq; done.
Qed.

Lemma commit_success_wf st k b s : store_wf st -> store_wf (commit_success st k b s).
Proof.
  intros H. apply map_Forall_insert_2; [|done].
  destruct (state_or_fresh_wf st k H) as [-> _]. split; [done|]. simpl. split; [|done].
  split; eauto.
Qed.

Lemma invalidate_wf st k : store_wf st -> store_wf (invalidate st k).
Proof.
  intros H. apply map_Forall_insert_2; [|done].
  destruct (state_or_fresh_wf st k H) as [-> _]. split; [done|]. simpl.
  split; [|by intros [? ?]]. split; intros [? ?]; done.
Qed.

Lemma preview_wf new n st k b f :
  store_wf st -> store_wf (preview_session_id new n st k b f).2.
Proof.
  intros H. apply (touch_wf k) in H.
  unfold preview_session_id. repeat case_match; done.
Qed.

Lemma preview_store new n st k b f :
  (preview_session_id new n st k b f).2 = touch k st.
Proof. unfold preview_session_id. repeat case_match; done. Qed.

Lemma get_state_commit st k b s :
  get_state (commit_success st k b s) k =
    mkWSS (workspace_key (get_state st k)) (Some s) (Some b) true.
Proof. unfold get_state, commit_success, state_or_fresh. by rewrite lookup_insert_eq. Qed.

Lemma get_state_commit_ne st k k' b s :
  k <> k' -> get_state (commit_success st k b s) k' = get_state st k'.
Proof. intros H. unfold get_state, commit_success, state_or_fresh. by rewrite lookup_insert_ne. Qed.

Lemma get_state_invalidate st k :
  get_state (invalidate st k) k = mkWSS (workspace_key (get_state st k)) None None true.
Proof. unfold get_state, invalidate, state_or_fresh. by rewrite lookup_insert_eq. Qed.

(** A preview never changes the observable state of any workspace. *)
Lemma preview_get_state new n st k b f k' :
  get_state (preview_session_id new n st k b f).2 k' = get_state st k'.
Proof. rewrite preview_store. apply state_or_fresh_touch. Qed.

(** What the next preview proposes, from the observable state alone. *)
Lemma preview_fst new n st k b f :
  (preview_session_id new n st k b f).1.1 =
    match wss_session_id (get_state st k), f with
    | Some sid, false =>
        if bool_decide (wss_backend (get_state st k) = Some b) then sid else new n k
    | Some sid, true => new n k
    | None, _ => if ever_committed (get_state st k) then new n k else k
    end.
Proof.
  unfold preview_session_id, get_state.
  destruct (wss_session_id _), f; simpl; try done; try (by case_match).
  all: by destruct (ever_committed _).
Qed.

(** An invalidated workspace always draws. *)
Lemma preview_invalidated new n st k b f :
  preview_session_id new n (invalidate st k) k b f = (new n k, S n, invalidate st k).
Proof.
  unfold preview_session_id, touch, invalidate, state_or_fresh. by rewrite lookup_insert_eq.
Qed.

#[export] Hint Resolve fresh_state_wf touch_wf commit_success_wf invalidate_wf : portex.

(** ** Properties *)

(** Session continuity. The store never goes out of shape, and after any
    sequence of operations on other workspaces a committed session is what the
    next non-fresh run on the same backend resumes, while another backend or a
    fresh request gets a newly drawn id. *)
Theorem preview_after_commit (new : nat -> string -> string)
    (n : nat) (st : gmap string WorkspaceSessionState) (k b sid b' : string) (fresh : bool) :
  store_wf st ->
  store_wf (commit_success st k b sid) /\
  (preview_session_id new n (commit_success st k b sid) k b' fresh).1 =
    (if negb fresh && bool_decide (b = b') then (sid, n) else (new n k, S n)).
Proof.
  intros H. split; [by apply commit_success_wf|].
  unfold preview_session_id, commit_success, state_or_fresh. rewrite lookup_insert_eq. simpl.
  destruct fresh; simpl; [done|]. repeat case_bool_decide; simplify_eq; done.
Qed.

Lemma preview_after_commit_witness :
  (preview_session_id (fun n k => k +:+ ":new") 0
     (commit_success ∅ "g#slot:main" "openai_runtime" "s1") "g#slot:main" "openai_runtime" false).1
  = ("s1", 0).
Proof.
  exact (proj2 (preview_after_commit (fun n k => k +:+ ":new") 0 ∅ "g#slot:main"
    "openai_runtime" "s1" "openai_runtime" false (map_Forall_empty _))).
Defined.

(** After a failed resume the workspace never gets its old session back:
    whatever the flags, the next preview draws a new id rather than the bare
    workspace key or the invalidated session. *)
Theorem preview_after_invalidate (new : nat -> string -> string)
    (n : nat) (st : gmap string WorkspaceSessionState) (k b : string) (fresh : bool) :
  (preview_session_id new n (invalidate st k) k b fresh).1 = (new n k, S n).
Proof. by rewrite preview_invalidated. Qed.
