(* ===== verification/Execution.v ===== *)
(** * Execution requests and results

    The dataclasses of [services/execution_coordinator.py] that the execution
    plane passes around, and the two interfaces the coordinator is built on:
    the execution policy (which backend serves a request) and the set of
    backends it may name. *)


From stdpp Require Import base gmap strings list.
From Stdlib Require Import ZArith.
From S2P Require Import Prelude PyDict.

Inductive ExecutionSource := SrcWeb | SrcIm | SrcScheduled.

Inductive ExecutionStatus :=
| StQueued | StRunning | StCompleted | StFailed | StCancelled | StTimeout.

#[export] Instance ExecutionSource_eq_dec : EqDecision ExecutionSource.
Proof. solve_decision. Defined.
#[export] Instance ExecutionStatus_eq_dec : EqDecision ExecutionStatus.
Proof. solve_decision. Defined.

(** [request_metadata] is an object the coordinator only passes on: a handle. *)
Record ExecutionRequest := mkRequest {
  rq_group_folder : string;
  rq_chat_jid : string;
  rq_user_id : string;
  rq_prompt : string;
  rq_source : ExecutionSource;
  rq_slot_id : string;
  rq_requested_mode : option string;
  rq_timeout_ms : option Z;
  rq_fresh_session : bool;
  rq_request_id : option string;
  rq_request_metadata : option nat
}.

Record ExecutionHandle := mkHandle {
  hd_run_id : string;
  hd_group_folder : string;
  hd_status : ExecutionStatus
}.

Record ExecutionResult := mkResult {
  rs_run_id : string;
  rs_status : ExecutionStatus;
  rs_group_folder : string;
  rs_backend : string;
  rs_session_id : string;
  rs_slot_id : string;
  rs_final_output : option string;
  rs_error : option string;
  rs_timeout_ms : option Z
}.

(** Datetimes are instants, in microseconds since the epoch. *)
Record ExecutionRunSnapshot := mkSnapshot {
  sn_run_id : string;
  sn_group_folder : string;
  sn_chat_jid : string;
  sn_user_id : string;
  sn_source : ExecutionSource;
  sn_requested_mode : option string;
  sn_status : ExecutionStatus;
  sn_slot_id : string;
  sn_backend : option string;
  sn_session_id : option string;
  sn_created_at : Z;
  sn_started_at : option Z;
  sn_finished_at : option Z;
  sn_final_output : option string;
  sn_error : option string;
  sn_timeout_ms : option Z;
  sn_recovery_attempted : bool;
  sn_recovery_reason : option string;
  sn_recovery_succeeded : option bool
}.

Record MonitorQueueGroupSnapshot := mkMonitor {
  mq_group_id : string;
  mq_queued_runs : Z;
  mq_running_runs : Z;
  mq_active_run_id : option string;
  mq_active_backend : option string
}.

(** The dictionary a backend returns: keys that are absent are [None]. *)
Record RawResult := mkRaw {
  raw_status : option ExecutionStatus;
  raw_final_output : option string;
  raw_error : option string;
  raw_timeout_ms : option Z
}.

Definition terminal (s : ExecutionStatus) : bool :=
  match s with StQueued | StRunning => false | _ => true end.

(** [ExecutionPolicyProtocol]: a backend name, or the message of the exception. *)
Class ExecutionPolicyProtocol := policy_select : ExecutionRequest -> result string string.

(** What a policy promises a coordinator wired with the named backends. *)
Class PolicyCovers `{ExecutionPolicyProtocol} (backends : list string) : Prop :=
  policy_covers : forall req b, policy_select req = Ok b -> b ∈ backends.

(** * Backend selection ([services/execution_policy.py], [services/execution_mode.py])

    The default execution policy, an instance of the interface the coordinator
    uses, and the default wiring of [services/execution_runtime.py]. *)


Definition DEFAULT_BACKEND : string := "openai_runtime".

Definition MODE_TO_BACKEND : list (string * string) :=
  [("openai", "openai_runtime"); ("host", "host_process"); ("container", "docker_container")].

(** [ExecutionPolicy.select_backend]; the [ValueError] carries its message. *)
Definition select_backend (req : ExecutionRequest) : result string string :=
  match rq_requested_mode req with
  | None => Ok DEFAULT_BACKEND
  | Some m =>
      match od_get m MODE_TO_BACKEND with
      | None => raise ("unsupported execution mode: " +:+ m)
      | Some b => Ok b
      end
  end.

(** The keys of the backends dict of [get_execution_coordinator]. *)
Definition default_backends : list string :=
  ["openai_runtime"; "host_process"; "docker_container"].

Inductive ExecutionMode := ModeHost | ModeContainer.

(** [get_execution_mode]: [host_mode] is the truth value of the config entry. *)
Definition get_execution_mode (user_role : string) (host_mode : bool) : ExecutionMode :=
  if bool_decide (user_role = "admin") && host_mode then ModeHost else ModeContainer.

#[export] Instance default_policy : ExecutionPolicyProtocol := select_backend.

(** ** The default wiring is sound *)

Lemma mode_backend_known m b : od_get m MODE_TO_BACKEND = Some b -> b ∈ default_backends.
Proof.
  intros H%od_get_Some_elem. unfold MODE_TO_BACKEND in H. unfold default_backends.
  repeat (apply elem_of_cons in H as [H|H]; [simplify_eq; set_solver|]). by apply elem_of_nil in H.
Qed.

#[export] Instance default_policy_covers : PolicyCovers default_backends.
Proof.
  intros req b. unfold policy_select, default_policy, select_backend.
  destruct (rq_requested_mode req) as [m|]; [|intros; inv_res; set_solver].
  destruct (od_get m MODE_TO_BACKEND) eqn:E; intros; inv_res. by eapply mode_backend_known.
Qed.

Lemma select_backend_default req :
  rq_requested_mode req = None -> select_backend req = Ok DEFAULT_BACKEND.
Proof. intros H. unfold select_backend. by rewrite H. Qed.

Lemma get_execution_mode_host role h :
  get_execution_mode role h = ModeHost <-> role = "admin" /\ h = true.
Proof.
  unfold get_execution_mode. destruct h; rewrite ?andb_true_r, ?andb_false_r.
  - case_bool_decide; naive_solver.
  - naive_solver.
Qed.

#[export] Hint Resolve mode_backend_known : portex.
