(* ===== verification/Coordinator.v ===== *)
(** * The execution coordinator ([services/execution_coordinator.py])

    [ExecutionCoordinator] runs at most one execution per group at a time. It
    lives in one asyncio event loop, so its code runs in atomic segments, each
    ending at an [await] that suspends; this file has one function per segment
    and [step], the transition of the whole system on an event:

    - [Submit req]: all of [submit_execution];
    - [Cancel run_id]: all of [cancel];
    - [RunWorker t]: the worker task [t] ([_run_group_queue]) runs from its start
      or from the [await execution_task] it was suspended at up to the next
      suspension or its end;
    - [BackendStep e o]: the execution task [e]
      ([_execute_backend_with_lifecycle]) runs from the [await] of its backend
      call, whose outcome is [o], to the next backend call or its end;
    - [WaiterCancelled f]: a task suspended in [wait_for_run] on the future [f]
      is cancelled, which cancels the future it awaits.

    Backends are not modelled: their outcomes are the [o] of the events, any
    value the call can return or raise. The oracles of a run are the section
    variables: the random ids of [uuid4], the clock, the policy. Tasks and
    futures are objects with identities (natural numbers) in stores of their
    own, because the code replaces and drops references to them. Dictionaries
    whose iteration order is observable ([_run_requests], [_run_snapshots]) are
    insertion-ordered association lists; the others are [gmap]s. *)

From stdpp Require Import base gmap strings list option sorting.
From Stdlib Require Import ZArith Lia.
From S2P Require Import Prelude PySort PyDict Workspace Execution.

(** ** Data *)

(** What the await of a backend call can give: a dict, an [ExecutionResult], a
    timeout, a [RuntimeError] (with whether it is a [SessionResumeFailedError]),
    another [Exception], a value without [get], or a [CancelledError]. *)
Inductive outcome :=
| BRaw (raw : RawResult)
| BResult (r : ExecutionResult)
| BTimeout
| BRuntimeError (resume_failed : bool) (msg : string)
| BException (msg : string)
| BMalformed (msg : string)
| BCancelled.

(** How an execution task ends. *)
Inductive task_end :=
| TReturned (r : ExecutionResult)
| TRaised (msg : string)
| TCancelled.

Inductive phase := First | Retry.

Record exec_task := mkExec {
  et_run_id : string;
  et_request : ExecutionRequest;
  et_backend : string;
  et_workspace_key : string;
  et_session_id : string;
  et_phase : phase;
  et_cancel_requested : bool;
  et_end : option task_end
}.

(** A worker task: not yet started, suspended on an execution task, or ended. *)
Inductive worker_state :=
| WStart
| WAwait (eid : nat) (run_id : string) (req : ExecutionRequest)
| WDone
| WCrashed.

Record worker := mkWorker { wk_group : string; wk_state : worker_state }.

Inductive future := FPending | FResult (r : ExecutionResult) | FCancelled.

Definition future_done (f : future) : bool :=
  match f with FPending => false | _ => true end.

Definition worker_live (w : worker) : bool :=
  match wk_state w with WStart | WAwait _ _ _ => true | _ => false end.

(** ** State *)

Record coordinator := mkCoordinator {
  group_queues : gmap string (list (string * ExecutionRequest));
  group_workers : gmap string nat;
  worker_tasks : gmap nat worker;
  run_futures : gmap string nat;
  futures : gmap nat future;
  run_requests : list (string * ExecutionRequest);
  statuses : gmap string ExecutionStatus;
  running_backends : gmap string string;
  running_tasks : gmap string nat;
  exec_tasks : gmap nat exec_task;
  run_session_ids : gmap string string;
  cancelled_run_ids : gset string;
  completed_results : gmap string ExecutionResult;
  completed_order : list string;
  run_snapshots : list (string * ExecutionRunSnapshot);
  session_states : gmap string WorkspaceSessionState;
  backend_cancels : list (string * string);
  next_id : nat;
  uuid_draws : nat;
  clock_reads : nat
}.

Definition with_group_queues (v : gmap string (list (string * ExecutionRequest))) (s : coordinator) : coordinator :=
  mkCoordinator
    v (group_workers s) (worker_tasks s) (run_futures s) (futures s) (run_requests s)
    (statuses s) (running_backends s) (running_tasks s) (exec_tasks s) (run_session_ids s)
    (cancelled_run_ids s) (completed_results s) (completed_order s) (run_snapshots s)
    (session_states s) (backend_cancels s) (next_id s) (uuid_draws s) (clock_reads s).
Definition with_group_workers (v : gmap string nat) (s : coordinator) : coordinator :=
  mkCoordinator
    (group_queues s) v (worker_tasks s) (run_futures s) (futures s) (run_requests s)
    (statuses s) (running_backends s) (running_tasks s) (exec_tasks s) (run_session_ids s)
    (cancelled_run_ids s) (completed_results s) (completed_order s) (run_snapshots s)
    (session_states s) (backend_cancels s) (next_id s) (uuid_draws s) (clock_reads s).
Definition with_worker_tasks (v : gmap nat worker) (s : coordinator) : coordinator :=
  mkCoordinator
    (group_queues s) (group_workers s) v (run_futures s) (futures s) (run_requests s)
    (statuses s) (running_backends s) (running_tasks s) (exec_tasks s) (run_session_ids s)
    (cancelled_run_ids s) (completed_results s) (completed_order s) (run_snapshots s)
    (session_states s) (backend_cancels s) (next_id s) (uuid_draws s) (clock_reads s).
Definition with_run_futures (v : gmap string nat) (s : coordinator) : coordinator :=
  mkCoordinator
    (group_queues s) (group_workers s) (worker_tasks s) v (futures s) (run_requests s)
    (statuses s) (running_backends s) (running_tasks s) (exec_tasks s) (run_session_ids s)
    (cancelled_run_ids s) (completed_results s) (completed_order s) (run_snapshots s)
    (session_states s) (backend_cancels s) (next_id s) (uuid_draws s) (clock_reads s).
Definition with_futures (v : gmap nat future) (s : coordinator) : coordinator :=
  mkCoordinator
    (group_queues s) (group_workers s) (worker_tasks s) (run_futures s) v (run_requests s)
    (statuses s) (running_backends s) (running_tasks s) (exec_tasks s) (run_session_ids s)
    (cancelled_run_ids s) (completed_results s) (completed_order s) (run_snapshots s)
    (session_states s) (backend_cancels s) (next_id s) (uuid_draws s) (clock_reads s).
Definition with_run_requests (v : list (string * ExecutionRequest)) (s : coordinator) : coordinator :=
  mkCoordinator
    (group_queues s) (group_workers s) (worker_tasks s) (run_futures s) (futures s) v
    (statuses s) (running_backends s) (running_tasks s) (exec_tasks s) (run_session_ids s)
    (cancelled_run_ids s) (completed_results s) (completed_order s) (run_snapshots s)
    (session_states s) (backend_cancels s) (next_id s) (uuid_draws s) (clock_reads s).
Definition with_statuses (v : gmap string ExecutionStatus) (s : coordinator) : coordinator :=
  mkCoordinator
    (group_queues s) (group_workers s) (worker_tasks s) (run_futures s) (futures s)
    (run_requests s) v (running_backends s) (running_tasks s) (exec_tasks s)
    (run_session_ids s) (cancelled_run_ids s) (completed_results s) (completed_order s)
    (run_snapshots s) (session_states s) (backend_cancels s) (next_id s) (uuid_draws s)
    (clock_reads s).
Definition with_running_backends (v : gmap string string) (s : coordinator) : coordinator :=
  mkCoordinator
    (group_queues s) (group_workers s) (worker_tasks s) (run_futures s) (futures s)
    (run_requests s) (statuses s) v (running_tasks s) (exec_tasks s) (run_session_ids s)
    (cancelled_run_ids s) (completed_results s) (completed_order s) (run_snapshots s)
    (session_states s) (backend_cancels s) (next_id s) (uuid_draws s) (clock_reads s).
Definition with_running_tasks (v : gmap string nat) (s : coordinator) : coordinator :=
  mkCoordinator
    (group_queues s) (group_workers s) (worker_tasks s) (run_futures s) (futures s)
    (run_requests s) (statuses s) (running_backends s) v (exec_tasks s) (run_session_ids
    s) (cancelled_run_ids s) (completed_results s) (completed_order s) (run_snapshots s)
    (session_states s) (backend_cancels s) (next_id s) (uuid_draws s) (clock_reads s).
Definition with_exec_tasks (v : gmap nat exec_task) (s : coordinator) : coordinator :=
  mkCoordinator
    (group_queues s) (group_workers s) (worker_tasks s) (run_futures s) (futures s)
    (run_requests s) (statuses s) (running_backends s) (running_tasks s) v
    (run_session_ids s) (cancelled_run_ids s) (completed_results s) (completed_order s)
    (run_snapshots s) (session_states s) (backend_cancels s) (next_id s) (uuid_draws s)
    (clock_reads s).
Definition with_run_session_ids (v : gmap string string) (s : coordinator) : coordinator :=
  mkCoordinator
    (group_queues s) (group_workers s) (worker_tasks s) (run_futures s) (futures s)
    (run_requests s) (statuses s) (running_backends s) (running_tasks s) (exec_tasks s) v
    (cancelled_run_ids s) (completed_results s) (completed_order s) (run_snapshots s)
    (session_states s) (backend_cancels s) (next_id s) (uuid_draws s) (clock_reads s).
Definition with_cancelled_run_ids (v : gset string) (s : coordinator) : coordinator :=
  mkCoordinator
    (group_queues s) (group_workers s) (worker_tasks s) (run_futures s) (futures s)
    (run_requests s) (statuses s) (running_backends s) (running_tasks s) (exec_tasks s)
    (run_session_ids s) v (completed_results s) (completed_order s) (run_snapshots s)
    (session_states s) (backend_cancels s) (next_id s) (uuid_draws s) (clock_reads s).
Definition with_completed_results (v : gmap string ExecutionResult) (s : coordinator) : coordinator :=
  mkCoordinator
    (group_queues s) (group_workers s) (worker_tasks s) (run_futures s) (futures s)
    (run_requests s) (statuses s) (running_backends s) (running_tasks s) (exec_tasks s)
    (run_session_ids s) (cancelled_run_ids s) v (completed_order s) (run_snapshots s)
    (session_states s) (backend_cancels s) (next_id s) (uuid_draws s) (clock_reads s).
Definition with_completed_order (v : list string) (s : coordinator) : coordinator :=
  mkCoordinator
    (group_queues s) (group_workers s) (worker_tasks s) (run_futures s) (futures s)
    (run_requests s) (statuses s) (running_backends s) (running_tasks s) (exec_tasks s)
    (run_session_ids s) (cancelled_run_ids s) (completed_results s) v (run_snapshots s)
    (session_states s) (backend_cancels s) (next_id s) (uuid_draws s) (clock_reads s).
Definition with_run_snapshots (v : list (string * ExecutionRunSnapshot)) (s : coordinator) : coordinator :=
  mkCoordinator
    (group_queues s) (group_workers s) (worker_tasks s) (run_futures s) (futures s)
    (run_requests s) (statuses s) (running_backends s) (running_tasks s) (exec_tasks s)
    (run_session_ids s) (cancelled_run_ids s) (completed_results s) (completed_order s) v
    (session_states s) (backend_cancels s) (next_id s) (uuid_draws s) (clock_reads s).
Definition with_session_states (v : gmap string WorkspaceSessionState) (s : coordinator) : coordinator :=
  mkCoordinator
    (group_queues s) (group_workers s) (worker_tasks s) (run_futures s) (futures s)
    (run_requests s) (statuses s) (running_backends s) (running_tasks s) (exec_tasks s)
    (run_session_ids s) (cancelled_run_ids s) (completed_results s) (completed_order s)
    (run_snapshots s) v (backend_cancels s) (next_id s) (uuid_draws s) (clock_reads s).
Definition with_backend_cancels (v : list (string * string)) (s : coordinator) : coordinator :=
  mkCoordinator
    (group_queues s) (group_workers s) (worker_tasks s) (run_futures s) (futures s)
    (run_requests s) (statuses s) (running_backends s) (running_tasks s) (exec_tasks s)
    (run_session_ids s) (cancelled_run_ids s) (completed_results s) (completed_order s)
    (run_snapshots s) (session_states s) v (next_id s) (uuid_draws s) (clock_reads s).
Definition with_next_id (v : nat) (s : coordinator) : coordinator :=
  mkCoordinator
    (group_queues s) (group_workers s) (worker_tasks s) (run_futures s) (futures s)
    (run_requests s) (statuses s) (running_backends s) (running_tasks s) (exec_tasks s)
    (run_session_ids s) (cancelled_run_ids s) (completed_results s) (completed_order s)
    (run_snapshots s) (session_states s) (backend_cancels s) v (uuid_draws s) (clock_reads
    s).
Definition with_uuid_draws (v : nat) (s : coordinator) : coordinator :=
  mkCoordinator
    (group_queues s) (group_workers s) (worker_tasks s) (run_futures s) (futures s)
    (run_requests s) (statuses s) (running_backends s) (running_tasks s) (exec_tasks s)
    (run_session_ids s) (cancelled_run_ids s) (completed_results s) (completed_order s)
    (run_snapshots s) (session_states s) (backend_cancels s) (next_id s) v (clock_reads s).
Definition with_clock_reads (v : nat) (s : coordinator) : coordinator :=
  mkCoordinator
    (group_queues s) (group_workers s) (worker_tasks s) (run_futures s) (futures s)
    (run_requests s) (statuses s) (running_backends s) (running_tasks s) (exec_tasks s)
    (run_session_ids s) (cancelled_run_ids s) (completed_results s) (completed_order s)
    (run_snapshots s) (session_states s) (backend_cancels s) (next_id s) (uuid_draws s) v.

Definition init_coordinator : coordinator :=
  mkCoordinator ∅ ∅ ∅ ∅ ∅ [] ∅ ∅ ∅ ∅ ∅ ∅ ∅ [] [] ∅ [] 0 0 0.

(** [_build_result]. *)
Definition build_result (run_id group_folder backend session_id : string)
    (status : ExecutionStatus) (slot_id : string) (final_output error : option string)
    (timeout_ms : option Z) : ExecutionResult :=
  mkResult run_id status group_folder backend session_id slot_id final_output error timeout_ms.

(** [_uses_workspace_session]. *)
Definition uses_workspace_session (backend_name : string) : bool :=
  bool_decide (backend_name = "openai_runtime").

(** [_should_retry_session_resume] for a [RuntimeError]. *)
Definition should_retry_session_resume (backend_name : string) (req : ExecutionRequest)
    (resume_failed : bool) : bool :=
  if rq_fresh_session req || negb (uses_workspace_session backend_name) then false
  else resume_failed.

(** [_workspace_key]. *)
Definition request_workspace_key (req : ExecutionRequest) : string :=
  resolve_workspace_key (rq_group_folder req) (rq_slot_id req).

(** The snapshot mutations [_mark_running], [_mark_recovery_attempt],
    [_mark_recovery_result] and [_mark_terminal]. *)
Definition snap_running (backend session_id : string) (now : Z) (n : ExecutionRunSnapshot) :=
  mkSnapshot (sn_run_id n) (sn_group_folder n) (sn_chat_jid n) (sn_user_id n) (sn_source n)
    (sn_requested_mode n) StRunning (sn_slot_id n) (Some backend) (Some session_id)
    (sn_created_at n) (Some now) (sn_finished_at n) (sn_final_output n) (sn_error n)
    (sn_timeout_ms n) (sn_recovery_attempted n) (sn_recovery_reason n) (sn_recovery_succeeded n).

Definition snap_recovery_attempt (reason : string) (n : ExecutionRunSnapshot) :=
  mkSnapshot (sn_run_id n) (sn_group_folder n) (sn_chat_jid n) (sn_user_id n) (sn_source n)
    (sn_requested_mode n) (sn_status n) (sn_slot_id n) (sn_backend n) (sn_session_id n)
    (sn_created_at n) (sn_started_at n) (sn_finished_at n) (sn_final_output n) (sn_error n)
    (sn_timeout_ms n) true (Some reason) None.

Definition snap_recovery_result (succeeded : bool) (n : ExecutionRunSnapshot) :=
  mkSnapshot (sn_run_id n) (sn_group_folder n) (sn_chat_jid n) (sn_user_id n) (sn_source n)
    (sn_requested_mode n) (sn_status n) (sn_slot_id n) (sn_backend n) (sn_session_id n)
    (sn_created_at n) (sn_started_at n) (sn_finished_at n) (sn_final_output n) (sn_error n)
    (sn_timeout_ms n) (sn_recovery_attempted n) (sn_recovery_reason n) (Some succeeded).

Definition snap_terminal (r : ExecutionResult) (now : Z) (n : ExecutionRunSnapshot) :=
  mkSnapshot (sn_run_id n) (sn_group_folder n) (sn_chat_jid n) (sn_user_id n) (sn_source n)
    (sn_requested_mode n) (rs_status r) (rs_slot_id r) (Some (rs_backend r))
    (Some (rs_session_id r)) (sn_created_at n) (sn_started_at n) (Some now) (rs_final_output r)
    (rs_error r) (rs_timeout_ms r) (sn_recovery_attempted n) (sn_recovery_reason n)
    (sn_recovery_succeeded n).

Definition snap_queued (run_id : string) (req : ExecutionRequest) (now : Z) :=
  mkSnapshot run_id (rq_group_folder req) (rq_chat_jid req) (rq_user_id req) (rq_source req)
    (rq_requested_mode req) StQueued (rq_slot_id req) None None now None None None None None
    false None None.

Inductive event :=
| Submit (req : ExecutionRequest)
| Cancel (run_id : string)
| WaiterCancelled (fid : nat)
| RunWorker (tid : nat)
| BackendStep (eid : nat) (o : outcome).

(** What a segment gives its caller: a handle, [cancel]'s boolean ([None] when
    it raises [KeyError]), or the group and run a worker handed to a backend. *)
Inductive output :=
| OHandle (h : ExecutionHandle)
| OBool (b : option bool)
| OStarted (started : option (string * string))
| OUnit.

(** [wait_for_run] up to its [await]. *)
Inductive wait_reply :=
| WaitResult (r : ExecutionResult)
| WaitFuture (fid : nat)
| WaitKeyError.

Section coordinator.
Context {POL : ExecutionPolicyProtocol}.
Variable backends : list string.
Variable max_completed_runs : nat.
Variable uuid4_hex : nat -> string.
Variable utcnow : nat -> Z.

(** [_select_backend_name] and [_safe_select_backend_name]. *)
Definition select_backend_name (req : ExecutionRequest) : result string string :=
  policy_select req.

Definition safe_select_backend_name (req : ExecutionRequest) : string :=
  match select_backend_name req with Ok b => b | Err _ => "unknown" end.

(** [_utcnow]. *)
Definition read_clock (s : coordinator) : Z * coordinator :=
  (utcnow (clock_reads s), with_clock_reads (S (clock_reads s)) s).

(** [_resolve_session_id]; [fresh] is the effective flag. *)
Definition resolve_session_id (req : ExecutionRequest) (backend_name : string) (fresh : bool)
    (s : coordinator) : string * coordinator :=
  let k := request_workspace_key req in
  if uses_workspace_session backend_name then
    let '(sid, n, st) := preview_session_id (default_new_session_id uuid4_hex) (uuid_draws s)
                           (session_states s) k backend_name fresh in
    (sid, with_uuid_draws n (with_session_states st s))
  else if fresh then
    (k +:+ ":" +:+ String.substring 0 8 (uuid4_hex (uuid_draws s)),
     with_uuid_draws (S (uuid_draws s)) s)
  else (k, s).

(** [_peek_session_id]. *)
Definition peek_session_id (req : ExecutionRequest) (backend_name : string)
    (s : coordinator) : string * coordinator :=
  resolve_session_id req backend_name (rq_fresh_session req) s.

(** [_mark_terminal]; the clock is read when the snapshot exists. *)
Definition mark_terminal (r : ExecutionResult) (s : coordinator) : coordinator :=
  match od_get (rs_run_id r) (run_snapshots s) with
  | None => s
  | Some n =>
      let '(now, s) := read_clock s in
      with_run_snapshots (od_set (rs_run_id r) (snap_terminal r now n) (run_snapshots s)) s
  end.

(** [_mark_running]. *)
Definition mark_running (run_id backend session_id : string) (s : coordinator) : coordinator :=
  match od_get run_id (run_snapshots s) with
  | None => s
  | Some n =>
      let '(now, s) := read_clock s in
      with_run_snapshots (od_set run_id (snap_running backend session_id now n) (run_snapshots s)) s
  end.

Definition mark_recovery_attempt (run_id reason : string) (s : coordinator) : coordinator :=
  with_run_snapshots (od_update run_id (snap_recovery_attempt reason) (run_snapshots s)) s.

Definition mark_recovery_result (run_id : string) (ok : bool) (s : coordinator) : coordinator :=
  with_run_snapshots (od_update run_id (snap_recovery_result ok) (run_snapshots s)) s.

(** The eviction loop of [_store_terminal_result], on the order it pops from. *)
Fixpoint evict (order : list string) (s : coordinator) : coordinator :=
  if bool_decide (length order <= max_completed_runs) then with_completed_order order s
  else match order with
       | [] => with_completed_order [] s
       | stale :: order' =>
           evict order'
             (with_run_snapshots (od_pop stale (run_snapshots s))
             (with_statuses (delete stale (statuses s))
             (with_completed_results (delete stale (completed_results s)) s)))
       end.

(** [future.set_result(result)] unless the future is missing or done. *)
Definition resolve_future (fid : option nat) (r : ExecutionResult) (s : coordinator) :=
  match fid with
  | None => s
  | Some f =>
      match futures s !! f with
      | Some FPending => with_futures (<[f := FResult r]> (futures s)) s
      | _ => s
      end
  end.

(** [_store_terminal_result]. *)
Definition store_terminal_result (r : ExecutionResult) (s : coordinator) : coordinator :=
  let id := rs_run_id r in
  let s := with_statuses (<[id := rs_status r]> (statuses s)) s in
  let s := with_completed_results (<[id := r]> (completed_results s)) s in
  let s := with_completed_order (completed_order s ++ [id]) s in
  let s := mark_terminal r s in
  let s := evict (completed_order s) s in
  let fid := run_futures s !! id in
  let s := with_run_futures (delete id (run_futures s)) s in
  let s := resolve_future fid r s in
  with_run_requests (od_pop id (run_requests s)) s.

(** [_ensure_worker]. *)
Definition ensure_worker (g : string) (s : coordinator) : coordinator :=
  let busy := match group_workers s !! g with
              | None => false
              | Some t => match worker_tasks s !! t with
                          | Some w => worker_live w
                          | None => false
                          end
              end in
  if busy then s
  else
    let t := next_id s in
    with_next_id (S t)
      (with_worker_tasks (<[t := mkWorker g WStart]> (worker_tasks s))
      (with_group_workers (<[g := t]> (group_workers s)) s)).

(** [submit_execution]. *)
Definition submit_execution (req : ExecutionRequest) (s : coordinator) :
    ExecutionHandle * coordinator :=
  let '(run_id, s) :=
    match rq_request_id req with
    | Some id => if bool_decide (id = "") then (uuid4_hex (uuid_draws s),
                                               with_uuid_draws (S (uuid_draws s)) s)
                 else (id, s)
    | None => (uuid4_hex (uuid_draws s), with_uuid_draws (S (uuid_draws s)) s)
    end in
  let f := next_id s in
  let s := with_next_id (S f) (with_futures (<[f := FPending]> (futures s)) s) in
  let s := with_run_futures (<[run_id := f]> (run_futures s)) s in
  let s := with_run_requests (od_set run_id req (run_requests s)) s in
  let s := with_statuses (<[run_id := StQueued]> (statuses s)) s in
  let '(now, s) := read_clock s in
  let s := with_run_snapshots (od_set run_id (snap_queued run_id req now) (run_snapshots s)) s in
  let g := rq_group_folder req in
  let q := default [] (group_queues s !! g) in
  let s := with_group_queues (<[g := q ++ [(run_id, req)]]> (group_queues s)) s in
  let s := ensure_worker g s in
  (mkHandle run_id g StQueued, s).

(** [if not execution_task.done(): execution_task.cancel()]. *)
Definition cancel_exec_task (e : nat) (s : coordinator) : coordinator :=
  match exec_tasks s !! e with
  | Some t =>
      match et_end t with
      | None =>
          with_exec_tasks
            (<[e := mkExec (et_run_id t) (et_request t) (et_backend t) (et_workspace_key t)
                      (et_session_id t) (et_phase t) true None]> (exec_tasks s)) s
      | Some _ => s
      end
  | None => s
  end.

(** [cancel]. A queued run stays in its queue; the worker skips it later.
    [None] is the [KeyError] of [self._run_requests[run_id]]. *)
Definition cancel (run_id : string) (s : coordinator) : option bool * coordinator :=
  match statuses s !! run_id with
  | None => (Some false, s)
  | Some StQueued =>
      match od_get run_id (run_requests s) with
      | None => (None, s)
      | Some req =>
          let b := safe_select_backend_name req in
          let '(sid, s) := peek_session_id req b s in
          (Some true, store_terminal_result
                   (build_result run_id (rq_group_folder req) b sid StCancelled
                      (rq_slot_id req) None None None) s)
      end
  | Some StRunning =>
      match od_get run_id (run_requests s) with
      | None => (None, s)
      | Some req =>
          let b := safe_select_backend_name req in
          let '(peeked, s) := peek_session_id req b s in
          let sid := default peeked (run_session_ids s !! run_id) in
          match running_backends s !! run_id with
          | None => (Some false, s)
          | Some backend =>
              let s := with_cancelled_run_ids ({[run_id]} ∪ cancelled_run_ids s) s in
              let s := with_statuses (<[run_id := StCancelled]> (statuses s)) s in
              let s := match running_tasks s !! run_id with
                       | Some e => cancel_exec_task e s
                       | None => s
                       end in
              let s := store_terminal_result
                         (build_result run_id (rq_group_folder req) b sid StCancelled
                            (rq_slot_id req) None None None) s in
              (Some true, with_backend_cancels (backend_cancels s ++ [(backend, run_id)]) s)
          end
      end
  | Some _ => (Some false, s)
  end.

(** [_execute_request] up to its [await execution_task]: a run that cannot be
    started is stored as failed ([inl]), one that can is handed to an execution
    task ([inr], with the task). *)
Definition execute_request_head (run_id : string) (req : ExecutionRequest) (s : coordinator) :
    coordinator + (nat * coordinator) :=
  match select_backend_name req with
  | Err msg =>
      let '(sid, s) := peek_session_id req "unknown" s in
      inl (store_terminal_result
             (build_result run_id (rq_group_folder req) "unknown" sid StFailed
                (rq_slot_id req) None (Some msg) None) s)
  | Ok b =>
      if bool_decide (b ∈ backends) then
        let k := request_workspace_key req in
        let '(sid, s) := peek_session_id req b s in
        let s := with_run_session_ids (<[run_id := sid]> (run_session_ids s)) s in
        let s := with_statuses (<[run_id := StRunning]> (statuses s)) s in
        let s := mark_running run_id b sid s in
        let s := with_running_backends (<[run_id := b]> (running_backends s)) s in
        let e := next_id s in
        let s := with_next_id (S e)
                   (with_exec_tasks
                      (<[e := mkExec run_id req b k sid First false None]> (exec_tasks s)) s) in
        let s := with_running_tasks (<[run_id := e]> (running_tasks s)) s in
        inr (e, s)
      else
        let '(sid, s) := peek_session_id req b s in
        inl (store_terminal_result
               (build_result run_id (rq_group_folder req) b sid StFailed "main" None
                  (Some ("unknown execution backend: " +:+ b)) None) s)
  end.

(** The [finally] of [_execute_request]. *)
Definition execute_request_finally (run_id : string) (s : coordinator) : coordinator :=
  with_run_session_ids (delete run_id (run_session_ids s))
    (with_running_tasks (delete run_id (running_tasks s))
    (with_running_backends (delete run_id (running_backends s)) s)).

(** [_execute_request] from its [await execution_task]: [None] when a
    [CancelledError] nobody asked for leaves the worker. *)
Definition execute_request_tail (run_id : string) (req : ExecutionRequest) (e : task_end)
    (s : coordinator) : option coordinator :=
  let was_cancelled := bool_decide (run_id ∈ cancelled_run_ids s) in
  let discard s := with_cancelled_run_ids (cancelled_run_ids s ∖ {[run_id]}) s in
  let s := execute_request_finally run_id s in
  match e with
  | TCancelled => if was_cancelled then Some (discard s) else None
  | TReturned r => if was_cancelled then Some (discard s) else Some (store_terminal_result r s)
  | TRaised msg =>
      let b := safe_select_backend_name req in
      let '(sid, s) := peek_session_id req b s in
      Some (store_terminal_result
              (build_result run_id (rq_group_folder req) b sid StFailed (rq_slot_id req)
                 None (Some msg) None) s)
  end.

Definition set_worker (t : nat) (g : string) (st : worker_state) (s : coordinator) :=
  with_worker_tasks (<[t := mkWorker g st]> (worker_tasks s)) s.

(** The loop of [_run_group_queue] on the entries [q] of the queue of [g], up to
    the next suspension; the run handed to a backend, if any, is returned. *)
Fixpoint worker_loop (t : nat) (g : string) (q : list (string * ExecutionRequest))
    (s : coordinator) : option string * coordinator :=
  match q with
  | [] =>
      let s := with_group_queues (<[g := []]> (group_queues s)) s in
      (None, set_worker t g WDone (with_group_workers (delete g (group_workers s)) s))
  | (run_id, req) :: q' =>
      let s := with_group_queues (<[g := q']> (group_queues s)) s in
      let pending := match run_futures s !! run_id with
                     | None => false
                     | Some f => match futures s !! f with
                                 | Some fu => negb (future_done fu)
                                 | None => false
                                 end
                     end in
      if pending then
        match execute_request_head run_id req s with
        | inl s => worker_loop t g q' s
        | inr (e, s) => (Some run_id, set_worker t g (WAwait e run_id req) s)
        end
      else worker_loop t g q' s
  end.

(** [worker_loop] from the queue as it stands. *)
Definition run_group_queue (t : nat) (g : string) (s : coordinator) :=
  worker_loop t g (default [] (group_queues s !! g)) s.

(** One run of a worker task; [None] when it cannot run. *)
Definition run_worker (t : nat) (s : coordinator) :
    option (option (string * string) * coordinator) :=
  let tag g '(o, s) := ((fun r : string => (g, r)) <$> o, s) in
  match worker_tasks s !! t with
  | Some w =>
      let g := wk_group w in
      match wk_state w with
      | WStart => Some (tag g (run_group_queue t g s))
      | WAwait e run_id req =>
          match exec_tasks s !! e with
          | Some et =>
              match et_end et with
              | Some ending =>
                  match execute_request_tail run_id req ending s with
                  | Some s => Some (tag g (run_group_queue t g s))
                  | None => Some (None, set_worker t g WCrashed (execute_request_finally run_id s))
                  end
              | None => None
              end
          | None => None
          end
      | _ => None
      end
  | None => None
  end.

(** [_run_backend_with_timeout] from the outcome of its [await]: a result, or
    the exception that leaves it, a [RuntimeError] ([inl]) or another ([inr]). *)
Definition backend_result (e : exec_task) (o : outcome) :
    result (bool * string + task_end) ExecutionResult :=
  let req := et_request e in
  let res st fo er tm :=
    build_result (et_run_id e) (rq_group_folder req) (et_backend e) (et_session_id e) st
      (rq_slot_id req) fo er tm in
  match o with
  | BRaw raw => Ok (res (default StCompleted (raw_status raw)) (raw_final_output raw)
                      (raw_error raw) (raw_timeout_ms raw))
  | BResult r => Ok r
  | BTimeout => Ok (res StTimeout None None (rq_timeout_ms req))
  | BRuntimeError resume msg => raise (inl (resume, msg))
  | BException msg => Ok (res StFailed None (Some msg) None)
  | BMalformed msg => raise (inr (TRaised msg))
  | BCancelled => raise (inr TCancelled)
  end.

Definition set_exec (i : nat) (e : exec_task) (s : coordinator) :=
  with_exec_tasks (<[i := e]> (exec_tasks s)) s.

Definition end_exec (i : nat) (e : exec_task) (t : task_end) (s : coordinator) :=
  set_exec i (mkExec (et_run_id e) (et_request e) (et_backend e) (et_workspace_key e)
    (et_session_id e) (et_phase e) (et_cancel_requested e) (Some t)) s.

(** The commit at the end of [_execute_backend_with_lifecycle]. *)
Definition commit_if_completed (e : exec_task) (r : ExecutionResult) (s : coordinator) :=
  if uses_workspace_session (et_backend e) && bool_decide (rs_status r = StCompleted)
  then with_session_states
         (commit_success (session_states s) (et_workspace_key e) (et_backend e)
            (rs_session_id r)) s
  else s.

(** [_execute_backend_with_lifecycle] from the outcome of a backend call. *)
Definition backend_step (i : nat) (o : outcome) (s : coordinator) : option coordinator :=
  match exec_tasks s !! i with
  | None => None
  | Some e =>
      match et_end e with
      | Some _ => None
      | None =>
          let s := match o with
                   | BTimeout => with_backend_cancels
                                   (backend_cancels s ++ [(et_backend e, et_run_id e)]) s
                   | _ => s
                   end in
          let failed msg :=
            build_result (et_run_id e) (rq_group_folder (et_request e)) (et_backend e)
              (et_session_id e) StFailed (rq_slot_id (et_request e)) None (Some msg) None in
          match et_phase e, backend_result e o with
          | First, Ok r => Some (end_exec i e (TReturned r) (commit_if_completed e r s))
          | First, Err (inl (resume, msg)) =>
              if should_retry_session_resume (et_backend e) (et_request e) resume then
                let s := mark_recovery_attempt (et_run_id e) msg s in
                let s := with_session_states
                           (invalidate (session_states s) (et_workspace_key e)) s in
                let '(sid, s) := resolve_session_id (et_request e) (et_backend e) true s in
                let s := with_run_session_ids (<[et_run_id e := sid]> (run_session_ids s)) s in
                Some (set_exec i (mkExec (et_run_id e) (et_request e) (et_backend e)
                        (et_workspace_key e) sid Retry (et_cancel_requested e) None) s)
              else Some (end_exec i e (TReturned (failed msg)) s)
          | Retry, Ok r =>
              Some (end_exec i e (TReturned r)
                      (commit_if_completed e r (mark_recovery_result (et_run_id e) true s)))
          | Retry, Err (inl (_, msg)) =>
              Some (end_exec i e (TReturned (failed msg))
                      (mark_recovery_result (et_run_id e) false s))
          | _, Err (inr t) => Some (end_exec i e t s)
          end
      end
  end.

(** [future.cancel()], by the cancellation of a task that awaits the future. *)
Definition cancel_waiter (f : nat) (s : coordinator) : option coordinator :=
  match futures s !! f with
  | Some FPending => Some (with_futures (<[f := FCancelled]> (futures s)) s)
  | _ => None
  end.

(** One event of the event loop. *)
Definition step (s : coordinator) (ev : event) : option (output * coordinator) :=
  match ev with
  | Submit req => let '(h, s) := submit_execution req s in Some (OHandle h, s)
  | Cancel id => let '(b, s) := cancel id s in Some (OBool b, s)
  | WaiterCancelled f => (fun s => (OUnit, s)) <$> cancel_waiter f s
  | RunWorker t => (fun '(o, s) => (OStarted o, s)) <$> run_worker t s
  | BackendStep i o => (fun s => (OUnit, s)) <$> backend_step i o s
  end.

(** ** Queries *)

Definition get_status (id : string) (s : coordinator) : option ExecutionStatus :=
  statuses s !! id.

(** [get_run_snapshot]: a copy of the snapshot. *)
Definition get_run_snapshot (id : string) (s : coordinator) : option ExecutionRunSnapshot :=
  od_get id (run_snapshots s).

(** [list_run_snapshots]: newest first, then the [limit] first of them. *)
Definition list_run_snapshots (limit : nat) (s : coordinator) : list ExecutionRunSnapshot :=
  take limit (py_sorted_rev sn_created_at (od_values (run_snapshots s))).

(** [list_backend_names] and [get_backend]. *)
Definition list_backend_names : list string := py_sorted (fun b : string => b) backends.
Definition get_backend (name : string) : option string :=
  if bool_decide (name ∈ backends) then Some name else None.

(** [wait_for_run] up to its [await]. *)
Definition wait_for_run (id : string) (s : coordinator) : wait_reply :=
  match completed_results s !! id with
  | Some r => WaitResult r
  | None => match run_futures s !! id with
            | Some f => WaitFuture f
            | None => WaitKeyError
            end
  end.

(** One iteration of the loop of [get_monitor_queue_snapshot]. *)
Definition monitor_add (s : coordinator) (groups : list (string * MonitorQueueGroupSnapshot))
    (entry : string * ExecutionRequest) : list (string * MonitorQueueGroupSnapshot) :=
  let '(id, req) := entry in
  let g := rq_group_folder req in
  let groups' := od_setdefault g (mkMonitor g 0 0 None None) groups in
  match statuses s !! id with
  | Some StQueued =>
      od_update g (fun m => mkMonitor g (mq_queued_runs m + 1) (mq_running_runs m)
                              (mq_active_run_id m) (mq_active_backend m)) groups'
  | Some StRunning =>
      od_update g (fun m => mkMonitor g (mq_queued_runs m) (mq_running_runs m + 1) (Some id)
                              (n ← od_get id (run_snapshots s); sn_backend n)) groups'
  | _ => groups
  end.

Definition get_monitor_queue_snapshot (s : coordinator) : list MonitorQueueGroupSnapshot :=
  (py_sorted fst (foldl (monitor_add s) [] (run_requests s))).*2.

(** States reached from a fresh coordinator, with the events and their outputs. *)
Inductive reach : list (event * output) -> coordinator -> Prop :=
| reach_init : reach [] init_coordinator
| reach_step tr s ev out s' :
    reach tr s -> step s ev = Some (out, s') -> reach (tr ++ [(ev, out)]) s'.

(** A given sequence of events, as far as each of them can happen. *)
Fixpoint run_events (evs : list event) (tr : list (event * output)) (s : coordinator) :
    option (list (event * output) * coordinator) :=
  match evs with
  | [] => Some (tr, s)
  | ev :: evs' =>
      match step s ev with
      | Some (out, s') => run_events evs' (tr ++ [(ev, out)]) s'
      | None => None
      end
  end.

Lemma run_events_reach evs tr s tr' s' :
  reach tr s -> run_events evs tr s = Some (tr', s') -> reach tr' s'.
Proof.
  revert tr s. induction evs as [|ev evs IH]; intros tr s R; simpl.
  - intros H. by simplify_eq.
  - destruct (step s ev) as [[out s1]|] eqn:E; [|done]. apply IH. by eapply reach_step.
Qed.

End coordinator.

#[global] Arguments store_terminal_result : simpl never.
#[global] Arguments mark_terminal : simpl never.
#[global] Arguments mark_running : simpl never.
#[global] Arguments evict : simpl never.
#[global] Arguments resolve_session_id : simpl never.
#[global] Arguments peek_session_id : simpl never.
#[global] Arguments cancel_exec_task : simpl never.
#[global] Arguments ensure_worker : simpl never.
#[global] Arguments resolve_future : simpl never.
