(* ===== verification/CoordinatorInv.v ===== *)
(** * Invariants of the execution coordinator

    The control invariant: workers, queues and execution tasks fit together in
    every reachable state, whatever the backends do and whatever run ids the
    callers choose. [control] is the part of the state it speaks of; every
    segment that leaves [control] alone preserves it ([ctl_inv_ext]). *)

From stdpp Require Import base gmap strings list option sets.
From Stdlib Require Import ZArith Lia.
From S2P Require Import Prelude PyDict Workspace Execution Coordinator.

Definition control (s : coordinator) :=
  (group_queues s, group_workers s, worker_tasks s, exec_tasks s, next_id s).

Record ctl_inv (s : coordinator) : Prop := {
  ci_worker_id : forall t w, worker_tasks s !! t = Some w -> t < next_id s;
  ci_exec_id : forall e x, exec_tasks s !! e = Some x -> e < next_id s;
  ci_live : forall t w, worker_tasks s !! t = Some w -> worker_live w = true ->
    group_workers s !! wk_group w = Some t;
  ci_queue : forall g q r req, group_queues s !! g = Some q -> (r, req) ∈ q ->
    rq_group_folder req = g;
  ci_exec : forall e x, exec_tasks s !! e = Some x -> et_end x = None ->
    exists t, worker_tasks s !! t =
      Some (mkWorker (rq_group_folder (et_request x)) (WAwait e (et_run_id x) (et_request x)));
  ci_await : forall t g e r req, worker_tasks s !! t = Some (mkWorker g (WAwait e r req)) ->
    exists x, exec_tasks s !! e = Some x /\ et_run_id x = r /\ et_request x = req /\
              rq_group_folder req = g;
  ci_registered : forall g t, group_workers s !! g = Some t ->
    exists w, worker_tasks s !! t = Some w /\ wk_group w = g /\
              (worker_live w = true \/ wk_state w = WCrashed);
  ci_work : forall g q, group_queues s !! g = Some q -> q <> [] ->
    is_Some (group_workers s !! g)
}.

(** The states in which worker [t] of group [g] is running its loop: its
    registration holds and no unfinished execution task is its to await. *)
Record in_loop (t : nat) (g : string) (s : coordinator) : Prop := {
  il_inv : ctl_inv s;
  il_worker : exists st, worker_tasks s !! t = Some (mkWorker g st) /\
    worker_live (mkWorker g st) = true /\
    forall e r req x, st = WAwait e r req -> exec_tasks s !! e = Some x -> et_end x <> None
}.

Lemma control_queues s s' : control s = control s' -> group_queues s = group_queues s'.
Proof. by intros [=]. Qed.

Lemma control_execs s s' : control s = control s' -> exec_tasks s = exec_tasks s'.
Proof. by intros [=]. Qed.

Lemma ctl_inv_ext s s' : control s = control s' -> ctl_inv s -> ctl_inv s'.
Proof.
  unfold control. intros [= E1 E2 E3 E4 E5] [].
  split; rewrite <- ?E1, <- ?E2, <- ?E3, <- ?E4, <- ?E5; assumption.
Qed.

Lemma in_loop_ext t g s s' : control s = control s' -> in_loop t g s -> in_loop t g s'.
Proof.
  intros E [H1 H2]. split; [by eapply ctl_inv_ext|].
  injection E as _ _ E3 E4 _. by rewrite <- E3, <- E4.
Qed.

Lemma ctl_inv_init : ctl_inv init_coordinator.
Proof. split; simpl; intros; simplify_map_eq. Qed.

Section frames.
Context {POL : ExecutionPolicyProtocol}.
Variable backends : list string.
Variable max_runs : nat.
Variable uuid4_hex : nat -> string.
Variable utcnow : nat -> Z.

(** ** Segments that leave the control state alone *)

Lemma control_mark_terminal r s : control (mark_terminal utcnow r s) = control s.
Proof. unfold mark_terminal. by destruct (od_get _ _). Qed.

Lemma control_mark_running r b i s : control (mark_running utcnow r b i s) = control s.
Proof. unfold mark_running. by destruct (od_get _ _). Qed.

Lemma evict_cons x l s :
  evict max_runs (x :: l) s =
    if bool_decide (length (x :: l) <= max_runs) then with_completed_order (x :: l) s
    else evict max_runs l
           (with_run_snapshots (od_pop x (run_snapshots s))
           (with_statuses (delete x (statuses s))
           (with_completed_results (delete x (completed_results s)) s))).
Proof. done. Qed.

Lemma evict_nil s : evict max_runs [] s = with_completed_order [] s.
Proof. unfold evict. by destruct (bool_decide _). Qed.

Lemma control_evict l s : control (evict max_runs l s) = control s.
Proof.
  revert s. induction l as [|x l IH]; intros s; [by rewrite evict_nil|].
  rewrite evict_cons. destruct (bool_decide _); [done|]. by rewrite IH.
Qed.

Lemma control_resolve_future f r s : control (resolve_future f r s) = control s.
Proof. unfold resolve_future. destruct f as [f|]; [|done]. by destruct (futures s !! f) as [[]|]. Qed.

Lemma control_store r s : control (store_terminal_result max_runs utcnow r s) = control s.
Proof.
  unfold store_terminal_result.
  set (s0 := mark_terminal _ _ _).
  change (control (resolve_future
    (run_futures (evict max_runs (completed_order s0) s0) !! rs_run_id r) r
    (with_run_futures (delete (rs_run_id r)
       (run_futures (evict max_runs (completed_order s0) s0)))
       (evict max_runs (completed_order s0) s0))) = control s).
  rewrite control_resolve_future.
  change (control (evict max_runs (completed_order s0) s0) = control s).
  rewrite control_evict. unfold s0. by rewrite control_mark_terminal.
Qed.

Lemma control_resolve_session req b f s :
  control (resolve_session_id uuid4_hex req b f s).2 = control s.
Proof.
  unfold resolve_session_id. destruct (uses_workspace_session b).
  - by destruct (preview_session_id _ _ _ _ _ _) as [[? ?] ?].
  - by destruct f.
Qed.

Lemma control_peek req b s : control (peek_session_id uuid4_hex req b s).2 = control s.
Proof. apply control_resolve_session. Qed.

(** ** The primitive changes of the control state *)

Lemma ctl_inv_next s n : next_id s <= n -> ctl_inv s -> ctl_inv (with_next_id n s).
Proof.
  intros Hn [Hw He Hl Hq Hx Ha Hr Hk]. split; simpl; try assumption; intros ? ? H.
  - apply Hw in H. lia.
  - apply He in H. lia.
Qed.

Lemma ctl_inv_ensure_worker g s : ctl_inv s -> ctl_inv (ensure_worker g s).
Proof.
  intros I. unfold ensure_worker. destruct (match group_workers s !! g with Some _ => _ | None => _ end) eqn:B;
    [done|].
  pose proof I as [Hw He Hl Hq Hx Ha Hr Hk].
  assert (Hfresh : worker_tasks s !! next_id s = None).
  { apply eq_None_not_Some. intros [w H]. apply Hw in H. lia. }
  assert (Hdead : forall t w, worker_tasks s !! t = Some w -> wk_group w = g -> worker_live w = false).
  { intros t w Ht Hg. destruct (worker_live w) eqn:L; [|done].
    pose proof (Hl _ _ Ht L) as HR. rewrite Hg in HR. by rewrite HR, Ht, L in B. }
  split; simpl.
  - intros t w. rewrite lookup_insert. case_decide; [lia|]. intros H1%Hw. lia.
  - intros e x H1%He. lia.
  - intros t w. rewrite lookup_insert. case_decide; subst.
    + intros [= <-] _. simpl. apply lookup_insert_eq.
    + intros H1 L. rewrite lookup_insert_ne; [by apply Hl|].
      intros ->. by rewrite (Hdead _ _ H1 eq_refl) in L.
  - done.
  - intros e x H1 H2. destruct (Hx _ _ H1 H2) as [t Ht]. exists t.
    rewrite lookup_insert_ne; [done|]. congruence.
  - intros t g' e r req. rewrite lookup_insert. case_decide; [done|]. apply Ha.
  - intros g' t. rewrite lookup_insert. case_decide; subst.
    + intros [= <-]. rewrite lookup_insert_eq. eauto.
    + intros H1. destruct (Hr _ _ H1) as (w & Hw1 & Hw2). exists w.
      rewrite lookup_insert_ne; [done|]. congruence.
  - intros g' q H1 H2. rewrite lookup_insert. case_decide; [done|]. by eapply Hk.
Qed.

Lemma ctl_inv_enqueue g r req s :
  ctl_inv s -> rq_group_folder req = g -> is_Some (group_workers s !! g) ->
  ctl_inv (with_group_queues
             (<[g := default [] (group_queues s !! g) ++ [(r, req)]]> (group_queues s)) s).
Proof.
  intros [Hw He Hl Hq Hx Ha Hr Hk] Hg Hs. split; simpl; try assumption.
  - intros g' q r' req'. rewrite lookup_insert. case_decide; subst; [|apply Hq].
    intros [= <-] [Hin|Hin]%elem_of_app; [|set_solver].
    destruct (group_queues s !! rq_group_folder req) eqn:E; [|set_solver]. by eapply Hq.
  - intros g' q. rewrite lookup_insert. case_decide; subst; [done|]. apply Hk.
Qed.

Lemma ensure_worker_registers g s : is_Some (group_workers (ensure_worker g s) !! g).
Proof.
  unfold ensure_worker. destruct (group_workers s !! g) as [t|] eqn:E; simpl.
  - destruct (worker_tasks s !! t) as [w|]; simpl; [|by rewrite lookup_insert_eq].
    destruct (worker_live w); simpl; [by rewrite E|by rewrite lookup_insert_eq].
  - by rewrite lookup_insert_eq.
Qed.

(** Replacing an unfinished execution task by one for the same run. *)
Lemma ctl_inv_set_exec e x x' s :
  ctl_inv s -> exec_tasks s !! e = Some x -> et_end x = None ->
  et_run_id x' = et_run_id x -> et_request x' = et_request x ->
  ctl_inv (with_exec_tasks (<[e := x']> (exec_tasks s)) s).
Proof.
  intros [Hw He Hl Hq Hx Ha Hr Hk] H1 H2 E1 E2. split; simpl; try assumption.
  - intros e' x''. rewrite lookup_insert. case_decide; subst; [|apply He].
    intros [= <-]. by eapply He.
  - intros e' x''. rewrite lookup_insert. case_decide; subst; [|apply Hx].
    intros [= <-] _. rewrite E1, E2. by apply Hx.
  - intros t g e' r req H3. rewrite lookup_insert. destruct (Ha _ _ _ _ _ H3) as (y & Y1 & Y2).
    case_decide; subst; [|by exists y]. exists x'. split; [done|].
    assert (x = y) as <- by congruence. rewrite E1, E2. done.
Qed.

(** ** The worker loop *)

Lemma in_loop_dequeue t g q' s :
  in_loop t g s -> (forall y, y ∈ q' -> y ∈ default [] (group_queues s !! g)) ->
  in_loop t g (with_group_queues (<[g := q']> (group_queues s)) s).
Proof.
  intros [[Hw He Hl Hq Hx Ha Hr Hk] (st & Hst & L & Hend)] Hsub.
  split; [|by exists st]. split; simpl; try assumption.
  - intros g' q r req. rewrite lookup_insert. case_decide; subst; [|apply Hq].
    intros [= <-] Hin%Hsub. destruct (group_queues s !! g') eqn:E; [|set_solver]. by eapply Hq.
  - intros g' q. rewrite lookup_insert. case_decide; subst; [|apply Hk].
    intros _ _. exists t. by apply (Hl _ _ Hst).
Qed.

(** Starting an execution task and suspending on it. *)
Lemma ctl_inv_suspend t g s r req b k sid :
  in_loop t g s -> rq_group_folder req = g ->
  ctl_inv (set_worker t g (WAwait (next_id s) r req)
    (with_next_id (S (next_id s))
      (with_exec_tasks
         (<[next_id s := mkExec r req b k sid First false None]> (exec_tasks s)) s))).
Proof.
  intros [[Hw He Hl Hq Hx Ha Hr Hk] (st & Hst & L & Hend)] Hg.
  pose proof (Hl _ _ Hst L) as Hreg.
  assert (Hfresh : exec_tasks s !! next_id s = None).
  { apply eq_None_not_Some. intros [w H]. apply He in H. lia. }
  split; simpl.
  - intros t' w. rewrite lookup_insert. case_decide; [|intros H1%Hw; lia].
    subst. intros _. apply Hw in Hst. lia.
  - intros e x. rewrite lookup_insert. case_decide; [lia|]. intros H1%He. lia.
  - intros t' w. rewrite lookup_insert. case_decide; subst; [|apply Hl]. by intros [= <-] _.
  - done.
  - intros e x. rewrite lookup_insert. case_decide; subst.
    + intros [= <-] _. exists t. by rewrite lookup_insert_eq.
    + intros H1 H2. destruct (Hx _ _ H1 H2) as [t' Ht']. exists t'.
      rewrite lookup_insert_ne; [done|]. intros ->.
      assert (st = WAwait e (et_run_id x) (et_request x)) as -> by congruence.
      by apply (Hend _ _ _ x eq_refl).
  - intros t' g' e r' req'. rewrite !lookup_insert. destruct (decide (t = t')) as [<-|].
    + intros [= <- <- <- <-]. rewrite decide_True by done. eauto.
    + intros H1. destruct (Ha _ _ _ _ _ H1) as (x & X1 & X2). exists x.
      rewrite decide_False; [done|]. intros <-. congruence.
  - intros g' t' H1. destruct (Hr _ _ H1) as (w & W1 & W2 & W3). rewrite lookup_insert.
    destruct (decide (t = t')) as [<-|]; [|by exists w].
    assert (w = mkWorker g st) as -> by congruence. simpl in *. eexists. split; [done|]. split; [done|]. by left.
  - done.
Qed.

(** Leaving the loop: the worker unregisters and ends. *)
Lemma ctl_inv_finish t g s :
  in_loop t g s -> default [] (group_queues s !! g) = [] ->
  ctl_inv (set_worker t g WDone (with_group_workers (delete g (group_workers s)) s)).
Proof.
  intros [[Hw He Hl Hq Hx Ha Hr Hk] (st & Hst & L & Hend)] Hemp.
  pose proof (Hl _ _ Hst L) as Hreg. simpl in Hreg.
  split; simpl; try assumption.
  - intros t' w. rewrite lookup_insert. case_decide; [|apply Hw]. subst. intros _. by eapply Hw.
  - intros t' w. rewrite lookup_insert. case_decide; subst; [by intros [= <-]|].
    intros H1 H2. pose proof (Hl _ _ H1 H2) as HR. rewrite lookup_delete_ne; [done|].
    intros ->. congruence.
  - intros e x H1 H2. destruct (Hx _ _ H1 H2) as [t' Ht']. exists t'.
    rewrite lookup_insert_ne; [done|]. intros ->.
    assert (st = WAwait e (et_run_id x) (et_request x)) as -> by congruence.
    by apply (Hend _ _ _ x eq_refl).
  - intros t' g' e r req. rewrite lookup_insert. case_decide; [done|]. apply Ha.
  - intros g' t'. rewrite lookup_delete_Some. intros [Hne H1].
    destruct (Hr _ _ H1) as (w & W1 & W2). exists w. rewrite lookup_insert_ne; [done|].
    intros ->. rewrite W1 in Hst. injection Hst as ->. naive_solver.
  - intros g' q H1 H2. destruct (decide (g = g')) as [<-|].
    + rewrite H1 in Hemp. done.
    + rewrite lookup_delete_ne by done. by eapply Hk.
Qed.

(** The worker died of a [CancelledError]. *)
Lemma ctl_inv_crash t g s :
  in_loop t g s -> ctl_inv (set_worker t g WCrashed s).
Proof.
  intros [[Hw He Hl Hq Hx Ha Hr Hk] (st & Hst & L & Hend)].
  split; simpl; try assumption.
  - intros t' w. rewrite lookup_insert. case_decide; [|apply Hw]. subst. intros _. by eapply Hw.
  - intros t' w. rewrite lookup_insert. case_decide; subst; [by intros [= <-]|]. apply Hl.
  - intros e x H1 H2. destruct (Hx _ _ H1 H2) as [t' Ht']. exists t'.
    rewrite lookup_insert_ne; [done|]. intros ->.
    assert (st = WAwait e (et_run_id x) (et_request x)) as -> by congruence.
    by apply (Hend _ _ _ x eq_refl).
  - intros t' g' e r req. rewrite lookup_insert. case_decide; [done|]. apply Ha.
  - intros g' t' H1. destruct (Hr _ _ H1) as (w & W1 & W2 & W3). rewrite lookup_insert.
    destruct (decide (t = t')) as [<-|]; [|by exists w].
    assert (w = mkWorker g st) as -> by congruence. simpl in *. eexists. split; [done|]. split; [done|]. by right.
Qed.

(** The head of [_execute_request]: no control change when the run fails to
    start, one new execution task when it starts. *)
Lemma execute_request_head_control r req s :
  match execute_request_head backends max_runs uuid4_hex utcnow r req s with
  | inl s' => control s' = control s
  | inr (e, s') => e = next_id s /\ exists b k sid,
      control s' = control (with_next_id (S (next_id s)) (with_exec_tasks
        (<[next_id s := mkExec r req b k sid First false None]> (exec_tasks s)) s))
  end.
Proof.
  unfold execute_request_head. destruct (select_backend_name req) as [b|msg].
  - pose proof (control_peek req b s) as C.
    destruct (peek_session_id uuid4_hex req b s) as [sid s1]; simpl in C.
    case_bool_decide; [|by rewrite control_store].
    set (s2 := mark_running _ _ _ _ _).
    assert (control s2 = control s) as C2 by (unfold s2; by rewrite control_mark_running).
    clearbody s2. injection C2 as E1 E2 E3 E4 E5. unfold control; simpl.
    split; [done|]. exists b, (request_workspace_key req), sid. by rewrite E1, E2, E3, E4, E5.
  - pose proof (control_peek req "unknown" s) as C.
    destruct (peek_session_id uuid4_hex req "unknown" s) as [sid s1]; simpl in C.
    by rewrite control_store.
Qed.

Lemma worker_loop_inv t g q s :
  in_loop t g s -> default [] (group_queues s !! g) = q ->
  ctl_inv (worker_loop backends max_runs uuid4_hex utcnow t g q s).2.
Proof.
  revert s. induction q as [|[r req] q IH]; intros s I Hq; cbn [worker_loop].
  - assert (in_loop t g (with_group_queues (<[g := []]> (group_queues s)) s)) as I'
      by (apply in_loop_dequeue; [done|set_solver]).
    apply (ctl_inv_finish t g) in I'; [done|]. simpl. by rewrite lookup_insert_eq.
  - set (s1 := with_group_queues (<[g := q]> (group_queues s)) s).
    assert (in_loop t g s1) as I1
      by (apply in_loop_dequeue; [done|]; rewrite Hq; set_solver).
    assert (default [] (group_queues s1 !! g) = q) as Hq1 by (simpl; by rewrite lookup_insert_eq).
    assert (rq_group_folder req = g) as Hg.
    { destruct (group_queues s !! g) eqn:E; simpl in Hq; [|done]. rewrite Hq in E.
      eapply (ci_queue s (il_inv _ _ _ I)); [done|left]. }
    destruct (match run_futures s1 !! r with Some _ => _ | None => _ end); [|by apply IH].
    pose proof (execute_request_head_control r req s1) as C.
    destruct (execute_request_head _ _ _ _ r req s1) as [s2|[e s2]].
    + apply IH; [by eapply in_loop_ext|]. by rewrite (control_queues _ _ C).
    + destruct C as (-> & b & k & sid & C). clearbody s1.
      eapply ctl_inv_ext; [|by apply (ctl_inv_suspend t g s1 r req b k sid)].
      unfold control in *. simpl in *. injection C as E1 E2 E3 E4 E5. by rewrite E1, E2, E3, E4, E5.
Qed.

Lemma run_group_queue_inv t g s :
  in_loop t g s -> ctl_inv (run_group_queue backends max_runs uuid4_hex utcnow t g s).2.
Proof. intros I. by apply worker_loop_inv. Qed.

Lemma control_finally r s : control (execute_request_finally r s) = control s.
Proof. done. Qed.

Lemma control_tail r req e s s' :
  execute_request_tail max_runs uuid4_hex utcnow r req e s = Some s' -> control s' = control s.
Proof.
  unfold execute_request_tail. destruct e as [res|msg|]; simpl.
  - case_bool_decide; intros [= <-]; [done|]. by rewrite control_store.
  - pose proof (control_peek req (safe_select_backend_name req)
      (execute_request_finally r s)) as C.
    destruct (peek_session_id _ _ _ _) as [sid s1]. intros [= <-]. simpl in C.
    by rewrite control_store.
  - case_bool_decide; intros [= <-]; done.
Qed.

Lemma in_loop_start t s w :
  ctl_inv s -> worker_tasks s !! t = Some w -> wk_state w = WStart -> in_loop t (wk_group w) s.
Proof.
  intros I H1 H2. split; [done|]. exists (wk_state w). destruct w; simpl in *. subst.
  repeat split; [done|]. by intros.
Qed.

Lemma in_loop_resume t s w e r req x :
  ctl_inv s -> worker_tasks s !! t = Some w -> wk_state w = WAwait e r req ->
  exec_tasks s !! e = Some x -> is_Some (et_end x) -> in_loop t (wk_group w) s.
Proof.
  intros I H1 H2 H3 [y Hy]. split; [done|]. exists (wk_state w). destruct w; simpl in *. subst.
  repeat split; [done|]. intros ? ? ? ? [= <- <- <-] H4. congruence.
Qed.

Lemma run_worker_inv t s o s' :
  ctl_inv s -> run_worker backends max_runs uuid4_hex utcnow t s = Some (o, s') -> ctl_inv s'.
Proof.
  intros I. unfold run_worker. destruct (worker_tasks s !! t) as [w|] eqn:Hw; [|done].
  destruct (wk_state w) as [|e r req| |] eqn:Hst; try done.
  - pose proof (run_group_queue_inv t (wk_group w) s (in_loop_start t s w I Hw Hst)) as H.
    destruct (run_group_queue _ _ _ _ _ _ s). intros [= <- <-]. done.
  - destruct (exec_tasks s !! e) as [x|] eqn:Hx; [|done].
    destruct (et_end x) as [y|] eqn:Hy; [|done].
    assert (in_loop t (wk_group w) s) as L by (eapply in_loop_resume; eauto).
    destruct (execute_request_tail _ _ _ r req y s) as [s1|] eqn:Ht.
    + apply control_tail in Ht. symmetry in Ht.
      pose proof (run_group_queue_inv t (wk_group w) s1 (in_loop_ext _ _ _ _ Ht L)) as H.
      destruct (run_group_queue _ _ _ _ _ _ s1). intros [= <- <-]. done.
    + intros [= <- <-]. apply ctl_inv_crash. by eapply in_loop_ext; [|exact L].
Qed.

(** ** Submission, cancellation, backend outcomes *)

Lemma ensure_worker_enqueue g l s :
  control (ensure_worker g (with_group_queues
     (<[g := default [] (group_queues s !! g) ++ l]> (group_queues s)) s)) =
  control (with_group_queues (<[g := default [] (group_queues (ensure_worker g s) !! g) ++ l]>
     (group_queues (ensure_worker g s))) (ensure_worker g s)).
Proof.
  unfold ensure_worker. simpl. by destruct (match group_workers s !! g with Some _ => _ | None => _ end).
Qed.

Lemma submit_inv req s :
  ctl_inv s -> ctl_inv (submit_execution uuid4_hex utcnow req s).2.
Proof.
  intros I. unfold submit_execution.
  set (p := match rq_request_id req with Some _ => _ | None => _ end).
  assert (control p.2 = control s) as Hp by (unfold p; repeat case_match; done).
  destruct p as [r s1]. simpl in Hp. simpl.
  set (s2 := with_next_id _ _).
  assert (ctl_inv s2) as I2.
  { apply (ctl_inv_ext (with_next_id (S (next_id s1)) s1)); [done|].
    apply ctl_inv_next; [lia|]. by apply (ctl_inv_ext s). }
  set (s3 := with_run_snapshots _ _).
  assert (control s3 = control s2) as C3 by done. symmetry in C3.
  set (g := rq_group_folder req).
  pose proof (ensure_worker_enqueue g [(r, req)] s3) as C4.
  eapply ctl_inv_ext; [symmetry; exact C4|].
  apply ctl_inv_enqueue; [|done|apply ensure_worker_registers].
  apply ctl_inv_ensure_worker. by eapply ctl_inv_ext.
Qed.

Lemma control_backend_cancels v s : control (with_backend_cancels v s) = control s.
Proof. done. Qed.

Lemma ctl_inv_cancel_exec e s : ctl_inv s -> ctl_inv (cancel_exec_task e s).
Proof.
  intros I. unfold cancel_exec_task. destruct (exec_tasks s !! e) as [x|] eqn:Hx; [|done].
  destruct (et_end x) eqn:Hend; [done|]. by apply (ctl_inv_set_exec e x).
Qed.

Lemma cancel_inv r s : ctl_inv s -> ctl_inv (cancel max_runs uuid4_hex utcnow r s).2.
Proof.
  intros I. unfold cancel. destruct (statuses s !! r) as [[]|]; try done;
    (destruct (od_get r (run_requests s)) as [req|]; [|done]);
    pose proof (control_peek req (safe_select_backend_name req) s) as C;
    destruct (peek_session_id _ _ _ _) as [sid s1]; simpl in C; symmetry in C;
    pose proof (ctl_inv_ext _ _ C I) as I1.
  - simpl. eapply ctl_inv_ext; [symmetry; apply control_store|done].
  - destruct (running_backends s1 !! r) as [b|]; [|done]. cbn [snd].
    apply (ctl_inv_ext _ _ (eq_sym (control_backend_cancels _ _))).
    apply (ctl_inv_ext _ _ (eq_sym (control_store _ _))). simpl.
    destruct (running_tasks s1 !! r) as [e|]; [|by apply (ctl_inv_ext s1)].
    apply ctl_inv_cancel_exec. by apply (ctl_inv_ext s1).
Qed.

Lemma control_commit e r s : control (commit_if_completed e r s) = control s.
Proof. unfold commit_if_completed. by case_match. Qed.

Lemma backend_step_inv i o s s' :
  ctl_inv s -> backend_step uuid4_hex i o s = Some s' -> ctl_inv s'.
Proof.
  intros I. unfold backend_step. destruct (exec_tasks s !! i) as [x|] eqn:Hx; [|done].
  destruct (et_end x) eqn:Hend; [done|].
  set (s1 := match o with BTimeout => _ | _ => _ end).
  assert (control s = control s1) as C by (unfold s1; by destruct o).
  apply (ctl_inv_ext _ _ C) in I. assert (exec_tasks s1 !! i = Some x) as Hx1
    by (by rewrite <- (control_execs _ _ C)). clearbody s1. clear C Hx.
  assert (K : forall s2 x', control s2 = control s1 -> et_run_id x' = et_run_id x ->
    et_request x' = et_request x -> ctl_inv (set_exec i x' s2)).
  { intros s2 x' C E1 E2. apply (ctl_inv_set_exec i x x' s2); [|by rewrite (control_execs _ _ C)|done..].
    symmetry in C. by eapply ctl_inv_ext. }
  destruct (et_phase x), (backend_result x o) as [r|[[resume msg]|e]].
  all: repeat match goal with |- context [should_retry_session_resume ?a ?b ?c] =>
         destruct (should_retry_session_resume a b c) end.
  all: try (intros [= <-]; apply K; [|done..]; by rewrite ?control_commit).
  - match goal with |- context [resolve_session_id ?u ?a ?b ?c ?d] =>
      pose proof (control_resolve_session a b c d) as C;
      destruct (resolve_session_id u a b c d) as [sid s2] end.
    intros [= <-]. apply K; [|done..]. exact C.
Qed.

Lemma step_inv s ev out s' :
  ctl_inv s -> step backends max_runs uuid4_hex utcnow s ev = Some (out, s') -> ctl_inv s'.
Proof.
  intros I. destruct ev as [req|r|f|t|i o]; simpl.
  - pose proof (submit_inv req s I) as H. destruct (submit_execution _ _ req s).
    by intros [= <- <-].
  - pose proof (cancel_inv r s I) as H. destruct (cancel _ _ _ r s). by intros [= <- <-].
  - unfold cancel_waiter. destruct (futures s !! f) as [[]|]; try done. simpl. intros [= <- <-].
    by apply (ctl_inv_ext s).
  - destruct (run_worker _ _ _ _ t s) as [[o s1]|] eqn:E; [|done]. simpl. intros [= <- <-].
    by eapply run_worker_inv.
  - destruct (backend_step _ i o s) as [s1|] eqn:E; [|done]. simpl. intros [= <- <-].
    by eapply backend_step_inv.
Qed.

Lemma reach_ctl_inv tr s : reach backends max_runs uuid4_hex utcnow tr s -> ctl_inv s.
Proof. induction 1; [apply ctl_inv_init|by eapply step_inv]. Qed.
End frames.
