(* ===== verification/CoordinatorStore.v ===== *)
(** * What [_store_terminal_result] leaves

    The functional behaviour of the function every run ends in, as lookups in
    the state it returns: eviction only touches the evicted ids, and the stored
    id becomes terminal, is cached, loses its request and future, and its
    future, if anybody waits on it, carries the result. *)

From stdpp Require Import base gmap strings list option sets.
From Stdlib Require Import ZArith Lia.
From S2P Require Import Prelude PyDict Workspace Execution Coordinator CoordinatorInv.

(** The part of the state that neither eviction nor [_mark_terminal] touches. *)
Definition registers (s : coordinator) :=
  (run_futures s, futures s, run_requests s, running_backends s, running_tasks s,
   run_session_ids s, cancelled_run_ids s, session_states s, backend_cancels s).

Section store.
Context {POL : ExecutionPolicyProtocol}.
Variable max_runs : nat.
Variable utcnow : nat -> Z.

Lemma evict_registers l s : registers (evict max_runs l s) = registers s.
Proof.
  revert s. induction l as [|x l IH]; intros s; [by rewrite evict_nil|].
  rewrite evict_cons. case_bool_decide; [done|]. by rewrite IH.
Qed.

(** The ids an eviction of [l] removes. *)
Definition evicted (l : list string) : list string := take (length l - max_runs) l.

Lemma evicted_cons_keep x l :
  length (x :: l) <= max_runs -> evicted (x :: l) = [].
Proof. intros H. unfold evicted. by replace (length (x :: l) - max_runs) with 0 by lia. Qed.

Lemma evicted_cons_drop x l :
  ~ length (x :: l) <= max_runs -> evicted (x :: l) = x :: evicted l.
Proof.
  intros H. unfold evicted.
  replace (length (x :: l) - max_runs) with (S (length l - max_runs)) by (simpl in *; lia). done.
Qed.

Lemma evict_statuses l s id :
  statuses (evict max_runs l s) !! id =
    if decide (id ∈ evicted l) then None else statuses s !! id.
Proof.
  revert s. induction l as [|x l IH]; intros s.
  { rewrite evict_nil. rewrite decide_False; [done|]. unfold evicted. set_solver. }
  rewrite evict_cons. case_bool_decide as Hl.
  - rewrite evicted_cons_keep by done. rewrite decide_False; [done|set_solver].
  - rewrite evicted_cons_drop by done. rewrite IH. simpl. rewrite lookup_delete.
    repeat case_decide; set_solver.
Qed.

Lemma evict_results l s id :
  completed_results (evict max_runs l s) !! id =
    if decide (id ∈ evicted l) then None else completed_results s !! id.
Proof.
  revert s. induction l as [|x l IH]; intros s.
  { rewrite evict_nil. rewrite decide_False; [done|]. unfold evicted. set_solver. }
  rewrite evict_cons. case_bool_decide as Hl.
  - rewrite evicted_cons_keep by done. rewrite decide_False; [done|set_solver].
  - rewrite evicted_cons_drop by done. rewrite IH. simpl. rewrite lookup_delete.
    repeat case_decide; set_solver.
Qed.

Lemma evict_snapshots l s id :
  od_get id (run_snapshots (evict max_runs l s)) =
    if decide (id ∈ evicted l) then None else od_get id (run_snapshots s).
Proof.
  revert s. induction l as [|x l IH]; intros s.
  { rewrite evict_nil. rewrite decide_False; [done|]. unfold evicted. set_solver. }
  rewrite evict_cons. case_bool_decide as Hl.
  - rewrite evicted_cons_keep by done. rewrite decide_False; [done|set_solver].
  - rewrite evicted_cons_drop by done. rewrite IH. simpl. rewrite od_get_pop.
    repeat case_decide; set_solver.
Qed.

Lemma evict_order l s : completed_order (evict max_runs l s) = drop (length l - max_runs) l.
Proof.
  revert s. induction l as [|x l IH]; intros s; [by rewrite evict_nil, drop_nil|].
  rewrite evict_cons. case_bool_decide as Hl.
  - simpl. by replace (S (length l) - max_runs) with 0 by (simpl in *; lia).
  - rewrite IH. simpl in *.
    by replace (S (length l) - max_runs) with (S (length l - max_runs)) by lia.
Qed.

(** A newly completed run survives the eviction it causes. *)
Lemma evicted_app_last l id : max_runs <> 0 -> id ∉ l -> id ∉ evicted (l ++ [id]).
Proof.
  intros Hm Hl Hin. unfold evicted in Hin. rewrite length_app in Hin. simpl in Hin.
  rewrite take_app_le in Hin by lia. apply Hl.
  rewrite <- (take_drop (length l + 1 - max_runs) l). apply elem_of_app. by left.
Qed.

(** ** The whole of [_store_terminal_result] *)

Lemma mark_terminal_frame r s :
  registers (mark_terminal utcnow r s) = registers s /\
  statuses (mark_terminal utcnow r s) = statuses s /\
  completed_results (mark_terminal utcnow r s) = completed_results s /\
  completed_order (mark_terminal utcnow r s) = completed_order s.
Proof. unfold mark_terminal. by destruct (od_get _ _). Qed.

Lemma mark_terminal_snapshots r s id :
  id <> rs_run_id r -> od_get id (run_snapshots (mark_terminal utcnow r s)) =
                       od_get id (run_snapshots s).
Proof.
  intros H. unfold mark_terminal. destruct (od_get (rs_run_id r) (run_snapshots s)); [|done].
  simpl. by rewrite od_get_set_ne.
Qed.

Lemma resolve_future_frame f r s :
  statuses (resolve_future f r s) = statuses s /\
  completed_results (resolve_future f r s) = completed_results s /\
  completed_order (resolve_future f r s) = completed_order s /\
  run_snapshots (resolve_future f r s) = run_snapshots s /\
  run_futures (resolve_future f r s) = run_futures s /\
  run_requests (resolve_future f r s) = run_requests s /\
  running_backends (resolve_future f r s) = running_backends s /\
  running_tasks (resolve_future f r s) = running_tasks s /\
  cancelled_run_ids (resolve_future f r s) = cancelled_run_ids s.
Proof.
  unfold resolve_future. destruct f as [f|]; [|done]. by destruct (futures s !! f) as [[]|].
Qed.

Local Abbreviation store := (store_terminal_result max_runs utcnow).

(** The state before the future is resolved. *)
Lemma store_unfold r s :
  exists s2,
    registers s2 = registers s /\
    (forall id, statuses s2 !! id =
       if decide (id ∈ evicted (completed_order s ++ [rs_run_id r])) then None
       else <[rs_run_id r := rs_status r]> (statuses s) !! id) /\
    (forall id, completed_results s2 !! id =
       if decide (id ∈ evicted (completed_order s ++ [rs_run_id r])) then None
       else <[rs_run_id r := r]> (completed_results s) !! id) /\
    completed_order s2 =
      drop (length (completed_order s ++ [rs_run_id r]) - max_runs)
        (completed_order s ++ [rs_run_id r]) /\
    store r s =
      with_run_requests (od_pop (rs_run_id r) (run_requests s))
        (resolve_future (run_futures s !! rs_run_id r) r
           (with_run_futures (delete (rs_run_id r) (run_futures s)) s2)).
Proof.
  set (s0 := with_completed_order (completed_order s ++ [rs_run_id r])
    (with_completed_results (<[rs_run_id r := r]> (completed_results s))
      (with_statuses (<[rs_run_id r := rs_status r]> (statuses s)) s))).
  destruct (mark_terminal_frame r s0) as (F1 & F2 & F3 & F4).
  set (s1 := mark_terminal utcnow r s0) in *.
  exists (evict max_runs (completed_order s1) s1).
  assert (R : registers (evict max_runs (completed_order s1) s1) = registers s)
    by (by rewrite evict_registers, F1).
  split; [done|]. split; [|split; [|split]].
  - intros id. by rewrite evict_statuses, F2, F4.
  - intros id. by rewrite evict_results, F3, F4.
  - by rewrite evict_order, F4.
  - unfold store_terminal_result. cbv zeta. cbn [completed_order completed_results statuses with_statuses with_completed_results].
    fold s0. fold s1.
    set (s2 := evict _ _ s1) in *. clearbody s2. injection R as R1 R2 R3 _ _ _ _ _ _.
    rewrite R1. f_equal. f_equal.
    unfold resolve_future. rewrite <- R3.
    destruct (run_futures s !! rs_run_id r) as [f|]; [|done]. simpl.
    by destruct (futures s2 !! f) as [[]|].
Qed.

Lemma store_status r s id :
  statuses (store r s) !! id =
    if decide (id ∈ evicted (completed_order s ++ [rs_run_id r])) then None
    else if decide (rs_run_id r = id) then Some (rs_status r) else statuses s !! id.
Proof.
  destruct (store_unfold r s) as (s2 & _ & H & _ & _ & ->). simpl.
  destruct (resolve_future_frame (run_futures s !! rs_run_id r) r
    (with_run_futures (delete (rs_run_id r) (run_futures s)) s2)) as (-> & _). simpl.
  rewrite H. case_decide; [done|]. by rewrite lookup_insert.
Qed.

Lemma store_result r s id :
  completed_results (store r s) !! id =
    if decide (id ∈ evicted (completed_order s ++ [rs_run_id r])) then None
    else if decide (rs_run_id r = id) then Some r else completed_results s !! id.
Proof.
  destruct (store_unfold r s) as (s2 & _ & _ & H & _ & ->). simpl.
  destruct (resolve_future_frame (run_futures s !! rs_run_id r) r
    (with_run_futures (delete (rs_run_id r) (run_futures s)) s2)) as (_ & -> & _). simpl.
  rewrite H. case_decide; [done|]. by rewrite lookup_insert.
Qed.

Lemma store_registers r s :
  run_futures (store r s) = delete (rs_run_id r) (run_futures s) /\
  run_requests (store r s) = od_pop (rs_run_id r) (run_requests s) /\
  running_backends (store r s) = running_backends s /\
  running_tasks (store r s) = running_tasks s /\
  cancelled_run_ids (store r s) = cancelled_run_ids s.
Proof.
  destruct (store_unfold r s) as (s2 & R & _ & _ & _ & ->). simpl.
  injection R as R1 R2 R3 R4 R5 R6 R7 R8 R9.
  destruct (resolve_future_frame (run_futures s !! rs_run_id r) r
    (with_run_futures (delete (rs_run_id r) (run_futures s)) s2))
    as (_ & _ & _ & _ & -> & _ & -> & -> & ->). by rewrite <- R4, <- R5, <- R7.
Qed.

Lemma store_futures r s f :
  futures (store r s) !! f =
    match run_futures s !! rs_run_id r, futures s !! f with
    | Some f', Some FPending => if decide (f' = f) then Some (FResult r) else Some FPending
    | _, x => x
    end.
Proof.
  destruct (store_unfold r s) as (s2 & R & _ & _ & _ & ->). simpl.
  injection R as _ R2 _ _ _ _ _ _ _. unfold resolve_future.
  destruct (run_futures s !! rs_run_id r) as [f'|]; [|simpl; rewrite R2; by repeat case_match].
  simpl. rewrite R2. destruct (futures s !! f') as [[]|] eqn:E; simpl; rewrite ?R2.
  - rewrite lookup_insert. case_decide; [subst; by rewrite E|]. by repeat case_match.
  - repeat case_match; simplify_eq; done.
  - repeat case_match; simplify_eq; done.
  - repeat case_match; simplify_eq; done.
Qed.

Lemma resolve_future_cancels f r s : backend_cancels (resolve_future f r s) = backend_cancels s.
Proof. unfold resolve_future. destruct f as [f|]; [|done]. by destruct (futures s !! f) as [[]|]. Qed.

Lemma store_backend_cancels r s : backend_cancels (store r s) = backend_cancels s.
Proof.
  destruct (store_unfold r s) as (s2 & R & _ & _ & _ & ->). simpl.
  rewrite resolve_future_cancels. by injection R.
Qed.

Lemma store_order r s id :
  id ∈ completed_order (store r s) -> id ∈ completed_order s \/ id = rs_run_id r.
Proof.
  destruct (store_unfold r s) as (s2 & _ & _ & _ & H & ->). simpl.
  destruct (resolve_future_frame (run_futures s !! rs_run_id r) r
    (with_run_futures (delete (rs_run_id r) (run_futures s)) s2)) as (_ & _ & -> & _). simpl.
  rewrite H. intros Hin. assert (id ∈ completed_order s ++ [rs_run_id r]) as Hin'.
  { rewrite <- (take_drop (length (completed_order s ++ [rs_run_id r]) - max_runs)).
    apply elem_of_app. by right. }
  set_solver.
Qed.
End store.
