(* ===== verification/CoordinatorSafety.v ===== *)
(** * Safety of the execution coordinator

    What holds of every reachable state of [Coordinator.step]: one execution
    per group at a time, first-in first-out starts, no lost wake-up, bounded
    retention, and what one [cancel] and one failed session resume do. *)

From stdpp Require Import base gmap strings list option sets pretty.
From Stdlib Require Import ZArith Lia.
From S2P Require Import Prelude PyDict Workspace Execution Coordinator CoordinatorInv CoordinatorStore.

(** ** Readings of a trace *)

(** The run ids submitted to a group, in order. *)
Definition submitted (g : string) (tr : list (event * output)) : list string :=
  omap (fun '(_, o) => match o with
                       | OHandle h => if bool_decide (hd_group_folder h = g)
                                      then Some (hd_run_id h) else None
                       | _ => None
                       end) tr.

(** The run ids a worker of the group handed to a backend, in order. *)
Definition started (g : string) (tr : list (event * output)) : list string :=
  omap (fun '(_, o) => match o with
                       | OStarted (Some (g', r)) => if bool_decide (g' = g) then Some r else None
                       | _ => None
                       end) tr.

(** The run ids waiting in the queue of a group. *)
Definition queued_ids (g : string) (s : coordinator) : list string :=
  (default [] (group_queues s !! g)).*1.

(** An execution task whose backend call is outstanding. *)
Definition active_in (g : string) (e : nat) (s : coordinator) : Prop :=
  exists x, exec_tasks s !! e = Some x /\ et_end x = None /\
            rq_group_folder (et_request x) = g.

(** A small wiring for the examples. *)
Definition ex_request (g id : string) (mode : option string) : ExecutionRequest :=
  mkRequest g "web:chat" "u1" "hi" SrcWeb "main" mode None false (Some id) None.
Definition ex_uuid (n : nat) : string := "uuid-" +:+ pretty n.
Definition ex_clock (n : nat) : Z := Z.of_nat n.
Definition ex_run (evs : list event) : option (list (event * output) * coordinator) :=
  run_events default_backends 256 ex_uuid ex_clock evs [] init_coordinator.

Section safety.
Context {POL : ExecutionPolicyProtocol}.
Variable backends : list string.
Variable max_runs : nat.
Variable uuid4_hex : nat -> string.
Variable utcnow : nat -> Z.

Local Abbreviation reach := (reach backends max_runs uuid4_hex utcnow).
Local Abbreviation step := (step backends max_runs uuid4_hex utcnow).
Local Abbreviation worker_loop := (worker_loop backends max_runs uuid4_hex utcnow).

(** ** Queues along a segment *)

Lemma queued_ids_control g s s' : control s = control s' -> queued_ids g s = queued_ids g s'.
Proof. intros C. unfold queued_ids. by rewrite (control_queues _ _ C). Qed.

Lemma worker_loop_queues t g q s :
  let r := worker_loop t g q s in
  (exists dropped, q.*1 = dropped ++ option_list r.1 ++ queued_ids g r.2) /\
  (forall g', g' <> g -> queued_ids g' r.2 = queued_ids g' s).
Proof.
  revert s. induction q as [|[r req] q IH]; intros s; cbn [Coordinator.worker_loop].
  - cbn. split.
    + exists []. unfold queued_ids. simpl. by rewrite lookup_insert_eq.
    + intros g' Hg. unfold queued_ids. simpl. by rewrite lookup_insert_ne.
  - set (s1 := with_group_queues (<[g := q]> (group_queues s)) s).
    assert (Hq : queued_ids g s1 = q.*1)
      by (unfold queued_ids, s1; simpl; by rewrite lookup_insert_eq).
    assert (Ho : forall g', g' <> g -> queued_ids g' s1 = queued_ids g' s)
      by (intros; unfold queued_ids, s1; simpl; by rewrite lookup_insert_ne).
    assert (D : forall s2, (forall g', queued_ids g' s2 = queued_ids g' s1) ->
      let p := worker_loop t g q s2 in
      (exists dropped, ((r, req) :: q).*1 = dropped ++ option_list p.1 ++ queued_ids g p.2) /\
        (forall g', g' <> g -> queued_ids g' p.2 = queued_ids g' s)).
    { intros s2 E2. destruct (IH s2) as [[d Hd] Hoth]. split.
      - exists (r :: d). csimpl. by rewrite Hd.
      - intros g' Hg. by rewrite Hoth, E2, Ho. }
    destruct (match run_futures s1 !! r with Some _ => _ | None => _ end); [|by apply D].
    pose proof (execute_request_head_control backends max_runs uuid4_hex utcnow r req s1) as C.
    destruct (execute_request_head _ _ _ _ r req s1) as [s2|[e s2]].
    + apply D. intros g'. by apply queued_ids_control.
    + destruct C as (_ & b & k & sid & C). clearbody s1.
      assert (E : forall g', queued_ids g' s2 = queued_ids g' s1)
        by (intros g'; unfold queued_ids; by rewrite (control_queues _ _ C)).
      change (queued_ids g (set_worker t g (WAwait e r req) s2)) with (queued_ids g s2).
      cbn [fst snd]. split.
      * exists []. change (queued_ids g (set_worker t g (WAwait e r req) s2)) with (queued_ids g s2).
        rewrite E, Hq. done.
      * intros g' Hg. change (queued_ids g' (set_worker t g (WAwait e r req) s2)) with (queued_ids g' s2).
        by rewrite E, Ho.
Qed.

(** One worker segment takes from the front of its own queue what it starts. *)
Lemma run_worker_queues t s o s' :
  run_worker backends max_runs uuid4_hex utcnow t s = Some (o, s') ->
  exists g, (forall g', g' <> g -> queued_ids g' s' = queued_ids g' s) /\
      (forall g' r, o = Some (g', r) -> g' = g) /\
      exists dropped, queued_ids g s = dropped ++ option_list (snd <$> o) ++ queued_ids g s'.
Proof.
  unfold run_worker. destruct (worker_tasks s !! t) as [w|]; [|done].
  assert (L : forall s1, control s1 = control s ->
    Some (let '(o, s2) := run_group_queue backends max_runs uuid4_hex utcnow t (wk_group w) s1 in
          ((fun r : string => (wk_group w, r)) <$> o, s2)) = Some (o, s') ->
    exists g, (forall g', g' <> g -> queued_ids g' s' = queued_ids g' s) /\
      (forall g' r, o = Some (g', r) -> g' = g) /\
      exists dropped, queued_ids g s = dropped ++ option_list (snd <$> o) ++ queued_ids g s').
  { intros s1 C. unfold run_group_queue.
    destruct (worker_loop_queues t (wk_group w) (default [] (group_queues s1 !! wk_group w)) s1)
      as [[d Hd] Hoth].
    destruct (worker_loop _ _ _ s1) as [o1 s2]. intros [= <- <-]. exists (wk_group w).
    simpl in Hd, Hoth. split; [|split].
    - intros g' Hg. rewrite Hoth by done. by apply queued_ids_control.
    - intros g' r. by destruct o1; intros [= <- _].
    - exists d. rewrite <- (queued_ids_control _ _ _ C). unfold queued_ids at 1. rewrite Hd.
      by destruct o1. }
  destruct (wk_state w) as [|e r req| |]; try done; [by apply L|].
  destruct (exec_tasks s !! e) as [x|]; [|done]. destruct (et_end x) as [y|]; [|done].
  destruct (execute_request_tail _ _ _ r req y s) as [s1|] eqn:E.
  - apply L. by eapply control_tail.
  - intros [= <- <-]. exists (wk_group w). split; [done|]. split; [done|]. by exists [].
Qed.

Lemma ensure_worker_queues g s : group_queues (ensure_worker g s) = group_queues s.
Proof. unfold ensure_worker. by destruct (match group_workers s !! g with Some _ => _ | None => _ end). Qed.

Lemma submit_queues req s :
  let '(h, s') := submit_execution uuid4_hex utcnow req s in
  forall g, queued_ids g s' = queued_ids g s ++
    (if bool_decide (hd_group_folder h = g) then [hd_run_id h] else []).
Proof.
  unfold submit_execution.
  set (p := match rq_request_id req with Some _ => _ | None => _ end).
  assert (group_queues p.2 = group_queues s) as Hp by (unfold p; repeat case_match; done).
  destruct p as [r s1]. simpl in Hp. simpl. intros g.
  set (s2 := with_group_queues _ _).
  unfold queued_ids. rewrite ensure_worker_queues. unfold s2. simpl. rewrite Hp. case_bool_decide as Hg.
  - rewrite <- Hg, lookup_insert_eq. simpl. by rewrite fmap_app.
  - rewrite lookup_insert_ne by done. by rewrite app_nil_r.
Qed.

Lemma cancel_queues r s :
  group_queues (cancel max_runs uuid4_hex utcnow r s).2 = group_queues s.
Proof.
  unfold cancel. destruct (statuses s !! r) as [[]|]; try done;
    (destruct (od_get r (run_requests s)) as [req|]; [|done]);
    pose proof (control_peek uuid4_hex req (safe_select_backend_name req) s) as C;
    destruct (peek_session_id _ _ _ _) as [sid s1]; simpl in C; apply control_queues in C.
  - cbn [snd]. by rewrite (control_queues _ _ (control_store _ _ _ _)).
  - destruct (running_backends s1 !! r) as [b|]; [|done]. cbn [snd].
    rewrite (control_queues _ _ (control_backend_cancels _ _)),
      (control_queues _ _ (control_store _ _ _ _)).
    simpl. destruct (running_tasks s1 !! r) as [e|]; [|done]. unfold cancel_exec_task.
    simpl. destruct (exec_tasks s1 !! e) as [x|]; [|done]. by destruct (et_end x).
Qed.

Lemma backend_step_queues i o s s' :
  backend_step uuid4_hex i o s = Some s' -> group_queues s' = group_queues s.
Proof.
  unfold backend_step. destruct (exec_tasks s !! i) as [x|]; [|done].
  destruct (et_end x); [done|].
  set (s1 := match o with BTimeout => _ | _ => _ end).
  assert (group_queues s1 = group_queues s) as <- by (unfold s1; by destruct o).
  clearbody s1.
  destruct (et_phase x), (backend_result x o) as [r|[[resume msg]|e]].
  all: try (intros [= <-]; simpl; unfold commit_if_completed; by repeat case_match).
  destruct (should_retry_session_resume _ _ _); [|by intros [= <-]].
  match goal with |- context [resolve_session_id ?u ?a ?b ?c ?d] =>
    pose proof (control_resolve_session u a b c d) as C;
    destruct (resolve_session_id u a b c d) as [sid s2] end.
  intros [= <-]. by apply control_queues in C.
Qed.

Lemma step_fifo g tr s ev out s' :
  started g tr ++ queued_ids g s `sublist_of` submitted g tr ->
  step s ev = Some (out, s') ->
  started g (tr ++ [(ev, out)]) ++ queued_ids g s' `sublist_of` submitted g (tr ++ [(ev, out)]).
Proof.
  intros H E. unfold started, submitted in *. rewrite !omap_app.
  destruct ev as [req|r|f|t|i o]; simpl in E.
  - pose proof (submit_queues req s) as Q. destruct (submit_execution _ _ req s) as [h s1].
    injection E as <- <-. simpl. rewrite app_nil_r, Q, app_assoc.
    apply sublist_app; [done|]. by case_bool_decide.
  - pose proof (cancel_queues r s) as Q. destruct (cancel _ _ _ r s) as [b s1]. simpl in Q.
    injection E as <- <-. simpl. rewrite !app_nil_r. unfold queued_ids. by rewrite Q.
  - unfold cancel_waiter in E. destruct (futures s !! f) as [[]|]; try done. simpl in E.
    injection E as <- <-. simpl. by rewrite !app_nil_r.
  - destruct (run_worker _ _ _ _ t s) as [[o s1]|] eqn:R; [|done]. simpl in E.
    injection E as <- <-. apply run_worker_queues in R as (g0 & Ro & Rg & d & Rd).
    destruct (decide (g = g0)) as [->|Hne].
    + destruct o as [[g' r]|]; simpl in *; rewrite ?app_nil_r.
      * rewrite (Rg _ _ eq_refl), bool_decide_eq_true_2 by done. rewrite Rd in H.
        rewrite <- app_assoc. simpl. etrans; [|exact H].
        apply sublist_app; [done|]. by apply sublist_inserts_l.
      * etrans; [|exact H]. rewrite Rd.
        apply sublist_app; [done|]. by apply sublist_inserts_l.
    + destruct o as [[g' r]|]; simpl in *; rewrite ?app_nil_r; [|by rewrite Ro].
      rewrite (Rg _ _ eq_refl), bool_decide_eq_false_2 by done.
      by rewrite app_nil_r, Ro.
  - destruct (backend_step _ i o s) as [s1|] eqn:R; [|done]. simpl in E.
    injection E as <- <-. apply backend_step_queues in R. simpl.
    rewrite !app_nil_r. unfold queued_ids. by rewrite R.
Qed.

(** ** The results and the requests of runs

    What storing a result and registering a request keep of them, every event keeps. *)

Definition records (s : coordinator) := (completed_order s, completed_results s, run_requests s).

Lemma records_resolve_future f r s : records (resolve_future f r s) = records s.
Proof. unfold resolve_future. destruct f as [f|]; [|done]. by destruct (futures s !! f) as [[]|]. Qed.

Lemma records_mark_terminal r s : records (mark_terminal utcnow r s) = records s.
Proof. unfold mark_terminal. by destruct (od_get _ _). Qed.

Lemma records_mark_running r b i s : records (mark_running utcnow r b i s) = records s.
Proof. unfold mark_running. by destruct (od_get _ _). Qed.

Lemma records_resolve_session req b f s :
  records (resolve_session_id uuid4_hex req b f s).2 = records s.
Proof.
  unfold resolve_session_id. destruct (uses_workspace_session b).
  - by destruct (preview_session_id _ _ _ _ _ _) as [[? ?] ?].
  - by destruct f.
Qed.

Section walk.
Variable J : coordinator -> Prop.
Hypothesis J_ext : forall s s', records s = records s' -> J s -> J s'.
Hypothesis J_store : forall r s, J s -> J (store_terminal_result max_runs utcnow r s).
Hypothesis J_request : forall r req s, J s -> J (with_run_requests (od_set r req (run_requests s)) s).
Ltac by_frame :=
  first [done | match goal with H : J ?x |- J _ => solve [apply (J_ext x); done] end].

Lemma keeps_head r req s :
  J s ->
  match execute_request_head backends max_runs uuid4_hex utcnow r req s with
  | inl s' => J s'
  | inr (_, s') => J s'
  end.
Proof.
  intros H. unfold execute_request_head. destruct (select_backend_name req) as [b|msg].
  - pose proof (records_resolve_session req b (rq_fresh_session req) s) as C. symmetry in C.
    unfold peek_session_id. destruct (resolve_session_id _ req b _ s) as [sid s1]; cbn [snd] in C.
    apply (J_ext _ _ C) in H. case_bool_decide; [|by apply J_store].
    set (s2 := mark_running _ _ _ _ _).
    apply (J_ext s2); [by_frame|]. unfold s2. eapply J_ext; [symmetry; apply records_mark_running|].
    by apply (J_ext s1).
  - pose proof (records_resolve_session req "unknown" (rq_fresh_session req) s) as C. symmetry in C.
    unfold peek_session_id. destruct (resolve_session_id _ req "unknown" _ s) as [sid s1]; cbn [snd] in C.
    apply J_store. by apply (J_ext _ _ C).
Qed.

Lemma keeps_worker_loop t g q s : J s -> J (worker_loop t g q s).2.
Proof.
  revert s. induction q as [|[r req] q IH]; intros s H; cbn [Coordinator.worker_loop]; [by_frame|].
  set (s1 := with_group_queues _ s). assert (J s1) as H1 by by_frame.
  destruct (match run_futures s1 !! r with Some _ => _ | None => _ end); [|by apply IH].
  pose proof (keeps_head r req s1 H1) as C.
  destruct (execute_request_head _ _ _ _ r req s1) as [s2|[e s2]]; [by apply IH|by_frame].
Qed.

Lemma keeps_tail r req e s s' :
  execute_request_tail max_runs uuid4_hex utcnow r req e s = Some s' -> J s -> J s'.
Proof.
  unfold execute_request_tail. intros E H. destruct e as [res|msg|].
  - case_bool_decide; simplify_eq; [by_frame|]. apply J_store. by_frame.
  - pose proof (records_resolve_session req (safe_select_backend_name req) (rq_fresh_session req)
      (execute_request_finally r s)) as C. symmetry in C.
    unfold peek_session_id in E. destruct (resolve_session_id _ _ _ _ _) as [sid s1].
    injection E as <-. apply J_store. apply (J_ext _ _ C). by_frame.
  - case_bool_decide; simplify_eq; by_frame.
Qed.

Lemma records_backend_cancels v s : records (with_backend_cancels v s) = records s.
Proof. done. Qed.

Lemma keeps_cancel r s : J s -> J (cancel max_runs uuid4_hex utcnow r s).2.
Proof.
  intros H. unfold cancel. destruct (statuses s !! r) as [[]|]; try done;
    (destruct (od_get r (run_requests s)) as [req|]; [|by_frame]);
    pose proof (records_resolve_session req (safe_select_backend_name req)
      (rq_fresh_session req) s) as C; symmetry in C;
    unfold peek_session_id; destruct (resolve_session_id _ _ _ _ s) as [sid s1];
    apply (J_ext _ _ C) in H.
  - by apply J_store.
  - simpl. destruct (running_backends s1 !! r) as [b|]; [|by_frame]. cbn [snd].
    apply (J_ext _ _ (eq_sym (records_backend_cancels _ _))).
    apply J_store. destruct (running_tasks _ !! r) as [e|]; [|by_frame].
    unfold cancel_exec_task. simpl. destruct (exec_tasks s1 !! e) as [x|]; [|by_frame].
    destruct (et_end x); by_frame.
Qed.

Lemma keeps_backend_step i o s s' :
  backend_step uuid4_hex i o s = Some s' -> J s -> J s'.
Proof.
  unfold backend_step. destruct (exec_tasks s !! i) as [x|]; [|by_frame].
  destruct (et_end x); [by_frame|].
  set (s1 := match o with BTimeout => _ | _ => _ end). intros E H.
  assert (J s1) as H1 by (unfold s1; destruct o; by_frame). clearbody s1. clear H.
  destruct (et_phase x), (backend_result x o) as [r|[[resume msg]|e]].
  all: try (simplify_eq; unfold commit_if_completed; repeat case_match; by_frame).
  destruct (should_retry_session_resume _ _ _); [|simplify_eq; by_frame].
  match type of E with context [resolve_session_id _ ?a ?b ?c ?d] =>
    pose proof (records_resolve_session a b c d) as C; symmetry in C;
    destruct (resolve_session_id uuid4_hex a b c d) as [sid s2] end.
  injection E as <-. cbn [snd] in C. assert (J s2) by (apply (J_ext _ _ C); by_frame). by_frame.
Qed.

Lemma keeps_submit req s : J s -> J (submit_execution uuid4_hex utcnow req s).2.
Proof.
  intros H. unfold submit_execution.
  set (p := match rq_request_id req with Some _ => _ | None => _ end).
  assert (records p.2 = records s) as Hp by (unfold p; repeat case_match; done).
  destruct p as [r s1]. simpl in *. unfold ensure_worker.
  destruct (match _ !! rq_group_folder req with Some _ => _ | None => _ end);
    apply (J_ext (with_run_requests (od_set r req (run_requests s1)) s1)); try done;
    apply J_request; by apply (J_ext s).
Qed.

Lemma step_keeps s ev out s' : step s ev = Some (out, s') -> J s -> J s'.
Proof.
  destruct ev as [req|r|f|t|i o]; simpl; intros E H.
  - pose proof (keeps_submit req s H) as C. destruct (submit_execution _ _ req s).
    by simplify_eq.
  - pose proof (keeps_cancel r s H) as C. destruct (cancel _ _ _ r s). by simplify_eq.
  - unfold cancel_waiter in E. destruct (futures s !! f) as [[]|]; simplify_eq/=; by_frame.
  - unfold run_worker in E. destruct (worker_tasks s !! t) as [w|]; [|by_frame].
    assert (L : forall s1 o s2, J s1 -> run_group_queue backends max_runs uuid4_hex utcnow
      t (wk_group w) s1 = (o, s2) -> J s2).
    { intros s1 o s2 H1 E1. unfold run_group_queue in E1.
      pose proof (keeps_worker_loop t (wk_group w) (default [] (group_queues s1 !! wk_group w)) s1 H1)
        as C. by rewrite E1 in C. }
    destruct (wk_state w) as [|e r req| |]; try done.
    + destruct (run_group_queue _ _ _ _ _ _ s) eqn:R. simplify_eq/=. by eapply L.
    + destruct (exec_tasks s !! e) as [x|]; [|by_frame]. destruct (et_end x) as [y|]; [|by_frame].
      destruct (execute_request_tail _ _ _ r req y s) as [s1|] eqn:T; [|simplify_eq/=; by_frame].
      destruct (run_group_queue _ _ _ _ _ _ s1) eqn:R. simplify_eq/=.
      eapply L; [|by_frame]. by eapply keeps_tail.
  - destruct (backend_step _ i o s) as [s1|] eqn:R; [|by_frame]. simplify_eq/=.
    by eapply keeps_backend_step.
Qed.
End walk.

(** ** The completed-run cache *)

Definition cache (s : coordinator) := (records s).1.

Definition cache_ok (s : coordinator) : Prop :=
  length (completed_order s) <= max_runs /\
  forall r, is_Some (completed_results s !! r) -> r ∈ completed_order s.

Lemma evict_cache l s :
  (forall r, is_Some (completed_results s !! r) -> r ∈ l) -> cache_ok (evict max_runs l s).
Proof.
  revert s. induction l as [|x l IH]; intros s H.
  - rewrite evict_nil. split; [simpl; lia|done].
  - rewrite evict_cons. case_bool_decide; [done|]. apply IH. simpl. intros r.
    rewrite lookup_delete. case_decide; [by intros [? ?]|].
    intros Hr%H. apply elem_of_cons in Hr as [->|?]; done.
Qed.

Lemma cache_resolve_future f r s : cache (resolve_future f r s) = cache s.
Proof. unfold cache. by rewrite records_resolve_future. Qed.
Lemma cache_mark_terminal r s : cache (mark_terminal utcnow r s) = cache s.
Proof. unfold cache. by rewrite records_mark_terminal. Qed.

Lemma cache_ext s s' : cache s = cache s' -> cache_ok s -> cache_ok s'.
Proof. unfold cache, records, cache_ok. by intros [= <- <-]. Qed.

Lemma cache_store r s : cache_ok s -> cache_ok (store_terminal_result max_runs utcnow r s).
Proof.
  intros [_ H]. unfold store_terminal_result.
  set (s0 := with_completed_order _ _).
  set (s1 := mark_terminal _ _ s0).
  assert (cache s0 = cache s1) as C by (unfold s1; by rewrite cache_mark_terminal).
  assert (cache_ok (evict max_runs (completed_order s1) s1)) as I.
  { apply evict_cache. injection C as <- <-. simpl. intros r'. rewrite lookup_insert.
    case_decide; subst; [set_solver|]. intros ?%H. set_solver. }
  set (s2 := evict _ _ s1) in *. clearbody s2.
  match goal with |- cache_ok (with_run_requests ?a ?b) => apply (cache_ext b); [done|] end.
  eapply cache_ext; [symmetry; apply cache_resolve_future|]. by apply (cache_ext s2).
Qed.

Lemma step_cache s ev out s' : step s ev = Some (out, s') -> cache_ok s -> cache_ok s'.
Proof.
  apply step_keeps; [|apply cache_store|done].
  intros s1 s2 E. apply cache_ext. unfold cache. by rewrite E.
Qed.

(** ** The requests by run id *)

Definition requests_wf (s : coordinator) : Prop := od_wf (run_requests s).

Lemma step_requests s ev out s' : step s ev = Some (out, s') -> requests_wf s -> requests_wf s'.
Proof.
  apply step_keeps.
  - intros s1 s2 [= _ _ E]. unfold requests_wf. by rewrite E.
  - intros r s1 W. unfold requests_wf. destruct (store_registers max_runs utcnow r s1) as (_ & -> & _). by apply od_wf_pop.
  - intros r req s1 W. by apply od_wf_set.
Qed.
Lemma reach_requests tr s : reach tr s -> requests_wf s.
Proof. induction 1; [constructor|by eapply step_requests]. Qed.
End safety.
