(* ===== verification/CoordinatorLife.v ===== *)
(** * The life of a run in the coordinator

    The data invariant [life_inv] of runs in a sensible environment: callers
    submit fresh run ids and nobody cancels a task that waits for a run, and
    the backends return what their protocol says (a terminal status, their own
    run id, a [CancelledError] only after a cancellation). [cur] is the worker
    that is running its loop (its suspension point is history), [skip] the run
    it has in hand; between events both are [None]. *)

From stdpp Require Import base gmap strings list option sets.
From Stdlib Require Import ZArith Lia.
From S2P Require Import Prelude PyDict Workspace Execution Coordinator CoordinatorInv.
From S2P Require Import CoordinatorStore CoordinatorSafety.

Definition nonterm (o : option ExecutionStatus) : Prop :=
  o = Some StQueued \/ o = Some StRunning.

(** How the status of a run may evolve by anything but its submission. *)
Definition advance (a b : option ExecutionStatus) : Prop :=
  match a with
  | None => b = None
  | Some StQueued => True
  | Some StRunning => b <> Some StQueued
  | Some st => b = Some st \/ b = None
  end.

(** The run ids submitted so far. *)
Definition used (tr : list (event * output)) : list string :=
  omap (fun '(_, o) => match o with OHandle h => Some (hd_run_id h) | _ => None end) tr.

Definition sensible_outcome (x : exec_task) (o : outcome) : Prop :=
  match o with
  | BRaw raw => terminal (default StCompleted (raw_status raw)) = true
  | BResult r => rs_run_id r = et_run_id x /\ terminal (rs_status r) = true
  | BMalformed _ => False
  | BCancelled => et_cancel_requested x = true
  | _ => True
  end.

Definition sensible (tr : list (event * output)) (s : coordinator) (ev : event) (out : output) :
    Prop :=
  match ev, out with
  | Submit _, OHandle h => hd_run_id h ∉ used tr
  | WaiterCancelled _, _ => False
  | BackendStep i o, _ => forall x, exec_tasks s !! i = Some x -> sensible_outcome x o
  | _, _ => True
  end.

Definition awaits (s : coordinator) (cur : option nat) (t e : nat) (id : string)
    (req : ExecutionRequest) : Prop :=
  cur <> Some t /\ exists g, worker_tasks s !! t = Some (mkWorker g (WAwait e id req)).

Definition good_end (x : exec_task) (en : task_end) : Prop :=
  match en with
  | TReturned r => rs_run_id r = et_run_id x /\ terminal (rs_status r) = true
  | TRaised _ => False
  | TCancelled => et_cancel_requested x = true
  end.

Record life_inv (ids : list string) (cur : option nat) (skip : option string)
    (s : coordinator) : Prop := {
  lf_bound : forall id, id ∉ ids ->
    statuses s !! id = None /\ run_futures s !! id = None /\ (id ∉ completed_order s) /\
    (id ∉ cancelled_run_ids s) /\ (forall g, id ∉ queued_ids g s) /\
    (forall e x, exec_tasks s !! e = Some x -> et_run_id x <> id);
  lf_fut_pending : forall id f, run_futures s !! id = Some f ->
    f < next_id s /\ futures s !! f = Some FPending;
  lf_fut_inj : forall id1 id2 f, run_futures s !! id1 = Some f ->
    run_futures s !! id2 = Some f -> id1 = id2;
  lf_fut : forall id, is_Some (run_futures s !! id) <-> nonterm (statuses s !! id);
  lf_no_orphan : forall f, futures s !! f = Some FPending ->
    exists id, run_futures s !! id = Some f;
  lf_queue_nodup : forall g, NoDup (queued_ids g s);
  lf_queue_one : forall g g' id, id ∈ queued_ids g s -> id ∈ queued_ids g' s -> g = g';
  lf_queue_exec : forall g id e x, id ∈ queued_ids g s -> exec_tasks s !! e = Some x ->
    et_run_id x <> id;
  lf_exec_one : forall e e' x x', exec_tasks s !! e = Some x -> exec_tasks s !! e' = Some x' ->
    et_run_id x = et_run_id x' -> e = e';
  lf_queued : forall id, skip <> Some id -> statuses s !! id = Some StQueued ->
    exists req, (id, req) ∈ default [] (group_queues s !! rq_group_folder req) /\
                od_get id (run_requests s) = Some req;
  lf_running : forall id, skip <> Some id -> statuses s !! id = Some StRunning ->
    exists t e req, awaits s cur t e id req /\ (id ∉ cancelled_run_ids s) /\
      is_Some (running_backends s !! id) /\ od_get id (run_requests s) = Some req;
  lf_running_exec : forall id, statuses s !! id = Some StRunning ->
    exists e x, exec_tasks s !! e = Some x /\ et_run_id x = id;
  lf_await : forall t e id req, awaits s cur t e id req ->
    id ∈ cancelled_run_ids s \/ statuses s !! id = Some StRunning;
  lf_end : forall e x en, exec_tasks s !! e = Some x -> et_end x = Some en -> good_end x en;
  lf_cancel : forall t e id req x, awaits s cur t e id req -> exec_tasks s !! e = Some x ->
    et_cancel_requested x = true -> id ∈ cancelled_run_ids s;
  lf_done : forall id, id ∈ completed_order s -> ~ nonterm (statuses s !! id);
  lf_cancelled : forall id, skip <> Some id -> id ∈ cancelled_run_ids s ->
    ~ nonterm (statuses s !! id);
  lf_alive : forall t w, worker_tasks s !! t = Some w -> wk_state w <> WCrashed;
  lf_task : forall id e, running_tasks s !! id = Some e ->
    exists x, exec_tasks s !! e = Some x /\ et_run_id x = id
}.

(** Open an invariant under fixed names. *)
Ltac open_life L :=
  destruct L as [lf_bound0 lf_fut_pending0 lf_fut_inj0 lf_fut0 lf_no_orphan0
    lf_queue_nodup0 lf_queue_one0 lf_queue_exec0 lf_exec_one0 lf_queued0
    lf_running0 lf_running_exec0 lf_await0 lf_end0 lf_cancel0
    lf_done0 lf_cancelled0 lf_alive0 lf_task0].

(** The part of the state [life_inv] speaks of. *)
Definition life (s : coordinator) :=
  (group_queues s, worker_tasks s, run_futures s, futures s, run_requests s, statuses s,
   running_backends s, running_tasks s, exec_tasks s, cancelled_run_ids s, completed_order s,
   next_id s).

Lemma life_inv_ext ids cur skip s s' :
  life s = life s' -> life_inv ids cur skip s -> life_inv ids cur skip s'.
Proof.
  unfold life. intros [= E1 E2 E3 E4 E5 E6 E7 E8 E9 E10 E11 E12] [].
  split; unfold awaits, queued_ids in *;
    rewrite <- ?E1, <- ?E2, <- ?E3, <- ?E4, <- ?E5, <- ?E6, <- ?E7, <- ?E8, <- ?E9, <- ?E10,
      <- ?E11, <- ?E12; assumption.
Qed.

Lemma life_inv_init : life_inv [] None None init_coordinator.
Proof.
  split; simpl; unfold awaits, queued_ids, nonterm; simpl; intros *; rewrite ?lookup_empty; simpl;
    try done; try set_solver; try (by intros [_ [? ?]]); try constructor.
Qed.

Lemma nonterm_terminal st : terminal st = true -> ~ nonterm (Some st).
Proof. by destruct st; intros H [?|?]. Qed.

Lemma nonterm_None : ~ nonterm None.
Proof. by intros [?|?]. Qed.

Lemma nonterm_dec o : nonterm o \/ ~ nonterm o.
Proof. destruct o as [[]|]; unfold nonterm; naive_solver. Qed.

Lemma advance_refl a : advance a a.
Proof. destruct a as [[]|]; simpl; auto. Qed.

Lemma advance_trans a b c : advance a b -> advance b c -> advance a c.
Proof.
  destruct a as [[]|], b as [[]|]; simpl; intros H1 H2; try done; try naive_solver.
Qed.

Lemma advance_None a : advance a None.
Proof. destruct a as [[]|]; simpl; auto. Qed.

#[export] Hint Resolve advance_refl advance_None nonterm_None : portex.

Section life.
Context {POL : ExecutionPolicyProtocol}.
Variable backends : list string.
Variable max_runs : nat.
Variable uuid4_hex : nat -> string.
Variable utcnow : nat -> Z.

Local Abbreviation store := (store_terminal_result max_runs utcnow).

(** ** Storing the result of the run in hand *)

Lemma store_control_eqs r s :
  group_queues (store r s) = group_queues s /\ worker_tasks (store r s) = worker_tasks s /\
  exec_tasks (store r s) = exec_tasks s /\ next_id (store r s) = next_id s.
Proof. pose proof (control_store max_runs utcnow r s) as [= E1 E2 E3 E4 E5]. auto. Qed.

Lemma store_queued_ids r s g : queued_ids g (store r s) = queued_ids g s.
Proof. symmetry. apply queued_ids_control. by rewrite control_store. Qed.

Lemma evicted_elem l id x : id ∈ evicted max_runs (l ++ [x]) -> id ∈ l \/ id = x.
Proof.
  intros D. assert (id ∈ l ++ [x]) as Hin; [|set_solver].
  unfold evicted in D. rewrite <- (take_drop (length (l ++ [x]) - max_runs)).
  apply elem_of_app. by left.
Qed.

Lemma store_nonterm ids cur skip s r :
  life_inv ids cur skip s -> terminal (rs_status r) = true ->
  forall id st, terminal st = false ->
    (statuses (store r s) !! id = Some st <-> id <> rs_run_id r /\ statuses s !! id = Some st).
Proof.
  intros L T id st Hst. rewrite store_status.
  destruct (decide (id ∈ _)) as [D|D]; [|case_decide; subst; [|naive_solver]].
  - split; [done|]. intros [Hne H]. exfalso.
    apply evicted_elem in D as [D| ->]; [|done].
    eapply (lf_done _ _ _ _ L); [done|]. rewrite H. unfold nonterm. destruct st; naive_solver.
  - split; [|naive_solver]. intros [= <-]. congruence.
Qed.

Lemma store_nonterm_iff ids cur skip s r :
  life_inv ids cur skip s -> terminal (rs_status r) = true ->
  forall id, nonterm (statuses (store r s) !! id) <-> id <> rs_run_id r /\ nonterm (statuses s !! id).
Proof.
  intros L T id. unfold nonterm.
  rewrite (store_nonterm _ _ _ _ _ L T id StQueued eq_refl),
    (store_nonterm _ _ _ _ _ L T id StRunning eq_refl). naive_solver.
Qed.

Lemma life_store ids cur skip s r :
  life_inv ids cur skip s -> rs_run_id r ∈ ids -> terminal (rs_status r) = true ->
  (skip = None \/ skip = Some (rs_run_id r)) ->
  (forall t e req, awaits s cur t e (rs_run_id r) req -> rs_run_id r ∈ cancelled_run_ids s) ->
  life_inv ids cur None (store r s).
Proof.
  intros L Hin T Hskip Haw.
  pose proof (store_nonterm _ _ _ _ _ L T) as N1. pose proof (store_nonterm_iff _ _ _ _ _ L T) as N2.
  destruct (store_control_eqs r s) as (E1 & E2 & E3 & E4).
  destruct (store_registers max_runs utcnow r s) as (F1 & F2 & F3 & F4 & F5).
  assert (A : forall t e id req, awaits (store r s) cur t e id req <-> awaits s cur t e id req)
    by (intros; unfold awaits; by rewrite E2).
  assert (SK : forall id, id <> rs_run_id r -> skip <> Some id) by (destruct Hskip; naive_solver).
  open_life L. split; intros *; rewrite ?E3, ?F1, ?F5, ?store_queued_ids; try assumption.
  - intros Hid. destruct (lf_bound0 id Hid) as (B1 & B2 & B3 & B4 & B5 & B6).
    rewrite store_status. split; [|split; [|split; [|split; [done|split; [|done]]]]].
    + rewrite decide_False by (by intros [?|?]%evicted_elem; subst).
      rewrite decide_False; [done|]. by intros <-.
    + by rewrite lookup_delete_None; right.
    + intros [?|?]%store_order; by subst.
    + intros g. by rewrite store_queued_ids.
  - rewrite lookup_delete_Some. intros [Hne H]. rewrite E4.
    destruct (lf_fut_pending0 _ _ H) as [H1 H2]. split; [done|].
    rewrite store_futures, H2. destruct (run_futures s !! rs_run_id r) as [f'|] eqn:Ef; [|done].
    rewrite decide_False; [done|]. intros ->. apply Hne. by eapply lf_fut_inj0.
  - rewrite !lookup_delete_Some. intros [? ?] [? ?]. by eapply lf_fut_inj0.
  - rewrite N2, <- lf_fut0. rewrite lookup_delete. case_decide; subst; [|naive_solver].
    split; [by intros [? ?]|naive_solver].
  - rewrite store_futures. destruct (run_futures s !! rs_run_id r) as [f'|] eqn:Ef.
    + destruct (futures s !! f) as [[]|] eqn:Eff; try done. case_decide; [done|]. intros _.
      destruct (lf_no_orphan0 _ Eff) as [id Hid]. exists id. rewrite lookup_delete_ne; [done|].
      intros <-. congruence.
    + intros H. destruct (lf_no_orphan0 _ H) as [id Hid]. exists id.
      rewrite lookup_delete_ne; [done|]. intros <-. congruence.
  - apply lf_queue_nodup0.
  - apply lf_queue_one0.
  - apply lf_queue_exec0.
  - apply lf_exec_one0.
  - intros _ [Hne H]%N1; [|done]. destruct (lf_queued0 id) as (req & H1 & H2); [auto|done|].
    exists req. rewrite E1, F2, od_get_pop_ne by done. done.
  - intros _ [Hne H]%N1; [|done]. destruct (lf_running0 id) as (t & e & req & H1 & H2 & H3 & H4);
      [auto|done|].
    exists t, e, req. rewrite A, F2, F3, od_get_pop_ne by done. done.
  - intros [Hne H]%N1; [|done]. eauto.
  - intros H%A. destruct (decide (id = rs_run_id r)) as [->|Hne].
    + left. eauto.
    + destruct (lf_await0 _ _ _ _ H); [by left|]. right. apply N1; done.
  - apply lf_end0.
  - intros H%A. eauto.
  - intros H%store_order. rewrite N2. intros [Hne Hn]. destruct H; [|done]. by eapply lf_done0.
  - rewrite N2. intros _ H [Hne Hn]. eapply lf_cancelled0; eauto.
  - rewrite E2. eauto.
  - rewrite F4. eauto.
Qed.

Lemma advance_store ids cur skip s r :
  life_inv ids cur skip s -> terminal (rs_status r) = true ->
  nonterm (statuses s !! rs_run_id r) ->
  forall id, advance (statuses s !! id) (statuses (store r s) !! id).
Proof.
  intros L T N id. rewrite store_status. case_decide; [auto with portex|].
  case_decide; subst; [|auto with portex].
  destruct N as [-> | ->]; simpl; [done|]. intros [= E]. by rewrite E in T.
Qed.

(** ** Taking a run from the queue *)

Definition unexecuted (r : string) (s : coordinator) : Prop :=
  forall e x, exec_tasks s !! e = Some x -> et_run_id x <> r.

Lemma queued_elem g q s r req :
  group_queues s !! g = Some q -> (r, req) ∈ q -> r ∈ queued_ids g s.
Proof.
  intros H Hin. unfold queued_ids. rewrite H. simpl.
  by apply (list_elem_of_fmap_2 fst) in Hin.
Qed.

Lemma queue_of_default g s q :
  q <> [] -> default [] (group_queues s !! g) = q -> group_queues s !! g = Some q.
Proof. destruct (group_queues s !! g); simpl; congruence. Qed.

Lemma nodup_keys_eq (q : list (string * ExecutionRequest)) r a b :
  NoDup q.*1 -> (r, a) ∈ q -> (r, b) ∈ q -> a = b.
Proof.
  intros N Ha Hb. apply (od_elem_get _ _ q N) in Ha. apply (od_elem_get _ _ q N) in Hb. congruence.
Qed.

Lemma life_dequeue ids cur g r req q s :
  life_inv ids cur None s -> ctl_inv s -> group_queues s !! g = Some ((r, req) :: q) ->
  life_inv ids cur (Some r) (with_group_queues (<[g := q]> (group_queues s)) s) /\
  unexecuted r s /\ r ∈ ids /\
  (nonterm (statuses s !! r) -> statuses s !! r = Some StQueued /\
     (r ∉ cancelled_run_ids s) /\ od_get r (run_requests s) = Some req).
Proof.
  intros L C Hq.
  assert (Hr : r ∈ queued_ids g s) by (eapply queued_elem; [done|left]).
  assert (Hrg : rq_group_folder req = g) by (eapply (ci_queue s C); [done|left]).
  pose proof (lf_queue_nodup _ _ _ _ L g) as ND. unfold queued_ids in ND. rewrite Hq in ND.
  assert (Hsub : forall g' id, id ∈ queued_ids g' (with_group_queues (<[g := q]> (group_queues s)) s)
    -> id ∈ queued_ids g' s /\ id <> r).
  { intros g' id. unfold queued_ids; simpl. rewrite lookup_insert. case_decide; subst; simpl.
    - rewrite Hq. csimpl. apply NoDup_cons in ND as [ND _]. intros Hin. split; [by right|].
      by intros ->.
    - intros Hin. split; [done|]. intros ->.
      assert (g' = rq_group_folder req) by (eapply (lf_queue_one _ _ _ _ L); eauto). congruence. }
  assert (U : unexecuted r s) by (intros e x; by eapply (lf_queue_exec _ _ _ _ L)).
  split; [|split; [done|split]].
  - open_life L. split; simpl; try assumption.
    + intros id Hid. destruct (lf_bound0 id Hid) as (B1 & B2 & B3 & B4 & B5 & B6).
      repeat split; try done. intros g' [Hin _]%Hsub. by apply (B5 g').
    + intros g'. unfold queued_ids; simpl. rewrite lookup_insert. case_decide; [|apply lf_queue_nodup0].
      simpl. by apply NoDup_cons in ND as [_ ND].
    + intros g1 g2 id [H1 _]%Hsub [H2 _]%Hsub. by eapply lf_queue_one0.
    + intros g' id e x [H1 _]%Hsub. by eapply lf_queue_exec0.
    + intros id Hne H. destruct (lf_queued0 id) as (req' & H1 & H2); [done|done|].
      exists req'. split; [|done]. rewrite lookup_insert. case_decide as D; [|done].
      rewrite <- D, Hq in H1. simpl in *. apply elem_of_cons in H1 as [[= -> ->]|H1]; [|done].
      done.
    + intros id Hne H. by apply lf_running0.
    + intros id Hne. by apply lf_cancelled0.
  - destruct (decide (r ∈ ids)) as [|Hn]; [done|].
    destruct (lf_bound _ _ _ _ L r Hn) as (_ & _ & _ & _ & B & _). by destruct (B g).
  - intros N. assert (statuses s !! r = Some StQueued) as HQ.
    { destruct N as [?|N]; [done|]. destruct (lf_running_exec _ _ _ _ L _ N) as (e & x & H1 & H2).
      by destruct (U e x H1). }
    split; [done|]. split.
    + intros Hc. by apply (lf_cancelled _ _ _ _ L r) in Hc.
    + destruct (lf_queued _ _ _ _ L r) as (req' & H1 & H2); [done|done|].
      destruct (group_queues s !! rq_group_folder req') as [q'|] eqn:Hq'; [|by apply elem_of_nil in H1].
      simpl in H1. assert (rq_group_folder req' = g) as Hg.
      { eapply (lf_queue_one _ _ _ _ L); [eapply queued_elem; [exact Hq'|exact H1]|done]. }
      rewrite Hg, Hq in Hq'. injection Hq' as <-.
      by rewrite H2, (nodup_keys_eq _ _ _ _ ND H1 (list_elem_of_here _ _)).
Qed.

(** The run in hand needs no work any more. *)
Lemma life_drop_skip ids cur r s :
  life_inv ids cur (Some r) s -> ~ nonterm (statuses s !! r) -> life_inv ids cur None s.
Proof.
  intros L N. assert (Hne : forall id, nonterm (statuses s !! id) -> Some r <> Some id) by congruence.
  open_life L. split; try assumption.
  - intros id _ H. apply lf_queued0; [|done]. apply Hne. by left.
  - intros id _ H. apply lf_running0; [|done]. apply Hne. by right.
  - intros id _ H. destruct (decide (r = id)) as [<-|]; [done|]. apply lf_cancelled0; congruence.
Qed.

(** ** Starting a run *)

Lemma awaits_insert cur t w s t' e id req :
  awaits (with_worker_tasks (<[t := w]> (worker_tasks s)) s) cur t' e id req ->
  t' <> t -> awaits s cur t' e id req.
Proof. intros [Hc [g Hg]] Hne. simpl in Hg. rewrite lookup_insert_ne in Hg by done. split; eauto. Qed.

Lemma life_start ids t g r req b k sid s s' :
  life_inv ids (Some t) (Some r) s -> ctl_inv s -> unexecuted r s -> r ∈ ids ->
  is_Some (worker_tasks s !! t) ->
  statuses s !! r = Some StQueued -> r ∉ cancelled_run_ids s ->
  od_get r (run_requests s) = Some req -> (forall g', r ∉ queued_ids g' s) ->
  life s' = life
    (set_worker t g (WAwait (next_id s) r req)
      (with_running_tasks (<[r := next_id s]> (running_tasks s))
      (with_next_id (S (next_id s))
      (with_exec_tasks (<[next_id s := mkExec r req b k sid First false None]> (exec_tasks s))
      (with_running_backends (<[r := b]> (running_backends s))
      (with_statuses (<[r := StRunning]> (statuses s)) s)))))) ->
  life_inv ids None None s'.
Proof.
  intros L C U Hin [w Hw] HQ Hnc Hreq Hnq E. symmetry in E. eapply life_inv_ext; [exact E|]. clear E.
  assert (Hfresh : exec_tasks s !! next_id s = None).
  { apply eq_None_not_Some. intros [x H]. apply (ci_exec_id s C) in H. lia. }
  assert (N : forall id, nonterm (<[r := StRunning]> (statuses s) !! id) <-> nonterm (statuses s !! id)).
  { intros id. rewrite lookup_insert. case_decide as D; [subst|done]. rewrite HQ. unfold nonterm.
    naive_solver. }
  assert (A : forall t' e id q, awaits (set_worker t g (WAwait (next_id s) r req) s) None t' e id q ->
    (t' = t /\ e = next_id s /\ id = r /\ q = req) \/ awaits s (Some t) t' e id q).
  { intros t' e id q [_ [g' H]]. simpl in H. rewrite lookup_insert in H. case_decide as D.
    - left. subst. by injection H as -> <- <- <-.
    - right. split; [congruence|by exists g']. }
  assert (AN : forall t' e id q, awaits s (Some t) t' e id q -> id <> r).
  { intros t' e id q [_ [g' H]] ->. destruct (ci_await s C _ _ _ _ _ H) as (x & X1 & X2 & _).
    by apply (U _ _ X1). }
  open_life L. split; simpl; try assumption.
  - intros id Hid. destruct (lf_bound0 id Hid) as (B1 & B2 & B3 & B4 & B5 & B6).
    assert (r <> id) by (by intros ->). rewrite lookup_insert_ne by done.
    repeat split; try done. intros e x. rewrite lookup_insert. case_decide as D; [by intros [= <-]|apply B6].
  - intros id f H. destruct (lf_fut_pending0 _ _ H). split; [lia|done].
  - intros id. by rewrite N.
  - intros g' id e x H. rewrite lookup_insert. case_decide as D; [|by eapply lf_queue_exec0].
    intros [= <-]. simpl. intros <-. by apply (Hnq g').
  - intros e e' x x'. rewrite !lookup_insert. repeat case_decide; subst; try done.
    + intros [= <-] H2 E. simpl in E. by destruct (U _ _ H2).
    + intros H1 [= <-] E. simpl in E. by destruct (U _ _ H1).
    + apply lf_exec_one0.
  - intros id _. rewrite lookup_insert. case_decide as D; [done|]. intros H. apply lf_queued0; congruence.
  - intros id _. rewrite lookup_insert. case_decide as D.
    + subst. intros _. exists t, (next_id s), req. rewrite lookup_insert_eq.
      repeat split; try done. exists g. simpl. by rewrite lookup_insert_eq.
    + intros H. destruct (lf_running0 id) as (t' & e & q & [A1 [g' A2]] & H2 & H3 & H4); [congruence|done|].
      exists t', e, q. rewrite lookup_insert_ne by done. repeat split; try done.
      exists g'. simpl. rewrite lookup_insert_ne; [done|congruence].
  - intros id. rewrite lookup_insert. case_decide as D; subst.
    + intros _. exists (next_id s). eexists. rewrite lookup_insert_eq. done.
    + intros H. destruct (lf_running_exec0 _ H) as (e & x & H1 & H2). exists e, x.
      rewrite lookup_insert_ne; [done|]. congruence.
  - intros t' e id q [(-> & -> & -> & ->)|H]%A.
    + right. by rewrite lookup_insert_eq.
    + rewrite lookup_insert_ne; [by eapply lf_await0|]. by apply AN in H.
  - intros e x en. rewrite lookup_insert. case_decide as D; [by intros [= <-]|apply lf_end0].
  - intros t' e id q x [(-> & -> & -> & ->)|H]%A.
    + rewrite lookup_insert_eq. by intros [= <-].
    + rewrite lookup_insert_ne; [by eapply lf_cancel0|]. intros <-.
      destruct H as [_ [g' H]]. destruct (ci_await s C _ _ _ _ _ H) as (y & Y1 & _). congruence.
  - intros id H. rewrite N. by apply lf_done0.
  - intros id _ H. rewrite N. destruct (decide (r = id)) as [->|]; [done|].
    apply lf_cancelled0; congruence.
  - intros t' w'. rewrite lookup_insert. case_decide as D; [by intros [= <-]|apply lf_alive0].
  - intros id e. rewrite lookup_insert. case_decide as D; subst.
    + intros [= <-]. eexists. by rewrite lookup_insert_eq.
    + intros H. destruct (lf_task0 _ _ H) as (x & X1 & X2). exists x.
      rewrite lookup_insert_ne; [done|]. congruence.
Qed.
End life.
