(* ===== verification/CoordinatorRuns.v ===== *)
(** * Every event of a sensible environment preserves the life of runs

    The segments of [Coordinator.v] against [life_inv]: the worker loop, the
    end of an execution, cancellation, backend outcomes and submission, each
    with how it moves the statuses ([advance]). *)

From stdpp Require Import base gmap strings list option sets.
From Stdlib Require Import ZArith Lia.
From S2P Require Import Prelude PyDict Workspace Execution Coordinator CoordinatorInv.
From S2P Require Import CoordinatorStore CoordinatorSafety CoordinatorLife.

Section runs.
Context {POL : ExecutionPolicyProtocol}.
Variable backends : list string.
Variable max_runs : nat.
Variable uuid4_hex : nat -> string.
Variable utcnow : nat -> Z.

Local Abbreviation store := (store_terminal_result max_runs utcnow).

(** What an observer of runs sees. *)
Definition shown (s : coordinator) := (statuses s, run_futures s, futures s, next_id s).

(** How it may evolve by anything but a submission: statuses advance, and a
    pending future stays that of its run until it carries a result of the run,
    which it then keeps. *)
Record progress (s s' : coordinator) : Prop := {
  pr_status : forall id, advance (statuses s !! id) (statuses s' !! id);
  pr_future : forall id f, run_futures s !! id = Some f ->
    run_futures s' !! id = Some f \/
    exists r, rs_run_id r = id /\ futures s' !! f = Some (FResult r);
  pr_result : forall f r, futures s !! f = Some (FResult r) -> futures s' !! f = Some (FResult r);
  pr_owner : forall id f, run_futures s' !! id = Some f -> run_futures s !! id = Some f;
  pr_next : next_id s <= next_id s'
}.

#[global] Instance progress_preorder : PreOrder progress.
Proof using Type.
  split; [intros s; split; auto with portex|].
  intros s1 s2 s3 [A1 A2 A3 A4 A5] [B1 B2 B3 B4 B5]. clear uuid4_hex utcnow. split; [|naive_solver..|lia].
  intros id. by eapply advance_trans.
Qed.

Lemma progress_statuses s s' :
  run_futures s = run_futures s' -> futures s = futures s' -> next_id s <= next_id s' ->
  (forall id, advance (statuses s !! id) (statuses s' !! id)) -> progress s s'.
Proof. intros E1 E2 E3 H. split; rewrite <- ?E1, <- ?E2; auto. Qed.

Lemma progress_shown s s' : shown s = shown s' -> progress s s'.
Proof. intros [= E1 E2 E3 E4]. apply progress_statuses; [done..|lia|]. rewrite E1. auto with portex. Qed.

Lemma life_shown s s' : life s = life s' -> shown s = shown s'.
Proof. unfold shown. by intros [= _ _ -> -> _ -> _ _ _ _ _ ->]. Qed.

Lemma life_progress s s' : life s = life s' -> progress s s'.
Proof. intros E. by apply progress_shown, life_shown. Qed.

Lemma progress_store ids cur skip s r :
  life_inv ids cur skip s -> terminal (rs_status r) = true ->
  nonterm (statuses s !! rs_run_id r) -> progress s (store r s).
Proof.
  intros L T N. split.
  - by eapply advance_store.
  - intros id f H. destruct (store_registers max_runs utcnow r s) as (-> & _).
    destruct (decide (rs_run_id r = id)) as [<-|Hne]; [|left; by rewrite lookup_delete_ne].
    right. exists r. rewrite store_futures, H.
    destruct (lf_fut_pending _ _ _ _ L _ _ H) as [_ ->]. by rewrite decide_True.
  - intros f r' H. rewrite store_futures, H. by destruct (run_futures s !! _).
  - intros id f. destruct (store_registers max_runs utcnow r s) as (-> & _). apply lookup_delete_Some.
  - destruct (store_control_eqs max_runs utcnow r s) as (_ & _ & _ & ->). done.
Qed.

Lemma life_resolve_session req b f s :
  life (resolve_session_id uuid4_hex req b f s).2 = life s.
Proof.
  unfold resolve_session_id. destruct (uses_workspace_session b).
  - by destruct (preview_session_id _ _ _ _ _ _) as [[? ?] ?].
  - by destruct f.
Qed.

Lemma life_mark_running r b i s : life (mark_running utcnow r b i s) = life s.
Proof. unfold mark_running. by destruct (od_get _ _). Qed.

Lemma in_hand_not_awaited cur r s :
  ctl_inv s -> unexecuted r s -> forall t e req, ~ awaits s cur t e r req.
Proof.
  intros C U t e req [_ [g H]]. destruct (ci_await s C _ _ _ _ _ H) as (x & X1 & X2 & _).
  by apply (U _ _ X1).
Qed.

(** A run that cannot be started is stored as failed. *)
Lemma life_fail ids cur r s res :
  life_inv ids cur (Some r) s -> ctl_inv s -> unexecuted r s -> r ∈ ids ->
  nonterm (statuses s !! r) -> rs_run_id res = r -> terminal (rs_status res) = true ->
  life_inv ids cur None (store res s) /\ progress s (store res s).
Proof.
  intros L C U Hin N <- T. split.
  - eapply life_store; eauto. intros t e req H. by apply (in_hand_not_awaited _ _ _ C U) in H.
  - by eapply progress_store.
Qed.

Lemma life_head ids t g r req s st :
  life_inv ids (Some t) (Some r) s -> ctl_inv s -> unexecuted r s -> r ∈ ids ->
  worker_tasks s !! t = Some (mkWorker g st) -> (forall g', r ∉ queued_ids g' s) ->
  statuses s !! r = Some StQueued -> r ∉ cancelled_run_ids s ->
  od_get r (run_requests s) = Some req ->
  match execute_request_head backends max_runs uuid4_hex utcnow r req s with
  | inl s' => life_inv ids (Some t) None s' /\ progress s s'
  | inr (e, s') => life_inv ids None None (set_worker t g (WAwait e r req) s') /\
                   progress s (set_worker t g (WAwait e r req) s')
  end.
Proof.
  intros L C U Hin Hw Hnq HQ Hnc Hreq. unfold execute_request_head.
  assert (F : forall b f res s1, resolve_session_id uuid4_hex req b f s = (rs_session_id res, s1) ->
    rs_run_id res = r -> terminal (rs_status res) = true ->
    life_inv ids (Some t) None (store res s1) /\ progress s (store res s1)).
  { intros b f res s1 E Hr T. pose proof (life_resolve_session req b f s) as EL.
    pose proof (control_resolve_session uuid4_hex req b f s) as EC.
    rewrite E in EL, EC. cbn [snd] in EL, EC. symmetry in EL, EC.
    destruct (life_fail ids (Some t) r s1 res) as [F1 F2]; try done.
    - by eapply life_inv_ext.
    - by eapply ctl_inv_ext.
    - unfold unexecuted. by rewrite <- (control_execs _ _ EC).
    - assert (statuses s = statuses s1) as <- by (by injection EL). by left.
    - split; [done|]. etrans; [by apply life_progress|done]. }
  destruct (select_backend_name req) as [b|msg]; unfold peek_session_id.
  - destruct (resolve_session_id uuid4_hex req b (rq_fresh_session req) s) as [sid s1] eqn:E.
    case_bool_decide; [|by eapply F].
    pose proof (life_resolve_session req b (rq_fresh_session req) s) as EL.
    rewrite E in EL. cbn [snd] in EL.
    set (s2 := mark_running _ _ _ _ _).
    assert (life s2 = life (with_statuses (<[r := StRunning]> (statuses s)) s)) as E2.
    { unfold s2. rewrite life_mark_running. unfold life in *. simpl.
      injection EL as -> -> -> -> -> -> -> -> -> -> -> ->. done. }
    clearbody s2. unfold life in E2. simpl in E2.
    match goal with |- life_inv _ _ _ ?x /\ _ => set (s3 := x) end.
    assert (life s3 = life (set_worker t g (WAwait (next_id s) r req)
      (with_running_tasks (<[r := next_id s]> (running_tasks s))
      (with_next_id (S (next_id s))
      (with_exec_tasks (<[next_id s := mkExec r req b (request_workspace_key req) sid First false
         None]> (exec_tasks s))
      (with_running_backends (<[r := b]> (running_backends s))
      (with_statuses (<[r := StRunning]> (statuses s)) s))))))) as E3.
    { unfold s3, life. simpl. injection E2 as -> -> -> -> -> -> -> -> -> -> -> ->. done. }
    split.
    + by eapply life_start.
    + apply progress_statuses; [by injection E3..| |].
      { assert (next_id s2 = next_id s) as E4 by (by injection E2). unfold s3. simpl. lia. }
      intros id. assert (statuses s3 = <[r := StRunning]> (statuses s)) as -> by (by injection E3).
      rewrite lookup_insert. case_decide; [subst; by rewrite HQ|apply advance_refl].
  - destruct (resolve_session_id uuid4_hex req "unknown" (rq_fresh_session req) s) as [sid s1] eqn:E.
    by eapply F.
Qed.

(** The end of the loop. *)
Lemma life_finish ids t g s :
  life_inv ids (Some t) None s -> default [] (group_queues s !! g) = [] ->
  life_inv ids None None
    (set_worker t g WDone (with_group_workers (delete g (group_workers s))
       (with_group_queues (<[g := []]> (group_queues s)) s))).
Proof.
  intros L Hq.
  set (s' := set_worker _ _ _ _).
  assert (Q : forall g', queued_ids g' s' = queued_ids g' s).
  { intros g'. unfold queued_ids, s'; simpl. rewrite lookup_insert. case_decide; subst; [|done].
    by rewrite Hq. }
  assert (Q' : forall g', default [] (group_queues s' !! g') = default [] (group_queues s !! g')).
  { intros g'. unfold s'; simpl. rewrite lookup_insert. case_decide; subst; [|done]. by rewrite Hq. }
  assert (A : forall t' e id q, awaits s' None t' e id q <-> awaits s (Some t) t' e id q).
  { intros t' e id q. unfold awaits, s'; simpl. split.
    - intros [_ [g' H]]. rewrite lookup_insert in H. case_decide; [done|].
      split; [congruence|by exists g'].
    - intros [H [g' H']]. split; [done|]. exists g'. rewrite lookup_insert_ne; congruence. }
  open_life L. split; try assumption.
  - intros id Hid. destruct (lf_bound0 id Hid) as (B1 & B2 & B3 & B4 & B5 & B6).
    repeat split; try done. intros g'. by rewrite Q.
  - intros g'. by rewrite Q.
  - intros g1 g2 id. rewrite !Q. apply lf_queue_one0.
  - intros g' id e x. rewrite Q. apply lf_queue_exec0.
  - intros id _ H. destruct (lf_queued0 id) as (req & H1 & H2); [done|done|].
    exists req. by rewrite Q'.
  - intros id _ H. destruct (lf_running0 id) as (t' & e & q & H1 & H2); [done|done|].
    exists t', e, q. by rewrite A.
  - intros t' e id q H%A. by eapply lf_await0.
  - intros t' e id q x H%A. by eapply lf_cancel0.
  - intros t' w. unfold s'; simpl. rewrite lookup_insert. case_decide; [by intros [= <-]|apply lf_alive0].
Qed.

Lemma pending_nonterm ids cur skip s r :
  life_inv ids cur skip s ->
  match run_futures s !! r with
  | None => false
  | Some f => match futures s !! f with Some fu => negb (future_done fu) | None => false end
  end = bool_decide (is_Some (run_futures s !! r)).
Proof.
  intros L. destruct (run_futures s !! r) as [f|] eqn:E.
  - destruct (lf_fut_pending _ _ _ _ L _ _ E) as [_ ->]. symmetry. by apply bool_decide_eq_true.
  - symmetry. apply bool_decide_eq_false. by intros [? ?].
Qed.

Lemma life_worker_loop ids t g q s :
  in_loop t g s -> life_inv ids (Some t) None s -> default [] (group_queues s !! g) = q ->
  life_inv ids None None (worker_loop backends max_runs uuid4_hex utcnow t g q s).2 /\
  progress s (worker_loop backends max_runs uuid4_hex utcnow t g q s).2.
Proof.
  revert s. induction q as [|[r req] q IH]; intros s I L Hq; cbn [worker_loop].
  - split; [exact (life_finish ids t g s L Hq)|]. by apply progress_shown.
  - apply queue_of_default in Hq as Hq'; [|done].
    destruct (life_dequeue _ _ _ _ _ _ _ L (il_inv _ _ _ I) Hq') as (L1 & U & Hin & F).
    assert (I1 : in_loop t g (with_group_queues (<[g := q]> (group_queues s)) s))
      by (apply in_loop_dequeue; [done|]; rewrite Hq; set_solver).
    assert (Hnq : forall g', r ∉ queued_ids g' (with_group_queues (<[g := q]> (group_queues s)) s)).
    { intros g'. unfold queued_ids; simpl. rewrite lookup_insert. case_decide as D; simpl.
      - pose proof (lf_queue_nodup _ _ _ _ L g) as ND. unfold queued_ids in ND.
        rewrite Hq' in ND. by apply NoDup_cons in ND as [ND _].
      - intros Hin'. apply D. eapply (lf_queue_one _ _ _ _ L); [|exact Hin'].
        eapply queued_elem; [done|left]. }
    set (s1 := with_group_queues (<[g := q]> (group_queues s)) s) in *.
    assert (Hq1 : default [] (group_queues s1 !! g) = q) by (unfold s1; simpl; by rewrite lookup_insert_eq).
    assert (S1 : progress s s1) by (by apply progress_shown).
    rewrite (pending_nonterm _ _ _ _ r L1). case_bool_decide as N.
    + apply (lf_fut _ _ _ _ L1) in N as N'. destruct (F N') as (HQ & Hnc & Hreq).
      destruct (il_worker _ _ _ I1) as (st & Hw & _).
      pose proof (life_head ids t g r req s1 st L1 (il_inv _ _ _ I1) U Hin Hw Hnq HQ Hnc Hreq) as H.
      pose proof (execute_request_head_control backends max_runs uuid4_hex utcnow r req s1) as C.
      destruct (execute_request_head _ _ _ _ r req s1) as [s2|[e s2]].
      * destruct H as [L2 S2]. destruct (IH s2) as [L3 S3]; [|done|..].
        -- by eapply in_loop_ext.
        -- by rewrite (control_queues _ _ C).
        -- split; [done|]. etrans; [exact S1|]. by etrans.
      * destruct H as [L2 S2]. split; [done|]. by etrans.
    + apply (life_drop_skip _ _ r) in L1; [|by rewrite <- (lf_fut _ _ _ _ L1)].
      destruct (IH s1) as [L3 S3]; [done..|]. split; [done|]. by etrans.
Qed.

(** ** The end of an execution *)

Lemma awaits_unique ids skip s t t' e e' r req req' :
  ctl_inv s -> life_inv ids None skip s ->
  awaits s None t e r req -> awaits s None t' e' r req' -> t = t'.
Proof.
  intros C L [_ [g H]] [_ [g' H']].
  destruct (ci_await s C _ _ _ _ _ H) as (x & X1 & X2 & X3 & X4).
  destruct (ci_await s C _ _ _ _ _ H') as (x' & Y1 & Y2 & Y3 & Y4).
  assert (e = e') as <- by (eapply (lf_exec_one _ _ _ _ L); eauto; congruence).
  assert (x = x') as <- by congruence.
  pose proof (ci_live s C _ _ H eq_refl) as G. pose proof (ci_live s C _ _ H' eq_refl) as G'.
  simpl in G, G'. congruence.
Qed.

(** The worker resumes with the run it awaited in hand. *)
Lemma life_resume ids t e r req s :
  ctl_inv s -> life_inv ids None None s -> awaits s None t e r req ->
  life_inv ids (Some t) (Some r) (execute_request_finally r s) /\
  (forall t' e' req', ~ awaits s (Some t) t' e' r req').
Proof.
  intros C L A.
  assert (A1 : forall t' e' id q, awaits s (Some t) t' e' id q -> awaits s None t' e' id q /\ t' <> t).
  { intros t' e' id q [H1 H2]. split; [split; [done|exact H2]|congruence]. }
  assert (A2 : forall t' e' id q, awaits s None t' e' id q -> id <> r -> awaits s (Some t) t' e' id q).
  { intros t' e' id q [H1 [g H2]] Hne. split; [|by exists g]. intros [= <-].
    destruct A as [_ [g' A]]. congruence. }
  split.
  - open_life L. split; simpl; try assumption.
    + intros id Hne H. apply lf_queued0; [done|done].
    + intros id Hne H. destruct (lf_running0 id) as (t' & e' & q & H1 & H2 & H3 & H4); [done|done|].
      assert (id <> r) by congruence. exists t', e', q. rewrite lookup_delete_ne by done.
      split; [by apply A2|done].
    + intros t' e' id q H. apply (A1 t' e' id q) in H as [H _]. by eapply lf_await0.
    + intros t' e' id q x H. apply (A1 t' e' id q) in H as [H _]. by eapply lf_cancel0.
    + intros id Hne. by apply lf_cancelled0.
    + intros id e'. rewrite lookup_delete_Some. intros [_ H]. by apply lf_task0.
  - intros t' e' req' H. apply A1 in H as [H Hne]. apply Hne. symmetry. by eapply awaits_unique.
Qed.

Lemma life_discard ids t r s :
  life_inv ids (Some t) (Some r) s -> ~ nonterm (statuses s !! r) ->
  (forall t' e' req', ~ awaits s (Some t) t' e' r req') ->
  life_inv ids (Some t) None
    (with_cancelled_run_ids (cancelled_run_ids s ∖ {[r]}) s).
Proof.
  intros L N A. apply life_drop_skip with (r := r) in L; [|done].
  open_life L. split; simpl; try assumption.
  - intros id Hid. destruct (lf_bound0 id Hid) as (B1 & B2 & B3 & B4 & B5 & B6).
    repeat split; try done. set_solver.
  - intros id _ H. destruct (lf_running0 id) as (t' & e' & q & H1 & H2 & H3 & H4); [done|done|].
    exists t', e', q. split; [done|]. split; [set_solver|done].
  - intros t' e' id q H. destruct (lf_await0 _ _ _ _ H); [|by right]. left.
    assert (id <> r) by (intros ->; by eapply A). set_solver.
  - intros t' e' id q x H H1 H2. assert (id <> r) by (intros ->; by eapply A).
    pose proof (lf_cancel0 _ _ _ _ _ H H1 H2). set_solver.
  - intros id _ H. apply lf_cancelled0; [done|set_solver].
Qed.

Lemma life_tail ids t e r req x en s :
  ctl_inv s -> life_inv ids None None s -> awaits s None t e r req ->
  exec_tasks s !! e = Some x -> et_end x = Some en ->
  exists s1, execute_request_tail max_runs uuid4_hex utcnow r req en s = Some s1 /\
    life_inv ids (Some t) None s1 /\ progress s s1.
Proof.
  intros C L A Hx Hen. destruct (life_resume _ _ _ _ _ _ C L A) as [L1 NA].
  assert (Hrun : et_run_id x = r).
  { destruct A as [_ [g A]]. destruct (ci_await s C _ _ _ _ _ A) as (y & Y1 & Y2 & _). congruence. }
  assert (Hin : r ∈ ids).
  { destruct (decide (r ∈ ids)) as [|Hn]; [done|].
    destruct (lf_bound _ _ _ _ L r Hn) as (_ & _ & _ & _ & _ & B). by destruct (B _ _ Hx). }
  pose proof (lf_end _ _ _ _ L _ _ _ Hx Hen) as G.
  assert (D : r ∈ cancelled_run_ids s -> exists s1,
    Some (with_cancelled_run_ids (cancelled_run_ids s ∖ {[r]}) (execute_request_finally r s)) = Some s1 /\
    life_inv ids (Some t) None s1 /\ progress s s1).
  { intros Hc. eexists. split; [done|]. split; [|by apply progress_shown].
    apply (life_discard ids t r (execute_request_finally r s) L1); [|exact NA].
    by apply (lf_cancelled _ _ _ _ L). }
  unfold execute_request_tail. destruct en as [res|msg|].
  - case_bool_decide as Hc; [by apply D|]. destruct G as [G1 G2]. eexists. split; [done|].
    assert (statuses s !! r = Some StRunning) as HR by (by destruct (lf_await _ _ _ _ L _ _ _ _ A)).
    assert (rs_run_id res = r) as <- by congruence. split.
    + eapply life_store; eauto. intros t' e' req' H. by apply NA in H.
    + transitivity (execute_request_finally (rs_run_id res) s); [by apply progress_shown|].
      eapply progress_store; [exact L1|done|by right].
  - done.
  - simpl in G. pose proof (lf_cancel _ _ _ _ L _ _ _ _ _ A Hx G) as Hc.
    rewrite bool_decide_eq_true_2 by done. by apply D.
Qed.

Lemma life_run_worker ids t s o s' :
  ctl_inv s -> life_inv ids None None s ->
  run_worker backends max_runs uuid4_hex utcnow t s = Some (o, s') ->
  life_inv ids None None s' /\ progress s s'.
Proof.
  intros C L. unfold run_worker. destruct (worker_tasks s !! t) as [w|] eqn:Hw; [|done].
  assert (K : forall s1, in_loop t (wk_group w) s1 -> life_inv ids (Some t) None s1 ->
    life_inv ids None None (run_group_queue backends max_runs uuid4_hex utcnow t (wk_group w) s1).2 /\
    progress s1 (run_group_queue backends max_runs uuid4_hex utcnow t (wk_group w) s1).2)
    by (intros s1 I1 L1; by apply life_worker_loop).
  destruct (wk_state w) as [|e r req| |] eqn:Hst; try done.
  - destruct (K s) as [K1 K2].
    + by apply in_loop_start.
    + assert (A : forall t' e id q, awaits s None t' e id q <-> awaits s (Some t) t' e id q).
      { intros t' e id q. split; [|by intros [_ H]].
        intros [_ [g H]]. split; [|by exists g]. intros [= <-]. rewrite Hw in H.
        injection H as ->. done. }
      open_life L. split; try assumption.
      * intros id Hne H. destruct (lf_running0 id) as (t' & e & q & H1 & H2); [done|done|].
        exists t', e, q. by rewrite <- A.
      * intros t' e id q H%A. by eapply lf_await0.
      * intros t' e id q x H%A. by eapply lf_cancel0.
    + destruct (run_group_queue _ _ _ _ _ _ s). by intros [= <- <-].
  - destruct (exec_tasks s !! e) as [x|] eqn:Hx; [|done].
    destruct (et_end x) as [en|] eqn:Hen; [|done].
    assert (A : awaits s None t e r req)
      by (split; [done|]; exists (wk_group w); by rewrite <- Hst, Hw; destruct w).
    destruct (life_tail ids t e r req x en s) as (s1 & E1 & L1 & S1); [done..|].
    rewrite E1. destruct (K s1) as [K1 K2]; [|done|].
    + eapply in_loop_ext; [symmetry; by eapply control_tail|]. by eapply in_loop_resume.
    + destruct (run_group_queue _ _ _ _ _ _ s1). intros [= <- <-]. split; [done|]. by etrans.
Qed.

(** ** Outcomes of backend calls *)

Lemma life_set_exec ids skip i x x' s :
  life_inv ids None skip s -> exec_tasks s !! i = Some x ->
  et_run_id x' = et_run_id x ->
  (et_cancel_requested x' = et_cancel_requested x \/
   forall t id req, awaits s None t i id req -> id ∈ cancelled_run_ids s) ->
  (forall en, et_end x' = Some en -> good_end x' en) ->
  life_inv ids None skip (set_exec i x' s).
Proof.
  intros L Hx E1 E2 G.
  assert (B : forall e y, <[i := x']> (exec_tasks s) !! e = Some y ->
    exists z, exec_tasks s !! e = Some z /\ et_run_id y = et_run_id z).
  { intros e y. rewrite lookup_insert. case_decide; subst; [intros [= <-]; eauto|eauto]. }
  assert (F : forall e z, exec_tasks s !! e = Some z ->
    exists y, <[i := x']> (exec_tasks s) !! e = Some y /\ et_run_id y = et_run_id z).
  { intros e z H. rewrite lookup_insert. case_decide; subst; [|eauto].
    exists x'. split; [done|]. congruence. }
  open_life L. split; simpl; try assumption.
  - intros id Hid. destruct (lf_bound0 id Hid) as (B1 & B2 & B3 & B4 & B5 & B6).
    repeat split; try done. intros e y (z & Z1 & ->)%B. by eapply B6.
  - intros g id e y H (z & Z1 & ->)%B. by eapply lf_queue_exec0.
  - intros e e' y y' (z & Z1 & ->)%B (z' & Z1' & ->)%B. by eapply lf_exec_one0.
  - intros id H. destruct (lf_running_exec0 _ H) as (e & z & Z1 & Z2).
    destruct (F _ _ Z1) as (y & Y1 & Y2). exists e, y. split; [done|congruence].
  - intros e y en. rewrite lookup_insert. case_decide; [intros [= <-]; apply G|apply lf_end0].
  - intros t e id q y H. rewrite lookup_insert. case_decide as D; [subst|by eapply lf_cancel0].
    intros [= <-] Hy. destruct E2 as [E2|E2]; [|by eapply E2]. eapply lf_cancel0; [done..|congruence].
  - intros id e H. destruct (lf_task0 _ _ H) as (z & Z1 & Z2).
    destruct (F _ _ Z1) as (y & Y1 & Y2). exists y. split; [done|congruence].
Qed.

Lemma backend_result_good x o :
  sensible_outcome x o ->
  match backend_result x o with
  | Ok r => rs_run_id r = et_run_id x /\ terminal (rs_status r) = true
  | Err (inl _) => True
  | Err (inr t) => match t with TCancelled => et_cancel_requested x = true | _ => False end
  end.
Proof. by destruct o; simpl. Qed.

Lemma life_backend_step ids i o s s' :
  life_inv ids None None s -> backend_step uuid4_hex i o s = Some s' ->
  (forall x, exec_tasks s !! i = Some x -> sensible_outcome x o) ->
  life_inv ids None None s' /\ progress s s'.
Proof.
  intros L. unfold backend_step. destruct (exec_tasks s !! i) as [x|] eqn:Hx; [|done].
  destruct (et_end x) eqn:Hend; [done|]. intros E S. specialize (S x eq_refl).
  set (s1 := match o with BTimeout => _ | _ => _ end) in E.
  assert (life s = life s1) as E1 by (unfold s1; by destruct o). clearbody s1.
  assert (K : forall s2 x', life s2 = life s1 -> et_run_id x' = et_run_id x ->
    et_cancel_requested x' = et_cancel_requested x ->
    (forall en, et_end x' = Some en -> good_end x' en) ->
    life_inv ids None None (set_exec i x' s2) /\ progress s (set_exec i x' s2)).
  { intros s2 x' E2 R1 R2 G. rewrite <- E1 in E2. split.
    - apply (life_set_exec ids None i x x' s2); try done.
      + by eapply life_inv_ext; [symmetry; exact E2|].
      + assert (exec_tasks s2 = exec_tasks s) as -> by (by injection E2). done.
      + by left.
    - transitivity s2; [by apply life_progress|]. by apply progress_shown. }
  pose proof (backend_result_good x o S) as G.
  destruct (et_phase x), (backend_result x o) as [r|[[resume msg]|en]].
  all: try (injection E as <-; apply K; [|done..|]; [by unfold commit_if_completed; repeat case_match|];
            simpl; intros en' [= <-]; simpl; first [done | by destruct en]).
  destruct (should_retry_session_resume _ _ _);
    [|injection E as <-; apply K; [done..|]; by intros en' [= <-]].
  match type of E with context [resolve_session_id ?u ?a ?b ?c ?d] =>
    pose proof (life_resolve_session a b c d) as C;
    destruct (resolve_session_id u a b c d) as [sid s2] end.
  injection E as <-. apply K; [exact C|done..].
Qed.

(** ** Cancellation *)

Lemma store_status_twice res st s :
  store res (with_statuses (<[rs_run_id res := st]> (statuses s)) s) = store res s.
Proof.
  unfold store_terminal_result. cbn [statuses with_statuses]. by rewrite insert_insert_eq.
Qed.

Lemma cancel_exec_with_statuses e v s :
  cancel_exec_task e (with_statuses v s) = with_statuses v (cancel_exec_task e s).
Proof.
  unfold cancel_exec_task. simpl. destruct (exec_tasks s !! e) as [x|]; [|done].
  by destruct (et_end x).
Qed.

Lemma cancel_exec_shown e s : shown s = shown (cancel_exec_task e s).
Proof.
  unfold cancel_exec_task. destruct (exec_tasks s !! e) as [x|]; [|done]. by destruct (et_end x).
Qed.

Lemma life_add_cancelled ids r s :
  life_inv ids None None s -> r ∈ ids ->
  life_inv ids None (Some r) (with_cancelled_run_ids ({[r]} ∪ cancelled_run_ids s) s).
Proof.
  intros L Hin. open_life L. split; simpl; try assumption.
  - intros id Hid. destruct (lf_bound0 id Hid) as (B1 & B2 & B3 & B4 & B5 & B6).
    assert (id <> r) by (by intros ->). repeat split; try done. set_solver.
  - intros id _. by apply lf_queued0.
  - intros id Hne H. destruct (lf_running0 id) as (t & e & q & H1 & H2 & H3); [done|done|].
    exists t, e, q. split; [done|]. split; [|done]. assert (id <> r) by congruence. set_solver.
  - intros t e id q H. destruct (lf_await0 _ _ _ _ H); [left; set_solver|by right].
  - intros t e id q x H H1 H2. pose proof (lf_cancel0 _ _ _ _ _ H H1 H2). set_solver.
  - intros id Hne H. apply lf_cancelled0; [done|]. assert (id <> r) by congruence. set_solver.
Qed.

Lemma life_cancel_exec ids r e s :
  life_inv ids None (Some r) s -> ctl_inv s -> r ∈ cancelled_run_ids s ->
  running_tasks s !! r = Some e -> life_inv ids None (Some r) (cancel_exec_task e s).
Proof.
  intros L C Hc He. unfold cancel_exec_task.
  destruct (exec_tasks s !! e) as [x|] eqn:Hx; [|done]. destruct (et_end x) eqn:Hend; [done|].
  apply (life_set_exec ids (Some r) e x); try done. right.
  intros t id req [_ [g H]]. destruct (ci_await s C _ _ _ _ _ H) as (y & Y1 & Y2 & _).
  destruct (lf_task _ _ _ _ L _ _ He) as (z & Z1 & Z2). congruence.
Qed.

Lemma nonterm_in ids cur skip s r :
  life_inv ids cur skip s -> nonterm (statuses s !! r) -> r ∈ ids.
Proof.
  intros L N. destruct (decide (r ∈ ids)) as [|Hn]; [done|].
  destruct (lf_bound _ _ _ _ L r Hn) as [E _]. rewrite E in N. by destruct (nonterm_None N).
Qed.

(** The run and its request, when it has not ended. *)
Lemma nonterm_request ids s r :
  life_inv ids None None s -> nonterm (statuses s !! r) ->
  exists req, od_get r (run_requests s) = Some req.
Proof.
  intros L [N|N].
  - destruct (lf_queued _ _ _ _ L r) as (req & _ & H); eauto.
  - destruct (lf_running _ _ _ _ L r) as (t & e & req & _ & _ & _ & H); eauto.
Qed.

Lemma resolve_session_backend_cancels req b f s :
  backend_cancels (resolve_session_id uuid4_hex req b f s).2 = backend_cancels s.
Proof.
  unfold resolve_session_id. destruct (uses_workspace_session b).
  - by destruct (preview_session_id _ _ _ _ _ _) as [[? ?] ?].
  - by destruct f.
Qed.

Lemma with_backend_cancels_id s : with_backend_cancels (backend_cancels s) s = s.
Proof. by destruct s. Qed.

(** Cancelling an unfinished run stores a result from a state in which the run
    can be dropped, and tells the backend of a running one. *)
Lemma cancel_unfinished ids r s :
  ctl_inv s -> life_inv ids None None s -> nonterm (statuses s !! r) ->
  exists s2 res skip,
    cancel max_runs uuid4_hex utcnow r s =
      (Some true,
       with_backend_cancels (backend_cancels s ++
         match statuses s !! r, running_backends s !! r with
         | Some StRunning, Some b => [(b, r)]
         | _, _ => []
         end) (store res s2)) /\
    rs_run_id res = r /\ rs_status res = StCancelled /\ life_inv ids None skip s2 /\
    (skip = None \/ skip = Some r) /\ shown s = shown s2 /\
    (forall t e req, awaits s2 None t e r req -> r ∈ cancelled_run_ids s2).
Proof.
  intros C L N. pose proof (nonterm_in _ _ _ _ _ L N) as Hin.
  destruct (nonterm_request _ _ _ L N) as [req Hreq]. unfold cancel, peek_session_id.
  set (b := safe_select_backend_name req). rewrite Hreq.
  pose proof (life_resolve_session req b (rq_fresh_session req) s) as E.
  pose proof (control_resolve_session uuid4_hex req b (rq_fresh_session req) s) as E'.
  pose proof (resolve_session_backend_cancels req b (rq_fresh_session req) s) as Ec.
  destruct (resolve_session_id _ _ _ _ _) as [sid s1]. symmetry in E, E'. cbn [snd] in E, E', Ec.
  pose proof (life_inv_ext _ _ _ _ _ E L) as L1. pose proof (ctl_inv_ext _ _ E' C) as C1.
  pose proof (life_shown _ _ E) as S1.
  set (sid' := default sid (run_session_ids s1 !! r)).
  destruct N as [N|N]; rewrite N.
  - set (res := build_result r (rq_group_folder req) b sid StCancelled (rq_slot_id req) None None None).
    exists s1, res, None. split; [|split; [done|]].
    { rewrite app_nil_r, <- Ec, <- (store_backend_cancels max_runs utcnow res s1).
      by rewrite with_backend_cancels_id. }
    split; [done|]. split; [done|]. split; [by left|]. split; [done|].
    intros t e q H. destruct (lf_await _ _ _ _ L1 _ _ _ _ H); [done|].
    assert (statuses s1 = statuses s) by (by injection E). congruence.
  - destruct (lf_running _ _ _ _ L r) as (_ & _ & _ & _ & _ & [bk Hb] & _); [done..|].
    assert (running_backends s1 = running_backends s) as Hb1 by (by injection E).
    rewrite Hb1, Hb.
    set (res := build_result r (rq_group_folder req) b sid' StCancelled (rq_slot_id req) None None None).
    set (s3 := with_cancelled_run_ids ({[r]} ∪ cancelled_run_ids s1) s1).
    pose proof (life_add_cancelled ids r s1 L1 Hin) as L3. fold s3 in L3.
    assert (Hc3 : r ∈ cancelled_run_ids s3) by (simpl; set_solver).
    set (s2 := match running_tasks s1 !! r with Some e => cancel_exec_task e s3 | None => s3 end).
    exists s2, res, (Some r). split; [|split; [done|split; [done|]]].
    + rewrite <- (store_status_twice res StCancelled s2). cbv zeta.
      fold b sid'. fold res.
      match goal with |- (_, with_backend_cancels _ (store res ?x)) = _ =>
        assert (x = with_statuses (<[r := StCancelled]> (statuses s2)) s2) as -> end.
      { unfold s2. cbn [running_tasks with_statuses].
        change (running_tasks s3) with (running_tasks s1). destruct (running_tasks s1 !! r) as [e|]; [|done].
        assert (statuses (cancel_exec_task e s3) = statuses s3) as ->
          by (symmetry; exact (f_equal (fun p => p.1.1.1) (cancel_exec_shown e s3))).
        by rewrite <- cancel_exec_with_statuses. }
      rewrite store_backend_cancels.
      assert (backend_cancels (with_statuses (<[r := StCancelled]> (statuses s2)) s2) =
        backend_cancels s) as ->; [|done].
      rewrite <- Ec. unfold s2, cancel_exec_task. by repeat case_match.
    + assert (life_inv ids None (Some r) s2 /\ shown s = shown s2 /\ r ∈ cancelled_run_ids s2)
        as (H1 & H2 & H3).
      { unfold s2. destruct (running_tasks s1 !! r) as [e|] eqn:He; [|done].
        split; [|split].
        - apply life_cancel_exec; [done| |done|done]. by eapply ctl_inv_ext; [|exact C1].
        - rewrite <- cancel_exec_shown. by unfold s3.
        - unfold cancel_exec_task. by repeat case_match. }
      split; [done|]. split; [by right|]. done.
Qed.

Lemma cancel_finished r s :
  ~ nonterm (statuses s !! r) -> cancel max_runs uuid4_hex utcnow r s = (Some false, s).
Proof.
  intros N. unfold cancel. destruct (statuses s !! r) as [[]|] eqn:E; try done;
    exfalso; apply N; unfold nonterm; auto.
Qed.

Lemma life_cancel ids r s :
  ctl_inv s -> life_inv ids None None s ->
  life_inv ids None None (cancel max_runs uuid4_hex utcnow r s).2 /\
  progress s (cancel max_runs uuid4_hex utcnow r s).2.
Proof.
  intros C L. destruct (nonterm_dec (statuses s !! r)) as [N|N]; last first.
  { by rewrite (cancel_finished _ _ N). }
  destruct (cancel_unfinished ids r s C L N) as (s2 & res & skip & -> & <- & Hst & L2 & Hs & E & A).
  assert (terminal (rs_status res) = true) as T by (by rewrite Hst).
  assert (nonterm (statuses s2 !! rs_run_id res)) as N2 by (injection E as <- _ _ _; done).
  pose proof (nonterm_in _ _ _ _ _ L N) as Hin.
  pose proof (life_store max_runs uuid4_hex utcnow ids None skip s2 res L2 Hin T Hs A) as L3.
  pose proof (progress_store ids None skip s2 res L2 T N2) as P3.
  generalize dependent (store res s2). intros s3 L3 P3. cbn [snd]. split.
  - by eapply life_inv_ext; [|exact L3].
  - transitivity s2; [by apply progress_shown|]. etrans; [exact P3|]. by apply progress_shown.
Qed.

(** ** Submission *)

(** The state [submit_execution] leaves, up to what [life] does not see. *)
Definition submitted_state (r : string) (req : ExecutionRequest) (s : coordinator) : coordinator :=
  let g := rq_group_folder req in
  with_group_queues (<[g := default [] (group_queues s !! g) ++ [(r, req)]]> (group_queues s))
  (with_statuses (<[r := StQueued]> (statuses s))
  (with_run_requests (od_set r req (run_requests s))
  (with_run_futures (<[r := next_id s]> (run_futures s))
  (with_next_id (S (next_id s)) (with_futures (<[next_id s := FPending]> (futures s)) s))))).

Lemma life_submitted_state ids r req s :
  ctl_inv s -> life_inv ids None None s -> r ∉ ids ->
  life_inv (ids ++ [r]) None None (submitted_state r req s).
Proof.
  intros C L Hr. destruct (lf_bound _ _ _ _ L r Hr) as (B1 & B2 & B3 & B4 & B5 & B6).
  assert (NF : futures s !! next_id s <> Some FPending).
  { intros H. destruct (lf_no_orphan _ _ _ _ L _ H) as [id Hid].
    apply (lf_fut_pending _ _ _ _ L) in Hid. lia. }
  assert (QI : forall g id, id ∈ queued_ids g (submitted_state r req s) <->
    id ∈ queued_ids g s \/ (g = rq_group_folder req /\ id = r)).
  { intros g id. unfold queued_ids, submitted_state; simpl. rewrite lookup_insert.
    case_decide as D; [subst|naive_solver]. simpl. rewrite fmap_app, elem_of_app. csimpl.
    rewrite list_elem_of_singleton. naive_solver. }
  assert (QE : forall g, queued_ids g (submitted_state r req s) =
    queued_ids g s ++ if decide (rq_group_folder req = g) then [r] else []).
  { intros g. unfold queued_ids, submitted_state; simpl. rewrite lookup_insert.
    case_decide as D; [subst|by rewrite app_nil_r]. simpl. by rewrite fmap_app. }
  assert (QG : forall g e, e ∈ default [] (group_queues s !! g) ->
    e ∈ default [] (group_queues (submitted_state r req s) !! g)).
  { intros g e. unfold submitted_state; simpl. rewrite lookup_insert.
    case_decide; [subst; simpl; set_solver|done]. }
  open_life L. split; try assumption.
  - intros id Hid. assert ((id ∉ ids) /\ r <> id) as [Hid1 Hid2] by set_solver.
    destruct (lf_bound0 id Hid1) as (D1 & D2 & D3 & D4 & D5 & D6). simpl.
    rewrite !lookup_insert_ne by done. repeat split; try done.
    intros g [H|[_ H]]%QI; [by apply (D5 g)|by subst].
  - intros id f. simpl. rewrite lookup_insert. case_decide as D.
    + intros [= <-]. rewrite lookup_insert_eq. split; [lia|done].
    + intros H. destruct (lf_fut_pending0 _ _ H). rewrite lookup_insert_ne by lia. split; [lia|done].
  - intros id1 id2 f. simpl. rewrite !lookup_insert. repeat case_decide; subst; try done.
    + intros [= <-] Hf. apply lf_fut_pending0 in Hf. lia.
    + intros Hf [= <-]. apply lf_fut_pending0 in Hf. lia.
    + apply lf_fut_inj0.
  - intros id. simpl. rewrite !lookup_insert. case_decide; [|apply lf_fut0].
    split; [intros _; by left|eauto].
  - intros f. simpl. rewrite lookup_insert. case_decide as D.
    + intros _. exists r. subst. by rewrite lookup_insert_eq.
    + intros H. destruct (lf_no_orphan0 _ H) as [id Hid]. exists id.
      rewrite lookup_insert_ne; [done|]. intros ->. congruence.
  - intros g. rewrite QE. apply NoDup_app. case_decide as D.
    + split; [done|]. split; [|apply NoDup_singleton]. intros x Hx ->%list_elem_of_singleton.
      by apply (B5 g).
    + split; [done|]. split; [set_solver|constructor].
  - intros g g' id. rewrite !QI. intros [H1|[-> ->]] [H2|[-> H2]]; try done; subst.
    + by eapply lf_queue_one0.
    + by destruct (B5 g).
    + by destruct (B5 g').
  - intros g id e x. rewrite QI. intros [H1|[-> ->]]; [by eapply lf_queue_exec0|apply B6].
  - intros id _. simpl. rewrite lookup_insert. case_decide as D.
    + subst. intros _. exists req. rewrite od_get_set_eq, lookup_insert_eq. simpl. set_solver.
    + intros H. destruct (lf_queued0 id) as (q & H1 & H2); [done|done|]. exists q. split; [by apply QG|].
      by rewrite od_get_set_ne.
  - intros id _. simpl. rewrite lookup_insert. case_decide as D; [done|].
    intros H. destruct (lf_running0 id) as (t & e & q & H1 & H2 & H3 & H4); [done|done|].
    exists t, e, q. split; [exact H1|]. rewrite od_get_set_ne by done. done.
  - intros id. simpl. rewrite lookup_insert. case_decide as D; [done|]. apply lf_running_exec0.
  - intros t e id q H. simpl. rewrite lookup_insert. case_decide as D; [|by eapply lf_await0].
    subst. destruct H as [_ [g H]]. simpl in H.
    destruct (ci_await s C _ _ _ _ _ H) as (x & X1 & X2 & _). by destruct (B6 _ _ X1).
  - intros id H. simpl in H |- *. rewrite lookup_insert_ne; [by apply lf_done0|]. by intros ->.
  - intros id _ H. simpl in H |- *. rewrite lookup_insert_ne; [by apply lf_cancelled0|]. by intros ->.
Qed.

Lemma life_ensure_worker ids g s :
  (forall t w, worker_tasks s !! t = Some w -> t < next_id s) -> life_inv ids None None s -> life_inv ids None None (ensure_worker g s).
Proof.
  intros C L. unfold ensure_worker.
  destruct (match group_workers s !! g with Some _ => _ | None => _ end); [done|].
  assert (A : forall t e id q,
    awaits (with_worker_tasks (<[next_id s := mkWorker g WStart]> (worker_tasks s)) s) None t e id q
    <-> awaits s None t e id q).
  { intros t e id q. unfold awaits; simpl. rewrite lookup_insert. case_decide as D; [|done].
    split; [by intros [_ [? ?]]|]. intros [_ [g' H]]. apply C in H. lia. }
  open_life L. split; simpl; try assumption.
  - intros id f H. destruct (lf_fut_pending0 _ _ H). split; [lia|done].
  - intros id _ H. destruct (lf_running0 id) as (t & e & q & H1%A & H2); [done|done|]. by exists t, e, q.
  - intros t e id q H. apply (A t e id q) in H. by eapply lf_await0.
  - intros t e id q x H. apply (A t e id q) in H. by eapply lf_cancel0.
  - intros t w. rewrite lookup_insert. case_decide; [by intros [= <-]|apply lf_alive0].
Qed.

Lemma ensure_worker_statuses g s : statuses (ensure_worker g s) = statuses s.
Proof. unfold ensure_worker. by destruct (match group_workers s !! g with Some _ => _ | None => _ end). Qed.

Lemma life_submit ids req s :
  ctl_inv s -> life_inv ids None None s ->
  let p := submit_execution uuid4_hex utcnow req s in
  hd_run_id p.1 ∉ ids ->
  life_inv (ids ++ [hd_run_id p.1]) None None p.2 /\
  (forall id, id <> hd_run_id p.1 -> statuses p.2 !! id = statuses s !! id) /\
  statuses p.2 !! hd_run_id p.1 = Some StQueued.
Proof.
  intros C L. unfold submit_execution.
  set (q := match rq_request_id req with Some _ => _ | None => _ end).
  assert (life q.2 = life s /\ control q.2 = control s) as [Hp1 Hp2] by (unfold q; repeat case_match; done).
  destruct q as [r s1]. simpl in Hp1, Hp2. cbn [fst snd hd_run_id read_clock].
  intros Hr. symmetry in Hp1, Hp2.
  pose proof (life_inv_ext _ _ _ _ _ Hp1 L) as L1. pose proof (ctl_inv_ext _ _ Hp2 C) as C1.
  pose proof (life_submitted_state ids r req s1 C1 L1 Hr) as L2.
  set (g := rq_group_folder req) in *.
  match goal with |- life_inv _ _ _ (ensure_worker g ?x) /\ _ => set (s2 := x) end.
  assert (life s2 = life (submitted_state r req s1)) as E2 by done.
  pose proof (ensure_worker_statuses g s2) as ES.
  assert (statuses s = statuses s1) as E1 by (by injection Hp1).
  split; [|split].
  - symmetry in E2. apply (life_inv_ext _ _ _ _ _ E2) in L2.
    apply life_ensure_worker; [|done]. intros t w Ht. unfold s2 in *; simpl in *.
    apply (ci_worker_id s1 C1) in Ht. lia.
  - intros id Hid. rewrite ES, E1. unfold s2; simpl. by rewrite lookup_insert_ne.
  - rewrite ES. unfold s2; simpl. by rewrite lookup_insert_eq.
Qed.

(** ** Reachability in a sensible environment *)

Inductive good_reach : list (event * output) -> coordinator -> Prop :=
| good_init : good_reach [] init_coordinator
| good_step tr s ev out s' :
    good_reach tr s -> step backends max_runs uuid4_hex utcnow s ev = Some (out, s') ->
    sensible tr s ev out -> good_reach (tr ++ [(ev, out)]) s'.

Lemma good_reach_reach tr s :
  good_reach tr s -> reach backends max_runs uuid4_hex utcnow tr s.
Proof. induction 1; [constructor|by econstructor]. Qed.

Lemma good_reach_ctl tr s : good_reach tr s -> ctl_inv s.
Proof. intros R%good_reach_reach. by eapply reach_ctl_inv. Qed.

Lemma life_step tr s ev out s' :
  ctl_inv s -> life_inv (used tr) None None s ->
  step backends max_runs uuid4_hex utcnow s ev = Some (out, s') -> sensible tr s ev out ->
  life_inv (used (tr ++ [(ev, out)])) None None s' /\
  match out with
  | OHandle h => (forall id, id <> hd_run_id h -> statuses s' !! id = statuses s !! id) /\
                 statuses s !! hd_run_id h = None /\ statuses s' !! hd_run_id h = Some StQueued
  | _ => progress s s'
  end.
Proof.
  intros C L. unfold used. rewrite omap_app. fold (used tr).
  destruct ev as [req|r|f|t|i o]; simpl.
  - pose proof (life_submit (used tr) req s C L) as H. simpl in H.
    destruct (submit_execution _ _ req s) as [h s1]. intros [= <- <-] Hh. simpl in *.
    destruct (H Hh) as (H1 & H2 & H3). split; [done|]. split; [done|]. split; [|done].
    by destruct (lf_bound _ _ _ _ L _ Hh).
  - pose proof (life_cancel (used tr) r s C L) as H. destruct (cancel _ _ _ r s) as [b s1].
    intros [= <- <-] _. rewrite app_nil_r. exact H.
  - done.
  - destruct (run_worker _ _ _ _ t s) as [[o s1]|] eqn:E; [|done]. simpl. intros [= <- <-] _.
    rewrite app_nil_r. by eapply life_run_worker.
  - destruct (backend_step _ i o s) as [s1|] eqn:E; [|done]. simpl. intros [= <- <-] S.
    rewrite app_nil_r. by eapply life_backend_step.
Qed.

Lemma good_reach_life tr s : good_reach tr s -> life_inv (used tr) None None s.
Proof.
  induction 1 as [|tr s ev out s' R IH E S]; [apply life_inv_init|].
  eapply life_step; [by eapply good_reach_ctl|done..].
Qed.

(** ** Deciding sensible events, for concrete runs *)

Definition sensible_outcome_check (x : exec_task) (o : outcome) : bool :=
  match o with
  | BRaw raw => terminal (default StCompleted (raw_status raw))
  | BResult r => bool_decide (rs_run_id r = et_run_id x) && terminal (rs_status r)
  | BMalformed _ => false
  | BCancelled => et_cancel_requested x
  | _ => true
  end.

Definition sensible_check (tr : list (event * output)) (s : coordinator) (ev : event)
    (out : output) : bool :=
  match ev, out with
  | Submit _, OHandle h => bool_decide (hd_run_id h ∉ used tr)
  | WaiterCancelled _, _ => false
  | BackendStep i o, _ =>
      match exec_tasks s !! i with Some x => sensible_outcome_check x o | None => true end
  | _, _ => true
  end.

Lemma sensible_check_sound tr s ev out :
  sensible_check tr s ev out = true -> sensible tr s ev out.
Proof.
  destruct ev as [req|r|f|t|i o], out; simpl; try done; try (by intros H; bool_hyps).
  all: intros H x Hx; rewrite Hx in H; destruct o; simpl in *; try done;
    by apply andb_true_iff in H as [H1%bool_decide_eq_true H2].
Qed.

(** [run_events] in a sensible environment. *)
Fixpoint run_sensible (evs : list event) (tr : list (event * output)) (s : coordinator) :
    option (list (event * output) * coordinator) :=
  match evs with
  | [] => Some (tr, s)
  | ev :: evs' =>
      match step backends max_runs uuid4_hex utcnow s ev with
      | Some (out, s') =>
          if sensible_check tr s ev out then run_sensible evs' (tr ++ [(ev, out)]) s' else None
      | None => None
      end
  end.

Lemma run_sensible_good evs tr s tr' s' :
  good_reach tr s -> run_sensible evs tr s = Some (tr', s') -> good_reach tr' s'.
Proof.
  revert tr s. induction evs as [|ev evs IH]; intros tr s R; simpl.
  - intros H. by simplify_eq.
  - destruct (step _ _ _ _ s ev) as [[out s1]|] eqn:E; [|done].
    destruct (sensible_check tr s ev out) eqn:S; [|done]. apply IH.
    econstructor; [done..|]. by apply sensible_check_sound.
Qed.
End runs.
