(* ===== verification/CoordinatorLive.v ===== *)
(** * Liveness of the execution coordinator

    [work] bounds what the coordinator still does by itself: every segment of a
    worker and every outcome of a backend call decreases it. A pending future
    always leaves some such event possible, so in a sensible environment every
    submitted run is answered once the environment lets its events happen. *)

From stdpp Require Import base gmap strings list option sets.
From Stdlib Require Import ZArith Lia.
From S2P Require Import Prelude PyDict Workspace Execution Coordinator CoordinatorInv.
From S2P Require Import CoordinatorStore CoordinatorSafety CoordinatorLife CoordinatorRuns.

(** ** Sums over a map *)

Definition msum {K V} `{Countable K} (w : V -> nat) (m : gmap K V) : nat :=
  sum_list_with (fun e => w e.2) (map_to_list m).

Lemma msum_insert_new {K V} `{Countable K} (w : V -> nat) (m : gmap K V) k v :
  m !! k = None -> msum w (<[k := v]> m) = w v + msum w m.
Proof.
  intros E. unfold msum. by rewrite (map_to_list_insert m k v E).
Qed.

Lemma msum_insert {K V} `{Countable K} (w : V -> nat) (m : gmap K V) k v u :
  m !! k = Some u -> msum w (<[k := v]> m) + w u = msum w m + w v.
Proof.
  intros E. rewrite <- (insert_delete_id m k u E) at 2. rewrite <- (insert_delete_eq m k v).
  rewrite !msum_insert_new by apply lookup_delete_eq. lia.
Qed.

(** ** The measure *)

Definition exec_weight (x : exec_task) : nat :=
  match et_end x, et_phase x with
  | Some _, _ => 0
  | None, First => 2
  | None, Retry => 1
  end.

Definition worker_weight (w : worker) : nat := if worker_live w then 1 else 0.

Definition work (s : coordinator) : nat :=
  4 * msum length (group_queues s) + msum worker_weight (worker_tasks s)
  + msum exec_weight (exec_tasks s).

Lemma work_control s s' : control s = control s' -> work s = work s'.
Proof. unfold control, work. by intros [= -> _ -> -> _]. Qed.

Definition internal (ev : event) : bool :=
  match ev with RunWorker _ | BackendStep _ _ => true | _ => false end.

Section live.
Context {POL : ExecutionPolicyProtocol}.
Variable backends : list string.
Variable max_runs : nat.
Variable uuid4_hex : nat -> string.
Variable utcnow : nat -> Z.

Local Abbreviation step := (step backends max_runs uuid4_hex utcnow).
Local Abbreviation good_reach := (good_reach backends max_runs uuid4_hex utcnow).

(** ** The measure decreases *)

Lemma worker_loop_work t g q s :
  in_loop t g s -> default [] (group_queues s !! g) = q ->
  S (work (worker_loop backends max_runs uuid4_hex utcnow t g q s).2) <= work s.
Proof.
  revert s. induction q as [|[r req] q IH]; intros s I Hq; cbn [worker_loop].
  - destruct (il_worker _ _ _ I) as (st & Hst & L & _). unfold work; simpl.
    pose proof (msum_insert worker_weight _ t (mkWorker g WDone) _ Hst) as Hw.
    unfold worker_weight in Hw at 2 4. rewrite L in Hw. simpl in Hw.
    destruct (group_queues s !! g) as [q|] eqn:E; simpl in Hq.
    + subst q. pose proof (msum_insert length _ g [] _ E) as Hl. simpl in Hl. lia.
    + rewrite (msum_insert_new length _ g [] E). simpl. lia.
  - set (s1 := with_group_queues (<[g := q]> (group_queues s)) s).
    assert (in_loop t g s1) as I1
      by (apply in_loop_dequeue; [done|]; rewrite Hq; set_solver).
    assert (default [] (group_queues s1 !! g) = q) as Hq1 by (simpl; by rewrite lookup_insert_eq).
    assert (work s1 + 4 = work s) as W1.
    { apply queue_of_default in Hq; [|done]. unfold work, s1; simpl.
      pose proof (msum_insert length _ g q _ Hq) as Hl. simpl in Hl. lia. }
    destruct (match run_futures s1 !! r with Some _ => _ | None => _ end);
      [|specialize (IH s1 I1 Hq1); lia].
    pose proof (execute_request_head_control backends max_runs uuid4_hex utcnow r req s1) as C.
    destruct (execute_request_head _ _ _ _ r req s1) as [s2|[e s2]].
    + rewrite <- W1, <- (work_control _ _ C).
      assert (in_loop t g s2) as I2 by (by eapply in_loop_ext).
      specialize (IH s2 I2). rewrite (control_queues _ _ C) in IH. specialize (IH Hq1). lia.
    + destruct C as (-> & b & k & sid & C).
      destruct (il_worker _ _ _ I1) as (st & Hst & L & _).
      assert (exec_tasks s1 !! next_id s1 = None) as Hf.
      { apply eq_None_not_Some. intros [x H]. apply (ci_exec_id _ (il_inv _ _ _ I1)) in H. lia. }
      clearbody s1. cbn [snd]. unfold control in C; simpl in C. injection C as E1 _ E2 E3 _.
      unfold work in *; simpl. rewrite E1, E2, E3, (msum_insert_new exec_weight) by done.
      pose proof (msum_insert worker_weight _ t (mkWorker g (WAwait (next_id s1) r req)) _ Hst) as Hw.
      unfold worker_weight in Hw at 2 4. rewrite L in Hw. simpl in Hw. unfold exec_weight at 1. simpl. lia.
Qed.

Lemma run_worker_work t s o s' :
  ctl_inv s -> (forall t w, worker_tasks s !! t = Some w -> wk_state w <> WCrashed) ->
  run_worker backends max_runs uuid4_hex utcnow t s = Some (o, s') ->
  (forall t w, worker_tasks s' !! t = Some w -> wk_state w <> WCrashed) ->
  S (work s') <= work s.
Proof.
  intros I A. unfold run_worker. destruct (worker_tasks s !! t) as [w|] eqn:Hw; [|done].
  destruct (wk_state w) as [|e r req| |] eqn:Hst; try done.
  - pose proof (worker_loop_work t (wk_group w) _ s (in_loop_start t s w I Hw Hst) eq_refl) as H.
    unfold run_group_queue. destruct (worker_loop _ _ _ _ _ _ _ s). by intros [= <- <-].
  - destruct (exec_tasks s !! e) as [x|] eqn:Hx; [|done].
    destruct (et_end x) as [y|] eqn:Hy; [|done].
    assert (in_loop t (wk_group w) s) as L by (eapply in_loop_resume; eauto).
    destruct (execute_request_tail _ _ _ r req y s) as [s1|] eqn:Ht.
    + apply control_tail in Ht. rewrite <- (work_control _ _ Ht). symmetry in Ht.
      pose proof (worker_loop_work t (wk_group w) _ s1 (in_loop_ext _ _ _ _ Ht L) eq_refl) as H.
      unfold run_group_queue. destruct (worker_loop _ _ _ _ _ _ _ s1). by intros [= <- <-].
    + intros [= <- <-] Hc. exfalso. eapply (Hc t); [simpl; by rewrite lookup_insert_eq|done].
Qed.

Lemma backend_step_work i o s s' :
  backend_step uuid4_hex i o s = Some s' -> S (work s') <= work s.
Proof.
  unfold backend_step. destruct (exec_tasks s !! i) as [x|] eqn:Hx; [|done].
  destruct (et_end x) eqn:Hend; [done|].
  set (s1 := match o with BTimeout => _ | _ => _ end).
  assert (control s1 = control s) as C by (unfold s1; by destruct o). clearbody s1.
  assert (K : forall x' s2, control s2 = control s1 -> exec_weight x' < exec_weight x ->
    S (work (set_exec i x' s2)) <= work s).
  { intros x' s2 C2 Hlt. rewrite <- (work_control _ _ (eq_trans C2 C)).
    assert (exec_tasks s2 !! i = Some x) as Hx2
      by (by rewrite (control_execs _ _ C2), (control_execs _ _ C)).
    unfold work, set_exec; simpl. pose proof (msum_insert exec_weight _ i x' _ Hx2). lia. }
  assert (W : 1 <= exec_weight x) by (unfold exec_weight; rewrite Hend; destruct (et_phase x); lia).
  destruct (et_phase x) eqn:Hph, (backend_result x o) as [r|[[resume msg]|e]].
  all: try (intros [= <-]; apply K; [by rewrite ?control_commit|]; unfold exec_weight at 1; simpl; lia).
  destruct (should_retry_session_resume _ _ _);
    [|intros [= <-]; apply K; [done|]; unfold exec_weight at 1; simpl; lia].
  match goal with |- context [resolve_session_id ?u ?a ?b ?c ?d] =>
    pose proof (control_resolve_session u a b c d) as C';
    destruct (resolve_session_id u a b c d) as [sid s2] end.
  intros [= <-]. apply K; [exact C'|]. unfold exec_weight. rewrite Hend, Hph. simpl. lia.
Qed.

(** ** A live worker can continue *)

(** A registered worker that has not crashed can run, or awaits a backend call
    that is outstanding. *)
Lemma live_worker_continues t w s :
  ctl_inv s -> worker_tasks s !! t = Some w -> worker_live w = true ->
  is_Some (run_worker backends max_runs uuid4_hex utcnow t s) \/
  (exists e r req, wk_state w = WAwait e r req /\ active_in (wk_group w) e s /\
     forall o, is_Some (backend_step uuid4_hex e o s)).
Proof.
  intros R Hw Hl. unfold worker_live in Hl. unfold run_worker. rewrite Hw.
  destruct w as [g st]; simpl in *. destruct st as [|e r req| |]; try done.
  - left. destruct (run_group_queue _ _ _ _ _ _ _). by eexists.
  - destruct (ci_await s R _ _ _ _ _ Hw) as (x & Hx & Hr & Hreq & Hgr). rewrite Hx.
    destruct (et_end x) as [y|] eqn:Hend.
    + left. destruct (execute_request_tail _ _ _ r req y s); [|by eexists].
      destruct (run_group_queue _ _ _ _ _ _ _). by eexists.
    + right. exists e, r, req. split; [done|]. split; [exists x; naive_solver|].
      intros o. unfold backend_step. rewrite Hx, Hend.
      destruct (et_phase x), (backend_result x o) as [?|[[? ?]|?]]; try by eexists.
      case_match; [|by eexists]. destruct (resolve_session_id _ _ _ _ _). by eexists.
Qed.

(** ** Runs without interference *)

(** [n] events of workers and backends lead from one state to another. *)
Inductive internal_run (tr : list (event * output)) (s : coordinator) :
    nat -> list (event * output) -> coordinator -> Prop :=
| ir_nil : internal_run tr s 0 tr s
| ir_step n tr1 s1 ev out s2 :
    internal_run tr s n tr1 s1 -> internal ev = true -> step s1 ev = Some (out, s2) ->
    sensible tr1 s1 ev out -> internal_run tr s (S n) (tr1 ++ [(ev, out)]) s2.

(** No worker and no backend call can go on. *)
Definition quiescent (s : coordinator) : Prop :=
  forall ev, internal ev = true -> step s ev = None.

Lemma internal_run_trans tr s n tr1 s1 m tr2 s2 :
  internal_run tr s n tr1 s1 -> internal_run tr1 s1 m tr2 s2 -> internal_run tr s (m + n) tr2 s2.
Proof. intros H1. induction 1; [done|]. simpl. by econstructor. Qed.

Lemma internal_step_work tr s ev out s' :
  good_reach tr s -> internal ev = true -> step s ev = Some (out, s') -> sensible tr s ev out ->
  S (work s') <= work s.
Proof.
  intros R Hi E S. assert (good_reach (tr ++ [(ev, out)]) s') as R' by (by econstructor).
  apply good_reach_life in R' as L'. apply good_reach_life in R as L. apply good_reach_ctl in R.
  destruct ev as [| | |t|i o]; try done; simpl in E.
  - destruct (run_worker _ _ _ _ t s) as [[o s1]|] eqn:Ew; [|done]. injection E as <- <-.
    eapply run_worker_work; [done| |done|]; by eapply lf_alive.
  - destruct (backend_step _ i o s) eqn:Eb; [|done]. injection E as <- <-.
    by eapply backend_step_work.
Qed.

Lemma internal_run_good tr s n tr' s' :
  good_reach tr s -> internal_run tr s n tr' s' ->
  good_reach tr' s' /\ n + work s' <= work s /\ progress s s'.
Proof.
  intros R. induction 1 as [|n tr1 s1 ev out s2 _ IH Hi E S].
  - split; [done|]. split; [lia|]. by apply progress_shown.
  - destruct IH as (R1 & W1 & P1). split; [by econstructor|].
    pose proof (internal_step_work _ _ _ _ _ R1 Hi E S) as W2. split; [lia|].
    pose proof (life_step backends max_runs uuid4_hex utcnow tr1 s1 ev out s2
      (good_reach_ctl _ _ _ _ _ _ R1) (good_reach_life _ _ _ _ _ _ R1) E S) as [_ P2].
    assert (progress s1 s2) as P2'.
    { destruct ev; try done; simpl in E.
      - destruct (run_worker _ _ _ _ _ s1) as [[? ?]|]; [|done]. by injection E as <- <-.
      - destruct (backend_step _ _ _ s1); [|done]. by injection E as <- <-. }
    by transitivity s1.
Qed.

(** While a future is pending, a worker or a backend call can go on. *)
Lemma pending_enabled tr s f :
  good_reach tr s -> futures s !! f = Some FPending ->
  exists ev out s', internal ev = true /\ step s ev = Some (out, s') /\ sensible tr s ev out.
Proof.
  intros R Hf. pose proof (good_reach_life _ _ _ _ _ _ R) as L. apply good_reach_ctl in R as C.
  destruct (lf_no_orphan _ _ _ _ L _ Hf) as [id Hid].
  assert (exists t w, worker_tasks s !! t = Some w /\ worker_live w = true) as (t & w & Hw & Hl).
  { destruct (proj1 (lf_fut _ _ _ _ L id)) as [H|H]; [eauto|..].
    - destruct (lf_queued _ _ _ _ L id) as (req & Hin & _); [done..|].
      destruct (group_queues s !! rq_group_folder req) as [q|] eqn:Hq; [|by apply elem_of_nil in Hin].
      destruct (ci_work s C _ _ Hq) as [t Ht]; [by intros ->; apply elem_of_nil in Hin|].
      destruct (ci_registered s C _ _ Ht) as (w & Hw & _ & [Hl|Hc]); [eauto|].
      by destruct (lf_alive _ _ _ _ L _ _ Hw).
    - destruct (lf_running _ _ _ _ L id) as (t & e & req & [_ [g Hw]] & _); [done..|]. eauto. }
  destruct (live_worker_continues t w s C Hw Hl) as [[[o s'] H]|(e & r & req & _ & _ & H)].
  - exists (RunWorker t), (OStarted o), s'. simpl. by rewrite H.
  - destruct (H (BException "")) as [s' H']. exists (BackendStep e (BException "")), OUnit, s'.
    simpl. by rewrite H'.
Qed.

Lemma drains tr s :
  good_reach tr s ->
  exists n tr' s', internal_run tr s n tr' s' /\ forall f, futures s' !! f <> Some FPending.
Proof.
  remember (work s) as n eqn:Hn. assert (work s <= n) as Hle by lia. clear Hn.
  revert tr s Hle. induction n as [n IH] using lt_wf_ind. intros tr s Hle R.
  destruct (decide (map_Exists (fun _ fu => future_done fu = false) (futures s))) as [D|D].
  - destruct D as (f & [] & Hf & Hfd); try done.
    destruct (pending_enabled _ _ _ R Hf) as (ev & out & s1 & Hi & E & S).
    pose proof (internal_step_work _ _ _ _ _ R Hi E S) as W.
    destruct (IH (work s1) ltac:(lia) (tr ++ [(ev, out)]) s1) as (m & tr' & s' & H1 & H2);
      [done|by econstructor|].
    exists (m + 1), tr', s'. split; [|done]. eapply internal_run_trans; [|done].
    eapply ir_step; [constructor|done..].
  - exists 0, tr, s. split; [constructor|]. intros f Hf. apply D. by exists f, FPending.
Qed.

Lemma answered tr s n tr' s' id f :
  good_reach tr s -> internal_run tr s n tr' s' -> run_futures s !! id = Some f ->
  (forall f, futures s' !! f <> Some FPending) ->
  exists r, rs_run_id r = id /\ futures s' !! f = Some (FResult r).
Proof.
  intros R H Hid Hnp. destruct (internal_run_good _ _ _ _ _ R H) as (R' & _ & P).
  destruct (pr_future _ _ P _ _ Hid) as [Hid'|]; [|done].
  destruct (lf_fut_pending _ _ _ _ (good_reach_life _ _ _ _ _ _ R') _ _ Hid') as [_ Hp].
  by destruct (Hnp f).
Qed.

Lemma quiescent_no_pending tr s :
  good_reach tr s -> quiescent s -> forall f, futures s !! f <> Some FPending.
Proof.
  intros R Q f Hf. destruct (pending_enabled _ _ _ R Hf) as (ev & out & s' & Hi & E & _).
  by rewrite (Q ev Hi) in E.
Qed.
End live.
