(* ===== verification/CoordinatorProps.v ===== *)
(** * Properties of the execution coordinator

    The theorems about all reachable states, proved from the invariants of
    [CoordinatorInv.v] and [CoordinatorSafety.v], and the functional theorems
    about one segment: a failed session resume, an unknown backend. *)

From stdpp Require Import base gmap strings list option sets pretty.
From Stdlib Require Import ZArith Lia.
From S2P Require Import Prelude PyDict Workspace Execution Coordinator CoordinatorInv.
From S2P Require Import CoordinatorStore CoordinatorSafety CoordinatorLife CoordinatorRuns.
From S2P Require Import CoordinatorLive.

(** Two runs of group [g], the first handed to its backend. *)
Definition two_runs : list event :=
  [Submit (ex_request "g" "r1" None); Submit (ex_request "g" "r2" None); RunWorker 1].

Definition two_runs_state : coordinator :=
  match ex_run two_runs with Some (_, s) => s | None => init_coordinator end.
Definition two_runs_trace : list (event * output) :=
  match ex_run two_runs with Some (tr, _) => tr | None => [] end.

Lemma two_runs_reach :
  reach default_backends 256 ex_uuid ex_clock two_runs_trace two_runs_state.
Proof.
  apply (run_events_reach _ _ _ _ two_runs [] init_coordinator); [apply reach_init|].
  vm_compute. reflexivity.
Qed.

Lemma two_runs_good :
  good_reach default_backends 256 ex_uuid ex_clock two_runs_trace two_runs_state.
Proof.
  apply (run_sensible_good _ _ _ _ two_runs [] init_coordinator); [apply good_init|].
  vm_compute. reflexivity.
Qed.

Section props.
Context {POL : ExecutionPolicyProtocol}.
Variable backends : list string.
Variable max_runs : nat.
Variable uuid4_hex : nat -> string.
Variable utcnow : nat -> Z.

Local Abbreviation reach := (reach backends max_runs uuid4_hex utcnow).

(** C2: One active execution at a time per group. In every reachable state,
    whatever the backends return and whatever run ids are submitted, two
    execution tasks of one group whose backend calls are outstanding are the
    same task. *)
Theorem at_most_one_active_per_group tr s g e1 e2 :
  reach tr s -> active_in g e1 s -> active_in g e2 s -> e1 = e2.
Proof.
  intros R%reach_ctl_inv (x1 & H1 & E1 & G1) (x2 & H2 & E2 & G2).
  destruct (ci_exec s R _ _ H1 E1) as [t1 T1]. destruct (ci_exec s R _ _ H2 E2) as [t2 T2].
  pose proof (ci_live s R _ _ T1 eq_refl) as L1. pose proof (ci_live s R _ _ T2 eq_refl) as L2.
  simpl in L1, L2. rewrite G1 in L1. rewrite G2 in L2.
  assert (t1 = t2) as -> by congruence. congruence.
Qed.

(** C25: First in, first out. In every reachable state the run ids a group has
    handed to its backends followed by those still queued are, in this order,
    among the run ids submitted to the group: runs start in submission order
    and none is started twice or out of turn. *)
Theorem starts_in_submission_order tr s g :
  reach tr s -> started g tr ++ queued_ids g s `sublist_of` submitted g tr.
Proof.
  induction 1 as [|tr s ev out s' R IH E]; [apply sublist_nil|].
  by eapply step_fifo.
Qed.

(** No lost wake-up. Whenever the queue of a group is not empty, the group
    has a registered worker, and that worker can run now, or waits for an
    outstanding backend call every outcome of which lets the system continue,
    or has died of a [CancelledError] nobody requested. *)
Theorem queued_work_has_a_worker tr s g q :
  reach tr s -> group_queues s !! g = Some q -> q <> [] ->
  exists t w, group_workers s !! g = Some t /\ worker_tasks s !! t = Some w /\ wk_group w = g /\
    (is_Some (run_worker backends max_runs uuid4_hex utcnow t s) \/
     (exists e r req, wk_state w = WAwait e r req /\ active_in g e s /\
        forall o, is_Some (backend_step uuid4_hex e o s)) \/
     wk_state w = WCrashed).
Proof.
  intros R%reach_ctl_inv Hq Hne. destruct (ci_work s R _ _ Hq Hne) as [t Ht].
  destruct (ci_registered s R _ _ Ht) as (w & Hw & Hg & Hl). exists t, w.
  repeat split; try done. destruct Hl as [Hl|Hc]; [|by right; right].
  rewrite <- Hg. destruct (live_worker_continues backends max_runs uuid4_hex utcnow t w s R Hw Hl);
    auto.
Qed.

(** Bounded retention. In every reachable state at most
    [max_completed_runs] run ids are remembered as completed, and every stored
    result belongs to one of them, so the result cache cannot grow without
    bound. *)
Theorem completed_cache_bounded tr s :
  reach tr s ->
  length (completed_order s) <= max_runs /\
  forall r, is_Some (completed_results s !! r) -> r ∈ completed_order s.
Proof.
  induction 1 as [|tr s ev out s' R IH E].
  - split; [simpl; lia|]. intros r [y Hy]. simpl in Hy. by rewrite lookup_empty in Hy.
  - by eapply step_cache.
Qed.

(** A failed session resume is retried once, with a new session. When the
    first backend call of a resumable run fails with [SessionResumeFailedError],
    the workspace forgets its session, the run is called again with a newly
    drawn session id of its workspace, the snapshot records the attempt, and
    whatever the second call gives ends the task: there is no third call. *)
Theorem resume_failure_retries_once i x msg s :
  exec_tasks s !! i = Some x -> et_end x = None -> et_phase x = First ->
  et_backend x = "openai_runtime" -> rq_fresh_session (et_request x) = false ->
  et_workspace_key x = request_workspace_key (et_request x) ->
  exists s1,
    backend_step uuid4_hex i (BRuntimeError true msg) s = Some s1 /\
    (exists y, exec_tasks s1 !! i = Some y /\ et_phase y = Retry /\ et_end y = None /\
       et_run_id y = et_run_id x /\
       et_session_id y = default_new_session_id uuid4_hex (uuid_draws s) (et_workspace_key x)) /\
    wss_session_id (get_state (session_states s1) (et_workspace_key x)) = None /\
    sn_recovery_attempted <$> od_get (et_run_id x) (run_snapshots s1) =
      (fun _ => true) <$> od_get (et_run_id x) (run_snapshots s) /\
    forall o s2, backend_step uuid4_hex i o s1 = Some s2 ->
      exists z, exec_tasks s2 !! i = Some z /\ et_end z <> None.
Proof.
  intros Hx Hend Hph Hb Hf Hk. unfold backend_step at 1. rewrite Hx, Hend, Hph. simpl.
  unfold should_retry_session_resume, uses_workspace_session.
  rewrite Hf, Hb, bool_decide_eq_true_2 by done. simpl.
  unfold resolve_session_id, uses_workspace_session.
  rewrite bool_decide_eq_true_2 by done. rewrite <- Hk. simpl.
  rewrite preview_invalidated. simpl. eexists. split; [done|]. split; [|split; [|split]].
  - eexists. simpl. rewrite lookup_insert_eq. repeat split.
  - simpl. by rewrite get_state_invalidate.
  - simpl. rewrite od_get_update, decide_True by done. by destruct (od_get _ _).
  - intros o s2. unfold backend_step. simpl. rewrite lookup_insert_eq. simpl.
    destruct (backend_result _ o) as [?|[[? ?]|?]]; intros [= <-]; simpl;
      rewrite lookup_insert_eq; by eexists.
Qed.


(** ** The life of a run in a sensible environment *)

Local Abbreviation good_reach := (good_reach backends max_runs uuid4_hex utcnow).

(** C1: Every run is answered. In every state of a sensible environment, the
    workers and the backends can only go on for [work s] more events, whatever
    they do; when they cannot go on, the future of every run that had one in [s]
    carries a result of that run; and such a completion exists. *)
Theorem every_run_is_answered tr s :
  good_reach tr s ->
  (forall n tr' s', internal_run backends max_runs uuid4_hex utcnow tr s n tr' s' ->
     n <= work s /\
     (quiescent backends max_runs uuid4_hex utcnow s' ->
      forall id f, run_futures s !! id = Some f ->
        exists r, rs_run_id r = id /\ futures s' !! f = Some (FResult r))) /\
  (exists n tr' s', internal_run backends max_runs uuid4_hex utcnow tr s n tr' s' /\
     forall id f, run_futures s !! id = Some f ->
       exists r, rs_run_id r = id /\ futures s' !! f = Some (FResult r)).
Proof.
  intros R. split.
  - intros n tr' s' H. destruct (internal_run_good _ _ _ _ _ _ _ _ _ R H) as (R' & W & _).
    split; [lia|]. intros Q id f Hid. eapply (answered _ _ _ _ tr s n tr' s' id f R H Hid).
    by eapply quiescent_no_pending.
  - destruct (drains _ _ _ _ _ _ R) as (n & tr' & s' & H & Hnp). exists n, tr', s'.
    split; [done|]. intros id f Hid. eapply (answered _ _ _ _ tr s n tr' s' id f R H Hid Hnp).
Qed.

(** The status of a run only moves forward. In a sensible environment an
    event leaves an unknown run unknown unless it submits it, which makes it
    [queued]; a [running] run never becomes [queued] again; and a terminal status
    stays until the run is evicted. *)
Theorem status_moves_forward tr s ev out s' id :
  good_reach tr s -> step backends max_runs uuid4_hex utcnow s ev = Some (out, s') ->
  sensible tr s ev out ->
  match out with
  | OHandle h =>
      if decide (id = hd_run_id h)
      then get_status id s = None /\ get_status id s' = Some StQueued
      else get_status id s' = get_status id s
  | _ => advance (get_status id s) (get_status id s')
  end.
Proof.
  intros R E S. pose proof (life_step _ _ _ _ _ _ _ _ _ (good_reach_ctl _ _ _ _ _ _ R)
    (good_reach_life _ _ _ _ _ _ R) E S) as [_ H]. unfold get_status.
  destruct out as [h| | |]; [|by apply (pr_status _ _ H)..].
  destruct H as (H1 & H2). case_decide as D; [by rewrite D|by apply H1].
Qed.

(** What is left once the result of an unfinished run is stored. *)
Lemma store_unfinished ids cur skip s res :
  0 < max_runs -> life_inv ids cur skip s -> nonterm (statuses s !! rs_run_id res) ->
  let s' := store_terminal_result max_runs utcnow res s in
  get_status (rs_run_id res) s' = Some (rs_status res) /\
  wait_for_run (rs_run_id res) s' = WaitResult res /\
  exists f, run_futures s !! rs_run_id res = Some f /\ futures s' !! f = Some (FResult res).
Proof.
  intros Hm L N s'. unfold get_status, wait_for_run, s'.
  rewrite store_status, store_result.
  assert (rs_run_id res ∉ evicted max_runs (completed_order s ++ [rs_run_id res])) as HE
    by (apply evicted_app_last; [lia|]; intros H; by apply (lf_done _ _ _ _ L) in H).
  destruct (decide (_ ∈ evicted _ _)) as [|_]; [done|].
  destruct (decide (rs_run_id res = _)) as [_|]; [|done]. split; [done|]. split; [done|].
  apply (lf_fut _ _ _ _ L) in N as [f Hf]. exists f. split; [done|].
  rewrite store_futures, Hf. destruct (lf_fut_pending _ _ _ _ L _ _ Hf) as [_ ->].
  by rewrite decide_True.
Qed.

(** Cancellation. In a sensible environment [cancel] never raises. On a
    queued or running run it returns true; the run is then [cancelled], its
    result is what waiters and later queries get, a running run's backend is
    told once, and a second [cancel] returns false and changes nothing. On any
    other run it returns false and changes nothing. *)
Theorem cancel_run tr s r :
  good_reach tr s -> 0 < max_runs ->
  (nonterm (get_status r s) ->
   exists s' res,
     cancel max_runs uuid4_hex utcnow r s = (Some true, s') /\
     rs_run_id res = r /\ rs_status res = StCancelled /\
     get_status r s' = Some StCancelled /\ wait_for_run r s' = WaitResult res /\
     (exists f, run_futures s !! r = Some f /\ futures s' !! f = Some (FResult res)) /\
     backend_cancels s' = backend_cancels s ++
       match get_status r s, running_backends s !! r with
       | Some StRunning, Some b => [(b, r)]
       | _, _ => []
       end /\
     cancel max_runs uuid4_hex utcnow r s' = (Some false, s')) /\
  (~ nonterm (get_status r s) -> cancel max_runs uuid4_hex utcnow r s = (Some false, s)).
Proof.
  intros R Hm. pose proof (good_reach_life _ _ _ _ _ _ R) as L. unfold get_status. split.
  - intros N. destruct (cancel_unfinished max_runs uuid4_hex utcnow _ r s
      (good_reach_ctl _ _ _ _ _ _ R) L N) as (s2 & res & skip & E & <- & Hst & L2 & _ & Hs & _).
    assert (statuses s = statuses s2) as Hs1 by (by injection Hs).
    assert (run_futures s = run_futures s2) as Hs2 by (by injection Hs).
    rewrite Hs1 in N. destruct (store_unfinished _ _ _ _ _ Hm L2 N) as (H1 & H2 & f & H3 & H4).
    generalize dependent (store_terminal_result max_runs utcnow res s2). intros s3 E H1 H2 H4.
    eexists. exists res. split; [exact E|]. clear E. rewrite Hst in H1. split; [done|].
    split; [done|]. split; [exact H1|]. split; [exact H2|]. split; [|split; [done|]].
    + exists f. by rewrite Hs2.
    + apply cancel_finished. intros N'. change (nonterm (get_status (rs_run_id res) s3)) in N'.
      rewrite H1 in N'. by destruct N'.
  - apply cancel_finished.
Qed.

Lemma peek_order req b s :
  completed_order (peek_session_id uuid4_hex req b s).2 = completed_order s.
Proof.
  unfold peek_session_id. pose proof (life_resolve_session uuid4_hex req b (rq_fresh_session req) s).
  by injection H.
Qed.

(** Starting a run. With a policy that only names wired backends, the head
    of [_execute_request] hands the run to the backend the policy selects, with
    status [running], or, when the policy raises, stores its message as a
    [failed] result in the run's own slot; it never reports an unknown backend. *)
Theorem start_outcome `{!PolicyCovers backends} r req s :
  0 < max_runs -> r ∉ completed_order s ->
  match execute_request_head backends max_runs uuid4_hex utcnow r req s with
  | inr (e, s') =>
      exists b x, select_backend_name req = Ok b /\ b ∈ backends /\
        get_status r s' = Some StRunning /\ running_backends s' !! r = Some b /\
        exec_tasks s' !! e = Some x /\ et_backend x = b /\ et_request x = req /\
        et_run_id x = r /\ et_end x = None
  | inl s' =>
      exists msg res, select_backend_name req = Err msg /\ wait_for_run r s' = WaitResult res /\
        rs_status res = StFailed /\ rs_error res = Some msg /\ rs_slot_id res = rq_slot_id req
  end.
Proof.
  intros Hm Hr. unfold execute_request_head.
  destruct (select_backend_name req) as [b|msg] eqn:E.
  - pose proof (policy_covers req b E) as Hb. rewrite bool_decide_eq_true_2 by done.
    destruct (peek_session_id _ _ _ _) as [sid s1].
    assert (F : forall s0, statuses (mark_running utcnow r b sid s0) = statuses s0)
      by (intros s0; unfold mark_running; by destruct (od_get _ _)).
    exists b. eexists. split; [done|]. split; [done|]. unfold get_status. simpl.
    rewrite F. simpl. rewrite !lookup_insert_eq. by repeat split.
  - pose proof (peek_order req "unknown" s) as Ho.
    destruct (peek_session_id _ _ _ _) as [sid s1]. simpl in Ho. exists msg.
    eexists. split; [done|]. unfold wait_for_run. rewrite store_result. simpl. rewrite Ho.
    rewrite decide_False by (apply evicted_app_last; [lia|done]). by rewrite decide_True.
Qed.

(** The slot of an unknown backend. When the policy names a backend that
    is not wired, the stored result claims slot [main], whatever slot the
    request named: [_build_result] is called without the request's slot. *)
Theorem unknown_backend_slot r req b s :
  0 < max_runs -> r ∉ completed_order s ->
  select_backend_name req = Ok b -> b ∉ backends ->
  exists s' res,
    execute_request_head backends max_runs uuid4_hex utcnow r req s = inl s' /\
    wait_for_run r s' = WaitResult res /\ rs_status res = StFailed /\ rs_slot_id res = "main".
Proof.
  intros Hm Hr E Hb. unfold execute_request_head. rewrite E, bool_decide_eq_false_2 by done.
  pose proof (peek_order req b s) as Ho.
  destruct (peek_session_id _ _ _ _) as [sid s1]. simpl in Ho. eexists. eexists. split; [done|].
  unfold wait_for_run. rewrite store_result. simpl. rewrite Ho.
  rewrite decide_False by (apply evicted_app_last; [lia|done]). by rewrite decide_True.
Qed.
End props.

(** ** Witnesses *)

Lemma two_runs_active : active_in "g" 3 two_runs_state.
Proof. eexists. split; [vm_compute; reflexivity|]. by split. Qed.

Lemma at_most_one_active_per_group_witness :
  active_in "g" 3 two_runs_state /\ ~ active_in "g" 4 two_runs_state.
Proof.
  split; [exact two_runs_active|]. intros H.
  pose proof (at_most_one_active_per_group default_backends 256 ex_uuid ex_clock _ _ "g" 3 4
    two_runs_reach two_runs_active H) as E. discriminate E.
Defined.

Lemma starts_in_submission_order_witness :
  started "g" two_runs_trace = ["r1"] /\ queued_ids "g" two_runs_state = ["r2"] /\
  ["r1"; "r2"] `sublist_of` submitted "g" two_runs_trace.
Proof.
  split; [vm_compute; reflexivity|]. split; [vm_compute; reflexivity|].
  exact (starts_in_submission_order default_backends 256 ex_uuid ex_clock _ _ "g" two_runs_reach).
Defined.

Lemma queued_work_has_a_worker_witness :
  exists t w, group_workers two_runs_state !! "g" = Some t /\
    worker_tasks two_runs_state !! t = Some w /\ wk_group w = "g" /\
    (is_Some (run_worker default_backends 256 ex_uuid ex_clock t two_runs_state) \/
     (exists e r req, wk_state w = WAwait e r req /\ active_in "g" e two_runs_state /\
        forall o, is_Some (backend_step ex_uuid e o two_runs_state)) \/
     wk_state w = WCrashed).
Proof.
  eapply (queued_work_has_a_worker default_backends 256 ex_uuid ex_clock _ _ "g" _ two_runs_reach);
    [vm_compute; reflexivity|discriminate].
Defined.

Lemma completed_cache_bounded_witness :
  length (completed_order two_runs_state) <= 256 /\
  forall r, is_Some (completed_results two_runs_state !! r) -> r ∈ completed_order two_runs_state.
Proof. exact (completed_cache_bounded default_backends 256 ex_uuid ex_clock _ _ two_runs_reach). Defined.

Lemma resume_failure_retries_once_witness :
  exists s1, backend_step ex_uuid 3 (BRuntimeError true "gone") two_runs_state = Some s1.
Proof.
  assert (exists x, exec_tasks two_runs_state !! 3 = Some x /\ et_end x = None /\
    et_phase x = First /\ et_backend x = "openai_runtime" /\
    rq_fresh_session (et_request x) = false /\
    et_workspace_key x = request_workspace_key (et_request x)) as (x & H1 & H2 & H3 & H4 & H5 & H6).
  { eexists. split; [vm_compute; reflexivity|]. repeat split. }
  destruct (resume_failure_retries_once ex_uuid 3 x "gone" two_runs_state H1 H2 H3 H4 H5 H6)
    as (s1 & E & _). by exists s1.
Defined.

Lemma every_run_is_answered_witness :
  run_futures two_runs_state !! "r2" = Some 2 /\
  exists n tr' s', internal_run default_backends 256 ex_uuid ex_clock two_runs_trace two_runs_state
      n tr' s' /\ exists r, rs_run_id r = "r2" /\ futures s' !! 2 = Some (FResult r).
Proof.
  assert (run_futures two_runs_state !! "r2" = Some 2) as H by (vm_compute; reflexivity).
  split; [exact H|].
  destruct (every_run_is_answered default_backends 256 ex_uuid ex_clock _ _ two_runs_good)
    as [_ (n & tr' & s' & H1 & H2)]. exists n, tr', s'. split; [exact H1|]. exact (H2 _ _ H).
Defined.

Lemma status_moves_forward_witness :
  exists s', step default_backends 256 ex_uuid ex_clock two_runs_state (Cancel "r1") =
    Some (OBool (Some true), s') /\ advance (get_status "r1" two_runs_state) (get_status "r1" s').
Proof.
  assert (exists s', step default_backends 256 ex_uuid ex_clock two_runs_state (Cancel "r1") =
    Some (OBool (Some true), s')) as [s' E] by (eexists; vm_compute; reflexivity).
  exists s'. split; [exact E|].
  exact (status_moves_forward default_backends 256 ex_uuid ex_clock _ _ (Cancel "r1") _ s' "r1"
    two_runs_good E I).
Defined.

Lemma cancel_run_witness :
  exists s', cancel 256 ex_uuid ex_clock "r1" two_runs_state = (Some true, s') /\
    get_status "r1" s' = Some StCancelled /\ backend_cancels s' = [("openai_runtime", "r1")].
Proof.
  destruct (cancel_run default_backends 256 ex_uuid ex_clock _ _ "r1" two_runs_good ltac:(lia))
    as [H _].
  destruct H as (s' & res & H1 & _ & _ & H2 & _ & _ & H3 & _); [right; vm_compute; reflexivity|].
  exists s'. split; [exact H1|]. split; [exact H2|]. rewrite H3. vm_compute. reflexivity.
Defined.

Lemma start_outcome_witness :
  exists msg, policy_select (ex_request "g" "r3" (Some "nope")) = Err msg /\
  exists s' res, execute_request_head default_backends 256 ex_uuid ex_clock "r3"
      (ex_request "g" "r3" (Some "nope")) two_runs_state = inl s' /\
    wait_for_run "r3" s' = WaitResult res /\ rs_error res = Some msg.
Proof.
  pose proof (start_outcome default_backends 256 ex_uuid ex_clock "r3"
    (ex_request "g" "r3" (Some "nope")) two_runs_state ltac:(lia)
    ltac:(by vm_compute; intros H%elem_of_nil)) as H.
  destruct (execute_request_head _ _ _ _ _ _ _) as [s'|[e s']].
  - destruct H as (msg & res & H1 & H2 & _ & H3 & _). exists msg. split; [exact H1|].
    exists s', res. by repeat split.
  - exfalso. destruct H as (b & x & H & _). vm_compute in H. discriminate.
Defined.

Lemma unknown_backend_slot_witness :
  exists s' res, execute_request_head [] 256 ex_uuid ex_clock "r1"
      (mkRequest "g" "web:chat" "u1" "hi" SrcWeb "slot-a" None None false (Some "r1") None)
      init_coordinator = inl s' /\
    wait_for_run "r1" s' = WaitResult res /\ rs_status res = StFailed /\ rs_slot_id res = "main".
Proof.
  apply (unknown_backend_slot [] 256 ex_uuid ex_clock "r1" _ "openai_runtime");
    [lia|apply not_elem_of_nil|vm_compute; reflexivity|apply not_elem_of_nil].
Defined.

(** ** Corner cases, on concrete runs *)

(** The status of a run and what a caller waiting for it gets. *)
Definition ex_view (id : string) (evs : list event) : option (option ExecutionStatus * wait_reply) :=
  (fun '(_, s) => (get_status id s, wait_for_run id s)) <$> ex_run evs.

(** Cancelling the task that waits for a queued run cancels the run's future,
    so the worker drops the run: it stays [queued] for ever, and later waiters
    get a cancelled future. *)
Example waiter_cancellation_strands_the_run :
  ex_view "r2" (two_runs ++ [WaiterCancelled 2; BackendStep 3 (BRaw (mkRaw None None None None));
                             RunWorker 1]) =
  Some (Some StQueued, WaitFuture 2) /\
  (x ← ex_run (two_runs ++ [WaiterCancelled 2; BackendStep 3 (BRaw (mkRaw None None None None));
                             RunWorker 1]);
   Some (futures x.2 !! 2, queued_ids "g" x.2, group_workers x.2 !! "g")) =
  Some (Some FCancelled, [], None).
Proof. split; vm_compute; reflexivity. Qed.

(** Submitting a request id whose run has not ended replaces its future: the
    first waiter is never answered, and the second submission is answered with
    the result of the first and never executed. *)
Example resubmission_orphans_the_first_waiter :
  (x ← ex_run [Submit (ex_request "g" "r1" None); Submit (ex_request "g" "r1" None); RunWorker 1;
               BackendStep 3 (BRaw (mkRaw None None None None)); RunWorker 1];
   Some (futures x.2 !! 0, rs_status <$> match futures x.2 !! 2 with
                                         | Some (FResult r) => Some r | _ => None end,
         queued_ids "g" x.2, started "g" x.1)) =
  Some (Some FPending, Some StCompleted, [], ["r1"]).
Proof. vm_compute. reflexivity. Qed.
