(* ===== verification/Scheduler.v ===== *)
(** * The task scheduler and its service ([services/scheduler.py],
    [services/task_service.py], [services/task_log_service.py])

    [TaskScheduler] keeps scheduled tasks, runs those that are due and computes
    when they are due next; [TaskService] validates new tasks, is the scheduler's
    executor and logs what each execution gave. An execution awaits the
    coordinator, so a polling round and the polling loop are processes: [step]
    goes from one suspension (an execution, the loop's sleep) to the next.

    Tasks are objects with identities: a round keeps the objects it found due,
    whatever happens to the dictionary meanwhile. [cron_next] stands for the
    [croniter] package. *)

From stdpp Require Import base gmap strings list option sorting sets.
From Stdlib Require Import ZArith Lia Ascii.
From S2P Require Import Prelude PyStr PyInt PySort PyDict Execution.

(** ** Data *)

Record ScheduledTask := mkTask {
  st_id : string;
  st_group_folder : string;
  st_chat_jid : string;
  st_prompt : string;
  st_execution_mode : option string;
  st_schedule_type : string;
  st_schedule_value : option string;
  st_next_run : option Z;
  st_status : string;
  st_created_at : Z
}.

Record TaskRunLog := mkLog {
  lg_id : Z;
  lg_task_id : string;
  lg_run_at : Z;
  lg_duration_ms : Z;
  lg_status : string;
  lg_result : option string;
  lg_error : option string
}.

(** The exceptions of the two services: a [ValueError], an [OverflowError] of
    the datetime arithmetic. *)
Inductive task_error := TaskValueError (msg : string) | TaskOverflowError.

Definition set_next_run (n : option Z) (t : ScheduledTask) : ScheduledTask :=
  mkTask (st_id t) (st_group_folder t) (st_chat_jid t) (st_prompt t) (st_execution_mode t)
    (st_schedule_type t) (st_schedule_value t) n (st_status t) (st_created_at t).
Definition set_status (st : string) (t : ScheduledTask) : ScheduledTask :=
  mkTask (st_id t) (st_group_folder t) (st_chat_jid t) (st_prompt t) (st_execution_mode t)
    (st_schedule_type t) (st_schedule_value t) (st_next_run t) st (st_created_at t).

(** ** The log service *)

Record task_logs := mkLogs { tl_next_id : Z; tl_logs : gmap string (list TaskRunLog) }.

Definition init_logs : task_logs := mkLogs 1 ∅.

(** [record_log]; [run_at] is normalized by the caller's [datetime] value. *)
Definition record_log (task_id : string) (run_at : datetime) (duration_ms : Z) (status : string)
    (result_ error : option string) (l : task_logs) : task_logs :=
  let log := mkLog (tl_next_id l) task_id (utc_wall run_at) duration_ms status result_ error in
  mkLogs (tl_next_id l + 1)%Z
    (<[task_id := default [] (tl_logs l !! task_id) ++ [log]]> (tl_logs l)).

(** [list_logs] for a non-negative limit. *)
Definition list_logs (task_id : string) (limit : nat) (l : task_logs) : list TaskRunLog :=
  take limit (py_sorted_rev (fun g => (lg_run_at g, lg_id g)) (default [] (tl_logs l !! task_id))).

(** ** Schedules *)

Section schedules.
(** [croniter(expression, start)] accepts the expression; its [get_next]. *)
Variable cron_valid : string -> bool.
Variable cron_next : string -> Z -> option Z.

(** [_parse_interval_seconds]. *)
Definition parse_interval_seconds (v : option string) : result task_error Z :=
  match v with
  | None => raise (TaskValueError "interval tasks require schedule_value")
  | Some s =>
      match parse_int s with
      | None => raise (TaskValueError ("invalid interval schedule: " +:+ s))
      | Some n => if (n <=? 0)%Z then raise (TaskValueError ("invalid interval schedule: " +:+ s))
                  else Ok n
      end
  end.

(** [_parse_cron_expression]. *)
Definition parse_cron_expression (v : option string) : result task_error string :=
  match v with
  | None => raise (TaskValueError "cron tasks require schedule_value")
  | Some s => if bool_decide (strip s = "")
              then raise (TaskValueError "cron tasks require schedule_value") else Ok s
  end.

Definition unsupported_schedule (ty : string) : task_error :=
  TaskValueError ("unsupported schedule type: " +:+ ty).

(** [croniter(expression, start)], which refuses a bad expression. *)
Definition make_cron (e : string) : result task_error unit :=
  if cron_valid e then Ok tt else raise (TaskValueError "invalid cron expression").

(** [croniter(expression, start).get_next(datetime)]. *)
Definition next_cron (e : string) (start : Z) : result task_error Z :=
  _ ← make_cron e;
  match cron_next e start with
  | Some t => Ok t
  | None => raise (TaskValueError "no next cron date")
  end.

(** [_validate_task]. *)
Definition validate_task (t : ScheduledTask) : result task_error unit :=
  let ty := st_schedule_type t in
  if bool_decide (ty = "interval") then _ ← parse_interval_seconds (st_schedule_value t); Ok tt
  else if bool_decide (ty = "cron") then
    e ← parse_cron_expression (st_schedule_value t); make_cron e
  else if bool_decide (ty = "once") then
    match st_next_run t with
    | None => raise (TaskValueError "once tasks require next_run")
    | Some _ => Ok tt
    end
  else raise (unsupported_schedule ty).

(** The time plus an interval in seconds. *)
Definition after_interval (now n : Z) : result task_error Z :=
  match timedelta_seconds n with
  | None => raise TaskOverflowError
  | Some d => match datetime_add now d with None => raise TaskOverflowError | Some u => Ok u end
  end.

(** [_initialize_next_run] at the time [now]. *)
Definition initialize_next_run (now : Z) (t : ScheduledTask) : result task_error ScheduledTask :=
  if negb (bool_decide (st_status t = "active")) || bool_decide (is_Some (st_next_run t)) then Ok t
  else if bool_decide (st_schedule_type t = "interval") then
    n ← parse_interval_seconds (st_schedule_value t);
    u ← after_interval now n; Ok (set_next_run (Some u) t)
  else if bool_decide (st_schedule_type t = "cron") then
    e ← parse_cron_expression (st_schedule_value t);
    u ← next_cron e now; Ok (set_next_run (Some u) t)
  else Ok t.

(** The loop [while next_run <= now: next_run += interval]. *)
Fixpoint advance_interval (fuel : nat) (now interval next_run : Z) : result task_error Z :=
  if (next_run <=? now)%Z then
    match fuel with
    | O => raise TaskOverflowError
    | S fuel' =>
        match datetime_add next_run interval with
        | None => raise TaskOverflowError
        | Some u => advance_interval fuel' now interval u
        end
    end
  else Ok next_run.

(** The number of rounds is at most [(now - next_run) / interval + 1]. *)
Definition interval_fuel (now interval next_run : Z) : nat :=
  Z.to_nat ((now - next_run) / interval + 1).

(** [_compute_next_run], when the clock gives [now0] and then [now]. *)
Definition compute_next_run (now0 now : Z) (t : ScheduledTask) : result task_error (option Z) :=
  let anchor := default now0 (st_next_run t) in
  let ty := st_schedule_type t in
  if bool_decide (ty = "interval") then
    n ← parse_interval_seconds (st_schedule_value t);
    match timedelta_seconds n with
    | None => raise TaskOverflowError
    | Some d => u ← advance_interval (interval_fuel now d anchor) now d anchor; Ok (Some u)
    end
  else if bool_decide (ty = "cron") then
    e ← parse_cron_expression (st_schedule_value t);
    u ← next_cron e anchor; Ok (Some u)
  else if bool_decide (ty = "once") then Ok None
  else raise (unsupported_schedule ty).

(** [_mark_task_after_success]. *)
Definition mark_task_after_success (now0 now : Z) (t : ScheduledTask) :
    result task_error ScheduledTask :=
  if bool_decide (st_schedule_type t = "once") then Ok (set_next_run None (set_status "completed" t))
  else n ← compute_next_run now0 now t; Ok (set_next_run n t).
End schedules.

(** [_is_due]. *)
Definition is_due (now : Z) (t : ScheduledTask) : bool :=
  bool_decide (st_status t = "active") &&
  match st_next_run t with Some n => (n <=? now)%Z | None => false end.

(** The key [(task.next_run or datetime.max, task.id)]. *)
Definition schedule_key (t : ScheduledTask) : Z * string :=
  (default datetime_max (st_next_run t), st_id t).

(** ** Arguments of a new task *)

(** [_normalize_schedule_value]. *)
Definition normalize_schedule_value (schedule_type : string) (v : option string) :
    result task_error (option string) :=
  match v with
  | None => Ok None
  | Some s =>
      let s := strip s in
      if bool_decide (s = "") then Ok None
      else if bool_decide (schedule_type = "once")
      then raise (TaskValueError "once tasks do not accept schedule_value")
      else Ok (Some s)
  end.

(** [_normalize_execution_mode]. *)
Definition normalize_execution_mode (m : option string) : result task_error (option string) :=
  match m with
  | None => Ok None
  | Some s => if bool_decide (s ∈ ["openai"; "host"; "container"]) then Ok (Some s)
              else raise (TaskValueError ("unsupported execution mode: " +:+ s))
  end.

(** ** The outcome of an execution *)

(** What awaiting the coordinator gives: the run's result, another exception,
    or a [CancelledError]. *)
Inductive task_outcome := ORan (r : ExecutionResult) | ORaised (msg : string) | OCancelled.

Definition or_text (o : option string) (d : string) : string :=
  match o with Some s => if bool_decide (s = "") then d else s | None => d end.

(** [_coerce_execution_result]: the text, or whether the exception is the one
    for timeouts, with its message. *)
Definition coerce_execution_result (r : ExecutionResult) : result (bool * string) (option string) :=
  match rs_status r with
  | StCompleted => Ok (rs_final_output r)
  | StTimeout => raise (true, or_text (rs_error r) "execution timed out")
  | StCancelled => raise (false, or_text (rs_error r) "cancelled")
  | _ => raise (false, or_text (rs_error r) "execution failed")
  end.

(** What [_execute_task] logs: nothing when it is cancelled. *)
Definition outcome_log (o : task_outcome) : option (string * option string * option string) :=
  match o with
  | ORan r => match coerce_execution_result r with
              | Ok out => Some ("success", out, None)
              | Err (true, msg) => Some ("timeout", None, Some msg)
              | Err (false, msg) => Some ("error", None, Some msg)
              end
  | ORaised msg => Some ("error", None, Some msg)
  | OCancelled => None
  end.

Definition outcome_ok (o : task_outcome) : bool :=
  match o with ORan r => is_ok (coerce_execution_result r) | _ => false end.

(** The request of [_execute_via_coordinator]. *)
Definition task_request (uuid_hex : string) (t : ScheduledTask) : ExecutionRequest :=
  mkRequest (st_group_folder t) (st_chat_jid t) "scheduled-task" (st_prompt t) SrcScheduled "main"
    (st_execution_mode t) None false (Some (st_id t +:+ "-" +:+ uuid_hex)) None.

(** ** State

    A process is a round of [run_pending], by itself or of the polling loop
    ([start]), that awaits the execution of [cur], with the objects still to
    run; or the loop asleep. *)

Inductive proc :=
| PRound (loop : bool) (cur : nat) (run_at : datetime) (started_at : Z) (rest : list nat)
| PSleep.

Record scheduler := mkScheduler {
  sd_heap : gmap nat ScheduledTask;
  sd_tasks : list (string * nat);
  sd_running_ids : gset string;
  sd_running : bool;
  sd_procs : gmap nat proc;
  sd_logs : task_logs;
  sd_requests : list ExecutionRequest;
  sd_next : nat;
  sd_uuids : nat;
  sd_clock : nat;
  sd_perf : nat
}.

Definition init_scheduler : scheduler := mkScheduler ∅ [] ∅ false ∅ init_logs [] 0 0 0 0.

Definition with_store (h : gmap nat ScheduledTask) (d : list (string * nat)) (s : scheduler) :=
  mkScheduler h d (sd_running_ids s) (sd_running s) (sd_procs s) (sd_logs s) (sd_requests s)
    (sd_next s) (sd_uuids s) (sd_clock s) (sd_perf s).
Definition with_running_ids (r : gset string) (s : scheduler) :=
  mkScheduler (sd_heap s) (sd_tasks s) r (sd_running s) (sd_procs s) (sd_logs s) (sd_requests s)
    (sd_next s) (sd_uuids s) (sd_clock s) (sd_perf s).
Definition with_running (b : bool) (s : scheduler) :=
  mkScheduler (sd_heap s) (sd_tasks s) (sd_running_ids s) b (sd_procs s) (sd_logs s) (sd_requests s)
    (sd_next s) (sd_uuids s) (sd_clock s) (sd_perf s).
Definition with_procs (p : gmap nat proc) (s : scheduler) :=
  mkScheduler (sd_heap s) (sd_tasks s) (sd_running_ids s) (sd_running s) p (sd_logs s) (sd_requests s)
    (sd_next s) (sd_uuids s) (sd_clock s) (sd_perf s).
Definition with_logs (l : task_logs) (s : scheduler) :=
  mkScheduler (sd_heap s) (sd_tasks s) (sd_running_ids s) (sd_running s) (sd_procs s) l
    (sd_requests s) (sd_next s) (sd_uuids s) (sd_clock s) (sd_perf s).
Definition with_requests (l : list ExecutionRequest) (s : scheduler) :=
  mkScheduler (sd_heap s) (sd_tasks s) (sd_running_ids s) (sd_running s) (sd_procs s) (sd_logs s) l
    (sd_next s) (sd_uuids s) (sd_clock s) (sd_perf s).
Definition with_next (n : nat) (s : scheduler) :=
  mkScheduler (sd_heap s) (sd_tasks s) (sd_running_ids s) (sd_running s) (sd_procs s) (sd_logs s)
    (sd_requests s) n (sd_uuids s) (sd_clock s) (sd_perf s).
Definition with_uuids (n : nat) (s : scheduler) :=
  mkScheduler (sd_heap s) (sd_tasks s) (sd_running_ids s) (sd_running s) (sd_procs s) (sd_logs s)
    (sd_requests s) (sd_next s) n (sd_clock s) (sd_perf s).
Definition with_clock (n : nat) (s : scheduler) :=
  mkScheduler (sd_heap s) (sd_tasks s) (sd_running_ids s) (sd_running s) (sd_procs s) (sd_logs s)
    (sd_requests s) (sd_next s) (sd_uuids s) n (sd_perf s).
Definition with_perf (n : nat) (s : scheduler) :=
  mkScheduler (sd_heap s) (sd_tasks s) (sd_running_ids s) (sd_running s) (sd_procs s) (sd_logs s)
    (sd_requests s) (sd_next s) (sd_uuids s) (sd_clock s) n.

Definition set_task (o : nat) (t : ScheduledTask) (s : scheduler) : scheduler :=
  with_store (<[o := t]> (sd_heap s)) (sd_tasks s) s.

(** The tasks of a list of objects. *)
Definition objects (s : scheduler) (l : list nat) : list (nat * ScheduledTask) :=
  omap (fun o => pair o <$> sd_heap s !! o) l.

Inductive event :=
| ECreate (group_folder chat_jid prompt schedule_type : string) (execution_mode schedule_value : option string)
    (next_run : option datetime)
| EDelete (task_id : string)
| ERunPending
| EStart
| EStop
| EWake (p : nat)
| EExecuted (p : nat) (o : task_outcome).

Inductive reply :=
| RTask (t : ScheduledTask)
| RBool (b : bool)
| RNone
| RRaised (e : task_error).

Section scheduler.
Variable cron_valid : string -> bool.
Variable cron_next : string -> Z -> option Z.
(** [datetime.utcnow()], the performance counter in nanoseconds, [uuid4]. *)
Variable utcnow : nat -> Z.
Variable perf_counter : nat -> Z.
Variable uuid4_hex : nat -> string.

Definition read_now (s : scheduler) : Z * scheduler :=
  (utcnow (sd_clock s), with_clock (S (sd_clock s)) s).
Definition read_perf (s : scheduler) : Z * scheduler :=
  (perf_counter (sd_perf s), with_perf (S (sd_perf s)) s).

(** [upsert_task]: the task as initialized, stored as a new object. The clock
    read by [_validate_task] has no effect. *)
Definition upsert_task (t : ScheduledTask) (s : scheduler) :
    result task_error ScheduledTask * scheduler :=
  match validate_task cron_valid t with
  | Err e => (raise e, s)
  | Ok _ =>
      let '(now, s) := read_now s in
      match initialize_next_run cron_valid cron_next now t with
      | Err e => (raise e, s)
      | Ok t =>
          let o := sd_next s in
          (Ok t, with_next (S o) (with_store (<[o := t]> (sd_heap s)) (od_set (st_id t) o (sd_tasks s)) s))
      end
  end.

(** [create_task]. *)
Definition create_task (group_folder chat_jid prompt schedule_type : string)
    (execution_mode schedule_value : option string) (next_run : option datetime) (s : scheduler) :
    result task_error ScheduledTask * scheduler :=
  match normalize_schedule_value schedule_type schedule_value with
  | Err e => (raise e, s)
  | Ok value =>
      match normalize_execution_mode execution_mode with
      | Err e => (raise e, s)
      | Ok mode =>
          let id := "task-" +:+ uuid4_hex (sd_uuids s) in
          let s := with_uuids (S (sd_uuids s)) s in
          let '(now, s) := read_now s in
          upsert_task (mkTask id group_folder chat_jid prompt mode schedule_type value
                         (utc_wall <$> next_run) "active" now) s
      end
  end.

(** [remove_task], [delete_task]. *)
Definition delete_task (task_id : string) (s : scheduler) : bool * scheduler :=
  (bool_decide (is_Some (od_get task_id (sd_tasks s))),
   with_store (sd_heap s) (od_pop task_id (sd_tasks s)) s).

(** [list_tasks] and [get_task]. *)
Definition list_tasks (s : scheduler) : list ScheduledTask :=
  py_sorted schedule_key (objects s (od_values (sd_tasks s))).*2.
Definition get_task (task_id : string) (s : scheduler) : option ScheduledTask :=
  find_first (fun t => bool_decide (st_id t = task_id)) (list_tasks s).

(** The due tasks of a round. *)
Definition due_tasks (now : Z) (s : scheduler) : list nat :=
  (py_sorted (fun p : nat * ScheduledTask => schedule_key p.2)
     (List.filter (fun p => is_due now p.2 && negb (bool_decide (st_id p.2 ∈ sd_running_ids s)))
        (objects s (od_values (sd_tasks s))))).*1.

(** The end of the body of the loop of [start], of [run_pending]. *)
Definition end_round (p : nat) (loop : bool) (s : scheduler) : scheduler :=
  if loop && sd_running s then with_procs (<[p := PSleep]> (sd_procs s)) s
  else
    let s := with_procs (delete p (sd_procs s)) s in
    if loop then with_running false s else s.

(** An exception leaves the round, and the loop: its [finally]. *)
Definition kill_round (p : nat) (loop : bool) (s : scheduler) : scheduler :=
  let s := with_procs (delete p (sd_procs s)) s in
  if loop then with_running false s else s.

(** The loop [for task in due_tasks], up to the next execution: a task whose id
    is running is skipped; the others are handed to the coordinator. *)
Fixpoint run_due (p : nat) (loop : bool) (due : list nat) (s : scheduler) : scheduler :=
  match due with
  | [] => end_round p loop s
  | o :: due' =>
      match sd_heap s !! o with
      | None => run_due p loop due' s
      | Some t =>
          if bool_decide (st_id t ∈ sd_running_ids s) then run_due p loop due' s
          else
            let s := with_running_ids ({[st_id t]} ∪ sd_running_ids s) s in
            let '(now, s) := read_now s in
            let '(perf, s) := read_perf s in
            let req := task_request (uuid4_hex (sd_uuids s)) t in
            let s := with_uuids (S (sd_uuids s)) s in
            let s := with_requests (sd_requests s ++ [req]) s in
            with_procs (<[p := PRound loop o (Naive now) perf due']> (sd_procs s)) s
      end
  end.

(** [run_pending], up to its first execution. *)
Definition run_pending (p : nat) (loop : bool) (s : scheduler) : scheduler :=
  let '(now, s) := read_now s in
  run_due p loop (due_tasks now s) s.

(** [start]. *)
Definition start (s : scheduler) : scheduler :=
  if sd_running s then s
  else
    let p := sd_next s in
    run_pending p true (with_next (S p) (with_running true s)).

(** The loop after its sleep. *)
Definition wake (p : nat) (s : scheduler) : scheduler :=
  if sd_running s then run_pending p true s else kill_round p true s.

(** [_duration_ms]. *)
Definition duration_ms (started_at now : Z) : Z := Z.max 0 (Z.quot (now - started_at) 1000000).

(** The log entry of an execution of [_execute_task] of the service. *)
Definition log_outcome (t : ScheduledTask) (run_at : datetime) (started_at : Z) (o : task_outcome)
    (s : scheduler) : scheduler :=
  match outcome_log o with
  | None => s
  | Some (status, out, err) =>
      let '(perf, s) := read_perf s in
      with_logs (record_log (st_id t) run_at (duration_ms started_at perf) status out err (sd_logs s)) s
  end.

(** A round after the execution of its current task: the service logs it, the
    scheduler reschedules a task that succeeded, the id is discarded, and the
    round goes on; a cancellation, or an exception of the rescheduling, leaves it. *)
Definition executed (p : nat) (o : task_outcome) (s : scheduler) : option scheduler :=
  match sd_procs s !! p with
  | Some (PRound loop cur run_at started_at rest) =>
      match sd_heap s !! cur with
      | None => None
      | Some t =>
          let s := log_outcome t run_at started_at o s in
          let discard s := with_running_ids (sd_running_ids s ∖ {[st_id t]}) s in
          if outcome_ok o then
            let '(now0, s) := read_now s in
            let '(now, s) := read_now s in
            match mark_task_after_success cron_valid cron_next now0 now t with
            | Ok t' => Some (run_due p loop rest (discard (set_task cur t' s)))
            | Err _ => Some (kill_round p loop (discard s))
            end
          else
            match o with
            | OCancelled => Some (kill_round p loop (discard s))
            | _ => Some (run_due p loop rest (discard s))
            end
      end
  | _ => None
  end.

Definition step (s : scheduler) (ev : event) : option (reply * scheduler) :=
  match ev with
  | ECreate g j pr ty mode v n =>
      let '(r, s) := create_task g j pr ty mode v n s in
      Some (match r with Ok t => RTask t | Err e => RRaised e end, s)
  | EDelete id => let '(b, s) := delete_task id s in Some (RBool b, s)
  | ERunPending => Some (RNone, run_pending (sd_next s) false (with_next (S (sd_next s)) s))
  | EStart => Some (RNone, start s)
  | EStop => Some (RNone, with_running false s)
  | EWake p => match sd_procs s !! p with Some PSleep => Some (RNone, wake p s) | _ => None end
  | EExecuted p o => pair RNone <$> executed p o s
  end.

Inductive reach : scheduler -> Prop :=
| reach_init : reach init_scheduler
| reach_step s ev r s' : reach s -> step s ev = Some (r, s') -> reach s'.

Fixpoint run_events (evs : list event) (s : scheduler) : option scheduler :=
  match evs with
  | [] => Some s
  | ev :: evs' => match step s ev with Some (_, s') => run_events evs' s' | None => None end
  end.

Lemma run_scheduler_reach evs s s' : reach s -> run_events evs s = Some s' -> reach s'.
Proof.
  revert s. induction evs as [|ev evs IH]; intros s R; simpl.
  - intros H. by simplify_eq.
  - destruct (step s ev) as [[r s1]|] eqn:E; [|done]. apply IH. by eapply reach_step.
Qed.
End scheduler.
