(* ===== verification/SchedulerProps.v ===== *)
(** * Properties of the task scheduler *)

From stdpp Require Import base gmap strings list option sorting sets pretty.
From Stdlib Require Import ZArith Lia Ascii.
From S2P Require Import Prelude PyStr PyInt PySort PyDict Execution Scheduler.

(** ** Schedules *)

Section schedules.
Variable cron_valid : string -> bool.
Variable cron_next : string -> Z -> option Z.

(** The first point of the grid [anchor + k * d], [k >= 0], after [now]. *)
Definition next_on_grid (now d anchor : Z) : Z :=
  if (now <? anchor)%Z then anchor else (anchor + ((now - anchor) / d + 1) * d)%Z.

Lemma advance_interval_spec fuel now d anchor :
  (0 < d)%Z -> (datetime_min <= anchor)%Z -> (now <= datetime_max)%Z ->
  interval_fuel now d anchor <= fuel ->
  advance_interval fuel now d anchor =
    let u := next_on_grid now d anchor in
    if (u <=? Z.max anchor datetime_max)%Z then Ok u else raise TaskOverflowError.
Proof.
  intros Hd Ha Hn. revert anchor Ha. induction fuel as [|fuel IH]; intros anchor Ha Hf; cbn zeta.
  - unfold advance_interval, next_on_grid, interval_fuel in *.
    destruct (Z.leb_spec anchor now) as [H|H].
    + pose proof (Z.div_pos (now - anchor) d ltac:(lia) Hd). lia.
    + destruct (Z.ltb_spec now anchor); [|lia]. by rewrite (proj2 (Z.leb_le _ _)) by lia.
  - cbn [advance_interval]. destruct (Z.leb_spec anchor now) as [H|H].
    2:{ unfold next_on_grid. destruct (Z.ltb_spec now anchor); [|lia].
        by rewrite (proj2 (Z.leb_le _ _)) by lia. }
    pose proof (Z.div_pos (now - anchor) d ltac:(lia) Hd) as Hq.
    assert (E : next_on_grid now d anchor = (anchor + ((now - anchor) / d + 1) * d)%Z)
      by (unfold next_on_grid; destruct (Z.ltb_spec now anchor); [lia|done]).
    assert (G : next_on_grid now d (anchor + d) = next_on_grid now d anchor).
    { rewrite E. unfold next_on_grid. destruct (Z.ltb_spec now (anchor + d)) as [L|L].
      - rewrite (Z.div_small (now - anchor)) by lia. lia.
      - replace (now - (anchor + d))%Z with (now - anchor + (-1) * d)%Z by lia.
        rewrite Z.div_add by lia. lia. }
    assert (B : (anchor + d <= next_on_grid now d anchor)%Z) by (rewrite E; nia).
    destruct (datetime_add anchor d) as [v|] eqn:Ev.
    + apply datetime_add_some in Ev as [-> Ev]. rewrite IH; [|lia|].
      * rewrite G. replace (Z.max (anchor + d) datetime_max) with (Z.max anchor datetime_max) by lia. done.
      * unfold interval_fuel in *. replace (now - (anchor + d))%Z with (now - anchor + (-1) * d)%Z by lia.
        rewrite Z.div_add by lia. lia.
    + assert (~ (anchor + d <= datetime_max)%Z).
      { intros Hle. assert (datetime_add anchor d = Some (anchor + d)%Z) as Hs
          by (apply datetime_add_some; lia). congruence. }
      by rewrite (proj2 (Z.leb_gt _ _)) by lia.
Qed.

Lemma parse_interval_pos v n : parse_interval_seconds v = Ok n -> (0 < n)%Z.
Proof.
  unfold parse_interval_seconds. destruct v as [s|]; [|done]. destruct (parse_int s); [|done].
  destruct (Z.leb_spec z 0); [done|]. intros [= <-]. done.
Qed.

(** C33: The next run of an interval task. Rescheduling skips the missed runs: the
    next run is the first point of the grid through the last one that lies after
    now; the loop that finds it ends, and raises exactly when that point is
    beyond the last representable date. *)
Theorem interval_next_run now0 now t n :
  st_schedule_type t = "interval" -> parse_interval_seconds (st_schedule_value t) = Ok n ->
  (n <= 86399999999999)%Z -> (now <= datetime_max)%Z ->
  let anchor := default now0 (st_next_run t) in (datetime_min <= anchor <= datetime_max)%Z ->
  let u := next_on_grid now (n * 1000000) anchor in
  (anchor <= u)%Z /\ (now < u)%Z /\ (u = anchor \/ u - n * 1000000 <= now)%Z /\
  (exists k, 0 <= k /\ u = anchor + k * (n * 1000000))%Z /\
  compute_next_run cron_valid cron_next now0 now t =
    if (u <=? datetime_max)%Z then Ok (Some u) else raise TaskOverflowError.
Proof.
  intros Hty Hv Hmax Hnow anchor Ha. pose proof (parse_interval_pos _ _ Hv) as Hn. cbv zeta.
  set (d := (n * 1000000)%Z). assert (Hd : (0 < d)%Z) by lia.
  assert (P : (next_on_grid now d anchor = anchor /\ now < anchor \/
    anchor <= now /\ next_on_grid now d anchor = anchor + ((now - anchor) / d + 1) * d)%Z).
  { unfold next_on_grid. destruct (Z.ltb_spec now anchor); auto. }
  pose proof (Z.mul_div_le (now - anchor) d Hd). pose proof (Z.mul_succ_div_gt (now - anchor) d Hd).
  assert (anchor <= now -> 0 <= (now - anchor) / d)%Z by (intros; apply Z.div_pos; lia).
  split; [nia|]. split; [nia|]. split; [nia|]. split.
  { destruct P as [[-> _]|[L ->]]; [exists 0%Z; lia|]. exists ((now - anchor) / d + 1)%Z. lia. }
  unfold compute_next_run. rewrite Hty, Hv. cbn. unfold timedelta_seconds.
  destruct (Z.leb_spec (-86399999913600) n); [|lia]. destruct (Z.leb_spec n 86399999999999); [|lia].
  cbn [andb]. fold d. fold anchor. rewrite advance_interval_spec by (done || lia). cbv zeta.
  rewrite Z.max_r by lia. by destruct (_ <=? _)%Z.
Qed.

(** A task of the scheduler: if active, it has a next run. *)
Definition scheduled (t : ScheduledTask) : Prop :=
  st_status t = "active" -> is_Some (st_next_run t).

Lemma initialize_ok now t t' :
  validate_task cron_valid t = Ok tt -> initialize_next_run cron_valid cron_next now t = Ok t' ->
  scheduled t' /\ st_id t' = st_id t /\ st_status t' = st_status t /\
  st_schedule_type t' = st_schedule_type t /\
  t' = set_next_run (st_next_run t') t /\
  (is_Some (st_next_run t) -> st_next_run t' = st_next_run t).
Proof.
  intros V. unfold initialize_next_run, scheduled. case_bool_decide as Hs; simpl.
  2:{ intros [= <-]. repeat split; [done|by destruct t]. }
  case_bool_decide as Hn; [intros [= <-]; repeat split; [done|by destruct t]|].
  assert (K : forall u, scheduled (set_next_run (Some u) t)) by (intros u _; by eexists).
  case_bool_decide as Hi.
  - destruct (parse_interval_seconds _) as [n|]; [|done]. cbn. destruct (after_interval now n); [|done].
    cbn. intros [= <-]. repeat split; [by eexists|]. intros; done.
  - case_bool_decide as Hc.
    + destruct (parse_cron_expression _) as [e|]; [|done]. cbn. destruct (next_cron _ _ _ _); [|done].
      cbn. intros [= <-]. repeat split; [by eexists|]. intros; done.
    + exfalso. unfold validate_task in V. rewrite bool_decide_eq_false_2 in V by done.
      rewrite bool_decide_eq_false_2 in V by done. case_bool_decide; [|done].
      destruct (st_next_run t); [|done]. apply Hn. by eexists.
Qed.

Lemma mark_ok now0 now t t' :
  mark_task_after_success cron_valid cron_next now0 now t = Ok t' ->
  scheduled t' /\ st_id t' = st_id t /\ st_schedule_type t' = st_schedule_type t /\
  (st_schedule_type t = "once" -> st_status t' = "completed" /\ st_next_run t' = None).
Proof.
  unfold mark_task_after_success, scheduled. case_bool_decide as Ho.
  - intros [= <-]. repeat split. intros; done.
  - unfold compute_next_run. case_bool_decide as Hi.
    + destruct (parse_interval_seconds _) as [n|]; [|done]. cbn. destruct (timedelta_seconds n); [|done].
      destruct (advance_interval _ _ _ _); [|done]. cbn. intros [= <-]. repeat split; [by eexists|done..].
    + case_bool_decide as Hc.
      * destruct (parse_cron_expression _); [|done]. cbn. destruct (next_cron _ _ _ _); [|done]. cbn.
        intros [= <-]. repeat split; [by eexists|done..].
      * by rewrite bool_decide_eq_false_2.
Qed.
End schedules.

(** ** The invariant *)

(** The id of the task a process executes. *)
Definition cur_id (s : scheduler) (p : nat) : option string :=
  match sd_procs s !! p with
  | Some (PRound _ c _ _ _) => st_id <$> sd_heap s !! c
  | _ => None
  end.

Record sched_inv (s : scheduler) : Prop := {
  sv_heap : forall o t, sd_heap s !! o = Some t -> o < sd_next s /\ scheduled t;
  sv_procs : forall p x, sd_procs s !! p = Some x -> p < sd_next s;
  sv_wf : od_wf (sd_tasks s);
  sv_reg : forall k o, od_get k (sd_tasks s) = Some o ->
    exists t, sd_heap s !! o = Some t /\ st_id t = k;
  sv_cur : forall p l c r a rest, sd_procs s !! p = Some (PRound l c r a rest) -> is_Some (sd_heap s !! c);
  sv_inj : forall p p' i, cur_id s p = Some i -> cur_id s p' = Some i -> p = p';
  sv_run : forall i, i ∈ sd_running_ids s <-> exists p, cur_id s p = Some i
}.

(** The part of the state the invariant speaks of. *)
Definition score (s : scheduler) :=
  (sd_heap s, sd_tasks s, sd_running_ids s, sd_procs s, sd_next s).

Lemma sched_inv_ext s s' : score s = score s' -> sched_inv s -> sched_inv s'.
Proof.
  unfold score. intros [= E1 E2 E3 E4 E5] []. split; unfold cur_id in *;
    rewrite <- ?E1, <- ?E2, <- ?E3, <- ?E4, <- ?E5; assumption.
Qed.

Lemma sched_inv_init : sched_inv init_scheduler.
Proof.
  split; unfold cur_id; simpl; intros *; rewrite ?lookup_empty; try done; [constructor|].
  split; [set_solver|]. intros [p H]. by rewrite lookup_empty in H.
Qed.

Lemma sched_inv_next n s : sd_next s <= n -> sched_inv s -> sched_inv (with_next n s).
Proof.
  intros Hn []. split; simpl; try assumption.
  - intros o t H. destruct (sv_heap0 _ _ H). split; [lia|done].
  - intros p x H. specialize (sv_procs0 _ _ H). lia.
Qed.

Lemma cur_id_ne s p p' x : p <> p' -> cur_id (with_procs (<[p := x]> (sd_procs s)) s) p' = cur_id s p'.
Proof. intros H. unfold cur_id; simpl. by rewrite lookup_insert_ne. Qed.

Lemma cur_id_delete s p p' :
  cur_id (with_procs (delete p (sd_procs s)) s) p' = if decide (p = p') then None else cur_id s p'.
Proof.
  unfold cur_id; simpl. rewrite lookup_delete. by case_decide as D.
Qed.

(** A process that executes nothing goes to sleep. *)
Lemma sched_inv_sleep p s :
  sched_inv (with_procs (delete p (sd_procs s)) s) -> p < sd_next s ->
  sched_inv (with_procs (<[p := PSleep]> (sd_procs s)) s).
Proof.
  intros [] Hp. assert (C : forall p', cur_id (with_procs (<[p := PSleep]> (sd_procs s)) s) p' =
    cur_id (with_procs (delete p (sd_procs s)) s) p').
  { intros p'. rewrite cur_id_delete. case_decide as D; [subst|by apply cur_id_ne].
    unfold cur_id; simpl. by rewrite lookup_insert_eq. }
  split; simpl in *; try assumption.
  - intros p' x. rewrite lookup_insert. case_decide as D; [subst; done|]. intros H.
    apply (sv_procs0 p' x). by rewrite lookup_delete_ne.
  - intros p' l c r a rest. rewrite lookup_insert. case_decide as D; [done|]. intros H.
    apply (sv_cur0 p' l c r a rest). by rewrite lookup_delete_ne.
  - intros p1 p2 i. rewrite !C. apply sv_inj0.
  - intros i. rewrite sv_run0. split; intros [q Hq]; exists q; [by rewrite C|by rewrite <- C].
Qed.

(** It starts an execution. *)
Lemma sched_inv_execute p l o r a rest t s :
  sched_inv (with_procs (delete p (sd_procs s)) s) -> p < sd_next s -> sd_heap s !! o = Some t ->
  st_id t ∉ sd_running_ids s ->
  sched_inv (with_procs (<[p := PRound l o r a rest]> (sd_procs s))
    (with_running_ids ({[st_id t]} ∪ sd_running_ids s) s)).
Proof.
  intros [] Hp Ho Hid. set (s' := with_procs _ _).
  assert (C : forall p', cur_id s' p' = if decide (p = p') then Some (st_id t)
                           else cur_id (with_procs (delete p (sd_procs s)) s) p').
  { intros p'. case_decide as D; [subst|].
    - unfold cur_id, s'; simpl. rewrite lookup_insert_eq. by rewrite Ho.
    - rewrite cur_id_delete, decide_False by done. unfold cur_id, s'; simpl. by rewrite lookup_insert_ne. }
  assert (N : forall q, cur_id (with_procs (delete p (sd_procs s)) s) q <> Some (st_id t)).
  { intros q Hq. apply Hid. apply sv_run0. by exists q. }
  split; simpl in *; try assumption.
  - intros p' x. rewrite lookup_insert. case_decide as D; [subst; done|]. intros H.
    apply (sv_procs0 p' x). by rewrite lookup_delete_ne.
  - intros p' l' c r' a' rest'. rewrite lookup_insert. case_decide as D; [intros [= _ <- _ _ _]; by eexists|].
    intros H. apply (sv_cur0 p' l' c r' a' rest'). by rewrite lookup_delete_ne.
  - intros p1 p2 i. rewrite !C. do 2 case_decide; subst; try done.
    + intros [= <-] Hq. by destruct (N p2).
    + intros Hq [= <-]. by destruct (N p1).
    + apply sv_inj0.
  - intros i. rewrite elem_of_union, elem_of_singleton, sv_run0. split.
    + intros [->|[q Hq]]; [exists p; rewrite C; by rewrite decide_True|].
      exists q. rewrite C. case_decide as D; [subst|done]. rewrite cur_id_delete, decide_True in Hq; done.
    + intros [q Hq]. rewrite C in Hq. case_decide as D; [left; congruence|right; by exists q].
Qed.

(** It ends one: its id is discarded, its task may have changed. *)
Lemma sched_inv_discard p l c r a rest t t' s :
  sched_inv s -> sd_procs s !! p = Some (PRound l c r a rest) -> sd_heap s !! c = Some t ->
  st_id t' = st_id t -> scheduled t' ->
  let s' := with_running_ids (sd_running_ids s ∖ {[st_id t]}) (set_task c t' s) in
  sched_inv (with_procs (delete p (sd_procs s')) s').
Proof.
  intros [] Hp Hc Hid Hs s'.
  assert (Hcp : cur_id s p = Some (st_id t)) by (unfold cur_id; by rewrite Hp, Hc).
  assert (C : forall q, cur_id (with_procs (delete p (sd_procs s')) s') q =
                        if decide (p = q) then None else cur_id s q).
  { intros q. rewrite cur_id_delete. case_decide as D; [done|]. unfold cur_id, s'; simpl.
    destruct (sd_procs s !! q) as [[l' c' r' a' rest'|]|]; [|done..]. rewrite lookup_insert.
    case_decide as D2; [subst; simpl; by rewrite Hid, Hc|done]. }
  split; simpl in *; try assumption.
  - intros o x. rewrite lookup_insert. case_decide as D; [intros [= <-]; subst; by destruct (sv_heap0 _ _ Hc)|].
    apply sv_heap0.
  - intros q x [_ H]%lookup_delete_Some. by eapply sv_procs0.
  - intros k o H. destruct (sv_reg0 _ _ H) as (x & X1 & X2). rewrite lookup_insert.
    case_decide as D; [subst; exists t'; split; [done|congruence]|by exists x].
  - intros q l' c' r' a' rest' [_ H]%lookup_delete_Some. apply sv_cur0 in H. rewrite lookup_insert.
    by case_decide as D.
  - intros q1 q2 i. rewrite !C. do 2 case_decide; try done. apply sv_inj0.
  - intros i. rewrite elem_of_difference, elem_of_singleton, sv_run0. split.
    + intros [[q Hq] Hne]. exists q. rewrite C. case_decide as D; [subst q; congruence|done].
    + intros [q Hq]. rewrite C in Hq. case_decide as D; [done|]. split; [by exists q|].
      intros ->. apply D. by apply (sv_inj0 p q (st_id t)).
Qed.

Section inv.
Variable cron_valid : string -> bool.
Variable cron_next : string -> Z -> option Z.
Variable utcnow : nat -> Z.
Variable perf_counter : nat -> Z.
Variable uuid4_hex : nat -> string.

Local Abbreviation run_due := (run_due utcnow perf_counter uuid4_hex).
Local Abbreviation step := (step cron_valid cron_next utcnow perf_counter uuid4_hex).
Local Abbreviation reach := (reach cron_valid cron_next utcnow perf_counter uuid4_hex).

Lemma sched_inv_kill p loop s :
  sched_inv (with_procs (delete p (sd_procs s)) s) -> sched_inv (kill_round p loop s).
Proof. intros I. unfold kill_round. destruct loop; by eapply sched_inv_ext; [|exact I]. Qed.

Lemma sched_inv_run_due p loop due s :
  sched_inv (with_procs (delete p (sd_procs s)) s) -> p < sd_next s ->
  sched_inv (run_due p loop due s).
Proof.
  revert s. induction due as [|o due IH]; intros s I Hp; cbn [Scheduler.run_due].
  - unfold end_round. destruct loop; simpl.
    + destruct (sd_running s); [by apply sched_inv_sleep|]. by eapply sched_inv_ext; [|exact I].
    + exact I.
  - destruct (sd_heap s !! o) as [t|] eqn:Ho; [|by apply IH].
    case_bool_decide as Hr; [by apply IH|].
    eapply sched_inv_ext; [|exact (sched_inv_execute p loop o (Naive (utcnow (sd_clock s)))
      (perf_counter (sd_perf s)) due t s I Hp Ho Hr)]. done.
Qed.

Lemma delete_fresh s : sched_inv s -> delete (sd_next s) (sd_procs s) = sd_procs s.
Proof.
  intros I. apply delete_id, eq_None_not_Some. intros [x H]. apply (sv_procs s I) in H. lia.
Qed.

Lemma sched_inv_new_round loop b s :
  sched_inv s ->
  sched_inv (run_pending utcnow perf_counter uuid4_hex (sd_next s) loop
               (with_next (S (sd_next s)) (with_running b s))).
Proof.
  intros I. unfold run_pending. cbn [read_now]. apply sched_inv_run_due; [|simpl; lia].
  apply (sched_inv_next (S (sd_next s))) in I as I1; [|lia].
  eapply sched_inv_ext; [|exact I1]. unfold score; simpl. by rewrite delete_fresh.
Qed.

Lemma sched_inv_create g j pr ty mode v n s :
  sched_inv s -> sched_inv (create_task cron_valid cron_next utcnow uuid4_hex g j pr ty mode v n s).2.
Proof.
  intros I. unfold create_task. destruct (normalize_schedule_value ty v); [|done].
  destruct (normalize_execution_mode mode); [|done]. cbn [read_now]. unfold upsert_task.
  destruct (validate_task _ _) as [[]|] eqn:V; [|by eapply sched_inv_ext; [|exact I]]. cbn [read_now].
  destruct (initialize_next_run _ _ _ _) as [t|] eqn:E; [|by eapply sched_inv_ext; [|exact I]].
  apply (initialize_ok _ _ _ _ _ V) in E as (Hs & Hid & _). cbn [snd].
  set (id := "task-" +:+ uuid4_hex (sd_uuids s)) in *.
  assert (F : sd_heap s !! sd_next s = None).
  { apply eq_None_not_Some. intros [x H]. apply (sv_heap s I) in H. lia. }
  set (s' := with_next _ _).
  assert (C : forall p, cur_id s' p = cur_id s p).
  { intros p. unfold cur_id, s'; simpl. destruct (sd_procs s !! p) as [[l c r1 a1 rest|]|] eqn:Hp; [|done..].
    rewrite lookup_insert_ne; [done|]. destruct (sv_cur s I _ _ _ _ _ _ Hp). congruence. }
  destruct I. split; simpl.
  - intros o x. rewrite lookup_insert. case_decide as D; [intros [= <-]; subst; split; [lia|done]|].
    intros H. destruct (sv_heap0 _ _ H). split; [lia|done].
  - intros p x H. specialize (sv_procs0 _ _ H). lia.
  - by apply od_wf_set.
  - intros k o. rewrite od_get_set. case_decide as D.
    + intros [= <-]. exists t. rewrite lookup_insert_eq. done.
    + intros H'. destruct (sv_reg0 _ _ H') as (x & X1 & X2). exists x.
      rewrite lookup_insert_ne; [done|]. congruence.
  - intros p l c r1 a1 rest H. rewrite lookup_insert. case_decide as D; [done|by eapply sv_cur0].
  - intros p p' i. rewrite !C. apply sv_inj0.
  - intros i. rewrite sv_run0. split; intros [p Hp]; exists p; [by rewrite C|by rewrite <- C].
Qed.

Lemma sched_inv_delete id s : sched_inv s -> sched_inv (delete_task id s).2.
Proof.
  intros []. split; simpl; try assumption; [by apply od_wf_pop|].
  intros k o. rewrite od_get_pop. case_decide as D; [done|]. apply sv_reg0.
Qed.

Lemma log_outcome_score t r a o s : score (log_outcome perf_counter t r a o s) = score s.
Proof. unfold log_outcome. destruct (outcome_log o) as [[[? ?] ?]|]; done. Qed.

Lemma sched_inv_executed p o s s' :
  sched_inv s -> executed cron_valid cron_next utcnow perf_counter uuid4_hex p o s = Some s' ->
  sched_inv s'.
Proof.
  intros I. unfold executed. destruct (sd_procs s !! p) as [[l c r a rest|]|] eqn:Hp; [|done..].
  destruct (sd_heap s !! c) as [t|] eqn:Hc; [|done]. cbv zeta.
  pose proof (log_outcome_score t r a o s) as L. set (s1 := log_outcome _ t r a o s) in *.
  assert (L' := L). unfold score in L'. injection L' as L1 L2 L3 L4 L5.
  apply (sched_inv_ext s s1) in I; [|done]. rewrite <- L4 in Hp. rewrite <- L1 in Hc.
  assert (Hlt : p < sd_next s1) by (by eapply (sv_procs s1 I)).
  assert (K : forall t', st_id t' = st_id t -> scheduled t' -> forall s2, score s2 =
    score (with_running_ids (sd_running_ids s1 ∖ {[st_id t]}) (set_task c t' s1)) ->
    sched_inv (with_procs (delete p (sd_procs s2)) s2) /\ p < sd_next s2).
  { intros t' H1 H2 s2 E. pose proof (sched_inv_discard p l c r a rest t t' s1 I Hp Hc H1 H2) as D.
    unfold score in E. injection E as E1 E2 E3 E4 E5. split; [|by rewrite E5].
    eapply sched_inv_ext; [|exact D]. unfold score; simpl. by rewrite E1, E2, E3, E4, E5. }
  assert (K0 : forall s2, score s2 = score (with_running_ids (sd_running_ids s1 ∖ {[st_id t]}) s1) ->
    sched_inv (with_procs (delete p (sd_procs s2)) s2) /\ p < sd_next s2).
  { intros s2 E. apply (K t eq_refl); [by apply (sv_heap s1 I c)|]. rewrite E.
    unfold score; simpl. by rewrite insert_id. }
  destruct (outcome_ok o).
  - cbn [read_now]. destruct (mark_task_after_success _ _ _ _ _) as [t'|] eqn:M; intros [= <-].
    + apply mark_ok in M as (M1 & M2 & _). apply sched_inv_run_due; by apply (K t').
    + apply sched_inv_kill. by apply K0.
  - destruct o; intros [= <-]; [apply sched_inv_run_due; by apply K0..|]. apply sched_inv_kill. by apply K0.
Qed.

Lemma sched_inv_step s ev r s' : sched_inv s -> step s ev = Some (r, s') -> sched_inv s'.
Proof.
  intros I. destruct ev as [g j pr ty mode v n|id| | | |p|p o]; simpl.
  - destruct (create_task _ _ _ _ _ _ _ _ _ _ _ _) as [x s1] eqn:E. intros [= _ <-].
    pose proof (sched_inv_create g j pr ty mode v n s I) as H. by rewrite E in H.
  - intros [= _ <-]. by apply (sched_inv_delete id).
  - intros [= _ <-]. eapply sched_inv_ext; [|exact (sched_inv_new_round false (sd_running s) s I)].
    by destruct s.
  - intros [= _ <-]. unfold start. destruct (sd_running s); [done|]. by apply (sched_inv_new_round true true).
  - intros [= _ <-]. by eapply sched_inv_ext; [|exact I].
  - destruct (sd_procs s !! p) as [[|]|] eqn:Hp; [done| |done]. intros [= _ <-]. unfold wake.
    assert (D : sched_inv (with_procs (delete p (sd_procs s)) s)).
    { assert (C : forall q, cur_id (with_procs (delete p (sd_procs s)) s) q = cur_id s q).
      { intros q. rewrite cur_id_delete. case_decide as D; [subst; unfold cur_id; by rewrite Hp|done]. }
      destruct I. split; simpl; try assumption.
      - intros q x [_ H]%lookup_delete_Some. by eapply sv_procs0.
      - intros q l c r' a rest [_ H]%lookup_delete_Some. by eapply sv_cur0.
      - intros q q' i. rewrite !C. apply sv_inj0.
      - intros i. rewrite sv_run0. split; intros [q Hq]; exists q; [by rewrite C|by rewrite <- C]. }
    destruct (sd_running s); [|by apply sched_inv_kill]. unfold run_pending. cbn [read_now].
    apply sched_inv_run_due; [by eapply sched_inv_ext; [|exact D]|]. simpl. by eapply (sv_procs s I).
  - destruct (executed _ _ _ _ _ _ _ _) as [s1|] eqn:E; [|done]. intros [= _ <-].
    by eapply sched_inv_executed.
Qed.

Lemma sched_reach_inv s : reach s -> sched_inv s.
Proof. induction 1; [apply sched_inv_init|by eapply sched_inv_step]. Qed.
End inv.

(** ** The due tasks of a round *)

Lemma objects_elem s l o t : (o, t) ∈ objects s l <-> o ∈ l /\ sd_heap s !! o = Some t.
Proof.
  unfold objects. rewrite list_elem_of_omap. split.
  - intros (x & Hx & E). destruct (sd_heap s !! x) eqn:Ex; simpl in E; [|done]. by injection E as -> ->.
  - intros [Ho Ht]. exists o. split; [done|]. by rewrite Ht.
Qed.

Lemma objects_nodup s l : NoDup l -> NoDup (objects s l).*1.
Proof.
  unfold objects. induction 1 as [|o l Hn Hl IH]; [constructor|]. simpl.
  destruct (sd_heap s !! o) eqn:E; simpl; [|done]. constructor; [|done].
  intros ([o' t] & -> & Hin)%list_elem_of_fmap. simpl in Hn. apply Hn.
  by apply (objects_elem s l) in Hin as [].
Qed.

Lemma values_nodup s : sched_inv s -> NoDup (od_values (sd_tasks s)).
Proof.
  intros I. pose proof (sv_wf s I) as W.
  assert (R : forall k o, (k, o) ∈ sd_tasks s -> exists t, sd_heap s !! o = Some t /\ st_id t = k).
  { intros k o H. apply (sv_reg s I). by apply od_elem_get. }
  clear I. unfold od_wf, od_keys, od_values in *. induction (sd_tasks s) as [|[k o] d IH]; [constructor|].
  csimpl in *. apply NoDup_cons in W as [W1 W2]. constructor.
  - intros ([k' o'] & E & Hin)%list_elem_of_fmap. simpl in E. subst o'.
    destruct (R k o) as (t & T1 & T2); [by left|]. destruct (R k' o) as (t' & T3 & T4); [by right|].
    apply W1, list_elem_of_fmap. exists (k', o). split; [simpl; congruence|done].
  - apply IH; [done|]. intros k' o' H. apply R. by right.
Qed.

Lemma due_tasks_elem now s o :
  sched_inv s ->
  o ∈ due_tasks now s <->
  exists id t, od_get id (sd_tasks s) = Some o /\ sd_heap s !! o = Some t /\ is_due now t = true /\
    st_id t = id /\ id ∉ sd_running_ids s.
Proof.
  intros I. unfold due_tasks. rewrite list_elem_of_fmap. split.
  - intros ([o' t] & -> & H). rewrite py_sorted_elem, list_elem_of_In, filter_In in H.
    destruct H as [H1%list_elem_of_In [H2 H3]%andb_true_iff]. simpl in *.
    apply objects_elem in H1 as [H1 H4]. apply list_elem_of_fmap in H1 as ([k x] & -> & Hin).
    apply od_elem_get in Hin; [|apply (sv_wf s I)]. simpl in *.
    destruct (sv_reg s I _ _ Hin) as (t' & T1 & T2). assert (t' = t) as -> by congruence.
    exists k, t. bool_hyps. repeat split; try done. congruence.
  - intros (id & t & H1 & H2 & H3 & H4 & H5). exists (o, t). split; [done|].
    rewrite py_sorted_elem, list_elem_of_In, filter_In. split.
    + apply list_elem_of_In, objects_elem. split; [|done]. apply od_get_Some_elem in H1.
      apply list_elem_of_fmap. by exists (id, o).
    + simpl. rewrite H3, H4. simpl. by rewrite bool_decide_eq_false_2.
Qed.

Lemma due_tasks_nodup now s : sched_inv s -> NoDup (due_tasks now s).
Proof.
  intros I. unfold due_tasks. rewrite py_sorted_perm.
  pose proof (objects_nodup s _ (values_nodup s I)) as H.
  induction (objects s _) as [|p l IH]; [constructor|]. csimpl in H. apply NoDup_cons in H as [H1 H2].
  simpl. destruct (_ && _); [|by apply IH]. csimpl. constructor; [|by apply IH].
  intros (x & E & Hx)%list_elem_of_fmap. apply H1. rewrite E. apply list_elem_of_fmap.
  exists x. split; [done|]. rewrite list_elem_of_In, filter_In in Hx. destruct Hx as [Hx _]. by apply list_elem_of_In.
Qed.

(** ** Theorems *)

Section props.
Variable cron_valid : string -> bool.
Variable cron_next : string -> Z -> option Z.
Variable utcnow : nat -> Z.
Variable perf_counter : nat -> Z.
Variable uuid4_hex : nat -> string.

Local Abbreviation run_due := (run_due utcnow perf_counter uuid4_hex).
Local Abbreviation step := (step cron_valid cron_next utcnow perf_counter uuid4_hex).
Local Abbreviation reach := (reach cron_valid cron_next utcnow perf_counter uuid4_hex).

(** C31: A task is not executed twice at the same time. In every reachable state,
    however many rounds and loops run, the executions under way are of tasks
    with different ids, and [_running_task_ids] is the set of these ids. *)
Theorem no_concurrent_execution s :
  reach s ->
  (forall p p' i, cur_id s p = Some i -> cur_id s p' = Some i -> p = p') /\
  (forall i, i ∈ sd_running_ids s <-> exists p, cur_id s p = Some i).
Proof. intros I%sched_reach_inv. split; [apply (sv_inj s I)|apply (sv_run s I)]. Qed.

(** No active task is forgotten. In every reachable state a registered active
    task has a next run, and a round that starts at that time or later finds it
    due, once, unless it is being executed. *)
Theorem active_tasks_are_due s id o t :
  reach s -> od_get id (sd_tasks s) = Some o -> sd_heap s !! o = Some t -> st_status t = "active" ->
  exists n, st_next_run t = Some n /\
    forall now, (n <= now)%Z ->
      id ∈ sd_running_ids s \/
      exists l k, due_tasks now s = l ++ o :: k /\ (o ∉ l) /\ (o ∉ k).
Proof.
  intros I%sched_reach_inv Hid Ho Ha. destruct (sv_heap s I _ _ Ho) as [_ Hs].
  destruct (Hs Ha) as [n Hn]. exists n. split; [done|]. intros now Hnow.
  destruct (sv_reg s I _ _ Hid) as (t' & T1 & T2). assert (t' = t) as -> by congruence.
  destruct (decide (id ∈ sd_running_ids s)) as [|Hr]; [by left|right].
  assert (o ∈ due_tasks now s) as (l & k & E)%list_elem_of_split.
  { apply due_tasks_elem; [done|]. exists id, t. unfold is_due. rewrite Ha, Hn. simpl.
    repeat split; try done. by apply Z.leb_le. }
  exists l, k. split; [done|]. pose proof (due_tasks_nodup now s I) as D. rewrite E in D.
  apply NoDup_app in D as (_ & D1 & D2). apply NoDup_cons in D2 as [D2 _].
  split; [|done]. intros H. apply (D1 _ H). left.
Qed.
(** ** One round at a time *)

(** The successful executions logged for an id. *)
Definition successes (id : string) (s : scheduler) : nat :=
  length (List.filter (fun g => bool_decide (lg_status g = "success"))
            (default [] (tl_logs (sd_logs s) !! id))).

(** No round is started while another one is under way. *)
Definition one_round (s : scheduler) (ev : event) : Prop :=
  match ev with
  | ERunPending => sd_procs s = ∅
  | EStart => sd_running s = true \/ sd_procs s = ∅
  | _ => True
  end.

Inductive reach_alone : scheduler -> Prop :=
| alone_init : reach_alone init_scheduler
| alone_step s ev r s' :
    reach_alone s -> one_round s ev -> step s ev = Some (r, s') -> reach_alone s'.

Lemma reach_alone_reach s : reach_alone s -> reach s.
Proof. induction 1; [apply reach_init|by eapply reach_step]. Qed.

Definition active (s : scheduler) (o : nat) : Prop :=
  exists t, sd_heap s !! o = Some t /\ st_status t = "active".

Record once_base (s : scheduler) : Prop := {
  ob_ids : forall o o' t t', sd_heap s !! o = Some t -> sd_heap s !! o' = Some t' ->
    st_id t = st_id t' -> o = o';
  ob_uuid : forall o t, sd_heap s !! o = Some t ->
    exists k, k < sd_uuids s /\ st_id t = "task-" +:+ uuid4_hex k;
  ob_logs : forall id l, tl_logs (sd_logs s) !! id = Some l ->
    exists o t, sd_heap s !! o = Some t /\ st_id t = id;
  ob_once : forall o t, sd_heap s !! o = Some t -> st_schedule_type t = "once" ->
    successes (st_id t) s <= if bool_decide (st_status t = "active") then 0 else 1
}.

Definition proc_ok (s : scheduler) (x : proc) : Prop :=
  match x with
  | PRound _ c _ _ rest => NoDup (c :: rest) /\ forall o, o ∈ c :: rest -> active s o
  | PSleep => True
  end.

Definition once_inv (s : scheduler) : Prop :=
  once_base s /\ (sd_procs s = ∅ \/ exists p x, sd_procs s = {[p := x]} /\ proc_ok s x).

Lemma base_ext s s' :
  sd_heap s = sd_heap s' -> sd_logs s = sd_logs s' -> sd_uuids s <= sd_uuids s' ->
  once_base s -> once_base s'.
Proof.
  intros E1 E2 Hu []. split; unfold successes in *; rewrite <- ?E1, <- ?E2; try assumption.
  intros o t H. destruct (ob_uuid0 _ _ H) as (k & K1 & K2). exists k. split; [lia|done].
Qed.

Lemma insert_alone p (x : proc) (m : gmap nat proc) : delete p m = ∅ -> <[p := x]> m = {[p := x]}.
Proof. intros H. by rewrite <- insert_delete_eq, H. Qed.

Lemma once_run_due p loop due s :
  once_base s -> delete p (sd_procs s) = ∅ -> NoDup due -> (forall o, o ∈ due -> active s o) ->
  once_inv (run_due p loop due s).
Proof.
  revert s. induction due as [|o due IH]; intros s B Hp Hd Ha; cbn [Scheduler.run_due].
  - unfold end_round. destruct loop; [destruct (sd_running s)|]; simpl.
    + split; [by eapply base_ext; [| | |exact B]|]. right. exists p, PSleep.
      split; [by apply insert_alone|done].
    + split; [by eapply base_ext; [| | |exact B]|by left].
    + split; [by eapply base_ext; [| | |exact B]|by left].
  - apply NoDup_cons in Hd as Hd'. destruct Hd' as [Hn Hd'].
    assert (R : once_inv (run_due p loop due s)) by (apply IH; try done; intros; apply Ha; by right).
    destruct (sd_heap s !! o) as [t|]; [|done]. case_bool_decide; [done|].
    split; [eapply base_ext; [| | |exact B]; simpl; [done|done|lia]|].
    right. eexists p, _. split; [by apply insert_alone|]. split; [done|exact Ha].
Qed.

Lemma once_round p loop s :
  sched_inv s -> once_base s -> delete p (sd_procs s) = ∅ ->
  once_inv (run_pending utcnow perf_counter uuid4_hex p loop s).
Proof.
  intros I B Hp. unfold run_pending. cbn [read_now].
  assert (I' : sched_inv (with_clock (S (sd_clock s)) s)) by (by eapply sched_inv_ext; [|exact I]).
  apply once_run_due; [by eapply base_ext; [| | |exact B]|done|by apply due_tasks_nodup|].
  intros o (id & t & _ & H2 & H3 & _)%due_tasks_elem; [|done]. exists t. split; [done|].
  unfold is_due in H3. by bool_hyps.
Qed.

Lemma log_outcome_frame t r a o s :
  let s' := log_outcome perf_counter t r a o s in
  sd_heap s' = sd_heap s /\ sd_procs s' = sd_procs s /\ sd_uuids s' = sd_uuids s /\
  (forall id, id <> st_id t -> successes id s' = successes id s) /\
  successes (st_id t) s' = successes (st_id t) s + (if outcome_ok o then 1 else 0) /\
  (forall id, is_Some (tl_logs (sd_logs s') !! id) ->
     id = st_id t \/ is_Some (tl_logs (sd_logs s) !! id)).
Proof.
  unfold log_outcome. assert (K : forall st out err,
    let s' := with_logs (record_log (st_id t) r (duration_ms a (perf_counter (sd_perf s))) st out err
      (sd_logs s)) (with_perf (S (sd_perf s)) s) in
    sd_heap s' = sd_heap s /\ sd_procs s' = sd_procs s /\ sd_uuids s' = sd_uuids s /\
    (forall id, id <> st_id t -> successes id s' = successes id s) /\
    successes (st_id t) s' =
      successes (st_id t) s + (if bool_decide (st = "success") then 1 else 0) /\
    (forall id, is_Some (tl_logs (sd_logs s') !! id) ->
       id = st_id t \/ is_Some (tl_logs (sd_logs s) !! id))).
  { intros st out err. unfold successes. simpl. repeat split.
    - intros id Hne. by rewrite lookup_insert_ne.
    - rewrite lookup_insert_eq. simpl. rewrite List.filter_app, length_app. simpl.
      by destruct (bool_decide _).
    - intros id. rewrite lookup_insert. case_decide; [by left|by right]. }
  unfold outcome_log, outcome_ok. destruct o as [res| |]; [|exact (K "error" None (Some msg))|].
  - destruct (coerce_execution_result res) as [out|[[] msg]]; [exact (K "success" out None)|
      exact (K "timeout" None (Some msg))|exact (K "error" None (Some msg))].
  - repeat split; [lia|]. by right.
Qed.

(** ** Creating a task *)

Definition text_of (v : option string) : string := match v with None => "" | Some s => strip s end.

Definition mode_known (mode : option string) : bool :=
  match mode with None => true | Some m => bool_decide (m ∈ ["openai"; "host"; "container"]) end.

(** What [create_task] accepts at the time [now]: a known execution mode, and a
    schedule of its type that has a next run. *)
Definition accepted (now : Z) (ty : string) (mode v : option string) (n : option datetime) : bool :=
  let text := text_of v in
  mode_known mode &&
  if bool_decide (ty = "once") then bool_decide (text = "") && bool_decide (is_Some n)
  else if bool_decide (ty = "interval") then
    match parse_int text with
    | Some k => (0 <? k)%Z && (bool_decide (is_Some n) || is_ok (after_interval now k))
    | None => false
    end
  else if bool_decide (ty = "cron") then
    negb (bool_decide (text = "")) && cron_valid text &&
    (bool_decide (is_Some n) || bool_decide (is_Some (cron_next text now)))
  else false.

Lemma validate_initialize now id g j pr mode ty v n c :
  let t := mkTask id g j pr mode ty v n "active" c in
  is_ok (_ ← validate_task cron_valid t; initialize_next_run cron_valid cron_next now t) =
  (if bool_decide (ty = "interval") then
     match parse_interval_seconds v with
     | Ok k => bool_decide (is_Some n) || is_ok (after_interval now k)
     | Err _ => false
     end
   else if bool_decide (ty = "cron") then
     match v with
     | Some s => negb (bool_decide (strip s = "")) && cron_valid s &&
                 (bool_decide (is_Some n) || bool_decide (is_Some (cron_next s now)))
     | None => false
     end
   else bool_decide (ty = "once") && bool_decide (is_Some n)).
Proof.
  intros t. unfold validate_task, initialize_next_run, t. simpl.
  destruct (bool_decide (ty = "interval")); [|destruct (bool_decide (ty = "cron"))].
  - destruct (parse_interval_seconds v) as [k|]; [|done]. simpl. destruct n; simpl; [done|].
    by destruct (after_interval now k).
  - destruct v as [s|]; [|done]. unfold parse_cron_expression.
    destruct (bool_decide (strip s = "")); [done|]. simpl.
    unfold make_cron, next_cron. destruct (cron_valid s) eqn:V; [|done]. simpl. destruct n; [done|]. simpl.
    unfold make_cron. rewrite V. simpl. by destruct (cron_next s now).
  - destruct (bool_decide (ty = "once")); [|done]. by destruct n.
Qed.

Lemma normalize_schedule_value_eq ty v :
  normalize_schedule_value ty v =
  if bool_decide (text_of v = "") then Ok None
  else if bool_decide (ty = "once") then raise (TaskValueError "once tasks do not accept schedule_value")
  else Ok (Some (text_of v)).
Proof. by destruct v. Qed.

Lemma normalize_execution_mode_ok mode :
  is_ok (normalize_execution_mode mode) = mode_known mode /\
  forall m, normalize_execution_mode mode = Ok m -> m = mode.
Proof.
  unfold normalize_execution_mode, mode_known. destruct mode as [m|]; [|split; [done|congruence]].
  destruct (bool_decide (m ∈ _)); split; try done; congruence.
Qed.

(** On normalized arguments the two checks accept what [accepted] describes. *)
Lemma validate_accepted now id g j pr mode ty v value n c :
  normalize_schedule_value ty v = Ok value -> mode_known mode = true ->
  let t := mkTask id g j pr mode ty value (utc_wall <$> n) "active" c in
  is_ok (_ ← validate_task cron_valid t; initialize_next_run cron_valid cron_next now t) =
  accepted now ty mode v n.
Proof.
  intros E Em t. unfold t. rewrite validate_initialize. rewrite normalize_schedule_value_eq in E.
  unfold accepted. rewrite Em. simpl andb.
  assert (bool_decide (is_Some (utc_wall <$> n)) = bool_decide (is_Some n)) as -> by (by destruct n).
  case_bool_decide as H1.
  - injection E as <-. rewrite H1. simpl. repeat case_bool_decide; simplify_eq; done.
  - destruct (bool_decide (ty = "once")) eqn:H2; [done|]. injection E as <-. simpl.
    assert (strip (text_of v) = text_of v) as Hs by (destruct v; [apply strip_idemp|done]).
    rewrite Hs. rewrite (bool_decide_eq_false_2 (text_of v = "")) by done.
    destruct (bool_decide (ty = "interval")); [|by destruct (bool_decide (ty = "cron"))].
    destruct (parse_int (text_of v)) as [k|]; [|done].
    destruct (Z.leb_spec k 0), (Z.ltb_spec 0 k); try lia; done.
Qed.

(** Creating a task. [create_task] succeeds exactly on the arguments
    [accepted] describes. It then registers, as a new object under a fresh id, an
    active task with the normalized schedule and a next run, that given if one
    was given; otherwise it registers nothing. *)
Theorem create_task_outcome g j pr ty mode v n s :
  let '(r, s') := create_task cron_valid cron_next utcnow uuid4_hex g j pr ty mode v n s in
  is_ok r = accepted (utcnow (S (sd_clock s))) ty mode v n /\
  match r with
  | Err _ => sd_tasks s' = sd_tasks s /\ sd_heap s' = sd_heap s
  | Ok t =>
      sd_tasks s' = od_set (st_id t) (sd_next s) (sd_tasks s) /\
      sd_heap s' = <[sd_next s := t]> (sd_heap s) /\
      st_id t = "task-" +:+ uuid4_hex (sd_uuids s) /\ st_status t = "active" /\
      st_schedule_type t = ty /\ st_execution_mode t = mode /\ is_Some (st_next_run t) /\
      (forall w, n = Some w -> st_next_run t = Some (utc_wall w))
  end.
Proof.
  unfold create_task. destruct (normalize_schedule_value ty v) as [value|] eqn:E.
  2:{ split; [|done]. rewrite normalize_schedule_value_eq in E. unfold accepted.
      case_bool_decide as H1; [done|]. case_bool_decide; [|done].
      simpl. by rewrite andb_false_r. }
  destruct (normalize_execution_mode_ok mode) as [Em Ev].
  destruct (normalize_execution_mode mode) as [m|] eqn:E2.
  2:{ split; [|done]. unfold accepted. by rewrite <- Em. }
  rewrite (Ev m eq_refl). cbn [read_now]. unfold upsert_task.
  pose proof (fun now c => validate_accepted now ("task-" +:+ uuid4_hex (sd_uuids s)) g j pr mode ty v value
    n c E (eq_sym Em)) as A. cbv zeta in A. specialize (A (utcnow (S (sd_clock s))) (utcnow (sd_clock s))).
  set (t0 := mkTask _ _ _ _ _ _ _ _ _ _) in *.
  destruct (validate_task cron_valid t0) as [[]|] eqn:V; [|by rewrite <- A]. cbn [read_now].
  simpl in A. change (sd_clock (with_clock _ _)) with (S (sd_clock s)).
  destruct (initialize_next_run _ _ _ t0) as [t|] eqn:I; [|by rewrite <- A].
  apply (initialize_ok _ _ _ _ _ V) in I as (I1 & I2 & I3 & I4 & I5 & I6).
  split; [by rewrite <- A|]. do 5 (split; [done|]).
  split; [by rewrite I5|]. split; [by apply I1|]. intros w ->. apply I6. by eexists.
Qed.

Context (uuid4_inj : forall i j, uuid4_hex i = uuid4_hex j -> i = j).

Lemma task_id_inj i j : "task-" +:+ uuid4_hex i = "task-" +:+ uuid4_hex j -> i = j.
Proof. intros H. apply (inj (String.append "task-")) in H. by apply uuid4_inj. Qed.

Lemma once_create g j pr ty mode v n s :
  sched_inv s -> once_inv s ->
  once_inv (create_task cron_valid cron_next utcnow uuid4_hex g j pr ty mode v n s).2.
Proof.
  intros I [B P]. assert (Same : forall s', sd_heap s = sd_heap s' -> sd_logs s = sd_logs s' ->
    sd_uuids s <= sd_uuids s' -> sd_procs s = sd_procs s' -> once_inv s').
  { intros s' E1 E2 E3 E4. split; [by eapply base_ext; [| | |exact B]|].
    unfold proc_ok, active in *. by rewrite <- E4, <- E1. }
  unfold create_task. destruct (normalize_schedule_value ty v) as [v'|]; [|done].
  destruct (normalize_execution_mode mode) as [m'|]; [|done]. cbn [read_now]. unfold upsert_task.
  destruct (validate_task _ _) as [[]|] eqn:V; [|apply Same; simpl; done || lia]. cbn [read_now].
  destruct (initialize_next_run _ _ _ _) as [t|] eqn:E; [|apply Same; simpl; done || lia].
  apply (initialize_ok _ _ _ _ _ V) in E as (_ & Hid & Hst & _). cbn [snd]. simpl in Hid, Hst.
  assert (F : sd_heap s !! sd_next s = None).
  { apply eq_None_not_Some. intros [x H]. apply (sv_heap s I) in H. lia. }
  assert (N : forall o x, sd_heap s !! o = Some x -> st_id x <> st_id t).
  { intros o x Hx Hc. destruct (ob_uuid s B _ _ Hx) as (k & K1 & K2). rewrite K2, Hid in Hc.
    apply task_id_inj in Hc. lia. }
  assert (Z0 : tl_logs (sd_logs s) !! st_id t = None).
  { apply eq_None_not_Some. intros [l Hl]. destruct (ob_logs s B _ _ Hl) as (o & x & X1 & X2).
    by apply (N o x). }
  split.
  - destruct B. split; simpl.
    + intros o o' x x'. rewrite !lookup_insert. do 2 case_decide; subst; try done.
      * intros [= <-] Hx Hc. by destruct (N _ _ Hx).
      * intros Hx [= <-] Hc. by destruct (N _ _ Hx).
      * apply ob_ids0.
    + intros o x. rewrite lookup_insert. case_decide as D.
      * intros [= <-]. exists (sd_uuids s). split; [lia|done].
      * intros Hx. destruct (ob_uuid0 _ _ Hx) as (k & K1 & K2). exists k. split; [lia|done].
    + intros id l Hl. destruct (ob_logs0 _ _ Hl) as (o & x & X1 & X2). exists o, x.
      rewrite lookup_insert_ne; [done|congruence].
    + intros o x. rewrite lookup_insert. case_decide as D; [|apply ob_once0].
      intros [= <-] _. rewrite Hst. simpl. unfold successes. simpl. by rewrite Z0.
  - simpl. destruct P as [P|(p & x & P1 & P2)]; [by left|right]. exists p, x. split; [done|].
    destruct x as [l c r a rest|]; [|done]. destruct P2 as [P2 P3]. split; [done|].
    intros o Ho. destruct (P3 o Ho) as (y & Y1 & Y2). exists y. split; [|done]. simpl.
    rewrite lookup_insert_ne; [done|congruence].
Qed.

Lemma once_executed p o s s' :
  once_inv s -> executed cron_valid cron_next utcnow perf_counter uuid4_hex p o s = Some s' ->
  once_inv s'.
Proof.
  intros [B P]. unfold executed. destruct (sd_procs s !! p) as [[l c r a rest|]|] eqn:Hp; [|done..].
  destruct (sd_heap s !! c) as [t|] eqn:Hc; [|done]. cbv zeta.
  destruct P as [P|(p' & x & P1 & P2)]; [by rewrite P, lookup_empty in Hp|].
  assert (p' = p /\ x = PRound l c r a rest) as [-> ->].
  { rewrite P1 in Hp. apply lookup_singleton_Some in Hp as [-> ->]. done. }
  destruct P2 as [Nd Ac]. apply NoDup_cons in Nd as [Nc Nd].
  destruct (log_outcome_frame t r a o s) as (L1 & L2 & L3 & L4 & L5 & L6).
  set (s1 := log_outcome perf_counter t r a o s) in *. clearbody s1.
  assert (At : st_status t = "active").
  { destruct (Ac c) as (y & Y1 & Y2); [by left|]. congruence. }
  assert (Dl : delete p (sd_procs s1) = ∅) by (rewrite L2, P1; apply delete_singleton_eq).
  (* the task is rescheduled, or not *)
  assert (K : forall t', st_id t' = st_id t -> st_schedule_type t' = st_schedule_type t ->
    (outcome_ok o = true -> st_schedule_type t = "once" -> st_status t' <> "active") ->
    forall s2, sd_heap s2 = <[c := t']> (sd_heap s) -> sd_logs s2 = sd_logs s1 ->
      sd_uuids s2 = sd_uuids s -> once_base s2).
  { intros t' H1 H2 H3 s2 E1 E2 E3. destruct B. unfold successes in *.
    assert (G : forall o2 x2, sd_heap s2 !! o2 = Some x2 ->
      exists x, sd_heap s !! o2 = Some x /\ st_id x2 = st_id x).
    { intros o2 x2. rewrite E1, lookup_insert. case_decide; [|by eauto]. intros [= <-]. subst. by exists t. }
    split; unfold successes; rewrite ?E2, ?E3.
    - intros o2 o3 x2 x3 (y2 & Y1 & Y2)%G (y3 & Y3 & Y4)%G E. apply (ob_ids0 o2 o3 y2 y3); congruence.
    - intros o2 x2 (y & Y1 & ->)%G. by apply (ob_uuid0 o2).
    - intros id lg Hl. assert (exists o2 x2, sd_heap s !! o2 = Some x2 /\ st_id x2 = id) as (o2 & x2 & X1 & X2).
      { destruct (L6 id) as [->|[lg' Hl']]; [by eexists|by exists c, t|by eapply ob_logs0]. }
      rewrite E1. destruct (decide (o2 = c)) as [->|]; [exists c, t'; rewrite lookup_insert_eq|].
      + split; [done|congruence].
      + exists o2, x2. by rewrite lookup_insert_ne.
    - intros o2 x2. rewrite E1, lookup_insert. case_decide as D.
      + intros [= <-] Ht. subst. rewrite H1, L5. rewrite H2 in Ht.
        pose proof (ob_once0 _ _ Hc Ht) as O. rewrite At in O. simpl in O.
        destruct (outcome_ok o); [rewrite bool_decide_eq_false_2 by auto; lia|].
        case_bool_decide; lia.
      + intros Hx Ht. rewrite L4; [exact (ob_once0 _ _ Hx Ht)|]. intros E. apply D.
        symmetry. exact (ob_ids0 o2 c x2 t Hx Hc E). }
  assert (Acr : forall t' s2, sd_heap s2 = <[c := t']> (sd_heap s) ->
    forall o2, o2 ∈ rest -> active s2 o2).
  { intros t' s2 E o2 H2. destruct (Ac o2) as (y & Y1 & Y2); [by right|]. exists y. split; [|done].
    rewrite E, lookup_insert_ne; [done|]. intros ->. done. }
  assert (Kill : forall s2, once_base s2 -> delete p (sd_procs s2) = ∅ -> once_inv (kill_round p l s2)).
  { intros s2 B2 D2. unfold kill_round. split; [|left; by destruct l].
    destruct l; by eapply base_ext; [| | |exact B2]. }
  assert (Hself : <[c := t]> (sd_heap s) = sd_heap s) by by apply insert_id.
  destruct (outcome_ok o) eqn:Ok.
  - cbn [read_now]. destruct (mark_task_after_success _ _ _ _ _) as [t'|] eqn:M; intros [= <-].
    + apply mark_ok in M as (_ & M2 & M3 & M4). apply once_run_due; [|done|done|].
      * apply (K t'); [done|done| |simpl; by rewrite L1|done|simpl; by rewrite L3].
        intros _ Ho. destruct (M4 Ho) as [-> _]. done.
      * apply (Acr t'). simpl. by rewrite L1.
    + apply Kill; [|done].
      assert (st_schedule_type t <> "once").
      { intros Ho. unfold mark_task_after_success in M. by rewrite bool_decide_eq_true_2 in M. }
      apply (K t); [done|done|done|simpl; by rewrite L1, Hself|done|simpl; by rewrite L3].
  - assert (B1 : forall s2, sd_heap s2 = sd_heap s -> sd_logs s2 = sd_logs s1 -> sd_uuids s2 = sd_uuids s ->
      once_base s2) by (intros s2 E1 E2 E3; apply (K t); [done|done|done|by rewrite E1, Hself|done|done]).
    destruct o; intros [= <-];
      [apply once_run_due; [by apply B1|done|done|intros o2 Ho2; apply (Acr t); [simpl; by rewrite L1, Hself|done]]..|].
    apply Kill; [by apply B1|done].
Qed.

Lemma once_step s ev r s' :
  sched_inv s -> once_inv s -> one_round s ev -> step s ev = Some (r, s') -> once_inv s'.
Proof.
  intros I O A. destruct ev as [g j pr ty mode v n|id| | | |p|p o]; simpl.
  - destruct (create_task _ _ _ _ _ _ _ _ _ _ _ _) as [x s1] eqn:E. intros [= _ <-].
    pose proof (once_create g j pr ty mode v n s I O) as H. by rewrite E in H.
  - intros [= _ <-]. destruct O as [B P]. split; [by eapply base_ext; [| | |exact B]|exact P].
  - intros [= _ <-]. simpl in A. apply once_round.
    + by apply sched_inv_next; [lia|].
    + destruct O as [B _]. by eapply base_ext; [| | |exact B].
    + simpl. rewrite A. apply delete_empty.
  - intros [= _ <-]. unfold start. destruct (sd_running s) eqn:R; [done|].
    destruct A as [A|A]; [congruence|]. destruct O as [B _]. apply once_round.
    + apply (sched_inv_next (S (sd_next s))) in I; [|lia]. by eapply sched_inv_ext; [|exact I].
    + by eapply base_ext; [| | |exact B].
    + simpl. rewrite A. apply delete_empty.
  - intros [= _ <-]. destruct O as [B P]. split; [by eapply base_ext; [| | |exact B]|exact P].
  - destruct (sd_procs s !! p) as [[|]|] eqn:Hp; [done| |done]. intros [= _ <-].
    destruct O as [B P]. assert (D : delete p (sd_procs s) = ∅).
    { destruct P as [P|(p' & x & P1 & _)]; [by rewrite P, lookup_empty in Hp|].
      rewrite P1 in *. apply lookup_singleton_Some in Hp as [-> _]. apply delete_singleton_eq. }
    unfold wake. destruct (sd_running s); [by apply once_round|].
    split; [by eapply base_ext; [| | |exact B]|by left].
  - destruct (executed _ _ _ _ _ _ _ _) as [s1|] eqn:E; [|done]. intros [= _ <-].
    by eapply once_executed.
Qed.

(** A one-off task succeeds at most once. While no round is started during
    another one, the log of a one-off task holds at most one successful
    execution, and none while the task is active. *)
Theorem once_succeeds_once s o t :
  reach_alone s -> sd_heap s !! o = Some t -> st_schedule_type t = "once" ->
  successes (st_id t) s <= if bool_decide (st_status t = "active") then 0 else 1.
Proof.
  intros R. enough (once_inv s) as [B _] by apply (ob_once s B).
  induction R as [|s ev r s' R IH A E].
  - split; [split; simpl; intros *; by rewrite ?lookup_empty|by left].
  - apply (once_step s ev r s'); [|done..]. eapply sched_reach_inv. by apply reach_alone_reach.
Qed.
End props.

(** ** Concrete runs *)

Definition sx_clock (n : nat) : Z := (Z.of_nat n * 1000000)%Z.
Definition sx_uuid (n : nat) : string := pretty n.

Lemma sx_uuid_inj i j : sx_uuid i = sx_uuid j -> i = j.
Proof. apply (inj pretty). Qed.

Definition sx_cron (e : string) (t : Z) : option Z := Some (t + 60000000)%Z.
Definition sx_run (evs : list event) : option scheduler :=
  run_events (fun _ => true) sx_cron sx_clock sx_clock sx_uuid evs init_scheduler.
Definition sx_state (evs : list event) : scheduler := default init_scheduler (sx_run evs).

Lemma sx_reach evs : is_Some (sx_run evs) ->
  reach (fun _ => true) sx_cron sx_clock sx_clock sx_uuid (sx_state evs).
Proof.
  intros [s H]. unfold sx_state. rewrite H. eapply run_scheduler_reach; [apply reach_init|exact H].
Qed.

Definition sx_once : event := ECreate "g" "c" "hello" "once" None None (Some (Naive 0)).
Definition sx_every (v : string) : event := ECreate "g" "c" "hello" "interval" None (Some v) None.
Definition sx_done : task_outcome := 
  ORan (mkResult "r" StCompleted "g" "openai" "s0" "main" (Some "ok") None None).

(** Two one-off tasks, and two overlapping rounds: each executes one of them. *)
Definition sx_two : list event := [sx_once; sx_once; ERunPending; ERunPending].

Lemma no_concurrent_execution_witness :
  cur_id (sx_state sx_two) 2 = Some "task-0" /\ cur_id (sx_state sx_two) 3 = Some "task-1" /\
  ("task-1" ∈ sd_running_ids (sx_state sx_two)).
Proof.
  assert (cur_id (sx_state sx_two) 3 = Some "task-1") as H by (vm_compute; reflexivity).
  split; [vm_compute; reflexivity|]. split; [exact H|].
  apply (no_concurrent_execution (fun _ => true) sx_cron sx_clock sx_clock sx_uuid (sx_state sx_two)).
  - apply sx_reach. by eexists.
  - by exists 3.
Defined.

Lemma interval_next_run_witness :
  compute_next_run (fun _ => true) sx_cron 0 150000000
    (mkTask "t" "g" "c" "p" None "interval" (Some "60") (Some 0%Z) "active" 0) = Ok (Some 180000000%Z).
Proof.
  pose proof (interval_next_run (fun _ => true) sx_cron 0 150000000
    (mkTask "t" "g" "c" "p" None "interval" (Some "60") (Some 0%Z) "active" 0) 60 eq_refl
    ltac:(vm_compute; reflexivity) ltac:(lia) ltac:(vm_compute; discriminate)
    ltac:(split; vm_compute; discriminate)) as (_ & _ & _ & _ & H).
  rewrite H. vm_compute. reflexivity.
Defined.

Lemma active_tasks_are_due_witness :
  exists n, st_next_run (default (mkTask "" "" "" "" None "" None None "" 0)
      (sd_heap (sx_state [sx_once]) !! 0)) = Some n /\
    exists l k, due_tasks (Z.max n 7) (sx_state [sx_once]) = l ++ 0 :: k /\ (0 ∉ l) /\ (0 ∉ k).
Proof.
  set (s := sx_state [sx_once]).
  destruct (active_tasks_are_due (fun _ => true) sx_cron sx_clock sx_clock sx_uuid s "task-0" 0
    (default (mkTask "" "" "" "" None "" None None "" 0) (sd_heap s !! 0))) as (n & H1 & H2).
  - apply sx_reach. by eexists.
  - vm_compute. reflexivity.
  - vm_compute. reflexivity.
  - vm_compute. reflexivity.
  - exists n. split; [exact H1|]. destruct (H2 (Z.max n 7) ltac:(lia)) as [H|H]; [exfalso|exact H].
    replace (sd_running_ids s) with (∅ : gset string) in H by (vm_compute; reflexivity).
    exact (not_elem_of_empty _ H).
Defined.

Lemma once_succeeds_once_witness :
  let s := sx_state [sx_once; ERunPending; EExecuted 1 sx_done] in
  successes "task-0" s = 1 /\
  exists t, sd_heap s !! 0 = Some t /\
    successes (st_id t) s <= if bool_decide (st_status t = "active") then 0 else 1.
Proof.
  set (s := sx_state [sx_once; ERunPending; EExecuted 1 sx_done]).
  split; [vm_compute; reflexivity|].
  exists (default (mkTask "" "" "" "" None "" None None "" 0) (sd_heap s !! 0)).
  split; [vm_compute; reflexivity|].
  apply (once_succeeds_once (fun _ => true) sx_cron sx_clock sx_clock sx_uuid sx_uuid_inj s 0);
    [|vm_compute; reflexivity|vm_compute; reflexivity].
  eapply (alone_step _ _ _ _ _ (sx_state [sx_once; ERunPending]) (EExecuted 1 sx_done));
    [|exact Logic.I|vm_compute; reflexivity].
  eapply (alone_step _ _ _ _ _ (sx_state [sx_once]) ERunPending);
    [|vm_compute; reflexivity|vm_compute; reflexivity].
  eapply (alone_step _ _ _ _ _ init_scheduler sx_once);
    [constructor|exact Logic.I|vm_compute; reflexivity].
Defined.

(** Overlapping rounds execute a one-off task twice: the first round keeps the
    object the second one has completed meanwhile. *)
Example overlapping_rounds_repeat_a_one_off :
  let s := sx_state (sx_two ++ [EExecuted 3 sx_done; EExecuted 2 sx_done; EExecuted 2 sx_done]) in
  successes "task-1" s = 2 /\ map rq_request_id (sd_requests s) =
    [Some "task-0-2"; Some "task-1-3"; Some "task-1-4"].
Proof. vm_compute. split; reflexivity. Qed.

(** A task deleted after a round has found it due is still executed. *)
Example deleted_task_still_runs :
  let s := sx_state [sx_once; sx_once; ERunPending; EDelete "task-1"; EExecuted 2 sx_done] in
  od_get "task-1" (sd_tasks s) = None /\ cur_id s 2 = Some "task-1".
Proof. vm_compute. split; reflexivity. Qed.

(** Stopping and starting the scheduler during the sleep leaves two loops. *)
Example restart_gives_two_loops :
  let s := sx_state [EStart; EStop; EStart; EWake 0] in
  sd_running s = true /\ sd_procs s !! 0 = Some PSleep /\ sd_procs s !! 1 = Some PSleep.
Proof. vm_compute. repeat split; reflexivity. Qed.

(** An interval beyond the range of datetimes is not a [ValueError]. *)
Example huge_interval_overflows :
  (step (fun _ => true) sx_cron sx_clock sx_clock sx_uuid init_scheduler
     (sx_every "99999999999999999")) ≫= (fun x => Some x.1) = Some (RRaised TaskOverflowError).
Proof. vm_compute. reflexivity. Qed.
