(* ===== verification/Auth.v ===== *)
(** * Users, invite codes and tokens

    [services/auth.py], the dependencies of [app/middleware/auth.py], and the
    handlers of [app/routes/auth.py] and [app/routes/users.py] that use them.
    The service lives in memory and its operations do not suspend: a request is
    one step. [scrypt] is the primitive of [hashlib]; [jwt_encode] and
    [jwt_decode] stand for the [jose] package. *)


From stdpp Require Import base gmap strings list option sets.
From Stdlib Require Import ZArith Lia Ascii.
From S2P Require Import Prelude PyStr PyInt PyBase64 PySort PyDict.

(** * Roles and permissions ([domain/permissions.py]) *)


Definition PermissionMapping := list (string * list string).

Definition PERMISSION_TEMPLATES : list (string * PermissionMapping) :=
  [("owner", [("users", ["read"; "write"; "delete"; "admin"]);
              ("groups", ["read"; "write"; "delete"]);
              ("messages", ["read"; "write"]);
              ("tasks", ["read"; "write"; "execute"]);
              ("settings", ["read"; "write"])]);
   ("admin", [("users", ["read"; "write"]);
              ("groups", ["read"; "write"]);
              ("messages", ["read"; "write"]);
              ("tasks", ["read"; "write"; "execute"]);
              ("settings", ["read"])]);
   ("member", [("groups", ["read"]); ("messages", ["read"; "write"]); ("tasks", ["read"])])].

(** A role is [None] when an update stored a null. *)
Definition get_permissions_for_role (role : option string) : PermissionMapping :=
  match role with
  | Some r => default [] (od_get r PERMISSION_TEMPLATES)
  | None => []
  end.

Definition has_permission (role : option string) (resource action : string) : bool :=
  bool_decide (action ∈ default [] (od_get resource (get_permissions_for_role role))).

(** The roles with a permission, by inspection of the templates. *)
Lemma has_permission_role r resource action :
  has_permission r resource action = true ->
  exists role, r = Some role /\ role ∈ ["owner"; "admin"; "member"].
Proof.
  unfold has_permission. intros H%bool_decide_eq_true. destruct r as [role|]; [|by apply not_elem_of_nil in H].
  exists role. split; [done|]. unfold get_permissions_for_role, PERMISSION_TEMPLATES in H. cbn [od_get] in H.
  repeat case_decide; subst; try set_solver; exfalso; simpl in H; by apply not_elem_of_nil in H.
Qed.

Lemma users_write_role r : has_permission r "users" "write" = true <-> r = Some "owner" \/ r = Some "admin".
Proof.
  split.
  - intros H. destruct (has_permission_role _ _ _ H) as (role & -> & Hr).
    rewrite !elem_of_cons in Hr. destruct Hr as [->|[->|[->|Hr]]]; [by left|by right|done|].
    by apply not_elem_of_nil in Hr.
  - intros [->| ->]; reflexivity.
Qed.

(** A role can do whatever a lower one can. *)
Lemma permissions_nested resource action :
  (has_permission (Some "member") resource action = true ->
   has_permission (Some "admin") resource action = true) /\
  (has_permission (Some "admin") resource action = true ->
   has_permission (Some "owner") resource action = true).
Proof.
  unfold has_permission. rewrite !bool_decide_eq_true.
  cbv [get_permissions_for_role PERMISSION_TEMPLATES default].
  repeat match goal with
  | |- context [od_get ?r (_ :: _)] =>
      lazymatch r with resource => fail | _ =>
        let x := eval vm_compute in (od_get r PERMISSION_TEMPLATES) in change (od_get r _) with x end
  end. cbv [id]. cbn [od_get].
  split; repeat case_decide; subst; try discriminate; rewrite ?elem_of_cons; try done; try tauto;
  by intros ?%not_elem_of_nil.
Qed.

(** * Users, invite codes and tokens *)

(** ** Passwords *)

Definition PASSWORD_HASH_SCHEME := "scrypt-v1".
Definition PASSWORD_HASH_N : Z := 16384.
Definition PASSWORD_HASH_R : Z := 8.
Definition PASSWORD_HASH_P : Z := 1.
Definition PASSWORD_HASH_DKLEN : Z := 32.
Definition PASSWORD_HASH_SALT_BYTES : nat := 16.

(** [_base64_urlsafe_encode], [_base64_urlsafe_decode]; the error is a
    [ValueError]. *)
Definition base64_urlsafe_encode (value : bytes) : string :=
  of_chars (rstrip_pad (urlsafe_b64encode value)).
Definition base64_urlsafe_decode (value : string) : option bytes :=
  let l := str_chars value in
  if bool_decide (l = []) then None
  else if forallb (fun c => (code c <? 128)%N) l
  then urlsafe_b64decode (l ++ repeat pad_char (Nat.modulo (4 - Nat.modulo (length l) 4) 4))
  else None.

Section passwords.
(** [hashlib.scrypt] of a password and a salt with [n], [r], [p], [dklen]. *)
Variable scrypt : bytes -> bytes -> Z -> Z -> Z -> Z -> bytes.

Definition derive_password_key (password : string) (salt : bytes) : bytes :=
  scrypt (utf8_encode password) salt PASSWORD_HASH_N PASSWORD_HASH_R PASSWORD_HASH_P PASSWORD_HASH_DKLEN.

Definition hash_password (salt : bytes) (password : string) : string :=
  PASSWORD_HASH_SCHEME +:+ "$16384$8$1$32$" +:+ base64_urlsafe_encode salt +:+ "$" +:+
  base64_urlsafe_encode (derive_password_key password salt).

(** [None] is a [ValueError], which [verify_password] takes for [False]. *)
Definition verify_password_body (password password_hash : string) : option bool :=
  match py_split "$"%char password_hash with
  | [scheme; n; r; p; dklen; salt_payload; digest_payload] =>
      if bool_decide (scheme <> PASSWORD_HASH_SCHEME) then Some false
      else
        n ← parse_int n; r ← parse_int r; p ← parse_int p; dklen ← parse_int dklen;
        if bool_decide (n <> PASSWORD_HASH_N \/ r <> PASSWORD_HASH_R \/
                        p <> PASSWORD_HASH_P \/ dklen <> PASSWORD_HASH_DKLEN) then Some false
        else
          salt ← base64_urlsafe_decode salt_payload;
          expected ← base64_urlsafe_decode digest_payload;
          if bool_decide (length salt <> PASSWORD_HASH_SALT_BYTES \/
                          Z.of_nat (length expected) <> PASSWORD_HASH_DKLEN) then Some false
          else Some (bool_decide (derive_password_key password salt = expected))
  | _ => None
  end.
Definition verify_password (password password_hash : string) : bool :=
  default false (verify_password_body password password_hash).
End passwords.

(** ** Data *)

Record AuthUser := mkUser {
  au_id : string;
  au_username : string;
  au_role : option string;
  au_status : option string;
  au_avatar_emoji : option string;
  au_avatar_color : option string;
  au_ai_name : option string;
  au_ai_avatar_emoji : option string;
  au_must_change_password : option bool;
  au_last_login_at : option Z;
  au_disable_reason : option string;
  au_notes : option string
}.

Record UserRecord := mkRecord { ur_user : AuthUser; ur_password_hash : string }.

Record AuthInviteCode := mkInvite {
  ic_code : string;
  ic_created_by : string;
  ic_role : string;
  ic_permission_template : option string;
  ic_expires_at : option datetime;
  ic_used_by : option string;
  ic_used_at : option Z
}.

Inductive auth_error :=
| UserAlreadyExistsError (username : string)
| UserNotFoundError (user_id : string)
| InviteCodeAlreadyExistsError (code : string)
| InviteCodeUnavailableError (code : string)
| AuthKeyError (key : string)
| AuthOverflowError.

Record auth_state := mkAuth {
  as_by_username : list (string * UserRecord);
  as_by_id : list (string * AuthUser);
  as_invites : list (string * AuthInviteCode);
  as_uuids : nat;
  as_salts : nat;
  as_clock : nat
}.

Definition init_auth : auth_state := mkAuth [] [] [] 0 0 0.

Definition with_users (u : list (string * UserRecord)) (i : list (string * AuthUser)) (s : auth_state) :=
  mkAuth u i (as_invites s) (as_uuids s) (as_salts s) (as_clock s).
Definition with_invites (c : list (string * AuthInviteCode)) (s : auth_state) :=
  mkAuth (as_by_username s) (as_by_id s) c (as_uuids s) (as_salts s) (as_clock s).
Definition with_auth_uuids (n : nat) (s : auth_state) :=
  mkAuth (as_by_username s) (as_by_id s) (as_invites s) n (as_salts s) (as_clock s).
Definition with_salts (n : nat) (s : auth_state) :=
  mkAuth (as_by_username s) (as_by_id s) (as_invites s) (as_uuids s) n (as_clock s).
Definition with_auth_clock (n : nat) (s : auth_state) :=
  mkAuth (as_by_username s) (as_by_id s) (as_invites s) (as_uuids s) (as_salts s) n.

(** The fields of a PATCH: absent, or a value that can be null. *)
Record user_changes := mkChanges {
  ch_role : option (option string);
  ch_status : option (option string);
  ch_avatar_emoji : option (option string);
  ch_avatar_color : option (option string);
  ch_ai_name : option (option string);
  ch_ai_avatar_emoji : option (option string);
  ch_must_change_password : option (option bool);
  ch_disable_reason : option (option string);
  ch_notes : option (option string)
}.

Definition no_changes : user_changes := mkChanges None None None None None None None None None.

(** [replace(current_user, **updated_fields)]. *)
Definition replace_user (c : user_changes) (u : AuthUser) : AuthUser :=
  mkUser (au_id u) (au_username u) (default (au_role u) (ch_role c)) (default (au_status u) (ch_status c))
    (default (au_avatar_emoji u) (ch_avatar_emoji c)) (default (au_avatar_color u) (ch_avatar_color c))
    (default (au_ai_name u) (ch_ai_name c)) (default (au_ai_avatar_emoji u) (ch_ai_avatar_emoji c))
    (default (au_must_change_password u) (ch_must_change_password c)) (au_last_login_at u)
    (default (au_disable_reason u) (ch_disable_reason c)) (default (au_notes u) (ch_notes c)).

(** [replace(invite, used_by=used_by, used_at=used_at)]. *)
Definition mark_used (used_by : string) (used_at : Z) (i : AuthInviteCode) : AuthInviteCode :=
  mkInvite (ic_code i) (ic_created_by i) (ic_role i) (ic_permission_template i) (ic_expires_at i)
    (Some used_by) (Some used_at).

(** What [jwt.decode] gives: the subject if it is a string. *)
Record claims := mkClaims { cl_sub : option string; cl_exp : Z }.

Section service.
Variable scrypt : bytes -> bytes -> Z -> Z -> Z -> Z -> bytes.
(** [jwt.encode] and [jwt.decode], at a time, under the secret of the service. *)
Variable jwt_encode : claims -> string.
Variable jwt_decode : Z -> string -> option claims.
Variable uuid4_hex : nat -> string.
Variable urandom : nat -> bytes.
Variable now_utc : nat -> Z.
(** [timedelta(hours=access_token_expire_hours)]. *)
Variable access_token_expires_delta : Z.

Definition read_utc (s : auth_state) : Z * auth_state :=
  (now_utc (as_clock s), with_auth_clock (S (as_clock s)) s).

(** [_get_available_invite]. *)
Definition get_available_invite (c : string) (s : auth_state) :
    result auth_error AuthInviteCode * auth_state :=
  match od_get c (as_invites s) with
  | None => (raise (InviteCodeUnavailableError c), s)
  | Some i =>
      if bool_decide (is_Some (ic_used_by i) \/ is_Some (ic_used_at i))
      then (raise (InviteCodeUnavailableError c), s)
      else match ic_expires_at i with
           | None => (Ok i, s)
           | Some e =>
               let '(now, s) := read_utc s in
               if (utc_wall e <? now)%Z then (raise (InviteCodeUnavailableError c), s) else (Ok i, s)
           end
  end.

(** [consume_invite_code]. *)
Definition consume_invite_code (c used_by : string) (s : auth_state) :
    result auth_error AuthInviteCode * auth_state :=
  let '(r, s) := get_available_invite c s in
  match r with
  | Err e => (raise e, s)
  | Ok i =>
      let '(now, s) := read_utc s in
      let i := mark_used used_by now i in
      (Ok i, with_invites (od_set c i (as_invites s)) s)
  end.

(** The role of a new user: that of the invite, if there is one. *)
Definition effective_role (role : string) (invite_code : option string) (s : auth_state) :
    result auth_error string * auth_state :=
  match invite_code with
  | None => (Ok role, s)
  | Some c => let '(r, s) := get_available_invite c s in (ic_role <$> r, s)
  end.

Definition new_user (id username role : string) : AuthUser :=
  mkUser id username (Some role) (Some "active") None None None None (Some false) None None None.

(** [register_user]. *)
Definition register_user (username password role : string) (invite_code : option string)
    (s : auth_state) : result auth_error AuthUser * auth_state :=
  if bool_decide (is_Some (od_get username (as_by_username s)))
  then (raise (UserAlreadyExistsError username), s)
  else
    let '(r, s) := effective_role role invite_code s in
    match r with
    | Err e => (raise e, s)
    | Ok role =>
        let user := new_user (uuid4_hex (as_uuids s)) username role in
        let s := with_auth_uuids (S (as_uuids s)) s in
        let record := mkRecord user (hash_password scrypt (urandom (as_salts s)) password) in
        let s := with_salts (S (as_salts s)) s in
        let s := with_users (od_set username record (as_by_username s))
                            (od_set (au_id user) user (as_by_id s)) s in
        match invite_code with
        | None => (Ok user, s)
        | Some c =>
            let '(r, s) := consume_invite_code c (au_id user) s in
            match r with Ok _ => (Ok user, s) | Err e => (raise e, s) end
        end
    end.

(** [list_users], [list_invite_codes]. *)
Definition list_users (s : auth_state) : list AuthUser :=
  py_sorted au_username (od_values (as_by_id s)).
Definition list_invite_codes (s : auth_state) : list AuthInviteCode :=
  py_sorted ic_code (od_values (as_invites s)).

(** [create_invite_code]; [uuid4().hex[:12]] when no code is given. *)
Definition create_invite_code (created_by role : string) (permission_template : option string)
    (expires_at : option datetime) (c : option string) (s : auth_state) :
    result auth_error AuthInviteCode * auth_state :=
  let '(c, s) :=
    match c with
    | Some x => if bool_decide (x = "")
                then (of_chars (take 12 (str_chars (uuid4_hex (as_uuids s)))), with_auth_uuids (S (as_uuids s)) s)
                else (x, s)
    | None => (of_chars (take 12 (str_chars (uuid4_hex (as_uuids s)))), with_auth_uuids (S (as_uuids s)) s)
    end in
  if bool_decide (is_Some (od_get c (as_invites s))) then (raise (InviteCodeAlreadyExistsError c), s)
  else
    let i := mkInvite c created_by role permission_template expires_at None None in
    (Ok i, with_invites (od_set c i (as_invites s)) s).

(** [update_user]. *)
Definition update_user (user_id : string) (c : user_changes) (s : auth_state) :
    result auth_error AuthUser * auth_state :=
  match od_get user_id (as_by_id s) with
  | None => (raise (UserNotFoundError user_id), s)
  | Some u =>
      let u := replace_user c u in
      match od_get (au_username u) (as_by_username s) with
      | None => (raise (AuthKeyError (au_username u)), s)
      | Some r =>
          (Ok u, with_users (od_set (au_username u) (mkRecord u (ur_password_hash r)) (as_by_username s))
                            (od_set user_id u (as_by_id s)) s)
      end
  end.

(** [authenticate_user]. *)
Definition authenticate_user (username password : string) (s : auth_state) : option AuthUser :=
  match od_get username (as_by_username s) with
  | None => None
  | Some r => if verify_password scrypt password (ur_password_hash r) then Some (ur_user r) else None
  end.

(** [create_access_token]. *)
Definition create_access_token (user_id : string) (s : auth_state) :
    result auth_error string * auth_state :=
  let '(now, s) := read_utc s in
  match datetime_add now access_token_expires_delta with
  | None => (raise AuthOverflowError, s)
  | Some exp => (Ok (jwt_encode (mkClaims (Some user_id) exp)), s)
  end.

(** [decode_access_token]. *)
Definition decode_access_token (token : string) (s : auth_state) : option string * auth_state :=
  let '(now, s) := read_utc s in (jwt_decode now token ≫= cl_sub, s).

(** ** Requests

    The status and detail of an [HTTPException]; an exception no handler
    catches is a 500. *)

Definition http_error : Type := Z * string.
Definition unauthorized : http_error := (401%Z, "invalid or missing token").
Definition forbidden : http_error := (403%Z, "permission denied").
Definition server_error : http_error := (500%Z, "").

(** [get_current_user]. *)
Definition get_current_user (credentials : option string) (s : auth_state) :
    result http_error AuthUser * auth_state :=
  match credentials with
  | None => (raise unauthorized, s)
  | Some token =>
      let '(id, s) := decode_access_token token s in
      (match id ≫= (fun id => od_get id (as_by_id s)) with
       | Some u => Ok u
       | None => raise unauthorized
       end, s)
  end.

(** [require_permission]. *)
Definition require_permission (resource action : string) (credentials : option string) (s : auth_state) :
    result http_error AuthUser * auth_state :=
  let '(r, s) := get_current_user credentials s in
  (u ← r; if has_permission (au_role u) resource action then Ok u else raise forbidden, s).

(** [require_role]. *)
Definition require_role (role : string) (credentials : option string) (s : auth_state) :
    result http_error AuthUser * auth_state :=
  let '(r, s) := get_current_user credentials s in
  (u ← r; if bool_decide (au_role u = Some role) then Ok u else raise forbidden, s).

(** [UserResponse.model_validate]: [role], [status] and [must_change_password]
    are not optional in the response. *)
Definition to_user_response (u : AuthUser) : result http_error AuthUser :=
  if bool_decide (is_Some (au_role u) /\ is_Some (au_status u) /\ is_Some (au_must_change_password u))
  then Ok u else raise server_error.

(** [POST /auth/register] under a registration policy, up to the creation of
    the home workspace. *)
Definition register (allow_registration require_invite_code : bool) (username password : string)
    (invite_code : option string) (s : auth_state) : result http_error string * auth_state :=
  if negb allow_registration then (raise (403%Z, "registration is disabled"), s)
  else if require_invite_code && bool_decide (invite_code = None \/ invite_code = Some "")
  then (raise (400%Z, "invite code is required by registration policy"), s)
  else
    let '(r, s) := register_user username password "member" invite_code s in
    (match r with
     | Ok u => Ok (au_id u)
     | Err (UserAlreadyExistsError _) => raise (409%Z, "username already exists")
     | Err (InviteCodeUnavailableError _) => raise (400%Z, "invite code is invalid, expired, or already used")
     | Err _ => raise server_error
     end, s).

(** [POST /auth/login]. *)
Definition login (username password : string) (s : auth_state) : result http_error string * auth_state :=
  match authenticate_user username password s with
  | None => (raise (401%Z, "invalid username or password"), s)
  | Some u =>
      let '(r, s) := create_access_token (au_id u) s in
      (match r with Ok t => Ok t | Err _ => raise server_error end, s)
  end.

(** [GET /users/me], [GET /admin/users]. *)
Definition get_me (credentials : option string) (s : auth_state) :
    result http_error AuthUser * auth_state :=
  let '(r, s) := get_current_user credentials s in (r ≫= to_user_response, s).

Fixpoint to_user_responses (l : list AuthUser) : result http_error (list AuthUser) :=
  match l with
  | [] => Ok []
  | u :: l => u ← to_user_response u; l ← to_user_responses l; Ok (u :: l)
  end.

Definition admin_list_users (credentials : option string) (s : auth_state) :
    result http_error (list AuthUser) * auth_state :=
  let '(r, s) := require_permission "users" "read" credentials s in
  (_ ← r; to_user_responses (list_users s), s).

(** [PATCH /admin/users/{user_id}]. *)
Definition admin_update_user (user_id : string) (c : user_changes) (credentials : option string)
    (s : auth_state) : result http_error AuthUser * auth_state :=
  let '(r, s) := require_permission "users" "write" credentials s in
  match r with
  | Err e => (raise e, s)
  | Ok _ =>
      let '(r, s) := update_user user_id c s in
      (match r with
       | Ok u => to_user_response u
       | Err (UserNotFoundError _) => raise (404%Z, "user not found")
       | Err _ => raise server_error
       end, s)
  end.

(** [GET /admin/invites], [POST /admin/invites]. *)
Definition admin_list_invite_codes (credentials : option string) (s : auth_state) :
    result http_error (list AuthInviteCode) * auth_state :=
  let '(r, s) := require_permission "users" "read" credentials s in
  (_ ← r; Ok (list_invite_codes s), s).

Definition admin_create_invite_code (role : string) (permission_template : option string)
    (expires_at : option datetime) (c : option string) (credentials : option string) (s : auth_state) :
    result http_error AuthInviteCode * auth_state :=
  let '(r, s) := require_permission "users" "write" credentials s in
  match r with
  | Err e => (raise e, s)
  | Ok u =>
      let '(r, s) := create_invite_code (au_id u) role permission_template expires_at c s in
      (match r with
       | Ok i => Ok i
       | Err _ => raise (409%Z, "invite code already exists")
       end, s)
  end.

(** The requests, and the direct call of [register_user] that sets up a first
    privileged user: no request can. *)
Inductive auth_event :=
| ASeedUser (username password role : string)
| ARegister (allow_registration require_invite_code : bool) (username password : string)
    (invite_code : option string)
| ALogin (username password : string)
| AGetMe (credentials : option string)
| AListUsers (credentials : option string)
| AUpdateUser (user_id : string) (c : user_changes) (credentials : option string)
| AListInvites (credentials : option string)
| ACreateInvite (role : string) (permission_template : option string) (expires_at : option datetime)
    (c : option string) (credentials : option string).

(** The state after a request. *)
Definition auth_step (ev : auth_event) (s : auth_state) : auth_state :=
  match ev with
  | ASeedUser n p r => (register_user n p r None s).2
  | ARegister a q n p i => (register a q n p i s).2
  | ALogin n p => (login n p s).2
  | AGetMe t => (get_me t s).2
  | AListUsers t => (admin_list_users t s).2
  | AUpdateUser id c t => (admin_update_user id c t s).2
  | AListInvites t => (admin_list_invite_codes t s).2
  | ACreateInvite r pt e c t => (admin_create_invite_code r pt e c t s).2
  end.

Definition auth_run (evs : list auth_event) (s : auth_state) : auth_state :=
  foldl (fun s ev => auth_step ev s) s evs.
End service.
