(* ===== verification/AuthProps.v ===== *)
(** * Properties of users, invite codes and tokens *)

From stdpp Require Import base gmap strings list option sorting sets countable pretty.
From Stdlib Require Import ZArith Lia Ascii.
From S2P Require Import Prelude PyStr PyInt PyBase64 PySort PyDict Auth.

(** ** Passwords *)

Lemma str_chars_nil s : str_chars s = [] <-> s = "".
Proof. split; [by destruct s|by intros ->]. Qed.

Lemma base64_text value : str_chars (base64_urlsafe_encode value) = b64_body value.
Proof. unfold base64_urlsafe_encode. by rewrite str_chars_of_chars, rstrip_encoded. Qed.

Lemma b64_body_ascii l : forallb (fun c => (code c <? 128)%N) (b64_body l) = true.
Proof.
  assert (K : forall n, (n < 64)%N -> (code (sextet_char n) <? 128)%N = true)
    by (apply (sextet_cases (fun n => (code (sextet_char n) <? 128)%N)); vm_compute; reflexivity).
  revert l. apply triple_ind.
  - done.
  - intros a. cbn [b64_body forallb]. rewrite !K by (sextet_bounds a). done.
  - intros a b. pose proof (code_lt b). cbn [b64_body forallb]. rewrite !K by (sextet_bounds a). done.
  - intros a b c l IH. pose proof (code_lt b). pose proof (code_lt c). cbn [b64_body forallb].
    rewrite !K, IH by (sextet_bounds a). done.
Qed.

(** The padding [_base64_urlsafe_decode] puts back is the one stripped. *)
Lemma base64_urlsafe_roundtrip value :
  value <> [] -> base64_urlsafe_decode (base64_urlsafe_encode value) = Some value.
Proof.
  intros Hv. unfold base64_urlsafe_decode. rewrite base64_text, b64_body_ascii.
  rewrite bool_decide_eq_false_2 by (by rewrite b64_body_nil). rewrite length_b64_body.
  transitivity (urlsafe_b64decode (b64_body value ++ b64_pad (length value))); [|apply b64_roundtrip].
  unfold b64_pad. f_equal. f_equal.
  pose proof (Nat.mod_upper_bound (length value) 3 ltac:(lia)) as Hm.
  by destruct (Nat.modulo (length value) 3) as [|[|[|]]]; [..|lia].
Qed.

Lemma base64_no_dollar value : "$"%char ∉ b64_body value.
Proof. intros [_ H]%b64_body_plain. done. Qed.

Section passwords.
Variable scrypt : bytes -> bytes -> Z -> Z -> Z -> Z -> bytes.
Context (scrypt_length : forall p s n r q d, (0 <= d)%Z -> Z.of_nat (length (scrypt p s n r q d)) = d).

Lemma split_hash salt password :
  py_split "$"%char (hash_password scrypt salt password) =
  [PASSWORD_HASH_SCHEME; "16384"; "8"; "1"; "32"; base64_urlsafe_encode salt;
   base64_urlsafe_encode (derive_password_key scrypt password salt)].
Proof.
  unfold py_split, hash_password. rewrite !str_chars_app, !base64_text.
  set (x := b64_body salt). set (y := b64_body _).
  transitivity (map of_chars (split_chars "$"%char (str_chars PASSWORD_HASH_SCHEME ++ "$"%char ::
    str_chars "16384" ++ "$"%char :: str_chars "8" ++ "$"%char :: str_chars "1" ++ "$"%char ::
    str_chars "32" ++ "$"%char :: x ++ "$"%char :: y))); [reflexivity|].
  rewrite !split_chars_app by (first [apply base64_no_dollar|apply (bool_decide_unpack _); vm_compute; reflexivity]).
  rewrite split_chars_none by apply base64_no_dollar. cbn [map]. unfold x, y.
  by rewrite <- !base64_text, !of_chars_str_chars.
Qed.

(** A stored password hash verifies its password. Verifying a password against
    the hash of another one (or the same) compares the derived keys: nothing is lost in
    the encoding of the hash, and a password always matches its own hash. *)
Theorem password_roundtrip salt password candidate :
  length salt = PASSWORD_HASH_SALT_BYTES ->
  verify_password scrypt candidate (hash_password scrypt salt password) =
    bool_decide (derive_password_key scrypt candidate salt = derive_password_key scrypt password salt) /\
  verify_password scrypt password (hash_password scrypt salt password) = true.
Proof.
  intros Hs. enough (E : forall c, verify_password scrypt c (hash_password scrypt salt password) =
    bool_decide (derive_password_key scrypt c salt = derive_password_key scrypt password salt))
    by (rewrite !E; split; [done|by apply bool_decide_eq_true]).
  intros c. unfold verify_password, verify_password_body. rewrite split_hash.
  change (parse_int "16384") with (Some PASSWORD_HASH_N). change (parse_int "8") with (Some PASSWORD_HASH_R).
  change (parse_int "1") with (Some PASSWORD_HASH_P). change (parse_int "32") with (Some PASSWORD_HASH_DKLEN).
  cbn [mbind option_bind]. rewrite !bool_decide_eq_false_2 by naive_solver.
  pose proof (scrypt_length (utf8_encode password) salt PASSWORD_HASH_N PASSWORD_HASH_R PASSWORD_HASH_P
    PASSWORD_HASH_DKLEN ltac:(done)) as Hd. fold (derive_password_key scrypt password salt) in Hd.
  rewrite !base64_urlsafe_roundtrip by (intros E; rewrite E in *; done). cbn [mbind option_bind].
  by rewrite bool_decide_eq_false_2 by naive_solver.
Qed.
End passwords.

(** ** The directory of users *)

Lemma replace_user_id c u : au_id (replace_user c u) = au_id u.
Proof. done. Qed.

Section service.
Variable scrypt : bytes -> bytes -> Z -> Z -> Z -> Z -> bytes.
Variable jwt_encode : claims -> string.
Variable jwt_decode : Z -> string -> option claims.
Variable uuid4_hex : nat -> string.
Variable urandom : nat -> bytes.
Variable now_utc : nat -> Z.
Variable delta : Z.

Local Abbreviation auth_step := (auth_step scrypt jwt_encode jwt_decode uuid4_hex urandom now_utc delta).
Local Abbreviation auth_run := (auth_run scrypt jwt_encode jwt_decode uuid4_hex urandom now_utc delta).
Local Abbreviation get_current_user := (get_current_user jwt_decode now_utc).
Local Abbreviation require_permission := (require_permission jwt_decode now_utc).

(** [s'] is [s] with a later clock. *)
Definition tick (s s' : auth_state) : Prop := exists n, as_clock s <= n /\ s' = with_auth_clock n s.

#[local] Instance tick_preorder : PreOrder tick.
Proof.
  split.
  - intros s. exists (as_clock s). split; [lia|by destruct s].
  - intros s s1 s2 (n & H1 & ->) (m & H2 & ->). simpl in H2. exists m. split; [lia|done].
Qed.

Lemma get_available_invite_tick c s : tick s (get_available_invite now_utc c s).2.
Proof.
  unfold get_available_invite. destruct (od_get c (as_invites s)) as [i|]; [|done].
  case_bool_decide; [done|]. destruct (ic_expires_at i) as [e|]; [|done]. cbn [read_utc].
  assert (tick s (with_auth_clock (S (as_clock s)) s)) by (by exists (S (as_clock s)); split; [lia|]).
  by destruct (_ <? _)%Z.
Qed.

Lemma get_current_user_tick cr s : tick s (get_current_user cr s).2.
Proof.
  unfold Auth.get_current_user, decode_access_token. destruct cr; [|done]. cbn [read_utc].
  exists (S (as_clock s)). split; [simpl; lia|done].
Qed.

Lemma get_current_user_user cr s u :
  (get_current_user cr s).1 = Ok u -> exists id, od_get id (as_by_id s) = Some u.
Proof.
  unfold Auth.get_current_user, decode_access_token. destruct cr as [t|]; [|done]. cbn [read_utc fst].
  destruct (jwt_decode _ _ ≫= cl_sub) as [id|]; [|done]. simpl.
  destruct (od_get id (as_by_id s)) eqn:E; [|done]. intros [= <-]. by exists id.
Qed.

Lemma require_permission_eq resource action cr s :
  require_permission resource action cr s =
    ((u ← (get_current_user cr s).1; if has_permission (au_role u) resource action then Ok u else raise forbidden),
     (get_current_user cr s).2).
Proof. unfold Auth.require_permission. by destruct (get_current_user cr s). Qed.

Lemma require_permission_ok resource action cr s u :
  (require_permission resource action cr s).1 = Ok u ->
  (get_current_user cr s).1 = Ok u /\ has_permission (au_role u) resource action = true.
Proof.
  rewrite require_permission_eq. cbn [fst]. destruct (get_current_user cr s).1 as [v|]; [|done]. simpl.
  destruct (has_permission (au_role v) resource action) eqn:E; [|done]. by intros [= <-].
Qed.

(** *** Invites *)

Definition unused (i : AuthInviteCode) : Prop := ic_used_by i = None /\ ic_used_at i = None.

Definition usable (c : string) (i : AuthInviteCode) (s : auth_state) : Prop :=
  od_get c (as_invites s) = Some i /\ unused i.

(** The invite of a code is used, or expired for good. *)
Definition dead (c : string) (s : auth_state) : Prop :=
  exists i, od_get c (as_invites s) = Some i /\
    (is_Some (ic_used_by i) \/
     exists e, ic_expires_at i = Some e /\ forall m, as_clock s <= m -> (utc_wall e < now_utc m)%Z).

Definition monotone : Prop := forall m n, m <= n -> (now_utc m <= now_utc n)%Z.

Lemma get_available_invite_spec c s :
  let '(r, s') := get_available_invite now_utc c s in
  match r with
  | Ok i => usable c i s /\ (dead c s -> False)
  | Err e => e = InviteCodeUnavailableError c /\
             forall i, usable c i s -> monotone -> dead c s'
  end.
Proof.
  unfold get_available_invite. destruct (od_get c (as_invites s)) as [i|] eqn:E.
  2:{ split; [done|]. intros i [H _]. congruence. }
  case_bool_decide as U.
  { split; [done|]. intros j [H [U1 U2]]. assert (j = i) as -> by congruence.
    rewrite U1, U2 in U. by destruct U as [[]|[]]. }
  assert (Un : unused i).
  { split; apply eq_None_not_Some; intros ?; apply U; first [by left|by right]. }
  assert (K : dead c s -> exists e, ic_expires_at i = Some e /\ (utc_wall e < now_utc (as_clock s))%Z).
  { intros (j & Hj & D). assert (j = i) as -> by congruence. destruct D as [D|(e & D1 & D2)].
    - destruct Un as [Un _]. rewrite Un in D. by destruct D.
    - exists e. split; [done|]. by apply D2. }
  destruct (ic_expires_at i) as [e|] eqn:X; cbn [read_utc].
  - destruct (Z.ltb_spec (utc_wall e) (now_utc (as_clock s))) as [L|L].
    + split; [done|]. intros j [Hj _] M. assert (j = i) as -> by congruence. exists i. split; [done|].
      right. exists e. split; [done|]. simpl. intros m Hm. pose proof (M (as_clock s) m ltac:(lia)). lia.
    + split; [done|]. intros (e' & [= <-] & D)%K. lia.
  - split; [done|]. intros (e' & He & _)%K. done.
Qed.

Lemma dead_tick c s s' : tick s s' -> dead c s -> dead c s'.
Proof.
  intros (n & Hn & ->) (i & H1 & H2). exists i. split; [done|]. destruct H2 as [H2|(e & H2 & H3)]; [by left|right].
  exists e. split; [done|]. intros m Hm. apply H3. simpl in Hm. lia.
Qed.

Lemma consume_effect c id s :
  let '(r, s') := consume_invite_code now_utc c id s in
  exists i t s1, tick s s1 /\ as_clock s <= as_clock s1 /\
    (usable c i s /\ r = Ok (mark_used id t i) /\
       s' = with_invites (od_set c (mark_used id t i) (as_invites s)) s1 \/
     s' = s1 /\ r = raise (InviteCodeUnavailableError c) /\
       forall i, usable c i s -> monotone -> dead c s').
Proof.
  unfold consume_invite_code. pose proof (get_available_invite_spec c s) as H.
  pose proof (get_available_invite_tick c s) as T.
  destruct (get_available_invite now_utc c s) as [[i|e] s1].
  - simpl in T. cbn [read_utc]. exists i, (now_utc (as_clock s1)), (with_auth_clock (S (as_clock s1)) s1).
    destruct T as (n & Hn & ->). split; [exists (S n); split; [lia|done]|]. split; [simpl; lia|].
    left. split; [apply H|]. done.
  - simpl in T. destruct H as [-> H]. exists (mkInvite "" "" "" None None None None), 0%Z, s1.
    split; [done|]. destruct T as (n & Hn & ->). split; [done|]. right. done.
Qed.

(** *** What a request does

    Every request leaves the users and the invites alone, adds one user, changes
    one user, or adds one invite; the last two take the [users:write] permission. *)

Definition code_of (ev : auth_event) : option string :=
  match ev with ARegister _ _ _ _ c => c | _ => None end.
Definition base_role (ev : auth_event) : string :=
  match ev with ASeedUser _ _ r => r | _ => "member" end.

Definition later (s s' : auth_state) : Prop :=
  as_uuids s <= as_uuids s' /\ as_clock s <= as_clock s'.

(** The invites after a registration with a code; the code cannot be used again. *)
Definition redeemed (ev : auth_event) (role id : string) (s s' : auth_state) : Prop :=
  match code_of ev with
  | None => role = base_role ev /\ as_invites s' = as_invites s
  | Some c => exists i, usable c i s /\ role = ic_role i /\ (dead c s -> False) /\
      (as_invites s' = as_invites s \/ exists t, as_invites s' = od_set c (mark_used id t i) (as_invites s)) /\
      (monotone -> dead c s')
  end.

Definition writer (cr : option string) (s : auth_state) : Prop :=
  exists u, (get_current_user cr s).1 = Ok u /\ has_permission (au_role u) "users" "write" = true.

Inductive effect (ev : auth_event) (s s' : auth_state) : Prop :=
| ef_none :
    as_by_username s' = as_by_username s -> as_by_id s' = as_by_id s -> as_invites s' = as_invites s ->
    effect ev s s'
| ef_register username role h :
    let u := new_user (uuid4_hex (as_uuids s)) username role in
    as_uuids s < as_uuids s' -> od_get username (as_by_username s) = None ->
    as_by_username s' = od_set username (mkRecord u h) (as_by_username s) ->
    as_by_id s' = od_set (au_id u) u (as_by_id s) ->
    redeemed ev role (au_id u) s s' -> effect ev s s'
| ef_update cr id c u r :
    writer cr s -> od_get id (as_by_id s) = Some u ->
    od_get (au_username u) (as_by_username s) = Some r ->
    as_by_username s' =
      od_set (au_username u) (mkRecord (replace_user c u) (ur_password_hash r)) (as_by_username s) ->
    as_by_id s' = od_set id (replace_user c u) (as_by_id s) -> as_invites s' = as_invites s ->
    effect ev s s'
| ef_invite cr i :
    writer cr s -> od_get (ic_code i) (as_invites s) = None -> unused i ->
    as_by_username s' = as_by_username s -> as_by_id s' = as_by_id s ->
    as_invites s' = od_set (ic_code i) i (as_invites s) -> effect ev s s'.

Lemma tick_none ev s s' : tick s s' -> effect ev s s' /\ later s s'.
Proof. intros (n & Hn & ->). split; [by apply ef_none|]. split; simpl; lia. Qed.

Lemma seed_effect username password role s :
  let ev := ASeedUser username password role in effect ev s (auth_step ev s) /\ later s (auth_step ev s).
Proof.
  cbv zeta. cbn [Auth.auth_step]. unfold register_user.
  case_bool_decide as N; [by apply tick_none|]. apply eq_None_not_Some in N. cbn [effective_role snd].
  split; [|split; simpl; lia]. eapply (ef_register _ _ _ username role); simpl; [lia|done|done|done|done].
Qed.

Lemma register_effect a q username password invite s :
  let ev := ARegister a q username password invite in effect ev s (auth_step ev s) /\ later s (auth_step ev s).
Proof.
  cbv zeta. cbn [Auth.auth_step]. unfold register. destruct a; [|by apply tick_none].
  destruct (q && _); [by apply tick_none|]. cbn [negb]. unfold register_user.
  case_bool_decide as N; [by apply tick_none|]. apply eq_None_not_Some in N. unfold effective_role.
  destruct invite as [c|].
  - pose proof (get_available_invite_spec c s) as G. pose proof (get_available_invite_tick c s) as T.
    destruct (get_available_invite now_utc c s) as [[i|e] s1]; cbn [fmap result_map] in *; [|by apply tick_none].
    simpl in T. destruct T as (n & Hn & ->), G as [G1 G2].
    set (u := new_user _ _ _). set (rec := mkRecord u _). set (s2 := with_users _ _ _).
    pose proof (consume_effect c (au_id u) s2) as C.
    destruct (consume_invite_code now_utc c (au_id u) s2) as [r s3].
    destruct C as (j & t & s4 & T & Hc & C). simpl in Hc. cbn [snd].
    assert (S4 : as_by_username s4 = od_set username rec (as_by_username s) /\
      as_by_id s4 = od_set (au_id u) u (as_by_id s) /\ as_invites s4 = as_invites s /\
      as_uuids s4 = S (as_uuids s) /\ as_clock s <= as_clock s4).
    { destruct T as (m & Hm & ->). simpl in *. repeat split; lia. }
    destruct S4 as (S1 & S2 & S3 & S4 & S5).
    assert (E : forall s5, as_by_username s5 = as_by_username s4 -> as_by_id s5 = as_by_id s4 ->
      as_uuids s5 = as_uuids s4 -> as_clock s5 = as_clock s4 ->
      (as_invites s5 = as_invites s \/ exists t, as_invites s5 = od_set c (mark_used (au_id u) t i) (as_invites s)) ->
      (monotone -> dead c s5) -> effect (ARegister true q username password (Some c)) s s5 /\ later s s5).
    { intros s5 E1 E2 E3 E4 E5 E6. split; [|split; rewrite ?E3, ?E4, ?S4; lia].
      apply (ef_register _ _ _ username (ic_role i) (ur_password_hash rec)); fold u; [lia|done|by rewrite E1, S1|
        by rewrite E2, S2|]. simpl. exists i. done. }
    destruct C as [(C1 & -> & ->)|(-> & -> & C3)]; cbn [snd].
    + change (usable c j s) in C1. assert (j = i) as -> by (destruct C1 as [C1 _], G1 as [G1 _]; congruence).
      apply E; try done; [right; by exists t|]. intros _. exists (mark_used (au_id u) t i). simpl.
      rewrite od_get_set_eq. split; [done|]. left. by eexists.
    + apply E; try done; [by left|]. intros M. by apply (C3 i).
  - cbn [snd]. split; [|split; simpl; lia].
    eapply (ef_register _ _ _ username "member"); simpl; [lia|done|done|done|done].
Qed.

Lemma require_cases resource action cr s :
  let '(r, s1) := require_permission resource action cr s in
  tick s s1 /\ match r with
               | Ok u => (get_current_user cr s).1 = Ok u /\ has_permission (au_role u) resource action = true
               | Err _ => True
               end.
Proof.
  pose proof (require_permission_ok resource action cr s) as H. rewrite require_permission_eq in *.
  cbn [fst] in H. split; [apply get_current_user_tick|].
  destruct (_ ← _; _) as [u|]; [|done]. by apply H.
Qed.

Lemma update_effect id c cr s :
  let ev := AUpdateUser id c cr in effect ev s (auth_step ev s) /\ later s (auth_step ev s).
Proof.
  cbv zeta. cbn [Auth.auth_step]. unfold admin_update_user.
  pose proof (require_cases "users" "write" cr s) as R.
  destruct (require_permission "users" "write" cr s) as [[u|] s1]; destruct R as [T R]; [|by apply tick_none].
  unfold update_user. destruct T as (n & Hn & ->). cbn [as_by_id with_auth_clock].
  destruct (od_get id (as_by_id s)) as [v|] eqn:V; [|apply tick_none; by exists n].
  cbn [au_username replace_user].
  destruct (od_get (au_username v) (as_by_username _)) as [r|] eqn:W; [|apply tick_none; by exists n].
  cbn [snd]. split; [|split; simpl; lia].
  apply (ef_update _ _ _ cr id c v r); try done. by exists u.
Qed.

Lemma invite_effect role pt e c cr s :
  let ev := ACreateInvite role pt e c cr in effect ev s (auth_step ev s) /\ later s (auth_step ev s).
Proof.
  cbv zeta. cbn [Auth.auth_step]. unfold admin_create_invite_code.
  pose proof (require_cases "users" "write" cr s) as R.
  destruct (require_permission "users" "write" cr s) as [[u|] s1]; destruct R as [T R]; [|by apply tick_none].
  unfold create_invite_code. destruct T as (n & Hn & ->).
  set (p := match c with Some _ => _ | None => _ end).
  assert (P : exists k m, as_uuids s <= m /\ p = (k, with_auth_uuids m (with_auth_clock n s))).
  { unfold p. destruct c as [x|]; [destruct (bool_decide (x = ""))|]; eexists _, _;
      (split; [|reflexivity]) || (split; [|by destruct s]); simpl; lia. }
  destruct P as (k & m & Hm & ->). cbn [as_invites with_auth_uuids with_auth_clock].
  case_bool_decide as K; cbn [snd].
  - split; [by apply ef_none|split; simpl; lia].
  - apply eq_None_not_Some in K. split; [|split; simpl; lia].
    eapply (ef_invite _ _ _ cr (mkInvite k (au_id u) role pt e None None)); try done. by exists u.
Qed.

Lemma step_effect ev s : effect ev s (auth_step ev s) /\ later s (auth_step ev s).
Proof.
  destruct ev; [apply seed_effect|apply register_effect| | | |apply update_effect| |apply invite_effect]; apply tick_none;
    cbn [Auth.auth_step].
  - unfold login, create_access_token. destruct (authenticate_user _ _ _ _); [|done]. cbn [read_utc].
    destruct (datetime_add _ _); simpl; exists (S (as_clock s)); (split; [lia|done]).
  - unfold get_me. pose proof (get_current_user_tick credentials s) as T.
    by destruct (get_current_user credentials s).
  - unfold admin_list_users. pose proof (require_cases "users" "read" credentials s) as T.
    by destruct (require_permission "users" "read" credentials s) as [r s1], T.
  - unfold admin_list_invite_codes. pose proof (require_cases "users" "read" credentials s) as T.
    by destruct (require_permission "users" "read" credentials s) as [r s1], T.
Qed.

(** *** The two user dictionaries *)

Record auth_inv (s : auth_state) : Prop := {
  av_names : od_wf (as_by_username s);
  av_ids : od_wf (as_by_id s);
  av_name : forall n r, od_get n (as_by_username s) = Some r ->
    au_username (ur_user r) = n /\ od_get (au_id (ur_user r)) (as_by_id s) = Some (ur_user r);
  av_id : forall i u, od_get i (as_by_id s) = Some u ->
    au_id u = i /\ (exists r, od_get (au_username u) (as_by_username s) = Some r /\ ur_user r = u) /\
    exists k, k < as_uuids s /\ i = uuid4_hex k
}.

Context (uuid4_inj : forall i j, uuid4_hex i = uuid4_hex j -> i = j).

Lemma auth_inv_init : auth_inv init_auth.
Proof. split; [apply od_wf_nil..| |]; done. Qed.

Lemma auth_inv_step ev s : auth_inv s -> auth_inv (auth_step ev s).
Proof.
  intros I. destruct (step_effect ev s) as [E [L _]]. destruct E as
    [E1 E2 _|n role h u Hu N E1 E2 _|cr id c u r _ Hid Hr E1 E2 _|cr i _ _ _ E1 E2 _].
  1, 4: split; rewrite ?E1, ?E2; try apply I; intros i0 v Hv; destruct (av_id s I _ _ Hv) as (? & ? & k & ? & ?);
    repeat split; try done; exists k; split; [lia|done].
  - assert (F : od_get (au_id u) (as_by_id s) = None).
    { apply eq_None_not_Some. intros [v Hv]. destruct (av_id s I _ _ Hv) as (_ & _ & k & Hk & E).
      apply uuid4_inj in E. lia. }
    split; rewrite ?E1, ?E2; [by apply od_wf_set, (av_names s I)|by apply od_wf_set, (av_ids s I)| |].
    + intros m r. rewrite od_get_set. case_decide as D.
      * intros [= <-]. cbn. by rewrite od_get_set_eq.
      * intros Hr. destruct (av_name s I _ _ Hr) as [H1 H2]. split; [done|].
        rewrite od_get_set_ne; [done|]. intros E. rewrite <- E in H2. congruence.
    + intros j v. rewrite od_get_set. case_decide as D.
      * intros [= <-]. split; [done|]. split; [|by exists (as_uuids s)].
        eexists. cbn. rewrite od_get_set_eq. by split.
      * intros Hv. destruct (av_id s I _ _ Hv) as (H1 & (r & H2 & H3) & k & H4 & H5).
        split; [done|]. split; [|exists k; split; [lia|done]]. exists r.
        rewrite od_get_set_ne; [done|]. congruence.
  - destruct (av_id s I _ _ Hid) as (Hi & (r' & Hr' & Hu) & k & Hk & Hk').
    assert (r' = r) as -> by congruence.
    split; rewrite ?E1, ?E2; [by apply od_wf_set, (av_names s I)|by apply od_wf_set, (av_ids s I)| |].
    + intros m x. rewrite od_get_set. case_decide as D.
      * intros [= <-]. cbn. split; [done|]. rewrite Hi. by rewrite od_get_set_eq.
      * intros Hx. destruct (av_name s I _ _ Hx) as [H1 H2]. split; [done|].
        rewrite od_get_set_ne; [done|]. intros E. apply D. rewrite <- E in H2. congruence.
    + intros j v. rewrite od_get_set. case_decide as D.
      * intros [= <-]. subst j. cbn. split; [done|]. split; [|exists k; split; [lia|done]].
        eexists. rewrite od_get_set_eq. by split.
      * intros Hv. destruct (av_id s I _ _ Hv) as (H1 & (x & H2 & H3) & k' & H4 & H5).
        split; [done|]. split; [|exists k'; split; [lia|done]]. exists x.
        rewrite od_get_set_ne; [done|]. intros E. apply D. rewrite <- E in H2.
        assert (x = r) as -> by congruence. rewrite H3 in Hu. subst. done.
Qed.

Lemma auth_inv_run evs s : auth_inv s -> auth_inv (auth_run evs s).
Proof. revert s. induction evs as [|ev evs IH]; intros s I; [done|]. by apply IH, auth_inv_step. Qed.

(** The user directory. After any requests, the records by username and the
    users by id are the same users: looking up the user of a record by its id gives
    it back and the other way round, and [list_users] lists each of them once, by
    username. *)
Theorem directory_coherent evs :
  let s := auth_run evs init_auth in
  (forall n r, od_get n (as_by_username s) = Some r ->
     au_username (ur_user r) = n /\ od_get (au_id (ur_user r)) (as_by_id s) = Some (ur_user r)) /\
  (forall i u, od_get i (as_by_id s) = Some u ->
     au_id u = i /\ exists r, od_get (au_username u) (as_by_username s) = Some r /\ ur_user r = u) /\
  NoDup (map au_username (list_users s)) /\
  StronglySorted (fun u v => key_leb au_username u v = true) (list_users s) /\
  (forall u, u ∈ list_users s <-> od_get (au_id u) (as_by_id s) = Some u).
Proof.
  intros s. assert (I : auth_inv s) by apply auth_inv_run, auth_inv_init. clearbody s.
  split; [apply (av_name s I)|]. split; [intros i u H; by destruct (av_id s I _ _ H) as (? & ? & _)|].
  assert (El : forall u, u ∈ list_users s <-> od_get (au_id u) (as_by_id s) = Some u).
  { intros u. unfold list_users. rewrite py_sorted_elem. unfold od_values. rewrite list_elem_of_fmap. split.
    - intros ([i v] & -> & H). apply od_elem_get in H; [|apply (av_ids s I)].
      simpl. by destruct (av_id s I _ _ H) as (-> & _).
    - intros H. exists (au_id u, u). split; [done|]. by apply od_get_Some_elem. }
  split; [|split; [apply py_sorted_sorted|exact El]].
  assert (P : NoDup (list_users s)).
  { unfold list_users. rewrite py_sorted_perm. apply (NoDup_fmap_1 au_id).
    replace (au_id <$> od_values (as_by_id s)) with (od_keys (as_by_id s)); [apply (av_ids s I)|].
    unfold od_keys, od_values. rewrite <- list_fmap_compose. apply list_fmap_ext. intros k [i u] H.
    apply list_elem_of_lookup_2 in H. apply od_elem_get in H; [|apply (av_ids s I)].
    simpl. by destruct (av_id s I _ _ H) as (-> & _). }
  apply NoDup_fmap_2_strong; [|exact P]. intros u v Hu Hv E. apply El in Hu, Hv.
  destruct (av_id s I _ _ Hu) as (_ & (r & R1 & <-) & _), (av_id s I _ _ Hv) as (_ & (x & X1 & <-) & _).
  congruence.
Qed.

(** *** Sessions *)

(** [jose]: a token decodes to its claims until the second it expires in has passed. *)
Context (jwt_roundtrip : forall now c, jwt_decode now (jwt_encode c) ≫= cl_sub =
  if (now / 1000000 <=? cl_exp c / 1000000)%Z then cl_sub c else None).

Lemma user_stays ev s id u :
  od_get id (as_by_id s) = Some u ->
  (forall i v, od_get i (as_by_id s) = Some v -> exists k, k < as_uuids s /\ i = uuid4_hex k) ->
  exists u', od_get id (as_by_id (auth_step ev s)) = Some u' /\ au_username u' = au_username u.
Proof.
  intros Hu Old. destruct (step_effect ev s) as [E _]. destruct E as
    [_ E2 _|n role h v _ _ _ E2 _|cr j c v r _ Hid _ _ E2 _|cr i _ _ _ _ E2 _]; rewrite E2; [by eauto| | |by eauto].
  - rewrite od_get_set. case_decide as D; [|by eauto]. exfalso. destruct (Old _ _ Hu) as (k & Hk & E).
    rewrite <- D in E. apply uuid4_inj in E. lia.
  - rewrite od_get_set. case_decide as D; [|by eauto]. subst j. eexists. split; [done|]. cbn. congruence.
Qed.

Lemma user_stays_run evs s id u :
  auth_inv s -> od_get id (as_by_id s) = Some u ->
  exists u', od_get id (as_by_id (auth_run evs s)) = Some u' /\ au_username u' = au_username u.
Proof.
  revert s u. induction evs as [|ev evs IH]; intros s u I Hu; [by exists u|].
  destruct (user_stays ev s id u Hu) as (u1 & H1 & H2).
  { intros i v Hv. by destruct (av_id s I _ _ Hv) as (_ & _ & ?). }
  destruct (IH (auth_step ev s) u1 (auth_inv_step ev s I) H1) as (u2 & H3 & H4). exists u2. split; [done|congruence].
Qed.

Lemma login_token name password s t :
  (login scrypt jwt_encode now_utc delta name password s).1 = Ok t ->
  exists r, od_get name (as_by_username s) = Some r /\ verify_password scrypt password (ur_password_hash r) = true /\
    t = jwt_encode (mkClaims (Some (au_id (ur_user r))) (now_utc (as_clock s) + delta)).
Proof.
  unfold login, authenticate_user. destruct (od_get name (as_by_username s)) as [r|]; [|done].
  destruct (verify_password _ _ _) eqn:V; [|done]. unfold create_access_token. cbn [read_utc].
  destruct (datetime_add _ delta) as [x|] eqn:D; [|done]. cbn. intros [= <-].
  apply datetime_add_some in D as [-> _]. by exists r.
Qed.

(** A session. The token [login] returns identifies the user who logged in:
    whatever requests come in between, until it expires (to the second) it resolves to the current
    record of that username, updates included, and from then on to a 401. *)
Theorem login_session evs evs' name password t :
  let s := auth_run evs init_auth in
  (login scrypt jwt_encode now_utc delta name password s).1 = Ok t ->
  let s' := auth_run evs' (login scrypt jwt_encode now_utc delta name password s).2 in
  exists r, od_get name (as_by_username s') = Some r /\
    (get_current_user (Some t) s').1 =
      if (now_utc (as_clock s') / 1000000 <=? (now_utc (as_clock s) + delta) / 1000000)%Z
      then Ok (ur_user r) else raise unauthorized.
Proof.
  intros s L. pose proof (auth_inv_run evs _ auth_inv_init) as I. fold s in I. clearbody s.
  destruct (login_token _ _ _ _ L) as (r & R1 & _ & ->). destruct (av_name s I _ _ R1) as [N1 N2].
  intros s'. change (login _ _ _ _ name password s).2 with (auth_step (ALogin name password) s) in s'.
  destruct (user_stays_run (ALogin name password :: evs') s _ _ I N2) as (u & U1 & U2).
  change (auth_run (_ :: evs') s) with s' in U1.
  assert (I' : auth_inv s') by apply (auth_inv_run (ALogin name password :: evs') s I). clearbody s'.
  destruct (av_id s' I' _ _ U1) as (_ & (x & X1 & <-) & _). exists x. rewrite U2, N1 in X1. split; [done|].
  unfold Auth.get_current_user, decode_access_token. cbn [read_utc fst]. rewrite jwt_roundtrip. cbn [cl_exp cl_sub].
  destruct (_ <=? _)%Z; [|done]. simpl. by rewrite U1.
Qed.

(** *** Invites are single-use *)

Lemma dead_step ev c s : dead c s -> dead c (auth_step ev s).
Proof.
  intros (i & H1 & H2). destruct (step_effect ev s) as [E [_ L]].
  assert (K : as_invites (auth_step ev s) = as_invites s -> dead c (auth_step ev s)).
  { intros E1. exists i. rewrite E1. split; [done|]. destruct H2 as [|(e & H3 & H4)]; [by left|right].
    exists e. split; [done|]. intros m Hm. apply H4. lia. }
  destruct E as [_ _ E|n role h u _ _ _ _ E|cr j d u r _ _ _ _ _ E|cr j _ N _ _ _ E].
  - by apply K.
  - unfold redeemed in E. destruct (code_of ev) as [c'|]; [|by destruct E as [_ E]; apply K].
    destruct E as (i' & _ & _ & _ & [E|[t E]] & _); [by apply K|].
    unfold dead. rewrite E, od_get_set. case_decide as D; [subst c'|].
    + eexists. split; [done|]. left. by eexists.
    + exists i. split; [done|]. destruct H2 as [|(e & H3 & H4)]; [by left|right].
      exists e. split; [done|]. intros m Hm. apply H4. lia.
  - by apply K.
  - unfold dead. rewrite E, od_get_set_ne by congruence. exists i. split; [done|].
    destruct H2 as [|(e & H3 & H4)]; [by left|right].
    exists e. split; [done|]. intros m Hm. apply H4. lia.
Qed.

(** The requests of a sequence that create a user by a code. *)
Fixpoint redemptions (c : string) (evs : list auth_event) (s : auth_state) : nat :=
  match evs with
  | [] => 0
  | ev :: evs =>
      (if bool_decide (code_of ev = Some c /\
                       length (as_by_id (auth_step ev s)) <> length (as_by_id s)) then 1 else 0) +
      redemptions c evs (auth_step ev s)
  end.

Lemma od_set_length {V} k v (d : list (string * V)) :
  is_Some (od_get k d) -> length (od_set k v d) = length d.
Proof.
  intros [x Hx]. rewrite <- !(length_fmap fst). fold (od_keys (od_set k v d)) (od_keys d).
  rewrite od_keys_set_in; [done|]. apply dec_stable. intros H%od_get_None. congruence.
Qed.

Lemma redemption_once c evs s : monotone ->
  redemptions c evs s <= 1 /\ (dead c s -> redemptions c evs s = 0).
Proof.
  intros M. revert s. induction evs as [|ev evs IH]; intros s; cbn [redemptions]; [split; [lia|done]|].
  destruct (IH (auth_step ev s)) as [IH1 IH2].
  case_bool_decide as B; [|split; [lia|intros D; by rewrite (IH2 (dead_step ev c s D))]].
  destruct B as [B1 B2]. destruct (step_effect ev s) as [E _].
  assert (R : (dead c s -> False) /\ dead c (auth_step ev s)).
  { destruct E as [_ E _|n role h u _ _ _ _ E|cr j d u r _ H _ _ E _|cr j _ _ _ _ E _].
    - by rewrite E in B2.
    - unfold redeemed in E. rewrite B1 in E. destruct E as (i & _ & _ & E2 & _ & E3). split; [done|by apply E3].
    - exfalso. rewrite E in B2. apply B2. by apply od_set_length.
    - by rewrite E in B2. }
  destruct R as [R2 R3]. rewrite IH2 by done. split; [lia|]. intros D. by destruct (R2 D).
Qed.

(** An invite code is redeemed at most once. While the clock does not run backwards, however many
    requests use a code, at most one of them creates a user: the one that finds it
    expired between its two checks included. *)
Theorem invite_redeemed_once c evs s :
  monotone -> redemptions c evs s <= 1.
Proof. intros M. by apply redemption_once. Qed.

(** *** Privileges *)

Definition can_write (role : option string) : bool := has_permission role "users" "write".

(** No user can change users, and no invite makes such a user. *)
Definition unprivileged (s : auth_state) : Prop :=
  (forall id u, od_get id (as_by_id s) = Some u -> can_write (au_role u) = false) /\
  (forall c i, od_get c (as_invites s) = Some i -> can_write (Some (ic_role i)) = false).

(** C40: No privilege comes from nowhere. From a state in which no user can change
    users and no invite makes such a user, no sequence of requests leads to one:
    roles are only raised by those who hold the permission, and the first of them
    can only be set up from outside. *)
Theorem privileges_are_granted s evs :
  Forall (fun ev => can_write (Some (base_role ev)) = false) evs ->
  unprivileged s -> unprivileged (auth_run evs s).
Proof.
  revert s. induction evs as [|ev evs IH]; intros s F U; [done|]. apply Forall_cons in F as [F Fs].
  cbn [Auth.auth_run foldl]. apply (IH (auth_step ev s)); [done|]. destruct U as [U1 U2]. destruct (step_effect ev s) as [E _].
  assert (W : forall cr, writer cr s -> False).
  { intros cr (u & H1 & H2). destruct (get_current_user_user cr s u H1) as [id Hid].
    specialize (U1 _ _ Hid). unfold can_write in U1. congruence. }
  destruct E as [_ E1 E2|n role h u _ _ _ E1 E2|cr j c u r H|cr j H]; [| |by destruct (W cr)..];
    unfold unprivileged; rewrite E1.
  - by rewrite E2.
  - assert (Hr : can_write (Some role) = false /\ forall c i,
      od_get c (as_invites (auth_step ev s)) = Some i -> can_write (Some (ic_role i)) = false).
    { unfold redeemed in E2. destruct (code_of ev) as [c|]; [|by destruct E2 as [-> ->]].
      destruct E2 as (i & [Hi _] & -> & _ & Hs & _). split; [by apply (U2 c)|].
      destruct Hs as [->|[t ->]]; [done|]. intros c' i'. rewrite od_get_set.
      case_decide; [intros [= <-]; exact (U2 c i Hi)|apply U2]. }
    split; [|apply Hr]. intros id v. rewrite od_get_set. case_decide; [intros [= <-]; apply Hr|apply U1].
Qed.

(** Changing a user. A PATCH without a valid token is a 401, of a user without the
    permission a 403, of an unknown id a 404, and changes nothing. Otherwise exactly
    that user is changed, in the answers of both dictionaries, and its password
    stays; the answer is a 500 when a required field was set to null. *)
Theorem update_user_outcome evs id c cr :
  let s := auth_run evs init_auth in
  let '(r, s') := admin_update_user jwt_decode now_utc id c cr s in
  match (get_current_user cr s).1 with
  | Err e => r = Err e /\ tick s s'
  | Ok actor =>
      if negb (can_write (au_role actor)) then r = raise forbidden /\ tick s s'
      else match od_get id (as_by_id s) with
           | None => r = raise (404%Z, "user not found") /\ tick s s'
           | Some u =>
               let u' := replace_user c u in
               r = to_user_response u' /\ as_invites s' = as_invites s /\
               (forall i, od_get i (as_by_id s') = if decide (i = id) then Some u' else od_get i (as_by_id s)) /\
               forall n pw, authenticate_user scrypt n pw s' =
                 (if decide (n = au_username u) then (fun _ => u') else (fun v => v)) <$>
                 authenticate_user scrypt n pw s
           end
  end.
Proof.
  intros s. pose proof (auth_inv_run evs _ auth_inv_init) as I. fold s in I. clearbody s.
  unfold admin_update_user. rewrite require_permission_eq. pose proof (get_current_user_tick cr s) as T.
  destruct (get_current_user cr s) as [[a|e] s1]; cbn [fst snd] in *; [|done]. cbn [mbind result_bind].
  unfold can_write. destruct (has_permission (au_role a) "users" "write"); cbn [negb]; [|done].
  destruct T as (n & Hn & ->). unfold update_user. cbn [as_by_id with_auth_clock].
  destruct (od_get id (as_by_id s)) as [u|] eqn:U; [|split; [done|by exists n]].
  destruct (av_id s I _ _ U) as (_ & (x & X1 & <-) & _). cbn [au_username replace_user as_by_username with_auth_clock].
  rewrite X1. split; [done|]. split; [done|]. split.
  - intros i. cbn [as_by_id with_users with_auth_clock]. rewrite od_get_set.
    repeat case_decide; congruence.
  - intros m pw. unfold authenticate_user. cbn [as_by_username with_users with_auth_clock]. rewrite od_get_set.
    repeat case_decide; subst; try done.
    + rewrite X1. cbn. by destruct (verify_password _ _ _).
    + destruct (od_get m _); [|done]. by destruct (verify_password _ _ _).
Qed.
End service.

(** ** Concrete runs *)

Definition ax_scrypt (p s : bytes) (n r q d : Z) : bytes :=
  take (Z.to_nat d) (p ++ s ++ repeat "000"%char (Z.to_nat d)).

Lemma ax_scrypt_length p s n r q d : (0 <= d)%Z -> Z.of_nat (length (ax_scrypt p s n r q d)) = d.
Proof. intros H. unfold ax_scrypt. rewrite length_take, !length_app, repeat_length. lia. Qed.

(** A token that spells the claims out in binary. *)
Fixpoint ax_bits (p : positive) : string :=
  match p with
  | xH => ""
  | xO p => String "0" (ax_bits p)
  | xI p => String "1" (ax_bits p)
  end.
Fixpoint ax_unbits (s : string) : positive :=
  match s with
  | EmptyString => xH
  | String "0" s => xO (ax_unbits s)
  | String _ s => xI (ax_unbits s)
  end.
Lemma ax_unbits_bits p : ax_unbits (ax_bits p) = p.
Proof. induction p as [p IH|p IH|]; simpl; congruence. Qed.

Definition ax_jwt_encode (c : claims) : string := ax_bits (encode (cl_sub c, cl_exp c)).
Definition ax_jwt_decode (now : Z) (t : string) : option claims :=
  match decode (A := option string * Z) (ax_unbits t) with
  | Some (sub, exp) => if (now / 1000000 <=? exp / 1000000)%Z then Some (mkClaims sub exp) else None
  | None => None
  end.
Lemma ax_jwt_roundtrip now c : ax_jwt_decode now (ax_jwt_encode c) ≫= cl_sub =
  if (now / 1000000 <=? cl_exp c / 1000000)%Z then cl_sub c else None.
Proof.
  unfold ax_jwt_decode, ax_jwt_encode. rewrite ax_unbits_bits, decode_encode.
  by destruct (_ <=? _)%Z.
Qed.

Definition ax_uuid (n : nat) : string := pretty n.
Lemma ax_uuid_inj i j : ax_uuid i = ax_uuid j -> i = j.
Proof. apply (inj pretty). Qed.
Definition ax_urandom (n : nat) : bytes := repeat "a"%char 16.
Definition ax_now (n : nat) : Z := (Z.of_nat n * 1000000)%Z.
Definition ax_delta : Z := 86400000000.

Definition ax_run := auth_run ax_scrypt ax_jwt_encode ax_jwt_decode ax_uuid ax_urandom ax_now ax_delta.
Definition ax_login := login ax_scrypt ax_jwt_encode ax_now ax_delta.
Definition ax_alice : list auth_event := [ARegister true false "alice" "secret" None].

Lemma password_roundtrip_witness :
  verify_password ax_scrypt "secret" (hash_password ax_scrypt (ax_urandom 0) "secret") = true /\
  verify_password ax_scrypt "Secret" (hash_password ax_scrypt (ax_urandom 0) "secret") = false.
Proof.
  destruct (password_roundtrip ax_scrypt ax_scrypt_length (ax_urandom 0) "secret" "Secret" eq_refl) as [H1 H2].
  split; [exact H2|]. rewrite H1. vm_compute. reflexivity.
Defined.

Lemma directory_coherent_witness :
  exists u, list_users (ax_run ax_alice init_auth) = [u] /\ au_username u = "alice" /\
    od_get (au_id u) (as_by_id (ax_run ax_alice init_auth)) = Some u.
Proof.
  eexists. split; [vm_compute; reflexivity|]. split; [reflexivity|].
  apply (directory_coherent ax_scrypt ax_jwt_encode ax_jwt_decode ax_uuid ax_urandom ax_now ax_delta ax_uuid_inj ax_alice).
  vm_compute. left.
Defined.

Lemma login_session_witness :
  exists t, (ax_login "alice" "secret" (ax_run ax_alice init_auth)).1 = Ok t /\
    let s := ax_run [AGetMe (Some t)] (ax_login "alice" "secret" (ax_run ax_alice init_auth)).2 in
    au_username <$> (get_current_user ax_jwt_decode ax_now (Some t) s).1 = Ok "alice".
Proof.
  eexists. split; [vm_compute; reflexivity|]. intros s. unfold s.
  destruct (login_session ax_scrypt ax_jwt_encode ax_jwt_decode ax_uuid ax_urandom ax_now ax_delta ax_uuid_inj
    ax_jwt_roundtrip ax_alice [AGetMe (Some (ax_jwt_encode (mkClaims (Some "0") ax_delta)))] "alice" "secret"
    _ ltac:(vm_compute; reflexivity)) as (r & R1 & R2).
  etrans; [apply (f_equal (fmap au_username)); exact R2|].
  vm_compute in R1. injection R1 as <-. vm_compute. reflexivity.
Defined.

Lemma ax_now_monotone : monotone ax_now.
Proof. intros m n H. unfold ax_now. lia. Qed.

(** An owner, as a test sets one up, and an invite that expires at a time. *)
Definition ax_seed : auth_event := ASeedUser "root" "pw" "owner".
Definition ax_owner : auth_state := ax_run [ax_seed] init_auth.
Definition ax_root : option string := Some (ax_jwt_encode (mkClaims (Some "0") ax_delta)).
Definition ax_invited (e : option datetime) : auth_state :=
  ax_run [ACreateInvite "admin" None e (Some "vip") ax_root] ax_owner.
Definition ax_join (n : string) : auth_event := ARegister true false n "pw" (Some "vip").

Lemma invite_redeemed_once_witness :
  redemptions ax_scrypt ax_jwt_encode ax_jwt_decode ax_uuid ax_urandom ax_now ax_delta "vip"
    [ax_join "bob"; ax_join "carol"] (ax_invited None) <= 1 /\
  redemptions ax_scrypt ax_jwt_encode ax_jwt_decode ax_uuid ax_urandom ax_now ax_delta "vip"
    [ax_join "bob"; ax_join "carol"] (ax_invited None) = 1.
Proof.
  split; [|vm_compute; reflexivity].
  apply (invite_redeemed_once ax_scrypt ax_jwt_encode ax_jwt_decode ax_uuid ax_urandom ax_now ax_delta).
  exact ax_now_monotone.
Defined.

(** From an empty service nobody ever becomes an administrator. *)
Lemma privileges_are_granted_witness :
  unprivileged init_auth /\ unprivileged (ax_run (ax_alice ++ [ACreateInvite "admin" None None None None]) init_auth).
Proof.
  assert (unprivileged init_auth) as H by (split; intros ? ? [=]). split; [exact H|].
  apply (privileges_are_granted ax_scrypt ax_jwt_encode ax_jwt_decode ax_uuid ax_urandom ax_now ax_delta).
  - repeat constructor.
  - exact H.
Defined.

(** A user whose status says disabled logs in all the same. *)
Example disabled_user_logs_in :
  let s := ax_run (ax_alice ++ [AUpdateUser "1" (mkChanges None (Some (Some "disabled")) None None None None None None None)
    ax_root]) ax_owner in
  au_status <$> od_get "1" (as_by_id s) = Some (Some "disabled") /\ is_ok (ax_login "alice" "secret" s).1 = true.
Proof. vm_compute. split; reflexivity. Qed.

(** A null role is stored, answered with a 500, and makes every later listing fail. *)
Example null_role_breaks_the_listing :
  let c := mkChanges (Some None) None None None None None None None None in
  let s := ax_run ax_alice ax_owner in
  let '(r, s') := admin_update_user ax_jwt_decode ax_now "1" c ax_root s in
  r = raise server_error /\ (au_role <$> od_get "1" (as_by_id s')) = Some None /\
  (admin_list_users ax_jwt_decode ax_now ax_root s').1 = raise server_error.
Proof. vm_compute. repeat split; reflexivity. Qed.

(** An invite that expires during a registration: the request is refused but the
    user exists. *)
Example expiring_invite_creates_the_user :
  let s := ax_invited (Some (Aware 1000000)) in
  let '(r, s') := register ax_scrypt ax_uuid ax_urandom ax_now true false "bob" "pw" (Some "vip") s in
  r = raise (400%Z, "invite code is invalid, expired, or already used") /\
  (au_role ∘ ur_user <$> od_get "bob" (as_by_username s')) = Some (Some "admin").
Proof. vm_compute. split; reflexivity. Qed.

Definition ax_rename : user_changes := mkChanges None None None None (Some (Some "Ally")) None None None None.

Lemma update_user_outcome_witness :
  let '(r, s') := admin_update_user ax_jwt_decode ax_now "1" ax_rename ax_root
    (ax_run (ax_seed :: ax_alice) init_auth) in
  au_ai_name <$> r = Ok (Some "Ally") /\
  (au_ai_name <$> authenticate_user ax_scrypt "alice" "secret" s') = Some (Some "Ally").
Proof.
  pose proof (update_user_outcome ax_scrypt ax_jwt_encode ax_jwt_decode ax_uuid ax_urandom ax_now ax_delta
    ax_uuid_inj (ax_seed :: ax_alice) "1" ax_rename ax_root) as H.
  cbv zeta in H. fold ax_run in H. set (s := ax_run (ax_seed :: ax_alice) init_auth) in *.
  destruct (admin_update_user ax_jwt_decode ax_now "1" ax_rename ax_root s) as [r s'].
  assert (exists a, (get_current_user ax_jwt_decode ax_now ax_root s).1 = Ok a /\ can_write (au_role a) = true)
    as (a & E1 & E2) by (eexists; split; [vm_compute; reflexivity|reflexivity]).
  rewrite E1, E2 in H. cbn [negb] in H.
  assert (exists u, od_get "1" (as_by_id s) = Some u /\ au_username u = "alice" /\
    is_ok (to_user_response (replace_user ax_rename u)) = true /\
    is_Some (authenticate_user ax_scrypt "alice" "secret" s)) as (u & E3 & E4 & E5 & E6)
    by (eexists; split; [vm_compute; reflexivity|]; split; [reflexivity|]; split; [reflexivity|];
        vm_compute; by eexists).
  rewrite E3 in H. destruct H as (-> & _ & _ & H). rewrite H, E4. clear H.
  split; [|destruct E6 as [v ->]; reflexivity].
  unfold to_user_response in *. destruct (bool_decide _); [reflexivity|discriminate E5].
Defined.
