(* ===== verification/TerminalHistory.v ===== *)
(** * Terminal history: snapshots, filters and pages ([services/terminal_sessions.py])

    The records of the terminal service and the pure part of its history
    queries: merging the in-memory and the persisted snapshots of a workspace,
    filtering them, and the three paged queries. The queries take the merged
    list as the result their code gets from
    [_list_merged_history_snapshots_by_group]; [TerminalSessions.v] supplies it. *)

From stdpp Require Import base gmap strings list option sorting.
From Stdlib Require Import ZArith Lia.
From S2P Require Import Prelude PyStr PyInt PySort PyDict.

Inductive TerminalSessionStatus :=
| TsCreated | TsAttached | TsDetached | TsClosed | TsExited.
#[export] Instance TerminalSessionStatus_eq_dec : EqDecision TerminalSessionStatus.
Proof. solve_decision. Defined.

(** [_TERMINAL_ARCHIVE_STATUSES] and [_ACTIVE_RECOVERABLE_STATUSES]. *)
Definition archive_status (s : TerminalSessionStatus) : bool :=
  match s with TsClosed | TsExited => true | _ => false end.
Definition recoverable_status (s : TerminalSessionStatus) : bool :=
  match s with TsCreated | TsAttached | TsDetached => true | _ => false end.

(** [backend] has the single value ["docker_container"]. Datetimes are
    microseconds since the epoch. *)
Record TerminalSessionRecord := mkSession {
  ts_session_id : string;
  ts_group_id : string;
  ts_group_folder : string;
  ts_owner_user_id : string;
  ts_backend : string;
  ts_container_name : option string;
  ts_status : TerminalSessionStatus;
  ts_created_at : Z;
  ts_last_attached_at : option Z;
  ts_reconnect_deadline : option Z
}.

Record TerminalSessionHistorySnapshot := mkHistory {
  hs_record : TerminalSessionRecord;
  hs_snapshot_at : Z;
  hs_output : string;
  hs_output_bytes : Z;
  hs_history_max_bytes : Z;
  hs_truncated : bool
}.

Record TerminalSessionHistorySummary := mkSummary {
  su_record : TerminalSessionRecord;
  su_snapshot_at : Z;
  su_output_bytes : Z;
  su_history_max_bytes : Z;
  su_truncated : bool
}.

Record TerminalSessionHistoryTimelinePage := mkTimelinePage {
  tp_limit : Z;
  tp_offset : Z;
  tp_has_more : bool;
  tp_items : list TerminalSessionHistorySummary
}.

Record TerminalSessionHistorySnapshotPage := mkSnapshotPage {
  sp_limit : Z;
  sp_offset : Z;
  sp_total : Z;
  sp_has_more : bool;
  sp_items : list TerminalSessionHistorySnapshot
}.

#[export] Instance TerminalSessionRecord_eq_dec : EqDecision TerminalSessionRecord.
Proof. solve_decision. Defined.
#[export] Instance TerminalSessionHistorySnapshot_eq_dec : EqDecision TerminalSessionHistorySnapshot.
Proof. solve_decision. Defined.

(** The exceptions of the service, with their messages. *)
Inductive terminal_error :=
| ValueError (msg : string)
| TerminalBackendUnsupportedError (msg : string)
| TerminalBackendDisabledError (msg : string)
| TerminalSessionConflictError (msg : string)
| TerminalSessionNotFoundError (msg : string)
| TerminalSessionOwnershipError (msg : string)
| BridgeError (msg : string).

Definition not_found : terminal_error := TerminalSessionNotFoundError "terminal session not found".

Definition hs_session_id (s : TerminalSessionHistorySnapshot) : string := ts_session_id (hs_record s).

(** ** Merging *)

(** One iteration of [_dedupe_timeline_snapshots]. *)
Definition dedupe_add (d : list (string * TerminalSessionHistorySnapshot))
    (o : option TerminalSessionHistorySnapshot) : list (string * TerminalSessionHistorySnapshot) :=
  match o with
  | None => d
  | Some s =>
      match od_get (hs_session_id s) d with
      | None => od_set (hs_session_id s) s d
      | Some e => if (hs_snapshot_at e <? hs_snapshot_at s)%Z then od_set (hs_session_id s) s d else d
      end
  end.

Definition dedupe_timeline_snapshots (in_memory latest : option TerminalSessionHistorySnapshot)
    (archived : list TerminalSessionHistorySnapshot) : list TerminalSessionHistorySnapshot :=
  od_values (foldl dedupe_add [] (in_memory :: latest :: (Some <$> archived))).

Definition timeline_key (s : TerminalSessionHistorySnapshot) : Z * string :=
  (hs_snapshot_at s, hs_session_id s).

(** [_list_merged_history_snapshots_by_group], from the two sources on. *)
Definition list_merged_history_snapshots
    (in_memory latest : option TerminalSessionHistorySnapshot)
    (archived : list TerminalSessionHistorySnapshot) :
    result terminal_error (list TerminalSessionHistorySnapshot) :=
  let snapshots := dedupe_timeline_snapshots in_memory latest archived in
  match snapshots with
  | [] => raise not_found
  | _ => Ok (py_sorted_rev timeline_key snapshots)
  end.

(** ** Filtering *)

(** [_normalize_snapshot_bound]. *)
Definition normalize_snapshot_bound (v : option datetime) : option Z :=
  match v with
  | None => None
  | Some (Naive w) => Some w
  | Some (Aware i) => Some i
  end.

(** The keyword arguments of the history queries. *)
Record history_filter := mkFilter {
  fl_status : option TerminalSessionStatus;
  fl_owner_user_id : option string;
  fl_session_id_prefix : option string;
  fl_snapshot_from : option datetime;
  fl_snapshot_to : option datetime
}.

(** A string argument, stripped, with blank as absent. *)
Definition normalize_text (v : option string) : option string :=
  match v with
  | None => None
  | Some s => let s := strip s in if bool_decide (s = "") then None else Some s
  end.

(** Does a snapshot survive the [continue]s of [_filter_history_snapshots]? *)
Definition filter_keeps (status : option TerminalSessionStatus) (owner prefix : option string)
    (from to : option Z) (s : TerminalSessionHistorySnapshot) : bool :=
  match status with Some st => bool_decide (ts_status (hs_record s) = st) | None => true end &&
  match owner with
  | Some o => bool_decide (ts_owner_user_id (hs_record s) = o) | None => true end &&
  match prefix with Some p => startswith p (hs_session_id s) | None => true end &&
  match from with Some t => negb (hs_snapshot_at s <? t)%Z | None => true end &&
  match to with Some t => negb (t <? hs_snapshot_at s)%Z | None => true end.

(** [_filter_history_snapshots]. *)
Definition filter_history_snapshots (snapshots : list TerminalSessionHistorySnapshot)
    (f : history_filter) : result terminal_error (list TerminalSessionHistorySnapshot) :=
  let from := normalize_snapshot_bound (fl_snapshot_from f) in
  let to := normalize_snapshot_bound (fl_snapshot_to f) in
  let bad := match from, to with Some a, Some b => (b <? a)%Z | _, _ => false end in
  if bad then raise (ValueError "snapshot_from must be less than or equal to snapshot_to")
  else
    let owner := normalize_text (fl_owner_user_id f) in
    let prefix := normalize_text (fl_session_id_prefix f) in
    Ok (List.filter (filter_keeps (fl_status f) owner prefix from to) snapshots).

(** [_to_history_summary]. *)
Definition to_history_summary (s : TerminalSessionHistorySnapshot) : TerminalSessionHistorySummary :=
  mkSummary (hs_record s) (hs_snapshot_at s) (hs_output_bytes s) (hs_history_max_bytes s)
    (hs_truncated s).

(** ** Queries *)

(** [items[offset : offset + limit]] and [(offset + limit) < len(items)]. *)
Definition page_items {A} (limit offset : Z) (l : list A) : list A :=
  page (Z.to_nat offset) (Z.to_nat limit) l.
Definition page_has_more {A} (limit offset : Z) (l : list A) : bool :=
  (offset + limit <? Z.of_nat (length l))%Z.

(** The filter step the queries share: an empty result is "not found". *)
Definition filtered_or_not_found (snapshots : list TerminalSessionHistorySnapshot)
    (f : history_filter) : result terminal_error (list TerminalSessionHistorySnapshot) :=
  filtered ← filter_history_snapshots snapshots f;
  match filtered with [] => raise not_found | _ => Ok filtered end.

Section queries.
(** What [_list_merged_history_snapshots_by_group] gives for the workspace. *)
Variable merged : result terminal_error (list TerminalSessionHistorySnapshot).

Definition list_history_timeline_by_group (limit offset : Z) (f : history_filter) :
    result terminal_error TerminalSessionHistoryTimelinePage :=
  guard! (0 <? limit)%Z orelse (ValueError "limit must be positive");
  guard! (0 <=? offset)%Z orelse (ValueError "offset must be non-negative");
  snapshots ← merged;
  filtered ← filtered_or_not_found snapshots f;
  let summaries := to_history_summary <$> filtered in
  Ok (mkTimelinePage limit offset (page_has_more limit offset summaries)
        (page_items limit offset summaries)).

Definition list_history_snapshot_page_by_group (limit offset : Z) (f : history_filter) :
    result terminal_error TerminalSessionHistorySnapshotPage :=
  guard! (0 <? limit)%Z orelse (ValueError "limit must be positive");
  guard! (0 <=? offset)%Z orelse (ValueError "offset must be non-negative");
  snapshots ← merged;
  filtered ← filtered_or_not_found snapshots f;
  Ok (mkSnapshotPage limit offset (Z.of_nat (length filtered))
        (page_has_more limit offset filtered) (page_items limit offset filtered)).

Definition list_history_snapshots_by_group (f : history_filter) :
    result terminal_error (list TerminalSessionHistorySnapshot) :=
  snapshots ← merged;
  filtered_or_not_found snapshots f.

Definition get_history_snapshot_by_group (session_id : string) :
    result terminal_error TerminalSessionHistorySnapshot :=
  let sid := strip session_id in
  guard! negb (bool_decide (sid = "")) orelse not_found;
  snapshots ← merged;
  match find_first (fun s => bool_decide (hs_session_id s = sid)) snapshots with
  | Some s => Ok s
  | None => raise not_found
  end.
End queries.

(** [list_history_snapshot_archives_by_groups]; [merged g] is what the
    [_load] of workspace [g] gets. [gather] gives the results in order. *)
Definition normalize_group_folders (group_folders : list string) : list string :=
  py_sorted (fun g : string => g)
    (remove_dups (List.filter (fun g => negb (bool_decide (g = ""))) (strip <$> group_folders))).

Definition load_archive (merged : string -> result terminal_error (list TerminalSessionHistorySnapshot))
    (f : history_filter) (g : string) :
    result terminal_error (string * list TerminalSessionHistorySnapshot) :=
  match merged g with
  | Err (TerminalSessionNotFoundError _) => Ok (g, [])
  | Err e => Err e
  | Ok items => filtered ← filter_history_snapshots items f; Ok (g, filtered)
  end.

Fixpoint gather {E A B} (f : A -> result E B) (l : list A) : result E (list B) :=
  match l with
  | [] => Ok []
  | x :: l' => y ← f x; ys ← gather f l'; Ok (y :: ys)
  end.

Definition list_history_snapshot_archives_by_groups
    (merged : string -> result terminal_error (list TerminalSessionHistorySnapshot))
    (group_folders : list string) (f : history_filter) :
    result terminal_error (list (string * list TerminalSessionHistorySnapshot)) :=
  _ ← filter_history_snapshots [] f;
  results ← gather (load_archive merged f) (normalize_group_folders group_folders);
  Ok (List.filter (fun e => match e.2 with [] => false | _ => true end) results).

(** ** Lemmas *)

Section dedupe.
Implicit Types (s e : TerminalSessionHistorySnapshot)
  (d : list (string * TerminalSessionHistorySnapshot)).

Definition keyed d : Prop := forall k s, (k, s) ∈ d -> hs_session_id s = k.

(** After a prefix of the loop, the entry of a session is the first of its
    snapshots, among those seen, that no later one exceeds. *)
Definition newest_of (l : list TerminalSessionHistorySnapshot) (k : string)
    (o : option TerminalSessionHistorySnapshot) : Prop :=
  match o with
  | None => forall s, s ∈ l -> hs_session_id s <> k
  | Some e => e ∈ l /\ hs_session_id e = k /\
      forall s, s ∈ l -> hs_session_id s = k -> (hs_snapshot_at s <= hs_snapshot_at e)%Z
  end.

Lemma dedupe_add_newest l d o k :
  (forall k, newest_of l k (od_get k d)) ->
  newest_of (l ++ option_list o) k (od_get k (dedupe_add d o)).
Proof.
  intros H. destruct o as [s|]; simpl; [|by rewrite app_nil_r].
  pose proof (H (hs_session_id s)) as Hs. pose proof (H k) as Hk.
  assert (G : k <> hs_session_id s -> newest_of (l ++ [s]) k (od_get k d)).
  { intros Hne. destruct (od_get k d) as [e|]; simpl in *.
    - destruct Hk as (H1 & H2 & H3). split; [set_solver|]. split; [done|]. set_solver.
    - set_solver. }
  destruct (od_get (hs_session_id s) d) as [e|] eqn:E.
  - destruct Hs as (H1 & H2 & H3). destruct (Z.ltb_spec (hs_snapshot_at e) (hs_snapshot_at s)).
    + rewrite od_get_set. case_decide as D; [subst k|by apply G].
      simpl. split; [set_solver|]. split; [done|].
      intros x [Hx|Hx%list_elem_of_singleton]%elem_of_app Hid; [|by subst].
      specialize (H3 x Hx Hid). lia.
    + destruct (decide (k = hs_session_id s)) as [->|Hne]; [|by apply G].
      rewrite E. simpl. split; [set_solver|]. split; [done|].
      intros x [Hx|Hx%list_elem_of_singleton]%elem_of_app Hid; [by apply H3|by subst].
  - rewrite od_get_set. case_decide as D; [subst k|by apply G].
    simpl in *. split; [set_solver|]. split; [done|].
    intros x [Hx|Hx%list_elem_of_singleton]%elem_of_app Hid; [by destruct (Hs x Hx)|by subst].
Qed.

Lemma dedupe_add_keyed d o : keyed d -> keyed (dedupe_add d o).
Proof.
  intros H. destruct o as [s|]; [|done]. simpl.
  assert (K : keyed (od_set (hs_session_id s) s d)).
  { clear -H. induction d as [|[k e] d IH]; intros k' s'; simpl.
    - intros [= -> ->]%list_elem_of_singleton. done.
    - case_decide as D.
      + intros [[= -> ->]|Hin]%elem_of_cons; [done|]. apply H. by right.
      + intros [[= -> ->]|Hin]%elem_of_cons; [apply H; by left|].
        apply IH; [|done]. intros k2 s2 H2. apply H. by right. }
  destruct (od_get _ d); [|done]. by case_match.
Qed.

Lemma dedupe_add_wf d o : od_wf d -> od_wf (dedupe_add d o).
Proof. intros H. destruct o as [s|]; [|done]. simpl. repeat case_match; auto using od_wf_set. Qed.

Lemma dedupe_fold l os d :
  (forall k, newest_of l k (od_get k d)) -> keyed d -> od_wf d ->
  let d' := foldl dedupe_add d os in
  (forall k, newest_of (l ++ (os ≫= option_list)) k (od_get k d')) /\ keyed d' /\ od_wf d'.
Proof.
  revert l d. induction os as [|o os IH]; intros l d H1 H2 H3; simpl.
  - by rewrite app_nil_r.
  - rewrite app_assoc. apply IH; [|by apply dedupe_add_keyed|by apply dedupe_add_wf].
    intros k. by apply dedupe_add_newest.
Qed.

Lemma bind_options {A} (l : list A) : (Some <$> l) ≫= option_list = l.
Proof. induction l as [|x l IH]; [done|]. rewrite fmap_cons, bind_cons, IH. done. Qed.

(** The input snapshots of a merge, in the order they are looked at. *)
Definition sources (in_memory latest : option TerminalSessionHistorySnapshot)
    (archived : list TerminalSessionHistorySnapshot) : list TerminalSessionHistorySnapshot :=
  option_list in_memory ++ option_list latest ++ archived.

Lemma dedupe_spec m l a :
  let r := dedupe_timeline_snapshots m l a in
  NoDup (hs_session_id <$> r) /\
  forall s, s ∈ r <-> exists d, (forall k, newest_of (sources m l a) k (od_get k d)) /\
                        od_get (hs_session_id s) d = Some s /\ od_values d = r.
Proof.
  unfold dedupe_timeline_snapshots.
  destruct (dedupe_fold [] (m :: l :: (Some <$> a)) []) as (H1 & H2 & H3);
    [by intros k s H%elem_of_nil|by intros k s H%elem_of_nil|constructor|].
  set (d := foldl _ _ _) in *.
  assert (E : [] ++ ((m :: l :: (Some <$> a)) ≫= option_list) = sources m l a).
  { unfold sources. rewrite !bind_cons, bind_options. done. }
  rewrite E in H1. clear E.
  assert (K : hs_session_id <$> od_values d = od_keys d).
  { unfold od_values, od_keys. clearbody d. clear H1 H3. induction d as [|[k s] d IH]; [done|].
    csimpl. f_equal; [apply H2; left|]. apply IH. intros k' s' H. apply H2. by right. }
  split; [by rewrite K|]. intros s. split.
  - intros Hs. exists d. split; [done|]. split; [|done].
    apply list_elem_of_fmap in Hs as ([k s'] & -> & Hin). simpl.
    rewrite (H2 _ _ Hin). by apply od_elem_get.
  - intros (d' & _ & Hg & <-). apply od_get_Some_elem in Hg.
    by apply (list_elem_of_fmap_2 snd) in Hg.
Qed.

Lemma dedupe_entry m l a :
  exists d, (forall k, newest_of (sources m l a) k (od_get k d)) /\ od_wf d /\
    od_values d = dedupe_timeline_snapshots m l a.
Proof.
  destruct (dedupe_fold [] (m :: l :: (Some <$> a)) []) as (H1 & H2 & H3);
    [by intros k s H%elem_of_nil|by intros k s H%elem_of_nil|constructor|].
  eexists. split; [|split; [exact H3|done]]. intros k. specialize (H1 k).
  rewrite app_nil_l, !bind_cons, bind_options in H1. exact H1.
Qed.

End dedupe.

Lemma filter_history_ok l f r :
  filter_history_snapshots l f = Ok r ->
  r = List.filter (filter_keeps (fl_status f) (normalize_text (fl_owner_user_id f))
        (normalize_text (fl_session_id_prefix f)) (normalize_snapshot_bound (fl_snapshot_from f))
        (normalize_snapshot_bound (fl_snapshot_to f))) l.
Proof. unfold filter_history_snapshots. case_cond; intros; by inv_res. Qed.
