(* ===== verification/TerminalHistoryProps.v ===== *)
(** * Properties of the terminal history queries

    Merging keeps the newest snapshot of every session, newest first; filters
    keep exactly what their arguments ask for; pages tile the filtered list. *)

From stdpp Require Import base gmap strings list option sorting.
From Stdlib Require Import ZArith Lia.
From S2P Require Import Prelude PyStr PySort PyDict TerminalHistory.

(** Merging. A merge fails exactly when there is no snapshot. Otherwise
    every session that has one is represented exactly once, by one of its
    newest snapshots, and the snapshots come newest first, ties by descending
    session id. *)
Theorem merge_keeps_newest m l a :
  match list_merged_history_snapshots m l a with
  | Err e => e = not_found /\ sources m l a = []
  | Ok r =>
      NoDup (hs_session_id <$> r) /\
      (forall s, s ∈ r -> s ∈ sources m l a /\
         forall s', s' ∈ sources m l a -> hs_session_id s' = hs_session_id s ->
           (hs_snapshot_at s' <= hs_snapshot_at s)%Z) /\
      (forall s, s ∈ sources m l a -> hs_session_id s ∈ (hs_session_id <$> r)) /\
      StronglySorted (fun x y => key_leb timeline_key y x = true) r
  end.
Proof.
  unfold list_merged_history_snapshots. destruct (dedupe_spec m l a) as [ND H].
  set (r0 := dedupe_timeline_snapshots m l a) in *.
  assert (C : forall s, s ∈ sources m l a -> hs_session_id s ∈ (hs_session_id <$> r0)).
  { intros s Hs. destruct (dedupe_entry m l a) as (d & D1 & D2 & D3). fold r0 in D3.
    specialize (D1 (hs_session_id s)). destruct (od_get (hs_session_id s) d) as [e|] eqn:E.
    - apply list_elem_of_fmap. exists e. destruct D1 as (_ & -> & _). split; [done|].
      apply od_get_Some_elem, (list_elem_of_fmap_2 snd) in E. by rewrite <- D3.
    - by destruct (D1 s Hs). }
  destruct r0 as [|s0 r0'] eqn:E.
  - split; [done|]. destruct (sources m l a) as [|s ss]; [done|]. exfalso.
    specialize (C s (list_elem_of_here _ _)). by apply elem_of_nil in C.
  - rewrite <- E in *. clear E. split; [|split; [|split]].
    + by rewrite py_sorted_rev_perm.
    + intros s Hs%py_sorted_rev_elem%H. destruct Hs as (d & D1 & D2 & _).
      specialize (D1 (hs_session_id s)). rewrite D2 in D1. destruct D1 as (G1 & _ & G3).
      split; [done|]. intros s' Hs' Hid. by apply G3.
    + intros s Hs. rewrite py_sorted_rev_perm. by apply C.
    + apply py_sorted_rev_sorted.
Qed.

(** An optional criterion. *)
Lemma opt_all {P} (o : option P) (g : P -> bool) (h : P -> Prop) :
  (forall p, g p = true <-> h p) ->
  match o with Some p => g p | None => true end = true <-> (forall p, o = Some p -> h p).
Proof. intros Hg. destruct o as [p|]; [rewrite Hg|]; naive_solver. Qed.

(** Filtering. A filter fails exactly when both bounds are given and the
    lower is above the upper. Otherwise the result is, in order, the snapshots
    with the asked status, the asked owner, an id that starts with the asked
    prefix (blank strings ask for nothing) and a time between the bounds. *)
Theorem filter_keeps_what_is_asked l f :
  match filter_history_snapshots l f with
  | Err e => (exists a b, normalize_snapshot_bound (fl_snapshot_from f) = Some a /\
               normalize_snapshot_bound (fl_snapshot_to f) = Some b /\ (b < a)%Z) /\
             exists msg, e = ValueError msg
  | Ok r =>
      r `sublist_of` l /\
      forall s, s ∈ r <-> s ∈ l /\
        (forall st, fl_status f = Some st -> ts_status (hs_record s) = st) /\
        (forall o, normalize_text (fl_owner_user_id f) = Some o ->
           ts_owner_user_id (hs_record s) = o) /\
        (forall p, normalize_text (fl_session_id_prefix f) = Some p ->
           exists rest, hs_session_id s = p +:+ rest) /\
        (forall t, normalize_snapshot_bound (fl_snapshot_from f) = Some t ->
           (t <= hs_snapshot_at s)%Z) /\
        (forall t, normalize_snapshot_bound (fl_snapshot_to f) = Some t ->
           (hs_snapshot_at s <= t)%Z)
  end.
Proof.
  unfold filter_history_snapshots.
  set (from := normalize_snapshot_bound (fl_snapshot_from f)).
  set (to := normalize_snapshot_bound (fl_snapshot_to f)).
  destruct (match from with Some _ => _ | None => false end) eqn:E.
  - destruct from as [x|], to as [y|]; try done. split; [|by eexists].
    exists x, y. split; [done|]. split; [done|]. by apply Z.ltb_lt.
  - split.
    + induction l as [|x l IH]; [constructor|]. simpl. destruct (filter_keeps _ _ _ _ _ x); [by apply sublist_skip|by apply sublist_cons].
    + intros s. rewrite !list_elem_of_In, filter_In. unfold filter_keeps. rewrite !andb_true_iff.
      assert (B : forall t u, negb (t <? u)%Z = true <-> (u <= t)%Z)
        by (intros; rewrite negb_true_iff, Z.ltb_ge; done).
      rewrite (opt_all (fl_status f) (fun st => bool_decide (ts_status (hs_record s) = st))
        (fun st => ts_status (hs_record s) = st)) by (intros; apply bool_decide_eq_true).
      rewrite (opt_all (normalize_text (fl_owner_user_id f))
        (fun o => bool_decide (ts_owner_user_id (hs_record s) = o))
        (fun o => ts_owner_user_id (hs_record s) = o)) by (intros; apply bool_decide_eq_true).
      rewrite (opt_all (normalize_text (fl_session_id_prefix f))
        (fun p => startswith p (hs_session_id s))
        (fun p => exists rest, hs_session_id s = p +:+ rest)) by (intros; apply startswith_spec).
      rewrite (opt_all from (fun t => negb (hs_snapshot_at s <? t)%Z)
        (fun t => (t <= hs_snapshot_at s)%Z)) by (intros; apply B).
      rewrite (opt_all to (fun t => negb (t <? hs_snapshot_at s)%Z)
        (fun t => (hs_snapshot_at s <= t)%Z)) by (intros; apply B).
      tauto.
Qed.

(** The items of the [k]-th page of [limit] snapshots. *)
Definition nth_page merged limit f (k : nat) : list TerminalSessionHistorySnapshot :=
  match list_history_snapshot_page_by_group merged limit (Z.of_nat k * limit)%Z f with
  | Ok p => sp_items p
  | Err _ => []
  end.

Lemma page_query merged limit offset f r :
  (0 < limit)%Z -> (0 <= offset)%Z -> list_history_snapshots_by_group merged f = Ok r ->
  list_history_snapshot_page_by_group merged limit offset f =
    Ok (mkSnapshotPage limit offset (Z.of_nat (length r)) (page_has_more limit offset r)
          (page_items limit offset r)).
Proof.
  intros H1 H2. unfold list_history_snapshots_by_group, list_history_snapshot_page_by_group.
  destruct (Z.ltb_spec 0 limit); [|lia]. destruct (Z.leb_spec 0 offset); [|lia].
  destruct merged as [l|]; [|done]. simpl. by intros ->.
Qed.

(** Pages tile the list. When the unpaged query succeeds, every page of a
    positive size succeeds and reports the total; the first [n] pages,
    concatenated, are the first [n * limit] snapshots of the unpaged answer,
    and a page says there is more exactly when they are not yet all. *)
Theorem pages_tile merged limit f r :
  (0 < limit)%Z -> list_history_snapshots_by_group merged f = Ok r ->
  forall n : nat,
    concat (nth_page merged limit f <$> seq 0 n) = take (n * Z.to_nat limit) r /\
    exists p, list_history_snapshot_page_by_group merged limit (Z.of_nat n * limit)%Z f = Ok p /\
      sp_total p = Z.of_nat (length r) /\
      (sp_has_more p = true <-> concat (nth_page merged limit f <$> seq 0 (S n)) <> r).
Proof.
  intros Hl Hr.
  assert (P : forall k, nth_page merged limit f k = page (k * Z.to_nat limit) (Z.to_nat limit) r).
  { intros k. unfold nth_page. rewrite (page_query _ _ _ _ r) by (done || lia). simpl.
    unfold page_items. f_equal. rewrite Z2Nat.inj_mul by lia. by rewrite Nat2Z.id. }
  assert (T : forall n, concat (nth_page merged limit f <$> seq 0 n) = take (n * Z.to_nat limit) r).
  { induction n as [|n IH]; [by rewrite take_0|].
    rewrite seq_S, fmap_app, concat_app, IH. simpl. rewrite app_nil_r, P. unfold page.
    rewrite take_take_drop. f_equal. lia. }
  intros n. split; [apply T|]. rewrite (page_query _ _ _ _ r) by (done || lia).
  eexists. split; [done|]. split; [done|]. rewrite T. simpl. unfold page_has_more.
  rewrite Z.ltb_lt. split.
  - intros H E. apply (f_equal length) in E. rewrite length_take in E. lia.
  - intros H. destruct (Z.lt_ge_cases (Z.of_nat n * limit + limit) (Z.of_nat (length r))); [done|].
    exfalso. apply H. apply take_ge. lia.
Qed.

(** ** Witness *)

Definition ex_snap (i : string) (at_ : Z) : TerminalSessionHistorySnapshot :=
  mkHistory (mkSession i "g" "ws" "alice" "docker_container" None TsClosed 0 None None)
    at_ "out" 3 100 false.
Definition ex_merged : result terminal_error (list TerminalSessionHistorySnapshot) :=
  list_merged_history_snapshots (Some (ex_snap "s2" 7)) (Some (ex_snap "s2" 3))
    [ex_snap "s1" 5; ex_snap "s0" 1].
Definition ex_no_filter : history_filter := mkFilter None None None None None.

Lemma pages_tile_witness :
  hs_session_id <$> concat (nth_page ex_merged 2 ex_no_filter <$> seq 0 1) = ["s2"; "s1"] /\
  exists p, list_history_snapshot_page_by_group ex_merged 2 2 ex_no_filter = Ok p /\
    sp_total p = 3%Z.
Proof.
  assert (list_history_snapshots_by_group ex_merged ex_no_filter =
    Ok [ex_snap "s2" 7; ex_snap "s1" 5; ex_snap "s0" 1]) as R by (vm_compute; reflexivity).
  destruct (pages_tile ex_merged 2 ex_no_filter _ ltac:(lia) R 1) as [H (p & H1 & H2 & _)].
  split.
  - rewrite H. vm_compute. reflexivity.
  - exists p. split; [exact H1|exact H2].
Defined.
