(* ===== verification/TerminalSearch.v ===== *)
(** * Searching terminal history ([services/terminal_sessions.py])

    [search_history_by_group]: the case-insensitive scan, the predicates that
    classify a hit by what surrounds it, their counts, the ranking candidate and
    its sort key, the snippets and the page. Offsets and lengths are [nat]; a
    slice whose start is [offset - 1] is only taken where it exists or is empty
    at offset 0 in Python too ([text[-1:0]] is [""]). Counts, keys and the
    "no match" offsets, which are compared and subtracted, are [Z]. *)

From stdpp Require Import base gmap strings list option sorting.
From Stdlib Require Import ZArith QArith Lia Ascii.
From S2P Require Import Prelude PyStr PySort PyDict TerminalHistory.

Open Scope Z_scope.

Record TerminalSessionHistorySearchSnippet := mkSnippet {
  snip_text : string;
  snip_match_index : Z;
  snip_match_offset : Z
}.

Record TerminalSessionHistorySearchMatch := mkMatch {
  sm_record : TerminalSessionRecord;
  sm_snapshot_at : Z;
  sm_match_count : Z;
  sm_snippets : list string;
  sm_snippet_matches : list TerminalSessionHistorySearchSnippet
}.

Record TerminalSessionHistorySearchPage := mkSearchPage {
  pg_query : string;
  pg_limit : Z;
  pg_offset : Z;
  pg_total : Z;
  pg_has_more : bool;
  pg_items : list TerminalSessionHistorySearchMatch
}.

Definition sm_session_id (m : TerminalSessionHistorySearchMatch) : string :=
  ts_session_id (sm_record m).

(** ** Finding the hits *)

(** The loop of [_find_case_insensitive_match_offsets]; the position grows by at
    least one character per round, so the length of the text is enough fuel. *)
Fixpoint find_offsets (fuel : nat) (lowered_text lowered_query : list ascii) (position : nat) :
    list nat :=
  match fuel with
  | O => []
  | S fuel' =>
      match py_find lowered_query lowered_text position with
      | None => []
      | Some found =>
          found :: find_offsets fuel' lowered_text lowered_query
                     (found + Nat.max 1 (List.length lowered_query))
      end
  end.

Definition find_case_insensitive_match_offsets (text query : list ascii) : list nat :=
  if bool_decide (text = []) || bool_decide (query = []) then []
  else
    let lowered_text := lower_char <$> text in
    let lowered_query := lower_char <$> query in
    find_offsets (S (List.length text)) lowered_text lowered_query 0.

(** ** Classifying a hit *)

Section predicates.
Local Open Scope nat_scope.
Local Open Scope char_scope.
Implicit Types (text : list ascii) (offset query_length : nat).

Definition newline : ascii := "010".
Definition tab : ascii := "009".
Definition space : ascii := " ".

(** [s.isspace()]: not empty and all white space. *)
Definition isspace (s : list ascii) : bool :=
  match s with [] => false | _ => forallb isspace_char s end.

(** [s == "" or s.isspace()]. *)
Definition blank (s : list ascii) : bool := bool_decide (s = []) || isspace s.

(** [text[a:b] == s]. *)
Definition at_is text (a b : nat) (s : list ascii) : bool := bool_decide (slice a b text = s).

(** [i >= len(text) or text[i].isspace()]. *)
Definition end_or_space text (i : nat) : bool :=
  match text !! i with None => true | Some c => isspace_char c end.

Definition is_word_char (c : ascii) : bool :=
  let n := code c in
  ((97 <=? n) && (n <=? 122) || (65 <=? n) && (n <=? 90) || (48 <=? n) && (n <=? 57)
   || (n =? 95))%N.

Definition is_whole_word_match text offset query_length : bool :=
  let end_ := offset + query_length in
  if bool_decide (List.length text < end_) then false
  else
    let prev_is_word_char :=
      match offset with O => false | S p => from_option is_word_char false (text !! p) end in
    let next_is_word_char := from_option is_word_char false (text !! end_) in
    negb prev_is_word_char && negb next_is_word_char.

Definition is_line_start_whole_word_match text offset query_length : bool :=
  if negb (is_whole_word_match text offset query_length) then false
  else match offset with
       | O => true
       | S p => bool_decide (text !! p = Some newline)
       end.

Definition is_line_start_log_marker_match text offset query_length : bool :=
  if negb (is_line_start_whole_word_match text offset query_length) then false
  else
    let end_ := offset + query_length in
    at_is text end_ (end_ + 1) [":"] || at_is text end_ (end_ + 2) [" "; "-"].

Definition is_line_start_delimited_log_marker_match text offset query_length : bool :=
  if negb (is_line_start_log_marker_match text offset query_length) then false
  else
    let end_ := offset + query_length in
    if at_is text end_ (end_ + 1) [":"] then end_or_space text (end_ + 1)
    else if at_is text end_ (end_ + 2) [" "; "-"] then end_or_space text (end_ + 2)
    else false.

(** [_LINE_START_PUNCTUATION_WRAP_PAIRS.get]. *)
Definition LINE_START_PUNCTUATION_WRAP_PAIRS : list (ascii * ascii) :=
  [("[", "]"); ("(", ")"); ("{", "}"); ("<", ">")].
Definition wrap_pair (opening : ascii) : option ascii :=
  od_get opening LINE_START_PUNCTUATION_WRAP_PAIRS.

Definition is_line_start_punctuation_wrap_match text offset query_length : bool :=
  if negb (is_whole_word_match text offset query_length) then false
  else match offset with
       | O => false
       | S opening_offset =>
           match text !! opening_offset ≫= wrap_pair with
           | None => false
           | Some closing =>
               let line_start := match opening_offset with
                                 | O => true
                                 | S p => bool_decide (text !! p = Some newline)
                                 end in
               if negb line_start then false
               else
                 let end_ := offset + query_length in
                 at_is text end_ (end_ + 1) [closing]
           end
       end.

Definition is_line_start_exact_tag_match text offset query_length : bool :=
  if negb (is_line_start_punctuation_wrap_match text offset query_length) then false
  else
    let t := offset + query_length + 1 in
    match text !! t with
    | None => true
    | Some trailing_char =>
        if isspace_char trailing_char then true
        else if bool_decide (trailing_char = ":") then blank (slice (t + 1) (t + 2) text)
        else if at_is text t (t + 2) [" "; "-"] then blank (slice (t + 2) (t + 3) text)
        else false
    end.

Definition is_line_start_exact_tag_marker_match text offset query_length : bool :=
  if negb (is_line_start_exact_tag_match text offset query_length) then false
  else
    let t := offset + query_length + 1 in
    if at_is text t (t + 1) [":"] then blank (slice (t + 1) (t + 2) text)
    else if at_is text t (t + 2) [" "; "-"] then blank (slice (t + 2) (t + 3) text)
    else false.

Definition is_line_start_exact_tag_colon_marker_match text offset query_length : bool :=
  if negb (is_line_start_exact_tag_marker_match text offset query_length) then false
  else
    let t := offset + query_length + 1 in
    if negb (at_is text t (t + 1) [":"]) then false
    else blank (slice (t + 1) (t + 2) text).

(** [text[offset - 1 : offset] == opening and
    text[offset + query_length : offset + query_length + 1] == closing]. *)
Definition wrapped_in (opening closing : ascii) text offset query_length : bool :=
  at_is text (offset - 1) offset [opening] &&
  at_is text (offset + query_length) (offset + query_length + 1) [closing].

Definition is_line_start_square_bracket_exact_tag_match text offset query_length : bool :=
  if negb (is_line_start_exact_tag_match text offset query_length) then false
  else wrapped_in "[" "]" text offset query_length.

Definition is_line_start_square_bracket_plain_exact_tag_match text offset query_length : bool :=
  if negb (is_line_start_square_bracket_exact_tag_match text offset query_length) then false
  else if is_line_start_exact_tag_marker_match text offset query_length then false
  else true.

Definition is_line_start_angle_wrapper_plain_exact_tag_match text offset query_length : bool :=
  if negb (is_line_start_exact_tag_match text offset query_length) then false
  else if is_line_start_exact_tag_marker_match text offset query_length then false
  else wrapped_in "<" ">" text offset query_length.

Definition is_line_start_plain_exact_tag_single_space_separator_match text offset query_length :
    bool :=
  if negb (is_line_start_exact_tag_match text offset query_length) then false
  else if is_line_start_exact_tag_marker_match text offset query_length then false
  else
    let s := offset + query_length + 1 in
    if negb (at_is text s (s + 1) [space]) then false
    else
      let next_char := slice (s + 1) (s + 2) text in
      negb (bool_decide (next_char = [])) && negb (isspace next_char).

(** The loop of the payloadless test, on the rest of the text: white space up
    to the end of the line. *)
Fixpoint blank_line (rest : list ascii) : bool :=
  match rest with
  | [] => true
  | c :: rest' =>
      if bool_decide (c = newline) then true
      else if negb (isspace_char c) then false else blank_line rest'
  end.

Definition is_line_start_plain_exact_tag_payloadless_separator_match text offset query_length :
    bool :=
  if negb (is_line_start_exact_tag_match text offset query_length) then false
  else if is_line_start_exact_tag_marker_match text offset query_length then false
  else
    let s := offset + query_length + 1 in
    if bool_decide (List.length text <= s) then true else blank_line (drop s text).

(** The loop of the payload tests: a non-space character on the line. *)
Fixpoint line_payload (rest : list ascii) : bool :=
  match rest with
  | [] => false
  | c :: rest' =>
      if bool_decide (c = newline) then false
      else if negb (isspace_char c) then true else line_payload rest'
  end.

Definition is_line_start_non_single_space_plain_exact_tag_separator_match text offset query_length :
    bool :=
  if negb (is_line_start_exact_tag_match text offset query_length) then false
  else if is_line_start_exact_tag_marker_match text offset query_length then false
  else if is_line_start_plain_exact_tag_single_space_separator_match text offset query_length
  then false
  else true.

Definition is_line_start_plain_exact_tag_tab_prefixed_payload_match text offset query_length : bool :=
  if negb (is_line_start_exact_tag_match text offset query_length) then false
  else if is_line_start_exact_tag_marker_match text offset query_length then false
  else if is_line_start_plain_exact_tag_payloadless_separator_match text offset query_length
  then false
  else
    let s := offset + query_length + 1 in
    if negb (at_is text s (s + 1) [tab]) then false else line_payload (drop s text).

Definition is_line_start_plain_exact_tag_multi_space_payload_match text offset query_length : bool :=
  if negb (is_line_start_exact_tag_match text offset query_length) then false
  else if is_line_start_exact_tag_marker_match text offset query_length then false
  else if is_line_start_plain_exact_tag_payloadless_separator_match text offset query_length
  then false
  else if is_line_start_plain_exact_tag_tab_prefixed_payload_match text offset query_length
  then false
  else
    let s := offset + query_length + 1 in
    if negb (at_is text s (s + 1) [space]) then false
    else if negb (at_is text (s + 1) (s + 2) [space]) then false
    else line_payload (drop s text).

Definition is_line_start_plain_exact_tag_space_prefixed_mixed_whitespace_payload_match
    text offset query_length : bool :=
  if negb (is_line_start_exact_tag_match text offset query_length) then false
  else if is_line_start_exact_tag_marker_match text offset query_length then false
  else if is_line_start_plain_exact_tag_payloadless_separator_match text offset query_length
  then false
  else if is_line_start_plain_exact_tag_tab_prefixed_payload_match text offset query_length
  then false
  else if is_line_start_plain_exact_tag_multi_space_payload_match text offset query_length
  then false
  else
    let s := offset + query_length + 1 in
    if negb (at_is text s (s + 1) [space]) then false
    else
      let second_separator := slice (s + 1) (s + 2) text in
      if bool_decide (second_separator = []) || negb (isspace second_separator)
         || bool_decide (second_separator = [space])
      then false
      else line_payload (drop s text).

Definition is_line_start_plain_exact_tag_other_leading_whitespace_payload_match
    text offset query_length : bool :=
  if negb (is_line_start_exact_tag_match text offset query_length) then false
  else if is_line_start_exact_tag_marker_match text offset query_length then false
  else if is_line_start_plain_exact_tag_payloadless_separator_match text offset query_length
  then false
  else if is_line_start_plain_exact_tag_tab_prefixed_payload_match text offset query_length
  then false
  else if is_line_start_plain_exact_tag_multi_space_payload_match text offset query_length
  then false
  else if is_line_start_plain_exact_tag_space_prefixed_mixed_whitespace_payload_match
            text offset query_length
  then false
  else
    let s := offset + query_length + 1 in
    let leading := slice s (s + 1) text in
    if bool_decide (leading = []) || negb (isspace leading)
       || bool_decide (leading = [space]) || bool_decide (leading = [tab])
    then false
    else line_payload (drop s text).

Definition is_line_start_plain_exact_tag_other_leading_mixed_whitespace_payload_match
    text offset query_length : bool :=
  if negb (is_line_start_plain_exact_tag_other_leading_whitespace_payload_match
             text offset query_length)
  then false
  else
    let s := offset + query_length + 1 in
    let second_separator := slice (s + 1) (s + 2) text in
    negb (bool_decide (second_separator = [])) && isspace second_separator.

Definition is_line_start_paren_wrapper_plain_exact_tag_match text offset query_length : bool :=
  if negb (is_line_start_exact_tag_match text offset query_length) then false
  else if is_line_start_exact_tag_marker_match text offset query_length then false
  else wrapped_in "(" ")" text offset query_length.

Definition is_line_start_brace_wrapper_plain_exact_tag_match text offset query_length : bool :=
  if negb (is_line_start_exact_tag_match text offset query_length) then false
  else if is_line_start_exact_tag_marker_match text offset query_length then false
  else wrapped_in "{" "}" text offset query_length.

Definition is_line_start_square_bracket_exact_tag_dash_marker_match text offset query_length : bool :=
  if negb (is_line_start_exact_tag_marker_match text offset query_length) then false
  else if negb (is_line_start_square_bracket_exact_tag_match text offset query_length) then false
  else
    let t := offset + query_length + 1 in
    if negb (at_is text t (t + 2) [" "; "-"]) then false
    else blank (slice (t + 2) (t + 3) text).

Definition is_line_start_paren_wrapper_marker_match text offset query_length : bool :=
  if negb (is_line_start_exact_tag_marker_match text offset query_length) then false
  else wrapped_in "(" ")" text offset query_length.

Definition is_line_start_brace_wrapper_marker_match text offset query_length : bool :=
  if negb (is_line_start_exact_tag_marker_match text offset query_length) then false
  else wrapped_in "{" "}" text offset query_length.

Definition is_line_start_non_square_bracket_exact_tag_colon_marker_match text offset query_length :
    bool :=
  if negb (is_line_start_exact_tag_colon_marker_match text offset query_length) then false
  else if is_line_start_square_bracket_exact_tag_match text offset query_length then false
  else true.

Definition is_line_start_non_square_bracket_exact_tag_dash_marker_match text offset query_length :
    bool :=
  if negb (is_line_start_exact_tag_marker_match text offset query_length) then false
  else if is_line_start_square_bracket_exact_tag_match text offset query_length then false
  else
    let t := offset + query_length + 1 in
    if negb (at_is text t (t + 2) [" "; "-"]) then false
    else blank (slice (t + 2) (t + 3) text).
End predicates.


(** ** Counting: the number of hits of a kind and the first of them *)

Definition NO_WHOLE_WORD_MATCH_OFFSET : Z := Z.shiftl 1 60.
Definition NO_LINE_START_WHOLE_WORD_MATCH_OFFSET : Z := Z.shiftl 1 60.
Definition NO_LINE_START_LOG_MARKER_MATCH_OFFSET : Z := Z.shiftl 1 60.
Definition NO_LINE_START_DELIMITED_LOG_MARKER_MATCH_OFFSET : Z := Z.shiftl 1 60.
Definition NO_LINE_START_EXACT_TAG_MARKER_MATCH_OFFSET : Z := Z.shiftl 1 60.
Definition NO_LINE_START_EXACT_TAG_COLON_MARKER_MATCH_OFFSET : Z := Z.shiftl 1 60.
Definition NO_LINE_START_SQUARE_BRACKET_EXACT_TAG_DASH_MARKER_MATCH_OFFSET : Z := Z.shiftl 1 60.
Definition NO_LINE_START_PAREN_WRAPPER_MARKER_MATCH_OFFSET : Z := Z.shiftl 1 60.
Definition NO_LINE_START_BRACE_WRAPPER_MARKER_MATCH_OFFSET : Z := Z.shiftl 1 60.
Definition NO_LINE_START_NON_SQUARE_BRACKET_EXACT_TAG_COLON_MARKER_MATCH_OFFSET : Z := Z.shiftl 1 60.
Definition NO_LINE_START_NON_SQUARE_BRACKET_EXACT_TAG_DASH_MARKER_MATCH_OFFSET : Z := Z.shiftl 1 60.
Definition NO_LINE_START_EXACT_TAG_MATCH_OFFSET : Z := Z.shiftl 1 60.
Definition NO_LINE_START_SQUARE_BRACKET_EXACT_TAG_MATCH_OFFSET : Z := Z.shiftl 1 60.
Definition NO_LINE_START_SQUARE_BRACKET_PLAIN_EXACT_TAG_MATCH_OFFSET : Z := Z.shiftl 1 60.
Definition NO_LINE_START_PAREN_WRAPPER_PLAIN_EXACT_TAG_MATCH_OFFSET : Z := Z.shiftl 1 60.
Definition NO_LINE_START_BRACE_WRAPPER_PLAIN_EXACT_TAG_MATCH_OFFSET : Z := Z.shiftl 1 60.
Definition NO_LINE_START_ANGLE_WRAPPER_PLAIN_EXACT_TAG_MATCH_OFFSET : Z := Z.shiftl 1 60.
Definition NO_LINE_START_PLAIN_EXACT_TAG_SINGLE_SPACE_SEPARATOR_MATCH_OFFSET : Z := Z.shiftl 1 60.
Definition NO_LINE_START_NON_SINGLE_SPACE_PLAIN_EXACT_TAG_SEPARATOR_MATCH_OFFSET : Z := Z.shiftl 1 60.
Definition NO_LINE_START_PLAIN_EXACT_TAG_PAYLOADLESS_SEPARATOR_MATCH_OFFSET : Z := Z.shiftl 1 60.
Definition NO_LINE_START_PLAIN_EXACT_TAG_TAB_PREFIXED_PAYLOAD_MATCH_OFFSET : Z := Z.shiftl 1 60.
Definition NO_LINE_START_PLAIN_EXACT_TAG_MULTI_SPACE_PAYLOAD_MATCH_OFFSET : Z := Z.shiftl 1 60.
Definition NO_LINE_START_PLAIN_EXACT_TAG_SPACE_PREFIXED_MIXED_WHITESPACE_PAYLOAD_MATCH_OFFSET : Z := Z.shiftl 1 60.
Definition NO_LINE_START_PLAIN_EXACT_TAG_OTHER_LEADING_MIXED_WHITESPACE_PAYLOAD_MATCH_OFFSET : Z := Z.shiftl 1 60.
Definition NO_LINE_START_PLAIN_EXACT_TAG_OTHER_LEADING_WHITESPACE_PAYLOAD_MATCH_OFFSET : Z := Z.shiftl 1 60.
Definition NO_LINE_START_PUNCTUATION_WRAP_MATCH_OFFSET : Z := Z.shiftl 1 60.

(** [len(hits), hits[0]], or zero and the kind's "no match" offset. *)
Definition count_first (none : Z) (hits : list nat) : Z * Z :=
  match hits with
  | [] => (0, none)
  | o :: _ => (Z.of_nat (List.length hits), Z.of_nat o)
  end.

Definition count_whole_word_hits (text : list ascii) (offsets : list nat) (query_length : nat) : Z * Z :=
  count_first NO_WHOLE_WORD_MATCH_OFFSET
    (List.filter (fun o => is_whole_word_match text o query_length) offsets).
Definition count_line_start_whole_word_hits (text : list ascii) (offsets : list nat) (query_length : nat) : Z * Z :=
  count_first NO_LINE_START_WHOLE_WORD_MATCH_OFFSET
    (List.filter (fun o => is_line_start_whole_word_match text o query_length) offsets).
Definition count_line_start_log_marker_hits (text : list ascii) (offsets : list nat) (query_length : nat) : Z * Z :=
  count_first NO_LINE_START_LOG_MARKER_MATCH_OFFSET
    (List.filter (fun o => is_line_start_log_marker_match text o query_length) offsets).
Definition count_line_start_delimited_log_marker_hits (text : list ascii) (offsets : list nat) (query_length : nat) : Z * Z :=
  count_first NO_LINE_START_DELIMITED_LOG_MARKER_MATCH_OFFSET
    (List.filter (fun o => is_line_start_delimited_log_marker_match text o query_length) offsets).
Definition count_line_start_punctuation_wrap_hits (text : list ascii) (offsets : list nat) (query_length : nat) : Z * Z :=
  count_first NO_LINE_START_PUNCTUATION_WRAP_MATCH_OFFSET
    (List.filter (fun o => is_line_start_punctuation_wrap_match text o query_length) offsets).
Definition count_line_start_exact_tag_hits (text : list ascii) (offsets : list nat) (query_length : nat) : Z * Z :=
  count_first NO_LINE_START_EXACT_TAG_MATCH_OFFSET
    (List.filter (fun o => is_line_start_exact_tag_match text o query_length) offsets).
Definition count_line_start_exact_tag_colon_marker_hits (text : list ascii) (offsets : list nat) (query_length : nat) : Z * Z :=
  count_first NO_LINE_START_EXACT_TAG_COLON_MARKER_MATCH_OFFSET
    (List.filter (fun o => is_line_start_exact_tag_colon_marker_match text o query_length) offsets).
Definition count_line_start_square_bracket_exact_tag_hits (text : list ascii) (offsets : list nat) (query_length : nat) : Z * Z :=
  count_first NO_LINE_START_SQUARE_BRACKET_EXACT_TAG_MATCH_OFFSET
    (List.filter (fun o => is_line_start_square_bracket_exact_tag_match text o query_length) offsets).
Definition count_line_start_square_bracket_plain_exact_tag_hits (text : list ascii) (offsets : list nat) (query_length : nat) : Z * Z :=
  count_first NO_LINE_START_SQUARE_BRACKET_PLAIN_EXACT_TAG_MATCH_OFFSET
    (List.filter (fun o => is_line_start_square_bracket_plain_exact_tag_match text o query_length) offsets).
Definition count_line_start_angle_wrapper_plain_exact_tag_hits (text : list ascii) (offsets : list nat) (query_length : nat) : Z * Z :=
  count_first NO_LINE_START_ANGLE_WRAPPER_PLAIN_EXACT_TAG_MATCH_OFFSET
    (List.filter (fun o => is_line_start_angle_wrapper_plain_exact_tag_match text o query_length) offsets).
Definition count_line_start_plain_exact_tag_single_space_separator_hits (text : list ascii) (offsets : list nat) (query_length : nat) : Z * Z :=
  count_first NO_LINE_START_PLAIN_EXACT_TAG_SINGLE_SPACE_SEPARATOR_MATCH_OFFSET
    (List.filter (fun o => is_line_start_plain_exact_tag_single_space_separator_match text o query_length) offsets).
Definition count_line_start_plain_exact_tag_payloadless_separator_hits (text : list ascii) (offsets : list nat) (query_length : nat) : Z :=
  Z.of_nat (List.length (List.filter (fun o => is_line_start_plain_exact_tag_payloadless_separator_match text o query_length) offsets)).
Definition first_line_start_non_single_space_plain_exact_tag_separator_offset (text : list ascii) (offsets : list nat) (query_length : nat) : Z :=
  match find_first (fun o => is_line_start_non_single_space_plain_exact_tag_separator_match text o query_length) offsets with
  | Some o => Z.of_nat o
  | None => NO_LINE_START_NON_SINGLE_SPACE_PLAIN_EXACT_TAG_SEPARATOR_MATCH_OFFSET
  end.
Definition first_line_start_plain_exact_tag_payloadless_separator_offset (text : list ascii) (offsets : list nat) (query_length : nat) : Z :=
  match find_first (fun o => is_line_start_plain_exact_tag_payloadless_separator_match text o query_length) offsets with
  | Some o => Z.of_nat o
  | None => NO_LINE_START_PLAIN_EXACT_TAG_PAYLOADLESS_SEPARATOR_MATCH_OFFSET
  end.
Definition count_line_start_plain_exact_tag_tab_prefixed_payload_hits (text : list ascii) (offsets : list nat) (query_length : nat) : Z :=
  Z.of_nat (List.length (List.filter (fun o => is_line_start_plain_exact_tag_tab_prefixed_payload_match text o query_length) offsets)).
Definition first_line_start_plain_exact_tag_tab_prefixed_payload_offset (text : list ascii) (offsets : list nat) (query_length : nat) : Z :=
  match find_first (fun o => is_line_start_plain_exact_tag_tab_prefixed_payload_match text o query_length) offsets with
  | Some o => Z.of_nat o
  | None => NO_LINE_START_PLAIN_EXACT_TAG_TAB_PREFIXED_PAYLOAD_MATCH_OFFSET
  end.
Definition count_line_start_plain_exact_tag_multi_space_payload_hits (text : list ascii) (offsets : list nat) (query_length : nat) : Z :=
  Z.of_nat (List.length (List.filter (fun o => is_line_start_plain_exact_tag_multi_space_payload_match text o query_length) offsets)).
Definition first_line_start_plain_exact_tag_multi_space_payload_offset (text : list ascii) (offsets : list nat) (query_length : nat) : Z :=
  match find_first (fun o => is_line_start_plain_exact_tag_multi_space_payload_match text o query_length) offsets with
  | Some o => Z.of_nat o
  | None => NO_LINE_START_PLAIN_EXACT_TAG_MULTI_SPACE_PAYLOAD_MATCH_OFFSET
  end.
Definition count_line_start_plain_exact_tag_space_prefixed_mixed_whitespace_payload_hits (text : list ascii) (offsets : list nat) (query_length : nat) : Z :=
  Z.of_nat (List.length (List.filter (fun o => is_line_start_plain_exact_tag_space_prefixed_mixed_whitespace_payload_match text o query_length) offsets)).
Definition first_line_start_plain_exact_tag_space_prefixed_mixed_whitespace_payload_offset (text : list ascii) (offsets : list nat) (query_length : nat) : Z :=
  match find_first (fun o => is_line_start_plain_exact_tag_space_prefixed_mixed_whitespace_payload_match text o query_length) offsets with
  | Some o => Z.of_nat o
  | None => NO_LINE_START_PLAIN_EXACT_TAG_SPACE_PREFIXED_MIXED_WHITESPACE_PAYLOAD_MATCH_OFFSET
  end.
Definition first_line_start_plain_exact_tag_other_leading_whitespace_payload_offset (text : list ascii) (offsets : list nat) (query_length : nat) : Z :=
  match find_first (fun o => is_line_start_plain_exact_tag_other_leading_whitespace_payload_match text o query_length) offsets with
  | Some o => Z.of_nat o
  | None => NO_LINE_START_PLAIN_EXACT_TAG_OTHER_LEADING_WHITESPACE_PAYLOAD_MATCH_OFFSET
  end.
Definition count_line_start_plain_exact_tag_other_leading_mixed_whitespace_payload_hits (text : list ascii) (offsets : list nat) (query_length : nat) : Z :=
  Z.of_nat (List.length (List.filter (fun o => is_line_start_plain_exact_tag_other_leading_mixed_whitespace_payload_match text o query_length) offsets)).
Definition first_line_start_plain_exact_tag_other_leading_mixed_whitespace_payload_offset (text : list ascii) (offsets : list nat) (query_length : nat) : Z :=
  match find_first (fun o => is_line_start_plain_exact_tag_other_leading_mixed_whitespace_payload_match text o query_length) offsets with
  | Some o => Z.of_nat o
  | None => NO_LINE_START_PLAIN_EXACT_TAG_OTHER_LEADING_MIXED_WHITESPACE_PAYLOAD_MATCH_OFFSET
  end.
Definition count_line_start_paren_wrapper_plain_exact_tag_hits (text : list ascii) (offsets : list nat) (query_length : nat) : Z * Z :=
  count_first NO_LINE_START_PAREN_WRAPPER_PLAIN_EXACT_TAG_MATCH_OFFSET
    (List.filter (fun o => is_line_start_paren_wrapper_plain_exact_tag_match text o query_length) offsets).
Definition count_line_start_brace_wrapper_plain_exact_tag_hits (text : list ascii) (offsets : list nat) (query_length : nat) : Z * Z :=
  count_first NO_LINE_START_BRACE_WRAPPER_PLAIN_EXACT_TAG_MATCH_OFFSET
    (List.filter (fun o => is_line_start_brace_wrapper_plain_exact_tag_match text o query_length) offsets).
Definition count_line_start_square_bracket_exact_tag_dash_marker_hits (text : list ascii) (offsets : list nat) (query_length : nat) : Z * Z :=
  count_first NO_LINE_START_SQUARE_BRACKET_EXACT_TAG_DASH_MARKER_MATCH_OFFSET
    (List.filter (fun o => is_line_start_square_bracket_exact_tag_dash_marker_match text o query_length) offsets).
Definition count_line_start_paren_wrapper_marker_hits (text : list ascii) (offsets : list nat) (query_length : nat) : Z * Z :=
  count_first NO_LINE_START_PAREN_WRAPPER_MARKER_MATCH_OFFSET
    (List.filter (fun o => is_line_start_paren_wrapper_marker_match text o query_length) offsets).
Definition count_line_start_brace_wrapper_marker_hits (text : list ascii) (offsets : list nat) (query_length : nat) : Z * Z :=
  count_first NO_LINE_START_BRACE_WRAPPER_MARKER_MATCH_OFFSET
    (List.filter (fun o => is_line_start_brace_wrapper_marker_match text o query_length) offsets).
Definition count_line_start_non_square_bracket_exact_tag_colon_marker_hits (text : list ascii) (offsets : list nat) (query_length : nat) : Z * Z :=
  count_first NO_LINE_START_NON_SQUARE_BRACKET_EXACT_TAG_COLON_MARKER_MATCH_OFFSET
    (List.filter (fun o => is_line_start_non_square_bracket_exact_tag_colon_marker_match text o query_length) offsets).
Definition count_line_start_non_square_bracket_exact_tag_dash_marker_hits (text : list ascii) (offsets : list nat) (query_length : nat) : Z * Z :=
  count_first NO_LINE_START_NON_SQUARE_BRACKET_EXACT_TAG_DASH_MARKER_MATCH_OFFSET
    (List.filter (fun o => is_line_start_non_square_bracket_exact_tag_dash_marker_match text o query_length) offsets).
Definition count_line_start_exact_tag_marker_hits (text : list ascii) (offsets : list nat) (query_length : nat) : Z * Z :=
  count_first NO_LINE_START_EXACT_TAG_MARKER_MATCH_OFFSET
    (List.filter (fun o => is_line_start_exact_tag_marker_match text o query_length) offsets).

(** ** The candidate of a snapshot *)

Record TerminalSessionHistorySearchCandidate := mkCandidate {
  cand_match : TerminalSessionHistorySearchMatch;
  line_start_log_marker_match_count : Z;
  first_line_start_log_marker_offset : Z;
  line_start_delimited_log_marker_match_count : Z;
  first_line_start_delimited_log_marker_offset : Z;
  line_start_exact_tag_marker_match_count : Z;
  first_line_start_exact_tag_marker_offset : Z;
  line_start_exact_tag_colon_marker_match_count : Z;
  first_line_start_exact_tag_colon_marker_offset : Z;
  line_start_square_bracket_exact_tag_dash_marker_match_count : Z;
  first_line_start_square_bracket_exact_tag_dash_marker_offset : Z;
  line_start_paren_wrapper_marker_match_count : Z;
  first_line_start_paren_wrapper_marker_offset : Z;
  line_start_brace_wrapper_marker_match_count : Z;
  first_line_start_brace_wrapper_marker_offset : Z;
  line_start_non_square_bracket_exact_tag_colon_marker_match_count : Z;
  first_line_start_non_square_bracket_exact_tag_colon_marker_offset : Z;
  line_start_non_square_bracket_exact_tag_dash_marker_match_count : Z;
  first_line_start_non_square_bracket_exact_tag_dash_marker_offset : Z;
  line_start_exact_tag_match_count : Z;
  first_line_start_exact_tag_offset : Z;
  line_start_square_bracket_exact_tag_match_count : Z;
  first_line_start_square_bracket_exact_tag_offset : Z;
  first_line_start_square_bracket_plain_exact_tag_offset : Z;
  line_start_paren_wrapper_plain_exact_tag_match_count : Z;
  first_line_start_paren_wrapper_plain_exact_tag_offset : Z;
  line_start_brace_wrapper_plain_exact_tag_match_count : Z;
  first_line_start_brace_wrapper_plain_exact_tag_offset : Z;
  line_start_angle_wrapper_plain_exact_tag_match_count : Z;
  first_line_start_angle_wrapper_plain_exact_tag_offset : Z;
  line_start_plain_exact_tag_single_space_separator_match_count : Z;
  first_line_start_plain_exact_tag_single_space_separator_offset : Z;
  conditional_first_line_start_non_single_space_plain_exact_tag_separator_offset : Z;
  conditional_line_start_plain_exact_tag_payloadless_separator_match_count : Z;
  conditional_first_line_start_plain_exact_tag_payloadless_separator_offset : Z;
  conditional_line_start_plain_exact_tag_tab_prefixed_payload_match_count : Z;
  conditional_first_line_start_plain_exact_tag_tab_prefixed_payload_offset : Z;
  conditional_line_start_plain_exact_tag_multi_space_payload_match_count : Z;
  conditional_first_line_start_plain_exact_tag_multi_space_payload_offset : Z;
  conditional_line_start_plain_exact_tag_space_prefixed_mixed_whitespace_payload_match_count : Z;
  conditional_first_line_start_plain_exact_tag_space_prefixed_mixed_whitespace_payload_offset : Z;
  conditional_line_start_plain_exact_tag_other_leading_mixed_whitespace_payload_match_count : Z;
  conditional_first_line_start_plain_exact_tag_other_leading_mixed_whitespace_payload_offset : Z;
  conditional_first_line_start_plain_exact_tag_other_leading_whitespace_payload_offset : Z;
  conditional_non_exact_tag_punctuation_wrap_match_count : Z;
  line_start_punctuation_wrap_match_count : Z;
  first_line_start_punctuation_wrap_offset : Z;
  whole_word_match_count : Z;
  line_start_whole_word_match_count : Z;
  conditional_non_line_start_whole_word_match_count : Z;
  first_line_start_whole_word_offset : Z;
  first_whole_word_offset : Z;
  cluster_span : Z;
  first_match_offset : Z;
  match_density : Q
}.

(** [_build_search_candidate]. Python divides two ints to a float; the density
    is the exact quotient, which orders candidates in the same way while the
    outputs are shorter than 2^26 characters. The offsets are never empty. *)
Definition build_search_candidate (m : TerminalSessionHistorySearchMatch) (text : list ascii)
    (offsets : list nat) (query_length : nat) (output_length : nat) :
    TerminalSessionHistorySearchCandidate :=
  let '(whole_word_match_count, first_whole_word_offset) :=
    count_whole_word_hits text offsets query_length in
  let '(line_start_whole_word_match_count, first_line_start_whole_word_offset) :=
    count_line_start_whole_word_hits text offsets query_length in
  let '(line_start_log_marker_match_count, first_line_start_log_marker_offset) :=
    count_line_start_log_marker_hits text offsets query_length in
  let '(line_start_delimited_log_marker_match_count, first_line_start_delimited_log_marker_offset) :=
    count_line_start_delimited_log_marker_hits text offsets query_length in
  let '(line_start_punctuation_wrap_match_count, first_line_start_punctuation_wrap_offset) :=
    count_line_start_punctuation_wrap_hits text offsets query_length in
  let '(line_start_exact_tag_match_count, first_line_start_exact_tag_offset) :=
    count_line_start_exact_tag_hits text offsets query_length in
  let '(line_start_exact_tag_colon_marker_match_count, first_line_start_exact_tag_colon_marker_offset) :=
    count_line_start_exact_tag_colon_marker_hits text offsets query_length in
  let '(line_start_square_bracket_exact_tag_dash_marker_match_count, first_line_start_square_bracket_exact_tag_dash_marker_offset) :=
    count_line_start_square_bracket_exact_tag_dash_marker_hits text offsets query_length in
  let '(line_start_paren_wrapper_marker_match_count, first_line_start_paren_wrapper_marker_offset) :=
    count_line_start_paren_wrapper_marker_hits text offsets query_length in
  let '(line_start_brace_wrapper_marker_match_count, first_line_start_brace_wrapper_marker_offset) :=
    count_line_start_brace_wrapper_marker_hits text offsets query_length in
  let '(line_start_non_square_bracket_exact_tag_colon_marker_match_count, first_line_start_non_square_bracket_exact_tag_colon_marker_offset) :=
    count_line_start_non_square_bracket_exact_tag_colon_marker_hits text offsets query_length in
  let '(line_start_non_square_bracket_exact_tag_dash_marker_match_count, first_line_start_non_square_bracket_exact_tag_dash_marker_offset) :=
    count_line_start_non_square_bracket_exact_tag_dash_marker_hits text offsets query_length in
  let '(line_start_square_bracket_exact_tag_match_count, first_line_start_square_bracket_exact_tag_offset) :=
    count_line_start_square_bracket_exact_tag_hits text offsets query_length in
  let '(_line_start_square_bracket_plain_exact_tag_match_count, first_line_start_square_bracket_plain_exact_tag_offset) :=
    count_line_start_square_bracket_plain_exact_tag_hits text offsets query_length in
  let '(line_start_paren_wrapper_plain_exact_tag_match_count, first_line_start_paren_wrapper_plain_exact_tag_offset) :=
    count_line_start_paren_wrapper_plain_exact_tag_hits text offsets query_length in
  let '(line_start_brace_wrapper_plain_exact_tag_match_count, first_line_start_brace_wrapper_plain_exact_tag_offset) :=
    count_line_start_brace_wrapper_plain_exact_tag_hits text offsets query_length in
  let '(line_start_angle_wrapper_plain_exact_tag_match_count, first_line_start_angle_wrapper_plain_exact_tag_offset) :=
    count_line_start_angle_wrapper_plain_exact_tag_hits text offsets query_length in
  let '(line_start_plain_exact_tag_single_space_separator_match_count, first_line_start_plain_exact_tag_single_space_separator_offset) :=
    count_line_start_plain_exact_tag_single_space_separator_hits text offsets query_length in
  let line_start_plain_exact_tag_payloadless_separator_match_count :=
    count_line_start_plain_exact_tag_payloadless_separator_hits text offsets query_length in
  let first_line_start_plain_exact_tag_payloadless_separator_offset :=
    first_line_start_plain_exact_tag_payloadless_separator_offset text offsets query_length in
  let first_line_start_non_single_space_plain_exact_tag_separator_offset :=
    first_line_start_non_single_space_plain_exact_tag_separator_offset text offsets query_length in
  let conditional_first_line_start_non_single_space_plain_exact_tag_separator_offset :=
    if (0 <? line_start_plain_exact_tag_single_space_separator_match_count) then first_line_start_non_single_space_plain_exact_tag_separator_offset else NO_LINE_START_NON_SINGLE_SPACE_PLAIN_EXACT_TAG_SEPARATOR_MATCH_OFFSET in
  let conditional_line_start_plain_exact_tag_payloadless_separator_match_count :=
    if (0 <? line_start_plain_exact_tag_single_space_separator_match_count) then line_start_plain_exact_tag_payloadless_separator_match_count else 0 in
  let conditional_first_line_start_plain_exact_tag_payloadless_separator_offset :=
    if (0 <? line_start_plain_exact_tag_single_space_separator_match_count) then first_line_start_plain_exact_tag_payloadless_separator_offset else NO_LINE_START_PLAIN_EXACT_TAG_PAYLOADLESS_SEPARATOR_MATCH_OFFSET in
  let line_start_plain_exact_tag_tab_prefixed_payload_match_count :=
    count_line_start_plain_exact_tag_tab_prefixed_payload_hits text offsets query_length in
  let conditional_line_start_plain_exact_tag_tab_prefixed_payload_match_count :=
    if (0 <? line_start_plain_exact_tag_single_space_separator_match_count) then line_start_plain_exact_tag_tab_prefixed_payload_match_count else 0 in
  let first_line_start_plain_exact_tag_tab_prefixed_payload_offset :=
    first_line_start_plain_exact_tag_tab_prefixed_payload_offset text offsets query_length in
  let conditional_first_line_start_plain_exact_tag_tab_prefixed_payload_offset :=
    if (0 <? line_start_plain_exact_tag_single_space_separator_match_count) then first_line_start_plain_exact_tag_tab_prefixed_payload_offset else NO_LINE_START_PLAIN_EXACT_TAG_TAB_PREFIXED_PAYLOAD_MATCH_OFFSET in
  let line_start_plain_exact_tag_multi_space_payload_match_count :=
    count_line_start_plain_exact_tag_multi_space_payload_hits text offsets query_length in
  let conditional_line_start_plain_exact_tag_multi_space_payload_match_count :=
    if (0 <? line_start_plain_exact_tag_single_space_separator_match_count) then line_start_plain_exact_tag_multi_space_payload_match_count else 0 in
  let first_line_start_plain_exact_tag_multi_space_payload_offset :=
    first_line_start_plain_exact_tag_multi_space_payload_offset text offsets query_length in
  let conditional_first_line_start_plain_exact_tag_multi_space_payload_offset :=
    if (0 <? line_start_plain_exact_tag_single_space_separator_match_count) then first_line_start_plain_exact_tag_multi_space_payload_offset else NO_LINE_START_PLAIN_EXACT_TAG_MULTI_SPACE_PAYLOAD_MATCH_OFFSET in
  let line_start_plain_exact_tag_space_prefixed_mixed_whitespace_payload_match_count :=
    count_line_start_plain_exact_tag_space_prefixed_mixed_whitespace_payload_hits text offsets query_length in
  let conditional_line_start_plain_exact_tag_space_prefixed_mixed_whitespace_payload_match_count :=
    if (0 <? line_start_plain_exact_tag_single_space_separator_match_count) then line_start_plain_exact_tag_space_prefixed_mixed_whitespace_payload_match_count else 0 in
  let first_line_start_plain_exact_tag_space_prefixed_mixed_whitespace_payload_offset :=
    first_line_start_plain_exact_tag_space_prefixed_mixed_whitespace_payload_offset text offsets query_length in
  let conditional_first_line_start_plain_exact_tag_space_prefixed_mixed_whitespace_payload_offset :=
    if (0 <? line_start_plain_exact_tag_single_space_separator_match_count) then first_line_start_plain_exact_tag_space_prefixed_mixed_whitespace_payload_offset else NO_LINE_START_PLAIN_EXACT_TAG_SPACE_PREFIXED_MIXED_WHITESPACE_PAYLOAD_MATCH_OFFSET in
  let line_start_plain_exact_tag_other_leading_mixed_whitespace_payload_match_count :=
    count_line_start_plain_exact_tag_other_leading_mixed_whitespace_payload_hits text offsets query_length in
  let conditional_line_start_plain_exact_tag_other_leading_mixed_whitespace_payload_match_count :=
    if (0 <? line_start_plain_exact_tag_single_space_separator_match_count) then line_start_plain_exact_tag_other_leading_mixed_whitespace_payload_match_count else 0 in
  let first_line_start_plain_exact_tag_other_leading_mixed_whitespace_payload_offset :=
    first_line_start_plain_exact_tag_other_leading_mixed_whitespace_payload_offset text offsets query_length in
  let conditional_first_line_start_plain_exact_tag_other_leading_mixed_whitespace_payload_offset :=
    if (0 <? line_start_plain_exact_tag_single_space_separator_match_count) then first_line_start_plain_exact_tag_other_leading_mixed_whitespace_payload_offset else NO_LINE_START_PLAIN_EXACT_TAG_OTHER_LEADING_MIXED_WHITESPACE_PAYLOAD_MATCH_OFFSET in
  let first_line_start_plain_exact_tag_other_leading_whitespace_payload_offset :=
    first_line_start_plain_exact_tag_other_leading_whitespace_payload_offset text offsets query_length in
  let conditional_first_line_start_plain_exact_tag_other_leading_whitespace_payload_offset :=
    if (0 <? line_start_plain_exact_tag_single_space_separator_match_count) then first_line_start_plain_exact_tag_other_leading_whitespace_payload_offset else NO_LINE_START_PLAIN_EXACT_TAG_OTHER_LEADING_WHITESPACE_PAYLOAD_MATCH_OFFSET in
  let '(line_start_exact_tag_marker_match_count, first_line_start_exact_tag_marker_offset) :=
    count_line_start_exact_tag_marker_hits text offsets query_length in
  let non_exact_tag_punctuation_wrap_match_count :=
    Z.max 0 (line_start_punctuation_wrap_match_count - line_start_exact_tag_match_count) in
  let conditional_non_exact_tag_punctuation_wrap_match_count :=
    if (0 <? line_start_exact_tag_match_count) then non_exact_tag_punctuation_wrap_match_count else 0 in
  let non_line_start_whole_word_match_count :=
    whole_word_match_count - line_start_whole_word_match_count in
  let conditional_non_line_start_whole_word_match_count :=
    if (0 <? line_start_whole_word_match_count) then non_line_start_whole_word_match_count else 0 in
  let first_match_offset := Z.of_nat (default 0%nat (head offsets)) in
  let cluster_span := Z.of_nat (default 0%nat (last offsets)) - first_match_offset in
  let normalized_output_length := Z.max 1 (Z.of_nat output_length) in
  let match_density := (inject_Z (sm_match_count m) / inject_Z normalized_output_length)%Q in
  mkCandidate m
    line_start_log_marker_match_count
    first_line_start_log_marker_offset
    line_start_delimited_log_marker_match_count
    first_line_start_delimited_log_marker_offset
    line_start_exact_tag_marker_match_count
    first_line_start_exact_tag_marker_offset
    line_start_exact_tag_colon_marker_match_count
    first_line_start_exact_tag_colon_marker_offset
    line_start_square_bracket_exact_tag_dash_marker_match_count
    first_line_start_square_bracket_exact_tag_dash_marker_offset
    line_start_paren_wrapper_marker_match_count
    first_line_start_paren_wrapper_marker_offset
    line_start_brace_wrapper_marker_match_count
    first_line_start_brace_wrapper_marker_offset
    line_start_non_square_bracket_exact_tag_colon_marker_match_count
    first_line_start_non_square_bracket_exact_tag_colon_marker_offset
    line_start_non_square_bracket_exact_tag_dash_marker_match_count
    first_line_start_non_square_bracket_exact_tag_dash_marker_offset
    line_start_exact_tag_match_count
    first_line_start_exact_tag_offset
    line_start_square_bracket_exact_tag_match_count
    first_line_start_square_bracket_exact_tag_offset
    first_line_start_square_bracket_plain_exact_tag_offset
    line_start_paren_wrapper_plain_exact_tag_match_count
    first_line_start_paren_wrapper_plain_exact_tag_offset
    line_start_brace_wrapper_plain_exact_tag_match_count
    first_line_start_brace_wrapper_plain_exact_tag_offset
    line_start_angle_wrapper_plain_exact_tag_match_count
    first_line_start_angle_wrapper_plain_exact_tag_offset
    line_start_plain_exact_tag_single_space_separator_match_count
    first_line_start_plain_exact_tag_single_space_separator_offset
    conditional_first_line_start_non_single_space_plain_exact_tag_separator_offset
    conditional_line_start_plain_exact_tag_payloadless_separator_match_count
    conditional_first_line_start_plain_exact_tag_payloadless_separator_offset
    conditional_line_start_plain_exact_tag_tab_prefixed_payload_match_count
    conditional_first_line_start_plain_exact_tag_tab_prefixed_payload_offset
    conditional_line_start_plain_exact_tag_multi_space_payload_match_count
    conditional_first_line_start_plain_exact_tag_multi_space_payload_offset
    conditional_line_start_plain_exact_tag_space_prefixed_mixed_whitespace_payload_match_count
    conditional_first_line_start_plain_exact_tag_space_prefixed_mixed_whitespace_payload_offset
    conditional_line_start_plain_exact_tag_other_leading_mixed_whitespace_payload_match_count
    conditional_first_line_start_plain_exact_tag_other_leading_mixed_whitespace_payload_offset
    conditional_first_line_start_plain_exact_tag_other_leading_whitespace_payload_offset
    conditional_non_exact_tag_punctuation_wrap_match_count
    line_start_punctuation_wrap_match_count
    first_line_start_punctuation_wrap_offset
    whole_word_match_count
    line_start_whole_word_match_count
    conditional_non_line_start_whole_word_match_count
    first_line_start_whole_word_offset
    first_whole_word_offset
    cluster_span
    first_match_offset
    match_density.

(** ** Ranking *)

(** The sort key of [relevance]: a tuple of integers, then the density, the
    time and the session id. *)
Definition relevance_key (c : TerminalSessionHistorySearchCandidate) :
    list Z * (Q * (Z * string)) :=
  ([
    - sm_match_count (cand_match c);
    - line_start_log_marker_match_count c;
    - line_start_delimited_log_marker_match_count c;
    - line_start_exact_tag_marker_match_count c;
    - line_start_exact_tag_colon_marker_match_count c;
    - line_start_square_bracket_exact_tag_dash_marker_match_count c;
    - line_start_paren_wrapper_marker_match_count c;
    - line_start_brace_wrapper_marker_match_count c;
    - line_start_non_square_bracket_exact_tag_colon_marker_match_count c;
    - line_start_non_square_bracket_exact_tag_dash_marker_match_count c;
    - line_start_exact_tag_match_count c;
    - line_start_square_bracket_exact_tag_match_count c;
    - line_start_paren_wrapper_plain_exact_tag_match_count c;
    - line_start_brace_wrapper_plain_exact_tag_match_count c;
    line_start_angle_wrapper_plain_exact_tag_match_count c;
    - line_start_plain_exact_tag_single_space_separator_match_count c;
    - conditional_first_line_start_non_single_space_plain_exact_tag_separator_offset c;
    conditional_line_start_plain_exact_tag_payloadless_separator_match_count c;
    - conditional_first_line_start_plain_exact_tag_payloadless_separator_offset c;
    conditional_line_start_plain_exact_tag_tab_prefixed_payload_match_count c;
    - conditional_first_line_start_plain_exact_tag_tab_prefixed_payload_offset c;
    conditional_line_start_plain_exact_tag_multi_space_payload_match_count c;
    - conditional_first_line_start_plain_exact_tag_multi_space_payload_offset c;
    conditional_line_start_plain_exact_tag_space_prefixed_mixed_whitespace_payload_match_count c;
    - conditional_first_line_start_plain_exact_tag_space_prefixed_mixed_whitespace_payload_offset c;
    conditional_line_start_plain_exact_tag_other_leading_mixed_whitespace_payload_match_count c;
    - conditional_first_line_start_plain_exact_tag_other_leading_mixed_whitespace_payload_offset c;
    - conditional_first_line_start_plain_exact_tag_other_leading_whitespace_payload_offset c;
    conditional_non_exact_tag_punctuation_wrap_match_count c;
    - line_start_punctuation_wrap_match_count c;
    - line_start_whole_word_match_count c;
    conditional_non_line_start_whole_word_match_count c;
    - whole_word_match_count c;
    first_line_start_log_marker_offset c;
    first_line_start_delimited_log_marker_offset c;
    first_line_start_exact_tag_colon_marker_offset c;
    first_line_start_square_bracket_exact_tag_dash_marker_offset c;
    first_line_start_paren_wrapper_marker_offset c;
    first_line_start_brace_wrapper_marker_offset c;
    first_line_start_non_square_bracket_exact_tag_colon_marker_offset c;
    first_line_start_non_square_bracket_exact_tag_dash_marker_offset c;
    first_line_start_square_bracket_plain_exact_tag_offset c;
    first_line_start_paren_wrapper_plain_exact_tag_offset c;
    first_line_start_brace_wrapper_plain_exact_tag_offset c;
    first_line_start_angle_wrapper_plain_exact_tag_offset c;
    first_line_start_plain_exact_tag_single_space_separator_offset c;
    first_line_start_exact_tag_marker_offset c;
    first_line_start_exact_tag_offset c;
    first_line_start_square_bracket_exact_tag_offset c;
    first_line_start_punctuation_wrap_offset c;
    first_line_start_whole_word_offset c;
    first_whole_word_offset c;
    cluster_span c;
    first_match_offset c],
   ((- match_density c)%Q, (- sm_snapshot_at (cand_match c), sm_session_id (cand_match c)))).

Inductive TerminalHistorySearchSort := Relevance | Newest | Oldest.

(** [_normalize_search_sort]. *)
Definition normalize_search_sort (sort : string) : result terminal_error TerminalHistorySearchSort :=
  if bool_decide (sort = "relevance") then Ok Relevance
  else if bool_decide (sort = "newest") then Ok Newest
  else if bool_decide (sort = "oldest") then Ok Oldest
  else raise (ValueError "sort must be one of: relevance, newest, oldest").

Definition newest_key (c : TerminalSessionHistorySearchCandidate) : Z * (Z * string) :=
  (- sm_snapshot_at (cand_match c), (- sm_match_count (cand_match c), sm_session_id (cand_match c))).
Definition oldest_key (c : TerminalSessionHistorySearchCandidate) : Z * (Z * string) :=
  (sm_snapshot_at (cand_match c), (- sm_match_count (cand_match c), sm_session_id (cand_match c))).

(** [_sort_history_search_matches]. *)
Definition sort_history_search_matches (matches : list TerminalSessionHistorySearchCandidate)
    (sort : TerminalHistorySearchSort) : list TerminalSessionHistorySearchMatch :=
  cand_match <$>
    match sort with
    | Relevance => py_sorted relevance_key matches
    | Newest => py_sorted newest_key matches
    | Oldest => py_sorted oldest_key matches
    end.

(** ** Snippets *)

(** The body of the loop of [_build_search_snippets]. *)
Definition build_snippet (text : list ascii) (query_length : nat) (snippet_context_chars : Z)
    (match_index : nat) (offset : nat) : TerminalSessionHistorySearchSnippet :=
  let start := Z.max 0 (Z.of_nat offset - snippet_context_chars) in
  let end_ := Z.min (Z.of_nat (List.length text))
                (Z.of_nat offset + Z.of_nat query_length + snippet_context_chars) in
  let snippet := of_chars (slice (Z.to_nat start) (Z.to_nat end_) text) in
  let snippet := if 0 <? start then "..." +:+ snippet else snippet in
  let snippet := if end_ <? Z.of_nat (List.length text) then snippet +:+ "..." else snippet in
  mkSnippet snippet (Z.of_nat match_index) (Z.of_nat offset).

Definition build_search_snippets (text : list ascii) (offsets : list nat) (query_length : nat)
    (snippet_limit snippet_context_chars : Z) : list TerminalSessionHistorySearchSnippet :=
  imap (build_snippet text query_length snippet_context_chars) (take (Z.to_nat snippet_limit) offsets).

(** ** The search *)

(** The body of the loop of [_search_history_snapshots]. *)
Definition search_snapshot (query : list ascii) (snippet_limit snippet_context_chars : Z)
    (snapshot : TerminalSessionHistorySnapshot) : option TerminalSessionHistorySearchCandidate :=
  let query_length := List.length query in
  let text := str_chars (hs_output snapshot) in
  let offsets := find_case_insensitive_match_offsets text query in
  match offsets with
  | [] => None
  | _ =>
      let snippet_matches :=
        build_search_snippets text offsets query_length snippet_limit snippet_context_chars in
      let m := mkMatch (hs_record snapshot) (hs_snapshot_at snapshot)
                 (Z.of_nat (List.length offsets)) (snip_text <$> snippet_matches) snippet_matches in
      Some (build_search_candidate m text offsets query_length (List.length text))
  end.

Definition search_history_snapshots (snapshots : list TerminalSessionHistorySnapshot)
    (query : string) (sort : TerminalHistorySearchSort) (snippet_limit snippet_context_chars : Z) :
    list TerminalSessionHistorySearchMatch :=
  let query := str_chars query in
  match query with
  | [] => []
  | _ =>
      sort_history_search_matches
        (omap (search_snapshot query snippet_limit snippet_context_chars) snapshots) sort
  end.

(** [search_history_by_group], from the merged snapshots of the workspace. *)
Definition search_history_by_group
    (merged : result terminal_error (list TerminalSessionHistorySnapshot))
    (query : string) (limit offset : Z) (sort : string) (f : history_filter)
    (snippet_limit snippet_context_chars : Z) :
    result terminal_error TerminalSessionHistorySearchPage :=
  let normalized_query := strip query in
  normalized_sort ← normalize_search_sort sort;
  guard! negb (bool_decide (normalized_query = "")) orelse (ValueError "query must not be empty");
  guard! (0 <? limit) orelse (ValueError "limit must be positive");
  guard! (0 <=? offset) orelse (ValueError "offset must be non-negative");
  guard! (0 <? snippet_limit) orelse (ValueError "snippet_limit must be positive");
  guard! (0 <=? snippet_context_chars) orelse
    (ValueError "snippet_context_chars must be non-negative");
  snapshots ← merged;
  filtered ← filtered_or_not_found snapshots f;
  let items := search_history_snapshots filtered normalized_query normalized_sort snippet_limit
                 snippet_context_chars in
  Ok (mkSearchPage normalized_query limit offset (Z.of_nat (List.length items))
        (page_has_more limit offset items) (page_items limit offset items)).

Close Scope Z_scope.
