(* ===== verification/TerminalSearchProps.v ===== *)
(** * Properties of the terminal history search

    The scan finds every occurrence it can without overlap; the predicates form
    the hierarchy and the partition the ranking relies on; the ranking does not
    depend on the order of its input; snippets show their hit. *)

From stdpp Require Import base gmap strings list option sorting.
From Stdlib Require Import ZArith Lia Ascii.
From S2P Require Import Prelude PyStr PySort PyDict TerminalHistory TerminalSearch.

(** ** The scan *)

Definition occurs_at (q t : list ascii) (o : nat) : Prop :=
  chars_prefix q (drop o t) = true.

Lemma occurs_at_bound q t o : q <> [] -> occurs_at q t o -> o + length q <= length t.
Proof.
  unfold occurs_at. intros Hq H. apply chars_prefix_length in H. rewrite length_drop in H.
  destruct q; [done|]. simpl in *. lia.
Qed.

Lemma find_offsets_spec n q t p :
  q <> [] -> length t < n + p ->
  let l := find_offsets n t q p in
  (forall o, o ∈ l -> p <= o /\ occurs_at q t o) /\
  StronglySorted (fun a b => a + length q <= b) l /\
  (forall j, p <= j -> occurs_at q t j -> exists o, o ∈ l /\ o <= j < o + length q).
Proof.
  intros Hq. revert p. induction n as [|n IH]; intros p Hn; simpl.
  - split; [by intros o H%elem_of_nil|]. split; [constructor|].
    intros j Hj H. apply occurs_at_bound in H; [lia|done].
  - destruct (py_find q t p) as [k|] eqn:E.
    + pose proof (py_find_some _ _ _ _ E) as (H1 & H2 & H3).
      assert (1 <= length q) as Hl by (destruct q; [done|simpl; lia]).
      rewrite Nat.max_r by done.
      destruct (IH (k + length q)) as (I1 & I2 & I3); [lia|]. split; [|split].
      * intros o [->|Ho]%elem_of_cons; [done|]. destruct (I1 o Ho). split; [lia|done].
      * constructor; [done|]. apply Forall_forall. intros o Ho. by destruct (I1 o Ho).
      * intros j Hj Ho. destruct (decide (j < k)).
        { unfold occurs_at in Ho. by rewrite H3 in Ho. }
        destruct (decide (j < k + length q)); [exists k; split; [left|lia]|].
        destruct (I3 j) as (o & O1 & O2); [lia|done|]. exists o. split; [by right|done].
    + split; [by intros o H%elem_of_nil|]. split; [constructor|].
      intros j Hj Ho. unfold occurs_at in Ho. rewrite (py_find_none _ _ _ E) in Ho; [done| |done].
      destruct q; [done|simpl; lia].
Qed.

(** The occurrences of [q] in [t] from [p] on, counted the way text is read: from the left,
    each the first that starts where the one before it has ended, until there is none. *)
Inductive hits (q t : list ascii) : nat -> list nat -> Prop :=
| no_hit p : (forall j, p <= j -> ~ occurs_at q t j) -> hits q t p []
| next_hit p o l :
    p <= o -> occurs_at q t o -> (forall j, p <= j < o -> ~ occurs_at q t j) ->
    hits q t (o + length q) l -> hits q t p (o :: l).

(** There is one way to read it. *)
Lemma hits_unique q t p l1 l2 : hits q t p l1 -> hits q t p l2 -> l1 = l2.
Proof.
  intros H1. revert l2. induction H1 as [p N|p o l L O B _ IH]; intros l2 H2; inversion H2 as [p' N'|p' o' l' L' O' B']; subst.
  - done.
  - by destruct (N o').
  - by destruct (N' o).
  - assert (o' = o) as ->.
    { destruct (Nat.lt_total o o') as [Lt|[E|Lt]]; [|done|].
      - by destruct (B' o).
      - by destruct (B o'). }
    f_equal. by apply IH.
Qed.

Lemma find_offsets_hits n q t p : q <> [] -> length t < n + p -> hits q t p (find_offsets n t q p).
Proof.
  intros Hq. revert p. induction n as [|n IH]; intros p Hn; simpl.
  - constructor. intros j Hj H. apply occurs_at_bound in H; [lia|done].
  - assert (1 <= length q) as Hl by (destruct q; [done|simpl; lia]). destruct (py_find q t p) as [k|] eqn:E.
    + pose proof (py_find_some _ _ _ _ E) as (H1 & H2 & H3). rewrite Nat.max_r by done. constructor; [done..| |].
      * intros j Hj O. unfold occurs_at in O. by rewrite H3 in O.
      * apply IH. lia.
    + constructor. intros j Hj O. unfold occurs_at in O. by rewrite (py_find_none _ _ _ E) in O.
Qed.

Lemma lower_nil l : l <> [] -> lower_char <$> l <> [].
Proof. by destruct l. Qed.

Lemma find_case_insensitive_unfold t q :
  t <> [] -> q <> [] ->
  find_case_insensitive_match_offsets t q =
    find_offsets (S (length t)) (lower_char <$> t) (lower_char <$> q) 0.
Proof.
  intros Ht Hq. unfold find_case_insensitive_match_offsets. by rewrite !bool_decide_eq_false_2.
Qed.

(** The scan is sound, non-overlapping and complete. The offsets
    [_find_case_insensitive_match_offsets] returns are positions at which the
    text, case folded, contains the query; they are increasing and at least the
    length of the query apart; and every occurrence overlaps a returned one. *)
Theorem find_offsets_complete text query :
  query <> [] ->
  let l := find_case_insensitive_match_offsets text query in
  let occurs := occurs_at (lower_char <$> query) (lower_char <$> text) in
  (forall o, o ∈ l -> occurs o /\ o + length query <= length text) /\
  StronglySorted (fun a b => a + length query <= b) l /\
  (forall j, occurs j -> exists o, o ∈ l /\ o <= j < o + length query).
Proof.
  intros Hq l occurs. assert (Hq' := lower_nil _ Hq).
  assert (B : forall o, occurs o -> o + length query <= length text).
  { intros o H%occurs_at_bound; [|done]. by rewrite !length_fmap in H. }
  destruct (decide (text = [])) as [->|Ht].
  - unfold l, find_case_insensitive_match_offsets. simpl.
    split; [by intros o H%elem_of_nil|]. split; [constructor|]. intros j Hj. exfalso.
    apply B in Hj. destruct query; simpl in *; [done|lia].
  - unfold l. rewrite find_case_insensitive_unfold by done.
    destruct (find_offsets_spec (S (length text)) (lower_char <$> query) (lower_char <$> text) 0 Hq')
      as (H1 & H2 & H3); [rewrite length_fmap; lia|].
    rewrite !length_fmap in *. split; [|split; [done|]].
    + intros o Ho. destruct (H1 o Ho) as [_ Hc]. split; [done|by apply B].
    + intros j Hj. apply H3; [lia|done].
Qed.

(** ** The kinds of a hit *)

Lemma if_negb_false (b c : bool) : (if negb b then false else c) = b && c.
Proof. by destruct b. Qed.

Lemma if_negb_true (b c : bool) : (if negb b then false else c) = true -> b = true.
Proof. by destruct b. Qed.

Lemma if_false (b c : bool) : (if b then false else c) = negb b && c.
Proof. by destruct b. Qed.

Lemma at_is_one text i c : at_is text i (i + 1) [c] = bool_decide (text !! i = Some c).
Proof.
  unfold at_is. rewrite slice_one. apply bool_decide_ext.
  destruct (text !! i); simpl; split; congruence.
Qed.

Lemma slice_next text i : slice (i + 1) (i + 2) text = option_list (text !! (i + 1)).
Proof. replace (i + 2) with (i + 1 + 1) by lia. apply slice_one. Qed.

Lemma at_is_next text i c : at_is text (i + 1) (i + 2) [c] = bool_decide (text !! (i + 1) = Some c).
Proof. replace (i + 2) with (i + 1 + 1) by lia. apply at_is_one. Qed.

Lemma line_payload_blank rest : line_payload rest = negb (blank_line rest).
Proof.
  induction rest as [|c rest IH]; [done|]. simpl. case_bool_decide; [done|].
  by destruct (isspace_char c).
Qed.

Lemma isspace_one c : isspace [c] = isspace_char c.
Proof. simpl. apply andb_true_r. Qed.

Lemma space_isspace : isspace_char space = true.
Proof. reflexivity. Qed.
Lemma tab_isspace : isspace_char tab = true.
Proof. reflexivity. Qed.
Lemma newline_isspace : isspace_char newline = true.
Proof. reflexivity. Qed.

Lemma wrap_not_line_start text o n :
  is_line_start_punctuation_wrap_match text o n = true ->
  is_whole_word_match text o n = true /\ is_line_start_whole_word_match text o n = false.
Proof.
  intros H. split; [by apply if_negb_true in H|].
  unfold is_line_start_punctuation_wrap_match in H. rewrite if_negb_false in H.
  apply andb_true_iff in H as [_ H]. unfold is_line_start_whole_word_match.
  destruct o as [|p]; [done|]. destruct (text !! p) as [c|] eqn:E; simpl in H; [|done].
  rewrite if_negb_false, bool_decide_eq_false_2; [by rewrite andb_false_r|].
  intros [= ->]. done.
Qed.

(** The kinds of a hit are nested. A delimited log marker is a log marker, a
    log marker is a whole word at the start of a line; a tag marker is an exact
    tag, an exact tag is wrapped in a pair of brackets at the start of a line,
    and that is a whole word, but never one at the start of a line itself. *)
Theorem hit_kinds_nested text o n :
  (is_line_start_delimited_log_marker_match text o n = true ->
   is_line_start_log_marker_match text o n = true) /\
  (is_line_start_log_marker_match text o n = true ->
   is_line_start_whole_word_match text o n = true) /\
  (is_line_start_whole_word_match text o n = true -> is_whole_word_match text o n = true) /\
  (is_line_start_exact_tag_marker_match text o n = true ->
   is_line_start_exact_tag_match text o n = true) /\
  (is_line_start_exact_tag_match text o n = true ->
   is_line_start_punctuation_wrap_match text o n = true) /\
  (is_line_start_punctuation_wrap_match text o n = true ->
   is_whole_word_match text o n = true /\ is_line_start_whole_word_match text o n = false).
Proof.
  split; [apply if_negb_true|]. split; [apply if_negb_true|]. split; [apply if_negb_true|].
  split; [apply if_negb_true|]. split; [apply if_negb_true|].
  apply wrap_not_line_start.
Qed.

(** A tag that is not a marker is followed by white space or the end. *)
Lemma plain_tag_trailing text o n :
  is_line_start_exact_tag_match text o n = true ->
  is_line_start_exact_tag_marker_match text o n = false ->
  end_or_space text (o + n + 1) = true.
Proof.
  unfold is_line_start_exact_tag_marker_match, end_or_space. intros H1. rewrite H1. simpl.
  unfold is_line_start_exact_tag_match in H1. rewrite if_negb_false, andb_true_iff in H1.
  destruct H1 as [_ H1]. rewrite at_is_one.
  destruct (text !! (o + n + 1)) as [c|]; [|done].
  destruct (isspace_char c); [done|]. case_bool_decide as Hc.
  - subst. rewrite bool_decide_eq_true_2 by done. by rewrite H1.
  - rewrite bool_decide_eq_false_2 by congruence. by destruct (at_is _ _ _ _); [rewrite H1|].
Qed.

Definition count_true (l : list bool) : nat := length (List.filter (fun b : bool => b) l).

(** The separators of a plain exact tag form a partition. A tag that is not a
    marker belongs to exactly one of the six classes the ranking weighs: no
    payload on its line, a payload after one space, after a tab, after several
    spaces, after a space and other white space, and after other white space;
    any other hit belongs to none. *)
Theorem plain_tag_partition text o n :
  count_true
    [is_line_start_plain_exact_tag_payloadless_separator_match text o n;
     is_line_start_plain_exact_tag_single_space_separator_match text o n;
     is_line_start_plain_exact_tag_tab_prefixed_payload_match text o n;
     is_line_start_plain_exact_tag_multi_space_payload_match text o n;
     is_line_start_plain_exact_tag_space_prefixed_mixed_whitespace_payload_match text o n;
     is_line_start_plain_exact_tag_other_leading_whitespace_payload_match text o n] =
  if is_line_start_exact_tag_match text o n && negb (is_line_start_exact_tag_marker_match text o n)
  then 1 else 0.
Proof.
  pose proof (plain_tag_trailing text o n) as T.
  unfold is_line_start_plain_exact_tag_other_leading_whitespace_payload_match,
    is_line_start_plain_exact_tag_space_prefixed_mixed_whitespace_payload_match,
    is_line_start_plain_exact_tag_multi_space_payload_match,
    is_line_start_plain_exact_tag_tab_prefixed_payload_match,
    is_line_start_plain_exact_tag_single_space_separator_match,
    is_line_start_plain_exact_tag_payloadless_separator_match.
  destruct (is_line_start_exact_tag_match text o n); [|done].
  destruct (is_line_start_exact_tag_marker_match text o n); [done|].
  specialize (T eq_refl eq_refl). simpl negb. cbv iota. simpl andb.
  set (s := o + n + 1) in *. rewrite !at_is_one, !at_is_next, !slice_one, !slice_next.
  rewrite !line_payload_blank. unfold end_or_space in T.
  destruct (text !! s) as [c|] eqn:Es; simpl option_list.
  2: { rewrite bool_decide_eq_true_2 by (by apply lookup_ge_None). done. }
  rewrite (bool_decide_eq_false_2 (length text <= s))
    by (apply lookup_lt_Some in Es; lia).
  rewrite (drop_S text c s Es), !isspace_one, T. rewrite <- Nat.add_1_r. simpl blank_line. rewrite T.
  destruct (decide (c = newline)) as [->|Hnl]; [reflexivity|].
  rewrite (bool_decide_eq_false_2 (c = newline)) by done. simpl negb. cbv iota.
  destruct (decide (c = tab)) as [->|Htab]; [by destruct (blank_line _)|].
  destruct (text !! (s + 1)) as [d|] eqn:Ed; simpl option_list.
  - rewrite (drop_S text d (s + 1) Ed), !isspace_one. simpl blank_line.
    destruct (decide (c = space)) as [->|Hsp].
    + destruct (decide (d = newline)) as [->|Hdn]; [reflexivity|].
      rewrite (bool_decide_eq_false_2 (d = newline)) by done.
      destruct (decide (d = space)) as [->|Hds]; [by destruct (blank_line _)|].
      rewrite (bool_decide_eq_false_2 (Some d = Some space)) by congruence.
      rewrite (bool_decide_eq_false_2 ([d] = [space])) by congruence.
      destruct (isspace_char d); [by destruct (blank_line _)|]. reflexivity.
    + rewrite (bool_decide_eq_false_2 (Some c = Some space)), (bool_decide_eq_false_2 (Some c = Some tab)),
        (bool_decide_eq_false_2 ([c] = [space])), (bool_decide_eq_false_2 ([c] = [tab])) by congruence.
      simpl negb. cbv iota. by destruct (if bool_decide _ then _ else _).
  - rewrite drop_ge by (by apply lookup_ge_None).
    by destruct (bool_decide (Some c = Some space)).
Qed.

(** ** What a search returns *)

(** The query occurs in the output, case folded. *)
Definition found_in (query : string) (s : TerminalSessionHistorySnapshot) : Prop :=
  exists o, occurs_at (lower_char <$> str_chars query) (lower_char <$> str_chars (hs_output s)) o.

#[global] Instance found_in_dec query s : Decision (found_in query s).
Proof.
  unfold found_in. set (q := lower_char <$> _). set (t := lower_char <$> _).
  destruct (py_find q t 0) as [o|] eqn:E.
  - left. exists o. by apply py_find_some in E as (_ & H & _).
  - destruct q as [|a q].
    + left. by exists 0.
    + right. intros [o O]. unfold occurs_at in O. rewrite (py_find_none _ _ _ E) in O; [done|simpl; lia|lia].
Defined.

(** The hits of a query in an output, case folded. *)
Definition hits_in (query output : list ascii) (offsets : list nat) : Prop :=
  hits (lower_char <$> query) (lower_char <$> output) 0 offsets.

(** What a search says of a snapshot: how often the query is in its output, and the
    snippets around its first hits. *)
Definition match_of (query : string) (limit context : Z) (m : TerminalSessionHistorySearchMatch)
    (s : TerminalSessionHistorySnapshot) : Prop :=
  sm_record m = hs_record s /\ sm_snapshot_at m = hs_snapshot_at s /\
  exists offsets, hits_in (str_chars query) (str_chars (hs_output s)) offsets /\
    sm_match_count m = Z.of_nat (length offsets) /\ (1 <= sm_match_count m)%Z /\
    sm_snippet_matches m =
      build_search_snippets (str_chars (hs_output s)) offsets (length (str_chars query)) limit context /\
    sm_snippets m = snip_text <$> sm_snippet_matches m.

Lemma find_case_insensitive_hits text query :
  query <> [] -> hits_in query text (find_case_insensitive_match_offsets text query).
Proof.
  intros Hq. assert (Hq' := lower_nil _ Hq). destruct (decide (text = [])) as [->|Ht].
  - unfold find_case_insensitive_match_offsets. cbn. constructor. intros j _ O. apply occurs_at_bound in O; [|done].
    destruct (lower_char <$> query); [done|]. simpl in O. lia.
  - rewrite find_case_insensitive_unfold by done. apply find_offsets_hits; [done|]. rewrite length_fmap. lia.
Qed.

Lemma build_candidate_match m text offsets n len :
  cand_match (build_search_candidate m text offsets n len) = m.
Proof.
  unfold build_search_candidate, count_whole_word_hits, count_line_start_whole_word_hits.
  repeat match goal with |- context [let '(_, _) := ?p in _] => destruct p as [? ?] end.
  reflexivity.
Qed.

Lemma search_snapshot_some q k c s cand :
  search_snapshot q k c s = Some cand ->
  sm_record (cand_match cand) = hs_record s /\ sm_snapshot_at (cand_match cand) = hs_snapshot_at s.
Proof.
  unfold search_snapshot. destruct (find_case_insensitive_match_offsets _ _) as [|o l]; [done|].
  intros [= <-]. by rewrite build_candidate_match.
Qed.

Lemma search_snapshot_match query k c s cand :
  query <> "" -> search_snapshot (str_chars query) k c s = Some cand -> match_of query k c (cand_match cand) s.
Proof.
  intros Hq. assert (str_chars query <> []) as Hc by (by destruct query).
  pose proof (find_case_insensitive_hits (str_chars (hs_output s)) _ Hc) as F.
  unfold search_snapshot. destruct (find_case_insensitive_match_offsets _ _) as [|o l]; [done|].
  intros [= <-]. rewrite build_candidate_match. split; [done|]. split; [done|]. exists (o :: l).
  split; [done|]. split; [done|]. split; [cbn; lia|done].
Qed.

Lemma search_snapshot_none q k c s :
  q <> [] -> search_snapshot q k c s = None <->
    forall o, ~ occurs_at (lower_char <$> q) (lower_char <$> str_chars (hs_output s)) o.
Proof.
  intros Hq. pose proof (find_offsets_spec (S (length (str_chars (hs_output s)))) (lower_char <$> q)
    (lower_char <$> str_chars (hs_output s)) 0 (lower_nil _ Hq)) as F.
  rewrite !length_fmap in F. destruct F as (F1 & _ & F3); [lia|].
  unfold search_snapshot, find_case_insensitive_match_offsets.
  rewrite (bool_decide_eq_false_2 (q = [])) by done. rewrite orb_false_r. case_bool_decide as Ht.
  - split; [|done]. intros _ o Ho. apply occurs_at_bound in Ho; [|by apply lower_nil].
    rewrite Ht in Ho. simpl in Ho. destruct q; [done|simpl in Ho; lia].
  - destruct (find_offsets _ _ _ _) as [|o l] eqn:E; (split; [|intros H]).
    + intros _ j Hj. destruct (F3 j) as (o & Ho & _); [lia|done|]. by apply elem_of_nil in Ho.
    + done.
    + done.
    + exfalso. destruct (F1 o) as [_ Ho]; [left|]. by apply (H o).
Qed.

Lemma sort_matches_elem cands sort m :
  m ∈ sort_history_search_matches cands sort <-> exists c, m = cand_match c /\ c ∈ cands.
Proof.
  unfold sort_history_search_matches. rewrite list_elem_of_fmap.
  destruct sort; setoid_rewrite py_sorted_elem; done.
Qed.

Lemma search_snapshots_matches query k c l :
  query <> "" ->
  Forall2 (match_of query k c) (cand_match <$> omap (search_snapshot (str_chars query) k c) l) (filter (found_in query) l).
Proof.
  intros Hq. assert (str_chars query <> []) as Hc by (by destruct query).
  induction l as [|s l IH]; [constructor|]. rewrite filter_cons. cbn [omap list_omap].
  destruct (search_snapshot (str_chars query) k c s) as [cand|] eqn:E.
  - rewrite decide_True; [constructor; [by apply search_snapshot_match|done]|].
    destruct (decide (found_in query s)) as [|N]; [done|]. exfalso.
    enough (search_snapshot (str_chars query) k c s = None) by congruence.
    apply search_snapshot_none; [done|]. intros o O. apply N. by exists o.
  - rewrite decide_False; [done|]. intros [o O]. by destruct (proj1 (search_snapshot_none _ _ _ _ Hc) E o).
Qed.

(** C29: The search returns exactly the snapshots the query occurs in, case folded, each
    once. In some order, the matches are one by one those of these snapshots: with the
    record and the time of the snapshot, the number of its hits and the snippets around
    the first of them. The hits are the occurrences as text is read: from the left, each
    the first that starts where the one before has ended, until no more follows; no two
    overlap. That holds for every sort order and every limit of the snippets. *)
Theorem search_returns_the_matches snapshots query sort k c :
  query <> "" ->
  exists matches, search_history_snapshots snapshots query sort k c ≡ₚ matches /\
    Forall2 (match_of query k c) matches (filter (found_in query) snapshots).
Proof.
  intros Hq. exists (cand_match <$> omap (search_snapshot (str_chars query) k c) snapshots).
  split; [|by apply search_snapshots_matches]. unfold search_history_snapshots, sort_history_search_matches.
  destruct (str_chars query) as [|a q] eqn:E; [by destruct query|].
  destruct sort; apply fmap_Permutation, py_sorted_perm.
Qed.

(** ** The order of the matches *)

Lemma lex_eq a b : lex a b = Eq -> a = Eq /\ b = Eq.
Proof. by destruct a. Qed.

Lemma key_leb_pair {A K1 K2} `{PyOrd K1, PyOrd K2} (k1 : A -> K1) (k2 : A -> K2) x y :
  key_leb (fun a => (k1 a, k2 a)) x y = true -> key_leb k1 x y = true.
Proof.
  unfold key_leb, pcmp at 1, PyOrd_pair. simpl. by destruct (pcmp (k1 x) (k1 y)).
Qed.

Lemma key_leb_Z {A} (k : A -> Z) x y : key_leb k x y = true -> (k x <= k y)%Z.
Proof.
  unfold key_leb, pcmp, PyOrd_Z. destruct (Z.compare_spec (k x) (k y)); [lia..|done].
Qed.

Lemma key_leb_cons {A} (k : A -> Z) (l : A -> list Z) x y :
  key_leb (fun a => k a :: l a) x y = true -> (k x <= k y)%Z.
Proof.
  unfold key_leb, pcmp, PyOrd_list. simpl. unfold pcmp, PyOrd_Z.
  destruct (Z.compare_spec (k x) (k y)); [lia..|done].
Qed.

Lemma relevance_key_id x y :
  pcmp (relevance_key x) (relevance_key y) = Eq ->
  sm_session_id (cand_match x) = sm_session_id (cand_match y).
Proof.
  unfold relevance_key, pcmp at 1, PyOrd_pair at 1. cbn [fst snd]. intros [_ H]%lex_eq.
  unfold pcmp, PyOrd_pair in H. cbn [fst snd] in H. apply lex_eq in H as [_ H].
  unfold pcmp in H. cbn [fst snd] in H. apply lex_eq in H as [_ H].
  by apply String.compare_eq_iff in H.
Qed.

Lemma time_key_id (k : TerminalSessionHistorySearchCandidate -> Z) x y :
  pcmp (k x, ((- sm_match_count (cand_match x))%Z, sm_session_id (cand_match x)))
       (k y, ((- sm_match_count (cand_match y))%Z, sm_session_id (cand_match y))) = Eq ->
  sm_session_id (cand_match x) = sm_session_id (cand_match y).
Proof.
  unfold pcmp, PyOrd_pair. cbn [fst snd]. intros [_ H]%lex_eq. unfold pcmp in H.
  cbn [fst snd] in H. apply lex_eq in H as [_ H]. by apply String.compare_eq_iff in H.
Qed.

Lemma omap_perm {A B} (f : A -> option B) l1 l2 : l1 ≡ₚ l2 -> omap f l1 ≡ₚ omap f l2.
Proof. intros ->. done. Qed.

Lemma fmap_nodup_inj {A B} (f : A -> B) l x y :
  NoDup (f <$> l) -> x ∈ l -> y ∈ l -> f x = f y -> x = y.
Proof.
  intros N (i & Hi)%list_elem_of_lookup (j & Hj)%list_elem_of_lookup E.
  assert (i = j) as ->; [|congruence].
  eapply NoDup_lookup; [exact N| |]; rewrite list_lookup_fmap; [by rewrite Hi|by rewrite Hj, E].
Qed.

(** The ranking is deterministic. When no two snapshots belong to the same
    session the matches come in the same order however the snapshots are
    ordered, under every sort order. *)
Theorem search_order_determined l1 l2 query sort k c :
  l1 ≡ₚ l2 -> NoDup (hs_session_id <$> l1) ->
  search_history_snapshots l1 query sort k c = search_history_snapshots l2 query sort k c.
Proof.
  intros Hp ND. unfold search_history_snapshots, sort_history_search_matches.
  destruct (str_chars query) as [|a q]; [done|]. f_equal.
  set (f := search_snapshot _ _ _).
  assert (J : forall x y, x ∈ omap f l1 -> y ∈ omap f l1 ->
    sm_session_id (cand_match x) = sm_session_id (cand_match y) -> x = y).
  { intros x y (s & Hs & Hx)%list_elem_of_omap (s' & Hs' & Hy)%list_elem_of_omap E.
    assert (s = s') as ->; [|congruence]. apply (fmap_nodup_inj hs_session_id l1); [done..|].
    apply search_snapshot_some in Hx as [Hx _]. apply search_snapshot_some in Hy as [Hy _].
    unfold sm_session_id in E. by rewrite Hx, Hy in E. }
  apply (omap_perm f) in Hp.
  destruct sort; apply py_sorted_determined; try done; intros x y Hx Hy E; apply J; try done.
  - by apply relevance_key_id.
  - exact (time_key_id (fun c => (- sm_snapshot_at (cand_match c))%Z) _ _ E).
  - exact (time_key_id (fun c => sm_snapshot_at (cand_match c)) _ _ E).
Qed.

Lemma sorted_fmap {A B} (f : A -> B) (R : A -> A -> Prop) (S : B -> B -> Prop) l :
  (forall x y, R x y -> S (f x) (f y)) -> StronglySorted R l -> StronglySorted S (f <$> l).
Proof.
  intros H. induction 1 as [|x l _ IH F]; [constructor|]. rewrite fmap_cons. constructor; [done|].
  apply Forall_fmap. by eapply Forall_impl; [exact F|apply H].
Qed.

(** What comes first. Under [relevance] the numbers of hits never increase
    along the matches; under [newest] the times never increase and under
    [oldest] they never decrease. *)
Theorem search_order snapshots query sort k c :
  StronglySorted (fun a b =>
    match sort with
    | Relevance => (sm_match_count b <= sm_match_count a)%Z
    | Newest => (sm_snapshot_at b <= sm_snapshot_at a)%Z
    | Oldest => (sm_snapshot_at a <= sm_snapshot_at b)%Z
    end) (search_history_snapshots snapshots query sort k c).
Proof.
  unfold search_history_snapshots, sort_history_search_matches.
  destruct (str_chars query) as [|a q]; [constructor|].
  destruct sort; (eapply sorted_fmap; [|apply py_sorted_sorted]); simpl; intros x y H.
  - apply key_leb_pair in H. apply key_leb_cons in H. lia.
  - apply key_leb_pair in H. apply key_leb_Z in H. lia.
  - apply key_leb_pair in H. by apply key_leb_Z in H.
Qed.

(** ** Snippets *)

Lemma slice_split3 (l : list ascii) a b c d :
  a <= b -> b <= c -> c <= d -> slice a d l = slice a b l ++ slice b c l ++ slice c d l.
Proof.
  intros. unfold slice.
  assert (G : forall m n p, m <= n -> n <= p ->
    take (p - m) (drop m l) = take (n - m) (drop m l) ++ take (p - n) (drop n l)).
  { intros m n p Hmn Hnp. replace (drop n l) with (drop (n - m) (drop m l))
      by (rewrite drop_drop; f_equal; lia).
    rewrite take_take_drop. f_equal. lia. }
  rewrite (G a b d), (G b c d) by lia. done.
Qed.

Lemma slice_around (l : list ascii) a d :
  a <= d -> d <= length l -> l = take a l ++ slice a d l ++ drop d l.
Proof.
  intros. unfold slice. rewrite <- (take_drop a l) at 1. f_equal.
  rewrite <- (take_drop (d - a) (drop a l)) at 1. f_equal. rewrite drop_drop. f_equal. lia.
Qed.

Lemma app_empty_r s : s +:+ "" = s.
Proof. induction s as [|c s IH]; [done|]. change (String c (s +:+ "") = String c s). by rewrite IH. Qed.

(** Snippets show their hit in context. The snippet of a hit within the limit
    is the hit with at most the given number of characters of context on either
    side, contiguous in the output, with dots on exactly the sides where output
    is left out. *)
Theorem snippets_show_hits text offsets n limit ctx i o :
  (0 <= ctx)%Z -> offsets !! i = Some o -> (Z.of_nat i < limit)%Z -> o + n <= length text ->
  exists pre before after suf,
    text = pre ++ before ++ slice o (o + n) text ++ after ++ suf /\
    (Z.of_nat (length before) <= ctx)%Z /\ (Z.of_nat (length after) <= ctx)%Z /\
    build_search_snippets text offsets n limit ctx !! i =
      Some (mkSnippet
        ((if bool_decide (pre = []) then "" else "...") +:+
         of_chars (before ++ slice o (o + n) text ++ after) +:+
         (if bool_decide (suf = []) then "" else "..."))
        (Z.of_nat i) (Z.of_nat o)).
Proof.
  intros Hc Hi Hlim Hb.
  set (a := Z.to_nat (Z.max 0 (Z.of_nat o - ctx))).
  set (d := Z.to_nat (Z.min (Z.of_nat (length text)) (Z.of_nat o + Z.of_nat n + ctx))).
  assert (a <= o /\ o + n <= d /\ d <= length text) as (H1 & H2 & H3) by (unfold a, d; lia).
  exists (take a text), (slice a o text), (slice (o + n) d text), (drop d text).
  assert (S : slice a d text = slice a o text ++ slice o (o + n) text ++ slice (o + n) d text)
    by (apply slice_split3; lia).
  split.
  { rewrite (slice_around text a d) at 1 by lia. rewrite S. by rewrite <- !app_assoc. }
  rewrite !length_slice. split; [unfold a; lia|]. split; [unfold d; lia|].
  unfold build_search_snippets. rewrite list_lookup_imap, lookup_take_lt by lia. rewrite Hi. simpl.
  unfold build_snippet. fold a d. rewrite <- S. f_equal. f_equal.
  assert (E1 : (0 <? Z.max 0 (Z.of_nat o - ctx))%Z = negb (bool_decide (take a text = []))).
  { case_bool_decide as E.
    - apply (f_equal length) in E. rewrite length_take in E. simpl in E. simpl. unfold a in *. lia.
    - simpl. apply Z.ltb_lt. destruct (decide (a = 0)) as [->|]; [by rewrite take_0 in E|].
      unfold a in *. lia. }
  assert (E2 : (Z.min (Z.of_nat (length text)) (Z.of_nat o + Z.of_nat n + ctx) <?
                Z.of_nat (length text))%Z = negb (bool_decide (drop d text = []))).
  { destruct (bool_decide_reflect (drop d text = [])) as [E|E].
    - apply (f_equal length) in E. rewrite length_drop in E. simpl in *. unfold d in *. lia.
    - simpl. apply Z.ltb_lt. destruct (decide (d = length text)) as [H|];
        [by rewrite H, drop_all in E|]. unfold d in *. lia. }
  rewrite E1, E2. destruct (bool_decide (take a text = [])), (bool_decide (drop d text = []));
    simpl; rewrite ?app_empty_r; done.
Qed.

(** ** The counts of a candidate *)

Lemma filter_length_le {A} (p q : A -> bool) l :
  (forall x, p x = true -> q x = true) -> length (List.filter p l) <= length (List.filter q l).
Proof.
  intros H. induction l as [|x l IH]; simpl; [lia|].
  destruct (p x) eqn:E; [rewrite (H _ E); simpl; lia|]. destruct (q x); simpl; lia.
Qed.

Lemma filter_length_disjoint {A} (p q r : A -> bool) l :
  (forall x, p x = true -> r x = true) -> (forall x, q x = true -> r x = true /\ p x = false) ->
  length (List.filter p l) + length (List.filter q l) <= length (List.filter r l).
Proof.
  intros H1 H2. induction l as [|x l IH]; simpl; [lia|].
  destruct (q x) eqn:Eq.
  - destruct (H2 _ Eq) as [-> ->]. simpl. lia.
  - destruct (p x) eqn:Ep; [rewrite (H1 _ Ep); simpl; lia|]. destruct (r x); simpl; lia.
Qed.

Lemma filter_true {A} (l : list A) : List.filter (fun _ => true) l = l.
Proof. induction l as [|x l IH]; [done|]. simpl. by rewrite IH. Qed.

Lemma count_first_fst none l : (count_first none l).1 = Z.of_nat (length l).
Proof. by destruct l. Qed.

Ltac candidate_field :=
  unfold build_search_candidate;
  repeat match goal with |- context [let '(_, _) := ?p in _] => destruct p as [? ?] end;
  reflexivity.

Section counts.
Variables (m : TerminalSessionHistorySearchMatch) (text : list ascii) (offsets : list nat)
  (n len : nat).
Let c := build_search_candidate m text offsets n len.

Lemma cand_whole : whole_word_match_count c = (count_whole_word_hits text offsets n).1.
Proof. unfold c. candidate_field. Qed.
Lemma cand_line_start :
  line_start_whole_word_match_count c = (count_line_start_whole_word_hits text offsets n).1.
Proof. unfold c. candidate_field. Qed.
Lemma cand_log : line_start_log_marker_match_count c = (count_line_start_log_marker_hits text offsets n).1.
Proof. unfold c. candidate_field. Qed.
Lemma cand_delimited :
  line_start_delimited_log_marker_match_count c =
  (count_line_start_delimited_log_marker_hits text offsets n).1.
Proof. unfold c. candidate_field. Qed.
Lemma cand_wrap :
  line_start_punctuation_wrap_match_count c =
  (count_line_start_punctuation_wrap_hits text offsets n).1.
Proof. unfold c. candidate_field. Qed.
Lemma cand_tag : line_start_exact_tag_match_count c = (count_line_start_exact_tag_hits text offsets n).1.
Proof. unfold c. candidate_field. Qed.
Lemma cand_marker :
  line_start_exact_tag_marker_match_count c =
  (count_line_start_exact_tag_marker_hits text offsets n).1.
Proof. unfold c. candidate_field. Qed.

(** The counts the ranking compares are consistent: those of nested kinds are
    nested, and the hits that start a line and those wrapped at the start of a
    line are together no more than the whole words, which are no more than the
    hits. *)
Theorem candidate_counts_nested :
  (0 <= line_start_delimited_log_marker_match_count c <= line_start_log_marker_match_count c /\
   line_start_log_marker_match_count c <= line_start_whole_word_match_count c /\
   0 <= line_start_exact_tag_marker_match_count c <= line_start_exact_tag_match_count c /\
   line_start_exact_tag_match_count c <= line_start_punctuation_wrap_match_count c /\
   line_start_whole_word_match_count c + line_start_punctuation_wrap_match_count c
     <= whole_word_match_count c /\
   whole_word_match_count c <= Z.of_nat (length offsets))%Z.
Proof.
  rewrite cand_whole, cand_line_start, cand_log, cand_delimited, cand_wrap, cand_tag, cand_marker.
  unfold count_whole_word_hits, count_line_start_whole_word_hits, count_line_start_log_marker_hits,
    count_line_start_delimited_log_marker_hits, count_line_start_punctuation_wrap_hits,
    count_line_start_exact_tag_hits, count_line_start_exact_tag_marker_hits.
  rewrite !count_first_fst.
  assert (N : forall o, is_line_start_delimited_log_marker_match text o n = true ->
    is_line_start_log_marker_match text o n = true) by (intros o; apply if_negb_true).
  assert (N2 : forall o, is_line_start_log_marker_match text o n = true ->
    is_line_start_whole_word_match text o n = true) by (intros o; apply if_negb_true).
  assert (N3 : forall o, is_line_start_exact_tag_marker_match text o n = true ->
    is_line_start_exact_tag_match text o n = true) by (intros o; apply if_negb_true).
  assert (N4 : forall o, is_line_start_exact_tag_match text o n = true ->
    is_line_start_punctuation_wrap_match text o n = true) by (intros o; apply if_negb_true).
  pose proof (filter_length_le _ _ offsets N). pose proof (filter_length_le _ _ offsets N2).
  pose proof (filter_length_le _ _ offsets N3). pose proof (filter_length_le _ _ offsets N4).
  pose proof (filter_length_disjoint (fun o => is_line_start_whole_word_match text o n)
    (fun o => is_line_start_punctuation_wrap_match text o n)
    (fun o => is_whole_word_match text o n) offsets
    (fun o => if_negb_true _ _) (fun o => wrap_not_line_start text o n)).
  pose proof (filter_length_le (fun o => is_whole_word_match text o n) (fun _ => true) offsets
    (fun _ _ => eq_refl)) as F. rewrite filter_true in F. lia.
Qed.
End counts.

(** ** Witnesses *)

Definition ex_record (id : string) : TerminalSessionRecord :=
  mkSession id "g1" "ws" "u1" "docker_container" None TsExited 0 None None.
Definition ex_snapshot (id output : string) (at_ : Z) : TerminalSessionHistorySnapshot :=
  mkHistory (ex_record id) at_ output (utf8_len output) 100 false.

Lemma find_offsets_complete_witness :
  find_case_insensitive_match_offsets (str_chars "aaAa b") (str_chars "Aa") = [0; 2] /\
  exists o, o ∈ [0; 2] /\ o <= 1 < o + 2.
Proof.
  split; [vm_compute; reflexivity|].
  destruct (find_offsets_complete (str_chars "aaAa b") (str_chars "Aa") ltac:(discriminate))
    as (_ & _ & H). apply (H 1). vm_compute. reflexivity.
Defined.

Lemma hit_kinds_nested_witness :
  is_line_start_delimited_log_marker_match (str_chars "err: x") 0 3 = true /\
  is_line_start_log_marker_match (str_chars "err: x") 0 3 = true.
Proof.
  assert (is_line_start_delimited_log_marker_match (str_chars "err: x") 0 3 = true) as H
    by (vm_compute; reflexivity).
  split; [exact H|]. exact (proj1 (hit_kinds_nested (str_chars "err: x") 0 3) H).
Defined.

(** The hits of "aa" in "aaaAa" are two: the one at 1 overlaps the first. *)
Lemma search_returns_the_matches_witness :
  let snapshots := [ex_snapshot "s1" "boot ok" 1; ex_snapshot "s2" "aaaAa" 2] in
  filter (found_in "AA") snapshots = [ex_snapshot "s2" "aaaAa" 2] /\
  (sm_match_count <$> search_history_snapshots snapshots "AA" Relevance 3 40) = [2%Z] /\
  hits_in (str_chars "AA") (str_chars "aaaAa") [0; 2] /\
  exists matches, search_history_snapshots snapshots "AA" Relevance 3 40 ≡ₚ matches /\
    Forall2 (match_of "AA" 3 40) matches (filter (found_in "AA") snapshots).
Proof.
  split; [vm_compute; reflexivity|]. split; [vm_compute; reflexivity|]. split.
  - apply (find_case_insensitive_hits (str_chars "aaaAa") (str_chars "AA")). discriminate.
  - apply search_returns_the_matches. discriminate.
Defined.

Lemma search_order_determined_witness :
  search_history_snapshots [ex_snapshot "s1" "[err] x" 1; ex_snapshot "s2" "err" 2] "err" Relevance 3 40
  = search_history_snapshots [ex_snapshot "s2" "err" 2; ex_snapshot "s1" "[err] x" 1] "err" Relevance 3 40.
Proof.
  apply search_order_determined; [apply Permutation_swap|].
  apply (bool_decide_unpack _). vm_compute. exact I.
Defined.

Lemma snippets_show_hits_witness :
  build_search_snippets (str_chars "abcdef") [2] 1 3 1 !! 0 = Some (mkSnippet "...bcd..." 0 2).
Proof.
  destruct (snippets_show_hits (str_chars "abcdef") [2] 1 3 1 0 2) as (p & b & a & s & _ & _ & _ & H);
    [lia|reflexivity|lia|vm_compute; lia|]. vm_compute. reflexivity.
Defined.
