(* ===== verification/TerminalSessions.v ===== *)
(** * The terminal session service ([services/terminal_sessions.py])

    [TerminalSessionService] keeps one terminal session per workspace, with an
    owner, a bridge to a shell, a bounded output history and a reconnect window
    after a detach. Every [async with self._lock] block has no [await] inside,
    so it is one atomic function here. What follows an [await] is a continuation
    ([kont]) that [step] resumes with the outcome of what it waited for: the
    [start] or [close] of a bridge, or the thread that writes a snapshot
    ([_persist_history_snapshot_best_effort]). Any other event can come in
    between, and the writes can happen in any order.

    Managed sessions, queues, bridges and reconnect tasks are objects with
    identities, in stores of their own: the two dictionaries of the service
    alias the same managed session. Queues record what is put into them; their
    consumers are outside. Of the bridge ([services/terminal_bridge.py]) the
    model keeps that its reader awaits the callback of one chunk of output
    before it reads the next ([bridge_ready]). *)

From stdpp Require Import base gmap strings list option sorting.
From Stdlib Require Import ZArith Lia Ascii.
From S2P Require Import Prelude PyStr PySort PyDict TerminalHistory.

(** ** Data *)

Record TerminalSessionEvent := mkEvent {
  ev_type : string;
  ev_data : option string;
  ev_exit_code : option Z;
  ev_error : option string
}.

Definition output_event (data : option string) := mkEvent "terminal.output" data None None.

Record TerminalBridgeEvent := mkBridgeEvent {
  be_type : string;
  be_data : option string;
  be_exit_code : option Z;
  be_error : option string
}.

Inductive bridge_call := BStart | BClose | BInput (data : string) | BResize (cols rows : Z).
#[export] Instance bridge_call_eq_dec : EqDecision bridge_call.
Proof. solve_decision. Defined.

Record managed := mkManaged {
  md_record : TerminalSessionRecord;
  md_bridge : option nat;
  md_queue : option nat;
  md_reconnect : option nat;
  md_chunks : list string;
  md_bytes : Z;
  md_truncated : bool
}.

(** A reconnect task sleeps, closes the session it expired ([TkClosing]), or is
    over. *)
Inductive task_state := TkSleeping | TkClosing | TkCancelled | TkDone.
#[export] Instance task_state_eq_dec : EqDecision task_state.
Proof. solve_decision. Defined.

(** A task running [_expire_detached_session]. *)
Record expire_task := mkTask { xt_session : string; xt_deadline : Z; xt_state : task_state }.

(** What an operation still does after its snapshot is written. *)
Inductive after :=
| ARecord (r : TerminalSessionRecord)                       (* return [r] *)
| ACreated (group_folder : string) (r : TerminalSessionRecord) (* return the current session, or [r] *)
| AQueue (r : TerminalSessionRecord) (queue : nat)          (* return [r, queue] *)
| AManaged (object : nat)                                   (* return [managed.record] *)
| ABridge (session_id kind : string) (bridge : option nat) (put : option (nat * TerminalSessionEvent))
                                                            (* the end of a callback of a bridge *)
| ATask (task : nat)                                        (* the end of a reconnect task *)
| ARaise (msg : string).                                    (* re-raise *)

(** What an operation waits for: the [start] of a new bridge, by [create_session]
    or [attach_session], the [close] of a bridge, the thread that writes a
    snapshot, or its turn after the write. *)
Inductive kont :=
| KCreate (session_id group_folder : string) (record : TerminalSessionRecord)
| KAttach (session_id : string) (snapshot : TerminalSessionHistorySnapshot)
    (record : TerminalSessionRecord) (queue : nat)
| KClose (snapshot : TerminalSessionHistorySnapshot) (a : after)
| KPersist (snapshot : TerminalSessionHistorySnapshot) (a : after)
| KAfter (a : after).

(** What a segment gives its caller. *)
Inductive reply :=
| RRecord (r : TerminalSessionRecord)
| RQueue (r : TerminalSessionRecord) (queue : nat)
| RWaits (k : nat)
| RNone
| RError (e : terminal_error).

(** ** State

    [sv_latest] is the [latest.json] of each directory, [sv_archive] the
    [snapshots/<id>.json] of each directory; [sv_calls] the calls made on
    bridges. *)

Record service := mkService {
  sv_heap : gmap nat managed;
  sv_by_group : list (string * nat);
  sv_by_id : gmap string nat;
  sv_queues : gmap nat (list TerminalSessionEvent);
  sv_tasks : gmap nat expire_task;
  sv_calls : list (nat * bridge_call);
  sv_konts : gmap nat kont;
  sv_latest : gmap string TerminalSessionHistorySnapshot;
  sv_archive : gmap (string * string) TerminalSessionHistorySnapshot;
  sv_next : nat;
  sv_uuids : nat;
  sv_clock : nat
}.

Definition with_heap (v : gmap nat managed) (s : service) : service :=
  mkService v (sv_by_group s) (sv_by_id s) (sv_queues s) (sv_tasks s) (sv_calls s) (sv_konts
    s) (sv_latest s) (sv_archive s) (sv_next s) (sv_uuids s) (sv_clock s).
Definition with_by_group (v : list (string * nat)) (s : service) : service :=
  mkService (sv_heap s) v (sv_by_id s) (sv_queues s) (sv_tasks s) (sv_calls s) (sv_konts s)
    (sv_latest s) (sv_archive s) (sv_next s) (sv_uuids s) (sv_clock s).
Definition with_by_id (v : gmap string nat) (s : service) : service :=
  mkService (sv_heap s) (sv_by_group s) v (sv_queues s) (sv_tasks s) (sv_calls s) (sv_konts
    s) (sv_latest s) (sv_archive s) (sv_next s) (sv_uuids s) (sv_clock s).
Definition with_queues (v : gmap nat (list TerminalSessionEvent)) (s : service) : service :=
  mkService (sv_heap s) (sv_by_group s) (sv_by_id s) v (sv_tasks s) (sv_calls s) (sv_konts
    s) (sv_latest s) (sv_archive s) (sv_next s) (sv_uuids s) (sv_clock s).
Definition with_tasks (v : gmap nat expire_task) (s : service) : service :=
  mkService (sv_heap s) (sv_by_group s) (sv_by_id s) (sv_queues s) v (sv_calls s) (sv_konts
    s) (sv_latest s) (sv_archive s) (sv_next s) (sv_uuids s) (sv_clock s).
Definition with_calls (v : list (nat * bridge_call)) (s : service) : service :=
  mkService (sv_heap s) (sv_by_group s) (sv_by_id s) (sv_queues s) (sv_tasks s) v (sv_konts
    s) (sv_latest s) (sv_archive s) (sv_next s) (sv_uuids s) (sv_clock s).
Definition with_konts (v : gmap nat kont) (s : service) : service :=
  mkService (sv_heap s) (sv_by_group s) (sv_by_id s) (sv_queues s) (sv_tasks s) (sv_calls s)
    v (sv_latest s) (sv_archive s) (sv_next s) (sv_uuids s) (sv_clock s).
Definition with_latest (v : gmap string TerminalSessionHistorySnapshot) (s : service) : service :=
  mkService (sv_heap s) (sv_by_group s) (sv_by_id s) (sv_queues s) (sv_tasks s) (sv_calls s)
    (sv_konts s) v (sv_archive s) (sv_next s) (sv_uuids s) (sv_clock s).
Definition with_archive (v : gmap (string * string) TerminalSessionHistorySnapshot) (s : service) : service :=
  mkService (sv_heap s) (sv_by_group s) (sv_by_id s) (sv_queues s) (sv_tasks s) (sv_calls s)
    (sv_konts s) (sv_latest s) v (sv_next s) (sv_uuids s) (sv_clock s).
Definition with_next (v : nat) (s : service) : service :=
  mkService (sv_heap s) (sv_by_group s) (sv_by_id s) (sv_queues s) (sv_tasks s) (sv_calls s)
    (sv_konts s) (sv_latest s) (sv_archive s) v (sv_uuids s) (sv_clock s).
Definition with_uuids (v : nat) (s : service) : service :=
  mkService (sv_heap s) (sv_by_group s) (sv_by_id s) (sv_queues s) (sv_tasks s) (sv_calls s)
    (sv_konts s) (sv_latest s) (sv_archive s) (sv_next s) v (sv_clock s).
Definition with_clock (v : nat) (s : service) : service :=
  mkService (sv_heap s) (sv_by_group s) (sv_by_id s) (sv_queues s) (sv_tasks s) (sv_calls s)
    (sv_konts s) (sv_latest s) (sv_archive s) (sv_next s) (sv_uuids s) v.

Definition init_service : service :=
  mkService ∅ [] ∅ ∅ ∅ [] ∅ ∅ ∅ 0 0 0.

Definition set_managed (o : nat) (m : managed) (s : service) : service :=
  with_heap (<[o := m]> (sv_heap s)) s.

(** [replace(record, status=..., reconnect_deadline=...)]. *)
Definition record_status (st : TerminalSessionStatus) (deadline : option Z)
    (r : TerminalSessionRecord) : TerminalSessionRecord :=
  mkSession (ts_session_id r) (ts_group_id r) (ts_group_folder r) (ts_owner_user_id r)
    (ts_backend r) (ts_container_name r) st (ts_created_at r) (ts_last_attached_at r) deadline.

Definition record_attached (now : Z) (r : TerminalSessionRecord) : TerminalSessionRecord :=
  mkSession (ts_session_id r) (ts_group_id r) (ts_group_folder r) (ts_owner_user_id r)
    (ts_backend r) (ts_container_name r) TsAttached (ts_created_at r) (Some now) None.

Definition record_container (c : option string) (r : TerminalSessionRecord) : TerminalSessionRecord :=
  mkSession (ts_session_id r) (ts_group_id r) (ts_group_folder r) (ts_owner_user_id r)
    (ts_backend r) (match c with Some n => Some n | None => ts_container_name r end)
    (ts_status r) (ts_created_at r) (ts_last_attached_at r) (ts_reconnect_deadline r).

Definition md_with_record (r : TerminalSessionRecord) (m : managed) : managed :=
  mkManaged r (md_bridge m) (md_queue m) (md_reconnect m) (md_chunks m) (md_bytes m) (md_truncated m).
Definition md_with_bridge (b : option nat) (m : managed) : managed :=
  mkManaged (md_record m) b (md_queue m) (md_reconnect m) (md_chunks m) (md_bytes m) (md_truncated m).
Definition md_with_queue (q : option nat) (m : managed) : managed :=
  mkManaged (md_record m) (md_bridge m) q (md_reconnect m) (md_chunks m) (md_bytes m) (md_truncated m).
Definition md_with_reconnect (t : option nat) (m : managed) : managed :=
  mkManaged (md_record m) (md_bridge m) (md_queue m) t (md_chunks m) (md_bytes m) (md_truncated m).
Definition md_with_history (c : list string) (n : Z) (t : bool) (m : managed) : managed :=
  mkManaged (md_record m) (md_bridge m) (md_queue m) (md_reconnect m) c n t.

(** A managed session as its constructor leaves it. *)
Definition fresh_managed (r : TerminalSessionRecord) (b : option nat) : managed :=
  mkManaged r b None None [] 0 false.

(** ["".join(chunks)]. *)
Definition join_chunks (l : list string) : string := foldr String.append "" l.

(** [_resolve_backend]. *)
Definition resolve_backend (requested_mode : string) : result terminal_error string :=
  if bool_decide (requested_mode = "container") then Ok "docker_container"
  else if bool_decide (requested_mode = "host")
  then raise (TerminalBackendDisabledError "host_process backend is disabled for terminal sessions")
  else raise (TerminalBackendUnsupportedError
                "openai_runtime backend does not support terminal sessions").

Definition not_owner : terminal_error :=
  TerminalSessionOwnershipError "terminal session is owned by another user".
Definition no_bridge : terminal_error :=
  TerminalSessionNotFoundError "terminal session bridge unavailable".

Section service.
(** [history_max_bytes] after [max(0, _)] is [Z.max 0 history_max_bytes]; the
    reconnect timeout is in microseconds. *)
Variable history_max_bytes_arg : Z.
Variable reconnect_timeout : Z.
Variable uuid4_hex : nat -> string.
Variable utcnow : nat -> Z.
(** [getattr(bridge, "container_name", None)] of the bridge the factory builds
    for a workspace and a session id. *)
Variable container_name : string -> string -> option string.
(** The directory a workspace name resolves to under the history root; [None]
    when it leaves the root. *)
Variable history_dir : string -> option string.

Definition history_max_bytes : Z := Z.max 0 history_max_bytes_arg.

(** [self._now()]. *)
Definition read_now (s : service) : Z * service :=
  (utcnow (sv_clock s), with_clock (S (sv_clock s)) s).

Definition fresh (s : service) : nat * service := (sv_next s, with_next (S (sv_next s)) s).

(** ** Output history *)

(** The loop of [_append_output_history]. *)
Fixpoint drop_oldest (chunks : list string) (bytes : Z) (truncated : bool) :
    list string * Z * bool :=
  if (history_max_bytes <? bytes)%Z then
    match chunks with
    | [] => ([], bytes, truncated)
    | removed :: chunks' => drop_oldest chunks' (bytes - utf8_len removed)%Z true
    end
  else (chunks, bytes, truncated).

(** [_append_output_history]. *)
Definition append_output_history (chunk : string) (m : managed) : managed :=
  if (history_max_bytes <=? 0)%Z || bool_decide (chunk = "") then
    if (history_max_bytes <=? 0)%Z then md_with_history [] 0 (md_truncated m) m else m
  else
    let chunk_bytes := utf8_len chunk in
    if (chunk_bytes <=? 0)%Z then m
    else
      let '(chunks, bytes, truncated) :=
        drop_oldest (md_chunks m ++ [chunk]) (md_bytes m + chunk_bytes)%Z (md_truncated m) in
      md_with_history chunks (if (bytes <? 0)%Z then 0%Z else bytes) truncated m.

(** [_build_history_snapshot]. *)
Definition build_history_snapshot (m : managed) (s : service) :
    TerminalSessionHistorySnapshot * service :=
  let '(now, s) := read_now s in
  (mkHistory (md_record m) now (join_chunks (md_chunks m)) (md_bytes m) history_max_bytes
     (md_truncated m), s).

(** ** Persistence *)

Definition has_slash (name : string) : bool :=
  existsb (fun c => bool_decide (c = "/"%char) || bool_decide (c = "\"%char)) (str_chars name).

(** [_history_archive_snapshot_path]: the directory and the file's stem. *)
Definition archive_path (group_folder session_id : string) : option (string * string) :=
  let name := strip session_id in
  if bool_decide (name = "") || has_slash name then None
  else (fun d => (d, name)) <$> history_dir group_folder.

(** [_persist_history_snapshot_best_effort]: a [ValueError] of a path is
    swallowed, after the latest snapshot has been written. *)
Definition persist (snap : TerminalSessionHistorySnapshot) (s : service) : service :=
  match history_dir (ts_group_folder (hs_record snap)) with
  | None => s
  | Some d =>
      let s := with_latest (<[d := snap]> (sv_latest s)) s in
      if archive_status (ts_status (hs_record snap)) then
        match archive_path (ts_group_folder (hs_record snap)) (hs_session_id snap) with
        | Some p => with_archive (<[p := snap]> (sv_archive s)) s
        | None => s
        end
      else s
  end.

(** What [_load_persisted_history_snapshot_from_path] makes of a written
    snapshot: records with an empty id are refused. *)
Definition loads (snap : TerminalSessionHistorySnapshot) : bool :=
  let r := hs_record snap in
  negb (bool_decide (ts_session_id r = "") || bool_decide (ts_group_id r = "")
        || bool_decide (ts_group_folder r = "") || bool_decide (ts_owner_user_id r = "")).

(** [_load_persisted_history_snapshot], once the path is resolved. *)
Definition load_dir (d : string) (s : service) : option TerminalSessionHistorySnapshot :=
  snap ← sv_latest s !! d; if loads snap then Some snap else None.

Definition bad_root : terminal_error := ValueError "invalid terminal history root".

Definition load_persisted_history_snapshot (g : string) (s : service) :
    result terminal_error (option TerminalSessionHistorySnapshot) :=
  match history_dir g with None => raise bad_root | Some d => Ok (load_dir d s) end.

(** [_list_persisted_history_archived_snapshots]: in the order of the file names. *)
Definition list_persisted_history_archived_snapshots (g : string) (s : service) :
    result terminal_error (list TerminalSessionHistorySnapshot) :=
  match history_dir g with
  | None => raise bad_root
  | Some d =>
      let files := List.filter (fun e : string * string * _ => bool_decide (e.1.1 = d))
                     (map_to_list (sv_archive s)) in
      let sorted := py_sorted (fun e : string * string * _ => e.1.2 +:+ ".json") files in
      Ok (List.filter (fun snap => loads snap &&
                         bool_decide (ts_group_folder (hs_record snap) = g)) sorted.*2)
  end.

(** [_load_history_timeline_from_persistence]. *)
Definition load_history_timeline_from_persistence (g : string) (s : service) :
    result terminal_error
      (option TerminalSessionHistorySnapshot * list TerminalSessionHistorySnapshot) :=
  latest ← load_persisted_history_snapshot g s;
  archived ← list_persisted_history_archived_snapshots g s;
  Ok (latest, archived).

(** ** Lookups *)

Definition by_group (g : string) (s : service) : option nat := od_get g (sv_by_group s).

(** The managed session of a workspace, of an id. *)
Definition group_session (g : string) (s : service) : option (nat * managed) :=
  o ← by_group g s; m ← sv_heap s !! o; Some (o, m).
Definition id_session (sid : string) (s : service) : option (nat * managed) :=
  o ← sv_by_id s !! sid; m ← sv_heap s !! o; Some (o, m).

(** [_require_session], then [_require_owner]. *)
Definition require_owned (sid owner : string) (s : service) :
    result terminal_error (nat * managed) :=
  match id_session sid s with
  | None => raise not_found
  | Some (o, m) =>
      if bool_decide (ts_owner_user_id (md_record m) = owner) then Ok (o, m) else raise not_owner
  end.

(** [get_current_session]. *)
Definition get_current_session (g : string) (s : service) : option TerminalSessionRecord :=
  (fun p => md_record p.2) <$> group_session g s.

(** [list_sessions]. *)
Definition list_sessions (s : service) : list TerminalSessionRecord :=
  py_sorted (fun r => (ts_group_folder r, ts_session_id r))
    (omap (fun e : string * nat => md_record <$> sv_heap s !! e.2) (sv_by_group s)).

(** [get_history_by_group]. *)
Definition get_history_by_group (g : string) (s : service) :
    result terminal_error TerminalSessionHistorySnapshot * service :=
  match group_session g s with
  | Some (_, m) => let '(snap, s) := build_history_snapshot m s in (Ok snap, s)
  | None =>
      (match load_persisted_history_snapshot g s with
       | Err e => raise e
       | Ok None => raise not_found
       | Ok (Some snap) => Ok snap
       end, s)
  end.

(** [_list_merged_history_snapshots_by_group]. *)
Definition list_merged_history_snapshots_by_group (g : string) (s : service) :
    result terminal_error (list TerminalSessionHistorySnapshot) * service :=
  let '(in_memory, s) :=
    match group_session g s with
    | None => (None, s)
    | Some (_, m) => let '(snap, s) := build_history_snapshot m s in (Some snap, s)
    end in
  (p ← load_history_timeline_from_persistence g s;
   list_merged_history_snapshots in_memory p.1 p.2, s).

(** ** Operations *)

(** [_cancel_reconnect_task]: the task is cancelled, the reference dropped. *)
Definition cancel_task (t : option nat) (s : service) : service :=
  match t with
  | None => s
  | Some t =>
      match sv_tasks s !! t with
      | Some x =>
          match xt_state x with
          | TkSleeping | TkClosing =>
              with_tasks (<[t := mkTask (xt_session x) (xt_deadline x) TkCancelled]> (sv_tasks s)) s
          | _ => s
          end
      | None => s
      end
  end.

Definition cancel_reconnect_task (o : nat) (m : managed) (s : service) : managed * service :=
  let m' := md_with_reconnect None m in
  (m', cancel_task (md_reconnect m) (set_managed o m' s)).

(** [_drop_session]. *)
Definition drop_session (o : nat) (m : managed) (s : service) : service :=
  let s := with_by_group (od_pop (ts_group_folder (md_record m)) (sv_by_group s)) s in
  let s := with_by_id (delete (ts_session_id (md_record m)) (sv_by_id s)) s in
  (cancel_reconnect_task o m s).2.

Definition call_bridge (b : nat) (c : bridge_call) (s : service) : service :=
  with_calls (sv_calls s ++ [(b, c)]) s.

(** Suspend on a bridge call. *)
Definition await_call (b : nat) (c : bridge_call) (k : kont) (s : service) : reply * service :=
  let '(n, s) := fresh (call_bridge b c s) in
  (RWaits n, with_konts (<[n := k]> (sv_konts s)) s).

(** [await self._persist_history_snapshot_best_effort(snap)]: a thread is handed
    the snapshot. *)
Definition await_persist (snap : TerminalSessionHistorySnapshot) (a : after) (s : service) :
    reply * service :=
  let '(n, s) := fresh s in
  (RWaits n, with_konts (<[n := KPersist snap a]> (sv_konts s)) s).

(** The second half of [create_session]'s locked block, up to
    [await bridge.start]: a new session, registered under both keys. *)
Definition create_new (group_id group_folder owner_user_id backend : string) (s : service) :
    reply * service :=
  let session_id := uuid4_hex (sv_uuids s) in
  let s := with_uuids (S (sv_uuids s)) s in
  let '(b, s) := fresh s in
  let '(now, s) := read_now s in
  let record := mkSession session_id group_id group_folder owner_user_id backend
                  (container_name group_folder session_id) TsCreated now None None in
  let '(o, s) := fresh s in
  let s := set_managed o (fresh_managed record (Some b)) s in
  let s := with_by_group (od_set group_folder o (sv_by_group s)) s in
  let s := with_by_id (<[session_id := o]> (sv_by_id s)) s in
  await_call b BStart (KCreate session_id group_folder record) s.

(** [create_session] up to [await bridge.start]. *)
Definition create_session (group_id group_folder owner_user_id requested_mode : string)
    (s : service) : reply * service :=
  match resolve_backend requested_mode with
  | Err e => (RError e, s)
  | Ok backend =>
      match group_session group_folder s with
      | None => create_new group_id group_folder owner_user_id backend s
      | Some (o, m) =>
          if archive_status (ts_status (md_record m))
          then create_new group_id group_folder owner_user_id backend (drop_session o m s)
          else if bool_decide (ts_owner_user_id (md_record m) = owner_user_id)
          then (RRecord (md_record m), s)
          else (RError (TerminalSessionConflictError
                  "active terminal session already owned by another user"), s)
      end
  end.

(** [queue.put_nowait(event)]. *)
Definition put_event (q : nat) (e : TerminalSessionEvent) (s : service) : service :=
  with_queues (<[q := default [] (sv_queues s !! q) ++ [e]]> (sv_queues s)) s.

(** [attach_session] up to its first [await]: the [start] of a new bridge, or the
    write of the snapshot when the session has a bridge. *)
Definition attach_session (session_id owner_user_id : string) (s : service) : reply * service :=
  match require_owned session_id owner_user_id s with
  | Err e => (RError e, s)
  | Ok (o, m) =>
      let '(m, s) := cancel_reconnect_task o m s in
      let '(q, s) := fresh s in
      let s := with_queues (<[q := (fun c => output_event (Some c)) <$> md_chunks m]> (sv_queues s)) s in
      let '(now, s) := read_now s in
      let m := md_with_queue (Some q) m in
      let m := md_with_record (record_attached now (md_record m)) m in
      match md_bridge m with
      | Some _ =>
          let s := set_managed o m s in
          let '(snap, s) := build_history_snapshot m s in
          await_persist snap (AQueue (md_record m) q) s
      | None =>
          let '(b, s) := fresh s in
          let m := md_with_bridge (Some b) m in
          let r := md_record m in
          let m := md_with_record
                     (record_container (container_name (ts_group_folder r) (ts_session_id r)) r) m in
          let s := set_managed o m s in
          let '(snap, s) := build_history_snapshot m s in
          await_call b BStart (KAttach session_id snap (md_record m) q) s
      end
  end.

(** [detach_session]. *)
Definition detach_session (session_id owner_user_id : string) (s : service) : reply * service :=
  match require_owned session_id owner_user_id s with
  | Err e => (RError e, s)
  | Ok (o, m) =>
      let '(now, s) := read_now s in
      let deadline := (now + reconnect_timeout)%Z in
      let m := md_with_queue None m in
      let m := md_with_record (record_status TsDetached (Some deadline) (md_record m)) m in
      let '(m, s) := cancel_reconnect_task o m s in
      let '(t, s) := fresh s in
      let s := with_tasks (<[t := mkTask session_id deadline TkSleeping]> (sv_tasks s)) s in
      let m := md_with_reconnect (Some t) m in
      let s := set_managed o m s in
      let '(snap, s) := build_history_snapshot m s in
      await_persist snap (ARecord (md_record m)) s
  end.

(** The body shared by the closing operations, once the session is found. *)
Definition close_managed (o : nat) (m : managed) (s : service) : reply * service :=
  let '(m, s) := cancel_reconnect_task o m s in
  let m := md_with_queue None m in
  let m := md_with_record (record_status TsClosed None (md_record m)) m in
  let s := set_managed o m s in
  let '(snap, s) := build_history_snapshot m s in
  match md_bridge m with
  | Some b => await_call b BClose (KClose snap (AManaged o)) s
  | None => await_persist snap (AManaged o) s
  end.

(** [close_session]. *)
Definition close_session (session_id owner_user_id : string) (s : service) : reply * service :=
  match require_owned session_id owner_user_id s with
  | Err e => (RError e, s)
  | Ok (o, m) => close_managed o m s
  end.

(** [close_session_by_group]. *)
Definition close_session_by_group (g owner_user_id : string) (s : service) : reply * service :=
  match group_session g s with
  | None => (RError not_found, s)
  | Some (o, m) =>
      if bool_decide (ts_owner_user_id (md_record m) = owner_user_id)
      then close_session (ts_session_id (md_record m)) owner_user_id s
      else (RError not_owner, s)
  end.

(** [force_close_session_by_group]. *)
Definition force_close_session_by_group (g : string) (s : service) : reply * service :=
  match group_session g s with
  | None => (RError not_found, s)
  | Some (o, m) => close_managed o m s
  end.

(** [send_input] and [resize]. *)
Definition use_bridge (session_id owner_user_id : string) (c : bridge_call) (s : service) :
    reply * service :=
  match require_owned session_id owner_user_id s with
  | Err e => (RError e, s)
  | Ok (_, m) =>
      match md_bridge m with
      | None => (RError no_bridge, s)
      | Some b => (RNone, call_bridge b c s)
      end
  end.
Definition send_input (session_id owner_user_id data : string) (s : service) : reply * service :=
  use_bridge session_id owner_user_id (BInput data) s.
Definition resize (session_id owner_user_id : string) (cols rows : Z) (s : service) :
    reply * service :=
  use_bridge session_id owner_user_id (BResize cols rows) s.

Definition put_opt (put : option (nat * TerminalSessionEvent)) (s : service) : service :=
  match put with Some (q, e) => put_event q e s | None => s end.

(** [_handle_bridge_event] for a [TerminalBridgeEvent], up to its [await]. *)
Definition handle_bridge_event (session_id : string) (e : TerminalBridgeEvent) (s : service) :
    reply * service :=
  match id_session session_id s with
  | None => (RNone, s)
  | Some (o, m) =>
      let to event := (fun q => (q, event)) <$> md_queue m in
      if bool_decide (be_type e = "output") then
        match be_data e with
        | Some d =>
            let m := append_output_history d m in
            let '(snap, s) := build_history_snapshot m (set_managed o m s) in
            await_persist snap (ABridge session_id "output" (md_bridge m) (to (output_event (Some d)))) s
        | None => (RNone, put_opt (to (output_event None)) s)
        end
      else if bool_decide (be_type e = "exit") then
        let '(m, s) := cancel_reconnect_task o m s in
        let m := md_with_record (record_status TsExited None (md_record m)) m in
        let '(snap, s) := build_history_snapshot m (set_managed o m s) in
        await_persist snap
          (ABridge session_id "exit" (md_bridge m)
             (to (mkEvent "terminal.exit" None (be_exit_code e) None))) s
      else if bool_decide (be_type e = "error") then
        (RNone, put_opt (to (mkEvent "terminal.error" None None (be_error e))) s)
      else (RNone, s)
  end.

(** Is a callback of the bridge of this session, of this type, under way? *)
Definition after_of (k : kont) : option after :=
  match k with KPersist _ a | KAfter a | KClose _ a => Some a | _ => None end.
Definition callback_of (session_id kind : string) (k : kont) : bool :=
  match after_of k with
  | Some (ABridge i k' _ _) => bool_decide (i = session_id) && bool_decide (k' = kind)
  | _ => false
  end.

(** [_forward_pty_output] awaits [on_event] before it reads the next chunk. *)
Definition bridge_ready (session_id : string) (e : TerminalBridgeEvent) (s : service) : bool :=
  negb (bool_decide (be_type e = "output")) ||
  forallb (fun p => negb (callback_of session_id "output" p.2)) (map_to_list (sv_konts s)).

(** [bridge.close()] cancels the tasks that run the callbacks: a callback under
    way puts nothing into the queue any more. *)
Definition cancel_put (a : after) (s : service) : option after :=
  match a with
  | ABridge i kind (Some b) _ =>
      if bool_decide ((b, BClose) ∈ sv_calls s) then Some (ABridge i kind (Some b) None) else None
  | _ => None
  end.
Definition cancel_callback (n : nat) (s : service) : option (reply * service) :=
  let set k := (RNone, with_konts (<[n := k]> (sv_konts s)) s) in
  match sv_konts s !! n with
  | Some (KPersist snap a) => (fun a => set (KPersist snap a)) <$> cancel_put a s
  | Some (KAfter a) => (fun a => set (KAfter a)) <$> cancel_put a s
  | _ => None
  end.

(** [_expire_detached_session] of the task [t], from the end of its sleep. *)
Definition expire_detached_session (t : nat) (s : service) : option (reply * service) :=
  match sv_tasks s !! t with
  | Some x =>
      match xt_state x with
      | TkSleeping =>
          let goes st := with_tasks (<[t := mkTask (xt_session x) (xt_deadline x) st]> (sv_tasks s)) s in
          match id_session (xt_session x) s with
          | None => Some (RNone, goes TkDone)
          | Some (o, m) =>
              if bool_decide (ts_status (md_record m) = TsDetached) then
                if bool_decide (ts_reconnect_deadline (md_record m) = Some (xt_deadline x)) then
                  let m := md_with_record (record_status TsClosed None (md_record m)) m in
                  let s := set_managed o m (goes TkClosing) in
                  let '(snap, s) := build_history_snapshot m s in
                  match md_bridge m with
                  | Some b => Some (await_call b BClose (KClose snap (ATask t)) s)
                  | None => Some (await_persist snap (ATask t) s)
                  end
                else Some (RNone, goes TkDone)
              else Some (RNone, goes TkDone)
          end
      | _ => None
      end
  | None => None
  end.

(** A reconnect task that was closing its session is over. *)
Definition end_task (t : nat) (s : service) : service :=
  match sv_tasks s !! t with
  | Some x =>
      match xt_state x with
      | TkClosing => with_tasks (<[t := mkTask (xt_session x) (xt_deadline x) TkDone]> (sv_tasks s)) s
      | _ => s
      end
  | None => s
  end.

(** What an operation does once its snapshot is written, or need not be. *)
Definition finish (a : after) (s : service) : reply * service :=
  match a with
  | ARecord r => (RRecord r, s)
  | ACreated g record => (RRecord (default record (get_current_session g s)), s)
  | AQueue r q => (RQueue r q, s)
  | AManaged o => (match sv_heap s !! o with Some m => RRecord (md_record m) | None => RNone end, s)
  | ABridge _ _ _ put => (RNone, put_opt put s)
  | ATask t => (RNone, end_task t s)
  | ARaise msg => (RError (BridgeError msg), s)
  end.

(** The outcome of [await bridge.close()]: in a reconnect task that was
    cancelled meanwhile, a [CancelledError]. *)
Definition close_outcome (a : after) (failed : option string) (s : service) : option string :=
  match a with
  | ATask t =>
      match sv_tasks s !! t with
      | Some x => if bool_decide (xt_state x = TkCancelled) then Some "CancelledError" else failed
      | None => failed
      end
  | _ => failed
  end.

(** What follows an [await]; [failed] is the message of the exception it raised,
    if it did. A failed write is swallowed. *)
Definition resume (n : nat) (failed : option string) (s : service) : option (reply * service) :=
  match sv_konts s !! n with
  | None => None
  | Some k =>
      let s := with_konts (delete n (sv_konts s)) s in
      Some match k, failed with
      | KCreate session_id g record, None =>
          match id_session session_id s with
          | None => finish (ACreated g record) s
          | Some (_, m) =>
              let '(snap, s) := build_history_snapshot m s in
              await_persist snap (ACreated g record) s
          end
      | KCreate _ _ _, Some msg => (RError (BridgeError msg), s)
      | KAttach _ snap record q, None => await_persist snap (AQueue record q) s
      | KAttach session_id _ _ _, Some msg =>
          match id_session session_id s with
          | None => finish (ARaise msg) s
          | Some (o, m) =>
              let m := md_with_queue None (md_with_bridge None m) in
              let m := md_with_record (record_status TsClosed None (md_record m)) m in
              let '(snap, s) := build_history_snapshot m (set_managed o m s) in
              await_persist snap (ARaise msg) s
          end
      | KClose snap a, _ =>
          match close_outcome a failed s with
          | None => await_persist snap a s
          | Some msg =>
              (RError (BridgeError msg), match a with ATask t => end_task t s | _ => s end)
          end
      | KPersist snap a, _ =>
          let s := match failed with None => persist snap s | Some _ => s end in
          (RWaits n, with_konts (<[n := KAfter a]> (sv_konts s)) s)
      | KAfter a, _ => finish a s
      end
  end.

(** [_recover_active_sessions_from_persisted_snapshots], on the snapshots of
    [_list_persisted_history_snapshots]. *)
Definition recover_one (s : service) (snap : TerminalSessionHistorySnapshot) : service :=
  if negb (recoverable_status (ts_status (hs_record snap))) then s
  else
    let r := record_status TsDetached None (hs_record snap) in
    if bool_decide (is_Some (by_group (ts_group_folder r) s)) then s
    else if bool_decide (is_Some (sv_by_id s !! ts_session_id r)) then s
    else
      let '(o, s) := fresh s in
      let m := md_with_history [] 0 (hs_truncated snap) (fresh_managed r None) in
      let m := append_output_history (hs_output snap) m in
      with_by_id (<[ts_session_id r := o]> (sv_by_id s))
        (with_by_group (od_set (ts_group_folder r) o (sv_by_group s)) (set_managed o m s)).

(** [_list_persisted_history_snapshots]: by directory name. *)
Definition list_persisted_history_snapshots (s : service) : list TerminalSessionHistorySnapshot :=
  omap (fun e : string * _ => load_dir e.1 s)
    (py_sorted (fun e : string * TerminalSessionHistorySnapshot => e.1) (map_to_list (sv_latest s))).

(** A new service over the files another one left. *)
Definition recover_active_sessions (files : service) : service :=
  let s := with_archive (sv_archive files) (with_latest (sv_latest files)
             (with_next (sv_next files) (with_uuids (sv_uuids files) (with_clock (sv_clock files)
                init_service)))) in
  foldl recover_one s (list_persisted_history_snapshots s).

(** [list_latest_history_snapshots] and [list_history_summaries]: the sessions in
    memory, then the persisted snapshots of the other workspaces. *)
Fixpoint build_snapshots (l : list (string * nat)) (s : service) :
    list (string * TerminalSessionHistorySnapshot) * service :=
  match l with
  | [] => ([], s)
  | (_, o) :: l' =>
      match sv_heap s !! o with
      | None => build_snapshots l' s
      | Some m =>
          let '(snap, s) := build_history_snapshot m s in
          let '(d, s) := build_snapshots l' s in
          ((ts_group_folder (hs_record snap), snap) :: d, s)
      end
  end.

Definition add_persisted (d : list (string * TerminalSessionHistorySnapshot))
    (snap : TerminalSessionHistorySnapshot) : list (string * TerminalSessionHistorySnapshot) :=
  od_setdefault (ts_group_folder (hs_record snap)) snap d.

Definition list_latest_history_snapshots (s : service) :
    list TerminalSessionHistorySnapshot * service :=
  let '(built, s) := build_snapshots (sv_by_group s) s in
  let in_memory := foldl (fun d e => od_set e.1 e.2 d) [] built in
  let all := foldl add_persisted in_memory (list_persisted_history_snapshots s) in
  (py_sorted (fun x => (ts_group_folder (hs_record x), hs_session_id x)) (od_values all), s).

Definition list_history_summaries (s : service) : list TerminalSessionHistorySummary * service :=
  let '(l, s) := list_latest_history_snapshots s in (to_history_summary <$> l, s).

(** ** The service as a transition system *)

Inductive event :=
| ECreate (group_id group_folder owner_user_id requested_mode : string)
| EAttach (session_id owner_user_id : string)
| EDetach (session_id owner_user_id : string)
| EClose (session_id owner_user_id : string)
| ECloseByGroup (group_folder owner_user_id : string)
| EForceClose (group_folder : string)
| EInput (session_id owner_user_id data : string)
| EResize (session_id owner_user_id : string) (cols rows : Z)
| EBridge (session_id : string) (e : TerminalBridgeEvent)
| ECancelCallback (k : nat)
| EExpire (task : nat)
| EResume (k : nat) (failed : option string).

Definition step (s : service) (ev : event) : option (reply * service) :=
  match ev with
  | ECreate gid g owner mode => Some (create_session gid g owner mode s)
  | EAttach sid owner => Some (attach_session sid owner s)
  | EDetach sid owner => Some (detach_session sid owner s)
  | EClose sid owner => Some (close_session sid owner s)
  | ECloseByGroup g owner => Some (close_session_by_group g owner s)
  | EForceClose g => Some (force_close_session_by_group g s)
  | EInput sid owner data => Some (send_input sid owner data s)
  | EResize sid owner cols rows => Some (resize sid owner cols rows s)
  | EBridge sid e => if bridge_ready sid e s then Some (handle_bridge_event sid e s) else None
  | ECancelCallback n => cancel_callback n s
  | EExpire t => expire_detached_session t s
  | EResume n failed => resume n failed s
  end.

(** States reached from a service with no session, or recovered from files. *)
Inductive reach : service -> Prop :=
| reach_init : reach init_service
| reach_recover s : reach s -> reach (recover_active_sessions s)
| reach_step s ev r s' : reach s -> step s ev = Some (r, s') -> reach s'.

Fixpoint run_events (evs : list event) (s : service) : option service :=
  match evs with
  | [] => Some s
  | ev :: evs' => match step s ev with Some (_, s') => run_events evs' s' | None => None end
  end.

Lemma run_service_reach evs s s' : reach s -> run_events evs s = Some s' -> reach s'.
Proof.
  revert s. induction evs as [|ev evs IH]; intros s R; simpl.
  - intros H. by simplify_eq.
  - destruct (step s ev) as [[r s1]|] eqn:E; [|done]. apply IH. by eapply reach_step.
Qed.
End service.
