(* ===== verification/TerminalSessionsInv.v ===== *)
(** * Invariants of the terminal session service

    [sess_inv] ties the two dictionaries, the managed sessions, their bounded
    histories, the queues of their attached clients and their reconnect timers
    together; every event preserves it ([reach_inv]), given that [uuid4] never
    repeats itself. *)

From stdpp Require Import base gmap strings list option sorting.
From Stdlib Require Import ZArith Lia Ascii.
From S2P Require Import Prelude PyStr PySort PyDict TerminalHistory TerminalSessions.

Definition sid (m : managed) : string := ts_session_id (md_record m).
Definition folder (m : managed) : string := ts_group_folder (md_record m).

(** The text of the output events put into a queue. *)
Definition event_output (e : TerminalSessionEvent) : string :=
  if bool_decide (ev_type e = "terminal.output") then default "" (ev_data e) else "".
Definition queue_output (l : list TerminalSessionEvent) : string :=
  join_chunks (event_output <$> l).

Definition is_suffix (a b : string) : Prop := exists pre, b = pre +:+ a.

(** What identifies a session and never changes. *)
Definition identity (m : managed) :=
  (ts_session_id (md_record m), ts_group_id (md_record m), ts_group_folder (md_record m),
   ts_owner_user_id (md_record m), ts_backend (md_record m), ts_created_at (md_record m)).

(** ** Strings *)

Lemma append_nil (a : string) : a +:+ "" = a.
Proof. induction a as [|x a IH]; [done|]. change (String x (a +:+ "") = String x a). by rewrite IH. Qed.

Lemma join_chunks_app l k : join_chunks (l ++ k) = join_chunks l +:+ join_chunks k.
Proof.
  induction l as [|x l IH]; [done|]. change (x +:+ join_chunks (l ++ k) = (x +:+ join_chunks l) +:+ join_chunks k).
  by rewrite IH, append_assoc.
Qed.

Lemma join_one x : join_chunks [x] = x.
Proof. apply append_nil. Qed.

Lemma is_suffix_refl a : is_suffix a a.
Proof. by exists "". Qed.

Lemma is_suffix_trans a b c : is_suffix a b -> is_suffix b c -> is_suffix a c.
Proof. intros [p ->] [q ->]. exists (q +:+ p). by rewrite append_assoc. Qed.

Lemma is_suffix_app a b d : is_suffix a b -> is_suffix (a +:+ d) (b +:+ d).
Proof. intros [p ->]. exists p. by rewrite append_assoc. Qed.

Lemma is_suffix_nil b : is_suffix "" b.
Proof. exists b. by rewrite append_nil. Qed.

Lemma is_suffix_join dropped l : is_suffix (join_chunks l) (join_chunks (dropped ++ l)).
Proof. rewrite join_chunks_app. by eexists. Qed.

#[export] Hint Resolve is_suffix_refl is_suffix_nil is_suffix_app is_suffix_join : portex.

Section inv.
Variable history_max_bytes_arg : Z.
Variable reconnect_timeout : Z.
Variable uuid4_hex : nat -> string.
Variable utcnow : nat -> Z.
Variable container_name : string -> string -> option string.
Variable history_dir : string -> option string.

Local Abbreviation max_bytes := (history_max_bytes history_max_bytes_arg).
Local Abbreviation append := (append_output_history history_max_bytes_arg).
Local Abbreviation build := (build_history_snapshot history_max_bytes_arg utcnow).
Local Abbreviation persist := (persist history_dir).

(** ** The history bound *)

Definition hist_ok (m : managed) : Prop :=
  md_bytes m = utf8_len (join_chunks (md_chunks m)) /\ (md_bytes m <= max_bytes)%Z.

(** Nothing that fits is dropped. *)
Lemma drop_oldest_least chunks bytes tr :
  bytes = utf8_len (join_chunks chunks) ->
  let '(c, b, t) := drop_oldest history_max_bytes_arg chunks bytes tr in
  b = utf8_len (join_chunks c) /\ (b <= max_bytes)%Z /\
  exists dropped, chunks = dropped ++ c /\ t = tr || negb (bool_decide (dropped = [])) /\
    forall l x, dropped = l ++ [x] -> (max_bytes < utf8_len (join_chunks (x :: c)))%Z.
Proof.
  assert (M : (0 <= max_bytes)%Z) by (unfold history_max_bytes; lia).
  revert bytes tr. induction chunks as [|x l IH]; intros bytes tr ->; cbn [drop_oldest].
  - destruct (Z.ltb_spec max_bytes (utf8_len (join_chunks []))) as [Hlt|Hge].
    { change (utf8_len (join_chunks [])) with 0%Z in Hlt. lia. }
    split; [done|]. split; [done|]. exists []. rewrite orb_false_r. split; [done|]. split; [done|].
    intros [|? ?] y; done.
  - destruct (Z.ltb_spec max_bytes (utf8_len (join_chunks (x :: l)))) as [Hlt|Hge].
    + assert (E : utf8_len (join_chunks (x :: l)) = (utf8_len x + utf8_len (join_chunks l))%Z)
        by (apply utf8_len_app).
      specialize (IH (utf8_len (join_chunks (x :: l)) - utf8_len x)%Z true ltac:(lia)).
      destruct (drop_oldest _ _ _ _) as [[c b] t]. destruct IH as (H1 & H2 & d & -> & -> & H3).
      split; [done|]. split; [done|]. exists (x :: d). split; [done|].
      split; [by rewrite orb_true_r|]. intros [|z k] y; simpl; intros [= -> ->]; [exact Hlt|by eapply H3].
    + split; [done|]. split; [done|]. exists []. rewrite orb_false_r. split; [done|]. split; [done|].
      intros [|? ?] y; done.
Qed.

Lemma append_spec d m :
  hist_ok m ->
  hist_ok (append d m) /\ identity (append d m) = identity m /\
  md_record (append d m) = md_record m /\ md_bridge (append d m) = md_bridge m /\
  md_queue (append d m) = md_queue m /\ md_reconnect (append d m) = md_reconnect m /\
  is_suffix (join_chunks (md_chunks (append d m))) (join_chunks (md_chunks m) +:+ d).
Proof.
  intros [H1 H2]. unfold append_output_history.
  destruct (Z.leb_spec max_bytes 0) as [Hm|Hm]; cbn [orb].
  - split; [|repeat split; apply is_suffix_nil]. split; [done|]. simpl. unfold history_max_bytes. lia.
  - case_bool_decide as Hd.
    { split; [done|]. subst. repeat split. rewrite append_nil. apply is_suffix_refl. }
    destruct (Z.leb_spec (utf8_len d) 0) as [Hz|Hz].
    { exfalso. apply Hd, utf8_len_zero. pose proof (utf8_len_nonneg d). lia. }
    pose proof (drop_oldest_least (md_chunks m ++ [d]) (md_bytes m + utf8_len d)%Z (md_truncated m)) as S.
    destruct (drop_oldest _ _ _ _) as [[c b] t]. destruct S as (S1 & S2 & dr & S3 & _ & _).
    { by rewrite join_chunks_app, utf8_len_app, H1, join_one. }
    assert (0 <= b)%Z by (rewrite S1; apply utf8_len_nonneg).
    destruct (Z.ltb_spec b 0); [lia|]. split; [by split|]. repeat split.
    replace (join_chunks (md_chunks m) +:+ d) with (join_chunks (md_chunks m ++ [d]))
      by (by rewrite join_chunks_app, join_one).
    rewrite S3. apply is_suffix_join.
Qed.

(** ** The invariant *)

Definition from_uuid (n : nat) (id : string) : Prop := exists k, k < n /\ id = uuid4_hex k.

(** The text a callback under way will put into a queue, and where it comes from. *)
Definition kont_put (k : kont) : option (nat * string) :=
  match after_of k with
  | Some (ABridge _ _ _ (Some (q, e))) =>
      if bool_decide (ev_type e = "terminal.output") then Some (q, event_output e) else None
  | _ => None
  end.
Definition kont_src (k : kont) : option (string * option nat) :=
  match after_of k with Some (ABridge i _ b _) => Some (i, b) | _ => None end.

(** The text on its way to the queue [q]. *)
Definition pend (ks : gmap nat kont) (q : nat) (p : string) : Prop :=
  (p = "" /\ forall n k p', ks !! n = Some k -> kont_put k <> Some (q, p')) \/
  (exists n k, ks !! n = Some k /\ kont_put k = Some (q, p)).

(** What was put into the queue, with what is on its way, ends in the history. *)
Definition seen (s : service) (m : managed) (q : nat) : Prop :=
  exists p, pend (sv_konts s) q p /\
    is_suffix (join_chunks (md_chunks m)) (queue_output (default [] (sv_queues s !! q)) +:+ p).

(** The bridge of the session was told to close. *)
Definition closing (s : service) (m : managed) : Prop :=
  exists b, md_bridge m = Some b /\ (b, BClose) ∈ sv_calls s.

(** Snapshots kept for later belong to sessions of this service, and only
    callbacks for output put output. *)
Definition kont_ok (n : nat) (k : kont) : Prop :=
  match k with
  | KAttach _ snap _ _ | KClose snap _ | KPersist snap _ => from_uuid n (hs_session_id snap)
  | _ => True
  end /\
  (is_Some (kont_put k) -> exists i b e, after_of k = Some (ABridge i "output" b e)) /\
  match k with KClose _ a => kont_put k = None | _ => True end.

Record sess_inv (s : service) : Prop := {
  si_next : forall o m, sv_heap s !! o = Some m -> o < sv_next s;
  si_wf : od_wf (sv_by_group s);
  si_group : forall g o, by_group g s = Some o ->
    exists m, sv_heap s !! o = Some m /\ folder m = g /\ sv_by_id s !! sid m = Some o;
  si_id : forall i o, sv_by_id s !! i = Some o ->
    exists m, sv_heap s !! o = Some m /\ sid m = i /\ by_group (folder m) s = Some o;
  si_uuid : forall o m, sv_heap s !! o = Some m -> from_uuid (sv_uuids s) (sid m);
  si_disk : forall d snap, sv_latest s !! d = Some snap -> from_uuid (sv_uuids s) (hs_session_id snap);
  si_hist : forall o m, sv_heap s !! o = Some m -> hist_ok m;
  si_queue : forall o m q, sv_heap s !! o = Some m -> md_queue m = Some q ->
    q < sv_next s /\ (closing s m \/ seen s m q);
  si_queue_inj : forall o o' m m' q, sv_heap s !! o = Some m -> sv_heap s !! o' = Some m' ->
    md_queue m = Some q -> md_queue m' = Some q -> o = o';
  si_pend : forall n k q p, sv_konts s !! n = Some k -> kont_put k = Some (q, p) ->
    q < sv_next s /\
    forall o m, sv_heap s !! o = Some m -> md_queue m = Some q -> kont_src k = Some (sid m, md_bridge m);
  si_pend_inj : forall n n' k k' q p p', sv_konts s !! n = Some k -> sv_konts s !! n' = Some k' ->
    kont_put k = Some (q, p) -> kont_put k' = Some (q, p') -> n = n';
  si_deadline : forall o m d, sv_heap s !! o = Some m ->
    ts_reconnect_deadline (md_record m) = Some d -> ts_status (md_record m) = TsDetached;
  si_timer : forall o m d, sv_heap s !! o = Some m -> sv_by_id s !! sid m = Some o ->
    ts_reconnect_deadline (md_record m) = Some d ->
    exists t, md_reconnect m = Some t /\ sv_tasks s !! t = Some (mkTask (sid m) d TkSleeping);
  si_reconnect : forall o m t, sv_heap s !! o = Some m -> md_reconnect m = Some t ->
    exists x, sv_tasks s !! t = Some x /\ xt_session x = sid m;
  si_task_next : forall t x, sv_tasks s !! t = Some x -> t < sv_next s;
  si_kont : forall n k, sv_konts s !! n = Some k -> n < sv_next s /\ kont_ok (sv_uuids s) k
}.

(** The part of the state the invariant speaks of. *)
Definition core (s : service) :=
  (sv_heap s, sv_by_group s, sv_by_id s, sv_queues s, sv_tasks s, sv_latest s, sv_next s,
   sv_uuids s, sv_konts s, sv_calls s).

Lemma inv_ext s s' : core s = core s' -> sess_inv s -> sess_inv s'.
Proof.
  unfold core. intros [= E1 E2 E3 E4 E5 E6 E7 E8 E9 E10] [].
  split; unfold by_group, seen, closing in *;
    rewrite <- ?E1, <- ?E2, <- ?E3, <- ?E4, <- ?E5, <- ?E6, <- ?E7, <- ?E8, <- ?E9, <- ?E10; assumption.
Qed.

Lemma inv_init : sess_inv init_service.
Proof.
  split; unfold by_group; simpl; intros *; rewrite ?lookup_empty; try done. constructor.
Qed.

Lemma inv_next n s : sv_next s <= n -> sess_inv s -> sess_inv (with_next n s).
Proof.
  intros Hn []. split; simpl; try assumption.
  - intros o m H. specialize (si_next0 _ _ H). lia.
  - intros o m q H1 H2. destruct (si_queue0 _ _ _ H1 H2). split; [lia|done].
  - intros n' k q p H1 H2. destruct (si_pend0 _ _ _ _ H1 H2). split; [lia|done].
  - intros t x H. specialize (si_task_next0 _ _ H). lia.
  - intros n' k H. destruct (si_kont0 _ _ H). split; [lia|done].
Qed.

Lemma inv_uuids n s : sv_uuids s <= n -> sess_inv s -> sess_inv (with_uuids n s).
Proof.
  intros Hn []. assert (W : forall i, from_uuid (sv_uuids s) i -> from_uuid n i).
  { intros i (k & H1 & H2). exists k. split; [lia|done]. }
  split; simpl; try assumption; eauto.
  intros n' k H. destruct (si_kont0 _ _ H) as (K1 & K2 & K3). split; [done|]. split; [|done].
  destruct k; eauto.
Qed.

Lemma inv_calls b c s : sess_inv s -> sess_inv (call_bridge b c s).
Proof.
  intros []. split; simpl; try assumption. intros o m q H1 H2.
  destruct (si_queue0 _ _ _ H1 H2) as [H3 [(b' & C1 & C2)|H4]]; split; [done| |done|by right].
  left. exists b'. split; [done|]. simpl. apply elem_of_app. by left.
Qed.

Lemma inv_latest d snap s :
  sess_inv s -> from_uuid (sv_uuids s) (hs_session_id snap) ->
  sess_inv (with_latest (<[d := snap]> (sv_latest s)) s).
Proof.
  intros [] Hs. split; simpl; try assumption.
  intros d' snap'. rewrite lookup_insert. case_decide; [by intros [= <-]|apply si_disk0].
Qed.

Lemma inv_persist snap s :
  sess_inv s -> from_uuid (sv_uuids s) (hs_session_id snap) -> sess_inv (persist snap s).
Proof.
  intros I Hs. unfold TerminalSessions.persist. destruct (history_dir _) as [d|]; [|done].
  pose proof (inv_latest d snap s I Hs) as I1. destruct (archive_status _); [|done].
  destruct (archive_path _ _ _); [|done]. by eapply inv_ext; [|exact I1].
Qed.

(** No session and no callback has the queue [q]. *)
Definition unused (s : service) (q : nat) : Prop :=
  (forall o m, sv_heap s !! o = Some m -> md_queue m <> Some q) /\
  (forall n k p, sv_konts s !! n = Some k -> kont_put k <> Some (q, p)).

(** The queue of [m'], which replaces [m]: that of [m], or a new one, below [n]. *)
Definition queue_cond (s : service) (m m' : managed) (n : nat) : Prop :=
  forall q, md_queue m' = Some q ->
    q < n /\ (closing s m' \/ seen s m' q) /\
    ((md_queue m = Some q /\ md_bridge m' = md_bridge m) \/ unused s q).

Lemma unused_from s q : sess_inv s -> sv_next s <= q -> unused s q.
Proof.
  intros [] Hq. split.
  - intros o m H1 H2. destruct (si_queue0 _ _ _ H1 H2). lia.
  - intros n k p H1 H2. destruct (si_pend0 _ _ _ _ H1 H2). lia.
Qed.

(** Replacing a managed session by another of the same identity, while its
    reconnect task may change. *)
Lemma inv_replace o m m' ts n s :
  sess_inv s -> sv_heap s !! o = Some m -> identity m' = identity m -> hist_ok m' ->
  sv_next s <= n -> (sv_by_id s !! sid m = Some o \/ sv_by_id s !! sid m = None) ->
  queue_cond s m m' n ->
  (forall d, ts_reconnect_deadline (md_record m') = Some d ->
     ts_status (md_record m') = TsDetached /\
     exists t, md_reconnect m' = Some t /\ ts !! t = Some (mkTask (sid m) d TkSleeping)) ->
  (forall t, md_reconnect m' = Some t -> exists x, ts !! t = Some x /\ xt_session x = sid m) ->
  (forall t x, ts !! t = Some x -> t < n) ->
  (forall t x, sv_tasks s !! t = Some x -> exists y, ts !! t = Some y /\ xt_session y = xt_session x) ->
  (forall t x, sv_tasks s !! t = Some x -> xt_session x <> sid m -> ts !! t = Some x) ->
  sess_inv (with_next n (with_tasks ts (set_managed o m' s))).
Proof.
  intros [] Hm Hid Hh Hn Hreg Hq Hd Hr Ht1 Ht2 Ht3.
  assert (Hsid : sid m' = sid m) by (by injection Hid). assert (Hf : folder m' = folder m) by (by injection Hid).
  split; simpl; try assumption.
  - intros o' x. rewrite lookup_insert. case_decide; [subst; intros _; specialize (si_next0 _ _ Hm); lia|].
    intros Hx. specialize (si_next0 _ _ Hx). lia.
  - intros g o' Hg. destruct (si_group0 g o' Hg) as (x & H1 & H2 & H3). rewrite lookup_insert.
    case_decide as D; [subst|by exists x]. exists m'.
    assert (x = m) as -> by congruence. rewrite Hf, Hsid. done.
  - intros i o' Hi. destruct (si_id0 i o' Hi) as (x & H1 & H2 & H3). rewrite lookup_insert.
    case_decide as D; [subst o'|by exists x]. exists m'.
    assert (x = m) as -> by congruence. split; [done|]. split; [by rewrite Hsid|].
    rewrite Hf. exact H3.
  - intros o' x. rewrite lookup_insert. case_decide; [|apply si_uuid0].
    intros [= <-]. rewrite Hsid. by eapply si_uuid0.
  - intros o' x. rewrite lookup_insert. case_decide; [by intros [= <-]|apply si_hist0].
  - intros o' x q. rewrite lookup_insert. case_decide.
    + intros [= <-] Hx. by destruct (Hq q Hx) as (? & ? & _).
    + intros G1 G2. destruct (si_queue0 _ _ _ G1 G2). split; [lia|done].
  - intros o1 o2 m1 m2 q. rewrite !lookup_insert. repeat case_decide; subst; try done.
    + intros [= <-] G2 G3 G4. destruct (Hq q G3) as (_ & _ & [[G5 _]|[G5 _]]); [|by destruct (G5 _ _ G2)].
      by eapply si_queue_inj0.
    + intros G1 [= <-] G3 G4. destruct (Hq q G4) as (_ & _ & [[G5 _]|[G5 _]]); [|by destruct (G5 _ _ G1)].
      by eapply si_queue_inj0.
    + apply si_queue_inj0.
  - intros k0 k q p G1 G2. destruct (si_pend0 _ _ _ _ G1 G2) as [G3 G4]. split; [lia|].
    intros o' x. rewrite lookup_insert. case_decide; [|apply G4]. intros [= <-] Hx.
    destruct (Hq q Hx) as (_ & _ & [[G5 G6]|[_ G5]]); [|by destruct (G5 _ _ _ G1 G2)].
    rewrite Hsid, G6. by apply (G4 o).
  - intros o' x d. rewrite lookup_insert. case_decide; [|apply si_deadline0].
    intros [= <-] Hx. by destruct (Hd d Hx).
  - intros o' x d. rewrite lookup_insert. case_decide as D.
    + intros [= <-]. rewrite Hsid. intros G1 G2. destruct (Hd d G2) as [_ G3]. done.
    + intros G1 G2 G3. destruct (si_timer0 _ _ _ G1 G2 G3) as (t & T1 & T2). exists t.
      split; [done|]. apply Ht3; [done|]. simpl. intros E. rewrite E in G2.
      destruct Hreg; congruence.
  - intros o' x t. rewrite lookup_insert. case_decide.
    + intros [= <-]. rewrite Hsid. apply Hr.
    + intros G1 G2. destruct (si_reconnect0 _ _ _ G1 G2) as (y & Y1 & Y2).
      destruct (Ht2 _ _ Y1) as (z & Z1 & Z2). exists z. split; [done|congruence].
  - intros k0 k G. destruct (si_kont0 _ _ G). split; [lia|done].
Qed.

Lemma queue_output_app l e : queue_output (l ++ [e]) = queue_output l +:+ event_output e.
Proof. unfold queue_output. rewrite fmap_app, join_chunks_app. f_equal. apply join_one. Qed.

(** An event without output is put into a queue. *)
Lemma inv_put q e s : sess_inv s -> event_output e = "" -> sess_inv (put_event q e s).
Proof.
  intros [] He. split; simpl; try assumption.
  intros o' m' q' H1 H2. destruct (si_queue0 _ _ _ H1 H2) as [G1 G2]. split; [done|].
  destruct G2 as [G2|(p & P1 & P2)]; [by left|]. right. exists p. split; [done|].
  simpl. rewrite lookup_insert. case_decide; [subst|done]. simpl.
  by rewrite queue_output_app, He, append_nil.
Qed.

(** ** Pieces of the operations *)

Lemma build_core m s : core (build m s).2 = core s.
Proof. done. Qed.

Lemma build_sid m s : hs_session_id (build m s).1 = sid m.
Proof. done. Qed.

(** What cancelling the reconnect task of a session does to the tasks. *)
Definition cancelled_in (t : option nat) (ts : gmap nat expire_task) : gmap nat expire_task :=
  match t with
  | None => ts
  | Some t =>
      match ts !! t with
      | Some x => match xt_state x with
                  | TkSleeping | TkClosing =>
                      <[t := mkTask (xt_session x) (xt_deadline x) TkCancelled]> ts
                  | _ => ts
                  end
      | None => ts
      end
  end.

Lemma cancel_task_eq t s : cancel_task t s = with_tasks (cancelled_in t (sv_tasks s)) s.
Proof.
  unfold cancel_task, cancelled_in. assert (s = with_tasks (sv_tasks s) s) by (by destruct s).
  destruct t as [t|]; [|done]. destruct (sv_tasks s !! t) as [x|]; [|done]. by destruct (xt_state x).
Qed.

(** [ts] is [ts0] but for the state of the task [t]. *)
Definition task_changed (t : option nat) (ts0 ts : gmap nat expire_task) : Prop :=
  (forall t' x, ts !! t' = Some x -> is_Some (ts0 !! t')) /\
  (forall t' x, ts0 !! t' = Some x -> exists y, ts !! t' = Some y /\ xt_session y = xt_session x) /\
  (forall t' x, ts0 !! t' = Some x -> t <> Some t' -> ts !! t' = Some x).

Lemma task_changed_refl t ts : task_changed t ts ts.
Proof. unfold task_changed. eauto 10. Qed.

Lemma task_changed_insert t x y ts :
  ts !! t = Some x -> xt_session y = xt_session x -> task_changed (Some t) ts (<[t := y]> ts).
Proof.
  intros E Hs. split; [|split]; intros t' z; rewrite ?lookup_insert.
  - case_decide; [subst; intros _; rewrite E; by eexists|by eexists].
  - case_decide; [subst|by eauto]. intros H. rewrite E in H. injection H as <-. by eexists.
  - intros H Hne. case_decide; [congruence|done].
Qed.

Lemma cancelled_in_spec t ts : task_changed t ts (cancelled_in t ts).
Proof.
  unfold cancelled_in. destruct t as [t|]; [|apply task_changed_refl].
  destruct (ts !! t) as [x|] eqn:E; [|apply task_changed_refl].
  destruct (xt_state x); auto using task_changed_refl; by eapply task_changed_insert.
Qed.

(** An operation that cancels the reconnect task of a registered session and
    leaves it without a deadline. *)
Lemma inv_cancelled o m m' s n :
  sess_inv s -> sv_heap s !! o = Some m ->
  (sv_by_id s !! sid m = Some o \/ sv_by_id s !! sid m = None) -> sv_next s <= n ->
  identity m' = identity m -> hist_ok m' -> md_reconnect m' = None ->
  ts_reconnect_deadline (md_record m') = None ->
  queue_cond s m m' n ->
  sess_inv (with_next n (with_tasks (cancelled_in (md_reconnect m) (sv_tasks s)) (set_managed o m' s))).
Proof.
  intros I Hm Hreg Hn Hid Hh Hr Hd Hq.
  destruct (cancelled_in_spec (md_reconnect m) (sv_tasks s)) as (T1 & T2 & T3).
  apply (inv_replace o m); try done.
  - intros d. by rewrite Hd.
  - intros t. by rewrite Hr.
  - intros t x [y Hy]%T1. apply (si_task_next s I) in Hy. lia.
  - intros t x Hx Hne. apply T3; [done|]. intros Ht.
    destruct (si_reconnect s I _ _ _ Hm Ht) as (y & Y1 & Y2). congruence.
Qed.

(** An operation that keeps deadline and reconnect task. *)
Lemma inv_kept o m m' s :
  sess_inv s -> sv_heap s !! o = Some m -> sv_by_id s !! sid m = Some o ->
  identity m' = identity m -> hist_ok m' -> md_reconnect m' = md_reconnect m ->
  (ts_reconnect_deadline (md_record m') = None \/ md_record m' = md_record m) ->
  queue_cond s m m' (sv_next s) ->
  sess_inv (set_managed o m' s).
Proof.
  intros I Hm Hreg Hid Hh Hr Hd Hq.
  apply (inv_ext (with_next (sv_next s) (with_tasks (sv_tasks s) (set_managed o m' s)))); [done|].
  apply (inv_replace o m); try done; eauto.
  - intros d Hx. destruct Hd as [Hd|Hd]; [congruence|]. rewrite Hd in Hx |- *.
    split; [exact (si_deadline s I o m d Hm Hx)|]. rewrite Hr. exact (si_timer s I o m d Hm Hreg Hx).
  - intros t Ht. rewrite Hr in Ht. exact (si_reconnect s I o m t Hm Ht).
  - apply (si_task_next s I).
Qed.

Lemma require_owned_ok i u s o m :
  sess_inv s -> require_owned i u s = Ok (o, m) ->
  sv_heap s !! o = Some m /\ sv_by_id s !! sid m = Some o /\ sid m = i /\
  ts_owner_user_id (md_record m) = u.
Proof.
  intros I. unfold require_owned, id_session.
  destruct (sv_by_id s !! i) as [o'|] eqn:E; simpl; [|done].
  destruct (si_id s I _ _ E) as (x & X1 & X2 & X3). rewrite X1. simpl.
  case_bool_decide; [|done]. intros [= <- <-]. by rewrite X2.
Qed.

Lemma id_session_ok i s o m :
  sess_inv s -> id_session i s = Some (o, m) ->
  sv_heap s !! o = Some m /\ sv_by_id s !! sid m = Some o /\ sid m = i.
Proof.
  intros I. unfold id_session.
  destruct (sv_by_id s !! i) as [o'|] eqn:E; simpl; [|done].
  destruct (si_id s I _ _ E) as (x & X1 & X2 & X3). rewrite X1. simpl.
  intros [= <- <-]. by rewrite X2.
Qed.

Lemma group_session_ok g s o m :
  sess_inv s -> group_session g s = Some (o, m) ->
  sv_heap s !! o = Some m /\ sv_by_id s !! sid m = Some o /\ folder m = g.
Proof.
  intros I. unfold group_session.
  destruct (by_group g s) as [o'|] eqn:E; simpl; [|done].
  destruct (si_group s I _ _ E) as (x & X1 & X2 & X3). rewrite X1. simpl.
  by intros [= <- <-].
Qed.

Lemma group_session_none g s : sess_inv s -> group_session g s = None -> by_group g s = None.
Proof.
  intros I. unfold group_session. destruct (by_group g s) as [o'|] eqn:E; simpl; [|done].
  destruct (si_group s I _ _ E) as (x & X1 & _). by rewrite X1.
Qed.

(** The queue condition when the queue is kept or dropped. *)
Lemma queue_kept o m m' s :
  sess_inv s -> sv_heap s !! o = Some m -> md_chunks m' = md_chunks m ->
  (md_queue m' = md_queue m /\ md_bridge m' = md_bridge m \/ md_queue m' = None) ->
  queue_cond s m m' (sv_next s).
Proof.
  intros I Hm Hc Hq q H. destruct Hq as [[Hq Hb]|Hq]; [|congruence]. rewrite Hq in H.
  destruct (si_queue s I _ _ _ Hm H) as [H1 H2]. unfold closing, seen in *. rewrite Hc, Hb. auto.
Qed.

Lemma inv_persist_built m s :
  sess_inv s -> from_uuid (sv_uuids s) (sid m) -> sess_inv (persist (build m s).1 (build m s).2).
Proof. intros I H. apply inv_persist; [by eapply inv_ext; [|exact I]|done]. Qed.

(** ** Suspending and resuming *)

Lemma pend_insert ks n k q p :
  ks !! n = None -> (forall p', kont_put k <> Some (q, p')) -> pend ks q p ->
  pend (<[n := k]> ks) q p.
Proof.
  intros Hn Hk [[-> H]|(n' & k' & H1 & H2)].
  - left. split; [done|]. intros n' k' p'. rewrite lookup_insert. case_decide; [|apply H].
    intros [= <-]. apply Hk.
  - right. exists n', k'. rewrite lookup_insert_ne; [done|]. congruence.
Qed.

(** A suspension that is no callback for output. *)
Lemma inv_suspend k s :
  sess_inv s -> kont_ok (sv_uuids s) k -> kont_put k = None ->
  sess_inv (with_next (S (sv_next s)) (with_konts (<[sv_next s := k]> (sv_konts s)) s)).
Proof.
  intros I Hk Hp. assert (Hn : sv_konts s !! sv_next s = None).
  { apply eq_None_not_Some. intros [k' H]. apply (si_kont s I) in H. lia. }
  apply (inv_next (S (sv_next s))) in I; [|lia]. destruct I. split; simpl in *; try assumption.
  - intros o m q H1 H2. destruct (si_queue0 _ _ _ H1 H2) as [H3 [H4|(p & P1 & P2)]]; split;
      [done|by left|done|right]. exists p. split; [|done]. apply pend_insert; [done|by rewrite Hp|done].
  - intros n k' q p. rewrite lookup_insert. case_decide; [intros [= <-]; congruence|].
    by apply si_pend0.
  - intros n n' k1 k2 q p p'. rewrite !lookup_insert. do 2 case_decide; try congruence.
    by apply si_pend_inj0.
  - intros n k'. rewrite lookup_insert. case_decide; [intros [= <-]; subst; split; [lia|done]|].
    apply si_kont0.
Qed.

(** The callback for output that will put [d] into [q]. *)
Lemma inv_suspend_put k q d s :
  sess_inv s -> kont_ok (sv_uuids s) k -> kont_put k = Some (q, d) -> q < sv_next s ->
  (forall n k' p, sv_konts s !! n = Some k' -> kont_put k' <> Some (q, p)) ->
  (forall o m, sv_heap s !! o = Some m -> md_queue m = Some q ->
     kont_src k = Some (sid m, md_bridge m) /\ md_chunks m = []) ->
  sess_inv (with_next (S (sv_next s)) (with_konts (<[sv_next s := k]> (sv_konts s)) s)).
Proof.
  intros I Hk Hp Hq Hn Hs. assert (Hf : sv_konts s !! sv_next s = None).
  { apply eq_None_not_Some. intros [k' H]. apply (si_kont s I) in H. lia. }
  apply (inv_next (S (sv_next s))) in I; [|lia]. destruct I. split; simpl in *; try assumption.
  - intros o m q' H1 H2. destruct (si_queue0 _ _ _ H1 H2) as [H3 H4]. split; [done|].
    destruct (decide (q' = q)) as [->|Hne].
    + right. exists d. split; [|by rewrite (proj2 (Hs _ _ H1 H2)); apply is_suffix_nil].
      right. exists (sv_next s), k. simpl. by rewrite lookup_insert_eq.
    + destruct H4 as [H4|(p & P1 & P2)]; [by left|right]. exists p. split; [|done].
      apply pend_insert; [done|congruence|done].
  - intros n k' q' p. rewrite lookup_insert. case_decide; [|by apply si_pend0].
    intros [= <-] E. assert (q' = q) as -> by congruence. split; [lia|].
    intros o m H1 H2. by destruct (Hs _ _ H1 H2).
  - intros n n' k1 k2 q' p p'. rewrite !lookup_insert. do 2 case_decide; try congruence.
    + intros [= <-] G1 G2 G3. destruct (Hn _ _ p' G1). congruence.
    + intros G1 [= <-] G2 G3. destruct (Hn _ _ p G1). congruence.
    + by apply si_pend_inj0.
  - intros n k'. rewrite lookup_insert. case_decide; [intros [= <-]; subst; split; [lia|done]|].
    apply si_kont0.
Qed.

Lemma inv_await b c k s :
  sess_inv s -> kont_ok (sv_uuids s) k -> kont_put k = None -> sess_inv (await_call b c k s).2.
Proof.
  intros I Hk Hp. apply (inv_calls b c) in I.
  eapply inv_ext; [|exact (inv_suspend k _ I Hk Hp)]. done.
Qed.

Lemma inv_await_persist snap a s :
  sess_inv s -> from_uuid (sv_uuids s) (hs_session_id snap) -> kont_put (KAfter a) = None ->
  sess_inv (await_persist snap a s).2.
Proof.
  intros I Hk Hp. eapply inv_ext; [|apply (inv_suspend (KPersist snap a) s I); [|exact Hp]]; [done|].
  split; [done|]. split; [|done]. change (kont_put (KPersist snap a)) with (kont_put (KAfter a)).
  rewrite Hp. by intros [].
Qed.

(** A continuation that puts nothing goes; one changes without changing what it
    will put. *)
Lemma inv_resumed n k s :
  sess_inv s -> sv_konts s !! n = Some k -> kont_put k = None ->
  sess_inv (with_konts (delete n (sv_konts s)) s).
Proof.
  intros [] Hn Hk. split; simpl; try assumption.
  - intros o m q H1 H2. destruct (si_queue0 _ _ _ H1 H2) as [H3 [H4|(p & P1 & P2)]]; split;
      [done|by left|done|right]. exists p. split; [|done].
    destruct P1 as [[-> H]|(n' & k' & G1 & G2)].
    + left. split; [done|]. simpl. intros n' k' p' [_ G]%lookup_delete_Some. exact (H _ _ _ G).
    + right. exists n', k'. simpl. rewrite lookup_delete_ne; [done|]. congruence.
  - intros n' k' q p [_ G]%lookup_delete_Some. exact (si_pend0 _ _ _ _ G).
  - intros n1 n2 k1 k2 q p p' [_ G1]%lookup_delete_Some [_ G2]%lookup_delete_Some.
    exact (si_pend_inj0 _ _ _ _ _ _ _ G1 G2).
  - intros n' k' [_ G]%lookup_delete_Some. exact (si_kont0 _ _ G).
Qed.

Lemma inv_written n snap a s :
  sess_inv s -> sv_konts s !! n = Some (KPersist snap a) ->
  sess_inv (with_konts (<[n := KAfter a]> (sv_konts s)) s).
Proof.
  intros [] Hn. set (k := KAfter a). assert (Hk : kont_put k = kont_put (KPersist snap a)) by done.
  assert (L : forall n' k', <[n := k]> (sv_konts s) !! n' = Some k' ->
    exists k0, sv_konts s !! n' = Some k0 /\ kont_put k' = kont_put k0 /\ kont_src k' = kont_src k0).
  { intros n' k'. rewrite lookup_insert. case_decide; [subst|by eauto]. intros [= <-]. by eexists. }
  split; simpl; try assumption.
  - intros o m q H1 H2. destruct (si_queue0 _ _ _ H1 H2) as [H3 [H4|(p & P1 & P2)]]; split;
      [done|by left|done|right]. exists p. split; [|done].
    destruct P1 as [[-> H]|(n' & k' & G1 & G2)].
    + left. split; [done|]. simpl. intros n' k' p' (k0 & G1 & -> & _)%L. exact (H _ _ _ G1).
    + right. destruct (decide (n = n')) as [<-|].
      * exists n, k. simpl. rewrite lookup_insert_eq. split; [done|]. congruence.
      * exists n', k'. simpl. by rewrite lookup_insert_ne.
  - intros n' k' q p (k0 & G1 & -> & ->)%L. exact (si_pend0 _ _ _ _ G1).
  - intros n1 n2 k1 k2 q p p' (k3 & G1 & -> & _)%L (k4 & G2 & -> & _)%L.
    exact (si_pend_inj0 _ _ _ _ _ _ _ G1 G2).
  - intros n' k'. rewrite lookup_insert. case_decide; [subst|apply si_kont0].
    intros [= <-]. destruct (si_kont0 _ _ Hn) as [K1 (_ & K2 & _)]. split; [done|].
    split; [done|]. split; [exact K2|done].
Qed.

(** It puts it; or it is cancelled, because its bridge was told to close. *)
Lemma inv_put_output n a i kind b q e s :
  sess_inv s -> sv_konts s !! n = Some (KAfter a) -> a = ABridge i kind b (Some (q, e)) ->
  sess_inv (put_event q e (with_konts (delete n (sv_konts s)) s)).
Proof.
  intros I Hn ->. destruct (bool_decide (ev_type e = "terminal.output")) eqn:Ee.
  2:{ apply inv_put; [|unfold event_output; by rewrite Ee].
      eapply inv_resumed; [done|done|]. unfold kont_put; simpl. by rewrite Ee. }
  assert (Hp : kont_put (KAfter (ABridge i kind b (Some (q, e)))) = Some (q, event_output e))
    by (unfold kont_put; simpl; by rewrite Ee).
  destruct I. split; simpl; try assumption.
  - intros o m q' H1 H2. destruct (si_queue0 _ _ _ H1 H2) as [H3 [H4|(p & P1 & P2)]];
      split; [done|by left|done|right]. destruct (decide (q' = q)) as [->|Hne].
    + exists "". split; simpl.
      * left. split; [done|]. intros n' k' p' [G1 G2]%lookup_delete_Some G3.
        apply G1. exact (si_pend_inj0 _ _ _ _ _ _ _ Hn G2 Hp G3).
      * rewrite lookup_insert_eq, append_nil. simpl. rewrite queue_output_app.
        destruct P1 as [[_ P1]|(n' & k' & G1 & G2)]; [by destruct (P1 _ _ _ Hn Hp)|].
        assert (n = n') as <- by exact (si_pend_inj0 _ _ _ _ _ _ _ Hn G1 Hp G2). congruence.
    + exists p. simpl. rewrite lookup_insert_ne by done. split; [|done].
      destruct P1 as [[-> P1]|(n' & k' & G1 & G2)].
      * left. split; [done|]. intros n' k' p' [_ G]%lookup_delete_Some. exact (P1 _ _ _ G).
      * right. exists n', k'. rewrite lookup_delete_ne; [done|]. intros ->. congruence.
  - intros n' k' q' p [_ G]%lookup_delete_Some. exact (si_pend0 _ _ _ _ G).
  - intros n1 n2 k1 k2 q' p p' [_ G1]%lookup_delete_Some [_ G2]%lookup_delete_Some.
    exact (si_pend_inj0 _ _ _ _ _ _ _ G1 G2).
  - intros n' k' [_ G]%lookup_delete_Some. exact (si_kont0 _ _ G).
Qed.

Lemma inv_cancel_put n k k' i b s :
  sess_inv s -> sv_konts s !! n = Some k -> kont_src k = Some (i, Some b) ->
  (b, BClose) ∈ sv_calls s -> kont_put k' = None -> kont_ok (sv_uuids s) k' ->
  sess_inv (with_konts (<[n := k']> (sv_konts s)) s).
Proof.
  intros [] Hn Hs Hb Hp Hk. split; simpl; try assumption.
  - intros o m q H1 H2. destruct (si_queue0 _ _ _ H1 H2) as [H3 [H4|(p & P1 & P2)]];
      split; [done|by left|done|].
    assert ((exists p', kont_put k = Some (q, p')) \/ forall p', kont_put k <> Some (q, p')) as [[p' E]|Hno].
    { destruct (kont_put k) as [[q0 p0]|]; [|by right]. destruct (decide (q0 = q)) as [->|];
        [left; by eexists|right; congruence]. }
    { left. destruct (si_pend0 _ _ _ _ Hn E) as [_ G]. specialize (G _ _ H1 H2).
      exists b. split; [congruence|done]. }
    right. exists p. split; [|done]. destruct P1 as [[-> P1]|(n' & k0 & G1 & G2)].
    + left. split; [done|]. simpl. intros n' k0 p'. rewrite lookup_insert.
      case_decide; [intros [= <-]; congruence|apply P1].
    + right. exists n', k0. simpl. rewrite lookup_insert_ne; [done|]. intros ->. apply (Hno p).
      congruence.
  - intros n' k0 q p. rewrite lookup_insert. case_decide; [intros [= <-]; congruence|apply si_pend0].
  - intros n1 n2 k1 k2 q p p'. rewrite !lookup_insert. do 2 case_decide; try congruence.
    by apply si_pend_inj0.
  - intros n' k0. rewrite lookup_insert. case_decide; [|apply si_kont0].
    intros [= <-]. subst. split; [|done]. by destruct (si_kont0 _ _ Hn).
Qed.

(** A new queue. *)
Lemma inv_new_queue l s :
  sess_inv s -> sess_inv (with_queues (<[sv_next s := l]> (sv_queues s)) s).
Proof.
  intros []. split; simpl; try assumption. intros o m q H1 H2.
  destruct (si_queue0 _ _ _ H1 H2) as [H3 [H4|(p & P1 & P2)]]; split; [done|by left|done|right].
  exists p. split; [done|]. simpl. rewrite lookup_insert_ne by lia. done.
Qed.

Lemma queue_output_replay l : queue_output ((fun c => output_event (Some c)) <$> l) = join_chunks l.
Proof.
  unfold queue_output. induction l as [|c l IH]; [done|]. rewrite !fmap_cons.
  change (event_output (output_event (Some c)) +:+
    join_chunks (event_output <$> ((fun c => output_event (Some c)) <$> l)) = c +:+ join_chunks l).
  by rewrite IH.
Qed.

(** A task that is no registered session's timer goes on. *)
Lemma inv_task_state t x st s :
  sess_inv s -> sv_tasks s !! t = Some x ->
  (forall o m d, sv_heap s !! o = Some m -> sv_by_id s !! sid m = Some o ->
     ts_reconnect_deadline (md_record m) = Some d -> x <> mkTask (sid m) d TkSleeping) ->
  sess_inv (with_tasks (<[t := mkTask (xt_session x) (xt_deadline x) st]> (sv_tasks s)) s).
Proof.
  intros [] Hx H. split; simpl; try assumption.
  - intros o m d H1 H2 H3. destruct (si_timer0 _ _ _ H1 H2 H3) as (t' & T1 & T2).
    exists t'. split; [done|]. rewrite lookup_insert_ne; [done|]. intros ->.
    assert (x = mkTask (sid m) d TkSleeping) by congruence. by eapply H.
  - intros o m t' H1 H2. destruct (si_reconnect0 _ _ _ H1 H2) as (y & Y1 & Y2).
    rewrite lookup_insert. case_decide; [|eauto]. subst. eexists. split; [done|]. simpl. congruence.
  - intros t' y. rewrite lookup_insert. case_decide; [|apply si_task_next0]. subst.
    intros _. by eapply si_task_next0.
Qed.

(** A session enters the service. *)
Lemma inv_new_session m s :
  let o := sv_next s in
  sess_inv s -> from_uuid (sv_uuids s) (sid m) -> sv_by_id s !! sid m = None ->
  by_group (folder m) s = None -> hist_ok m -> md_queue m = None -> md_reconnect m = None ->
  ts_reconnect_deadline (md_record m) = None ->
  sess_inv (with_by_id (<[sid m := o]> (sv_by_id s))
    (with_by_group (od_set (folder m) o (sv_by_group s)) (set_managed o m (with_next (S o) s)))).
Proof.
  intros o [] Hu Hi Hg Hh Hq Hr Hd.
  assert (Hfresh : sv_heap s !! o = None).
  { apply eq_None_not_Some. intros [x H]. specialize (si_next0 _ _ H). unfold o in H. lia. }
  assert (Ne : forall o' x, sv_heap s !! o' = Some x -> o <> o') by congruence.
  split; simpl; try assumption.
  - intros o' x. rewrite lookup_insert. case_decide; [unfold o in *; lia|].
    intros Hx. specialize (si_next0 _ _ Hx). unfold o. lia.
  - by apply od_wf_set.
  - intros g o'. unfold by_group; simpl. rewrite od_get_set. case_decide as D.
    + intros [= <-]. exists m. rewrite !lookup_insert_eq. done.
    + intros Hx. destruct (si_group0 g o' Hx) as (x & H1 & H2 & H3). exists x.
      rewrite lookup_insert_ne by eauto. split; [done|]. split; [done|].
      rewrite lookup_insert_ne; [done|]. intros E. congruence.
  - intros i o'. rewrite lookup_insert. case_decide as D.
    + intros [= <-]. exists m. rewrite lookup_insert_eq. unfold by_group; simpl.
      by rewrite od_get_set_eq.
    + intros Hx. destruct (si_id0 i o' Hx) as (x & H1 & H2 & H3). exists x.
      rewrite lookup_insert_ne by eauto. split; [done|]. split; [done|].
      unfold by_group in *; simpl. rewrite od_get_set_ne; [done|]. intros E. congruence.
  - intros o' x. rewrite lookup_insert. case_decide; [by intros [= <-]|apply si_uuid0].
  - intros o' x. rewrite lookup_insert. case_decide; [by intros [= <-]|apply si_hist0].
  - intros o' x q. rewrite lookup_insert. case_decide; [intros [= <-]; congruence|].
    intros H1 H2. destruct (si_queue0 _ _ _ H1 H2). split; [unfold o; lia|done].
  - intros o1 o2 m1 m2 q. rewrite !lookup_insert. repeat case_decide; subst; try done.
    + intros [= <-]. congruence.
    + intros ? [= <-]. congruence.
    + apply si_queue_inj0.
  - intros k0 k q p G1 G2. destruct (si_pend0 _ _ _ _ G1 G2) as [G3 G4]. split; [unfold o; lia|].
    intros o' x. rewrite lookup_insert. case_decide; [intros [= <-]; congruence|apply G4].
  - intros o' x d. rewrite lookup_insert. case_decide; [intros [= <-]; congruence|apply si_deadline0].
  - intros o' x d. rewrite lookup_insert. case_decide; [intros [= <-]; congruence|].
    intros H1. rewrite lookup_insert. case_decide; [congruence|]. by apply si_timer0.
  - intros o' x t. rewrite lookup_insert. case_decide; [intros [= <-]; congruence|apply si_reconnect0].
  - intros t x H. specialize (si_task_next0 _ _ H). unfold o. lia.
  - intros k0 k G. destruct (si_kont0 _ _ G). split; [unfold o; lia|done].
Qed.

(** A session leaves it. *)
Lemma inv_unregister o m s :
  sess_inv s -> sv_heap s !! o = Some m -> sv_by_id s !! sid m = Some o ->
  by_group (folder m) s = Some o ->
  sess_inv (with_by_id (delete (sid m) (sv_by_id s))
    (with_by_group (od_pop (folder m) (sv_by_group s)) s)).
Proof.
  intros [] Hm Hi Hg. split; simpl; try assumption.
  - by apply od_wf_pop.
  - intros g o'. unfold by_group; simpl. rewrite od_get_pop. case_decide as D; [done|].
    intros Hx. destruct (si_group0 g o' Hx) as (x & H1 & H2 & H3). exists x.
    split; [done|]. split; [done|]. rewrite lookup_delete_ne; [done|]. intros E.
    assert (o' = o) as -> by congruence. assert (x = m) as -> by congruence. congruence.
  - intros i o'. rewrite lookup_delete_Some. intros [Hne H].
    destruct (si_id0 i o' H) as (x & H1 & H2 & H3). exists x. split; [done|]. split; [done|].
    unfold by_group in *; simpl. rewrite od_get_pop_ne; [done|]. intros E.
    assert (o' = o) as -> by congruence. assert (x = m) as -> by congruence. congruence.
  - intros o' x d H1. rewrite lookup_delete_Some. intros [_ H2]. by eapply si_timer0.
Qed.
End inv.
