(* ===== verification/TerminalSessionsOps.v ===== *)
(** * Every operation of the terminal service preserves its invariant *)

From stdpp Require Import base gmap strings list option sorting.
From Stdlib Require Import ZArith Lia Ascii.
From S2P Require Import Prelude PyStr PySort PyDict TerminalHistory TerminalSessions.
From S2P Require Import TerminalSessionsInv.

Section ops.
Variable history_max_bytes_arg : Z.
Variable reconnect_timeout : Z.
Variable uuid4_hex : nat -> string.
Variable utcnow : nat -> Z.
Variable container_name : string -> string -> option string.
Variable history_dir : string -> option string.

Local Abbreviation sess_inv := (sess_inv history_max_bytes_arg uuid4_hex).
Local Abbreviation hist_ok := (hist_ok history_max_bytes_arg).
Local Abbreviation append := (append_output_history history_max_bytes_arg).
Local Abbreviation build := (build_history_snapshot history_max_bytes_arg utcnow).
Local Abbreviation persist := (persist history_dir).

Lemma persist_heap snap s : sv_heap (persist snap s) = sv_heap s.
Proof.
  unfold TerminalSessions.persist. destruct (history_dir _); [|done].
  destruct (archive_status _); [|done]. by destruct (archive_path _ _ _).
Qed.

Lemma uuid_of s o m : sess_inv s -> sv_heap s !! o = Some m -> from_uuid uuid4_hex (sv_uuids s) (sid m).
Proof. intros I H. by eapply si_uuid. Qed.

Lemma uuid_set o m s : sess_inv (set_managed o m s) -> from_uuid uuid4_hex (sv_uuids s) (sid m).
Proof. intros I. apply (uuid_of (set_managed o m s) o); [exact I|]. apply lookup_insert_eq. Qed.

Lemma persist_konts snap s : sv_konts (persist snap s) = sv_konts s.
Proof.
  unfold TerminalSessions.persist. destruct (history_dir _); [|done].
  destruct (archive_status _); [|done]. by destruct (archive_path _ _ _).
Qed.

(** A write does not touch the continuations. *)
Lemma persist_written snap n k s :
  core (with_konts (<[n := k]> (sv_konts s)) (persist snap s)) =
  core (with_konts (<[n := k]> (sv_konts (persist snap (with_konts (delete n (sv_konts s)) s))))
          (persist snap (with_konts (delete n (sv_konts s)) s))).
Proof.
  rewrite persist_konts. unfold core, TerminalSessions.persist. simpl. rewrite insert_delete_eq.
  destruct (history_dir _); [|done]. destruct (archive_status _); [|done].
  by destruct (archive_path _ _ _).
Qed.

(** ** The common shape: cancel the timer, then replace the session *)

Lemma cancel_core o m m2 s :
  core (set_managed o m2 (cancel_reconnect_task o m s).2) =
  core (with_tasks (cancelled_in (md_reconnect m) (sv_tasks s)) (set_managed o m2 s)).
Proof.
  unfold cancel_reconnect_task; simpl. rewrite cancel_task_eq. unfold core; simpl.
  by rewrite insert_insert_eq.
Qed.

(** Cancel, then set a session without deadline and timer. *)
Lemma inv_cancel_set o m m' s :
  sess_inv s -> sv_heap s !! o = Some m -> sv_by_id s !! sid m = Some o ->
  identity m' = identity m -> hist_ok m' -> md_reconnect m' = None ->
  ts_reconnect_deadline (md_record m') = None -> md_chunks m' = md_chunks m ->
  (md_queue m' = md_queue m /\ md_bridge m' = md_bridge m \/ md_queue m' = None) ->
  sess_inv (set_managed o m' (cancel_reconnect_task o m s).2).
Proof.
  intros I Hm Hi Hid Hh Hr Hd Hc Hq.
  apply (inv_ext _ _ _ _ (eq_sym (cancel_core o m m' s))).
  eapply inv_ext; [|eapply (inv_cancelled _ _ o m m' s (sv_next s)); try done; [by left|]].
  - done.
  - by apply (queue_kept history_max_bytes_arg uuid4_hex o).
Qed.

(** What follows is the write of the session's snapshot. *)
Lemma inv_build_persist m a s :
  sess_inv s -> from_uuid uuid4_hex (sv_uuids s) (sid m) -> kont_put (KAfter a) = None ->
  sess_inv (await_persist (build m s).1 a (build m s).2).2.
Proof. intros I U Ha. apply inv_await_persist; [by eapply inv_ext; [|exact I]|done|done]. Qed.

Lemma inv_built_set o m a s :
  sess_inv (set_managed o m s) -> kont_put (KAfter a) = None ->
  sess_inv (await_persist (build m (set_managed o m s)).1 a (build m (set_managed o m s)).2).2.
Proof. intros I Ha. apply inv_build_persist; [done|exact (uuid_set o m s I)|done]. Qed.

(** ** Closing *)

Lemma inv_close_managed o m s :
  sess_inv s -> sv_heap s !! o = Some m -> sv_by_id s !! sid m = Some o ->
  sess_inv (close_managed history_max_bytes_arg utcnow o m s).2.
Proof.
  intros I Hm Hi. unfold close_managed. cbn [cancel_reconnect_task].
  set (m1 := md_with_record _ _).
  assert (I1 : sess_inv (set_managed o m1 (cancel_reconnect_task o m s).2)).
  { apply inv_cancel_set; try done; [exact (si_hist _ _ s I o m Hm)|by right]. }
  pose proof (inv_built_set o m1 (AManaged o) _ I1 eq_refl) as I2.
  change (md_bridge m1) with (md_bridge m). unfold cancel_reconnect_task in *.
  destruct (md_bridge m); [|exact I2]. apply inv_await; [by eapply inv_ext; [|exact I1]| |done].
  split; [exact (uuid_set o m1 _ I1)|]. split; [by intros []|done].
Qed.

Lemma inv_close_session i u s :
  sess_inv s -> sess_inv (close_session history_max_bytes_arg utcnow i u s).2.
Proof.
  intros I. unfold close_session. destruct (require_owned i u s) as [[o m]|] eqn:E; [|done].
  apply (require_owned_ok history_max_bytes_arg uuid4_hex i u s o m I) in E as (H1 & H2 & _). by apply inv_close_managed.
Qed.

Lemma inv_close_by_group g u s :
  sess_inv s -> sess_inv (close_session_by_group history_max_bytes_arg utcnow g u s).2.
Proof.
  intros I. unfold close_session_by_group. destruct (group_session g s) as [[o m]|]; [|done].
  case_bool_decide; [|done]. by apply inv_close_session.
Qed.

Lemma inv_force_close g s :
  sess_inv s -> sess_inv (force_close_session_by_group history_max_bytes_arg utcnow g s).2.
Proof.
  intros I. unfold force_close_session_by_group. destruct (group_session g s) as [[o m]|] eqn:E; [|done].
  apply (group_session_ok history_max_bytes_arg uuid4_hex g s o m I) in E as (H1 & H2 & _). by apply inv_close_managed.
Qed.

(** ** Detaching *)

Lemma inv_detach i u s :
  sess_inv s ->
  sess_inv (detach_session history_max_bytes_arg reconnect_timeout utcnow i u s).2.
Proof.
  intros I. unfold detach_session. destruct (require_owned i u s) as [[o m]|] eqn:E; [|done].
  apply (require_owned_ok history_max_bytes_arg uuid4_hex i u s o m I) in E as (Hm & Hi & Hsid & _).
  set (s0 := with_clock (S (sv_clock s)) s). set (d := (utcnow (sv_clock s) + reconnect_timeout)%Z).
  set (m0 := md_with_record (record_status TsDetached (Some d) (md_record m)) (md_with_queue None m)).
  set (ts := cancelled_in (md_reconnect m) (sv_tasks s)).
  destruct (cancelled_in_spec (md_reconnect m) (sv_tasks s)) as (T1 & T2 & T3). fold ts in T1, T2, T3.
  set (s1 := (cancel_reconnect_task o m0 s0).2).
  assert (En : sv_next s1 = sv_next s /\ sv_tasks s1 = ts)
    by (unfold s1, cancel_reconnect_task; simpl; by rewrite cancel_task_eq).
  destruct En as [En Ets].
  set (m2 := md_with_reconnect (Some (sv_next s1)) (md_with_reconnect None m0)).
  set (s2 := set_managed o m2 (with_tasks (<[sv_next s1 := mkTask i d TkSleeping]> (sv_tasks s1))
               (with_next (S (sv_next s1)) s1))).
  assert (Hc : core s2 = core (with_next (S (sv_next s)) (with_tasks
     (<[sv_next s := mkTask i d TkSleeping]> ts) (set_managed o m2 s)))).
  { pose proof (cancel_core o m0 m2 s0) as Hc. fold s1 in Hc.
    unfold core in Hc |- *. unfold s2. simpl in Hc |- *. rewrite Ets, En.
    injection Hc as -> -> -> -> _ -> _ -> -> ->. done. }
  assert (I2 : sess_inv s2).
  { apply (inv_ext _ _ _ _ (eq_sym Hc)). apply (inv_replace _ _ o m); try done.
    - exact (si_hist _ _ s I o m Hm).
    - lia.
    - by left.
    - intros d' [= <-]. split; [done|]. exists (sv_next s). subst i. unfold m2. simpl.
      rewrite En, lookup_insert_eq. done.
    - intros t. unfold m2. simpl. rewrite En. intros [= <-]. rewrite lookup_insert_eq. by eexists.
    - intros t x. rewrite lookup_insert. case_decide; [lia|]. intros [y Hy]%T1.
      apply (si_task_next _ _ s I) in Hy. lia.
    - intros t x Hx. rewrite lookup_insert_ne; [by apply T2|].
      apply (si_task_next _ _ s I) in Hx. lia.
    - intros t x Hx Hne. rewrite lookup_insert_ne by (apply (si_task_next _ _ s I) in Hx; lia).
      apply T3; [done|]. intros Ht. destruct (si_reconnect _ _ s I _ _ _ Hm Ht) as (y & Y1 & Y2). congruence. }
  exact (inv_built_set o m2 (ARecord (md_record m2)) _ I2 eq_refl).
Qed.

(** ** Attaching *)

Lemma inv_attach i u s :
  sess_inv s ->
  sess_inv (attach_session history_max_bytes_arg utcnow container_name i u s).2.
Proof.
  intros I. unfold attach_session. destruct (require_owned i u s) as [[o m]|] eqn:E; [|done].
  apply (require_owned_ok history_max_bytes_arg uuid4_hex i u s o m I) in E as (Hm & Hi & _ & _).
  set (q := sv_next s). set (l := (fun c => output_event (Some c)) <$> md_chunks m).
  set (sq := with_queues (<[q := l]> (sv_queues s)) s).
  pose proof (inv_new_queue _ _ l s I) as Iq. fold q in Iq. fold sq in Iq.
  set (ts := cancelled_in (md_reconnect m) (sv_tasks s)).
  set (s1 := (cancel_reconnect_task o m s).2).
  assert (C1 : core s1 = core (with_tasks ts (set_managed o (md_with_reconnect None m) s)) /\
               sv_next s1 = q)
    by (unfold s1, cancel_reconnect_task; simpl; by rewrite cancel_task_eq).
  destruct C1 as [C1 C2]. unfold core in C1. simpl in C1.
  assert (K : forall m3 n, identity m3 = identity m -> md_chunks m3 = md_chunks m ->
    md_bytes m3 = md_bytes m -> md_queue m3 = Some q -> md_reconnect m3 = None ->
    ts_reconnect_deadline (md_record m3) = None -> q < n ->
    sess_inv (with_next n (with_tasks ts (set_managed o m3 sq)))).
  { intros m3 n H1 H2 H3 H4 H5 H6 H7.
    apply (inv_cancelled history_max_bytes_arg uuid4_hex o m m3 sq n); try done;
      [by left|unfold sq; simpl; unfold q in *; lia|..].
    - unfold TerminalSessionsInv.hist_ok. rewrite H2, H3. exact (si_hist _ _ s I o m Hm).
    - pose proof (unused_from _ _ s q I ltac:(unfold q; lia)) as U.
      intros q'. rewrite H4. intros [= <-]. split; [done|]. split; [right|right; exact U].
      exists "". split; [left; split; [done|exact (fun n k p => proj2 U n k p)]|].
      unfold sq; simpl. rewrite lookup_insert_eq, H2. simpl. unfold l.
      rewrite queue_output_replay, append_nil. apply is_suffix_refl. }
  set (m2 := md_with_record (record_attached (utcnow (sv_clock s1)) (md_record m))
               (md_with_queue (Some (sv_next s1)) (md_with_reconnect None m))).
  set (s2 := with_clock (S (sv_clock s1)) (with_queues (<[sv_next s1 := l]> (sv_queues s1))
               (with_next (S (sv_next s1)) s1))).
  change (sess_inv (match md_bridge m with
    | Some _ => await_persist (build m2 (set_managed o m2 s2)).1 (AQueue (md_record m2) (sv_next s1))
                  (build m2 (set_managed o m2 s2)).2
    | None =>
        let m3 := md_with_bridge (Some (sv_next s2)) m2 in
        let m4 := md_with_record (record_container
                    (container_name (ts_group_folder (md_record m3)) (ts_session_id (md_record m3)))
                    (md_record m3)) m3 in
        let s4 := set_managed o m4 (with_next (S (sv_next s2)) s2) in
        await_call (sv_next s2) BStart
          (KAttach i (build m4 s4).1 (md_record m4) (sv_next s1)) (build m4 s4).2
    end).2).
  destruct (md_bridge m).
  - apply inv_built_set; [|done]. eapply inv_ext; [|apply (K m2 (S q)); try done;
      [by unfold m2; simpl; rewrite C2|lia]].
    unfold core, s2, sq; simpl. injection C1 as -> -> -> -> -> -> _ -> -> ->. rewrite C2.
    by rewrite insert_insert_eq.
  - cbv zeta. set (m4 := md_with_record _ _). set (s4 := set_managed o m4 _).
    assert (I4 : sess_inv s4).
    { eapply inv_ext; [|apply (K m4 (S (S q))); try done;
        [by unfold m4, m2; simpl; rewrite C2|lia]].
      unfold core, s4, s2, sq; simpl. injection C1 as -> -> -> -> -> -> _ -> -> ->. rewrite C2.
      by rewrite insert_insert_eq. }
    apply inv_await; [by eapply inv_ext; [|exact I4]| |done].
    split; [exact (uuid_set o m4 _ I4)|]. split; [by intros []|done].
Qed.

(** ** Events of the bridge *)

(** A bridge that is ready for output has no text on its way. *)
Lemma ready_idle i e o m q s :
  sess_inv s -> sv_heap s !! o = Some m -> sid m = i -> md_queue m = Some q ->
  be_type e = "output" -> bridge_ready i e s = true ->
  forall n k p, sv_konts s !! n = Some k -> kont_put k <> Some (q, p).
Proof.
  intros I Hm Hi Hq He Hr n k p Hk Hp. unfold bridge_ready in Hr.
  rewrite (bool_decide_eq_true_2 _ He) in Hr. simpl in Hr. rewrite forallb_forall in Hr.
  specialize (Hr (n, k) ltac:(by apply list_elem_of_In, elem_of_map_to_list)).
  destruct (si_pend _ _ s I _ _ _ _ Hk Hp) as [_ G]. specialize (G _ _ Hm Hq).
  destruct (si_kont _ _ s I _ _ Hk) as (_ & _ & K & _). destruct K as (i' & b & x & K); [by eexists|].
  unfold kont_src in G. unfold callback_of in Hr. simpl in Hr. rewrite K in G, Hr.
  injection G as -> ->. by rewrite !bool_decide_eq_true_2 in Hr by done.
Qed.

(** Output enters the history while its way to the queue begins. *)
Lemma inv_output o m q d s :
  let m' := append d m in
  let a := ABridge (sid m) "output" (md_bridge m) (Some (q, output_event (Some d))) in
  sess_inv s -> sv_heap s !! o = Some m -> sv_by_id s !! sid m = Some o -> md_queue m = Some q ->
  (forall n k p, sv_konts s !! n = Some k -> kont_put k <> Some (q, p)) ->
  sess_inv (await_persist (build m' (set_managed o m' s)).1 a (build m' (set_managed o m' s)).2).2.
Proof.
  intros m' a I Hm Hi Hq Hn.
  destruct (append_spec history_max_bytes_arg d m (si_hist _ _ s I o m Hm))
    as (A1 & A2 & A3 & A4 & A5 & A6 & A7).
  destruct (si_queue _ _ s I _ _ _ Hm Hq) as [Q1 Q2].
  assert (Hsid : sid m' = sid m) by (by injection A2).
  set (me := md_with_history [] 0 (md_truncated m) m). set (k := KPersist (build m' s).1 a).
  assert (Ie : sess_inv (set_managed o me s)).
  { apply (inv_kept history_max_bytes_arg uuid4_hex o m); try done; [|by right|].
    - split; [done|]. simpl. unfold history_max_bytes. lia.
    - intros q' H. split; [by eapply (si_queue _ _ s I)|]. split; [|by left].
      right. assert (q' = q) as -> by (simpl in H; congruence). exists "".
      split; [by left|apply is_suffix_nil]. }
  assert (Iq : sess_inv (with_next (S (sv_next s)) (with_konts (<[sv_next s := k]> (sv_konts s))
                 (set_managed o me s)))).
  { apply (inv_suspend_put _ _ k q d (set_managed o me s)); try done.
    - split; [|split; [|done]].
      + simpl. unfold hs_session_id. simpl. change (from_uuid uuid4_hex (sv_uuids s) (sid m')).
        rewrite Hsid. by eapply uuid_of.
      + intros _. by eexists _, _, _.
    - intros o2 m2 H1 H2.
      assert (o2 = o) as ->.
      { apply (si_queue_inj _ _ _ Ie o2 o m2 me q); [exact H1| |exact H2|exact Hq].
        simpl. apply lookup_insert_eq. }
      simpl in H1. rewrite lookup_insert_eq in H1. by injection H1 as <-. }
  apply (inv_ext _ _ (set_managed o m' (with_next (S (sv_next s))
    (with_konts (<[sv_next s := k]> (sv_konts s)) (set_managed o me s))))).
  { unfold core; simpl. by rewrite insert_insert_eq. }
  apply (inv_kept history_max_bytes_arg uuid4_hex o me); try done.
  - simpl. apply lookup_insert_eq.
  - by right.
  - intros q' Hq'. unfold m' in Hq'. rewrite A5, Hq in Hq'. injection Hq' as <-.
    split; [simpl; lia|]. split; [|by left].
    destruct Q2 as [(b & B1 & B2)|(p & [[-> _]|(n & k' & P1 & P2)] & P3)].
    + left. exists b. split; [unfold m'; congruence|done].
    + right. exists d. split; [right; exists (sv_next s), k; simpl; by rewrite lookup_insert_eq|].
      simpl. eapply is_suffix_trans; [exact A7|]. apply is_suffix_app.
      by rewrite append_nil in P3.
    + by destruct (Hn _ _ _ P1 P2).
Qed.

Lemma inv_append_unattached o m d s :
  sess_inv s -> sv_heap s !! o = Some m -> sv_by_id s !! sid m = Some o ->
  md_queue m = None -> sess_inv (set_managed o (append d m) s).
Proof.
  intros I Hm Hi Hq. pose proof (si_hist _ _ s I o m Hm) as Hh.
  destruct (append_spec history_max_bytes_arg d m Hh) as (A1 & A2 & A3 & A4 & A5 & A6 & A7).
  apply (inv_kept history_max_bytes_arg uuid4_hex o m); try done; [by right|].
  intros q H. congruence.
Qed.

Lemma inv_put_opt put s :
  sess_inv s -> (forall q e, put = Some (q, e) -> event_output e = "") -> sess_inv (put_opt put s).
Proof. intros I H. destruct put as [[q e]|]; [|done]. apply inv_put; [done|by eapply H]. Qed.

Lemma inv_bridge_event i e s :
  sess_inv s -> bridge_ready i e s = true ->
  sess_inv (handle_bridge_event history_max_bytes_arg utcnow i e s).2.
Proof.
  intros I Hr. unfold handle_bridge_event. destruct (id_session i s) as [[o m]|] eqn:E; [|done].
  apply (id_session_ok history_max_bytes_arg uuid4_hex i s o m I) in E as (Hm & Hi & Hs).
  case_bool_decide as Ho; [|case_bool_decide; [|case_bool_decide; [|done]]].
  - destruct (be_data e) as [d|].
    + destruct (append_spec history_max_bytes_arg d m (si_hist _ _ s I o m Hm))
        as (_ & _ & _ & A4 & A5 & _). cbv zeta. rewrite A4, <- Hs.
      destruct (md_queue m) as [q|] eqn:Hq.
      * apply (inv_output o m q d s I Hm Hi Hq). by apply (ready_idle i e o m).
      * exact (inv_built_set o (append d m) (ABridge (sid m) "output" (md_bridge m) None) s
                 (inv_append_unattached o m d s I Hm Hi Hq) eq_refl).
    + apply inv_put_opt; [done|]. destruct (md_queue m); simpl; intros q x [= <- <-]. done.
  - set (m2 := md_with_record (record_status TsExited None (md_record m)) (md_with_reconnect None m)).
    set (s1 := (cancel_reconnect_task o m s).2).
    assert (I1 : sess_inv (set_managed o m2 s1)).
    { apply inv_cancel_set; try done; [exact (si_hist _ _ s I o m Hm)|by left]. }
    apply (inv_built_set o m2 _ s1 I1). by destruct (md_queue m).
  - apply inv_put_opt; [done|]. destruct (md_queue m); simpl; intros q x [= <- <-]. done.
Qed.

Lemma inv_cancel_callback n r s s' :
  sess_inv s -> cancel_callback n s = Some (r, s') -> sess_inv s'.
Proof.
  intros I. unfold cancel_callback.
  assert (K : forall k a a', sv_konts s !! n = Some k -> after_of k = Some a ->
    cancel_put a s = Some a' -> forall k', after_of k' = Some a' ->
    match k' with KPersist snap _ => exists a0, k = KPersist snap a0 | KAfter _ => True | _ => False end ->
    sess_inv (with_konts (<[n := k']> (sv_konts s)) s)).
  { intros k a a' Hk Ha Hc k' Ha' Hs. unfold cancel_put in Hc.
    destruct a as [| | | |i kind [b|] put| |]; try done. case_bool_decide as Hb; [|done].
    injection Hc as <-. apply (inv_cancel_put _ _ n k k' i b s I Hk); [by unfold kont_src; rewrite Ha|done|..].
    - unfold kont_put. by rewrite Ha'.
    - destruct (si_kont _ _ s I _ _ Hk) as (_ & K1 & _). split; [|split].
      + destruct k'; try done. destruct Hs as [a0 ->]. exact K1.
      + unfold kont_put. rewrite Ha'. by intros [].
      + by destruct k'. }
  destruct (sv_konts s !! n) as [[| | |snap a|a]|] eqn:Hk; try done;
    destruct (cancel_put a s) as [a'|] eqn:Hc; try done; intros [= _ <-];
    (eapply K; [done|done|exact Hc|done|]); [by eexists|done].
Qed.

(** ** Expiry *)

Lemma inv_expire t s r s' :
  sess_inv s -> expire_detached_session history_max_bytes_arg utcnow t s = Some (r, s') ->
  sess_inv s'.
Proof.
  intros I. unfold expire_detached_session. destruct (sv_tasks s !! t) as [x|] eqn:Hx; [|done].
  destruct (xt_state x) eqn:Hs; try done. cbv zeta.
  assert (D : (forall o m d, sv_heap s !! o = Some m -> sv_by_id s !! sid m = Some o ->
     ts_reconnect_deadline (md_record m) = Some d -> x <> mkTask (sid m) d TkSleeping) ->
     sess_inv (with_tasks (<[t := mkTask (xt_session x) (xt_deadline x) TkDone]> (sv_tasks s)) s))
    by (intros H; by apply inv_task_state).
  destruct (id_session (xt_session x) s) as [[o m]|] eqn:E.
  - apply (id_session_ok history_max_bytes_arg uuid4_hex _ s o m I) in E as (Hm & Hi & Hsid).
    assert (N : ts_status (md_record m) <> TsDetached \/
                ts_reconnect_deadline (md_record m) <> Some (xt_deadline x) ->
                sess_inv (with_tasks (<[t := mkTask (xt_session x) (xt_deadline x) TkDone]> (sv_tasks s)) s)).
    { intros H. apply D. intros o' m' d H1 H2 H3 ->. simpl in *.
      assert (o' = o) as -> by congruence. assert (m' = m) as -> by congruence.
      destruct H as [H|H]; [|done]. by apply H, (si_deadline _ _ s I o m d). }
    case_bool_decide; [|intros [= <- <-]; apply N; by left].
    case_bool_decide; [|intros [= <- <-]; apply N; by right]. clear N D.
    set (m1 := md_with_record (record_status TsClosed None (md_record m)) m).
    set (s1 := with_tasks (<[t := mkTask (xt_session x) (xt_deadline x) TkClosing]> (sv_tasks s)) s).
    assert (I1 : sess_inv (set_managed o m1 s1)).
    { eapply (inv_ext _ _ (with_next (sv_next s) (with_tasks
        (<[t := mkTask (xt_session x) (xt_deadline x) TkClosing]> (sv_tasks s)) (set_managed o m1 s)))); [done|].
      destruct (task_changed_insert t x (mkTask (xt_session x) (xt_deadline x) TkClosing)
        (sv_tasks s) Hx eq_refl) as (T1 & T2 & T3).
      apply (inv_replace history_max_bytes_arg uuid4_hex o m); try done.
      - exact (si_hist _ _ s I o m Hm).
      - by left.
      - apply (queue_kept history_max_bytes_arg uuid4_hex o); [done..|by left].
      - intros t' Ht'. destruct (si_reconnect _ _ s I o m t' Hm Ht') as (y & Y1 & <-). by apply T2.
      - intros t' y [z Hz]%T1. by eapply (si_task_next _ _ s I).
      - intros t' y Hy Hne. apply T3; [done|]. intros [= <-]. congruence. }
    change (md_bridge m1) with (md_bridge m). destruct (md_bridge m) as [b|]; intros [= _ <-].
    + apply (inv_await _ _ b BClose (KClose (build m1 (set_managed o m1 s1)).1 (ATask t))
               (build m1 (set_managed o m1 s1)).2); [by eapply inv_ext; [|exact I1]| |done].
      split; [exact (uuid_set o m1 _ I1)|]. split; [by intros []|done].
    + exact (inv_built_set o m1 (ATask t) s1 I1 eq_refl).
  - intros [= <- <-]. apply D. intros o m d H1 H2 H3 ->. simpl in E.
    unfold id_session in E. rewrite H2 in E. simpl in E. by rewrite H1 in E.
Qed.

Lemma inv_end_task t s : sess_inv s -> sess_inv (end_task t s).
Proof.
  intros I. unfold end_task. destruct (sv_tasks s !! t) as [x|] eqn:Hx; [|done].
  destruct (xt_state x) eqn:Hs; try done. apply inv_task_state; [done|done|].
  intros o m d _ _ _ ->. done.
Qed.

Lemma inv_use_bridge i u c s : sess_inv s -> sess_inv (use_bridge i u c s).2.
Proof.
  intros I. unfold use_bridge. destruct (require_owned i u s) as [[o m]|]; [|done].
  destruct (md_bridge m); [|done]. by apply inv_calls.
Qed.

(** ** Resuming *)

Lemma inv_finish_quiet a s : sess_inv s -> kont_put (KAfter a) = None -> sess_inv (finish a s).2.
Proof.
  intros I Ha. destruct a as [| | | |i kind b put|t|]; try done; simpl; [|by apply inv_end_task].
  apply inv_put_opt; [done|]. intros q e ->. unfold kont_put in Ha. simpl in Ha.
  unfold event_output. by case_bool_decide.
Qed.

Lemma inv_finish n a s :
  sess_inv s -> sv_konts s !! n = Some (KAfter a) ->
  sess_inv (finish a (with_konts (delete n (sv_konts s)) s)).2.
Proof.
  intros I Hn. destruct (kont_put (KAfter a)) as [p|] eqn:Hp.
  - destruct a as [| | | |i kind b [[q e]|]| |]; try done.
    exact (inv_put_output _ _ n _ i kind b q e s I Hn eq_refl).
  - apply inv_finish_quiet; [|done]. by eapply inv_resumed.
Qed.

Lemma inv_resume n failed s r s' :
  sess_inv s -> resume history_max_bytes_arg utcnow history_dir n failed s = Some (r, s') -> sess_inv s'.
Proof.
  intros I. unfold resume. destruct (sv_konts s !! n) as [k|] eqn:Hk; [|done].
  set (s1 := with_konts (delete n (sv_konts s)) s).
  pose proof (fun H => inv_resumed _ _ n k s I Hk H) as I1. fold s1 in I1.
  destruct (si_kont _ _ s I _ _ Hk) as (_ & Hid & _ & Hcl).
  assert (P : forall p : reply * service, sess_inv p.2 -> Some p = Some (r, s') -> sess_inv s')
    by (intros p Hp [= ->]; done).
  destruct k as [i g rec|i snap rec q|snap a|snap a|a].
  - specialize (I1 eq_refl). destruct failed as [msg|]; apply P; [done|].
    destruct (id_session i s1) as [[o m]|] eqn:E; [|done].
    apply (id_session_ok history_max_bytes_arg uuid4_hex _ s1 o m I1) in E as (Hm & _).
    apply (inv_build_persist m _ s1 I1); [by eapply (uuid_of s1 o)|done].
  - specialize (I1 eq_refl). destruct failed as [msg|]; apply P; [|by apply inv_await_persist].
    destruct (id_session i s1) as [[o m]|] eqn:E; [|done].
    apply (id_session_ok history_max_bytes_arg uuid4_hex _ s1 o m I1) in E as (Hm & Hi & _).
    apply (inv_built_set o (md_with_record (record_status TsClosed None (md_record m))
      (md_with_queue None (md_with_bridge None m))) (ARaise msg) s1); [|done].
    apply (inv_kept history_max_bytes_arg uuid4_hex o m); try done.
    + exact (si_hist _ _ s1 I1 o m Hm).
    + by left.
  - specialize (I1 Hcl). replace (match failed with Some _ => _ | None => _ end) with
      (match close_outcome a failed s1 with
       | Some msg => (RError (BridgeError msg), match a with ATask t => end_task t s1 | _ => s1 end)
       | None => await_persist snap a s1 end) by (by destruct failed).
    destruct (close_outcome a failed s1) as [msg|]; apply P; [|by apply inv_await_persist].
    destruct a; try done. by apply inv_end_task.
  - destruct failed as [msg|]; apply P; simpl.
    + eapply inv_ext; [|exact (inv_written _ _ n snap a s I Hk)]. unfold core; simpl.
      by rewrite insert_delete_eq.
    + apply (inv_persist _ _ history_dir snap) in I as Ip; [|exact Hid].
      assert (Ek : sv_konts (persist snap s) = sv_konts s) by apply persist_konts.
      rewrite <- Ek in Hk. pose proof (inv_written _ _ n snap a _ Ip Hk) as Iw.
      rewrite Ek in Iw. eapply inv_ext; [|exact Iw]. apply persist_written.
  - destruct failed as [msg|]; apply P; exact (inv_finish n a s I Hk).
Qed.

(** ** Creating and recovering *)

Context (uuid4_inj : forall i j, uuid4_hex i = uuid4_hex j -> i = j).

Lemma uuid_fresh s : sess_inv s -> sv_by_id s !! uuid4_hex (sv_uuids s) = None.
Proof.
  intros I. apply eq_None_not_Some. intros [o H].
  destruct (si_id _ _ s I _ _ H) as (m & M1 & M2 & _).
  destruct (si_uuid _ _ s I _ _ M1) as (k & K1 & K2). rewrite M2 in K2. apply uuid4_inj in K2. lia.
Qed.

Lemma inv_clock n s : sess_inv s -> sess_inv (with_clock n s).
Proof. apply inv_ext. done. Qed.

Lemma inv_create_new gid g u backend s :
  sess_inv s -> by_group g s = None ->
  sess_inv (create_new uuid4_hex utcnow container_name gid g u backend s).2.
Proof.
  intros I Hg. unfold create_new. cbn [fresh read_now].
  set (i := uuid4_hex (sv_uuids s)).
  set (s2 := with_clock (S (sv_clock s))
    (with_next (S (sv_next s)) (with_uuids (S (sv_uuids s)) s))).
  set (rec := mkSession i gid g u backend (container_name g i) TsCreated (utcnow (sv_clock s)) None None).
  assert (I2 : sess_inv s2).
  { apply inv_clock. apply inv_next; [simpl; lia|]. apply inv_uuids; [lia|done]. }
  assert (U : from_uuid uuid4_hex (sv_uuids s2) i) by (exists (sv_uuids s); split; [simpl; lia|done]).
  pose proof (inv_new_session _ _ (fresh_managed rec (Some (sv_next s))) s2 I2 U) as J.
  cbv zeta in J. apply inv_await; [|split; [done|]; by split; [intros []|]|done].
  apply (inv_ext _ _ (with_by_id (<[i := sv_next s2]> (sv_by_id s2))
    (with_by_group (od_set g (sv_next s2) (sv_by_group s2))
      (set_managed (sv_next s2) (fresh_managed rec (Some (sv_next s))) (with_next (S (sv_next s2)) s2)))));
    [done|].
  apply J; try done.
  - exact (uuid_fresh s I).
  - split; [done|]. simpl. unfold history_max_bytes. lia.
Qed.

Lemma inv_create gid g u mode s :
  sess_inv s ->
  sess_inv (create_session uuid4_hex utcnow container_name gid g u mode s).2.
Proof.
  intros I. unfold create_session. destruct (resolve_backend mode) as [backend|]; [|done].
  destruct (group_session g s) as [[o m]|] eqn:E.
  - pose proof E as E'. apply (group_session_ok history_max_bytes_arg uuid4_hex g s o m I) in E as (Hm & Hi & Hf).
    assert (Hg : by_group g s = Some o).
    { unfold group_session in E'. destruct (by_group g s) as [o'|] eqn:Ho; [|done]. simpl in E'.
      destruct (sv_heap s !! o'); [|done]. by injection E' as -> _. }
    destruct (archive_status _) eqn:Ha; [|by case_bool_decide].
    unfold drop_session. set (s1 := with_by_id _ _).
    assert (I1 : sess_inv s1) by (apply (inv_unregister _ _ o m s); [done..|by rewrite Hf]).
    assert (I2 : sess_inv (cancel_reconnect_task o m s1).2).
    { apply (inv_ext _ _ (with_next (sv_next s1) (with_tasks (cancelled_in (md_reconnect m) (sv_tasks s1))
        (set_managed o (md_with_reconnect None m) s1)))).
      { unfold cancel_reconnect_task. simpl snd. rewrite cancel_task_eq. done. }
      apply (inv_cancelled _ _ o m); try done.
      - right. unfold s1. simpl. apply lookup_delete_eq.
      - exact (si_hist _ _ s I o m Hm).
      - simpl. destruct (ts_reconnect_deadline (md_record m)) eqn:Hd; [|done].
        apply (si_deadline _ _ s I o m) in Hd; [|done]. by rewrite Hd in Ha.
      - apply (queue_kept history_max_bytes_arg uuid4_hex o); [done..|by left]. }
    apply inv_create_new; [done|]. unfold cancel_reconnect_task. simpl snd. rewrite cancel_task_eq.
    unfold by_group. simpl. change (ts_group_folder (md_record m)) with (folder m). rewrite Hf. apply od_get_pop_eq.
  - apply inv_create_new; [done|]. by eapply group_session_none.
Qed.

Lemma inv_recover_one s snap :
  sess_inv s -> from_uuid uuid4_hex (sv_uuids s) (hs_session_id snap) ->
  let s' := recover_one history_max_bytes_arg s snap in
  sess_inv s' /\ sv_uuids s' = sv_uuids s.
Proof.
  intros I U. cbv zeta. unfold recover_one. destruct (negb _); [done|].
  case_bool_decide as H1; [done|]. case_bool_decide as H2; [done|]. cbn [fresh]. split; [|done].
  set (m0 := md_with_history [] 0 (hs_truncated snap)
    (fresh_managed (record_status TsDetached None (hs_record snap)) None)).
  assert (H0 : hist_ok m0) by (split; [done|]; simpl; unfold history_max_bytes; lia).
  destruct (append_spec history_max_bytes_arg (hs_output snap) m0 H0)
    as (A1 & A2 & A3 & A4 & A5 & A6 & _).
  pose proof (inv_new_session history_max_bytes_arg uuid4_hex (append (hs_output snap) m0) s I) as J.
  cbv zeta in J. assert (sid (append (hs_output snap) m0) = hs_session_id snap) as Es
    by (unfold sid; by rewrite A3).
  assert (folder (append (hs_output snap) m0) = ts_group_folder (hs_record snap)) as Ef
    by (unfold folder; by rewrite A3).
  rewrite Es, Ef in J.
  apply J; rewrite ?A5, ?A6, ?A3; try done; by apply eq_None_not_Some.
Qed.

Lemma inv_recover s : sess_inv s -> sess_inv (recover_active_sessions history_max_bytes_arg s).
Proof.
  intros I. unfold recover_active_sessions. set (s0 := with_archive _ _).
  assert (I0 : sess_inv s0).
  { split; unfold by_group; simpl; intros *; rewrite ?lookup_empty; try done; [constructor|].
    apply (si_disk _ _ s I). }
  assert (L : forall snap, snap ∈ list_persisted_history_snapshots s0 ->
    from_uuid uuid4_hex (sv_uuids s0) (hs_session_id snap)).
  { intros snap (e & _ & He)%list_elem_of_omap. unfold load_dir in He.
    destruct (sv_latest s0 !! e.1) as [x|] eqn:Hx; simpl in He; [|done].
    destruct (loads x); [|done]. injection He as <-. by eapply (si_disk _ _ s0 I0). }
  clearbody s0. clear I. revert L. generalize (list_persisted_history_snapshots s0). intros l.
  revert s0 I0. induction l as [|snap l IH]; intros s0 I0 L; [done|].
  simpl. destruct (inv_recover_one s0 snap I0) as [I1 E1]; [apply L; left|].
  apply IH; [done|]. intros x Hx. rewrite E1. apply L. by right.
Qed.

(** ** All events *)

Lemma inv_step s ev r s' :
  sess_inv s ->
  step history_max_bytes_arg reconnect_timeout uuid4_hex utcnow container_name history_dir s ev
    = Some (r, s') -> sess_inv s'.
Proof.
  intros I. assert (K : forall p : reply * service, sess_inv p.2 -> Some p = Some (r, s') -> sess_inv s')
    by (intros p Hp [= ->]; done).
  destruct ev; simpl.
  - apply K. by apply inv_create.
  - apply K. by apply inv_attach.
  - apply K. by apply inv_detach.
  - apply K. by apply inv_close_session.
  - apply K. by apply inv_close_by_group.
  - apply K. by apply inv_force_close.
  - apply K. by apply inv_use_bridge.
  - apply K. by apply inv_use_bridge.
  - destruct (bridge_ready _ _ _) eqn:E; [|done]. apply K. by apply inv_bridge_event.
  - by apply inv_cancel_callback.
  - by apply inv_expire.
  - by apply inv_resume.
Qed.

Lemma reach_inv s :
  reach history_max_bytes_arg reconnect_timeout uuid4_hex utcnow container_name history_dir s ->
  sess_inv s.
Proof.
  induction 1; [apply inv_init|by apply inv_recover|by eapply inv_step].
Qed.
End ops.
