(* ===== verification/TerminalSessionsProps.v ===== *)
(** * Properties of the terminal session service *)

From stdpp Require Import base gmap strings list option sorting pretty.
From Stdlib Require Import ZArith Lia Ascii.
From S2P Require Import Prelude PyStr PySort PyDict TerminalHistory TerminalSessions.
From S2P Require Import TerminalSessionsInv TerminalSessionsOps.

(** A session that enters the workspace [g] for the user [u]. *)
Definition new_session_in (g u : string) (s s' : service) : Prop :=
  exists o m, sv_heap s' !! o = Some m /\ by_group g s' = Some o /\ sv_by_id s' !! sid m = Some o /\
    ts_owner_user_id (md_record m) = u /\ ts_status (md_record m) = TsCreated /\
    folder m = g /\ sv_by_id s !! sid m = None.

Section props.
Variable history_max_bytes_arg : Z.
Variable reconnect_timeout : Z.
Variable uuid4_hex : nat -> string.
Variable utcnow : nat -> Z.
Variable container_name : string -> string -> option string.
Variable history_dir : string -> option string.

Local Abbreviation reach :=
  (reach history_max_bytes_arg reconnect_timeout uuid4_hex utcnow container_name history_dir).
Local Abbreviation service_step :=
  (step history_max_bytes_arg reconnect_timeout uuid4_hex utcnow container_name history_dir).
Local Abbreviation expire := (expire_detached_session history_max_bytes_arg utcnow).

(** [uuid4] does not repeat itself. *)
Context (uuid4_inj : forall i j, uuid4_hex i = uuid4_hex j -> i = j).

(** The two dictionaries agree. In every reachable state, whatever the
    events, a workspace has a session in [_sessions_by_group] exactly when the
    same object is in [_sessions_by_id] under its own id, with that workspace
    as its folder; so a workspace has at most one session and an id names at
    most one. *)
Theorem sessions_coherent s :
  reach s ->
  (forall g o, by_group g s = Some o <->
     exists m, sv_heap s !! o = Some m /\ folder m = g /\ sv_by_id s !! sid m = Some o) /\
  (forall i o, sv_by_id s !! i = Some o ->
     exists m, sv_heap s !! o = Some m /\ sid m = i /\ by_group (folder m) s = Some o).
Proof.
  intros I%(reach_inv _ _ _ _ _ _ uuid4_inj). split; [|apply (si_id _ _ s I)].
  intros g o. split; [apply (si_group _ _ s I)|].
  intros (m & Hm & <- & Hi). destruct (si_id _ _ s I _ _ Hi) as (m' & Hm' & _ & Hg). congruence.
Qed.

(** C38: The output history is bounded and accounted for. In every reachable
    state the history of every session holds at most [history_max_bytes] bytes
    of UTF-8, and the byte count that snapshots report is the length of the
    output they carry. *)
Theorem history_bounded s o m :
  reach s -> sv_heap s !! o = Some m ->
  let '(snap, _) := build_history_snapshot history_max_bytes_arg utcnow m s in
  hs_output_bytes snap = utf8_len (hs_output snap) /\
  (0 <= hs_output_bytes snap <= history_max_bytes history_max_bytes_arg)%Z.
Proof.
  intros I%(reach_inv _ _ _ _ _ _ uuid4_inj) Hm.
  destruct (si_hist _ _ s I o m Hm) as [H1 H2]. cbn [build_history_snapshot read_now].
  simpl. split; [done|]. split; [|done]. rewrite H1. apply utf8_len_nonneg.
Qed.

(** C24: An attached client misses nothing. In every reachable state the retained
    history of a session with a client is a suffix of the output put into the
    client's queue, the replay at attachment included, followed by the one chunk
    that is on its way there while its snapshot is written. The exception is a
    session that was closed and attached to again: the closing bridge cancels
    the chunk on its way. *)
Theorem attached_client_sees_history s o m q :
  reach s -> sv_heap s !! o = Some m -> md_queue m = Some q ->
  (exists b, md_bridge m = Some b /\ (b, BClose) ∈ sv_calls s) \/
  (exists p, pend (sv_konts s) q p /\
     is_suffix (join_chunks (md_chunks m)) (queue_output (default [] (sv_queues s !! q)) +:+ p)).
Proof.
  intros I%(reach_inv _ _ _ _ _ _ uuid4_inj) Hm Hq. by destruct (si_queue _ _ s I o m q Hm Hq).
Qed.

(** A detached session has a timer that closes it. In every reachable state a
    registered session with a reconnect deadline is [detached] and has a sleeping
    reconnect task for exactly this deadline; if nothing happens before the task
    runs, the session is then [closed], with no deadline. *)
Theorem detached_session_expires s i o m d :
  reach s -> sv_by_id s !! i = Some o -> sv_heap s !! o = Some m ->
  ts_reconnect_deadline (md_record m) = Some d ->
  ts_status (md_record m) = TsDetached /\
  exists t r s' m', md_reconnect m = Some t /\ sv_tasks s !! t = Some (mkTask i d TkSleeping) /\
    expire t s = Some (r, s') /\ sv_heap s' !! o = Some m' /\
    ts_status (md_record m') = TsClosed /\ ts_reconnect_deadline (md_record m') = None.
Proof.
  intros I%(reach_inv _ _ _ _ _ _ uuid4_inj) Hi Hm Hd.
  assert (Hs : sid m = i).
  { destruct (si_id _ _ s I _ _ Hi) as (m' & M1 & M2 & _). congruence. }
  pose proof (si_deadline _ _ s I o m d Hm Hd) as Hst. split; [done|].
  rewrite <- Hs in *. clear Hs i.
  destruct (si_timer _ _ s I o m d Hm Hi Hd) as (t & T1 & T2).
  set (m1 := md_with_record (record_status TsClosed None (md_record m)) m).
  exists t. unfold expire_detached_session. rewrite T2. cbn [xt_state xt_session xt_deadline].
  cbv zeta.
  assert (E : id_session (sid m) s = Some (o, m))
    by (unfold id_session; simpl; rewrite Hi; simpl; by rewrite Hm).
  rewrite E, !bool_decide_eq_true_2 by done. cbn [build_history_snapshot read_now].
  change (md_bridge (md_with_record (record_status TsClosed None (md_record m)) m)) with (md_bridge m).
  destruct (md_bridge m) as [b|]; eexists _, _, m1; (split; [done|]); (split; [done|]);
    (split; [reflexivity|]); (split; [simpl; apply lookup_insert_eq|done]).
Qed.

(** ** Whose call it is *)

(** Who calls: the calls that say so; [force_close_session_by_group] does not, nor do the
    bridge, the timers and what resumes. *)
Definition caller (ev : event) : option string :=
  match ev with
  | ECreate _ _ u _ | EAttach _ u | EDetach _ u | EClose _ u | ECloseByGroup _ u | EInput _ u _ | EResize _ u _ _ => Some u
  | _ => None
  end.
(** The call names the session, by its id or by its workspace. *)
Definition names (ev : event) (m : managed) : Prop :=
  match ev with
  | ECreate _ g _ _ | ECloseByGroup g _ => g = folder m
  | EAttach i _ | EDetach i _ | EClose i _ | EInput i _ _ | EResize i _ _ _ => i = sid m
  | _ => False
  end.

(** The session is as it was: the object, and where it is registered. *)
Definition kept (o : nat) (m : managed) (s' : service) : Prop :=
  sv_heap s' !! o = Some m /\ by_group (folder m) s' = Some o /\ sv_by_id s' !! sid m = Some o.

(** A call for another object leaves the session. *)
Definition others_kept (o : nat) (s s' : service) : Prop :=
  sv_by_group s' = sv_by_group s /\ sv_by_id s' = sv_by_id s /\ forall o', o' <> o -> sv_heap s' !! o' = sv_heap s !! o'.

Lemma others_kept_refl o s : others_kept o s s.
Proof. done. Qed.
Lemma cancel_task_fields t s :
  sv_heap (cancel_task t s) = sv_heap s /\ sv_by_group (cancel_task t s) = sv_by_group s /\
  sv_by_id (cancel_task t s) = sv_by_id s.
Proof. by rewrite cancel_task_eq. Qed.

Ltac others_kept_step :=
  unfold others_kept; simpl; rewrite ?cancel_task_eq; simpl;
  split; [done|]; split; [done|]; intros ? ?; rewrite ?lookup_insert_ne by done; reflexivity.

Lemma attach_others i u o m s :
  require_owned i u s = Ok (o, m) ->
  others_kept o s (attach_session history_max_bytes_arg utcnow container_name i u s).2.
Proof. intros R. unfold attach_session. rewrite R. cbn. destruct (md_bridge m); others_kept_step. Qed.
Lemma detach_others i u o m s :
  require_owned i u s = Ok (o, m) ->
  others_kept o s (detach_session history_max_bytes_arg reconnect_timeout utcnow i u s).2.
Proof. intros R. unfold detach_session. rewrite R. others_kept_step. Qed.
Lemma close_others o m s : others_kept o s (close_managed history_max_bytes_arg utcnow o m s).2.
Proof. unfold close_managed. cbn. destruct (md_bridge m); others_kept_step. Qed.
Lemma use_bridge_others i u o m c s : require_owned i u s = Ok (o, m) -> others_kept o s (use_bridge i u c s).2.
Proof. intros R. unfold use_bridge. rewrite R. destruct (md_bridge m); others_kept_step. Qed.

Lemma require_owned_owner i u s o m :
  require_owned i u s = Ok (o, m) -> sv_by_id s !! i = Some o /\ sv_heap s !! o = Some m /\ ts_owner_user_id (md_record m) = u.
Proof.
  unfold require_owned, id_session. destruct (sv_by_id s !! i) as [o1|]; [|done]. cbn.
  destruct (sv_heap s !! o1) as [m1|] eqn:Hm; [|done]. cbn. case_bool_decide; [|done]. by intros [= <- <-].
Qed.

(** A new session enters its workspace, and leaves the others. *)
Lemma create_new_enters s s0 gid g u b :
  sess_inv history_max_bytes_arg uuid4_hex s -> sv_uuids s0 = sv_uuids s ->
  new_session_in g u s (create_new uuid4_hex utcnow container_name gid g u b s0).2.
Proof.
  intros I E. eexists (S (sv_next s0)), _.
  split; [simpl; apply lookup_insert_eq|]. split; [simpl; unfold by_group; simpl; apply od_get_set_eq|].
  unfold sid; simpl. split; [by rewrite E, lookup_insert_eq|]. split; [done|]. split; [done|].
  split; [done|]. rewrite E. by eapply uuid_fresh.
Qed.

Lemma create_new_keeps s0 gid g u b o m :
  kept o m s0 -> folder m <> g -> o <= sv_next s0 -> sid m <> uuid4_hex (sv_uuids s0) ->
  kept o m (create_new uuid4_hex utcnow container_name gid g u b s0).2.
Proof.
  intros (Hm & Hg & Hi) Ng No Ni. unfold kept, create_new, by_group in *. simpl.
  rewrite lookup_insert_ne by lia. rewrite od_get_set_ne by done. by rewrite lookup_insert_ne.
Qed.

Lemma kept_others o o' m s s' : kept o m s -> o' <> o -> others_kept o' s s' -> kept o m s'.
Proof. intros (Hm & Hg & Hi) N (Eg & Ei & Eh). unfold kept, by_group in *. rewrite Eg, Ei, Eh; done. Qed.

(** What the caller gets who names the session of somebody else. *)
Definition refused (ev : event) (m : managed) (u : string) (s : service) (r : reply) (s' : service) : Prop :=
  match ev with
  | ECreate _ _ _ mode =>
      (exists e, r = RError e /\ s' = s) \/
      (archive_status (ts_status (md_record m)) = true /\ new_session_in (folder m) u s s')
  | _ => r = RError not_owner /\ s' = s
  end.

Lemma create_session_cases s o m gid g u mode :
  sess_inv history_max_bytes_arg uuid4_hex s -> kept o m s -> sv_heap s !! o = Some m -> ts_owner_user_id (md_record m) <> u ->
  let p := create_session uuid4_hex utcnow container_name gid g u mode s in
  (g = folder m -> refused (ECreate gid g u mode) m u s p.1 p.2) /\ (g <> folder m -> kept o m p.2).
Proof.
  intros I K Hm Hu p. unfold p, create_session, refused. destruct (resolve_backend mode) as [b|e].
  2: { split; [|done]. left. by eexists. }
  split.
  - intros ->. destruct K as (_ & Kg & _). unfold group_session. rewrite Kg. simpl. rewrite Hm. simpl.
    destruct (archive_status _).
    + right. split; [done|]. apply create_new_enters; [done|]. unfold drop_session. simpl. by rewrite cancel_task_eq.
    + left. rewrite bool_decide_eq_false_2 by done. by eexists.
  - intros Ng. assert (No : o <= sv_next s) by (pose proof (si_next _ _ s I _ _ Hm); lia).
    assert (Ni : sid m <> uuid4_hex (sv_uuids s)).
    { intros E. pose proof (uuid_fresh _ _ uuid4_inj s I) as F. rewrite <- E in F. destruct K as (_ & _ & Ki). congruence. }
    destruct (group_session g s) as [[o1 m1]|] eqn:G; [|by apply create_new_keeps].
    destruct (archive_status _); [|by case_bool_decide].
    assert (Hg1 : by_group g s = Some o1 /\ sv_heap s !! o1 = Some m1).
    { unfold group_session in G. destruct (by_group g s) as [o2|]; [|done]. simpl in G.
      destruct (sv_heap s !! o2) as [m2|] eqn:H2; [|done]. simpl in G. by injection G as <- <-. }
    destruct Hg1 as [Hg1 Hm1]. destruct (si_group _ _ s I _ _ Hg1) as (m2 & Hm2 & F2 & Hi2).
    assert (m2 = m1) as -> by congruence. destruct K as (_ & Kg & Ki).
    assert (N1 : o1 <> o) by (intros E; rewrite E in Hm1; apply Ng; rewrite <- F2; congruence).
    apply create_new_keeps; [|done|unfold drop_session; simpl; by rewrite cancel_task_eq..].
    unfold kept, by_group, drop_session in *. simpl. rewrite cancel_task_eq. simpl.
    rewrite lookup_insert_ne by done. rewrite od_get_pop_ne, lookup_delete_ne; [done| |].
    + intros E. change (sid m1 = sid m) in E. rewrite E in Hi2. apply N1. congruence.
    + change (folder m1 <> folder m). congruence.
Qed.

Lemma owned_call_cases s o m i u (op : reply * service) :
  sess_inv history_max_bytes_arg uuid4_hex s -> kept o m s -> ts_owner_user_id (md_record m) <> u ->
  (forall e, require_owned i u s = Err e -> op = (RError e, s)) ->
  (forall o' m', require_owned i u s = Ok (o', m') -> others_kept o' s op.2) ->
  (i = sid m -> op.1 = RError not_owner /\ op.2 = s) /\ (i <> sid m -> kept o m op.2).
Proof.
  intros I K Hu Herr Hok. split.
  - intros ->. destruct K as (Km & _ & Ki). rewrite (Herr not_owner); [done|].
    unfold require_owned, id_session. rewrite Ki. simpl. rewrite Km. simpl. by rewrite bool_decide_eq_false_2.
  - intros Ni. destruct (require_owned i u s) as [[o' m']|e] eqn:R; [|by rewrite (Herr e)].
    apply (kept_others o o' _ s); [done| |by eapply Hok]. apply require_owned_owner in R as (_ & Hm' & Ho).
    intros ->. destruct K as (Km & _). congruence.
Qed.

Lemma close_group_cases s o m g u :
  sess_inv history_max_bytes_arg uuid4_hex s -> kept o m s -> ts_owner_user_id (md_record m) <> u ->
  let p := close_session_by_group history_max_bytes_arg utcnow g u s in
  (g = folder m -> p.1 = RError not_owner /\ p.2 = s) /\ (g <> folder m -> kept o m p.2).
Proof.
  intros I K Hu p. unfold p, close_session_by_group, group_session. split.
  - intros ->. destruct K as (Km & Kg & _). rewrite Kg. simpl. rewrite Km. simpl. by rewrite bool_decide_eq_false_2.
  - intros _. destruct (by_group g s) as [o1|]; [|done]. simpl. destruct (sv_heap s !! o1) as [m1|]; [|done]. simpl.
    case_bool_decide; [|done]. unfold close_session. destruct (require_owned _ u s) as [[o' m']|] eqn:R; [|done].
    apply (kept_others o o' _ s); [done| |apply close_others]. apply require_owned_owner in R as (_ & Hm' & Ho).
    intros ->. destruct K as (Km & _). congruence.
Qed.

(** C39: Only the owner acts on a session. In every reachable state, take any call in which
    a user names himself who does not own a session that is registered. If the call names
    the session (attaching, detaching, closing by id or by workspace, typing, resizing), it
    raises the ownership error and changes nothing; asking for a session in its workspace
    raises an error and changes nothing either, unless the session has ended, when a new
    one of the caller takes its place. A call that does not name the session leaves it as
    it is. [force_close_session_by_group] names no user and closes any session. *)
Theorem non_owner_refused s o m ev u r s' :
  reach s -> sv_heap s !! o = Some m -> sv_by_id s !! sid m = Some o ->
  caller ev = Some u -> ts_owner_user_id (md_record m) <> u ->
  service_step s ev = Some (r, s') ->
  (names ev m -> refused ev m u s r s') /\ (~ names ev m -> kept o m s').
Proof.
  intros I%(reach_inv _ _ _ _ _ _ uuid4_inj) Hm Hi C Hu E.
  assert (K : kept o m s).
  { split; [done|]. split; [|done]. destruct (si_id _ _ s I _ _ Hi) as (m' & Hm' & _ & Hg). congruence. }
  destruct ev; try discriminate C; injection C as ->; injection E as E;
    pose proof (f_equal fst E) as Er; pose proof (f_equal snd E) as Es; cbn [fst snd] in Er, Es; rewrite <- Er, <- Es;
    clear E Er Es; cbn [names refused].
  - by apply (create_session_cases s o m).
  - apply (owned_call_cases s o m _ u); [done..|intros e R|intros o' m' R]; [unfold attach_session; by rewrite R|by eapply attach_others].
  - apply (owned_call_cases s o m _ u); [done..|intros e R|intros o' m' R]; [unfold detach_session; by rewrite R|by eapply detach_others].
  - apply (owned_call_cases s o m _ u); [done..|intros e R|intros o' m' R]; unfold close_session; rewrite R; [done|apply close_others].
  - by apply (close_group_cases s o m).
  - apply (owned_call_cases s o m _ u); [done..|intros e R|intros o' m' R]; [unfold send_input, use_bridge; by rewrite R|by eapply use_bridge_others].
  - apply (owned_call_cases s o m _ u); [done..|intros e R|intros o' m' R]; [unfold resize, use_bridge; by rewrite R|by eapply use_bridge_others].
Qed.

(** What appending does. With a positive limit, appending output keeps the
    newest whole chunks: some oldest chunks are dropped, no byte more than the
    limit is kept, the flag says whether anything was ever dropped, and only
    what does not fit is dropped. *)
Theorem append_keeps_newest d m :
  hist_ok history_max_bytes_arg m -> (0 < history_max_bytes history_max_bytes_arg)%Z -> d <> "" ->
  let m' := append_output_history history_max_bytes_arg d m in
  exists dropped,
    md_chunks m ++ [d] = dropped ++ md_chunks m' /\
    md_truncated m' = md_truncated m || negb (bool_decide (dropped = [])) /\
    (md_bytes m' <= history_max_bytes history_max_bytes_arg)%Z /\
    (forall l x, dropped = l ++ [x] ->
       (history_max_bytes history_max_bytes_arg < utf8_len (join_chunks (x :: md_chunks m')))%Z).
Proof.
  intros [H1 H2] Hm Hd. unfold append_output_history.
  destruct (Z.leb_spec (history_max_bytes history_max_bytes_arg) 0) as [|_]; [lia|]. cbn [orb].
  rewrite bool_decide_eq_false_2 by done.
  destruct (Z.leb_spec (utf8_len d) 0) as [Hz|Hz].
  { exfalso. apply Hd, utf8_len_zero. pose proof (utf8_len_nonneg d). lia. }
  pose proof (drop_oldest_least history_max_bytes_arg (md_chunks m ++ [d])
    (md_bytes m + utf8_len d)%Z (md_truncated m)) as S.
  destruct (drop_oldest _ _ _ _) as [[c b] t]. destruct S as (S1 & S2 & dr & S3 & S4 & S5).
  { by rewrite join_chunks_app, utf8_len_app, H1, join_one. }
  exists dr. assert (0 <= b)%Z by (rewrite S1; apply utf8_len_nonneg).
  destruct (Z.ltb_spec b 0); [lia|]. simpl. auto.
Qed.

(** One live session per workspace. Asking for a container session in a
    workspace whose session has not ended gives its owner that session and
    changes nothing; otherwise a new session with a new id, owned by the caller
    and [created], takes the workspace over and its bridge is started. *)
Theorem create_session_effect s gid g u :
  reach s ->
  let p := create_session uuid4_hex utcnow container_name gid g u "container" s in
  match group_session g s with
  | Some (_, m) =>
      if archive_status (ts_status (md_record m))
      then new_session_in g u s p.2
      else ts_owner_user_id (md_record m) = u -> p = (RRecord (md_record m), s)
  | None => new_session_in g u s p.2
  end.
Proof.
  intros R. pose proof (reach_inv _ _ _ _ _ _ uuid4_inj s R) as I.
  unfold create_session. cbn [resolve_backend].
  change (resolve_backend "container") with (Ok (E := terminal_error) "docker_container"). cbv iota.
  destruct (group_session g s) as [[o m]|] eqn:Hg; [|by apply create_new_enters].
  destruct (archive_status _); [|intros Hu; by rewrite bool_decide_eq_true_2].
  apply create_new_enters; [done|]. unfold drop_session. simpl. by rewrite cancel_task_eq.
Qed.
End props.

(** ** Concrete runs *)

Definition ex_uuid (n : nat) : string := "s" +:+ pretty n.
Definition ex_clock (n : nat) : Z := Z.of_nat n.
Definition ex_dir (g : string) : option string := Some g.

Lemma ex_uuid_inj i j : ex_uuid i = ex_uuid j -> i = j.
Proof. unfold ex_uuid. intros H. apply (inj (String.append "s")) in H. by apply (inj pretty). Qed.

Definition ex_run (evs : list event) : option service :=
  run_events 8 1000 ex_uuid ex_clock (fun _ _ => None) ex_dir evs init_service.
Definition ex_output (d : string) : TerminalBridgeEvent := mkBridgeEvent "output" (Some d) None None.

(** Alice opens a terminal, attaches, and gets more output than the history
    keeps; the second chunk is on its way while its snapshot is written. *)
Definition ex_session : list event :=
  [ECreate "g1" "ws" "alice" "container"; EResume 2 None; EResume 3 None; EResume 3 None;
   EAttach "s0" "alice"; EResume 5 None; EResume 5 None;
   EBridge "s0" (ex_output "hello "); EResume 6 None; EResume 6 None;
   EBridge "s0" (ex_output "world")].

Definition ex_attached : service := default init_service (ex_run ex_session).
Definition ex_detached : service := default init_service (ex_run (ex_session ++ [EDetach "s0" "alice"])).

Lemma ex_attached_reach : reach 8 1000 ex_uuid ex_clock (fun _ _ => None) ex_dir ex_attached.
Proof.
  apply (run_service_reach _ _ _ _ _ _ ex_session init_service); [apply reach_init|].
  vm_compute. reflexivity.
Qed.
Lemma ex_detached_reach : reach 8 1000 ex_uuid ex_clock (fun _ _ => None) ex_dir ex_detached.
Proof.
  apply (run_service_reach _ _ _ _ _ _ (ex_session ++ [EDetach "s0" "alice"]) init_service);
    [apply reach_init|]. vm_compute. reflexivity.
Qed.

(** ** Witnesses *)

Definition ex_managed (s : service) : managed :=
  default (fresh_managed (mkSession "" "" "" "" "" None TsClosed 0 None None) None)
    (snd <$> group_session "ws" s).

Lemma sessions_coherent_witness :
  by_group "ws" ex_attached = Some 1 /\
  exists m, sv_heap ex_attached !! 1 = Some m /\ folder m = "ws" /\
            sv_by_id ex_attached !! sid m = Some 1.
Proof.
  assert (by_group "ws" ex_attached = Some 1) as H by (vm_compute; reflexivity).
  split; [exact H|].
  exact (proj1 (proj1 (sessions_coherent 8 1000 ex_uuid ex_clock (fun _ _ => None) ex_dir ex_uuid_inj
    ex_attached ex_attached_reach) "ws" 1) H).
Defined.

Lemma history_bounded_witness :
  let '(snap, _) := build_history_snapshot 8 ex_clock (ex_managed ex_attached) ex_attached in
  hs_output snap = "world" /\ hs_output_bytes snap = utf8_len (hs_output snap).
Proof.
  pose proof (history_bounded 8 1000 ex_uuid ex_clock (fun _ _ => None) ex_dir ex_uuid_inj
    ex_attached 1 (ex_managed ex_attached) ex_attached_reach ltac:(vm_compute; reflexivity)) as B.
  cbn [build_history_snapshot read_now] in *.
  split; [vm_compute; reflexivity|exact (proj1 B)].
Defined.

Lemma attached_client_sees_history_witness :
  exists q, md_queue (ex_managed ex_attached) = Some q /\
    queue_output (default [] (sv_queues ex_attached !! q)) = "hello " /\
    exists p, pend (sv_konts ex_attached) q p /\ is_suffix "world" ("hello " +:+ p).
Proof.
  exists 4. split; [vm_compute; reflexivity|]. split; [vm_compute; reflexivity|].
  destruct (attached_client_sees_history 8 1000 ex_uuid ex_clock (fun _ _ => None) ex_dir ex_uuid_inj
    ex_attached 1 (ex_managed ex_attached) 4 ex_attached_reach
    ltac:(vm_compute; reflexivity) ltac:(vm_compute; reflexivity)) as [(b & _ & H)|H]; [exfalso|exact H].
  replace (sv_calls ex_attached) with [(0, BStart)] in H by (vm_compute; reflexivity).
  apply list_elem_of_singleton in H. discriminate H.
Defined.

Lemma detached_session_expires_witness :
  ts_status (md_record (ex_managed ex_detached)) = TsDetached /\
  exists t r s' m', md_reconnect (ex_managed ex_detached) = Some t /\
    expire_detached_session 8 ex_clock t ex_detached = Some (r, s') /\
    sv_heap s' !! 1 = Some m' /\ ts_status (md_record m') = TsClosed.
Proof.
  assert (exists d, ts_reconnect_deadline (md_record (ex_managed ex_detached)) = Some d) as [d Hd]
    by (eexists; vm_compute; reflexivity).
  destruct (detached_session_expires 8 1000 ex_uuid ex_clock (fun _ _ => None) ex_dir ex_uuid_inj
    ex_detached "s0" 1 (ex_managed ex_detached) d ex_detached_reach
    ltac:(vm_compute; reflexivity) ltac:(vm_compute; reflexivity) Hd)
    as (H1 & t & r & s' & m' & H2 & _ & H3 & H4 & H5 & _).
  split; [exact H1|]. exists t, r, s', m'. auto.
Defined.

(** Bob may not close the terminal of Alice, and a terminal of his own leaves hers. *)
Lemma non_owner_refused_witness :
  close_session 8 ex_clock "s0" "bob" ex_attached = (RError not_owner, ex_attached) /\
  kept 1 (ex_managed ex_attached)
    (create_session ex_uuid ex_clock (fun _ _ => None) "g2" "ws2" "bob" "container" ex_attached).2.
Proof.
  assert (N : forall ev r s', caller ev = Some "bob" ->
    step 8 1000 ex_uuid ex_clock (fun _ _ => None) ex_dir ex_attached ev = Some (r, s') ->
    (names ev (ex_managed ex_attached) -> refused ev (ex_managed ex_attached) "bob" ex_attached r s') /\
    (~ names ev (ex_managed ex_attached) -> kept 1 (ex_managed ex_attached) s')).
  { intros ev r s' C E.
    exact (non_owner_refused 8 1000 ex_uuid ex_clock (fun _ _ => None) ex_dir ex_uuid_inj ex_attached 1
      (ex_managed ex_attached) ev "bob" r s' ex_attached_reach ltac:(vm_compute; reflexivity)
      ltac:(vm_compute; reflexivity) C ltac:(vm_compute; discriminate) E). }
  split.
  - destruct (close_session 8 ex_clock "s0" "bob" ex_attached) as [r s'] eqn:E.
    destruct (proj1 (N (EClose "s0" "bob") r s' eq_refl ltac:(cbn [step]; by rewrite E)) ltac:(vm_compute; reflexivity)) as [-> ->].
    reflexivity.
  - destruct (create_session ex_uuid ex_clock (fun _ _ => None) "g2" "ws2" "bob" "container" ex_attached) as [r s'] eqn:E.
    refine (proj2 (N (ECreate "g2" "ws2" "bob" "container") r s' eq_refl ltac:(cbn [step]; by rewrite E)) _).
    vm_compute. discriminate.
Defined.

Lemma append_keeps_newest_witness :
  let m' := append_output_history 8 "cdefgh" (append_output_history 8 "abc"
              (fresh_managed (mkSession "" "" "" "" "" None TsClosed 0 None None) None)) in
  md_chunks m' = ["cdefgh"] /\ md_truncated m' = true /\ (md_bytes m' <= 8)%Z.
Proof.
  set (m := append_output_history 8 "abc"
              (fresh_managed (mkSession "" "" "" "" "" None TsClosed 0 None None) None)).
  destruct (append_keeps_newest 8 "cdefgh" m) as (dropped & _ & _ & H & _).
  - split; [vm_compute; reflexivity|]. vm_compute. discriminate.
  - vm_compute. reflexivity.
  - discriminate.
  - split; [vm_compute; reflexivity|]. split; [vm_compute; reflexivity|]. exact H.
Defined.

Lemma create_session_effect_witness :
  new_session_in "ws2" "bob" ex_attached
    (create_session ex_uuid ex_clock (fun _ _ => None) "g2" "ws2" "bob" "container" ex_attached).2.
Proof.
  pose proof (create_session_effect 8 1000 ex_uuid ex_clock (fun _ _ => None) ex_dir ex_uuid_inj
    ex_attached "g2" "ws2" "bob" ex_attached_reach) as H.
  replace (group_session "ws2" ex_attached) with (@None (nat * managed)) in H
    by (vm_compute; reflexivity).
  exact H.
Defined.

(** ** Corner cases, on concrete runs *)

Definition ex_status (evs : list event) : option TerminalSessionStatus :=
  s ← ex_run evs; p ← group_session "ws" s; Some (ts_status (md_record p.2)).

(** [attach_session] does not look at the status: the owner of a closed session
    can attach to it, which makes it [attached] to a bridge that is closed. *)
Example closed_session_can_be_reattached :
  ex_status (ex_session ++ [EClose "s0" "alice"]) = Some TsClosed /\
  ex_status (ex_session ++ [EClose "s0" "alice"; EAttach "s0" "alice"]) = Some TsAttached.
Proof. split; vm_compute; reflexivity. Qed.

(** When the bridge of a new session cannot be started, [create_session] raises
    and leaves the session [created]: its owner is given the dead session, and
    anybody else a conflict. *)
Example failed_start_leaves_the_session :
  let evs := [ECreate "g1" "ws" "alice" "container"; EResume 2 (Some "no docker")] in
  ex_status evs = Some TsCreated /\
  (s ← ex_run evs; Some (is_ok (match (create_session ex_uuid ex_clock (fun _ _ => None)
      "g1" "ws" "bob" "container" s).1 with RError e => Err e | _ => Ok tt end))) = Some false.
Proof. split; vm_compute; reflexivity. Qed.

(** A session recovered from its files is [detached] without deadline and timer:
    nothing ever closes it. *)
Example recovered_session_has_no_timer :
  (s ← ex_run (ex_session ++ [EResume 7 None]);
   p ← group_session "ws" (recover_active_sessions 8 s);
   Some (ts_status (md_record p.2), ts_reconnect_deadline (md_record p.2), md_reconnect p.2,
         join_chunks (md_chunks p.2))) = Some (TsDetached, None, None, "world").
Proof. vm_compute. reflexivity. Qed.

(** Snapshots are written outside the lock, in any order: when the write of an
    output event comes after that of the exit, [latest.json] says [attached] for
    a session that has exited, and a restart recovers it. *)
Example late_write_overwrites_latest :
  (s ← ex_run (ex_session ++ [EBridge "s0" (mkBridgeEvent "exit" None (Some 0%Z) None);
                              EResume 8 None; EResume 7 None]);
   latest ← sv_latest s !! "ws"; p ← group_session "ws" s;
   q ← group_session "ws" (recover_active_sessions 8 s);
   Some (ts_status (md_record p.2), ts_status (hs_record latest), ts_status (md_record q.2))) =
  Some (TsExited, TsAttached, TsDetached).
Proof. vm_compute. reflexivity. Qed.
