(* ===== verification/TerminalPersist.v ===== *)
(** * The files of the terminal history ([services/terminal_sessions.py])

    The JSON text a snapshot is persisted as and what the loader makes of a file.
    [TerminalSessions.v] keeps snapshots in its files; the round trip below is why
    that is what the program does. *)

From stdpp Require Import base list option strings.
From Stdlib Require Import ZArith NArith Lia Ascii.
From S2P Require Import Prelude PyStr PyInt PyTime PySort PyDict PyJson PyJsonProps TerminalHistory TerminalSessions.

(** ** Text files *)

(** Reading a text file translates its newlines. *)
Definition CR : ascii := ascii_of_N 13.
Definition LF : ascii := ascii_of_N 10.
Fixpoint universal_newlines (l : list ascii) : list ascii :=
  match l with
  | [] => []
  | c :: l' =>
      if bool_decide (c = CR) then
        LF :: match l' with
              | c' :: l'' => if bool_decide (c' = LF) then universal_newlines l'' else universal_newlines l'
              | [] => []
              end
      else c :: universal_newlines l'
  end.
Definition read_text (content : string) : string := of_chars (universal_newlines (str_chars content)).

(** ** Writing *)

Definition status_text (s : TerminalSessionStatus) : string :=
  match s with
  | TsCreated => "created" | TsAttached => "attached" | TsDetached => "detached"
  | TsClosed => "closed" | TsExited => "exited"
  end.

Definition opt_json {A} (f : A -> json) (o : option A) : json :=
  match o with Some a => f a | None => JNull end.
Definition iso_json (t : Z) : json := JStr (isoformat t).

(** [_history_snapshot_payload]. *)
Definition history_snapshot_payload (snap : TerminalSessionHistorySnapshot) : json :=
  let r := hs_record snap in
  JObj [("record", JObj [
           ("session_id", JStr (ts_session_id r)); ("group_id", JStr (ts_group_id r));
           ("group_folder", JStr (ts_group_folder r)); ("owner_user_id", JStr (ts_owner_user_id r));
           ("backend", JStr (ts_backend r)); ("container_name", opt_json JStr (ts_container_name r));
           ("status", JStr (status_text (ts_status r))); ("created_at", iso_json (ts_created_at r));
           ("last_attached_at", opt_json iso_json (ts_last_attached_at r));
           ("reconnect_deadline", opt_json iso_json (ts_reconnect_deadline r))]);
        ("snapshot_at", iso_json (hs_snapshot_at snap)); ("output", JStr (hs_output snap));
        ("output_bytes", JInt (hs_output_bytes snap)); ("history_max_bytes", JInt (hs_history_max_bytes snap));
        ("truncated", JBool (hs_truncated snap))].

(** ** Reading *)

(** The exceptions that leave the loader: of a status that cannot be hashed, of an
    offset out of the range of datetimes; or an outcome outside the model. *)
Inductive load_error := LoadTypeError | LoadOverflowError | LoadNotModelled.

Definition parse_status (s : string) : option TerminalSessionStatus :=
  find_first (fun st => bool_decide (status_text st = s)) [TsCreated; TsAttached; TsDetached; TsClosed; TsExited].

(** [d.get(key)]; a missing key is [None]. *)
Definition jget (k : string) (d : list (string * json)) : json := default JNull (od_get k d).

Section reading.
Variable other_iso : string -> option datetime.
(** [str] of a float, a list or a dict. *)
Variable py_repr : json -> string.
Variable float_repr : string -> string.
Variable history_max_bytes : Z.

(** The text of [_write_snapshot_payload]. *)
Definition write_snapshot_payload (snap : TerminalSessionHistorySnapshot) : string :=
  json_dumps float_repr (history_snapshot_payload snap).

(** [str(v)]. *)
Definition py_str (v : json) : string :=
  match v with
  | JStr s => s
  | JNull => "None"
  | JBool true => "True"
  | JBool false => "False"
  | JInt n => of_chars (print_int n)
  | _ => py_repr v
  end.

(** [_parse_persisted_datetime]. *)
Definition parse_persisted_datetime (v : json) : result load_error (option Z) :=
  match v with
  | JStr s =>
      match fromisoformat other_iso s with
      | None => Ok None
      | Some (Naive w) => Ok (Some w)
      | Some (Aware i) =>
          if ((datetime_min <=? i) && (i <=? datetime_max))%Z then Ok (Some i) else raise LoadOverflowError
      end
  | _ => Ok None
  end.

(** The status of a payload; a list or a dict cannot be looked up in a set. *)
Definition persisted_status (v : json) : result load_error (option TerminalSessionStatus) :=
  match v with
  | JStr s => Ok (parse_status s)
  | JArr _ | JObj _ => raise LoadTypeError
  | _ => Ok None
  end.

(** A non-negative [int]; booleans are integers. *)
Definition non_negative (v : json) (d : Z) : Z :=
  match v with
  | JInt n => if (n <? 0)%Z then d else n
  | JBool b => if b then 1%Z else 0%Z
  | _ => d
  end.

Definition is_text (s : string) (v : json) : bool :=
  match v with JStr s' => bool_decide (s' = s) | _ => false end.

(** The snapshot of a decoded payload. *)
Definition snapshot_of_payload (payload record : list (string * json)) (output : string) :
    result load_error (option TerminalSessionHistorySnapshot) :=
  if negb (is_text "docker_container" (jget "backend" record)) then Ok None
  else
    created ← parse_persisted_datetime (jget "created_at" record);
    match created with
    | None => Ok None
    | Some created_at =>
        status ← persisted_status (jget "status" record);
        match status with
        | None => Ok None
        | Some status =>
            last ← parse_persisted_datetime (jget "last_attached_at" record);
            deadline ← parse_persisted_datetime (jget "reconnect_deadline" record);
            let field k := py_str (default (JStr "") (od_get k record)) in
            let r := mkSession (field "session_id") (field "group_id") (field "group_folder")
                       (field "owner_user_id") "docker_container"
                       (match jget "container_name" record with JStr s => Some s | _ => None end)
                       status created_at last deadline in
            if bool_decide (ts_session_id r = "" \/ ts_group_id r = "" \/ ts_group_folder r = "" \/
                            ts_owner_user_id r = "") then Ok None
            else
              at_ ← parse_persisted_datetime (jget "snapshot_at" payload);
              Ok (Some (mkHistory r (default created_at at_) output
                          (non_negative (jget "output_bytes" payload) (utf8_len output))
                          (non_negative (jget "history_max_bytes" payload) history_max_bytes)
                          (match jget "truncated" payload with JBool b => b | _ => false end)))
        end
    end.

(** [_load_persisted_history_snapshot_from_path], of the content of the file. *)
Definition load_snapshot_text (content : option string) :
    result load_error (option TerminalSessionHistorySnapshot) :=
  match content with
  | None => Ok None
  | Some content =>
      match json_loads (read_text content) with
      | Ok (JObj payload) =>
          match od_get "record" payload, od_get "output" payload with
          | Some (JObj record), Some (JStr output) => snapshot_of_payload payload record output
          | _, _ => Ok None
          end
      | Err JOutOfRange => raise LoadNotModelled
      | _ => Ok None
      end
  end.

(** ** The round trip *)

Definition in_range (t : Z) : Prop := (datetime_min <= t <= datetime_max)%Z.

(** What the service writes: its only backend, representable times and counts. *)
Record writable (snap : TerminalSessionHistorySnapshot) : Prop := {
  wr_backend : ts_backend (hs_record snap) = "docker_container";
  wr_created : in_range (ts_created_at (hs_record snap));
  wr_last : forall t, ts_last_attached_at (hs_record snap) = Some t -> in_range t;
  wr_deadline : forall t, ts_reconnect_deadline (hs_record snap) = Some t -> in_range t;
  wr_at : in_range (hs_snapshot_at snap);
  wr_bytes : (0 <= hs_output_bytes snap)%Z /\ length (int_digits (hs_output_bytes snap)) <= 4300;
  wr_max : (0 <= hs_history_max_bytes snap)%Z /\ length (int_digits (hs_history_max_bytes snap)) <= 4300
}.

Lemma universal_newlines_id l : CR ∉ l -> universal_newlines l = l.
Proof.
  induction l as [|c l IH]; [done|]. intros H. apply not_elem_of_cons in H as [H1 H2]. cbn [universal_newlines].
  rewrite bool_decide_eq_false_2 by done. by rewrite IH.
Qed.

Lemma escape_no_cr c : CR ∉ escape false c.
Proof. apply (bool_decide_unpack _). destruct c as [[] [] [] [] [] [] [] []]; reflexivity. Qed.

Lemma print_string_no_cr s : CR ∉ print_string false s.
Proof.
  unfold print_string. rewrite elem_of_cons, elem_of_app. intros [H|[H|H]]; [discriminate H| |].
  - induction (str_chars s) as [|c l IH]; [by apply not_elem_of_nil in H|]. cbn [flat_map] in H.
    apply elem_of_app in H as [H|H]; [by apply escape_no_cr in H|auto].
  - apply list_elem_of_singleton in H. discriminate H.
Qed.

Lemma print_int_no_cr n : CR ∉ print_int n.
Proof.
  unfold print_int. rewrite elem_of_app. intros [H|H].
  - destruct (n <? 0)%Z; [apply list_elem_of_singleton in H; discriminate H|by apply not_elem_of_nil in H].
  - fold (int_digits n) in H. destruct (int_digits_spec n) as (_ & D & _). rewrite forallb_forall in D.
    apply list_elem_of_In, D in H. discriminate H.
Qed.

Lemma join_no_cr sep l : CR ∉ sep -> Forall (fun x => CR ∉ x) l -> CR ∉ join sep l.
Proof.
  intros Hs. induction l as [|x l IH]; intros F H; [by apply not_elem_of_nil in H|].
  apply Forall_cons in F as [Fx F]. destruct l as [|y l]; [done|].
  change (join sep (x :: y :: l)) with (x ++ sep ++ join sep (y :: l)) in H.
  rewrite !elem_of_app in H. destruct H as [H|[H|H]]; [done|done|by apply IH].
Qed.

Lemma print_no_cr level v : json_wf v -> CR ∉ print_json float_repr false None level v.
Proof.
  revert level. induction v as [|b|z|s|s|l IH|d IH] using json_rect'; intros level W.
  - by apply (bool_decide_unpack _).
  - destruct b; by apply (bool_decide_unpack _).
  - apply print_int_no_cr.
  - destruct W.
  - apply print_string_no_cr.
  - simpl in W. rewrite fold_and_Forall in W. destruct l as [|x l]; [by apply (bool_decide_unpack _)|].
    change (print_json float_repr false None level (JArr (x :: l))) with
      ("["%char :: join (str_chars ", ") (map (print_json float_repr false None (S level)) (x :: l)) ++ ["]"%char]).
    rewrite elem_of_cons, elem_of_app. intros [H|[H|H]]; [discriminate H| |apply list_elem_of_singleton in H; discriminate H].
    revert H. apply join_no_cr; [by apply (bool_decide_unpack _)|]. rewrite Forall_map.
    rewrite !Forall_forall in *. intros y Hy. apply IH; auto.
  - destruct W as [_ W]. rewrite (fold_and_Forall (fun e : string * json => json_wf e.2)) in W.
    destruct d as [|e d]; [by apply (bool_decide_unpack _)|].
    change (print_json float_repr false None level (JObj (e :: d))) with
      ("{"%char :: join (str_chars ", ") (map (print_member float_repr false None level) (e :: d)) ++ ["}"%char]).
    rewrite elem_of_cons, elem_of_app. intros [H|[H|H]]; [discriminate H| |apply list_elem_of_singleton in H; discriminate H].
    revert H. apply join_no_cr; [by apply (bool_decide_unpack _)|]. rewrite Forall_map.
    rewrite !Forall_forall in *. intros y Hy. unfold print_member. rewrite !elem_of_app. intros [H|[H|H]].
    + by apply print_string_no_cr in H.
    + by apply (bool_decide_unpack (CR ∉ str_chars ": ")) in H.
    + revert H. apply IH; auto.
Qed.

Lemma payload_wf snap : writable snap -> json_wf (history_snapshot_payload snap).
Proof.
  intros W. unfold history_snapshot_payload. cbn [json_wf fold_right].
  assert (K : forall A (f : A -> json) o, (forall a, json_wf (f a)) -> json_wf (opt_json f o))
    by (intros A f [a|] Hf; [apply Hf|done]).
  assert (D : forall l : list (string * json), bool_decide (NoDup l.*1) = true -> od_wf l)
    by (intros l H; by apply bool_decide_eq_true in H).
  destruct W. cbn [snd json_wf]. repeat split; try done; try (by apply D); try (by apply K); tauto.
Qed.

Lemma iso_json_read t : in_range t -> parse_persisted_datetime (iso_json t) = Ok (Some t).
Proof.
  intros H. unfold parse_persisted_datetime, iso_json. rewrite iso_roundtrip by done. unfold in_range in H.
  by rewrite !(proj2 (Z.leb_le _ _)) by lia.
Qed.

Lemma iso_opt_read o : (forall t, o = Some t -> in_range t) ->
  parse_persisted_datetime (opt_json iso_json o) = Ok o.
Proof. destruct o as [t|]; intros H; [by apply iso_json_read, H|done]. Qed.

Lemma status_read s : parse_status (status_text s) = Some s.
Proof. by destruct s. Qed.

Lemma od_get_hd {V} (k : string) (v : V) d : od_get k ((k, v) :: d) = Some v.
Proof. simpl. by rewrite decide_True. Qed.
Lemma od_get_tl {V} (k k' : string) (v : V) d : bool_decide (k' = k) = false -> od_get k ((k', v) :: d) = od_get k d.
Proof. intros H%bool_decide_eq_false. simpl. by rewrite decide_False. Qed.

(** The lookups in a payload. *)
Ltac fields := repeat first [rewrite od_get_hd | rewrite od_get_tl by reflexivity].

(** C32: A persisted snapshot is read back. Loading the file a snapshot was written to gives
    exactly that snapshot, output, times and counts included, unless one of the
    four identifiers is empty, which the loader refuses. *)
Theorem snapshot_roundtrip snap :
  writable snap ->
  load_snapshot_text (Some (write_snapshot_payload snap)) =
    Ok (if TerminalSessions.loads snap then Some snap else None).
Proof.
  intros W. pose proof (payload_wf snap W) as J. unfold load_snapshot_text, write_snapshot_payload, read_text.
  unfold json_dumps. rewrite str_chars_of_chars, universal_newlines_id by by apply print_no_cr.
  rewrite print_parse by done. unfold history_snapshot_payload. fields.
  unfold snapshot_of_payload, jget. fields. cbn [default from_option id].
  destruct W as [W1 W2 W3 W4 W5 [W6 _] [W7 _]]. cbn [is_text]. rewrite W1, bool_decide_eq_true_2 by done.
  cbn [negb]. rewrite (iso_json_read _ W2), (iso_opt_read _ W3), (iso_opt_read _ W4), (iso_json_read _ W5).
  cbn [mbind result_bind persisted_status]. rewrite status_read. cbn [mbind result_bind].
  unfold TerminalSessions.loads. cbn [ts_session_id ts_group_id ts_group_folder ts_owner_user_id py_str].
  unfold non_negative. rewrite !(proj2 (Z.ltb_ge _ 0)) by done. cbn [default from_option id].
  destruct snap as [[sid gid gf ow be cn st cr la rd] at_ out ob hm tr].
  cbn [hs_record hs_snapshot_at hs_output hs_output_bytes hs_history_max_bytes hs_truncated ts_session_id
       ts_group_id ts_group_folder ts_owner_user_id ts_backend ts_container_name ts_status ts_created_at
       ts_last_attached_at ts_reconnect_deadline] in *. subst be.
  replace (match opt_json JStr cn with JStr s => Some s | _ => None end) with cn by (by destruct cn).
  case_bool_decide as E.
  - assert (X : bool_decide (sid = "") || bool_decide (gid = "") || bool_decide (gf = "") || bool_decide (ow = "") = true).
    { destruct E as [->|[->|[->| ->]]]; rewrite ?orb_true_r; done. }
    by rewrite X.
  - rewrite !bool_decide_eq_false_2 by tauto. done.
Qed.
End reading.

(** ** Concrete files *)

Definition px_record : TerminalSessionRecord :=
  mkSession "s1" "g1" "ws" "alice" "docker_container" None TsExited 1000000 (Some 2500000%Z) None.
Definition px_snapshot : TerminalSessionHistorySnapshot :=
  mkHistory px_record 3000001 (of_chars (str_chars "ls" ++ [CR; LF; quote; ascii_of_N 233])) 6 1000 false.

Lemma snapshot_roundtrip_witness :
  load_snapshot_text (fun _ => None) (fun _ => "") 0
    (Some (write_snapshot_payload (fun s => s) px_snapshot)) = Ok (Some px_snapshot).
Proof.
  apply (snapshot_roundtrip (fun _ => None) (fun _ => "") (fun s => s) 0 px_snapshot).
  assert (R : forall t, ((datetime_min <=? t) && (t <=? datetime_max))%Z = true -> in_range t).
  { intros t [H1%Z.leb_le H2%Z.leb_le]%andb_true_iff. by split. }
  split.
  - reflexivity.
  - apply R. reflexivity.
  - intros t [= <-]. apply R. reflexivity.
  - intros t [=].
  - apply R. reflexivity.
  - split; [done|]. apply Nat.leb_le. reflexivity.
  - split; [done|]. apply Nat.leb_le. reflexivity.
Defined.

(** A file whose status is a list does not count as invalid: the exception leaves
    the loader, and with it every listing that meets the file. *)
Example unhashable_status_raises :
  load_snapshot_text (fun _ => None) (fun _ => "") 0 (Some (json_dumps (fun s => s)
    (JObj [("record", JObj [("backend", JStr "docker_container"); ("created_at", iso_json 0);
       ("status", JArr [])]); ("output", JStr "")]))) = raise LoadTypeError.
Proof. vm_compute. reflexivity. Qed.
