(* ===== verification/TerminalBridge.v ===== *)
(** * The bridge to the shell of a terminal

    [DockerExecTerminalBridge] of [services/terminal_bridge.py] with
    [ContainerManager.graceful_shutdown] of [infra/exec/container_manager.py]: the calls on a
    bridge, the two tasks that read the pseudo terminal and wait for the shell, the threads
    that make the system calls, and the descriptors of the program, whose numbers are given
    out again once they are closed. Every stretch of code between two suspensions is one
    event. What docker is asked for is that of Containers.v. A text is the list of its code
    points. *)

From stdpp Require Import base tactics list option gmap.
From Stdlib Require Import ZArith NArith Lia ZifyBool ZifyN.
From S2P Require Import Prelude.

(** ** UTF-8 *)

Definition text : Type := list N.
Definition bytes : Type := list N.

Definition is_surrogate (c : N) : bool := ((0xD800 <=? c) && (c <=? 0xDFFF))%N.
(** [data.encode("utf-8")] of a character; [None] is its [UnicodeEncodeError]. *)
Definition encode_point (c : N) : option bytes :=
  (if c <? 0x80 then Some [c]
   else if c <? 0x800 then Some [0xC0 + c / 0x40; 0x80 + c mod 0x40]
   else if is_surrogate c then None
   else if c <? 0x10000 then Some [0xE0 + c / 0x1000; 0x80 + c / 0x40 mod 0x40; 0x80 + c mod 0x40]
   else Some [0xF0 + c / 0x40000; 0x80 + c / 0x1000 mod 0x40; 0x80 + c / 0x40 mod 0x40; 0x80 + c mod 0x40])%N.
Fixpoint encode (t : text) : option bytes :=
  match t with
  | [] => Some []
  | c :: t => b ← encode_point c; l ← encode t; Some (b ++ l)
  end.

Definition is_cont (b : N) : bool := ((0x80 <=? b) && (b <? 0xC0))%N.
(** The second byte of a sequence: neither an overlong form, nor a surrogate, nor beyond U+10FFFF. *)
Definition is_second (b0 b1 : N) : bool :=
  is_cont b1 &&
  (if b0 =? 0xE0 then 0xA0 <=? b1
   else if b0 =? 0xED then b1 <? 0xA0
   else if b0 =? 0xF0 then 0x90 <=? b1
   else if b0 =? 0xF4 then b1 <? 0x90
   else true)%N.

(** [chunk.decode("utf-8", errors="ignore")]. A byte that starts no sequence is dropped, and
    so are then the bytes that would have continued it. *)
Fixpoint decode_ignore (l : bytes) : text :=
  match l with
  | [] => []
  | b0 :: r =>
      if (b0 <? 0x80)%N then b0 :: decode_ignore r
      else if ((0xC2 <=? b0) && (b0 <? 0xE0))%N then
        match r with
        | b1 :: r1 => if is_cont b1 then ((b0 - 0xC0) * 0x40 + (b1 - 0x80))%N :: decode_ignore r1 else decode_ignore r
        | _ => decode_ignore r
        end
      else if ((0xE0 <=? b0) && (b0 <? 0xF0))%N then
        match r with
        | b1 :: b2 :: r2 =>
            if is_second b0 b1 && is_cont b2
            then ((b0 - 0xE0) * 0x1000 + (b1 - 0x80) * 0x40 + (b2 - 0x80))%N :: decode_ignore r2
            else decode_ignore r
        | _ => decode_ignore r
        end
      else if ((0xF0 <=? b0) && (b0 <? 0xF5))%N then
        match r with
        | b1 :: b2 :: b3 :: r3 =>
            if is_second b0 b1 && is_cont b2 && is_cont b3
            then ((b0 - 0xF0) * 0x40000 + (b1 - 0x80) * 0x1000 + (b2 - 0x80) * 0x40 + (b3 - 0x80))%N :: decode_ignore r3
            else decode_ignore r
        | _ => decode_ignore r
        end
      else decode_ignore r
  end.

(** ** The state *)

(** What a descriptor of the program stands for; [FOther] is any file of its own. *)
Inductive file := FMaster | FSlave | FOther (n : nat).
#[export] Instance file_eq_dec : EqDecision file.
Proof. solve_decision. Defined.

Inductive errno := EBADF | EIO | EOTHER.
#[export] Instance errno_eq_dec : EqDecision errno.
Proof. solve_decision. Defined.

(** A call of [asyncio.to_thread] and, once the thread made it, its result: for a read the
    bytes, for the others nothing. *)
Inductive syscall := SRead (fd : nat) | SWrite (fd : nat) (payload : bytes) | SIoctl (fd : nat) (rows cols : Z).
Record thread := mkThread { th_call : syscall; th_result : option (result errno bytes) }.

(** A process: [process.returncode], and whether it was killed. *)
Record process := mkProcess { pr_returncode : option Z; pr_killed : bool }.

(** How a call or a task ends. *)
Inductive outcome := Returned | Raised | WasCancelled.
#[export] Instance outcome_eq_dec : EqDecision outcome.
Proof. solve_decision. Defined.

(** [TerminalBridgeEvent]s of the two types the bridge makes. *)
Inductive bridge_event := EvOutput (data : text) | EvExit (exit_code : Z).

(** The tasks [_forward_pty_output] and [_watch_process_exit]: not started, in the thread
    that reads, in [process.wait], in [on_event], over. *)
Inductive task_kind := Forward | Watch.
Inductive task_phase :=
| TStart
| TReading (fd t : nat)
| TWaiting (pid : nat)
| TCalling (fd : option nat)
| TOver (o : outcome).
Record reader := mkReader { rd_kind : task_kind; rd_phase : task_phase; rd_cancel : bool }.

(** The calls on the bridge: [start] in [run_container] and in [create_subprocess_exec],
    [send_input] and [resize] in their thread, [close] in [process.wait] and in [gather]. *)
Inductive call_kind := KStart | KInput | KResize | KClose.
#[export] Instance call_kind_eq_dec : EqDecision call_kind.
Proof. solve_decision. Defined.
Inductive call_phase :=
| PRunContainer
| PExec
| PThread (t : nat)
| PKilled (pid : nat)
| PGather (tasks : list nat)
| POver (o : outcome).
Record call := mkCall { cl_kind : call_kind; cl_phase : call_phase }.

Record bridge := mkBridge {
  tb_process : option nat;              (* _exec_process *)
  tb_readers : list nat;                (* _reader_tasks *)
  tb_master : option nat;               (* _pty_master_fd *)
  tb_slave : option nat;                (* _pty_slave_fd *)
  tb_tasks : list reader;
  tb_calls : list call;
  tb_procs : list process;
  tb_threads : list thread;
  tb_fds : gmap nat file;
  tb_container : bool;                  (* is there a container of this name *)
  tb_reads : list (file * bytes);       (* what the threads read and wrote *)
  tb_writes : list (file * bytes);
  tb_events : list bridge_event         (* what [on_event] was called with *)
}.
Definition init_bridge : bridge := mkBridge None [] None None [] [] [] [] ∅ false [] [] [].

Definition with_handles (p : option nat) (rs : list nat) (m sl : option nat) (s : bridge) : bridge :=
  mkBridge p rs m sl (tb_tasks s) (tb_calls s) (tb_procs s) (tb_threads s) (tb_fds s) (tb_container s) (tb_reads s)
    (tb_writes s) (tb_events s).
Definition with_process (p : option nat) (s : bridge) : bridge := with_handles p (tb_readers s) (tb_master s) (tb_slave s) s.
Definition with_readers (rs : list nat) (s : bridge) : bridge := with_handles (tb_process s) rs (tb_master s) (tb_slave s) s.
Definition with_master (m : option nat) (s : bridge) : bridge := with_handles (tb_process s) (tb_readers s) m (tb_slave s) s.
Definition with_slave (sl : option nat) (s : bridge) : bridge := with_handles (tb_process s) (tb_readers s) (tb_master s) sl s.
Definition with_tasks (x : list reader) (s : bridge) : bridge :=
  mkBridge (tb_process s) (tb_readers s) (tb_master s) (tb_slave s) x (tb_calls s) (tb_procs s) (tb_threads s) (tb_fds s)
    (tb_container s) (tb_reads s) (tb_writes s) (tb_events s).
Definition with_calls (x : list call) (s : bridge) : bridge :=
  mkBridge (tb_process s) (tb_readers s) (tb_master s) (tb_slave s) (tb_tasks s) x (tb_procs s) (tb_threads s) (tb_fds s)
    (tb_container s) (tb_reads s) (tb_writes s) (tb_events s).
Definition with_procs (x : list process) (s : bridge) : bridge :=
  mkBridge (tb_process s) (tb_readers s) (tb_master s) (tb_slave s) (tb_tasks s) (tb_calls s) x (tb_threads s) (tb_fds s)
    (tb_container s) (tb_reads s) (tb_writes s) (tb_events s).
Definition with_threads (x : list thread) (s : bridge) : bridge :=
  mkBridge (tb_process s) (tb_readers s) (tb_master s) (tb_slave s) (tb_tasks s) (tb_calls s) (tb_procs s) x (tb_fds s)
    (tb_container s) (tb_reads s) (tb_writes s) (tb_events s).
Definition with_fds (x : gmap nat file) (s : bridge) : bridge :=
  mkBridge (tb_process s) (tb_readers s) (tb_master s) (tb_slave s) (tb_tasks s) (tb_calls s) (tb_procs s) (tb_threads s) x
    (tb_container s) (tb_reads s) (tb_writes s) (tb_events s).
Definition with_container (x : bool) (s : bridge) : bridge :=
  mkBridge (tb_process s) (tb_readers s) (tb_master s) (tb_slave s) (tb_tasks s) (tb_calls s) (tb_procs s) (tb_threads s)
    (tb_fds s) x (tb_reads s) (tb_writes s) (tb_events s).
Definition with_io (rd wr : list (file * bytes)) (s : bridge) : bridge :=
  mkBridge (tb_process s) (tb_readers s) (tb_master s) (tb_slave s) (tb_tasks s) (tb_calls s) (tb_procs s) (tb_threads s)
    (tb_fds s) (tb_container s) rd wr (tb_events s).
Definition with_events (x : list bridge_event) (s : bridge) : bridge :=
  mkBridge (tb_process s) (tb_readers s) (tb_master s) (tb_slave s) (tb_tasks s) (tb_calls s) (tb_procs s) (tb_threads s)
    (tb_fds s) (tb_container s) (tb_reads s) (tb_writes s) x.

Definition set_call (c : nat) (p : call_phase) (s : bridge) : bridge :=
  with_calls (alter (fun x => mkCall (cl_kind x) p) c (tb_calls s)) s.
Definition set_task (i : nat) (p : task_phase) (s : bridge) : bridge :=
  with_tasks (alter (fun x => mkReader (rd_kind x) p (rd_cancel x)) i (tb_tasks s)) s.
Definition add_call (k : call_kind) (p : call_phase) (s : bridge) : bridge := with_calls (tb_calls s ++ [mkCall k p]) s.
(** [asyncio.to_thread]; the thread is the last one. *)
Definition to_thread (x : syscall) (s : bridge) : bridge := with_threads (tb_threads s ++ [mkThread x None]) s.

Definition phase_over (p : task_phase) : bool := match p with TOver _ => true | _ => false end.
(** [task.done()]. *)
Definition task_done (i : nat) (s : bridge) : bool :=
  match tb_tasks s !! i with Some r => phase_over (rd_phase r) | None => true end.
Definition returncode (pid : nat) (s : bridge) : option Z := p ← tb_procs s !! pid; pr_returncode p.

(** ** Stopping the container *)

(** A call of docker: it works, raises a [DockerExecutionError], or something else. *)
Inductive docker_call := DockerOk | DockerError | DockerOther.
(** The outcomes of [stop_container] and [wait_container], and of the [remove_container] that follows. *)
Record docker_calls := mkDocker { dk_stop : docker_call; dk_wait : docker_call; dk_remove : docker_call; dk_force : docker_call }.
(** [graceful_shutdown]: is the container gone? Its exceptions are swallowed by both callers. *)
Definition graceful_shutdown (d : docker_calls) : bool :=
  let forced := match dk_force d with DockerOk => true | _ => false end in
  match dk_stop d with
  | DockerOk =>
      match dk_wait d with
      | DockerOk => match dk_remove d with DockerOk => true | DockerError => forced | DockerOther => false end
      | DockerError => forced
      | DockerOther => false
      end
  | DockerError => forced
  | DockerOther => false
  end.
Definition shut_down (d : docker_calls) (s : bridge) : bridge :=
  if graceful_shutdown d then with_container false s else s.

(** ** Descriptors *)

(** [os.close] of a descriptor, if there is one. *)
Definition close_fd (fd : option nat) (s : bridge) : bridge :=
  match fd with Some n => with_fds (delete n (tb_fds s)) s | None => s end.
Definition close_pty_slave_fd (s : bridge) : bridge := close_fd (tb_slave s) (with_slave None s).
Definition close_pty_master_fd (s : bridge) : bridge := close_fd (tb_master s) (with_master None s).
Definition close_pty_fds (s : bridge) : bridge := close_pty_master_fd (close_pty_slave_fd s).

(** ** [start] *)

(** [run_container] returned; [openpty] gives two free descriptors or raises. *)
Definition container_ran (c : nat) (ok : bool) (pty : option (nat * nat)) (s : bridge) : option bridge :=
  if ok then
    if tb_container s then
      match pty with
      | None => Some (set_call c (POver Raised) s)
      | Some (m, sl) =>
          if bool_decide (m <> sl) && bool_decide (tb_fds s !! m = None) && bool_decide (tb_fds s !! sl = None) then
            Some (set_call c PExec (with_master (Some m) (with_slave (Some sl)
                    (with_fds (<[m := FMaster]> (<[sl := FSlave]> (tb_fds s))) s))))
          else None
      end
    else None
  else Some (set_call c (POver Raised) s).

(** [create_subprocess_exec] returned or raised. *)
Definition execed (c : nat) (ok : bool) (d : docker_calls) (s : bridge) : bridge :=
  if ok then
    let pid := length (tb_procs s) in
    let s := close_pty_slave_fd (with_process (Some pid) (with_procs (tb_procs s ++ [mkProcess None false]) s)) in
    let n := length (tb_tasks s) in
    set_call c (POver Returned)
      (with_readers [n; S n]
        (with_tasks (tb_tasks s ++ [mkReader Forward TStart false; mkReader Watch TStart false]) s))
  else set_call c (POver Raised) (shut_down d (close_pty_fds s)).

(** ** [send_input] and [resize] *)

Definition send_input (data : text) (s : bridge) : bridge :=
  match tb_process s, tb_master s with
  | Some _, Some fd =>
      match encode data with
      | Some payload => to_thread (SWrite fd payload) (add_call KInput (PThread (length (tb_threads s))) s)
      | None => add_call KInput (POver Raised) s
      end
  | _, _ => add_call KInput (POver Returned) s
  end.
(** [struct.pack] raises on a size that is not a 16-bit number. *)
Definition resize (cols rows : Z) (s : bridge) : bridge :=
  if ((cols <=? 0) || (rows <=? 0))%Z then add_call KResize (POver Raised) s
  else
    match tb_master s with
    | None => add_call KResize (POver Returned) s
    | Some fd =>
        if ((rows <? 65536) && (cols <? 65536))%Z
        then to_thread (SIoctl fd rows cols) (add_call KResize (PThread (length (tb_threads s))) s)
        else add_call KResize (POver Raised) s
    end.

(** ** [close] *)

Definition kill (pid : nat) (s : bridge) : bridge :=
  with_procs (alter (fun p => mkProcess (pr_returncode p) true) pid (tb_procs s)) s.
(** [task.cancel()] of a task that is not done. *)
Definition cancel_reader (i : nat) (s : bridge) : bridge :=
  with_tasks (alter (fun r => if phase_over (rd_phase r) then r else mkReader (rd_kind r) (rd_phase r) true) i (tb_tasks s)) s.
Definition cancel_readers (l : list nat) (s : bridge) : bridge := foldr cancel_reader s l.

(** From the end of [process.wait]: where the call is then, and the bridge. *)
Definition close_rest (d : docker_calls) (s : bridge) : call_phase * bridge :=
  let s := close_pty_fds s in
  let s := cancel_readers (tb_readers s) s in
  if bool_decide (tb_readers s = []) then (POver Returned, shut_down d s) else (PGather (tb_readers s), s).
Definition close (d : docker_calls) (s : bridge) : bridge :=
  let process := tb_process s in
  let s := with_process None s in
  let '(p, s) :=
    match process with
    | Some pid => match returncode pid s with None => (PKilled pid, kill pid s) | Some _ => close_rest d s end
    | None => close_rest d s
    end in
  add_call KClose p s.
Definition wait_over (c : nat) (d : docker_calls) (s : bridge) : bridge :=
  let '(p, s) := close_rest d s in set_call c p s.
(** From the end of [gather]. *)
Definition gathered (c : nat) (d : docker_calls) (s : bridge) : bridge :=
  set_call c (POver Returned) (shut_down d (with_readers [] s)).

(** ** The reading tasks *)

(** [await asyncio.to_thread(self._read_pty_chunk, fd)]. *)
Definition read_chunk (i fd : nat) (s : bridge) : bridge :=
  to_thread (SRead fd) (set_task i (TReading fd (length (tb_threads s))) s).
(** [_read_pty_chunk]: what the thread gives for the result of [os.read]. *)
Definition read_pty_chunk (r : result errno bytes) : option bytes :=
  match r with Ok chunk => Some chunk | Err EOTHER => None | Err _ => Some [] end.
Definition on_event (i : nat) (fd : option nat) (e : bridge_event) (s : bridge) : bridge :=
  set_task i (TCalling fd) (with_events (tb_events s ++ [e]) s).

(** The next stretch of a task: a cancelled one ends, whatever it waits for. *)
Definition reader_runs (i : nat) (r : reader) (s : bridge) : option bridge :=
  if phase_over (rd_phase r) then None
  else if rd_cancel r then Some (set_task i (TOver WasCancelled) s)
  else
    match rd_kind r, rd_phase r with
    | Forward, TStart =>
        match tb_master s with None => Some (set_task i (TOver Returned) s) | Some fd => Some (read_chunk i fd s) end
    | Forward, TReading fd t =>
        x ← tb_threads s !! t; res ← th_result x;
        match read_pty_chunk res with
        | None => Some (set_task i (TOver Raised) s)
        | Some [] => Some (set_task i (TOver Returned) s)
        | Some chunk => Some (on_event i (Some fd) (EvOutput (decode_ignore chunk)) s)
        end
    | Watch, TStart =>
        match tb_process s with
        | None => Some (set_task i (TOver Returned) s)
        | Some pid =>
            match returncode pid s with
            | Some code => Some (on_event i None (EvExit code) s)
            | None => Some (set_task i (TWaiting pid) s)
            end
        end
    | Watch, TWaiting pid => code ← returncode pid s; Some (on_event i None (EvExit code) s)
    | _, _ => None
    end.
(** [on_event] is over, in a task that is not cancelled. *)
Definition callback_over (i : nat) (ok : bool) (r : reader) (s : bridge) : option bridge :=
  if rd_cancel r then None
  else
    match rd_phase r with
    | TCalling fd =>
        if ok then
          match fd with Some n => Some (read_chunk i n s) | None => Some (set_task i (TOver Returned) s) end
        else Some (set_task i (TOver Raised) s)
    | _ => None
    end.

(** ** Steps *)

(** A thread makes its system call, on whatever its descriptor stands for by then: a closed
    one gives EBADF; a read at most 1024 bytes, a write takes the first [n] bytes. *)
Definition thread_runs (t : nat) (x : thread) (r : result errno bytes) (n : nat) (s : bridge) : option bridge :=
  let over r s := with_threads (alter (fun x => mkThread (th_call x) (Some r)) t (tb_threads s)) s in
  match th_result x with
  | Some _ => None
  | None =>
      let fd := match th_call x with SRead fd | SWrite fd _ | SIoctl fd _ _ => fd end in
      match tb_fds s !! fd with
      | None => Some (over (Err EBADF) s)
      | Some f =>
          match th_call x, r with
          | _, Err EBADF => None
          | _, Err e => Some (over (Err e) s)
          | SRead _, Ok chunk =>
              if (length chunk <=? 1024)%nat then Some (over (Ok chunk) (with_io (tb_reads s ++ [(f, chunk)]) (tb_writes s) s))
              else None
          | SWrite _ payload, Ok _ => Some (over (Ok []) (with_io (tb_reads s) (tb_writes s ++ [(f, take n payload)]) s))
          | SIoctl _ _ _, Ok _ => Some (over (Ok []) s)
          end
      end
  end.

Inductive event :=
| Start
| ContainerAppears                                       (* docker made the container *)
| ContainerRan (c : nat) (ok : bool) (pty : option (nat * nat))
| Execed (c : nat) (ok : bool) (d : docker_calls)
| SendInput (data : text)
| Resize (cols rows : Z)
| Close (d : docker_calls)
| WaitOver (c : nat) (d : docker_calls)                  (* [process.wait] or its timeout of a second *)
| Gathered (c : nat) (d : docker_calls)
| CallReturns (c : nat)                                  (* [send_input] and [resize], after their thread *)
| CancelCall (c : nat)                                   (* the task that makes the call is cancelled *)
| ThreadRuns (t : nat) (r : result errno bytes) (n : nat)
| ReaderRuns (i : nat)
| CallbackOver (i : nat) (ok : bool)
| Exits (pid : nat) (code : Z)
| OpenOther (fd n : nat)                                 (* the rest of the program opens and closes *)
| CloseOther (fd : nat).

Definition run_call (c : nat) (x : call) (ev : event) (s : bridge) : option bridge :=
  match ev, cl_phase x with
  | ContainerRan _ ok pty, PRunContainer => container_ran c ok pty s
  | Execed _ ok d, PExec => Some (execed c ok d s)
  | WaitOver _ d, PKilled _ => Some (wait_over c d s)
  | Gathered _ d, PGather l => if forallb (fun i => task_done i s) l then Some (gathered c d s) else None
  | CallReturns _, PThread t =>
      x ← tb_threads s !! t; _ ← th_result x; Some (set_call c (POver Returned) s)
  | CancelCall _, POver _ => None
  | CancelCall _, PGather l => if forallb (fun i => task_done i s) l then Some (set_call c (POver WasCancelled) s) else None
  | CancelCall _, _ => Some (set_call c (POver WasCancelled) s)
  | _, _ => None
  end.

(** Has docker been asked for a container whose caller knows nothing of it yet? *)
Definition container_asked (x : call) : bool :=
  match cl_kind x, cl_phase x with KStart, (PRunContainer | POver WasCancelled) => true | _, _ => false end.

Definition step (ev : event) (s : bridge) : option bridge :=
  match ev with
  | Start => Some (add_call KStart PRunContainer s)
  | ContainerAppears => if existsb container_asked (tb_calls s) then Some (with_container true s) else None
  | SendInput data => Some (send_input data s)
  | Resize cols rows => Some (resize cols rows s)
  | Close d => Some (close d s)
  | ContainerRan c _ _ | Execed c _ _ | WaitOver c _ | Gathered c _ | CallReturns c | CancelCall c =>
      x ← tb_calls s !! c; run_call c x ev s
  | ThreadRuns t r n => x ← tb_threads s !! t; thread_runs t x r n s
  | ReaderRuns i => r ← tb_tasks s !! i; reader_runs i r s
  | CallbackOver i ok => r ← tb_tasks s !! i; callback_over i ok r s
  | Exits pid code =>
      p ← tb_procs s !! pid;
      match pr_returncode p with
      | Some _ => None
      | None => Some (with_procs (<[pid := mkProcess (Some code) (pr_killed p)]> (tb_procs s)) s)
      end
  | OpenOther fd n =>
      match tb_fds s !! fd with None => Some (with_fds (<[fd := FOther n]> (tb_fds s)) s) | Some _ => None end
  | CloseOther fd =>
      match tb_fds s !! fd with Some (FOther _) => Some (with_fds (delete fd (tb_fds s)) s) | _ => None end
  end.
Fixpoint run (evs : list event) (s : bridge) : option bridge :=
  match evs with [] => Some s | ev :: evs => s ← step ev s; run evs s end.

Definition call_over (x : call) : bool := match cl_phase x with POver _ => true | _ => false end.
(** What the session service does with a bridge: it starts it once, before any other call,
    which can come while the start is under way. *)
Definition sensible (ev : event) (s : bridge) : Prop := match ev with Start => tb_calls s = [] | _ => True end.
Inductive reach : bridge -> Prop :=
| reach_init : reach init_bridge
| reach_step ev s s' : reach s -> sensible ev s -> step ev s = Some s' -> reach s'.

(** ** The invariant *)

(** The phases of a call. *)
Definition phase_ok (k : call_kind) (p : call_phase) : Prop :=
  match p with
  | PRunContainer | PExec => k = KStart
  | PThread _ => k = KInput \/ k = KResize
  | PKilled _ | PGather _ => k = KClose
  | POver _ => True
  end.
(** How far the bridge is closed, by the phase of a [close]. *)
Definition closed_by (p : call_phase) (s : bridge) : Prop :=
  tb_process s = None /\
  match p with
  | PGather l =>
      tb_master s = None /\ tb_slave s = None /\ tb_readers s ⊆ l /\
      forall i r, tb_tasks s !! i = Some r -> phase_over (rd_phase r) = false -> rd_cancel r = true
  | POver Returned => tb_master s = None /\ tb_slave s = None /\ tb_readers s = []
  | _ => True
  end.
(** The start is over, or there was none. *)
Definition start_over (s : bridge) : Prop := forall x, x ∈ tb_calls s -> cl_kind x = KStart -> call_over x = true.
(** Nothing was made yet. *)
Definition unstarted (s : bridge) : Prop :=
  tb_process s = None /\ tb_readers s = [] /\ tb_tasks s = [] /\ tb_procs s = [].

(** The [close]s that are followed until after their end, which began when no start was
    under way. *)
Section inv.
Variable own : nat -> Prop.

Record inv (s : bridge) : Prop := {
  iv_first : forall c x, tb_calls s !! c = Some x -> cl_kind x = KStart -> c = 0;
  iv_start : forall x, x ∈ tb_calls s -> cl_kind x = KStart -> call_over x = false ->
    unstarted s /\ forall y, y ∈ tb_calls s -> cl_kind y = KClose -> call_over y = true;
  iv_fresh : tb_calls s = [] -> unstarted s;
  iv_no_pty : forall x, x ∈ tb_calls s -> cl_phase x = PRunContainer -> tb_master s = None /\ tb_slave s = None;
  iv_none : tb_calls s = [] -> tb_master s = None /\ tb_slave s = None;
  iv_phase : forall x, x ∈ tb_calls s -> phase_ok (cl_kind x) (cl_phase x);
  iv_master : forall fd, tb_fds s !! fd = Some FMaster <-> tb_master s = Some fd;
  iv_slave : forall fd, tb_fds s !! fd = Some FSlave <-> tb_slave s = Some fd;
  iv_live : forall i r, tb_tasks s !! i = Some r -> phase_over (rd_phase r) = false -> i ∈ tb_readers s;
  iv_procs : forall pid p, tb_procs s !! pid = Some p -> pr_returncode p = None -> pr_killed p = false -> tb_process s = Some pid;
  iv_own : forall c, own c -> start_over s /\ exists p, tb_calls s !! c = Some (mkCall KClose p);
  iv_close : forall c x, tb_calls s !! c = Some x -> cl_kind x = KClose -> call_over x = false \/ own c -> closed_by (cl_phase x) s
}.

(** The handles stay, tasks and processes only come to an end, and the descriptors of the
    terminal are the same or fewer. *)
Record quieter (s s' : bridge) : Prop := {
  qt_handles : (tb_process s', tb_readers s', tb_master s', tb_slave s') = (tb_process s, tb_readers s, tb_master s, tb_slave s);
  qt_calls : tb_calls s' = tb_calls s;
  qt_tasks : forall i r', tb_tasks s' !! i = Some r' -> phase_over (rd_phase r') = false ->
    exists r, tb_tasks s !! i = Some r /\ phase_over (rd_phase r) = false /\ (rd_cancel r = true -> rd_cancel r' = true);
  qt_procs : forall pid p, tb_procs s' !! pid = Some p -> pr_returncode p = None -> pr_killed p = false -> tb_procs s !! pid = Some p;
  qt_fds : forall fd f, f = FMaster \/ f = FSlave -> tb_fds s' !! fd = Some f <-> tb_fds s !! fd = Some f;
  qt_unstarted : unstarted s -> unstarted s'
}.
Lemma quieter_inv s s' : quieter s s' -> inv s -> inv s'.
Proof.
  intros [[= H1 H2 H3 H4] C T P F U] [I0 I1 I2 I3 I4 I5 I6 I7 I8 I9 Io I10].
  split; unfold start_over in *; rewrite ?C, ?H1, ?H2, ?H3, ?H4; try done.
  - intros x X K O. destruct (I1 x X K O). auto.
  - auto.
  - intros fd. rewrite F by auto. apply I6.
  - intros fd. rewrite F by auto. apply I7.
  - intros i r E O. destruct (T i r E O) as (r0 & E0 & O0 & _). by eapply I8.
  - intros pid p E R K. eapply I9; eauto.
  - intros c x X K D. specialize (I10 c x X K D). unfold closed_by in *. rewrite H1, H2, H3, H4.
    destruct I10 as [A B]. split; [done|]. destruct (cl_phase x) as [| | | |l|[]]; try done. destruct B as (B1 & B2 & B3 & B4).
    split; [done|]. split; [done|]. split; [done|]. intros i r E O. destruct (T i r E O) as (r0 & E0 & O0 & M). eauto.
Qed.

Lemma alter_lookup {A} (f : A -> A) i j (l : list A) y :
  alter f i l !! j = Some y -> (i = j /\ exists x, l !! j = Some x /\ y = f x) \/ (i <> j /\ l !! j = Some y).
Proof.
  intros E. destruct (decide (i = j)) as [<-|N].
  - rewrite list_lookup_alter_eq in E. destruct (l !! i) as [x|]; [|done]. injection E as <-. left. eauto.
  - rewrite list_lookup_alter_ne in E by done. by right.
Qed.

(** Changes of one task, of threads, of a process. *)
Lemma quieter_refl s : quieter s s.
Proof. split; try done; eauto. Qed.
#[local] Instance quieter_pre : PreOrder quieter.
Proof.
  split; [exact quieter_refl|]. intros s1 s2 s3 [[= A1 A2 A3 A4] B C D E F] [[= A1' A2' A3' A4'] B' C' D' E' F'].
  split; [congruence|congruence| | | |eauto].
  - intros i r X O. destruct (C' i r X O) as (r2 & X2 & O2 & M2). destruct (C i r2 X2 O2) as (r1 & X1 & O1 & M1). eauto 10.
  - intros pid p X R K. eauto.
  - intros fd f X. by rewrite E', E.
Qed.
Lemma set_task_quieter i r p s :
  tb_tasks s !! i = Some r -> phase_over (rd_phase r) = false -> quieter s (set_task i p s).
Proof.
  intros E O. split; cbn; try done.
  - intros j r' [[<- (x & X & ->)]|[N X]]%alter_lookup O'; [|eauto]. rewrite E in X. injection X as <-. eauto.
  - intros (? & ? & T & ?). by rewrite T in E.
Qed.
Lemma threads_quieter x s : quieter s (with_threads x s).
Proof. split; cbn; try done; eauto. Qed.
Lemma io_quieter rd wr s : quieter s (with_io rd wr s).
Proof. split; cbn; try done; eauto. Qed.
Lemma events_quieter x s : quieter s (with_events x s).
Proof. split; cbn; try done; eauto. Qed.
Lemma container_quieter x s : quieter s (with_container x s).
Proof. split; cbn; try done; eauto. Qed.
Lemma shut_down_quieter d s : quieter s (shut_down d s).
Proof. unfold shut_down. destruct (graceful_shutdown d); [apply container_quieter|reflexivity]. Qed.
Lemma kill_quieter pid s : quieter s (kill pid s).
Proof.
  split; cbn; try done; [eauto| |].
  - intros q p [[<- (x & X & ->)]|[N X]]%alter_lookup R K; [done|]. done.
  - intros (? & ? & ? & P). unfold unstarted. cbn. by rewrite P.
Qed.
Lemma cancel_reader_quieter i s : quieter s (cancel_reader i s).
Proof.
  split; cbn; try done.
  - intros j r' [[<- (x & X & ->)]|[N X]]%alter_lookup O'; [|eauto]. exists x.
    destruct (phase_over (rd_phase x)) eqn:O; [congruence|]. done.
  - intros (? & ? & T & ?). unfold unstarted. cbn. by rewrite T.
Qed.
Lemma cancel_readers_quieter l s : quieter s (cancel_readers l s).
Proof. induction l as [|i l IH]; cbn; [reflexivity|]. etransitivity; [exact IH|]. apply cancel_reader_quieter. Qed.
(** After that, each of the tasks is cancelled or over. *)
Lemma cancel_readers_all l s i r :
  i ∈ l -> tb_tasks (cancel_readers l s) !! i = Some r -> phase_over (rd_phase r) = false -> rd_cancel r = true.
Proof.
  intros L E O. induction l as [|j l IH] in r, L, E, O |- *; [by apply not_elem_of_nil in L|]. cbn in E.
  apply alter_lookup in E as [[<- (x & X & ->)]|[N X]].
  - by destruct (phase_over (rd_phase x)) eqn:O'; [congruence|].
  - apply elem_of_cons in L as [->|L]; [done|]. by apply (IH r).
Qed.

Lemma reader_runs_quieter i r s s' : tb_tasks s !! i = Some r -> reader_runs i r s = Some s' -> quieter s s'.
Proof.
  intros E. unfold reader_runs. destruct (phase_over (rd_phase r)) eqn:O; [done|].
  pose proof (fun p => set_task_quieter i r p s E O) as T.
  assert (R : forall fd, quieter s (read_chunk i fd s)).
  { intros fd. unfold read_chunk, to_thread. etransitivity; [apply T|apply threads_quieter]. }
  assert (V : forall fd e, quieter s (on_event i fd e s)).
  { intros fd e. unfold on_event. etransitivity; [apply events_quieter|]. by eapply set_task_quieter. }
  destruct (rd_cancel r); [intros [= <-]; apply T|].
  destruct (rd_kind r), (rd_phase r) as [|fd t|pid| |]; try done.
  - destruct (tb_master s); intros [= <-]; auto.
  - intros X. destruct (tb_threads s !! t) as [x|]; [|done]. cbn in X. destruct (th_result x) as [res|]; [|done]. cbn in X.
    destruct (read_pty_chunk res) as [[|b l]|]; injection X as <-; auto.
  - destruct (tb_process s); [destruct (returncode _ _)|]; intros [= <-]; auto.
  - intros X. destruct (returncode pid s); [|done]. injection X as <-. auto.
Qed.
Lemma callback_over_quieter i ok r s s' : tb_tasks s !! i = Some r -> callback_over i ok r s = Some s' -> quieter s s'.
Proof.
  intros E. unfold callback_over. destruct (rd_cancel r); [done|].
  destruct (rd_phase r) as [| | |fd|] eqn:P; try done.
  assert (O : phase_over (rd_phase r) = false) by (by rewrite P). pose proof (fun p => set_task_quieter i r p s E O) as T.
  destruct ok; [|intros [= <-]; auto]. destruct fd as [n|]; intros [= <-]; [|auto].
  unfold read_chunk, to_thread. etransitivity; [apply T|apply threads_quieter].
Qed.
Lemma thread_runs_quieter t x r n s s' : thread_runs t x r n s = Some s' -> quieter s s'.
Proof.
  unfold thread_runs. destruct (th_result x); [done|].
  assert (Q' : forall y rd wr, quieter s (with_threads y (with_io rd wr s))).
  { intros y rd wr. etransitivity; [apply io_quieter|apply threads_quieter]. }
  intros X. repeat (case_match; simplify_eq; first [apply threads_quieter | apply Q' | idtac]).
Qed.

(** ** Calls *)

Lemma closed_by_calls x p s : closed_by p (with_calls x s) = closed_by p s.
Proof. done. Qed.

(** A call goes on to its next phase. *)
Lemma set_call_inv c x p s :
  inv s -> tb_calls s !! c = Some x -> call_over x = false -> phase_ok (cl_kind x) p -> p <> PRunContainer ->
  (cl_kind x = KClose -> closed_by p s) ->
  (cl_kind x = KStart -> call_over (mkCall KStart p) = false -> False) ->
  inv (set_call c p s).
Proof.
  intros [I0 I1 I2 I3 I4 I5 I6 I7 I8 I9 Io I10] E Ox P R K S. pose proof (list_elem_of_lookup_2 _ _ _ E) as X.
  assert (M : forall y, y ∈ tb_calls (set_call c p s) -> y ∈ tb_calls s \/ y = mkCall (cl_kind x) p).
  { intros y [Y|(z & Z & ->)]%elem_alter; [by left|]. rewrite E in Z. injection Z as <-. by right. }
  assert (L : forall j y, tb_calls (set_call c p s) !! j = Some y -> (j = c /\ y = mkCall (cl_kind x) p) \/ tb_calls s !! j = Some y).
  { intros j y [[<- (z & Z & ->)]|[_ Y]]%alter_lookup; [|by right]. rewrite E in Z. injection Z as <-. by left. }
  split; cbn; try done.
  - intros j y [[-> ->]|Y]%L Ky; [by apply (I0 c x)|by apply (I0 j y)].
  - intros y [Y| ->]%M Ky O; [|by destruct (S Ky); rewrite <- Ky]. destruct (I1 y Y Ky O) as [U W]. split; [done|].
    intros z [Z| ->]%M Kz; [by apply W|]. cbn in Kz. by rewrite (W x X Kz) in Ox.
  - intros N. destruct (tb_calls s); [done|]. destruct c; done.
  - intros y Y Q. destruct (M y Y) as [Y'| ->]; [eauto|]. done.
  - intros N. destruct (tb_calls s); [done|]. by destruct c.
  - intros y [Y| ->]%M; [auto|]. done.
  - intros j Oj. destruct (Io j Oj) as [So [q Q]]. split.
    + intros y [Y| ->]%M Ky; [by apply So|]. cbn in Ky. by rewrite (So x X Ky) in Ox.
    + destruct (decide (j = c)) as [->|Nj]; [|exists q; cbn; by rewrite list_lookup_alter_ne].
      exists p. cbn. rewrite list_lookup_alter_eq, Q. done.
  - intros j y [[-> ->]|Y]%L Ky D; [by apply K|]. by apply (I10 j y).
Qed.

(** A new call. *)
Lemma add_call_inv k p s :
  inv s -> k <> KStart -> phase_ok k p ->
  (k = KClose -> closed_by p s /\ (start_over s \/ call_over (mkCall k p) = true)) -> inv (add_call k p s).
Proof.
  intros [I0 I1 I2 I3 I4 I5 I6 I7 I8 I9 Io I10] N P K.
  assert (M : forall y, y ∈ tb_calls (add_call k p s) -> y ∈ tb_calls s \/ y = mkCall k p).
  { intros y [Y|Y%list_elem_of_singleton]%elem_of_app; auto. }
  assert (L : forall j y, tb_calls (add_call k p s) !! j = Some y -> tb_calls s !! j = Some y \/ y = mkCall k p).
  { intros j y [Y|[_ Y]]%lookup_app_Some; [by left|]. apply list_lookup_singleton_Some in Y as [_ <-]. by right. }
  split; cbn; try done.
  - intros j y [Y| ->]%L Ky; [by apply (I0 j y)|done].
  - intros y [Y| ->]%M Ky O; [|done]. destruct (I1 y Y Ky O) as [U W]. split; [done|].
    intros z [Z| ->]%M Kz; [by apply W|]. destruct (K Kz) as [_ [So|V]]; [|done]. by rewrite (So y Y Ky) in O.
  - intros X%app_nil. naive_solver.
  - intros y [Y| ->]%M Q; [eauto|]. cbn in Q. subst p. by destruct k.
  - intros X%app_nil. naive_solver.
  - intros y [Y| ->]%M; auto.
  - intros j Oj. destruct (Io j Oj) as [So [q Q]]. split.
    + intros y [Y| ->]%M Ky; [by apply So|done].
    + exists q. cbn. by apply lookup_app_l_Some.
  - intros j y [Y| ->]%L Ky D; [by apply (I10 j y)|]. by apply K.
Qed.

(** ** Closing *)

Lemma lookup_delete_file fd n (m : gmap nat file) f : delete n m !! fd = Some f -> m !! fd = Some f /\ fd <> n.
Proof. intros [? ?]%lookup_delete_Some. done. Qed.

(** The descriptors of the terminal are those of its handles, so closing the handles
    closes them all. *)
Lemma close_pty_fds_inv s :
  inv s -> inv (close_pty_fds s) /\ tb_master (close_pty_fds s) = None /\ tb_slave (close_pty_fds s) = None /\
    forall fd f, tb_fds (close_pty_fds s) !! fd = Some f -> f <> FMaster /\ f <> FSlave.
Proof.
  intros [I0 I1 I2 I3 I4 I5 I6 I7 I8 I9 Io I10].
  assert (F : forall fd f, tb_fds (close_pty_fds s) !! fd = Some f -> tb_fds s !! fd = Some f /\ f <> FMaster /\ f <> FSlave).
  { intros fd f E. unfold close_pty_fds, close_pty_master_fd, close_pty_slave_fd, close_fd in E.
    pose proof (I6 fd) as M. pose proof (I7 fd) as S.
    destruct (tb_slave s) as [sl|] eqn:Es, (tb_master s) as [m|] eqn:Em; cbn in E; rewrite ?Em in E; cbn in E;
      repeat (let N := fresh "N" in apply lookup_delete_file in E as [E N]);
      (split; [done|]); split; intros ->; first [apply M in E | apply S in E]; congruence. }
  assert (C : forall fd x, tb_calls (close_fd fd x) = tb_calls x /\ tb_process (close_fd fd x) = tb_process x /\
    tb_readers (close_fd fd x) = tb_readers x /\ tb_tasks (close_fd fd x) = tb_tasks x /\ tb_procs (close_fd fd x) = tb_procs x /\
    tb_threads (close_fd fd x) = tb_threads x /\ tb_master (close_fd fd x) = tb_master x /\ tb_slave (close_fd fd x) = tb_slave x).
  { intros [n|] x; repeat split. }
  unfold close_pty_fds, close_pty_master_fd, close_pty_slave_fd in *.
  set (s1 := close_fd (tb_slave s) (with_slave None s)) in *.
  destruct (C (tb_slave s) (with_slave None s)) as (A1 & A2 & A3 & A4 & A5 & A6 & A7 & A8).
  destruct (C (tb_master s1) (with_master None s1)) as (B1 & B2 & B3 & B4 & B5 & B6 & B7 & B8).
  cbn in A1, A2, A3, A4, A5, A6, A7, A8, B1, B2, B3, B4, B5, B6, B7, B8.
  fold s1 in A1, A2, A3, A4, A5, A6, A7, A8. set (s2 := close_fd (tb_master s1) (with_master None s1)) in *. clearbody s1 s2.
  assert (U : unstarted s -> unstarted s2).
  { unfold unstarted. by rewrite B2, B3, B4, B5, A2, A3, A4, A5. }
  split; [|repeat split; [by rewrite B7|by rewrite B8, A8|by destruct (F _ _ H) as (_ & ? & ?)..]].
  split; unfold start_over in *; rewrite ?B1, ?B2, ?B3, ?B4, ?B5, ?B7, ?B8, ?A1, ?A2, ?A3, ?A4, ?A5, ?A7, ?A8; try done.
  - intros x X K O. destruct (I1 x X K O). auto.
  - intros E. by apply U, I2.
  - intros fd. split; [|done]. intros E. by destruct (F _ _ E) as (_ & ? & _).
  - intros fd. split; [|done]. intros E. by destruct (F _ _ E) as (_ & _ & ?).
  - intros c x X K D. specialize (I10 c x X K D). unfold closed_by in *. rewrite B2, B3, B4, B7, B8, A2, A3, A4, A8.
    destruct I10 as [P Q]. split; [done|]. destruct (cl_phase x) as [| | | |l|[]]; naive_solver.
Qed.

Lemma close_pty_fds_same s :
  tb_calls (close_pty_fds s) = tb_calls s /\ tb_process (close_pty_fds s) = tb_process s /\
  tb_readers (close_pty_fds s) = tb_readers s.
Proof.
  unfold close_pty_fds, close_pty_master_fd, close_pty_slave_fd, close_fd.
  destruct (tb_slave s); cbn; by destruct (tb_master s).
Qed.

Lemma close_rest_inv d s p s' :
  inv s -> tb_process s = None -> close_rest d s = (p, s') ->
  inv s' /\ closed_by p s' /\ tb_calls s' = tb_calls s /\ phase_ok KClose p /\ p <> PRunContainer /\
  (unstarted s -> call_over (mkCall KClose p) = true).
Proof.
  intros I P E. unfold close_rest in E.
  destruct (close_pty_fds_inv s I) as (I1 & M1 & S1 & _).
  destruct (close_pty_fds_same s) as (C1 & P1 & Rd1). rewrite P in P1. set (s1 := close_pty_fds s) in *. clearbody s1.
  pose proof (cancel_readers_quieter (tb_readers s1) s1) as Q.
  pose proof (cancel_readers_all (tb_readers s1) s1) as A.
  set (s2 := cancel_readers (tb_readers s1) s1) in *. clearbody s2.
  pose proof (quieter_inv _ _ Q I1) as I2. destruct Q as [[= H1 H2 H3 H4] C2 T2 _ _ _].
  case_bool_decide as R; injection E as <- <-.
  - pose proof (shut_down_quieter d s2) as Q. split; [by apply (quieter_inv s2)|].
    destruct Q as [[= J1 J2 J3 J4] C3 _ _ _ _]. split; [|split; [congruence|done]].
    split; [congruence|]. rewrite J2, J3, J4. split; [congruence|]. split; [congruence|done].
  - split; [done|]. split; [|split; [congruence|]]. 2: { split; [done|]. split; [done|]. intros (_ & U & _). destruct R. congruence. }
    split; [congruence|]. split; [congruence|]. split; [congruence|]. split; [done|].
    intros i r E O. apply (A i r); [|done|done]. rewrite <- H2. by eapply iv_live.
Qed.

Lemma forget_process s :
  inv s -> (forall pid p, tb_process s = Some pid -> tb_procs s !! pid = Some p -> pr_returncode p = None -> pr_killed p = true) ->
  inv (with_process None s).
Proof.
  intros [I0 I1 I2 I3 I4 I5 I6 I7 I8 I9 Io I10] N. unfold unstarted in *. split; cbn; try done.
  - intros x X K O. destruct (I1 x X K O) as ((_ & U) & W). done.
  - intros C. destruct (I2 C) as (_ & U). done.
  - intros pid p E R K. pose proof (I9 pid p E R K) as P. rewrite (N pid p P E R) in K. done.
  - intros c x X K D. destruct (I10 c x X K D) as (P & Q). by split.
Qed.

(** What a [close] does up to its first suspension, whatever else is under way. *)
Lemma close_spec d s :
  inv s -> exists p s', close d s = add_call KClose p s' /\ inv s' /\ tb_calls s' = tb_calls s /\ closed_by p s' /\
    phase_ok KClose p /\ (unstarted s -> call_over (mkCall KClose p) = true).
Proof.
  intros I. unfold close.
  assert (R : forall s1 p s', inv s1 -> tb_calls s1 = tb_calls s -> tb_process s1 = None -> (unstarted s -> unstarted s1) -> close_rest d s1 = (p, s') ->
    exists q s2, add_call KClose p s' = add_call KClose q s2 /\ inv s2 /\ tb_calls s2 = tb_calls s /\ closed_by q s2 /\
      phase_ok KClose q /\ (unstarted s -> call_over (mkCall KClose q) = true)).
  { intros s1 p s' I1 C1 P1 Us E. destruct (close_rest_inv d s1 p s' I1 P1 E) as (I' & B & C & O & _ & U).
    exists p, s'. rewrite C, C1. auto 10. }
  assert (Us : unstarted s -> unstarted (with_process None s)) by (by intros (_ & U)).
  destruct (tb_process s) as [pid|] eqn:P.
  - change (returncode pid (with_process None s)) with (returncode pid s). destruct (returncode pid s) as [code|] eqn:Rc.
    + destruct (close_rest d (with_process None s)) as [p s'] eqn:E. eapply (R (with_process None s)); try done.
      apply forget_process; [done|]. rewrite P. intros q pr [= <-] Eq Rq. unfold returncode in Rc. rewrite Eq in Rc.
      cbn in Rc. congruence.
    + exists (PKilled pid), (kill pid (with_process None s)). split; [done|].
      change (kill pid (with_process None s)) with (with_process None (kill pid s)).
      split; [|split; [done|split; [done|split; [done|]]]].
      * apply forget_process; [by apply (quieter_inv s), I; apply kill_quieter|]. cbn. rewrite P. intros q pr [= <-].
        rewrite list_lookup_alter_eq. destruct (tb_procs s !! pid); [|done]. by intros [= <-].
      * intros (U & _). congruence.
  - destruct (close_rest d (with_process None s)) as [p s'] eqn:E. eapply (R (with_process None s)); try done.
    apply forget_process; [done|]. by rewrite P.
Qed.

Lemma close_inv d s : inv s -> inv (close d s).
Proof.
  intros I. destruct (close_spec d s I) as (p & s' & -> & I' & C & B & O & U). apply add_call_inv; [done|done|done|].
  intros _. split; [done|]. destruct (call_over (mkCall KClose p)) eqn:V; [by right|left]. intros x X Kx.
  destruct (call_over x) eqn:Ox; [done|]. rewrite C in X. destruct (iv_start s I x X Kx Ox) as [Un _]. by specialize (U Un).
Qed.

Lemma wait_over_inv c x d s :
  inv s -> tb_calls s !! c = Some x -> cl_kind x = KClose -> call_over x = false -> inv (wait_over c d s).
Proof.
  intros I E K Ov. unfold wait_over. destruct (close_rest d s) as [p s'] eqn:R.
  pose proof (iv_close s I c x E K (or_introl Ov)) as [P _].
  destruct (close_rest_inv d s p s' I P R) as (I' & B & C & O & N & _).
  apply (set_call_inv c x); rewrite ?K; try done. by rewrite C.
Qed.

Lemma gathered_inv c x d l s :
  inv s -> tb_calls s !! c = Some x -> cl_kind x = KClose -> cl_phase x = PGather l ->
  (forall i, i ∈ l -> task_done i s = true) -> inv (gathered c d s).
Proof.
  intros I E K G D. assert (Ov : call_over x = false) by (unfold call_over; by rewrite G).
  pose proof (iv_close s I c x E K (or_introl Ov)) as [P B]. rewrite G in B.
  destruct B as (M & S & Sub & _). unfold gathered.
  assert (I1 : inv (with_readers [] s)).
  { destruct I as [I0 I1 I2 I3 I4 I5 I6 I7 I8 I9 Io I10]. unfold unstarted in *. split; cbn; try done.
    - intros y X Ky O. destruct (I1 y X Ky O) as ((U1 & U2 & U) & W). done.
    - intros C. destruct (I2 C) as (U1 & U2 & U). done.
    - intros i r Er O. pose proof (D i (Sub i (I8 i r Er O))) as O'. unfold task_done in O'. rewrite Er in O'. congruence.
    - intros j y Y Ky Dy. destruct (I10 j y Y Ky Dy) as [Py By]. split; [done|]. destruct (cl_phase y) as [| | | |l'|[]]; try done.
      destruct By as (B1 & B2 & B3 & B4). split; [done|]. split; [done|]. split; [by intros ? ?%not_elem_of_nil|done]. }
  pose proof (shut_down_quieter d (with_readers [] s)) as Q. pose proof (quieter_inv _ _ Q I1) as I2.
  destruct Q as [[= J1 J2 J3 J4] C3 _ _ _ _].
  apply (set_call_inv c x); rewrite ?K; try done; [by rewrite C3|]. intros _.
  split; [by rewrite J1|]. rewrite J2, J3, J4. done.
Qed.

(** ** Starting *)

Lemma start_call_inv s : inv s -> tb_calls s = [] -> inv (add_call KStart PRunContainer s).
Proof.
  intros [I0 I1 I2 I3 I4 I5 I6 I7 I8 I9 Io I10] C. unfold add_call. rewrite C. cbn.
  assert (L : forall c x, [mkCall KStart PRunContainer] !! c = Some x -> c = 0 /\ x = mkCall KStart PRunContainer).
  { intros c x E. by apply list_lookup_singleton_Some in E as [<- <-]. }
  split; cbn; try done.
  - by intros c x [-> _]%L.
  - intros x ->%list_elem_of_singleton _ _. split; [by apply I2|]. by intros y ->%list_elem_of_singleton.
  - intros x ->%list_elem_of_singleton _. apply I4, C.
  - by intros x ->%list_elem_of_singleton.
  - intros c Oc. destruct (Io c Oc) as [_ [p E]]. by rewrite C in E.
  - by intros c x [_ ->]%L.
Qed.

(** While a start is under way, it is the first call, and the only start. *)
Lemma start_calls c x s :
  inv s -> tb_calls s !! c = Some x -> cl_kind x = KStart -> call_over x = false ->
  c = 0 /\ unstarted s /\ (forall y, y ∈ tb_calls s -> cl_kind y = KClose -> call_over y = true) /\ (forall j, ~ own j) /\
  forall p y, y ∈ alter (fun z => mkCall (cl_kind z) p) c (tb_calls s) ->
    y = mkCall KStart p \/ (y ∈ tb_calls s /\ cl_kind y <> KStart).
Proof.
  intros I E K O. pose proof (list_elem_of_lookup_2 _ _ _ E) as X. destruct (iv_start s I x X K O) as [U W].
  split; [by apply (iv_first s I c x)|]. split; [done|]. split; [done|]. split.
  - intros j Oj. destruct (iv_own s I j Oj) as [So _]. by rewrite (So x X K) in O.
  - intros p y [j Y]%list_elem_of_lookup. apply alter_lookup in Y as [[<- (z & Z & ->)]|[N Y]].
    + left. rewrite E in Z. injection Z as <-. by rewrite K.
    + right. split; [by eapply list_elem_of_lookup_2|]. intros Ky. apply N.
      by rewrite (iv_first s I c x E K), (iv_first s I j y Y Ky).
Qed.

Lemma container_ran_inv c x ok pty s s' :
  inv s -> tb_calls s !! c = Some x -> cl_phase x = PRunContainer -> container_ran c ok pty s = Some s' -> inv s'.
Proof.
  intros I E P R. pose proof (list_elem_of_lookup_2 _ _ _ E) as X.
  pose proof (iv_phase s I x X) as K. rewrite P in K. cbn in K.
  assert (Ov : call_over x = false) by (unfold call_over; by rewrite P).
  assert (F : inv (set_call c (POver Raised) s)) by (apply (set_call_inv c x); rewrite ?K; done).
  unfold container_ran in R. destruct ok; [|by injection R as <-]. destruct (tb_container s); [|done].
  destruct pty as [[m sl]|]; [|by injection R as <-].
  destruct (_ && _) eqn:D; [|done]. injection R as <-. apply andb_true_iff in D as [[D1 D2]%andb_true_iff D3].
  apply bool_decide_eq_true in D1, D2, D3.
  destruct (start_calls c x s I E K Ov) as (-> & U & W & No & A). specialize (A PExec).
  destruct (iv_no_pty s I x X P) as [M0 S0]. pose proof I as [I0 I1 I2 I3 I4 I5 I6 I7 I8 I9 Io I10].
  split; cbn; try done.
  - intros j y [[<- (z & Z & ->)]|[N Y]]%alter_lookup Ky; [done|by apply (I0 j y)].
  - intros y Y Ky Oy. split; [done|]. intros z [->|[Z _]]%A Kz; [done|by apply W].
  - intros y [->|[Y Ny]]%A Py; [done|]. pose proof (I5 y Y) as H. rewrite Py in H. done.
  - intros N. exfalso. destruct (tb_calls s) eqn:Cs; [done|discriminate N].
  - intros y [->|[Y _]]%A; [done|by apply I5].
  - intros fd. rewrite !lookup_insert_Some. split.
    + intros [[<- _]|[N [[_ X']|[N' X']]]]; [done|done|]. apply I6 in X'. congruence.
    + intros [= <-]. by left.
  - intros fd. rewrite !lookup_insert_Some. split.
    + intros [[_ X']|[N [[<- _]|[N' X']]]]; [done|done|]. apply I7 in X'. congruence.
    + intros [= <-]. right. split; [done|by left].
  - intros j Oj. by destruct (No j).
  - intros j y Y Ky [Oy|Oj]; [|by destruct (No j)]. apply list_elem_of_lookup_2 in Y.
    apply A in Y as [->|[Y _]]; [done|]. by rewrite (W y Y Ky) in Oy.
Qed.

Lemma execed_inv c x ok d s :
  inv s -> tb_calls s !! c = Some x -> cl_phase x = PExec -> inv (execed c ok d s).
Proof.
  intros I E P. pose proof (list_elem_of_lookup_2 _ _ _ E) as X.
  pose proof (iv_phase s I x X) as K. rewrite P in K. cbn in K.
  assert (Ov : call_over x = false) by (unfold call_over; by rewrite P).
  destruct (start_calls c x s I E K Ov) as (-> & U & W & No & A). unfold execed. destruct ok.
  - specialize (A (POver Returned)). destruct U as (U1 & U2 & U3 & U4). pose proof I as [I0 I1 I2 I3 I4 I5 I6 I7 I8 I9 Io I10].
    assert (D : forall fd sl, tb_slave s = Some sl -> delete sl (tb_fds s) !! fd = Some FSlave -> False).
    { intros fd sl Es [N Ef]%lookup_delete_Some. apply I7 in Ef. congruence. }
    assert (D' : forall fd, tb_slave s = None -> tb_fds s !! fd = Some FSlave -> False).
    { intros fd Es Ef. apply I7 in Ef. congruence. }
    assert (Dm : forall fd sl, tb_slave s = Some sl -> delete sl (tb_fds s) !! fd = Some FMaster <-> tb_master s = Some fd).
    { intros fd sl Es. rewrite lookup_delete_Some, <- I6. split; [by intros [? ?]|]. intros Ef. split; [|done].
      intros ->. assert (tb_fds s !! fd = Some FSlave) by (by apply I7). congruence. }
    unfold set_call, close_pty_slave_fd, close_fd. cbn. destruct (tb_slave s) as [sl|] eqn:Es; cbn; rewrite U3, U4; cbn;
      (split; cbn; try done; try (intros N; exfalso; destruct (tb_calls s) eqn:Cs; [done|discriminate N]);
       try (intros j y [[<- (z & Z & ->)]|[N Y]]%alter_lookup Ky; [done|by apply (I0 j y)]);
       try (intros y [->|[Y Ny]]%A Ky; [done|done]);
       try (intros y [->|[Y Ny]]%A Py; [done|]; pose proof (I5 y Y) as H; rewrite Py in H; done);
       try (intros y [->|[Y _]]%A; [done|by apply I5]);
       try (intros j Oj; by destruct (No j));
       try (intros j y Y Ky [Oy|Oj]; [|by destruct (No j)]; apply list_elem_of_lookup_2 in Y;
            apply A in Y as [->|[Y _]]; [done|]; by rewrite (W y Y Ky) in Oy)).
    + intros fd. by apply Dm.
    + intros fd. split; [|done]. intros Ef. exfalso. eauto.
    + intros [|[|i]] r Er; [by left|by right; left|by destruct i].
    + intros [|pid] p Ep; [done|by destruct pid].
    + intros [|[|i]] r Er; [by left|by right; left|by destruct i].
    + intros [|pid] p Ep; [done|by destruct pid].
  - destruct (close_pty_fds_inv s I) as (I1 & _).
    pose proof (shut_down_quieter d (close_pty_fds s)) as Q. pose proof (quieter_inv _ _ Q I1) as I2.
    assert (C2 : tb_calls (shut_down d (close_pty_fds s)) = tb_calls s).
    { rewrite (qt_calls _ _ Q). apply close_pty_fds_same. }
    apply (set_call_inv 0 x); rewrite ?K; try done. by rewrite C2.
Qed.

(** ** Every step *)

Lemma run_call_inv c x ev s s' : inv s -> tb_calls s !! c = Some x -> run_call c x ev s = Some s' -> inv s'.
Proof.
  intros I E R. pose proof (list_elem_of_lookup_2 _ _ _ E) as X. pose proof (iv_phase s I x X) as K.
  destruct (call_over x) eqn:Ov; [unfold run_call, call_over in *; by destruct (cl_phase x), ev|].
  assert (O : forall o, (cl_kind x = KClose -> closed_by (POver o) s) -> inv (set_call c (POver o) s)).
  { intros o B. by apply (set_call_inv c x). }
  assert (O' : cl_kind x = KClose -> closed_by (POver WasCancelled) s).
  { intros Kx. by destruct (iv_close s I c x E Kx (or_introl Ov)) as [P _]. }
  unfold run_call in R. destruct (cl_phase x) as [| |t|pid|l|o] eqn:P, ev; try done; cbn in K.
  - by eapply container_ran_inv.
  - injection R as <-. auto.
  - injection R as <-. by eapply execed_inv.
  - injection R as <-. auto.
  - destruct (tb_threads s !! t) as [y|]; [|done]. cbn in R. destruct (th_result y); [|done]. injection R as <-.
    apply O. intros Kx. rewrite Kx in K. by destruct K.
  - injection R as <-. auto.
  - injection R as <-. by eapply wait_over_inv.
  - injection R as <-. auto.
  - destruct (forallb _ l) eqn:F; [|done]. injection R as <-. eapply gathered_inv; [done..|].
    intros i Hi. rewrite forallb_forall in F. by apply F, list_elem_of_In.
  - destruct (forallb _ l); [|done]. injection R as <-. auto.
Qed.

Lemma bridge_step_inv ev s s' : inv s -> sensible ev s -> step ev s = Some s' -> inv s'.
Proof.
  intros I S E. destruct ev as [| |c ok pty|c ok d|data|cols rows|d|c d|c d|c|c|t r n|i|i ok|pid code|fd n|fd]; cbn [step sensible] in E, S;
    try (apply bind_Some in E as (x & X & R); by eapply run_call_inv).
  - injection E as <-. by apply start_call_inv.
  - destruct (existsb _ _); [|done]. injection E as <-. eapply quieter_inv; [apply container_quieter|done].
  - injection E as <-. unfold send_input.
    assert (A : forall p, phase_ok KInput p -> inv (add_call KInput p s)) by (intros p Hp; by apply add_call_inv).
    destruct (tb_process s) as [pid|] eqn:P; [|by apply A]. destruct (tb_master s) as [fd|]; [|by apply A].
    destruct (encode data) as [payload|]; [|by apply A].
    apply (quieter_inv (add_call KInput (PThread (length (tb_threads s))) s)); [|by apply A; left].
    apply threads_quieter.
  - injection E as <-. unfold resize.
    assert (A : forall p, phase_ok KResize p -> inv (add_call KResize p s)) by (intros p Hp; by apply add_call_inv).
    destruct (_ || _); [by apply A|]. destruct (tb_master s) as [fd|] eqn:M; [|by apply A].
    destruct (_ && _); [|by apply A].
    apply (quieter_inv (add_call KResize (PThread (length (tb_threads s))) s)); [|by apply A; right].
    apply threads_quieter.
  - injection E as <-. by apply close_inv.
  - apply bind_Some in E as (x & X & R). eapply quieter_inv; [by eapply thread_runs_quieter|done].
  - apply bind_Some in E as (x & X & R). eapply quieter_inv; [by eapply reader_runs_quieter|done].
  - apply bind_Some in E as (x & X & R). eapply quieter_inv; [by eapply callback_over_quieter|done].
  - apply bind_Some in E as (p & X & E). destruct (pr_returncode p); [done|]. injection E as <-.
    apply (quieter_inv s); [|done]. split; cbn; try done; [eauto| |].
    + intros q y [(_ & <- & _)|[N Y]]%list_lookup_insert_Some; [done|done].
    + intros (_ & _ & _ & U). by rewrite U in X.
  - destruct (tb_fds s !! fd) eqn:X; [done|]. injection E as <-. apply (quieter_inv s); [|done]. split; cbn; try done; [eauto|].
    intros q f F. rewrite lookup_insert_Some. split; [intros [[<- <-]|[N Y]]; [by destruct F|done]|].
    intros Y. right. split; [|done]. intros ->. congruence.
  - destruct (tb_fds s !! fd) as [[| |n]|] eqn:X; try done. injection E as <-. apply (quieter_inv s); [|done].
    split; cbn; try done; [eauto|]. intros q f F. rewrite lookup_delete_Some. split; [by intros [N Y]|].
    intros Y. split; [|done]. intros ->. rewrite X in Y. injection Y as <-. by destruct F.
Qed.

Lemma init_inv : (forall c, ~ own c) -> inv init_bridge.
Proof. intros N. split; cbn; try done; try (intros ? ?%not_elem_of_nil; done). intros c Oc. by destruct (N c). Qed.
End inv.
Arguments iv_start {own s}.
Arguments iv_phase {own s}.
Arguments iv_master {own s}.
Arguments iv_slave {own s}.
Arguments iv_live {own s}.
Arguments iv_procs {own s}.
Arguments iv_own {own s}.
Arguments iv_close {own s}.

Definition none (c : nat) : Prop := False.
Lemma bridge_reach_inv s : reach s -> inv none s.
Proof. induction 1; [apply init_inv; by intros c []|by eapply bridge_step_inv]. Qed.

(** A [close] that began when no start was under way can be followed. *)
Lemma follow_close c p s :
  inv none s -> start_over s -> tb_calls s !! c = Some (mkCall KClose p) -> closed_by p s -> inv (eq c) s.
Proof.
  intros [I0 I1 I2 I3 I4 I5 I6 I7 I8 I9 Io I10] So E B. split; try done.
  - intros j <-. split; [done|]. by exists p.
  - intros j x X K [O|<-]; [by apply (I10 j x X K); left|]. rewrite E in X. by injection X as <-.
Qed.

(** ** Steps that do not concern the output *)

Definition is_read (x : thread) : bool := match th_call x with SRead _ => true | _ => false end.
Definition same_task (r r' : reader) : Prop :=
  rd_kind r' = rd_kind r /\ rd_phase r' = rd_phase r /\ (rd_cancel r = true -> rd_cancel r' = true).
#[local] Instance same_task_pre : PreOrder same_task.
Proof. split; [done|]. intros x y z (X1 & X2 & X3) (Y1 & Y2 & Y3). split; [congruence|]. split; [congruence|auto]. Qed.
Record deaf (s s' : bridge) : Prop := {
  df_events : tb_events s' = tb_events s;
  df_reads : tb_reads s' = tb_reads s;
  df_threads : exists l, tb_threads s' = tb_threads s ++ l /\ Forall (fun x => is_read x = false) l;
  df_tasks : Forall2 same_task (tb_tasks s) (tb_tasks s')
}.
#[local] Instance deaf_pre : PreOrder deaf.
Proof.
  split.
  - intros s. split; [done|done| |reflexivity]. exists []. by rewrite app_nil_r.
  - intros s1 s2 s3 [A1 A2 (l & A3 & A4) A5] [B1 B2 (l' & B3 & B4) B5]. split; try congruence.
    + exists (l ++ l'). rewrite B3, A3, app_assoc. split; [done|by apply Forall_app].
    + by etransitivity.
Qed.

(** Same output, threads and tasks. *)
Lemma deaf_same s s' :
  tb_events s' = tb_events s -> tb_reads s' = tb_reads s -> tb_threads s' = tb_threads s -> tb_tasks s' = tb_tasks s -> deaf s s'.
Proof.
  intros E R T K. split; [done|done|exists []; by rewrite app_nil_r|by rewrite K].
Qed.
Lemma deaf_cancel_reader i s : deaf s (cancel_reader i s).
Proof.
  split; [done|done|exists []; by rewrite app_nil_r|]. unfold cancel_reader. cbn. apply Forall2_same_length_lookup. split.
  - by rewrite length_alter.
  - intros j r r' E [[<- (x & X & ->)]|[N X]]%alter_lookup.
    + rewrite E in X. injection X as <-. by destruct (phase_over (rd_phase r)).
    + rewrite E in X. by injection X as <-.
Qed.
Lemma deaf_cancel_readers l s : deaf s (cancel_readers l s).
Proof. induction l as [|i l IH]; cbn; [reflexivity|]. etransitivity; [exact IH|apply deaf_cancel_reader]. Qed.
Lemma deaf_close_fd fd s : deaf s (close_fd fd s).
Proof. destruct fd; [by apply deaf_same|reflexivity]. Qed.
Lemma deaf_close_pty_fds s : deaf s (close_pty_fds s).
Proof.
  unfold close_pty_fds, close_pty_master_fd, close_pty_slave_fd.
  etransitivity; [|apply deaf_close_fd]. etransitivity; [|by apply (deaf_same (close_fd (tb_slave s) (with_slave None s)))].
  etransitivity; [|apply deaf_close_fd]. by apply deaf_same.
Qed.
Lemma deaf_shut_down d s : deaf s (shut_down d s).
Proof. unfold shut_down. destruct (graceful_shutdown d); by apply deaf_same. Qed.
Lemma deaf_to_thread x s : is_read (mkThread x None) = false -> deaf s (to_thread x s).
Proof. intros R. split; [done|done|exists [mkThread x None]; split; [done|by constructor]|done]. Qed.
Lemma deaf_close_rest d s p s' : close_rest d s = (p, s') -> deaf s s'.
Proof.
  unfold close_rest. intros E.
  assert (D : deaf s (cancel_readers (tb_readers (close_pty_fds s)) (close_pty_fds s))).
  { etransitivity; [apply deaf_close_pty_fds|apply deaf_cancel_readers]. }
  case_bool_decide; injection E as <- <-; [|done]. etransitivity; [exact D|apply deaf_shut_down].
Qed.
Lemma deaf_close d s : deaf s (close d s).
Proof.
  unfold close. set (s1 := with_process None s). assert (D : deaf s s1) by by apply deaf_same.
  assert (A : forall k p s2, deaf s s2 -> deaf s (add_call k p s2)).
  { intros k p s2 D2. etransitivity; [exact D2|by apply deaf_same]. }
  destruct (tb_process s) as [pid|]; [destruct (returncode pid s1)|].
  - destruct (close_rest d s1) as [p s2] eqn:E. apply A. etransitivity; [exact D|by eapply deaf_close_rest].
  - apply A. etransitivity; [exact D|by apply deaf_same].
  - destruct (close_rest d s1) as [p s2] eqn:E. apply A. etransitivity; [exact D|by eapply deaf_close_rest].
Qed.

Lemma run_call_deaf c x ev s s' :
  run_call c x ev s = Some s' -> deaf s s' \/ (cl_phase x = PExec /\ exists d, s' = execed c true d s).
Proof.
  assert (C : forall p s1, deaf s s1 -> deaf s (set_call c p s1)).
  { intros p s1 D. etransitivity; [exact D|by apply deaf_same]. }
  assert (C0 : forall p, deaf s (set_call c p s)) by (intros p; by apply C).
  intros R. unfold run_call in R. destruct (cl_phase x) as [| |t|pid|l|o], ev; try done.
  - left. unfold container_ran in R. repeat (case_match; simplify_eq; auto). by apply deaf_same.
  - left. injection R as <-. auto.
  - injection R as <-. destruct ok; [right; eauto|]. left. unfold execed. apply C.
    etransitivity; [apply deaf_close_pty_fds|apply deaf_shut_down].
  - left. injection R as <-. auto.
  - left. destruct (tb_threads s !! t) as [y|]; [|done]. cbn in R. destruct (th_result y); [|done]. injection R as <-. auto.
  - left. injection R as <-. auto.
  - left. injection R as <-. unfold wait_over. destruct (close_rest d s) as [p s1] eqn:E. apply C. by eapply deaf_close_rest.
  - left. injection R as <-. auto.
  - left. destruct (forallb _ l); [|done]. injection R as <-. unfold gathered. apply C.
    etransitivity; [|apply deaf_shut_down]. by apply deaf_same.
  - left. destruct (forallb _ l); [|done]. injection R as <-. auto.
Qed.

(** What a step may be that does. *)
Lemma step_deaf ev s s' :
  step ev s = Some s' ->
  deaf s s' \/
  (exists c x d, tb_calls s !! c = Some x /\ cl_phase x = PExec /\ s' = execed c true d s) \/
  (exists t x r n, tb_threads s !! t = Some x /\ thread_runs t x r n s = Some s') \/
  (exists i r, tb_tasks s !! i = Some r /\ (reader_runs i r s = Some s' \/ exists ok, callback_over i ok r s = Some s')).
Proof.
  assert (A : forall k p s2, deaf s s2 -> deaf s (add_call k p s2)).
  { intros k p s2 D2. etransitivity; [exact D2|by apply deaf_same]. }
  assert (A0 : forall k p, deaf s (add_call k p s)) by (intros; by apply A).
  intros E. destruct ev as [| |c ok pty|c ok d|data|cols rows|d|c d|c d|c|c|t r n|i|i ok|pid code|fd n|fd]; cbn [step] in E;
    try (apply bind_Some in E as (x & X & R); first
      [ by (apply run_call_deaf in R as [D|(P & d' & ->)]; [left|right; left; eauto 10])
      | by (right; right; left; eauto 10) | by (right; right; right; eauto 10) ]); try (left; injection E as <-; by auto).
  - left. destruct (existsb _ _); [|done]. injection E as <-. by apply deaf_same.
  - left. injection E as <-. unfold send_input. destruct (tb_process s); [|auto]. destruct (tb_master s); [|auto].
    destruct (encode data); [|auto]. etransitivity; [apply A0|by apply deaf_to_thread].
  - left. injection E as <-. unfold resize. destruct (_ || _); [auto|]. destruct (tb_master s); [|auto].
    destruct (_ && _); [|auto]. etransitivity; [apply A0|by apply deaf_to_thread].
  - left. injection E as <-. apply deaf_close.
  - left. apply bind_Some in E as (p & X & E). destruct (pr_returncode p); [done|]. injection E as <-. by apply deaf_same.
  - left. destruct (tb_fds s !! fd); [done|]. injection E as <-. by apply deaf_same.
  - left. destruct (tb_fds s !! fd) as [[]|]; try done. injection E as <-. by apply deaf_same.
Qed.

(** ** Calls that are over *)

Lemma close_rest_calls d s p s' : close_rest d s = (p, s') -> tb_calls s' = tb_calls s.
Proof.
  unfold close_rest. intros E. destruct (close_pty_fds_same s) as [C _].
  pose proof (qt_calls _ _ (cancel_readers_quieter (tb_readers (close_pty_fds s)) (close_pty_fds s))) as Q.
  case_bool_decide; injection E as <- <-; [rewrite (qt_calls _ _ (shut_down_quieter d _))|]; congruence.
Qed.
Lemma close_calls d s : exists p, tb_calls (close d s) = tb_calls s ++ [mkCall KClose p].
Proof.
  unfold close. set (s1 := with_process None s).
  assert (A : forall p s2, close_rest d s1 = (p, s2) -> tb_calls (add_call KClose p s2) = tb_calls s ++ [mkCall KClose p]).
  { intros p s2 E. cbn. by rewrite (close_rest_calls _ _ _ _ E). }
  destruct (tb_process s) as [pid|]; [destruct (returncode pid s1)|]; [|by eexists|];
    destruct (close_rest d s1) as [p s2] eqn:E; eauto.
Qed.
Lemma over_alter x (c : nat) p (l : list call) :
  x ∈ l -> call_over x = true -> (forall y, l !! c = Some y -> call_over y = false) ->
  x ∈ alter (fun y => mkCall (cl_kind y) p) c l.
Proof. intros X O N. destruct (alter_elem (fun y => mkCall (cl_kind y) p) c l x X) as [E|E]; [|done]. rewrite (N x E) in O. done. Qed.

Lemma run_call_calls c x ev s s' :
  run_call c x ev s = Some s' ->
  exists p, tb_calls s' = alter (fun y => mkCall (cl_kind y) p) c (tb_calls s) /\ call_over x = false.
Proof.
  intros R. unfold run_call in R. unfold call_over. destruct (cl_phase x) as [| |t|pid|l|o], ev; try done;
    try (injection R as <-; by eexists).
  - unfold container_ran in R. repeat (case_match; simplify_eq); by eexists.
  - injection R as <-. unfold execed. destruct ok.
    + eexists. split; [|done]. unfold close_pty_slave_fd, close_fd. cbn. by destruct (tb_slave s).
    + eexists. split; [|done]. cbn. rewrite (qt_calls _ _ (shut_down_quieter d _)). by rewrite (proj1 (close_pty_fds_same s)).
  - destruct (tb_threads s !! t) as [y|]; [|done]. cbn in R. destruct (th_result y); [|done]. injection R as <-. by eexists.
  - injection R as <-. unfold wait_over. destruct (close_rest d s) as [p s1] eqn:E. eexists. split; [|done]. cbn.
    by rewrite (close_rest_calls _ _ _ _ E).
  - destruct (forallb _ l); [|done]. injection R as <-. eexists. split; [|done]. cbn.
    by rewrite (qt_calls _ _ (shut_down_quieter d _)).
  - destruct (forallb _ l); [|done]. injection R as <-. by eexists.
Qed.

Lemma over_stays ev s s' c x :
  step ev s = Some s' -> tb_calls s !! c = Some x -> call_over x = true -> tb_calls s' !! c = Some x.
Proof.
  intros E X O.
  assert (Q : quieter s s' -> tb_calls s' !! c = Some x) by (intros Q; by rewrite (qt_calls _ _ Q)).
  assert (A : forall k p, (tb_calls s ++ [mkCall k p]) !! c = Some x) by (intros; by apply lookup_app_l_Some).
  destruct ev as [| |j ok pty|j ok d|data|cols rows|d|j d|j d|j|j|t r n|i|i ok|pid code|fd n|fd]; cbn [step] in E;
    try (apply bind_Some in E as (y & Y & R); apply run_call_calls in R as (p & -> & N);
         rewrite list_lookup_alter_ne; [done|]; intros ->; congruence).
  - injection E as <-. apply A.
  - destruct (existsb _ _); [|done]. by injection E as <-.
  - injection E as <-. unfold send_input. destruct (tb_process s); [|apply A]. destruct (tb_master s); [|apply A].
    destruct (encode data); apply A.
  - injection E as <-. unfold resize. destruct (_ || _); [apply A|]. destruct (tb_master s); [|apply A]. destruct (_ && _); apply A.
  - injection E as <-. destruct (close_calls d s) as [p ->]. apply A.
  - apply bind_Some in E as (y & Y & R). by apply Q; eapply thread_runs_quieter.
  - apply bind_Some in E as (y & Y & R). by apply Q; eapply reader_runs_quieter.
  - apply bind_Some in E as (y & Y & R). by apply Q; eapply callback_over_quieter.
  - apply bind_Some in E as (p & Y & E). destruct (pr_returncode p); [done|]. by injection E as <-.
  - destruct (tb_fds s !! fd); [done|]. by injection E as <-.
  - destruct (tb_fds s !! fd) as [[]|]; try done. by injection E as <-.
Qed.
Lemma thread_runs_events t x r n s s' : thread_runs t x r n s = Some s' -> tb_events s' = tb_events s.
Proof. unfold thread_runs. destruct (th_result x); [done|]. intros X. by repeat (case_match; simplify_eq). Qed.

(** ** A closed bridge *)

(** The call [c] is a [close] that has returned. *)
Definition closed (c : nat) (s : bridge) : Prop := tb_calls s !! c = Some (mkCall KClose (POver Returned)).

(** Nothing of the bridge is left in the program. *)
Record gone (s : bridge) : Prop := {
  gn_handles : tb_process s = None /\ tb_readers s = [] /\ tb_master s = None /\ tb_slave s = None;
  gn_fds : forall fd f, tb_fds s !! fd = Some f -> f <> FMaster /\ f <> FSlave;
  gn_procs : forall pid p, tb_procs s !! pid = Some p -> is_Some (pr_returncode p) \/ pr_killed p = true;
  gn_tasks : forall i r, tb_tasks s !! i = Some r -> phase_over (rd_phase r) = true
}.

Lemma closed_gone c s : inv (eq c) s -> closed c s -> gone s.
Proof.
  intros I C. destruct (iv_close I c _ C eq_refl (or_intror eq_refl)) as (P & M & S & Rd). cbn in Rd. split.
  - done.
  - intros fd f E. split; intros ->; [apply (iv_master I) in E|apply (iv_slave I) in E]; congruence.
  - intros pid p E. destruct (pr_returncode p) eqn:Rc; [by left; eexists|]. destruct (pr_killed p) eqn:K; [by right|].
    pose proof (iv_procs I pid p E Rc K). congruence.
  - intros i r E. destruct (phase_over (rd_phase r)) eqn:O; [done|]. pose proof (iv_live I i r E O) as L.
    rewrite Rd in L. by apply not_elem_of_nil in L.
Qed.

Lemma later_sensible ev s : ev <> Start -> sensible ev s.
Proof. by destruct ev. Qed.

Lemma closed_step c ev s s' :
  inv (eq c) s -> closed c s -> ev <> Start -> step ev s = Some s' ->
  inv (eq c) s' /\ closed c s' /\ tb_events s' = tb_events s.
Proof.
  intros I C N E. split; [apply (bridge_step_inv _ ev s); [done|by apply later_sensible|done]|]. split; [by eapply over_stays|].
  destruct (step_deaf ev s s' E) as [D|[(j & x & d & X & Px & ->)|[(t & x & r & n & X & T)|(i & r & X & T)]]].
  - by apply df_events.
  - exfalso. apply list_elem_of_lookup_2 in X. pose proof (iv_phase I x X) as K. rewrite Px in K. cbn in K.
    destruct (iv_own I c eq_refl) as [So _]. specialize (So x X K). unfold call_over in So. by rewrite Px in So.
  - by eapply thread_runs_events.
  - pose proof (gn_tasks s (closed_gone c s I C) i r X) as O. unfold reader_runs, callback_over in T. rewrite O in T.
    destruct T as [T|[ok T]]; [done|]. destruct (rd_cancel r); [done|]. by destruct (rd_phase r).
Qed.

Lemma run_inv own evs s s' : inv own s -> Start ∉ evs -> run evs s = Some s' -> inv own s'.
Proof.
  revert s. induction evs as [|ev evs IH]; intros s I N E; cbn in E; [by injection E as <-|].
  apply bind_Some in E as (s1 & E1 & E). apply not_elem_of_cons in N as [N1 N2].
  apply (IH s1); [apply (bridge_step_inv _ ev s); [done|apply later_sensible; congruence|done]|done|done].
Qed.
Lemma closed_run_kept c evs s s' :
  inv (eq c) s -> closed c s -> Start ∉ evs -> run evs s = Some s' ->
  inv (eq c) s' /\ closed c s' /\ tb_events s' = tb_events s.
Proof.
  revert s. induction evs as [|ev evs IH]; intros s I C N E; cbn in E; [by injection E as <-|].
  apply bind_Some in E as (s1 & E1 & E). apply not_elem_of_cons in N as [N1 N2].
  destruct (closed_step c ev s s1 I C ltac:(congruence) E1) as (I1 & C1 & V1).
  destruct (IH s1 I1 C1 N2 E) as (I2 & C2 & V2). split; [done|]. split; [done|congruence].
Qed.

(** C19: A bridge whose [close] has returned is gone, if no start was under way when that
    [close] began. Whatever threads, tasks, timeouts, cancellations and other calls come in
    between, from the moment it returns the program holds no descriptor of the terminal, the
    shell has exited or was killed, the tasks that call the session service are over, and so
    it stays: nothing the bridge does calls the service again. Nothing is said of a [close]
    that comes while the start is under way: it can leave everything alive
    ([closed_while_starting]). *)
Theorem closed_bridge_is_gone s0 d evs s :
  reach s0 -> start_over s0 ->
  run evs (close d s0) = Some s -> Start ∉ evs -> closed (length (tb_calls s0)) s ->
  gone s /\ forall more s', Start ∉ more -> run more s = Some s' -> gone s' /\ tb_events s' = tb_events s.
Proof.
  intros R So E N C. pose proof (bridge_reach_inv s0 R) as I. set (c := length (tb_calls s0)) in *.
  assert (I1 : inv (eq c) (close d s0)).
  { pose proof (close_inv _ d s0 I) as Ic. destruct (close_spec none d s0 I) as (p & s1 & Ec & _ & C1 & B & _). rewrite Ec in Ic |- *.
    apply (follow_close c p); [done| |cbn; rewrite C1; by apply list_lookup_middle|done].
    intros x X K. cbn in X. rewrite C1 in X. apply elem_of_app in X as [X|X%list_elem_of_singleton]; [by apply So|by subst x]. }
  pose proof (run_inv _ evs _ _ I1 N E) as Is. split; [by eapply closed_gone|].
  intros more s' Nm Em. destruct (closed_run_kept c more s s' Is C Nm Em) as (I' & C' & V).
  split; [by eapply closed_gone|done].
Qed.

(** ** What becomes of the output *)

(** The texts the session service was given; the chunks read from the terminal. *)
Definition outputs (s : bridge) : list text :=
  omap (fun e => match e with EvOutput d => Some d | EvExit _ => None end) (tb_events s).
Definition shell_output (s : bridge) : list bytes :=
  omap (fun x : file * bytes => if decide (x.1 = FMaster) then Some x.2 else None) (tb_reads s).

(** The handle of the terminal stays as long as a task that is not cancelled uses it. *)
Lemma step_master ev s s' :
  inv none s -> step ev s = Some s' ->
  tb_master s' = tb_master s \/ tb_tasks s' = [] \/
  forall i r, tb_tasks s' !! i = Some r -> phase_over (rd_phase r) = false -> rd_cancel r = true.
Proof.
  intros I E.
  assert (Q : quieter s s' -> tb_master s' = tb_master s) by (intros [[= ? ? M ?] _ _ _ _ _]; done).
  assert (C : forall d s1 p s2, inv none s1 -> tb_process s1 = None -> close_rest d s1 = (p, s2) ->
    forall i r, tb_tasks s2 !! i = Some r -> phase_over (rd_phase r) = false -> rd_cancel r = true).
  { intros d s1 p s2 I1 P R. destruct (close_rest_inv none d s1 p s2 I1 P R) as (I2 & B & _).
    unfold close_rest in R. case_bool_decide as N; injection R as <- <-.
    - intros i r X O. pose proof (iv_live I2 i r X O) as L. destruct B as (_ & _ & _ & B). rewrite B in L.
      by apply not_elem_of_nil in L.
    - by destruct B as (_ & _ & _ & _ & B). }
  assert (G : forall c x ev, tb_calls s !! c = Some x -> run_call c x ev s = Some s' ->
    tb_master s' = tb_master s \/ tb_tasks s' = [] \/
    forall i r, tb_tasks s' !! i = Some r -> phase_over (rd_phase r) = false -> rd_cancel r = true).
  { clear ev E. intros c x ev X R. pose proof X as Xc. apply list_elem_of_lookup_2 in X. pose proof (iv_phase I x X) as K.
    assert (U : cl_kind x = KStart -> call_over x = false -> tb_tasks s = []).
    { intros Kx O. by destruct (iv_start I x X Kx O) as ((_ & _ & U & _) & _). }
    unfold run_call in R. destruct (cl_phase x) as [| |t|pid|l|o] eqn:P, ev; try done; cbn in K;
      try (injection R as <-; by left).
    - assert (T : tb_tasks s = []) by (apply U; [done|by unfold call_over; rewrite P]).
      right; left. unfold container_ran in R. repeat (case_match; simplify_eq); done.
    - assert (T : tb_tasks s = []) by (apply U; [done|by unfold call_over; rewrite P]).
      injection R as <-. unfold execed. destruct ok.
      + left. unfold close_pty_slave_fd, close_fd. cbn. by destruct (tb_slave s).
      + right; left. pose proof (df_tasks _ _ (deaf_shut_down d (close_pty_fds s))) as D1.
        pose proof (df_tasks _ _ (deaf_close_pty_fds s)) as D2. rewrite T in D2. apply Forall2_nil_inv_l in D2.
        rewrite D2 in D1. by apply Forall2_nil_inv_l in D1.
    - left. destruct (tb_threads s !! t) as [y|]; [|done]. cbn in R. destruct (th_result y); [|done]. by injection R as <-.
    - right; right. injection R as <-. unfold wait_over. destruct (close_rest d s) as [p s1] eqn:E.
      destruct (iv_close I c x Xc K) as [Pn _]; [by left; unfold call_over; rewrite P|]. by apply (C d s p s1).
    - left. destruct (forallb _ l); [|done]. injection R as <-. cbn.
      destruct (qt_handles _ _ (shut_down_quieter d (with_readers [] s))). cbn.
      by destruct (shut_down_quieter d (with_readers [] s)) as [[= _ _ M _] _ _ _ _ _].
    - left. destruct (forallb _ l); [|done]. by injection R as <-. }
  destruct ev as [| |c ok pty|c ok d|data|cols rows|d|c d|c d|c|c|t r n|i|i ok|pid code|fd n|fd]; cbn [step] in E;
    try (apply bind_Some in E as (y & Y & R); by eapply G).
  - left. by injection E as <-.
  - left. destruct (existsb _ _); [|done]. by injection E as <-.
  - left. injection E as <-. unfold send_input. by repeat case_match.
  - left. injection E as <-. unfold resize. by repeat case_match.
  - injection E as <-. unfold close. destruct (tb_process s) as [pid|] eqn:P.
    + change (returncode pid (with_process None s)) with (returncode pid s).
      destruct (returncode pid s) as [code|] eqn:Rc; [|by left].
      right; right. destruct (close_rest d (with_process None s)) as [p s2] eqn:E. apply (C d (with_process None s) p s2); try done.
      apply forget_process; [done|]. rewrite P. intros q pr [= <-] Eq Rq. unfold returncode in Rc. rewrite Eq in Rc.
      cbn in Rc. congruence.
    + right; right. destruct (close_rest d (with_process None s)) as [p s2] eqn:E. apply (C d (with_process None s) p s2); try done.
      apply forget_process; [done|]. by rewrite P.
  - left. apply bind_Some in E as (y & Y & R). by apply Q; eapply thread_runs_quieter.
  - left. apply bind_Some in E as (y & Y & R). by apply Q; eapply reader_runs_quieter.
  - left. apply bind_Some in E as (y & Y & R). by apply Q; eapply callback_over_quieter.
  - left. apply bind_Some in E as (p & Y & E). destruct (pr_returncode p); [done|]. by injection E as <-.
  - left. destruct (tb_fds s !! fd); [done|]. by injection E as <-.
  - left. destruct (tb_fds s !! fd) as [[]|]; try done. by injection E as <-.
Qed.

(** A thread that is to read. *)
Definition pending (s : bridge) (t : nat) : Prop :=
  exists x, tb_threads s !! t = Some x /\ is_read x = true /\ th_result x = None.
Definition decoded (s : bridge) : list text := decode_ignore <$> shell_output s.

(** Where the output is, as long as its task is not cancelled. *)
Definition live (f : reader) (s : bridge) : Prop :=
  match rd_phase f with
  | TStart => (forall t, ~ pending s t) /\ outputs s = [] /\ shell_output s = []
  | TReading fd t =>
      tb_master s = Some fd /\ (forall t', pending s t' -> t' = t) /\
      exists r, tb_threads s !! t = Some (mkThread (SRead fd) r) /\
        decoded s = outputs s ++ match r with Some (Ok chunk) => [decode_ignore chunk] | _ => [] end
  | TCalling fd => is_Some fd /\ tb_master s = fd /\ (forall t, ~ pending s t) /\ decoded s = outputs s
  | TOver _ => True
  | TWaiting _ => False
  end.
Definition delivery (s : bridge) : Prop :=
  outputs s `prefix_of` decoded s /\
  match tb_tasks s with
  | [] => (forall t, ~ pending s t) /\ outputs s = [] /\ shell_output s = []
  | [f; w] => rd_kind f = Forward /\ rd_kind w = Watch /\ (forall fd, rd_phase w <> TCalling (Some fd)) /\
              (rd_cancel f = false -> live f s)
  | _ => False
  end.

(** The threads, the output and the handle that [live] looks at. *)
Lemma live_ext f f' s s' :
  rd_phase f' = rd_phase f -> outputs s' = outputs s -> shell_output s' = shell_output s ->
  (forall t, pending s' t -> pending s t) ->
  (forall t x, tb_threads s !! t = Some x -> is_read x = true -> tb_threads s' !! t = Some x) ->
  tb_master s' = tb_master s -> live f s -> live f' s'.
Proof.
  intros P O S N T M. unfold live, decoded. rewrite P, O, S, M. destruct (rd_phase f) as [|fd t| |fd|]; try done.
  - intros (A & B). split; [|done]. intros t Ht. by eapply A, N.
  - intros (A & B & r & C & D). split; [done|]. split; [auto|]. exists r. split; [|done]. by apply T.
  - intros (A & B & C & D). split; [done|]. split; [done|]. split; [|done]. intros t Ht. by eapply C, N.
Qed.

Lemma pending_deaf s s' t : deaf s s' -> pending s' t -> pending s t.
Proof.
  intros [_ _ (l & E & F) _] (x & X & R & O). rewrite E in X. exists x. split; [|done]. apply lookup_app_Some in X as [X|[_ X]]; [done|].
  apply list_elem_of_lookup_2 in X. rewrite Forall_forall in F. by rewrite (F x X) in R.
Qed.
Lemma threads_deaf s s' t x : deaf s s' -> tb_threads s !! t = Some x -> tb_threads s' !! t = Some x.
Proof. intros [_ _ (l & -> & F) _]. apply lookup_app_l_Some. Qed.

Lemma delivery_deaf s s' :
  delivery s -> deaf s s' ->
  tb_master s' = tb_master s \/ tb_tasks s' = [] \/
    (forall i r, tb_tasks s' !! i = Some r -> phase_over (rd_phase r) = false -> rd_cancel r = true) ->
  delivery s'.
Proof.
  intros [Pre D] Df M.
  assert (O : outputs s' = outputs s) by (unfold outputs; by rewrite (df_events _ _ Df)).
  assert (S : shell_output s' = shell_output s) by (unfold shell_output; by rewrite (df_reads _ _ Df)).
  unfold delivery, decoded in *. rewrite O, S. split; [done|]. pose proof (df_tasks _ _ Df) as T.
  destruct (tb_tasks s) as [|f [|w [|]]]; try done.
  - apply Forall2_nil_inv_l in T as ->. destruct D as (D & ?). split; [|done]. intros t Ht. by eapply D, pending_deaf.
  - apply Forall2_cons_inv_l in T as (f' & l' & (F1 & F2 & F3) & T & E).
    apply Forall2_cons_inv_l in T as (w' & l'' & (W1 & W2 & W3) & T & ->).
    apply Forall2_nil_inv_l in T as ->. rewrite E in *. destruct D as (D1 & D2 & D3 & D4).
    rewrite F1, W1, W2. split; [done|]. split; [done|]. split; [done|]. intros N.
    assert (N0 : rd_cancel f = false) by (destruct (rd_cancel f); [by rewrite F3 in N|done]).
    destruct M as [M|[M|M]]; [|done|].
    + eapply live_ext; [done|done|done| | |done|by apply D4]; intros t; [by apply pending_deaf|].
      intros x X _. by eapply threads_deaf.
    + specialize (M 0 f' eq_refl). unfold live. destruct (phase_over (rd_phase f')) eqn:Po.
      * by destruct (rd_phase f').
      * by rewrite M in N.
Qed.

Lemma delivery_execed c d s :
  unstarted s -> delivery s -> delivery (execed c true d s).
Proof.
  intros (_ & _ & T & _) [Pre D]. rewrite T in D. destruct D as (D1 & D2 & D3).
  assert (E : tb_threads (execed c true d s) = tb_threads s /\ outputs (execed c true d s) = outputs s /\
    shell_output (execed c true d s) = shell_output s /\
    tb_tasks (execed c true d s) = [mkReader Forward TStart false; mkReader Watch TStart false]).
  { unfold execed, close_pty_slave_fd, close_fd. cbn. destruct (tb_slave s); cbn; by rewrite T. }
  destruct E as (E1 & E2 & E3 & E4). unfold delivery, decoded. rewrite E2, E3, E4. split; [done|].
  split; [done|]. split; [done|]. split; [done|]. intros _. unfold live. cbn [rd_phase]. unfold pending. by rewrite E1, E2, E3.
Qed.

Lemma shell_output_snoc s f chunk rd wr :
  rd = tb_reads s ++ [(f, chunk)] ->
  shell_output (with_io rd wr s) = shell_output s ++ (if decide (f = FMaster) then [chunk] else []).
Proof. intros ->. unfold shell_output. cbn. rewrite omap_app. cbn. by case_decide. Qed.

(** A thread makes its call. *)
Lemma delivery_thread t x r n s s' :
  inv none s -> delivery s -> tb_threads s !! t = Some x -> thread_runs t x r n s = Some s' -> delivery s'.
Proof.
  intros I [Pre D] X E.
  assert (C : exists r' more, tb_threads s' = alter (fun x => mkThread (th_call x) (Some r')) t (tb_threads s) /\
    th_result x = None /\ tb_tasks s' = tb_tasks s /\ outputs s' = outputs s /\ tb_master s' = tb_master s /\
    shell_output s' = shell_output s ++ more /\
    (is_read x = false -> more = []) /\
    (forall fd, th_call x = SRead fd -> tb_fds s !! fd = Some FMaster -> more = match r' with Ok chunk => [chunk] | Err _ => [] end)).
  { unfold thread_runs in E. destruct (th_result x) eqn:Rx; [done|]. unfold is_read.
    destruct (tb_fds s !! _) as [f|] eqn:F.
    - destruct (th_call x) as [fd|fd payload|fd rows cols] eqn:Cx, r as [chunk|e]; try (destruct e; try done);
        try (injection E as <-; eexists _, []; rewrite app_nil_r; repeat (split; [done|]); by intros).
      destruct (length chunk <=? 1024)%nat; [|done]. injection E as <-.
      eexists _, (if decide (f = FMaster) then [chunk] else []). repeat (split; [done|]).
      split; [by apply (shell_output_snoc s f chunk _ (tb_writes s))|]. split; [done|]. intros fd' [= <-] F'.
      rewrite F in F'. injection F' as ->. by rewrite decide_True.
    - injection E as <-. eexists _, []. rewrite app_nil_r. repeat (split; [done|]). intros fd Cx F'. rewrite Cx in F. congruence. }
  destruct C as (r' & more & C1 & C2 & C3 & C4 & C5 & C6 & C7 & C8).
  assert (N : forall t', pending s' t' -> pending s t' /\ t' <> t).
  { intros t' (y & Y & Ry & Oy). rewrite C1 in Y. apply alter_lookup in Y as [[<- (z & Z & ->)]|[Ne Y]]; [done|].
    split; [by exists y|congruence]. }
  assert (Pt : is_read x = true -> pending s t) by (intros Rx; by exists x).
  split. { unfold decoded. rewrite C4, C6, fmap_app. by apply prefix_app_r. }
  rewrite C3. destruct (tb_tasks s) as [|f [|w [|]]] eqn:T; try done.
  - destruct D as (D1 & D2 & D3). split; [intros t' Ht; by apply N in Ht as [Ht _]; eapply D1|].
    rewrite C4, C6, C7, app_nil_r; [done|]. destruct (is_read x) eqn:Rx; [|done]. by destruct (D1 t); apply Pt.
  - destruct D as (D1 & D2 & D3 & D4). split; [done|]. split; [done|]. split; [done|]. intros Nc. specialize (D4 Nc).
    destruct (is_read x) eqn:Rx.
    + unfold live in D4 |- *. destruct (rd_phase f) as [|fd t0| |fd|] eqn:P; try done.
      * destruct D4 as [D4 _]. destruct (D4 t). by apply Pt.
      * destruct D4 as (E1 & E2 & r0 & E3 & E4). pose proof (E2 t (Pt eq_refl)) as ->.
        rewrite X in E3. injection E3 as ->. cbn in C2. subst r0. rewrite app_nil_r in E4.
        rewrite C5. split; [done|]. split; [intros t' Ht; by apply N in Ht as [Ht _]; apply E2|].
        exists (Some r'). rewrite C1, list_lookup_alter_eq, X. split; [done|].
        rewrite (C8 fd) in C6; [|done|by apply (iv_master I)]. unfold decoded in *. rewrite C6, fmap_app, E4, C4.
        by destruct r'.
      * destruct D4 as (_ & _ & D4 & _). destruct (D4 t). by apply Pt.
    + rewrite C7, app_nil_r in C6 by done.
      eapply live_ext; [done|done|done| | |done|done].
      * intros t' Ht. by apply N.
      * intros t' y Y Ry. rewrite C1. rewrite list_lookup_alter_ne; [done|]. intros ->. congruence.
Qed.

Lemma pending_to_thread fd s t :
  pending (to_thread (SRead fd) s) t -> pending s t \/ t = length (tb_threads s).
Proof.
  intros (x & X & R & O). apply lookup_app_Some in X as [X|[L X]]; [left; by exists x|right].
  apply list_lookup_singleton_Some in X as [X _]. lia.
Qed.
Lemma outputs_snoc s i fd e :
  outputs (on_event i fd e s) = outputs s ++ match e with EvOutput d => [d] | EvExit _ => [] end.
Proof. unfold outputs, on_event. cbn. rewrite omap_app. by destruct e. Qed.

(** The task that reads starts its next read. *)
Lemma live_read f s fd :
  rd_cancel f = false -> tb_master s = Some fd -> (forall t, ~ pending s t) -> decoded s = outputs s ->
  live (mkReader Forward (TReading fd (length (tb_threads s))) false) (to_thread (SRead fd) s).
Proof.
  intros _ M N E. unfold live. cbn. split; [done|]. split.
  - intros t [P| ->]%pending_to_thread; [by destruct (N t)|done].
  - exists None. rewrite lookup_app_r, Nat.sub_diag by done. split; [done|]. by rewrite app_nil_r.
Qed.

(** The task that reads goes on. *)
Lemma delivery_forward_runs f w s s' :
  delivery s -> tb_tasks s = [f; w] -> reader_runs 0 f s = Some s' -> delivery s'.
Proof.
  intros [Pre D] T E. rewrite T in D. destruct D as (D1 & D2 & D3 & D4). unfold reader_runs in E.
  assert (O : forall o, delivery (set_task 0 (TOver o) s)).
  { intros o. split; [done|]. cbn. rewrite T. done. }
  destruct (phase_over (rd_phase f)); [done|]. destruct (rd_cancel f) eqn:C; [by injection E as <-|]. specialize (D4 eq_refl).
  rewrite D1 in E. unfold live in D4. destruct (rd_phase f) as [|fd t| | |]; try done.
  - destruct D4 as (A & B & S). destruct (tb_master s) as [fd|] eqn:M; injection E as <-; [|done].
    split; [done|]. cbn [tb_tasks read_chunk to_thread with_threads set_task with_tasks]. rewrite T. cbn.
    rewrite D1, C. split; [done|]. split; [done|]. split; [done|]. intros _.
    apply (live_read f (set_task 0 (TReading fd (length (tb_threads s))) s)); [done|done|done|].
    unfold decoded, outputs, shell_output in *. cbn. by rewrite B, S.
  - destruct D4 as (M & N & r & X & Y). rewrite X in E. cbn in E. destruct r as [res|]; [|done]. cbn in E.
    destruct res as [[|b l]|[]]; cbn in E; injection E as <-; try done.
    assert (No : forall t', ~ pending s t').
    { intros t' Ht. pose proof (N t' Ht) as ->. destruct Ht as (y & Yt & _ & Oy). rewrite X in Yt. by injection Yt as <-. }
    set (d := decode_ignore (b :: l)) in *.
    assert (Os : outputs (on_event 0 (Some fd) (EvOutput d) s) = outputs s ++ [d]) by apply outputs_snoc.
    assert (Ds : decoded (on_event 0 (Some fd) (EvOutput d) s) = decoded s) by done.
    cut (delivery (on_event 0 (Some fd) (EvOutput d) s)); [done|].
    split; [by rewrite Os, Ds, Y|]. cbn [tb_tasks on_event set_task with_tasks with_events]. rewrite T. cbn [alter list_alter].
    split; [done|]. split; [done|]. split; [done|]. intros _. unfold live. cbn [rd_phase].
    split; [by eexists|]. split; [done|]. split; [done|]. by rewrite Os, Ds, Y.
Qed.

(** The task that waits for the shell goes on. *)
Lemma delivery_watch_runs f w s s' :
  delivery s -> tb_tasks s = [f; w] -> reader_runs 1 w s = Some s' -> delivery s'.
Proof.
  intros [Pre D] T E. rewrite T in D. destruct D as (D1 & D2 & D3 & D4). unfold reader_runs in E.
  assert (O : forall p, (forall fd, p <> TCalling (Some fd)) -> delivery (set_task 1 p s)).
  { intros p Np. split; [done|]. cbn. rewrite T. done. }
  assert (V : forall code, delivery (on_event 1 None (EvExit code) s)).
  { intros code. assert (Os : outputs (on_event 1 None (EvExit code) s) = outputs s) by (rewrite outputs_snoc; by rewrite app_nil_r).
    split; [by rewrite Os|]. cbn [tb_tasks on_event set_task with_tasks with_events]. rewrite T. cbn [alter list_alter].
    split; [done|]. split; [done|]. split; [done|]. intros C. specialize (D4 C).
    eapply live_ext; [done|done|done| | |done|exact D4]; done. }
  destruct (phase_over (rd_phase w)); [done|]. destruct (rd_cancel w); [by injection E as <-; apply O|].
  rewrite D2 in E. destruct (rd_phase w) as [| |pid| |]; try done.
  - destruct (tb_process s) as [pid|]; [destruct (returncode pid s)|]; injection E as <-; auto; by apply O.
  - destruct (returncode pid s); [|done]. injection E as <-. auto.
Qed.

Lemma delivery_callback i ok r s s' :
  delivery s -> tb_tasks s !! i = Some r -> callback_over i ok r s = Some s' -> delivery s'.
Proof.
  intros [Pre D] X E. unfold callback_over in E. destruct (rd_cancel r) eqn:C; [done|].
  destruct (tb_tasks s) as [|f [|w [|]]] eqn:T; try done. destruct D as (D1 & D2 & D3 & D4).
  assert (O : forall o, delivery (set_task i (TOver o) s)).
  { intros o. split; [done|]. cbn. rewrite T. destruct i as [|[|]]; cbn; [done|done|]. done. }
  destruct i as [|[|i]]; cbn in X; [|injection X as <-|done].
  - injection X as <-. specialize (D4 C). unfold live in D4. destruct (rd_phase f) as [| | |fd|]; try done.
    destruct ok; [|by injection E as <-]. destruct D4 as ([n ->] & M & N & Y). injection E as <-.
    split; [done|]. cbn [tb_tasks read_chunk to_thread with_threads set_task with_tasks]. rewrite T. cbn.
    rewrite D1, C. split; [done|]. split; [done|]. split; [done|]. intros _.
    by apply (live_read f (set_task 0 (TReading n (length (tb_threads s))) s)).
  - destruct (rd_phase w) as [| | |[n|]|]; try done; [by destruct (D3 n)|]. destruct ok; by injection E as <-.
Qed.

Lemma delivery_reach s : reach s -> delivery s.
Proof.
  induction 1 as [|ev s s' R IH Sn E]; [by split; [exists []|repeat split; intros t (x & X & _)]|].
  pose proof (bridge_reach_inv s R) as I.
  destruct (step_deaf ev s s' E) as [D|[(c & x & d & X & Px & ->)|[(t & x & r & n & X & T)|(i & r & X & T)]]].
  - eapply delivery_deaf; [done|done|]. by eapply step_master.
  - apply list_elem_of_lookup_2 in X. pose proof (iv_phase I x X) as K. rewrite Px in K. cbn in K.
    apply delivery_execed; [|done]. apply (iv_start I x X K). unfold call_over. by rewrite Px.
  - by eapply delivery_thread.
  - destruct T as [T|[ok T]]; [|by eapply delivery_callback].
    pose proof IH as [_ D]. destruct (tb_tasks s) as [|f [|w [|]]] eqn:Ts; try done.
    destruct i as [|[|i]]; cbn in X; [|injection X as <-|done].
    + injection X as <-. by eapply delivery_forward_runs.
    + by eapply delivery_watch_runs.
Qed.

(** ** UTF-8 *)

Section codec.
Local Open Scope N_scope.
Local Ltac Zify.zify_post_hook ::= Z.to_euclidean_division_equations.
Implicit Types (c : N) (l r : bytes).

Lemma decode_1 b r : b < 0x80 -> decode_ignore (b :: r) = b :: decode_ignore r.
Proof. intros B. cbn. by replace (b <? 0x80) with true by lia. Qed.
Lemma decode_2 b0 b1 r :
  0xC2 <= b0 < 0xE0 -> is_cont b1 = true ->
  decode_ignore (b0 :: b1 :: r) = (b0 - 0xC0) * 0x40 + (b1 - 0x80) :: decode_ignore r.
Proof.
  intros B C. cbn [decode_ignore]. replace (b0 <? 0x80) with false by lia. replace ((0xC2 <=? b0) && (b0 <? 0xE0)) with true by lia.
  by rewrite C.
Qed.
Lemma decode_3 b0 b1 b2 r :
  0xE0 <= b0 < 0xF0 -> is_second b0 b1 = true -> is_cont b2 = true ->
  decode_ignore (b0 :: b1 :: b2 :: r) = (b0 - 0xE0) * 0x1000 + (b1 - 0x80) * 0x40 + (b2 - 0x80) :: decode_ignore r.
Proof.
  intros B C D. cbn [decode_ignore]. replace (b0 <? 0x80) with false by lia.
  replace ((0xC2 <=? b0) && (b0 <? 0xE0)) with false by lia. replace ((0xE0 <=? b0) && (b0 <? 0xF0)) with true by lia.
  by rewrite C, D.
Qed.
Lemma decode_4 b0 b1 b2 b3 r :
  0xF0 <= b0 < 0xF5 -> is_second b0 b1 = true -> is_cont b2 = true -> is_cont b3 = true ->
  decode_ignore (b0 :: b1 :: b2 :: b3 :: r) =
    (b0 - 0xF0) * 0x40000 + (b1 - 0x80) * 0x1000 + (b2 - 0x80) * 0x40 + (b3 - 0x80) :: decode_ignore r.
Proof.
  intros B C D E. cbn [decode_ignore]. replace (b0 <? 0x80) with false by lia.
  replace ((0xC2 <=? b0) && (b0 <? 0xE0)) with false by lia. replace ((0xE0 <=? b0) && (b0 <? 0xF0)) with false by lia.
  replace ((0xF0 <=? b0) && (b0 <? 0xF5)) with true by lia. by rewrite C, D, E.
Qed.
Lemma cont_rem c : is_cont (0x80 + c mod 0x40) = true.
Proof. unfold is_cont. lia. Qed.

Lemma decode_point c b r :
  c <= 0x10FFFF -> encode_point c = Some b -> decode_ignore (b ++ r) = c :: decode_ignore r.
Proof.
  intros L. unfold encode_point.
  destruct (N.ltb_spec c 0x80); [intros [= <-]; by apply decode_1|].
  destruct (N.ltb_spec c 0x800).
  { intros [= <-]. cbn [app]. rewrite decode_2; [f_equal; lia|lia|apply cont_rem]. }
  destruct (is_surrogate c) eqn:S; [done|]. unfold is_surrogate in S.
  destruct (N.ltb_spec c 0x10000).
  { intros [= <-]. cbn [app]. rewrite decode_3; [f_equal; lia|lia| |apply cont_rem].
    unfold is_second. rewrite cont_rem. cbn [andb].
    destruct (N.eqb_spec (0xE0 + c / 0x1000) 0xE0); [lia|]. destruct (N.eqb_spec (0xE0 + c / 0x1000) 0xED); [lia|].
    replace (0xE0 + c / 0x1000 =? 0xF0) with false by lia. by replace (0xE0 + c / 0x1000 =? 0xF4) with false by lia. }
  intros [= <-]. cbn [app]. rewrite decode_4; [f_equal; lia|lia| |apply cont_rem..].
  unfold is_second. rewrite cont_rem. cbn [andb].
  replace (0xF0 + c / 0x40000 =? 0xE0) with false by lia. replace (0xF0 + c / 0x40000 =? 0xED) with false by lia.
  destruct (N.eqb_spec (0xF0 + c / 0x40000) 0xF0); [lia|]. destruct (N.eqb_spec (0xF0 + c / 0x40000) 0xF4); lia.
Qed.

(** Bytes that encode a text decode to it. *)
Lemma decode_encode (t : text) l : Forall (fun c => c <= 0x10FFFF) t -> encode t = Some l -> decode_ignore l = t.
Proof.
  induction t as [|c t IH] in l |- *; cbn; intros F E; [by injection E as <-|].
  apply bind_Some in E as (b & B & E). apply bind_Some in E as (l' & E & [= <-]).
  inversion_clear F. rewrite (decode_point c b l') by done. by rewrite (IH l').
Qed.
End codec.

(** The chunk is the encoding of the text. *)
Definition whole (t : text) (chunk : bytes) : Prop := Forall (fun c => (c <= 0x10FFFF)%N) t /\ encode t = Some chunk.

(** C20: The output arrives in order. The session service is given, read by read and without
    gaps, what the chunks read from the terminal decode to, up to what has not been handed
    over yet; in particular, when every chunk holds whole characters, the texts these encode. *)
Theorem shell_output_arrives s :
  reach s ->
  outputs s `prefix_of` (decode_ignore <$> shell_output s) /\
  forall texts, Forall2 whole texts (shell_output s) -> outputs s `prefix_of` texts.
Proof.
  intros R. destruct (delivery_reach s R) as [P _]. split; [exact P|]. intros texts F.
  assert (decoded s = texts) as <-; [|exact P]. unfold decoded.
  induction F as [|t c ts cs [B E] F IH]; [done|]. cbn. by rewrite IH, (decode_encode t c).
Qed.

(** ** Concrete runs *)

Definition sensible_b (ev : event) (s : bridge) : bool :=
  match ev with Start => bool_decide (tb_calls s = []) | _ => true end.
Fixpoint run_sensible (evs : list event) (s : bridge) : option bridge :=
  match evs with
  | [] => Some s
  | ev :: evs => if sensible_b ev s then s ← step ev s; run_sensible evs s else None
  end.
Lemma sensible_b_ok ev s : sensible_b ev s = true -> sensible ev s.
Proof. destruct ev; cbn; try done. by apply bool_decide_eq_true_1. Qed.
Lemma run_sensible_reach evs s s' : reach s -> run_sensible evs s = Some s' -> reach s'.
Proof.
  induction evs as [|ev evs IH] in s |- *; cbn; intros R E; [by injection E as <-|].
  destruct (sensible_b ev s) eqn:S; [|done]. apply bind_Some in E as (s1 & E1 & E). eapply IH; [|exact E].
  eapply reach_step; [done|by apply sensible_b_ok|done].
Qed.

Definition docker_works : docker_calls := mkDocker DockerOk DockerOk DockerOk DockerOk.
(** A bridge that started on the descriptors 5 and 6 and read [chunks]. *)
Definition started : list event :=
  [Start; ContainerAppears; ContainerRan 0 true (Some (5, 6)%nat); Execed 0 true docker_works; ReaderRuns 0; ReaderRuns 1].
Definition reads_from (t : nat) (chunks : list bytes) : list event :=
  flat_map (fun p => [ThreadRuns (t + p.1) (Ok p.2) 0; ReaderRuns 0; CallbackOver 0 true])%nat
    (zip (seq 0 (length chunks)) chunks).
Definition after_run (evs : list event) : bridge := default init_bridge (run_sensible evs init_bridge).
Lemma after_run_reach evs : reach (after_run evs).
Proof.
  unfold after_run. destruct (run_sensible evs init_bridge) eqn:E; [|apply reach_init].
  cbn. eapply run_sensible_reach; [apply reach_init|exact E].
Qed.

Definition closing_bridge : bridge := after_run (started ++ reads_from 0 [[104; 105]%N]).
(** The shell exits, the close goes on to its end while a thread still reads. *)
Definition close_goes_on : list event := [Exits 0 (-9); WaitOver 1 docker_works; ReaderRuns 0; ReaderRuns 1; Gathered 1 docker_works].
Definition closed_bridge : bridge := default init_bridge (run close_goes_on (close docker_works closing_bridge)).
Lemma closed_bridge_is_gone_witness :
  closed 1 closed_bridge /\ gone closed_bridge /\ length (tb_procs closed_bridge) = 1%nat /\
  tb_fds closing_bridge !! 5%nat = Some FMaster.
Proof.
  split; [vm_compute; reflexivity|]. split; [|split; vm_compute; reflexivity].
  apply (closed_bridge_is_gone closing_bridge docker_works close_goes_on closed_bridge (after_run_reach _)).
  - intros x X K. apply list_elem_of_In in X. vm_compute in X. destruct X as [<-|[]]. reflexivity.
  - vm_compute. reflexivity.
  - unfold close_goes_on. set_solver.
  - vm_compute. reflexivity.
Defined.

(** "hé" and "€" in two reads. *)
Definition euro_run : list event := started ++ reads_from 0 [[104; 0xC3; 0xA9]; [0xE2; 0x82; 0xAC]]%N.
Lemma shell_output_arrives_witness :
  outputs (after_run euro_run) `prefix_of` [[104; 0xE9]; [0x20AC]]%N /\ length (outputs (after_run euro_run)) = 2%nat.
Proof.
  split; [|vm_compute; reflexivity]. apply (shell_output_arrives _ (after_run_reach euro_run)).
  replace (shell_output (after_run euro_run)) with [[104; 0xC3; 0xA9]; [0xE2; 0x82; 0xAC]]%N by (vm_compute; reflexivity).
  repeat constructor; by vm_compute.
Defined.

(** The same bytes in chunks that split a character: it is lost. *)
Example split_character_is_lost :
  let s := after_run (started ++ reads_from 0 [[104; 0xC3]; [0xA9]]%N) in
  outputs s = [[104]; []]%N /\ decode_ignore (concat (shell_output s)) = [104; 0xE9]%N.
Proof. split; vm_compute; reflexivity. Qed.

(** The thread of [send_input] writes to the number of a descriptor that was closed in the
    meantime: what the user typed ends up in another file of the program. *)
Example input_to_another_file :
  tb_writes (after_run (started ++ [SendInput [104]%N; Close docker_works; WaitOver 2 docker_works; OpenOther 5 7;
                                    ThreadRuns 1 (Ok []) 1])) = [(FOther 7, [104]%N)].
Proof. vm_compute. reflexivity. Qed.

(** A bridge that is closed while it starts: [close] returns, and then the container and
    the shell come to life, with nobody left to stop them. *)
Example closed_while_starting :
  let s := default init_bridge (run [Start; Close (mkDocker DockerError DockerOk DockerOk DockerError); ContainerAppears;
                                     ContainerRan 0 true (Some (5, 6)%nat); Execed 0 true docker_works] init_bridge) in
  closed 1 s /\ tb_process s = Some 0%nat /\ tb_procs s = [mkProcess None false] /\ tb_container s = true.
Proof. vm_compute. done. Qed.
