(* ===== verification/SafePath.v ===== *)
(** * Paths and the files of the data directory

    [infra/exec/security.py] and the path segments the file-backed services accept.
    A path is the list of its segments; [resolve] stands for [Path.resolve], which
    follows the symbolic links of the file system. Files hold text. *)

From stdpp Require Import base gmap list option strings.
From Stdlib Require Import ZArith NArith Lia Ascii.
From S2P Require Import Prelude PyStr.

Abbreviation path := (list string).
Abbreviation files := (gmap path string).

(** [path.stat().st_size] of a text file. *)
Definition st_size (content : string) : Z := utf8_len content.

(** ** Safe segments: [[A-Za-z0-9][A-Za-z0-9._-]*], matched in full *)

Definition alnum (c : ascii) : bool :=
  let n := code c in
  ((65 <=? n) && (n <=? 90) || (97 <=? n) && (n <=? 122) || (48 <=? n) && (n <=? 57))%N.
Definition segment_char (c : ascii) : bool :=
  alnum c || bool_decide (c = "."%char) || bool_decide (c = "_"%char) || bool_decide (c = "-"%char).
Definition safe_segment (s : string) : bool :=
  match str_chars s with
  | [] => false
  | c :: l => alnum c && forallb segment_char l
  end.

(** [_validate_segment], the same in each service; [None] is the [ValueError]. *)
Definition validate_segment (value : string) : option string :=
  let normalized := strip value in if safe_segment normalized then Some normalized else None.

(** ** Containment *)

Fixpoint path_prefix (root p : path) : bool :=
  match root, p with
  | [], _ => true
  | a :: root, b :: p => bool_decide (a = b) && path_prefix root p
  | _ :: _, [] => false
  end.

Section paths.
Variable resolve : path -> path.

(** [validate_path]: resolved, the path is below one of the resolved roots. *)
Definition validate_path (p : path) (allowed_roots : list path) : bool :=
  existsb (fun root => path_prefix (resolve root) (resolve p)) allowed_roots.
End paths.

(** ** Lemmas *)

Lemma path_prefix_app root p : path_prefix root (root ++ p) = true.
Proof. induction root as [|a root IH]; [done|]. simpl. by rewrite bool_decide_eq_true_2. Qed.

Lemma path_prefix_spec root p : path_prefix root p = true <-> exists q, p = root ++ q.
Proof.
  split; [|intros [q ->]; apply path_prefix_app]. revert p. induction root as [|a root IH]; intros p; [by exists p|].
  destruct p as [|b p]; [done|]. simpl. rewrite andb_true_iff, bool_decide_eq_true. intros [<- H].
  destruct (IH p H) as [q ->]. by exists q.
Qed.

(** A path below itself, when the file system has no link there. *)
Lemma validate_path_below resolve root p :
  resolve root = root -> resolve (root ++ p) = root ++ p ->
  validate_path resolve (root ++ p) [root] = true.
Proof. intros H1 H2. unfold validate_path. simpl. by rewrite H1, H2, path_prefix_app. Qed.

(** A safe segment names a child: it is not empty, not a dot name and has no slash. *)
Lemma safe_segment_child s :
  safe_segment s = true -> s <> "" /\ s <> "." /\ s <> ".." /\ "/"%char ∉ str_chars s.
Proof.
  unfold safe_segment. destruct (str_chars s) as [|c l] eqn:E; [done|].
  intros [H1 H2]%andb_true_iff. split; [by intros ->|]. split; [|split].
  - intros ->. injection E as <- _. discriminate H1.
  - intros ->. injection E as <- _. discriminate H1.
  - rewrite elem_of_cons. intros [<-|H]; [discriminate H1|]. rewrite forallb_forall in H2.
    apply list_elem_of_In, H2 in H. discriminate H.
Qed.

Lemma validate_segment_safe v s : validate_segment v = Some s -> s = strip v /\ safe_segment s = true.
Proof. unfold validate_segment. destruct (safe_segment (strip v)) eqn:E; [|done]. by intros [= <-]. Qed.
