(* ===== verification/Settings.v ===== *)
(** * Settings ([services/settings.py])

    Configurations kept in JSON files: of a user (provider, channels) and of the
    system (registration, execution). The service reads and writes whole files; the
    read and the write of an update are the steps of a worker thread. The
    appearance, whose defaults are beyond U+00FF, is left out. A file is its text on the
    disk: the line ends that reading translates are white space between the tokens of
    JSON, and an error within a string. Files that are not UTF-8 and documents nested
    beyond the recursion limit are not distinguished. *)

From stdpp Require Import base gmap list option strings.
From Stdlib Require Import ZArith NArith Lia Ascii.
From S2P Require Import Prelude PyStr PyInt PyTime PySort PyDict PyJson SafePath.

Definition dict := list (string * json).

(** A [ValueError]; [OverflowError] of an offset; an outcome outside the model. *)
Inductive settings_error := SettingsValueError (msg : string) | SettingsOverflowError | SettingsNotModelled.

Record ProviderConfig := mkProvider {
  pc_enabled : bool;
  pc_base_url : string;
  pc_default_model : string;
  pc_has_api_key : bool;
  pc_updated_at : option Z
}.

Record ChannelsConfig := mkChannels {
  cc_feishu_enabled : bool;
  cc_feishu_app_id : string;
  cc_feishu_has_app_secret : bool;
  cc_feishu_has_encrypt_key : bool;
  cc_feishu_has_verification_token : bool;
  cc_telegram_enabled : bool;
  cc_telegram_has_bot_token : bool;
  cc_updated_at : option Z
}.

Record RegistrationPolicyConfig := mkRegistration {
  rp_allow_registration : bool;
  rp_require_invite_code : bool;
  rp_updated_at : option Z
}.

Record SystemSettingsConfig := mkSystem {
  sc_default_execution_mode : string;
  sc_allow_host_execution : bool;
  sc_updated_at : option Z
}.

Definition invalid_file : settings_error := SettingsValueError "invalid settings file".

(** ** Fields of a payload *)

(** [payload.get(key)]. *)
Definition field (k : string) (d : dict) : json := default JNull (od_get k d).

(** [_as_bool], [_as_string]. *)
Definition as_bool (v : json) (d : bool) : result settings_error bool :=
  match v with JNull => Ok d | JBool b => Ok b | _ => raise invalid_file end.
Definition as_string (v : json) : result settings_error string :=
  match v with JNull => Ok "" | JStr s => Ok s | _ => raise invalid_file end.

(** [_normalize_execution_mode]. *)
Definition normalize_execution_mode (v : json) : result settings_error string :=
  match v with
  | JStr s => let n := lower (strip s) in
              if bool_decide (n ∈ ["openai"; "host"; "container"]) then Ok n
              else raise (SettingsValueError "invalid execution mode")
  | _ => raise (SettingsValueError "invalid execution mode")
  end.

Section settings.
Variable other_iso : string -> option datetime.
Variable float_repr : string -> string.
Variable resolve : path -> path.
(** [self._settings_root], [self._max_file_size_bytes]. *)
Variable settings_root : path.
Variable max_file_size_bytes : Z.

Definition users_root : path := resolve (settings_root ++ ["users"]).
Definition global_root : path := resolve (settings_root ++ ["global"]).

(** [_parse_datetime]. *)
Definition parse_datetime (v : json) : result settings_error (option Z) :=
  match v with
  | JNull => Ok None
  | JStr s =>
      match fromisoformat other_iso s with
      | None => raise invalid_file
      | Some (Naive w) => Ok (Some w)
      | Some (Aware i) =>
          if ((datetime_min <=? i) && (i <=? datetime_max))%Z then Ok (Some i)
          else raise SettingsOverflowError
      end
  | _ => raise invalid_file
  end.

(** [_ensure_safe_path]. *)
Definition ensure_safe_path (p root : path) : result settings_error unit :=
  if validate_path resolve (resolve p) [root] then Ok tt
  else raise (SettingsValueError "symlink traversal detected").

(** [_user_root]. *)
Definition user_root (user_id : string) : result settings_error path :=
  match validate_segment user_id with
  | None => raise (SettingsValueError "invalid user id")
  | Some u =>
      let r := users_root ++ [u] in
      if validate_path resolve (resolve r) [users_root] then Ok r
      else raise (SettingsValueError "symlink traversal detected")
  end.

(** [merged = dict(default); merged.update(payload)]. *)
Definition dict_update (d payload : dict) : dict := foldl (fun d e => od_set e.1 e.2 d) d payload.

(** [_read_json]. *)
Definition read_json (p : path) (default_payload : dict) (root : path) (fs : files) :
    result settings_error dict :=
  _ ← ensure_safe_path p root;
  match fs !! p with
  | None => Ok default_payload
  | Some content =>
      if (max_file_size_bytes <? st_size content)%Z
      then raise (SettingsValueError "settings file exceeds size limit")
      else match json_loads content with
           | Ok (JObj payload) => Ok (dict_update default_payload payload)
           | Err JOutOfRange => raise SettingsNotModelled
           | Err JValueError => raise (SettingsValueError "int string conversion")
           | _ => raise invalid_file
           end
  end.

Definition LF : string := of_chars [ascii_of_N 10].

(** [_write_json]. *)
Definition write_json (p : path) (payload : dict) (root : path) (fs : files) :
    result settings_error files :=
  _ ← ensure_safe_path p root;
  let encoded := json_dumps_sorted float_repr (JObj payload) in
  if (max_file_size_bytes <? utf8_len encoded)%Z
  then raise (SettingsValueError "settings file exceeds size limit")
  else Ok (<[p := encoded +:+ LF]> fs).

(** ** Provider *)

Definition provider_default : dict :=
  [("enabled", JBool false); ("base_url", JStr ""); ("default_model", JStr ""); ("api_key", JStr "");
   ("updated_at", JNull)].

(** [_provider_from_payload]. *)
Definition provider_from_payload (d : dict) : result settings_error ProviderConfig :=
  api_key ← as_string (field "api_key" d);
  enabled ← as_bool (field "enabled" d) false;
  base_url ← as_string (field "base_url" d);
  default_model ← as_string (field "default_model" d);
  updated_at ← parse_datetime (field "updated_at" d);
  Ok (mkProvider enabled base_url default_model (negb (bool_decide (strip api_key = ""))) updated_at).

Definition provider_path (root : path) : path := root ++ ["provider.json"].

(** [_get_provider_config]. *)
Definition get_provider_config (user_id : string) (fs : files) : result settings_error ProviderConfig :=
  root ← user_root user_id;
  d ← read_json (provider_path root) provider_default root fs;
  provider_from_payload d.

(** The payload an update writes, from the one it has read. *)
Definition provider_payload (enabled : bool) (base_url default_model : string) (api_key : option string)
    (now : Z) (current : dict) : dict :=
  let kept := match default (JStr "") (od_get "api_key" current) with JStr s => s | _ => "" end in
  [("enabled", JBool enabled); ("base_url", JStr (strip base_url)); ("default_model", JStr (strip default_model));
   ("api_key", JStr (match api_key with Some k => strip k | None => kept end));
   ("updated_at", JStr (isoformat now))].

(** [_update_provider_config]. *)
Definition update_provider_config (user_id : string) (enabled : bool) (base_url default_model : string)
    (api_key : option string) (now : Z) (fs : files) : result settings_error (ProviderConfig * files) :=
  root ← user_root user_id;
  current ← read_json (provider_path root) provider_default root fs;
  let payload := provider_payload enabled base_url default_model api_key now current in
  fs' ← write_json (provider_path root) payload root fs;
  c ← provider_from_payload payload;
  Ok (c, fs').

(** ** Channels *)

Definition channels_default : dict :=
  [("feishu_enabled", JBool false); ("feishu_app_id", JStr ""); ("feishu_app_secret", JStr "");
   ("feishu_encrypt_key", JStr ""); ("feishu_verification_token", JStr ""); ("telegram_enabled", JBool false);
   ("telegram_bot_token", JStr ""); ("updated_at", JNull)].

(** [_channels_from_payload]. *)
Definition channels_from_payload (d : dict) : result settings_error ChannelsConfig :=
  secret ← as_string (field "feishu_app_secret" d);
  encrypt ← as_string (field "feishu_encrypt_key" d);
  verification ← as_string (field "feishu_verification_token" d);
  token ← as_string (field "telegram_bot_token" d);
  feishu_enabled ← as_bool (field "feishu_enabled" d) false;
  app_id ← as_string (field "feishu_app_id" d);
  telegram_enabled ← as_bool (field "telegram_enabled" d) false;
  updated_at ← parse_datetime (field "updated_at" d);
  Ok (mkChannels feishu_enabled app_id (negb (bool_decide (secret = ""))) (negb (bool_decide (encrypt = "")))
        (negb (bool_decide (verification = ""))) telegram_enabled (negb (bool_decide (token = ""))) updated_at).

Definition channels_path (root : path) : path := root ++ ["channels.json"].

(** [_get_channels_config]. *)
Definition get_channels_config (user_id : string) (fs : files) : result settings_error ChannelsConfig :=
  root ← user_root user_id;
  d ← read_json (channels_path root) channels_default root fs;
  channels_from_payload d.

(** [_update_channels_config]. *)
Definition update_channels_config (user_id : string) (feishu_enabled : bool)
    (app_id app_secret encrypt_key verification_token : string) (telegram_enabled : bool)
    (bot_token : string) (now : Z) (fs : files) : result settings_error (ChannelsConfig * files) :=
  root ← user_root user_id;
  let payload :=
    [("feishu_enabled", JBool feishu_enabled); ("feishu_app_id", JStr (strip app_id));
     ("feishu_app_secret", JStr (strip app_secret)); ("feishu_encrypt_key", JStr (strip encrypt_key));
     ("feishu_verification_token", JStr (strip verification_token));
     ("telegram_enabled", JBool telegram_enabled); ("telegram_bot_token", JStr (strip bot_token));
     ("updated_at", JStr (isoformat now))] in
  fs' ← write_json (channels_path root) payload root fs;
  c ← channels_from_payload payload;
  Ok (c, fs').

(** ** Registration *)

Definition registration_default : dict :=
  [("allow_registration", JBool true); ("require_invite_code", JBool false); ("updated_at", JNull)].
Definition registration_path : path := global_root ++ ["registration.json"].

(** [_get_registration_policy]. *)
Definition get_registration_policy (fs : files) : result settings_error RegistrationPolicyConfig :=
  d ← read_json registration_path registration_default global_root fs;
  allow ← as_bool (field "allow_registration" d) true;
  require ← as_bool (field "require_invite_code" d) false;
  updated_at ← parse_datetime (field "updated_at" d);
  Ok (mkRegistration allow require updated_at).

(** [_update_registration_policy]. *)
Definition update_registration_policy (allow require : bool) (now : Z) (fs : files) :
    result settings_error (RegistrationPolicyConfig * files) :=
  let payload := [("allow_registration", JBool allow); ("require_invite_code", JBool require);
                  ("updated_at", JStr (isoformat now))] in
  fs' ← write_json registration_path payload global_root fs;
  updated_at ← parse_datetime (field "updated_at" payload);
  Ok (mkRegistration allow require updated_at, fs').

(** ** System *)

Definition system_default : dict :=
  [("default_execution_mode", JStr "openai"); ("allow_host_execution", JBool false); ("updated_at", JNull)].
Definition system_path : path := global_root ++ ["system.json"].

(** [_get_system_settings]. *)
Definition get_system_settings (fs : files) : result settings_error SystemSettingsConfig :=
  d ← read_json system_path system_default global_root fs;
  mode ← normalize_execution_mode (field "default_execution_mode" d);
  allow ← as_bool (field "allow_host_execution" d) false;
  updated_at ← parse_datetime (field "updated_at" d);
  Ok (mkSystem mode allow updated_at).

(** [_update_system_settings]. *)
Definition update_system_settings (default_execution_mode : string) (allow_host_execution : bool) (now : Z)
    (fs : files) : result settings_error (SystemSettingsConfig * files) :=
  mode ← normalize_execution_mode (JStr default_execution_mode);
  let payload := [("default_execution_mode", JStr mode); ("allow_host_execution", JBool allow_host_execution);
                  ("updated_at", JStr (isoformat now))] in
  fs' ← write_json system_path payload global_root fs;
  updated_at ← parse_datetime (field "updated_at" payload);
  Ok (mkSystem mode allow_host_execution updated_at, fs').
End settings.
