(* ===== verification/SettingsStore.v ===== *)
(** * The settings as a store

    What the settings service promises: each configuration is a value of its own,
    which an update replaces. The directory of JSON files implements it. *)


From stdpp Require Import base gmap list option strings.
From Stdlib Require Import ZArith NArith Lia Ascii.
From S2P Require Import Prelude PyStr PyInt PyTime PySort PyDict PyJson PyJsonProps SafePath Settings.

(** * Properties of the settings *)


(** A dictionary the services write: distinct keys, strings, booleans, nulls. *)
Definition flat (d : dict) : bool :=
  bool_decide (NoDup d.*1) &&
  forallb (fun e => match e.2 with JStr _ | JBool _ | JNull => true | _ => false end) d.

Lemma flat_wf d : flat d = true -> od_wf d /\ Forall (fun e => scalar e.2 = true) d /\ json_wf (JObj d).
Proof.
  unfold flat. intros [H1%bool_decide_eq_true H2]%andb_true_iff. split; [done|]. rewrite forallb_forall in H2.
  split.
  - apply Forall_forall. intros e He%list_elem_of_In%H2. by destruct e.2.
  - split; [done|]. rewrite (fold_and_Forall (fun e : string * json => json_wf e.2)).
    apply Forall_forall. intros e He%list_elem_of_In%H2. by destruct e.2.
Qed.

Lemma dict_update_get d payload k :
  od_get k (dict_update d payload) =
  match od_get k (rev payload) with Some v => Some v | None => od_get k d end.
Proof.
  unfold dict_update. revert d. induction payload as [|[a v] payload IH]; intros d; [done|].
  cbn [foldl rev fst snd]. rewrite IH, od_get_set.
  assert (A : forall l, od_get k (l ++ [(a, v)]) =
    match od_get k l with Some x => Some x | None => if decide (a = k) then Some v else None end).
  { induction l as [|[b x] l IHl]; [done|]. cbn. by destruct (decide (b = k)). }
  rewrite A. destruct (od_get k (rev payload)); [done|]. by destruct (decide (a = k)).
Qed.

Lemma od_get_rev (d : dict) k : od_wf d -> od_get k (rev d) = od_get k d.
Proof.
  intros W. assert (P : rev d ≡ₚ d) by (symmetry; apply Permutation_rev).
  assert (W' : od_wf (rev d)) by (unfold od_wf, od_keys in *; by rewrite P).
  apply option_eq. intros v. split; intros H%od_get_Some_elem; (apply od_elem_get; [done|]).
  - by rewrite P in H.
  - by rewrite P.
Qed.

Section settings.
Variable other_iso : string -> option datetime.
Variable float_repr : string -> string.
Variable resolve : path -> path.
Variable settings_root : path.
Variable max_file_size_bytes : Z.

Local Abbreviation read_json := (read_json resolve max_file_size_bytes).
Local Abbreviation write_json := (write_json float_repr resolve max_file_size_bytes).
Local Abbreviation user_root := (user_root resolve settings_root).
Local Abbreviation get_provider := (get_provider_config other_iso resolve settings_root max_file_size_bytes).
Local Abbreviation update_provider := (update_provider_config other_iso float_repr resolve settings_root max_file_size_bytes).
Local Abbreviation get_channels := (get_channels_config other_iso resolve settings_root max_file_size_bytes).
Local Abbreviation update_channels := (update_channels_config other_iso float_repr resolve settings_root max_file_size_bytes).
Local Abbreviation get_registration := (get_registration_policy other_iso resolve settings_root max_file_size_bytes).
Local Abbreviation update_registration := (update_registration_policy other_iso float_repr resolve settings_root max_file_size_bytes).
Local Abbreviation get_system := (get_system_settings other_iso resolve settings_root max_file_size_bytes).
Local Abbreviation update_system := (update_system_settings other_iso float_repr resolve settings_root max_file_size_bytes).

(** No file of the directory is beyond the limit. *)
Definition within_limit (fs : files) : Prop :=
  forall p content, fs !! p = Some content -> (st_size content <= max_file_size_bytes)%Z.

Lemma write_effect p d root fs fs' :
  write_json p d root fs = Ok fs' ->
  ensure_safe_path resolve p root = Ok tt /\ fs' = <[p := json_dumps_sorted float_repr (JObj d) +:+ LF]> fs.
Proof.
  unfold Settings.write_json. destruct (ensure_safe_path resolve p root) as [[]|]; [|done].
  cbn [mbind result_bind]. destruct (_ <? _)%Z; [done|]. by intros [= <-].
Qed.

Lemma read_json_file p d0 root fs content :
  ensure_safe_path resolve p root = Ok tt -> fs !! p = Some content ->
  read_json p d0 root fs =
    if (max_file_size_bytes <? st_size content)%Z
    then raise (SettingsValueError "settings file exceeds size limit")
    else match json_loads content with
         | Ok (JObj payload) => Ok (dict_update d0 payload)
         | Err JOutOfRange => raise SettingsNotModelled
         | Err JValueError => raise (SettingsValueError "int string conversion")
         | _ => raise invalid_file
         end.
Proof. intros S H. unfold Settings.read_json. rewrite S. cbn [mbind result_bind]. by rewrite H. Qed.

(** The file is the encoded text and a line feed. *)
Lemma dumps_loads v :
  json_wf v -> json_loads (json_dumps_sorted float_repr v +:+ LF) = Ok (sort_keys v).
Proof.
  intros W. unfold json_dumps_sorted.
  rewrite <- (print_parse_ws float_repr false (Some 2) (sort_keys v) [ascii_of_N 10]); [|by apply sort_keys_wf|done].
  f_equal. rewrite <- (of_chars_str_chars (_ +:+ LF)). by rewrite str_chars_app, str_chars_of_chars.
Qed.

(** The text of a payload is read back as the payload: the same answers to [get]. *)
Lemma read_text p d d0 root fs :
  flat d = true -> (forall k, od_get k d = None -> od_get k d0 = None) ->
  ensure_safe_path resolve p root = Ok tt ->
  fs !! p = Some (json_dumps_sorted float_repr (JObj d) +:+ LF) -> within_limit fs ->
  exists d', read_json p d0 root fs = Ok d' /\ forall k, od_get k d' = od_get k d.
Proof.
  intros F D0 S Hp L. destruct (flat_wf d F) as (W & Sc & J). pose proof (L p _ Hp) as L'.
  rewrite (read_json_file _ _ _ _ _ S Hp), (proj2 (Z.ltb_ge _ _)) by done.
  rewrite dumps_loads by done. destruct (sort_keys_get d W Sc) as (d' & E' & W' & G). rewrite E'.
  eexists. split; [done|]. intros k. rewrite dict_update_get, od_get_rev by done.
  rewrite G.
  destruct (od_get k d) eqn:H; [done|]. by apply D0.
Qed.

Lemma read_written p d d0 root fs fs' :
  flat d = true -> (forall k, od_get k d = None -> od_get k d0 = None) ->
  write_json p d root fs = Ok fs' -> within_limit fs' ->
  exists d', read_json p d0 root fs' = Ok d' /\ forall k, od_get k d' = od_get k d.
Proof.
  intros F D0 Hw L. apply write_effect in Hw as [S ->].
  apply (read_text p d d0 root _ F D0 S); [|done]. apply lookup_insert_eq.
Qed.

Lemma field_ext k d d' : (forall k, od_get k d' = od_get k d) -> field k d' = field k d.
Proof. intros H. unfold field. by rewrite H. Qed.

Lemma bind_ok {E A B} (r : result E A) (f : A -> result E B) b :
  r ≫= f = Ok b -> exists a, r = Ok a /\ f a = Ok b.
Proof. destruct r as [a|e]; [|done]. by exists a. Qed.

Lemma normalize_idemp m n : normalize_execution_mode (JStr m) = Ok n ->
  normalize_execution_mode (JStr n) = Ok n.
Proof.
  unfold normalize_execution_mode. case_bool_decide as H; [|done]. intros [= <-].
  rewrite !elem_of_cons in H. destruct H as [->|[->|[->|H]]]; [reflexivity..|by apply not_elem_of_nil in H].
Qed.

(** Settings are read back as they were written. When an update of the provider or
    the channels of a user, of the registration policy or of the system settings
    succeeds and its file is within the size limit, reading the configuration
    gives what the update answered. *)
Theorem settings_roundtrip user now fs fs' :
  within_limit fs' ->
  (forall e url model key c, update_provider user e url model key now fs = Ok (c, fs') ->
     get_provider user fs' = Ok c) /\
  (forall fe a s k v te t c, update_channels user fe a s k v te t now fs = Ok (c, fs') ->
     get_channels user fs' = Ok c) /\
  (forall a r c, update_registration a r now fs = Ok (c, fs') -> get_registration fs' = Ok c) /\
  (forall m a c, update_system m a now fs = Ok (c, fs') -> get_system fs' = Ok c).
Proof.
  intros L. split; [|split; [|split]].
  - intros e url model key c H. unfold update_provider_config in H. apply bind_ok in H as (root & U & H).
    apply bind_ok in H as (cur & _ & H). set (d := provider_payload _ _ _ _ _ _) in H.
    apply bind_ok in H as (fs1 & Hw & H). apply bind_ok in H as (c1 & Hc & [= <- <-]).
    destruct (read_written _ d provider_default _ _ _ ltac:(reflexivity) ltac:(by intros k; unfold d, provider_payload, provider_default; simpl; repeat case_decide) Hw L)
      as (d' & R & G).
    unfold get_provider_config. rewrite U. cbn [mbind result_bind]. rewrite R. cbn [mbind result_bind].
    unfold provider_from_payload in *. by rewrite !(field_ext _ d d' G).
  - intros fe a s k v te t c H. unfold update_channels_config in H. apply bind_ok in H as (root & U & H).
    cbv zeta in H. set (d := [_; _; _; _; _; _; _; _]) in H.
    apply bind_ok in H as (fs1 & Hw & H). apply bind_ok in H as (c1 & Hc & [= <- <-]).
    destruct (read_written _ d channels_default _ _ _ ltac:(reflexivity) ltac:(by intros x; unfold d, channels_default; simpl; repeat case_decide) Hw L)
      as (d' & R & G).
    unfold get_channels_config. rewrite U. cbn [mbind result_bind]. rewrite R. cbn [mbind result_bind].
    unfold channels_from_payload in *. by rewrite !(field_ext _ d d' G).
  - intros a r c H. unfold update_registration_policy in H. cbv zeta in H. set (d := [_; _; _]) in H.
    apply bind_ok in H as (fs1 & Hw & H). apply bind_ok in H as (u & Hc & [= <- <-]).
    destruct (read_written _ d registration_default _ _ _ ltac:(reflexivity) ltac:(by intros x; unfold d, registration_default; simpl; repeat case_decide) Hw L)
      as (d' & R & G).
    unfold get_registration_policy. rewrite R. cbn [mbind result_bind]. rewrite !(field_ext _ d d' G).
    by rewrite Hc.
  - intros m a c H. unfold update_system_settings in H. apply bind_ok in H as (mode & Hm & H).
    cbv zeta in H. set (d := [_; _; _]) in H.
    apply bind_ok in H as (fs1 & Hw & H). apply bind_ok in H as (u & Hc & [= <- <-]).
    destruct (read_written _ d system_default _ _ _ ltac:(reflexivity) ltac:(by intros x; unfold d, system_default; simpl; repeat case_decide) Hw L)
      as (d' & R & G).
    unfold get_system_settings. rewrite R. cbn [mbind result_bind]. rewrite !(field_ext _ d d' G).
    change (field "default_execution_mode" d) with (JStr mode). rewrite (normalize_idemp _ _ Hm).
    cbn [mbind result_bind]. by rewrite Hc.
Qed.
End settings.

(** ** Concrete directories *)

Definition sx_root : path := ["data"; "settings"].
Definition sx_update_provider (max : Z) :=
  update_provider_config (fun _ => None) (fun s => s) (fun p => p) sx_root max "alice".
Definition sx_provider_file : path := provider_path (users_root (fun p => p) sx_root ++ ["alice"]).

Lemma settings_roundtrip_witness :
  get_registration_policy (fun _ => None) (fun p => p) sx_root 1000
    {[registration_path (fun p => p) sx_root := json_dumps_sorted (fun s => s)
       (JObj [("allow_registration", JBool false); ("require_invite_code", JBool true);
              ("updated_at", JStr "1970-01-01T00:00:01.500000+00:00")]) +:+ LF]} =
  Ok (mkRegistration false true (Some 1500000%Z)).
Proof.
  set (fs' := {[_ := _]}).
  assert (L : within_limit 1000 fs').
  { intros p c H. apply lookup_singleton_Some in H as [<- <-]. apply Z.leb_le. reflexivity. }
  destruct (settings_roundtrip (fun _ => None) (fun s => s) (fun p => p) sx_root 1000 "alice" 1500000 ∅ fs' L)
    as (_ & _ & R & _).
  apply (R false true). clear. subst fs'. unfold update_registration_policy, write_json.
  set (enc := json_dumps_sorted _ _).
  replace (1000 <? utf8_len enc)%Z with false by (vm_compute; reflexivity). reflexivity.
Defined.

(** The limit is checked without the line feed that is written: an update of exactly
    the limit succeeds, and from then on every reading of the file raises, the one of
    the next update included. *)
Example full_size_file_is_lost :
  (x ← sx_update_provider 127 true "u" "m" (Some "k") 1000000 ∅;
   Ok (get_provider_config (fun _ => None) (fun p => p) sx_root 127 "alice" x.2,
       sx_update_provider 127 false "" "" None 2000000 x.2)) =
  Ok (raise (SettingsValueError "settings file exceeds size limit"),
      raise (SettingsValueError "settings file exceeds size limit")).
Proof. vm_compute. reflexivity. Qed.

(** An update reads the file to keep the key it was not given. When another update
    writes a new key between this reading and the writing, the new key is lost. *)
Example concurrent_update_loses_key :
  let alice := users_root (fun p => p) sx_root ++ ["alice"] in
  (current ← read_json (fun p => p) 1000 sx_provider_file provider_default alice ∅;
   other ← sx_update_provider 1000 true "u" "m" (Some "k") 1000000 ∅;
   fs ← write_json (fun s => s) (fun p => p) 1000 sx_provider_file
     (provider_payload true "u" "m2" None 2000000 current) alice other.2;
   c ← get_provider_config (fun _ => None) (fun p => p) sx_root 1000 "alice" fs;
   Ok (pc_has_api_key other.1, pc_has_api_key c)) = Ok (true, false).
Proof. vm_compute. reflexivity. Qed.

(** * The settings as a store *)

(** ** The abstract store *)

Record Provider := mkAProvider {
  ap_enabled : bool; ap_base_url : string; ap_model : string; ap_api_key : string; ap_updated_at : option Z
}.
Record Channels := mkAChannels {
  ac_feishu : bool; ac_app_id : string; ac_secret : string; ac_encrypt : string; ac_verification : string;
  ac_telegram : bool; ac_token : string; ac_updated_at : option Z
}.
Record store := mkStore {
  st_provider : gmap string Provider;
  st_channels : gmap string Channels;
  st_registration : option RegistrationPolicyConfig;
  st_system : option SystemSettingsConfig
}.
Definition empty_store : store := mkStore ∅ ∅ None None.

Inductive settings_op :=
| GetProvider (user : string)
| UpdateProvider (user : string) (enabled : bool) (base_url model : string) (api_key : option string)
| GetChannels (user : string)
| UpdateChannels (user : string) (feishu : bool) (app_id secret encrypt verification : string)
    (telegram : bool) (token : string)
| GetRegistration
| UpdateRegistration (allow require : bool)
| GetSystem
| UpdateSystem (mode : string) (allow_host : bool).

Inductive settings_answer :=
| AnsProvider (c : ProviderConfig)
| AnsChannels (c : ChannelsConfig)
| AnsRegistration (c : RegistrationPolicyConfig)
| AnsSystem (c : SystemSettingsConfig).

(** What is shown of a configuration: secrets as whether they are set. *)
Definition view_provider (p : Provider) : ProviderConfig :=
  mkProvider (ap_enabled p) (ap_base_url p) (ap_model p) (negb (bool_decide (strip (ap_api_key p) = ""))) (ap_updated_at p).
Definition view_channels (c : Channels) : ChannelsConfig :=
  let set s := negb (bool_decide (s = "")) in
  mkChannels (ac_feishu c) (ac_app_id c) (set (ac_secret c)) (set (ac_encrypt c)) (set (ac_verification c))
    (ac_telegram c) (set (ac_token c)) (ac_updated_at c).

Definition no_provider : Provider := mkAProvider false "" "" "" None.
Definition no_channels : Channels := mkAChannels false "" "" "" "" false "" None.
Definition no_registration : RegistrationPolicyConfig := mkRegistration true false None.
Definition no_system : SystemSettingsConfig := mkSystem "openai" false None.

Definition valid_user (user : string) : result settings_error string :=
  match validate_segment user with
  | Some u => Ok u
  | None => raise (SettingsValueError "invalid user id")
  end.

(** The specification of the service. *)
Definition spec (op : settings_op) (now : Z) (s : store) : result settings_error (settings_answer * store) :=
  let '(mkStore ps cs r y) := s in
  match op with
  | GetProvider user =>
      u ← valid_user user;
      Ok (AnsProvider (view_provider (default no_provider (ps !! u))), s)
  | UpdateProvider user enabled base_url model api_key =>
      u ← valid_user user;
      let old := default no_provider (ps !! u) in
      let p := mkAProvider enabled (strip base_url) (strip model)
                 (match api_key with Some k => strip k | None => ap_api_key old end) (Some now) in
      Ok (AnsProvider (view_provider p), mkStore (<[u := p]> ps) cs r y)
  | GetChannels user =>
      u ← valid_user user;
      Ok (AnsChannels (view_channels (default no_channels (cs !! u))), s)
  | UpdateChannels user feishu app_id secret encrypt verification telegram token =>
      u ← valid_user user;
      let c := mkAChannels feishu (strip app_id) (strip secret) (strip encrypt) (strip verification)
                 telegram (strip token) (Some now) in
      Ok (AnsChannels (view_channels c), mkStore ps (<[u := c]> cs) r y)
  | GetRegistration => Ok (AnsRegistration (default no_registration r), s)
  | UpdateRegistration allow require =>
      let c := mkRegistration allow require (Some now) in Ok (AnsRegistration c, mkStore ps cs (Some c) y)
  | GetSystem => Ok (AnsSystem (default no_system y), s)
  | UpdateSystem mode allow =>
      m ← normalize_execution_mode (JStr mode);
      let c := mkSystem m allow (Some now) in Ok (AnsSystem c, mkStore ps cs r (Some c))
  end.

(** ** The files that hold a store *)

Definition json_time (t : option Z) : json := match t with Some t => JStr (isoformat t) | None => JNull end.

Definition provider_dict (p : Provider) : dict :=
  [("enabled", JBool (ap_enabled p)); ("base_url", JStr (ap_base_url p)); ("default_model", JStr (ap_model p));
   ("api_key", JStr (ap_api_key p)); ("updated_at", json_time (ap_updated_at p))].
Definition channels_dict (c : Channels) : dict :=
  [("feishu_enabled", JBool (ac_feishu c)); ("feishu_app_id", JStr (ac_app_id c));
   ("feishu_app_secret", JStr (ac_secret c)); ("feishu_encrypt_key", JStr (ac_encrypt c));
   ("feishu_verification_token", JStr (ac_verification c)); ("telegram_enabled", JBool (ac_telegram c));
   ("telegram_bot_token", JStr (ac_token c)); ("updated_at", json_time (ac_updated_at c))].
Definition registration_dict (c : RegistrationPolicyConfig) : dict :=
  [("allow_registration", JBool (rp_allow_registration c)); ("require_invite_code", JBool (rp_require_invite_code c));
   ("updated_at", json_time (rp_updated_at c))].
Definition system_dict (c : SystemSettingsConfig) : dict :=
  [("default_execution_mode", JStr (sc_default_execution_mode c));
   ("allow_host_execution", JBool (sc_allow_host_execution c)); ("updated_at", json_time (sc_updated_at c))].

Definition time_ok (t : option Z) : Prop := forall x, t = Some x -> (datetime_min <= x <= datetime_max)%Z.

Record store_ok (s : store) : Prop := {
  ok_provider : forall u p, st_provider s !! u = Some p -> time_ok (ap_updated_at p);
  ok_channels : forall u c, st_channels s !! u = Some c -> time_ok (ac_updated_at c);
  ok_registration : forall c, st_registration s = Some c -> time_ok (rp_updated_at c);
  ok_system : forall c, st_system s = Some c -> time_ok (sc_updated_at c) /\
    normalize_execution_mode (JStr (sc_default_execution_mode c)) = Ok (sc_default_execution_mode c)
}.

Section store.
Variable other_iso : string -> option datetime.
Variable float_repr : string -> string.
Variable resolve : path -> path.
Variable settings_root : path.
Variable max_file_size_bytes : Z.

(** One call of the service. *)
Definition run (op : settings_op) (now : Z) (fs : files) : result settings_error (settings_answer * files) :=
  match op with
  | GetProvider user =>
      c ← get_provider_config other_iso resolve settings_root max_file_size_bytes user fs; Ok (AnsProvider c, fs)
  | UpdateProvider user e b m k =>
      r ← update_provider_config other_iso float_repr resolve settings_root max_file_size_bytes user e b m k now fs;
      Ok (AnsProvider r.1, r.2)
  | GetChannels user =>
      c ← get_channels_config other_iso resolve settings_root max_file_size_bytes user fs; Ok (AnsChannels c, fs)
  | UpdateChannels user f a s e v t k =>
      r ← update_channels_config other_iso float_repr resolve settings_root max_file_size_bytes user f a s e v t k now fs;
      Ok (AnsChannels r.1, r.2)
  | GetRegistration =>
      c ← get_registration_policy other_iso resolve settings_root max_file_size_bytes fs; Ok (AnsRegistration c, fs)
  | UpdateRegistration a r =>
      r ← update_registration_policy other_iso float_repr resolve settings_root max_file_size_bytes a r now fs;
      Ok (AnsRegistration r.1, r.2)
  | GetSystem =>
      c ← get_system_settings other_iso resolve settings_root max_file_size_bytes fs; Ok (AnsSystem c, fs)
  | UpdateSystem m a =>
      r ← update_system_settings other_iso float_repr resolve settings_root max_file_size_bytes m a now fs;
      Ok (AnsSystem r.1, r.2)
  end.

Definition text_of (d : dict) : string := json_dumps_sorted float_repr (JObj d) +:+ LF.

(** The directory [fs] holds the store [s]. *)
Record holds (fs : files) (s : store) : Prop := {
  h_provider : forall u, safe_segment u = true ->
    fs !! provider_path (users_root resolve settings_root ++ [u]) = text_of ∘ provider_dict <$> st_provider s !! u;
  h_channels : forall u, safe_segment u = true ->
    fs !! channels_path (users_root resolve settings_root ++ [u]) = text_of ∘ channels_dict <$> st_channels s !! u;
  h_registration : fs !! registration_path resolve settings_root = text_of ∘ registration_dict <$> st_registration s;
  h_system : fs !! system_path resolve settings_root = text_of ∘ system_dict <$> st_system s;
  h_ok : store_ok s;
  h_size : within_limit max_file_size_bytes fs
}.

(** No symbolic links below the settings directory. *)
Hypothesis no_links : forall q, resolve (settings_root ++ q) = settings_root ++ q.

Lemma users_eq : users_root resolve settings_root = settings_root ++ ["users"].
Proof. apply no_links. Qed.
Lemma global_eq : global_root resolve settings_root = settings_root ++ ["global"].
Proof. apply no_links. Qed.
Lemma users_below q : users_root resolve settings_root ++ q = settings_root ++ ("users" :: q).
Proof. rewrite users_eq. by rewrite <- app_assoc. Qed.

Lemma user_root_spec user :
  user_root resolve settings_root user = (u ← valid_user user; Ok (users_root resolve settings_root ++ [u])).
Proof.
  unfold user_root, valid_user. destruct (validate_segment user) as [u|]; [|done]. cbn [mbind result_bind].
  unfold validate_path. cbn [existsb]. rewrite users_below, !no_links, <- users_below.
  replace (resolve (users_root resolve settings_root)) with (users_root resolve settings_root)
    by (rewrite users_eq; by rewrite no_links).
  by rewrite path_prefix_app.
Qed.

Lemma safe_below q name :
  ensure_safe_path resolve ((settings_root ++ q) ++ [name]) (settings_root ++ q) = Ok tt.
Proof.
  unfold ensure_safe_path, validate_path. cbn [existsb].
  rewrite <- app_assoc, !no_links, app_assoc. by rewrite path_prefix_app.
Qed.

Lemma safe_global name :
  ensure_safe_path resolve (global_root resolve settings_root ++ [name]) (global_root resolve settings_root) = Ok tt.
Proof. rewrite global_eq. apply safe_below. Qed.
Lemma safe_user u name :
  ensure_safe_path resolve ((users_root resolve settings_root ++ [u]) ++ [name]) (users_root resolve settings_root ++ [u]) = Ok tt.
Proof. rewrite users_below. apply safe_below. Qed.

Lemma time_read t : time_ok t -> parse_datetime other_iso (json_time t) = Ok t.
Proof.
  destruct t as [t|]; [|done]. intros H. specialize (H t eq_refl). cbn [json_time parse_datetime].
  rewrite iso_roundtrip by done. by rewrite !(proj2 (Z.leb_le _ _)) by apply H.
Qed.

Lemma write_json_eq p d root fs :
  ensure_safe_path resolve p root = Ok tt ->
  write_json float_repr resolve max_file_size_bytes p d root fs =
    if (max_file_size_bytes <? utf8_len (json_dumps_sorted float_repr (JObj d)))%Z
    then raise (SettingsValueError "settings file exceeds size limit")
    else Ok (<[p := text_of d]> fs).
Proof. intros S. unfold write_json. by rewrite S. Qed.

(** Reading a configuration of the store: of its file, or of the default payload. *)
Lemma read_held {A} (enc : A -> dict) (dflt : A) p root fs (o : option A) :
  (forall a, flat (enc a) = true) -> (forall a k, od_get k (enc a) = None -> od_get k (enc dflt) = None) ->
  ensure_safe_path resolve p root = Ok tt -> fs !! p = text_of ∘ enc <$> o ->
  within_limit max_file_size_bytes fs ->
  exists d, read_json resolve max_file_size_bytes p (enc dflt) root fs = Ok d /\
    forall k, od_get k d = od_get k (enc (default dflt o)).
Proof.
  intros F K S H L. destruct o as [a|]; cbn [default from_option id fmap option_fmap option_map compose] in *.
  - eapply (read_text float_repr); eauto.
  - exists (enc dflt). split; [|done]. unfold read_json. rewrite S. cbn [mbind result_bind]. by rewrite H.
Qed.

Lemma provider_read p d :
  time_ok (ap_updated_at p) -> (forall k, od_get k d = od_get k (provider_dict p)) ->
  provider_from_payload other_iso d = Ok (view_provider p).
Proof.
  intros T G. unfold provider_from_payload. rewrite !(field_ext _ _ _ G).
  change (field "updated_at" (provider_dict p)) with (json_time (ap_updated_at p)). by rewrite time_read.
Qed.

Lemma channels_read c d :
  time_ok (ac_updated_at c) -> (forall k, od_get k d = od_get k (channels_dict c)) ->
  channels_from_payload other_iso d = Ok (view_channels c).
Proof.
  intros T G. unfold channels_from_payload. rewrite !(field_ext _ _ _ G).
  change (field "updated_at" (channels_dict c)) with (json_time (ac_updated_at c)). by rewrite time_read.
Qed.

Lemma flat_time l t : flat (l ++ [("updated_at", JNull)]) = true -> flat (l ++ [("updated_at", json_time t)]) = true.
Proof.
  unfold flat. intros [H1 H2]%andb_true_iff. apply andb_true_iff. split.
  - by rewrite fmap_app in *.
  - rewrite forallb_app in *. apply andb_true_iff in H2 as [-> _]. by destruct t.
Qed.

Ltac flat_dict :=
  intros;
  match goal with |- flat (_ ?x) = true =>
    let t := fresh in
    unfold provider_dict, channels_dict, registration_dict, system_dict;
    match goal with |- context [json_time ?y] => destruct y end; reflexivity
  end.
Ltac same_keys := intros; cbn in *; repeat case_decide; congruence.

(** ** The four configurations are files of their own *)

Lemma provider_path_inj u v :
  provider_path (users_root resolve settings_root ++ [u]) = provider_path (users_root resolve settings_root ++ [v]) <-> u = v.
Proof.
  split; [|by intros ->]. unfold provider_path. rewrite users_eq, <- !app_assoc. intros H%app_inv_head. by injection H.
Qed.
Lemma channels_path_inj u v :
  channels_path (users_root resolve settings_root ++ [u]) = channels_path (users_root resolve settings_root ++ [v]) <-> u = v.
Proof.
  split; [|by intros ->]. unfold channels_path. rewrite users_eq, <- !app_assoc. intros H%app_inv_head. by injection H.
Qed.

Ltac other_path :=
  unfold provider_path, channels_path, registration_path, system_path;
  rewrite ?users_eq, ?global_eq, <- ?app_assoc; let E := fresh in intros E%app_inv_head; discriminate E.

Lemma holds_provider fs s u p :
  holds fs s -> time_ok (ap_updated_at p) ->
  let f := provider_path (users_root resolve settings_root ++ [u]) in
  within_limit max_file_size_bytes (<[f := text_of (provider_dict p)]> fs) ->
  holds (<[f := text_of (provider_dict p)]> fs)
    (mkStore (<[u := p]> (st_provider s)) (st_channels s) (st_registration s) (st_system s)).
Proof.
  intros [Hp Hc Hr Hy [K1 K2 K3 K4] Hs] T f L. subst f. split; cbn [st_provider st_channels st_registration st_system]; try done.
  - intros v Hv. destruct (decide (u = v)) as [<-|N]; [by rewrite !lookup_insert_eq|].
    rewrite !lookup_insert_ne; [auto|done|]. by rewrite provider_path_inj.
  - intros v Hv. rewrite lookup_insert_ne; [auto|]. other_path.
  - rewrite lookup_insert_ne; [auto|]. other_path.
  - rewrite lookup_insert_ne; [auto|]. other_path.
  - split; cbn [st_provider st_channels st_registration st_system]; try done.
    intros v q [[<- <-]|[_ H]]%lookup_insert_Some; [done|]. by eapply K1.
Qed.

Lemma holds_channels fs s u c :
  holds fs s -> time_ok (ac_updated_at c) ->
  let f := channels_path (users_root resolve settings_root ++ [u]) in
  within_limit max_file_size_bytes (<[f := text_of (channels_dict c)]> fs) ->
  holds (<[f := text_of (channels_dict c)]> fs)
    (mkStore (st_provider s) (<[u := c]> (st_channels s)) (st_registration s) (st_system s)).
Proof.
  intros [Hp Hc Hr Hy [K1 K2 K3 K4] Hs] T f L. subst f. split; cbn [st_provider st_channels st_registration st_system]; try done.
  - intros v Hv. rewrite lookup_insert_ne; [auto|]. other_path.
  - intros v Hv. destruct (decide (u = v)) as [<-|N]; [by rewrite !lookup_insert_eq|].
    rewrite !lookup_insert_ne; [auto|done|]. by rewrite channels_path_inj.
  - rewrite lookup_insert_ne; [auto|]. other_path.
  - rewrite lookup_insert_ne; [auto|]. other_path.
  - split; cbn [st_provider st_channels st_registration st_system]; try done.
    intros v q [[<- <-]|[_ H]]%lookup_insert_Some; [done|]. by eapply K2.
Qed.

Lemma holds_registration fs s c :
  holds fs s -> time_ok (rp_updated_at c) ->
  let f := registration_path resolve settings_root in
  within_limit max_file_size_bytes (<[f := text_of (registration_dict c)]> fs) ->
  holds (<[f := text_of (registration_dict c)]> fs)
    (mkStore (st_provider s) (st_channels s) (Some c) (st_system s)).
Proof.
  intros [Hp Hc Hr Hy [K1 K2 K3 K4] Hs] T f L. subst f. split; cbn [st_provider st_channels st_registration st_system]; try done.
  - intros v Hv. rewrite lookup_insert_ne; [auto|]. other_path.
  - intros v Hv. rewrite lookup_insert_ne; [auto|]. other_path.
  - by rewrite lookup_insert_eq.
  - rewrite lookup_insert_ne; [auto|]. other_path.
  - split; cbn [st_provider st_channels st_registration st_system]; try done. by intros ? [= <-].
Qed.

Lemma holds_system fs s c :
  holds fs s -> time_ok (sc_updated_at c) ->
  normalize_execution_mode (JStr (sc_default_execution_mode c)) = Ok (sc_default_execution_mode c) ->
  let f := system_path resolve settings_root in
  within_limit max_file_size_bytes (<[f := text_of (system_dict c)]> fs) ->
  holds (<[f := text_of (system_dict c)]> fs)
    (mkStore (st_provider s) (st_channels s) (st_registration s) (Some c)).
Proof.
  intros [Hp Hc Hr Hy [K1 K2 K3 K4] Hs] T M f L. subst f. split; cbn [st_provider st_channels st_registration st_system]; try done.
  - intros v Hv. rewrite lookup_insert_ne; [auto|]. other_path.
  - intros v Hv. rewrite lookup_insert_ne; [auto|]. other_path.
  - rewrite lookup_insert_ne; [auto|]. other_path.
  - by rewrite lookup_insert_eq.
  - split; cbn [st_provider st_channels st_registration st_system]; try done. by intros ? [= <-].
Qed.

(** ** Each operation implements its specification *)

Definition size_limit : settings_error := SettingsValueError "settings file exceeds size limit".

Definition implements (op : settings_op) (now : Z) (fs : files) (s : store) : Prop :=
  match run op now fs with
  | Ok (ans, fs') =>
      within_limit max_file_size_bytes fs' -> exists s', spec op now s = Ok (ans, s') /\ holds fs' s'
  | Err e => e = size_limit \/ spec op now s = raise e
  end.

Lemma valid_user_safe user u : valid_user user = Ok u -> safe_segment u = true.
Proof.
  unfold valid_user. destruct (validate_segment user) eqn:E; [|done]. intros [= <-].
  by apply validate_segment_safe in E as [_ ?].
Qed.

Lemma store_eta s : s = mkStore (st_provider s) (st_channels s) (st_registration s) (st_system s).
Proof. by destruct s. Qed.

Lemma default_time {A} (t : A -> option Z) (dflt : A) (o : option A) :
  time_ok (t dflt) -> (forall a, o = Some a -> time_ok (t a)) -> time_ok (t (default dflt o)).
Proof. intros H1 H2. destruct o; [by apply H2|done]. Qed.

Lemma provider_time s u : store_ok s -> time_ok (ap_updated_at (default no_provider (st_provider s !! u))).
Proof. intros K. by apply (default_time ap_updated_at); [|apply (ok_provider _ K)]. Qed.
Lemma channels_time s u : store_ok s -> time_ok (ac_updated_at (default no_channels (st_channels s !! u))).
Proof. intros K. by apply (default_time ac_updated_at); [|apply (ok_channels _ K)]. Qed.

Lemma get_provider_implements user now fs s : holds fs s -> implements (GetProvider user) now fs s.
Proof.
  intros H. unfold implements, run, get_provider_config. rewrite user_root_spec, (store_eta s). cbn [spec].
  destruct (valid_user user) as [u|e] eqn:U; cbn [mbind result_bind]; [|by right].
  apply valid_user_safe in U. change provider_default with (provider_dict no_provider).
  destruct (read_held provider_dict no_provider (provider_path (users_root resolve settings_root ++ [u]))
    (users_root resolve settings_root ++ [u]) fs (st_provider s !! u)) as (d & -> & G);
    [flat_dict|same_keys|first [apply safe_user | apply safe_global]|by apply H|apply H|].
  cbn [mbind result_bind]. rewrite (provider_read _ _ (provider_time s u (h_ok _ _ H)) G).
  cbn [mbind result_bind]. intros _. by exists s; rewrite <- store_eta.
Qed.

Lemma get_channels_implements user now fs s : holds fs s -> implements (GetChannels user) now fs s.
Proof.
  intros H. unfold implements, run, get_channels_config. rewrite user_root_spec, (store_eta s). cbn [spec].
  destruct (valid_user user) as [u|e] eqn:U; cbn [mbind result_bind]; [|by right].
  apply valid_user_safe in U. change channels_default with (channels_dict no_channels).
  destruct (read_held channels_dict no_channels (channels_path (users_root resolve settings_root ++ [u]))
    (users_root resolve settings_root ++ [u]) fs (st_channels s !! u)) as (d & -> & G);
    [flat_dict|same_keys|first [apply safe_user | apply safe_global]|by apply H|apply H|].
  cbn [mbind result_bind]. rewrite (channels_read _ _ (channels_time s u (h_ok _ _ H)) G).
  cbn [mbind result_bind]. intros _. by exists s; rewrite <- store_eta.
Qed.

Lemma get_registration_implements now fs s : holds fs s -> implements GetRegistration now fs s.
Proof.
  intros H. unfold implements, run, get_registration_policy. rewrite (store_eta s). cbn [spec].
  change registration_default with (registration_dict no_registration).
  destruct (read_held registration_dict no_registration (registration_path resolve settings_root)
    (global_root resolve settings_root) fs (st_registration s)) as (d & -> & G);
    [flat_dict|same_keys|first [apply safe_user | apply safe_global]|by apply H|apply H|].
  cbn [mbind result_bind]. rewrite !(field_ext _ _ _ G). set (c := default no_registration _).
  change (field "updated_at" (registration_dict c)) with (json_time (rp_updated_at c)).
  rewrite time_read by (apply (default_time rp_updated_at); [done|apply (h_ok _ _ H)]).
  cbn. intros _. exists s. rewrite <- store_eta. by destruct c.
Qed.

Lemma get_system_implements now fs s : holds fs s -> implements GetSystem now fs s.
Proof.
  intros H. unfold implements, run, get_system_settings. rewrite (store_eta s). cbn [spec].
  change system_default with (system_dict no_system).
  destruct (read_held system_dict no_system (system_path resolve settings_root)
    (global_root resolve settings_root) fs (st_system s)) as (d & -> & G);
    [flat_dict|same_keys|first [apply safe_user | apply safe_global]|by apply H|apply H|].
  cbn [mbind result_bind]. rewrite !(field_ext _ _ _ G). set (c := default no_system _).
  change (field "updated_at" (system_dict c)) with (json_time (sc_updated_at c)).
  change (field "default_execution_mode" (system_dict c)) with (JStr (sc_default_execution_mode c)).
  assert (M : normalize_execution_mode (JStr (sc_default_execution_mode c)) = Ok (sc_default_execution_mode c)).
  { subst c. destruct (st_system s) as [y|] eqn:Y; [by apply (ok_system _ (h_ok _ _ H))|reflexivity]. }
  rewrite M. rewrite time_read by (apply (default_time sc_updated_at); [done|intros y Y; by apply (ok_system _ (h_ok _ _ H))]).
  cbn. intros _. exists s. rewrite <- store_eta. by destruct c.
Qed.

(** A fresh directory holds the empty store. *)
Lemma holds_empty : holds ∅ empty_store.
Proof. by split. Qed.

Section updates.
Variable now : Z.
Hypothesis now_ok : (datetime_min <= now <= datetime_max)%Z.

Lemma time_now : time_ok (Some now).
Proof. by intros ? [= <-]. Qed.

Lemma update_provider_implements user e b m k fs s :
  holds fs s -> implements (UpdateProvider user e b m k) now fs s.
Proof.
  intros H. unfold implements, run, update_provider_config. rewrite user_root_spec, (store_eta s). cbn [spec].
  destruct (valid_user user) as [u|er] eqn:U; cbn [mbind result_bind]; [|by right].
  apply valid_user_safe in U. change provider_default with (provider_dict no_provider).
  destruct (read_held provider_dict no_provider (provider_path (users_root resolve settings_root ++ [u]))
    (users_root resolve settings_root ++ [u]) fs (st_provider s !! u)) as (d & -> & G);
    [flat_dict|same_keys|first [apply safe_user | apply safe_global]|by apply H|apply H|].
  cbn [mbind result_bind]. unfold provider_payload. rewrite G.
  set (old := default no_provider _). change (od_get "api_key" (provider_dict old)) with (Some (JStr (ap_api_key old))).
  cbn [default from_option id]. set (p := mkAProvider _ _ _ _ _). set (payload := [_; _; _; _; _]).
  change payload with (provider_dict p). rewrite write_json_eq by first [apply safe_user | apply safe_global].
  destruct (_ <? _)%Z; cbn [mbind result_bind]; [by left|].
  rewrite (provider_read p _ time_now) by done. cbn [mbind result_bind fst snd]. intros L.
  eexists. split; [done|]. by apply holds_provider; [|apply time_now|].
Qed.

Lemma update_channels_implements user f a se en ve te to fs s :
  holds fs s -> implements (UpdateChannels user f a se en ve te to) now fs s.
Proof.
  intros H. unfold implements, run, update_channels_config. rewrite user_root_spec, (store_eta s). cbn [spec].
  destruct (valid_user user) as [u|er] eqn:U; cbn [mbind result_bind]; [|by right].
  apply valid_user_safe in U. set (c := mkAChannels _ _ _ _ _ _ _ _). cbv zeta.
  set (payload := [_; _; _; _; _; _; _; _]). change payload with (channels_dict c).
  rewrite write_json_eq by first [apply safe_user | apply safe_global].
  destruct (_ <? _)%Z; cbn [mbind result_bind]; [by left|].
  rewrite (channels_read c _ time_now) by done. cbn [mbind result_bind fst snd]. intros L.
  eexists. split; [done|]. by apply holds_channels; [|apply time_now|].
Qed.

Lemma update_registration_implements a r fs s : holds fs s -> implements (UpdateRegistration a r) now fs s.
Proof.
  intros H. unfold implements, run, update_registration_policy. rewrite (store_eta s). cbn [spec].
  set (c := mkRegistration a r (Some now)). cbv zeta.
  set (payload := [_; _; _]). change payload with (registration_dict c). rewrite write_json_eq by first [apply safe_user | apply safe_global].
  destruct (_ <? _)%Z; cbn [mbind result_bind]; [by left|].
  change (field "updated_at" (registration_dict c)) with (json_time (Some now)). rewrite time_read by apply time_now.
  cbn [mbind result_bind fst snd]. intros L. eexists. split; [done|]. by apply holds_registration; [|apply time_now|].
Qed.

Lemma update_system_implements m a fs s : holds fs s -> implements (UpdateSystem m a) now fs s.
Proof.
  intros H. unfold implements, run, update_system_settings. rewrite (store_eta s). cbn [spec].
  destruct (normalize_execution_mode (JStr m)) as [n|e] eqn:M; cbn [mbind result_bind]; [|by right].
  set (c := mkSystem n a (Some now)). cbv zeta.
  set (payload := [_; _; _]). change payload with (system_dict c). rewrite write_json_eq by first [apply safe_user | apply safe_global].
  destruct (_ <? _)%Z; cbn [mbind result_bind]; [by left|].
  change (field "updated_at" (system_dict c)) with (json_time (Some now)). rewrite time_read by apply time_now.
  cbn [mbind result_bind fst snd]. intros L. eexists. split; [done|].
  apply holds_system; [done|apply time_now|by eapply normalize_idemp|done].
Qed.

Lemma settings_refines op fs s : holds fs s -> implements op now fs s.
Proof.
  intros H. destruct op.
  - by apply get_provider_implements.
  - by apply update_provider_implements.
  - by apply get_channels_implements.
  - by apply update_channels_implements.
  - by apply get_registration_implements.
  - by apply update_registration_implements.
  - by apply get_system_implements.
  - by apply update_system_implements.
Qed.

(** C7: The directory of settings files implements the store of configurations. When
    the files hold the store, every call answers as the specification does and
    leaves files that hold the specified store (as long as no file is beyond the size
    limit), or it raises the error the specification raises; the one further error
    is that of the size limit. *)
Theorem settings_refine op fs s : holds fs s -> implements op now fs s.
Proof. apply settings_refines. Qed.
End updates.
End store.

Lemma settings_refine_witness :
  implements (fun _ => None) (fun s => s) (fun p => p) sx_root 1000
    (UpdateProvider " alice " true "u" " m " None) 1000000 ∅ empty_store.
Proof.
  apply (settings_refine (fun _ => None) (fun s => s) (fun p => p) sx_root 1000).
  - intros q. reflexivity.
  - split; apply Z.leb_le; reflexivity.
  - apply holds_empty.
Defined.
