(* ===== verification/McpServers.v ===== *)
(** * The MCP servers of a user ([services/mcp_servers.py])

    The entries of a user are one JSON file, [{"servers": {id: record}}], that each call
    reads and, if it changes something, writes again in a worker thread. The dictionaries
    of an entry ([env], [headers]) are maps: their order is not observed, since the file
    is written with sorted keys. *)

From stdpp Require Import base gmap list option strings.
From Stdlib Require Import ZArith NArith Lia Ascii.
From S2P Require Import Prelude PyStr PyInt PyTime PySort PyDict PyJson SafePath Settings.

(** A [ValueError], the [FileNotFoundError] of an entry, [OverflowError] of a datetime, an
    outcome outside the model. *)
Inductive mcp_error := McpValueError (msg : string) | McpNotFound | McpOverflow | McpNotModelled.
Definition invalid_servers_file : mcp_error := McpValueError "invalid mcp servers file".

Record McpServerEntry := mkEntry {
  me_server_id : string;
  me_transport : string;
  me_enabled : bool;
  me_updated_at : Z
}.
Record McpServerDetail := mkDetail {
  md_server_id : string;
  md_transport : string;
  md_enabled : bool;
  md_description : option string;
  md_created_at : Z;
  md_updated_at : Z;
  md_command : option string;
  md_args : option (list string);
  md_env : option (gmap string string);
  md_url : option string;
  md_headers : option (gmap string string)
}.

Definition MCP_TRANSPORTS : list string := ["stdio"; "http"; "sse"].

(** ** Fields *)

(** [_normalize_optional_string] of a string or [None]. *)
Definition normalize_optional_string (value : option string) : option string :=
  match value with
  | None => None
  | Some s => if bool_decide (strip s = "") then None else Some (strip s)
  end.

(** [_normalize_required_string]. *)
Definition normalize_required_string (value : json) : result mcp_error string :=
  match value with
  | JStr s => if bool_decide (strip s = "") then raise invalid_servers_file else Ok (strip s)
  | _ => raise invalid_servers_file
  end.

Fixpoint normalize_items (error : mcp_error) (l : list json) : result mcp_error (list string) :=
  match l with
  | [] => Ok []
  | JStr s :: l => if bool_decide (strip s = "") then raise error
                   else r ← normalize_items error l; Ok (strip s :: r)
  | _ :: _ => raise error
  end.
(** [_normalize_string_list]. *)
Definition normalize_string_list (value : json) (label : string) : result mcp_error (list string) :=
  let error := McpValueError (label +:+ " must be an array of strings") in
  match value with
  | JNull => Ok []
  | JArr l => normalize_items error l
  | _ => raise error
  end.

Fixpoint normalize_entries (error : mcp_error) (d : dict) (normalized : gmap string string) :
    result mcp_error (gmap string string) :=
  match d with
  | [] => Ok normalized
  | (key, item) :: d =>
      if bool_decide (strip key = "") then raise error
      else match item with
           | JStr s => normalize_entries error d (<[strip key := s]> normalized)
           | _ => raise error
           end
  end.
(** [_normalize_string_dict]. *)
Definition normalize_string_dict (value : json) (label : string) : result mcp_error (gmap string string) :=
  let error := McpValueError (label +:+ " must be an object with string values") in
  match value with
  | JNull => Ok ∅
  | JObj d => normalize_entries error d ∅
  | _ => raise error
  end.

Section service.
Variable other_iso : string -> option datetime.
Variable float_repr : string -> string.
Variable resolve : path -> path.
(** [self._mcp_servers_root], [self._max_file_size_bytes]. *)
Variable root : path.
Variable max_file_size_bytes : Z.

(** A final Z is an offset of zero. *)
Definition replace_zulu (s : string) : string :=
  match rev (str_chars s) with
  | c :: l => if bool_decide (c = "Z"%char) then of_chars (rev l) +:+ "+00:00" else s
  | [] => s
  end.
(** [_parse_datetime]. *)
Definition parse_mcp_datetime (value : json) : result mcp_error Z :=
  match value with
  | JStr s =>
      let candidate := strip s in
      if bool_decide (candidate = "") then raise invalid_servers_file
      else match fromisoformat other_iso (replace_zulu candidate) with
           | None => raise invalid_servers_file
           | Some (Naive w) => Ok w
           | Some (Aware i) =>
               if ((datetime_min <=? i) && (i <=? datetime_max))%Z then Ok i else raise McpOverflow
           end
  | _ => raise invalid_servers_file
  end.

(** [_iso_datetime]: to the second. *)
Definition iso_datetime (t : Z) : string := isoformat (t - t mod 1000000).

(** ** Records *)

(** [_detail_from_record]. *)
Definition detail_from_record (server_id : string) (record : dict) : result mcp_error McpServerDetail :=
  enabled ← match od_get "enabled" record with
            | None => Ok true
            | Some (JBool b) => Ok b
            | Some _ => raise invalid_servers_file
            end;
  transport ← match field "transport" record with
              | JStr s => let t := lower (strip s) in
                          if bool_decide (t ∈ MCP_TRANSPORTS) then Ok t else raise invalid_servers_file
              | _ => raise invalid_servers_file
              end;
  description ← match field "description" record with
                | JNull => Ok None
                | JStr s => Ok (Some s)
                | _ => raise invalid_servers_file
                end;
  created_at ← parse_mcp_datetime (field "created_at" record);
  updated_at ← parse_mcp_datetime (field "updated_at" record);
  if bool_decide (transport = "stdio") then
    command ← normalize_required_string (field "command" record);
    args ← normalize_string_list (field "args" record) "args";
    env ← normalize_string_dict (field "env" record) "env";
    Ok (mkDetail server_id "stdio" enabled description created_at updated_at (Some command) (Some args) (Some env) None None)
  else
    url ← normalize_required_string (field "url" record);
    headers ← normalize_string_dict (field "headers" record) "headers";
    Ok (mkDetail server_id transport enabled description created_at updated_at None None None (Some url) (Some headers)).

(** The fields of the transport. *)
Inductive transport_payload :=
| StdioPayload (command : string) (args : list string) (env : gmap string string)
| UrlPayload (transport url : string) (headers : gmap string string).

(** [_normalize_transport_payload]. *)
Definition normalize_transport_payload (transport : string) (command : option string) (args env : json)
    (url : option string) (headers : json) : result mcp_error transport_payload :=
  let t := lower (strip transport) in
  if negb (bool_decide (t ∈ MCP_TRANSPORTS)) then raise (McpValueError "invalid transport")
  else if bool_decide (t = "stdio") then
    match normalize_optional_string command with
    | None => raise (McpValueError "command is required for stdio transport")
    | Some c =>
        a ← normalize_string_list args "args";
        e ← normalize_string_dict env "env";
        Ok (StdioPayload c a e)
    end
  else
    match normalize_optional_string url with
    | None => raise (McpValueError "url is required for http/sse transport")
    | Some u => h ← normalize_string_dict headers "headers"; Ok (UrlPayload t u h)
    end.

Definition json_list (l : list string) : json := JArr (map JStr l).
Definition json_map (m : gmap string string) : json := JObj (map (fun e => (e.1, JStr e.2)) (map_to_list m)).

(** The record an upsert writes. *)
Definition server_record (enabled : bool) (description : option string) (created_at updated_at : Z)
    (p : transport_payload) : dict :=
  [("enabled", JBool enabled);
   ("transport", JStr match p with StdioPayload _ _ _ => "stdio" | UrlPayload t _ _ => t end);
   ("description", match description with Some s => JStr s | None => JNull end);
   ("created_at", JStr (iso_datetime created_at)); ("updated_at", JStr (iso_datetime updated_at))] ++
  match p with
  | StdioPayload command args env => [("command", JStr command); ("args", json_list args); ("env", json_map env)]
  | UrlPayload _ url headers => [("url", JStr url); ("headers", json_map headers)]
  end.

(** ** The file *)

Definition servers_error (value : string) : result mcp_error string :=
  match validate_segment value with Some v => Ok v | None => raise (McpValueError "invalid server id") end.

(** [_user_root]. *)
Definition mcp_user_root (user_id : string) : result mcp_error path :=
  match validate_segment user_id with
  | None => raise (McpValueError "invalid user id")
  | Some u =>
      let r := root ++ [u] in
      if validate_path resolve (resolve r) [root] then Ok r else raise (McpValueError "symlink traversal detected")
  end.
(** [_servers_file]; the same check again is [_ensure_safe_servers_file]. *)
Definition servers_file (user_id : string) : result mcp_error path :=
  user_root ← mcp_user_root user_id;
  let p := user_root ++ ["servers.json"] in
  if validate_path resolve (resolve p) [user_root] then Ok p else raise (McpValueError "symlink traversal detected").

Fixpoint normalize_servers (servers : dict) (normalized : list (string * dict)) : result mcp_error (list (string * dict)) :=
  match servers with
  | [] => Ok normalized
  | (server_id, record) :: servers =>
      safe_server_id ← servers_error server_id;
      match record with
      | JObj d => normalize_servers servers (od_set safe_server_id d normalized)
      | _ => raise invalid_servers_file
      end
  end.

(** [_read_user_servers]. *)
Definition read_user_servers (user_id : string) (fs : files) : result mcp_error (list (string * dict)) :=
  p ← servers_file user_id;
  match fs !! p with
  | None => Ok []
  | Some content =>
      if (max_file_size_bytes <? st_size content)%Z then raise (McpValueError "mcp servers file exceeds size limit")
      else match json_loads content with
           | Ok (JObj payload) =>
               match od_get "servers" payload with
               | None => Ok []
               | Some (JObj servers) => normalize_servers servers []
               | Some _ => raise invalid_servers_file
               end
           | Err JOutOfRange => raise McpNotModelled
           | Err JValueError => raise (McpValueError "int string conversion")
           | _ => raise invalid_servers_file
           end
  end.

(** [_write_user_servers]; the dictionary is in the order of the lowered ids, but the keys
    are sorted when it is encoded. *)
Definition servers_payload (servers : list (string * dict)) : json :=
  JObj [("servers", JObj (map (fun e => (e.1, JObj e.2)) (py_sorted (fun e => lower e.1) servers)))].
Definition write_user_servers (user_id : string) (servers : list (string * dict)) (fs : files) : result mcp_error files :=
  p ← servers_file user_id;
  let encoded := json_dumps_sorted float_repr (servers_payload servers) in
  if (max_file_size_bytes <? utf8_len encoded)%Z then raise (McpValueError "mcp servers file exceeds size limit")
  else Ok (<[p := encoded +:+ LF]> fs).

(** ** Operations *)

Fixpoint entries (servers : list (string * dict)) : result mcp_error (list McpServerEntry) :=
  match servers with
  | [] => Ok []
  | (server_id, record) :: servers =>
      d ← detail_from_record server_id record;
      l ← entries servers;
      Ok (mkEntry (md_server_id d) (md_transport d) (md_enabled d) (md_updated_at d) :: l)
  end.

(** [_list_user_servers]. *)
Definition list_user_servers (user_id : string) (fs : files) : result mcp_error (list McpServerEntry) :=
  servers ← read_user_servers user_id fs;
  entries (py_sorted (fun e => lower e.1) servers).

(** [_get_user_server]. *)
Definition get_user_server (user_id server_id : string) (fs : files) : result mcp_error McpServerDetail :=
  safe_server_id ← servers_error server_id;
  servers ← read_user_servers user_id fs;
  match od_get (V := dict) safe_server_id servers with
  | None => raise McpNotFound
  | Some record => detail_from_record safe_server_id record
  end.

(** [_upsert_user_server]; the instant is that of its [now]. *)
Definition upsert_user_server (user_id server_id transport : string) (command : option string) (args env : json)
    (url : option string) (headers : json) (description : option string) (now : Z) (fs : files) :
    result mcp_error (McpServerDetail * files) :=
  safe_server_id ← servers_error server_id;
  payload ← normalize_transport_payload transport command args env url headers;
  servers ← read_user_servers user_id fs;
  old ← match od_get (V := dict) safe_server_id servers with
        | None => Ok (true, now)
        | Some record => d ← detail_from_record safe_server_id record; Ok (md_enabled d, md_created_at d)
        end;
  let record := server_record old.1 (normalize_optional_string description) old.2 now payload in
  fs' ← write_user_servers user_id (od_set safe_server_id record servers) fs;
  d ← detail_from_record safe_server_id record;
  Ok (d, fs').

(** [_set_user_server_enabled]. *)
Definition set_user_server_enabled (user_id server_id : string) (enabled : bool) (now : Z) (fs : files) :
    result mcp_error (McpServerDetail * files) :=
  safe_server_id ← servers_error server_id;
  servers ← read_user_servers user_id fs;
  match od_get (V := dict) safe_server_id servers with
  | None => raise McpNotFound
  | Some record =>
      detail ← detail_from_record safe_server_id record;
      if Bool.eqb (md_enabled detail) enabled then Ok (detail, fs)
      else
        let updated := od_set "updated_at" (JStr (iso_datetime now)) (od_set "enabled" (JBool enabled) record) in
        fs' ← write_user_servers user_id (od_set safe_server_id updated servers) fs;
        d ← detail_from_record safe_server_id updated;
        Ok (d, fs')
  end.

(** [_delete_user_server]. *)
Definition delete_user_server (user_id server_id : string) (fs : files) : result mcp_error files :=
  safe_server_id ← servers_error server_id;
  servers ← read_user_servers user_id fs;
  match od_get (V := dict) safe_server_id servers with
  | None => raise McpNotFound
  | Some _ => write_user_servers user_id (od_pop safe_server_id servers) fs
  end.
End service.
