(* ===== verification/McpServersProps.v ===== *)
(** * The MCP servers as a store

    What the service promises: a map of servers for each user, which the calls read and
    change. The JSON files implement it. *)

From stdpp Require Import base gmap list option strings sorting.
From Stdlib Require Import ZArith NArith Lia Ascii.
From S2P Require Import Prelude PyStr PyInt PyTime PySort PyDict PyJson PyJsonProps SafePath Settings SettingsStore McpServers.

(** ** The abstract store *)

Record server := mkServer {
  sv_enabled : bool;
  sv_description : option string;
  sv_created_at : Z;
  sv_updated_at : Z;
  sv_payload : transport_payload
}.
Abbreviation servers := (gmap string server).
Abbreviation store := (gmap string servers).

Definition transport_of (p : transport_payload) : string :=
  match p with StdioPayload _ _ _ => "stdio" | UrlPayload t _ _ => t end.

(** What is shown of a server. *)
Definition detail_of (id : string) (v : server) : McpServerDetail :=
  match sv_payload v with
  | StdioPayload c a e =>
      mkDetail id "stdio" (sv_enabled v) (sv_description v) (sv_created_at v) (sv_updated_at v) (Some c) (Some a) (Some e) None None
  | UrlPayload t u h =>
      mkDetail id t (sv_enabled v) (sv_description v) (sv_created_at v) (sv_updated_at v) None None None (Some u) (Some h)
  end.
Definition entry_of (id : string) (v : server) : McpServerEntry :=
  mkEntry id (transport_of (sv_payload v)) (sv_enabled v) (sv_updated_at v).

(** Timestamps are kept to the second. *)
Definition seconds (t : Z) : Z := (t - t mod 1000000)%Z.

Definition valid_id (label value : string) : result mcp_error string :=
  match validate_segment value with Some v => Ok v | None => raise (McpValueError ("invalid " +:+ label)) end.

Inductive mcp_op :=
| ListServers (user : string)
| GetServer (user id : string)
| Upsert (user id transport : string) (command : option string) (args env : json) (url : option string)
    (headers : json) (description : option string)
| SetEnabled (user id : string) (enabled : bool)
| DeleteServer (user id : string).
Inductive mcp_answer := AnsEntries (l : list McpServerEntry) | AnsDetail (d : McpServerDetail) | AnsDeleted.

(** The ids in the order of their lowered text, equal ones by the text itself. *)
Definition listed_ids (m : servers) : list string := py_sorted lower (py_sorted (fun k => k) (map_to_list m).*1).

(** The specification of the service. *)
Definition mcp_spec (op : mcp_op) (now : Z) (s : store) : result mcp_error (mcp_answer * store) :=
  match op with
  | ListServers user =>
      u ← valid_id "user id" user;
      let m := default ∅ (s !! u) in
      Ok (AnsEntries (omap (fun id => entry_of id <$> m !! id) (listed_ids m)), s)
  | GetServer user id =>
      i ← valid_id "server id" id;
      u ← valid_id "user id" user;
      match default ∅ (s !! u) !! i with
      | None => raise McpNotFound
      | Some v => Ok (AnsDetail (detail_of i v), s)
      end
  | Upsert user id transport command args env url headers description =>
      i ← valid_id "server id" id;
      p ← normalize_transport_payload transport command args env url headers;
      u ← valid_id "user id" user;
      let m := default ∅ (s !! u) in
      let v := match m !! i with
               | None => mkServer true (normalize_optional_string description) (seconds now) (seconds now) p
               | Some old => mkServer (sv_enabled old) (normalize_optional_string description) (sv_created_at old) (seconds now) p
               end in
      Ok (AnsDetail (detail_of i v), <[u := <[i := v]> m]> s)
  | SetEnabled user id enabled =>
      i ← valid_id "server id" id;
      u ← valid_id "user id" user;
      let m := default ∅ (s !! u) in
      match m !! i with
      | None => raise McpNotFound
      | Some old =>
          if Bool.eqb (sv_enabled old) enabled then Ok (AnsDetail (detail_of i old), s)
          else
            let v := mkServer enabled (sv_description old) (sv_created_at old) (seconds now) (sv_payload old) in
            Ok (AnsDetail (detail_of i v), <[u := <[i := v]> m]> s)
      end
  | DeleteServer user id =>
      i ← valid_id "server id" id;
      u ← valid_id "user id" user;
      let m := default ∅ (s !! u) in
      match m !! i with
      | None => raise McpNotFound
      | Some _ => Ok (AnsDeleted, <[u := delete i m]> s)
      end
  end.

(** ** Texts that are already normal *)

Definition trimmed (s : string) : Prop := strip s = s /\ s <> "".
Definition keys_trimmed (m : gmap string string) : Prop := forall k v, m !! k = Some v -> trimmed k.

Definition payload_ok (p : transport_payload) : Prop :=
  match p with
  | StdioPayload c a e => trimmed c /\ Forall trimmed a /\ keys_trimmed e
  | UrlPayload t u h => (t = "http" \/ t = "sse") /\ trimmed u /\ keys_trimmed h
  end.
Definition instant_ok (t : Z) : Prop := (datetime_min <= t <= datetime_max)%Z /\ seconds t = t.
Record server_ok (v : server) : Prop := {
  so_created : instant_ok (sv_created_at v);
  so_updated : instant_ok (sv_updated_at v);
  so_payload : payload_ok (sv_payload v)
}.

Lemma trimmed_strip s : strip s <> "" -> trimmed (strip s).
Proof. intros N. split; [apply strip_idemp|done]. Qed.

Lemma optional_trimmed o s : normalize_optional_string o = Some s -> trimmed s.
Proof.
  destruct o as [x|]; [|done]. cbn. case_bool_decide; [done|]. intros [= <-]. by apply trimmed_strip.
Qed.

Lemma items_trimmed e l r : normalize_items e l = Ok r -> Forall trimmed r.
Proof.
  revert r. induction l as [|v l IH]; intros r; cbn; [by intros [= <-]|]. destruct v; try done.
  case_bool_decide as N; [done|]. destruct (normalize_items e l) as [r'|]; [|done]. intros [= <-].
  apply Forall_cons. split; [by apply trimmed_strip|by apply IH].
Qed.
Lemma list_trimmed v label r : normalize_string_list v label = Ok r -> Forall trimmed r.
Proof. destruct v; cbn; try done; [by intros [= <-]|apply items_trimmed]. Qed.

Lemma entries_trimmed e d m r : keys_trimmed m -> normalize_entries e d m = Ok r -> keys_trimmed r.
Proof.
  revert m. induction d as [|[k v] d IH]; intros m K; cbn; [by intros [= <-]|].
  case_bool_decide as N; [done|]. destruct v; try done. apply IH.
  intros k' v [[<- <-]|[_ H]]%lookup_insert_Some; [by apply trimmed_strip|by eapply K].
Qed.
Lemma dict_trimmed v label r : normalize_string_dict v label = Ok r -> keys_trimmed r.
Proof.
  assert (E : keys_trimmed ∅) by (intros k x; by rewrite lookup_empty).
  destruct v; cbn; try done; [by intros [= <-]|by apply entries_trimmed].
Qed.

Lemma payload_normal t c a e u h p : normalize_transport_payload t c a e u h = Ok p -> payload_ok p.
Proof.
  unfold normalize_transport_payload. case_bool_decide as T; [|done]. cbn [negb]. case_bool_decide as S.
  - destruct (normalize_optional_string c) as [c'|] eqn:C; [|done].
    destruct (normalize_string_list a "args") as [a'|] eqn:A; [|done].
    destruct (normalize_string_dict e "env") as [e'|] eqn:D; [|done]. intros [= <-].
    split; [by eapply optional_trimmed|]. split; [by eapply list_trimmed|by eapply dict_trimmed].
  - destruct (normalize_optional_string u) as [u'|] eqn:U; [|done].
    destruct (normalize_string_dict h "headers") as [h'|] eqn:D; [|done]. intros [= <-].
    split; [|split; [by eapply optional_trimmed|by eapply dict_trimmed]].
    unfold MCP_TRANSPORTS in T. rewrite !elem_of_cons in T. destruct T as [T|[T|[T|T]]]; [done|by left|by right|by apply not_elem_of_nil in T].
Qed.

(** ** Datetimes *)

Lemma seconds_mod t : (seconds t mod 1000000 = 0)%Z.
Proof.
  unfold seconds. rewrite Zminus_mod, Zmod_mod, Z.sub_diag. reflexivity.
Qed.
Lemma seconds_ok t : (datetime_min <= t <= datetime_max)%Z -> instant_ok (seconds t).
Proof.
  intros H. split.
  - unfold seconds, datetime_min, datetime_max in *.
    pose proof (Z.div_mod t 1000000 ltac:(lia)). pose proof (Z.mod_pos_bound t 1000000 ltac:(lia)). lia.
  - unfold seconds at 1. rewrite seconds_mod. lia.
Qed.

(** A text that starts with a digit and ends in one. *)
Lemma strip_digits a l b :
  isspace_char a = false -> isspace_char b = false -> strip_chars (a :: l ++ [b]) = a :: l ++ [b].
Proof.
  intros A B. unfold strip_chars. cbn [drop_while]. rewrite A. cbn [rev]. rewrite rev_app_distr. cbn [rev app].
  cbn [drop_while]. rewrite B. cbn [rev]. rewrite rev_app_distr. cbn [rev app]. by rewrite rev_involutive.
Qed.

Lemma iso_chars t : exists d l, (0 <= d < 10)%Z /\ str_chars (isoformat t) = digit_char d :: l ++ ["0"%char].
Proof.
  unfold isoformat. destruct (ord2ymd _) as [[y m] d]. rewrite str_chars_of_chars.
  exists (y / 10 / 10 / 10 mod 10)%Z. eexists. split; [apply Z.mod_pos_bound; lia|].
  change (fixed 4 y) with [digit_char (y / 10 / 10 / 10 mod 10); digit_char (y / 10 / 10 mod 10);
    digit_char (y / 10 mod 10); digit_char (y mod 10)]. cbn [app]. f_equal.
  change (str_chars "+00:00") with (str_chars "+00:0" ++ ["0"%char]).
  rewrite !app_comm_cons, !app_assoc. reflexivity.
Qed.

Lemma iso_normal t :
  strip (isoformat t) = isoformat t /\ isoformat t <> "" /\ replace_zulu (isoformat t) = isoformat t.
Proof.
  destruct (iso_chars t) as (d & l & D & E). split; [|split].
  - unfold strip. rewrite E, strip_digits; [|revert d D E|done].
    + by rewrite <- E, of_chars_str_chars.
    + intros d D _. revert d D. apply (digit_cases (fun d => isspace_char (digit_char d) = false)). vm_compute. reflexivity.
  - intros N. by rewrite N in E.
  - unfold replace_zulu. rewrite E. cbn [rev]. rewrite rev_app_distr. reflexivity.
Qed.

Lemma read_time other_iso t :
  instant_ok t -> parse_mcp_datetime other_iso (JStr (iso_datetime t)) = Ok t.
Proof.
  intros [B S]. unfold parse_mcp_datetime, iso_datetime. fold (seconds t). rewrite S.
  destruct (iso_normal t) as (-> & N & ->). rewrite bool_decide_eq_false_2 by done.
  rewrite iso_roundtrip by done. by rewrite !(proj2 (Z.leb_le _ _)) by lia.
Qed.

Lemma seconds_iso t : iso_datetime t = iso_datetime (seconds t).
Proof. unfold iso_datetime. fold (seconds t). fold (seconds (seconds t)). f_equal. unfold seconds at 2. rewrite seconds_mod. lia. Qed.

(** ** Records *)

Definition record_of (v : server) : dict :=
  server_record (sv_enabled v) (sv_description v) (sv_created_at v) (sv_updated_at v) (sv_payload v).

(** A dictionary that is encoded as the record of a server. *)
Definition represents (r : dict) (v : server) : Prop :=
  od_wf r /\ forall k, sort_keys <$> od_get k r = sort_keys <$> od_get k (record_of v).

Lemma record_wf v : od_wf (record_of v).
Proof. unfold record_of, server_record. destruct (sv_payload v); apply (bool_decide_unpack _); reflexivity. Qed.

Lemma record_represents v : represents (record_of v) v.
Proof. split; [apply record_wf|done]. Qed.

Lemma map_wf (m : gmap string string) : od_wf (map (fun e => (e.1, JStr e.2)) (map_to_list m)).
Proof.
  unfold od_wf, od_keys. replace (map _ _).*1 with (map_to_list m).*1; [apply NoDup_fst_map_to_list|].
  generalize (map_to_list m). intros l. induction l as [|e l IH]; [done|]. cbn. by f_equal.
Qed.

Lemma strings_wf l : json_wf (json_list l).
Proof. cbn. rewrite fold_and_Forall. apply Forall_map, Forall_true. done. Qed.
Lemma map_json_wf m : json_wf (json_map m).
Proof.
  split; [apply map_wf|]. rewrite (fold_and_Forall (fun e : string * json => json_wf e.2)). apply Forall_map, Forall_true. done.
Qed.
Lemma record_json_wf v : json_wf (JObj (record_of v)).
Proof.
  split; [apply record_wf|]. rewrite (fold_and_Forall (fun e : string * json => json_wf e.2)).
  unfold record_of, server_record.
  destruct (sv_payload v), (sv_description v); cbn [app]; repeat (apply Forall_cons; split);
    try done; first [apply strings_wf | apply map_json_wf].
Qed.

(** What is stored for a field: the encoding forgets the order of keys only. *)
Lemma sorted_scalar v w : scalar w = true -> sort_keys v = sort_keys w -> v = w.
Proof. destruct v, w; try done; by intros _ [= ->]. Qed.

Lemma sorted_strings v l : sort_keys v = sort_keys (json_list l) -> v = json_list l.
Proof.
  destruct v as [| | | | |k|]; try done. cbn [sort_keys json_list]. intros [= E]. unfold json_list. f_equal.
  rewrite map_map in E. revert k E. induction l as [|s l IH]; intros [|v k]; cbn; try done.
  intros [= E1 E2]. f_equal; [by apply (sorted_scalar v (JStr s))|by apply IH].
Qed.

Lemma sorted_map v m :
  sort_keys v = sort_keys (json_map m) -> exists d, v = JObj d /\ d ≡ₚ map (fun e => (e.1, JStr e.2)) (map_to_list m).
Proof.
  destruct v as [| | | | | |d]; try done. unfold json_map. cbn [sort_keys]. intros [= E]. exists d. split; [done|].
  assert (P : map (fun e => (e.1, sort_keys e.2)) d ≡ₚ
              map (fun e => (e.1, sort_keys e.2)) (map (fun e => (e.1, JStr e.2)) (map_to_list m)))
    by (rewrite <- (py_sorted_perm fst (map _ d)), E; apply py_sorted_perm).
  rewrite map_map in P. cbn [fst snd sort_keys] in P.
  assert (K : map (fun e => (e.1, sort_keys e.2)) d = d).
  { rewrite <- (map_id d) at 2. apply map_ext_in. intros [k w] H. cbn. f_equal.
    apply (in_map (fun e => (e.1, sort_keys e.2))) in H. apply list_elem_of_In in H. rewrite P in H.
    apply list_elem_of_In, in_map_iff in H as ([k' s] & [= _ Hs] & _). symmetry in Hs. by destruct w. }
  by rewrite K in P.
Qed.

Lemma items_normal e l : Forall trimmed l -> normalize_items e (map JStr l) = Ok l.
Proof.
  induction 1 as [|s l [S N] F IH]; [done|]. cbn. rewrite S, bool_decide_eq_false_2 by done. by rewrite IH.
Qed.

Lemma entries_normal e (l : list (string * string)) m :
  NoDup l.*1 -> Forall (fun x => trimmed x.1) l -> (forall k, k ∈ l.*1 -> m !! k = None) ->
  normalize_entries e (map (fun x => (x.1, JStr x.2)) l) m = Ok (list_to_map l ∪ m).
Proof.
  revert m. induction l as [|[k s] l IH]; intros m ND F D; [cbn; by rewrite (left_id_L ∅ (∪))|].
  cbn in ND |- *. inversion ND as [|? ? N ND']; subst. inversion F as [|? ? [S Ne] F']; subst. cbn in S, Ne.
  rewrite S, bool_decide_eq_false_2 by done. rewrite IH; [|done|done|].
  - f_equal. rewrite <- insert_union_l. symmetry. apply insert_union_r. by apply not_elem_of_list_to_map_1.
  - intros k' Hk. rewrite lookup_insert_ne; [apply D; by right|]. by intros ->.
Qed.

Lemma read_map label m v :
  keys_trimmed m -> sort_keys v = sort_keys (json_map m) -> normalize_string_dict v label = Ok m.
Proof.
  intros K E. destruct (sorted_map v m E) as (d & -> & P). cbn [normalize_string_dict].
  assert (X : exists l, d = map (fun e => (e.1, JStr e.2)) l /\ l ≡ₚ map_to_list m).
  { apply Permutation_map_inv in P as (l & -> & P). by exists l. }
  destruct X as (l & -> & Pl). assert (ND : NoDup l.*1) by (rewrite Pl; apply NoDup_fst_map_to_list).
  rewrite entries_normal; [|done| |intros; apply lookup_empty].
  - rewrite (right_id_L ∅ (∪)). f_equal. rewrite (list_to_map_proper l (map_to_list m)) by done. apply list_to_map_to_list.
  - rewrite Pl. apply Forall_forall. intros [k s] H%elem_of_map_to_list. by eapply K.
Qed.

Lemma transport_normal t : t ∈ MCP_TRANSPORTS -> lower (strip t) = t.
Proof.
  unfold MCP_TRANSPORTS. rewrite !elem_of_cons. intros [->|[->|[->|H]]]; [reflexivity..|by apply not_elem_of_nil in H].
Qed.

(** The field of a record that represents a server. *)
Lemma represented_field r v k w :
  represents r v -> od_get k (record_of v) = Some w -> scalar w = true -> field k r = w.
Proof.
  intros [_ R] E S. specialize (R k). rewrite E in R. unfold field. destruct (od_get k r) as [x|]; [|done].
  injection R as R. by apply sorted_scalar in R.
Qed.
Lemma represented_object r v k w :
  represents r v -> od_get k (record_of v) = Some w -> sort_keys (field k r) = sort_keys w.
Proof.
  intros [_ R] E. specialize (R k). rewrite E in R. unfold field. destruct (od_get k r) as [x|]; [|done]. by injection R.
Qed.

Section read.
Variable other_iso : string -> option datetime.

(** The record of a server is read as the server. *)
Lemma detail_represented id r v :
  server_ok v -> represents r v -> detail_from_record other_iso id r = Ok (detail_of id v).
Proof.
  intros [C U P] R. unfold detail_from_record.
  assert (E : od_get "enabled" r = Some (JBool (sv_enabled v))).
  { pose proof (represented_field r v "enabled" _ R eq_refl eq_refl) as F. unfold field in F. destruct (od_get "enabled" r); cbn in F; congruence. }
  rewrite E. cbn [mbind result_bind].
  rewrite (represented_field r v "transport" (JStr (transport_of (sv_payload v))) R) by reflexivity.
  rewrite (represented_field r v "description" match sv_description v with Some s => JStr s | None => JNull end R)
    by (try reflexivity; by destruct (sv_description v)).
  rewrite (represented_field r v "created_at" _ R eq_refl eq_refl), (represented_field r v "updated_at" _ R eq_refl eq_refl).
  rewrite !read_time by done.
  assert (T : transport_of (sv_payload v) ∈ MCP_TRANSPORTS).
  { destruct (sv_payload v); [left|]. destruct P as [[->| ->] _]; [right; left|right; right; left]. }
  rewrite transport_normal, bool_decide_eq_true_2 by done. cbn [mbind result_bind].
  replace (match match sv_description v with Some s => JStr s | None => JNull end with
           | JNull => Ok None | JStr s => Ok (Some s) | _ => raise invalid_servers_file end)
    with (Ok (sv_description v) : result mcp_error _) by (by destruct (sv_description v)).
  cbn [mbind result_bind]. unfold detail_of. destruct v as [en de cr up [c a e|t u h]]; cbn [sv_payload transport_of] in *.
  - destruct P as ([Cs Cn] & A & Ke). rewrite bool_decide_eq_true_2 by done.
    rewrite (represented_field r _ "command" (JStr c) R) by reflexivity. cbn [normalize_required_string].
    rewrite Cs, bool_decide_eq_false_2 by done. cbn [mbind result_bind].
    pose proof (represented_object r _ "args" (json_list a) R eq_refl) as Ha. apply sorted_strings in Ha. rewrite Ha.
    cbn [normalize_string_list json_list]. rewrite items_normal by done. cbn [mbind result_bind].
    rewrite (read_map "env" e) by (done || exact (represented_object r _ "env" (json_map e) R eq_refl)). done.
  - destruct P as (Ht & [Us Un] & Kh). rewrite bool_decide_eq_false_2 by (by destruct Ht; subst).
    rewrite (represented_field r _ "url" (JStr u) R) by reflexivity. cbn [normalize_required_string].
    rewrite Us, bool_decide_eq_false_2 by done. cbn [mbind result_bind].
    rewrite (read_map "headers" h) by (done || exact (represented_object r _ "headers" (json_map h) R eq_refl)). done.
Qed.
End read.

(** ** The servers of a file *)

(** The dictionary in memory holds the servers. *)
Record reads (l : list (string * dict)) (m : servers) : Prop := {
  rd_wf : od_wf l;
  rd_some : forall i v, m !! i = Some v -> exists r, od_get i l = Some r /\ represents r v;
  rd_none : forall i, m !! i = None -> od_get i l = None
}.
Definition servers_ok (m : servers) : Prop := forall i v, m !! i = Some v -> safe_segment i = true /\ server_ok v.

(** The payload of the file that holds the servers. *)
Definition servers_json (m : servers) : json :=
  JObj [("servers", JObj (map (fun e => (e.1, JObj (record_of e.2))) (map_to_list m)))].

Lemma reads_empty : reads [] ∅.
Proof. split; [apply od_wf_nil|by intros i v; rewrite lookup_empty|done]. Qed.

Lemma reads_set i r v l m : represents r v -> reads l m -> reads (od_set i r l) (<[i := v]> m).
Proof.
  intros R [W S N]. split; [by apply od_wf_set| |].
  - intros j w [[<- <-]|[Ne H]]%lookup_insert_Some; [exists r; by rewrite od_get_set_eq|].
    rewrite od_get_set_ne by done. by apply S.
  - intros j [H Ne]%lookup_insert_None. rewrite od_get_set_ne by done. by apply N.
Qed.

Lemma reads_pop i l m : reads l m -> reads (od_pop i l) (delete i m).
Proof.
  intros [W S N]. split; [by apply od_wf_pop| |].
  - intros j w [Ne H]%lookup_delete_Some. rewrite od_get_pop_ne by done. by apply S.
  - intros j [->|H]%lookup_delete_None; [by rewrite od_get_pop_eq|]. rewrite od_get_pop.
    destruct (decide (i = j)); [done|by apply N].
Qed.

Lemma od_get_objects (l : list (string * dict)) k : od_get k (map (fun e => (e.1, JObj e.2)) l) = JObj <$> od_get k l.
Proof. induction l as [|[a v] l IH]; [done|]. cbn. by destruct (decide (a = k)). Qed.
Lemma objects_keys (l : list (string * dict)) : od_keys (map (fun e => (e.1, JObj e.2)) l) = od_keys l.
Proof. unfold od_keys. induction l as [|[a v] l IH]; [done|]. cbn. by f_equal. Qed.

Lemma records_get (m : servers) k :
  od_get k (map (fun e => (e.1, JObj (record_of e.2))) (map_to_list m)) = (fun v => JObj (record_of v)) <$> m !! k.
Proof.
  assert (G : od_get k (map_to_list m) = m !! k).
  { apply option_eq. intros v. rewrite <- elem_of_map_to_list. split; [apply od_get_Some_elem|].
    apply od_elem_get, NoDup_fst_map_to_list. }
  rewrite <- G. generalize (map_to_list m). intros l. induction l as [|[a v] l IH]; [done|]. cbn. by destruct (decide (a = k)).
Qed.
Lemma records_keys (m : servers) : od_keys (map (fun e => (e.1, JObj (record_of e.2))) (map_to_list m)) = (map_to_list m).*1.
Proof. unfold od_keys. generalize (map_to_list m). intros l. induction l as [|[a v] l IH]; [done|]. cbn. by f_equal. Qed.
Lemma records_wf (m : servers) : od_wf (map (fun e => (e.1, JObj (record_of e.2))) (map_to_list m)).
Proof. unfold od_wf. rewrite records_keys. apply NoDup_fst_map_to_list. Qed.

Lemma servers_json_wf m : json_wf (servers_json m).
Proof.
  unfold servers_json. split; [by apply (bool_decide_unpack _)|]. cbn [fold_right snd]. split; [|done].
  split; [apply records_wf|]. rewrite (fold_and_Forall (fun e : string * json => json_wf e.2)). apply Forall_map, Forall_true.
  intros [i v]. apply record_json_wf.
Qed.

(** Both are encoded as the same text. *)
Lemma reads_encoded l m : reads l m -> sort_keys (servers_payload l) = sort_keys (servers_json m).
Proof.
  intros [W S N]. unfold servers_payload, servers_json.
  assert (E : forall v, sort_keys (JObj [("servers", v)]) = JObj [("servers", sort_keys v)]) by done. rewrite !E. do 3 f_equal.
  set (l' := py_sorted _ l). assert (P : l' ≡ₚ l) by apply py_sorted_perm.
  assert (W' : od_wf l') by (unfold od_wf, od_keys in *; by rewrite P).
  assert (G : forall k, od_get k l' = od_get k l).
  { intros k. apply option_eq. intros r. split; intros H%od_get_Some_elem; (apply od_elem_get; [done|]); [by rewrite <- P|by rewrite P]. }
  apply sort_keys_canonical; [unfold od_wf; by rewrite objects_keys|apply records_wf|].
  intros k. rewrite od_get_objects, records_get, G. destruct (m !! k) as [v|] eqn:M.
  - destruct (S k v M) as (r & -> & [Wr R]). cbn [fmap option_fmap option_map]. f_equal.
    by apply sort_keys_canonical; [|apply record_wf|].
  - by rewrite (N k M).
Qed.

Lemma segment_normal i : safe_segment i = true -> validate_segment i = Some i.
Proof.
  intros S. unfold validate_segment. assert (strip i = i) as ->; [|by rewrite S].
  unfold safe_segment in S. unfold strip. destruct (str_chars i) as [|c l] eqn:E.
  - cbn. rewrite <- (of_chars_str_chars i), E. done.
  - apply andb_true_iff in S as [A L].
    assert (Sp : forall x, segment_char x = true -> isspace_char x = false).
    { intros x. assert (K : implb (segment_char x) (negb (isspace_char x)) = true)
        by (destruct x as [[] [] [] [] [] [] [] []]; reflexivity).
      intros H. rewrite H in K. by destruct (isspace_char x). }
    assert (Sc : segment_char c = true) by (unfold segment_char; by rewrite A).
    rewrite <- (of_chars_str_chars i), E. f_equal. destruct l as [|b l _] using rev_ind.
    + unfold strip_chars. cbn. rewrite (Sp c Sc). cbn. by rewrite (Sp c Sc).
    + rewrite forallb_app in L. apply andb_true_iff in L as [_ L]. cbn in L. rewrite andb_true_r in L.
      by rewrite strip_digits by auto.
Qed.

(** Reading the servers of a parsed file. *)
Lemma normalize_servers_spec (d : dict) acc :
  Forall (fun e => safe_segment e.1 = true /\ exists r, e.2 = JObj r) d -> od_wf d ->
  (forall k, k ∈ od_keys d -> od_get k acc = None) ->
  exists l, normalize_servers d acc = Ok (acc ++ l) /\ od_keys l = od_keys d /\
    forall k, od_get k d = JObj <$> od_get k l.
Proof.
  revert acc. induction d as [|[i v] d IH]; intros acc F W D.
  - exists []. by rewrite app_nil_r.
  - inversion F as [|? ? [S [r E]] F']; subst. cbn in S, E. subst v. inversion W as [|? ? N W']; subst.
    cbn [normalize_servers]. unfold servers_error. rewrite (segment_normal i S). cbn [mbind result_bind].
    assert (Na : i ∉ od_keys acc) by (apply od_get_None, D; left).
    assert (Set_ : od_set i r acc = acc ++ [(i, r)]).
    { clear -Na. unfold od_keys in Na. induction acc as [|[k x] acc IH]; [done|]. cbn in *.
      rewrite decide_False by set_solver. f_equal. apply IH. set_solver. }
    rewrite Set_. destruct (IH (acc ++ [(i, r)]) F' W') as (l & -> & K & G).
    { intros k Hk. apply od_get_None. unfold od_keys. rewrite fmap_app, elem_of_app. intros [H|H%list_elem_of_singleton].
      - apply (proj1 (od_get_None k acc)); [apply D; by right|done].
      - cbn in H. subst k. apply N, Hk. }
    exists ((i, r) :: l). split; [by rewrite <- app_assoc|]. split; [unfold od_keys in *; cbn; by f_equal|].
    intros k. cbn. destruct (decide (i = k)); [done|apply G].
Qed.

Lemma parsed_servers m :
  servers_ok m ->
  exists d, sort_keys (servers_json m) = JObj d /\
    exists dict, od_get "servers" d = Some (JObj dict) /\
      exists l, normalize_servers dict [] = Ok l /\ reads l m /\ od_keys l = py_sorted (fun k => k) (map_to_list m).*1.
Proof.
  intros Ok_. unfold servers_json. set (recs := map _ (map_to_list m)).
  exists [("servers", sort_keys (JObj recs))]. split; [done|].
  destruct (sort_keys_obj recs (records_wf m)) as (d & E & W & G & K). rewrite E. exists d. split; [done|].
  assert (F : Forall (fun e : string * json => safe_segment e.1 = true /\ exists r, e.2 = JObj r) d).
  { apply Forall_forall. intros [i v] H. apply (od_elem_get i v d W) in H. rewrite G in H. unfold recs in H. rewrite records_get in H.
    destruct (m !! i) as [w|] eqn:M; [|done]. cbn in H. injection H as <-. split; [by apply (Ok_ i w M)|by eexists]. }
  destruct (normalize_servers_spec d [] F W) as (l & -> & Kl & Gl); [done|]. exists l. split; [done|]. cbn [app].
  assert (Wl : od_wf l) by (unfold od_wf; by rewrite Kl). split.
  - split; [done| |].
    + intros i v M. specialize (Gl i). rewrite G in Gl. unfold recs in Gl. rewrite records_get, M in Gl.
      destruct (od_get i l) as [r|]; [|done]. exists r. split; [done|].
      destruct (sort_keys_obj (record_of v) (record_wf v)) as (d' & E' & W' & G' & _).
      assert (r = d') as ->.
      { change (Some (sort_keys (JObj (record_of v))) = Some (JObj r)) in Gl. rewrite E' in Gl. congruence. }
      split; [done|]. intros k. rewrite G'. destruct (od_get k (record_of v)) as [w|] eqn:Ew; [|done].
      cbn [fmap option_fmap option_map]. f_equal. apply sort_keys_idemp.
      pose proof (record_json_wf v) as [_ J]. rewrite (fold_and_Forall (fun e : string * json => json_wf e.2)) in J.
      rewrite Forall_forall in J. apply (J (k, w)). by apply od_get_Some_elem.
    + intros i M. specialize (Gl i). rewrite G in Gl. unfold recs in Gl. rewrite records_get, M in Gl.
      by destruct (od_get i l).
  - rewrite Kl, K. unfold recs. by rewrite records_keys.
Qed.

(** ** The list in the order of the lowered ids *)

Lemma sorted_fst {A} (l : list (string * A)) : (py_sorted (fun e => lower e.1) l).*1 = py_sorted lower l.*1.
Proof.
  assert (I : forall (e : string * A) m,
    (insert_by (key_leb (fun e => lower e.1)) e m).*1 = insert_by (key_leb lower) e.1 m.*1).
  { intros e m. induction m as [|x m IH]; [done|]. cbn. change (key_leb (fun e : string * A => lower e.1) e x) with (key_leb lower e.1 x.1).
    destruct (key_leb lower e.1 x.1); [done|]. cbn. by f_equal. }
  unfold py_sorted. induction l as [|e l IH]; [done|]. cbn. by rewrite I, IH.
Qed.

Section store.
Variable other_iso : string -> option datetime.
Variable float_repr : string -> string.
Variable resolve : path -> path.
Variable root : path.
Variable max_file_size_bytes : Z.

Lemma entries_read (m : servers) (l : list (string * dict)) :
  servers_ok m -> (forall i r, (i, r) ∈ l -> exists v, m !! i = Some v /\ represents r v) ->
  entries other_iso l = Ok (omap (fun id => entry_of id <$> m !! id) l.*1).
Proof.
  intros K. induction l as [|[i r] l IH]; intros H; [done|].
  destruct (H i r) as (v & M & R); [left|]. cbn [entries].
  rewrite (detail_represented other_iso i r v) by (done || by apply (K i)). cbn [mbind result_bind].
  rewrite IH by (intros; apply H; by right). cbn [mbind result_bind]. cbn. rewrite M. cbn. do 2 f_equal.
  unfold entry_of, detail_of. by destruct (sv_payload v).
Qed.

(** What a call does to the files. *)
Definition mcp_run (op : mcp_op) (now : Z) (fs : files) : result mcp_error (mcp_answer * files) :=
  match op with
  | ListServers user =>
      l ← list_user_servers other_iso resolve root max_file_size_bytes user fs; Ok (AnsEntries l, fs)
  | GetServer user id =>
      d ← get_user_server other_iso resolve root max_file_size_bytes user id fs; Ok (AnsDetail d, fs)
  | Upsert user id t c a e u h de =>
      r ← upsert_user_server other_iso float_repr resolve root max_file_size_bytes user id t c a e u h de now fs;
      Ok (AnsDetail r.1, r.2)
  | SetEnabled user id b =>
      r ← set_user_server_enabled other_iso float_repr resolve root max_file_size_bytes user id b now fs;
      Ok (AnsDetail r.1, r.2)
  | DeleteServer user id =>
      fs' ← delete_user_server float_repr resolve root max_file_size_bytes user id fs; Ok (AnsDeleted, fs')
  end.

Definition mcp_text (m : servers) : string := json_dumps_sorted float_repr (servers_json m) +:+ LF.
Definition mcp_file (u : string) : path := (root ++ [u]) ++ ["servers.json"].

(** The directory holds the store: a user without a file has no server. *)
Record mcp_holds (fs : files) (s : store) : Prop := {
  mh_file : forall u, safe_segment u = true -> fs !! mcp_file u = mcp_text <$> s !! u;
  mh_ok : forall u m, s !! u = Some m -> servers_ok m;
  mh_size : within_limit max_file_size_bytes fs
}.

Definition mcp_implements (op : mcp_op) (now : Z) (fs : files) (s : store) : Prop :=
  match mcp_run op now fs with
  | Ok (ans, fs') =>
      within_limit max_file_size_bytes fs' -> exists s', mcp_spec op now s = Ok (ans, s') /\ mcp_holds fs' s'
  | Err e => e = McpValueError "mcp servers file exceeds size limit" \/ mcp_spec op now s = raise e
  end.

(** No symbolic links below the directory. *)
Hypothesis no_links : forall q, resolve (root ++ q) = root ++ q.

Lemma servers_file_spec user :
  servers_file resolve root user = (u ← valid_id "user id" user; Ok (mcp_file u)).
Proof.
  unfold servers_file, mcp_user_root, valid_id. destruct (validate_segment user) as [u|]; [|done].
  cbn [mbind result_bind]. unfold validate_path. cbn [existsb].
  assert (R : resolve root = root) by (rewrite <- (app_nil_r root) at 1; rewrite no_links; by rewrite app_nil_r).
  rewrite !no_links, R, path_prefix_app. cbn [orb mbind result_bind].
  rewrite <- app_assoc, !no_links, app_assoc, path_prefix_app. done.
Qed.

Lemma valid_id_safe label v u : valid_id label v = Ok u -> safe_segment u = true.
Proof.
  unfold valid_id. destruct (validate_segment v) eqn:E; [|done]. intros [= <-]. by apply validate_segment_safe in E as [_ ?].
Qed.

(** Reading the file of a user. *)
Lemma read_held_servers user u fs s :
  mcp_holds fs s -> valid_id "user id" user = Ok u ->
  let m := default ∅ (s !! u) in
  exists l, read_user_servers resolve root max_file_size_bytes user fs = Ok l /\ reads l m /\
    od_keys l = py_sorted (fun k => k) (map_to_list m).*1.
Proof.
  intros H U m. unfold read_user_servers. rewrite servers_file_spec, U. cbn [mbind result_bind].
  pose proof (mh_file _ _ H u (valid_id_safe _ _ _ U)) as F. subst m.
  destruct (s !! u) as [m|] eqn:M; cbn [fmap option_fmap option_map] in F; rewrite F; cbn [default from_option id].
  - pose proof (mh_size _ _ H _ _ F) as L. rewrite (proj2 (Z.ltb_ge _ _)) by done.
    unfold mcp_text. rewrite (dumps_loads float_repr _ (servers_json_wf m)).
    destruct (parsed_servers m (mh_ok _ _ H u m M)) as (d & -> & dict & -> & l & -> & R). by exists l.
  - exists []. split; [done|]. split; [apply reads_empty|]. by rewrite map_to_list_empty.
Qed.

(** Writing the servers of a user: the files hold the changed store. *)
Lemma write_held user u l m fs s :
  mcp_holds fs s -> valid_id "user id" user = Ok u -> reads l m -> servers_ok m ->
  match write_user_servers float_repr resolve root max_file_size_bytes user l fs with
  | Ok fs' => within_limit max_file_size_bytes fs' -> mcp_holds fs' (<[u := m]> s)
  | Err e => e = McpValueError "mcp servers file exceeds size limit"
  end.
Proof.
  intros [F K _] U R M. unfold write_user_servers. rewrite servers_file_spec, U. cbn [mbind result_bind].
  destruct (_ <? _)%Z; [done|]. intros L. unfold json_dumps_sorted in L |- *. rewrite (reads_encoded l m R) in L |- *.
  split; [| |done].
  - intros v V. destruct (decide (u = v)) as [<-|N]; [by rewrite !lookup_insert_eq|].
    rewrite !lookup_insert_ne; [by apply F|done|]. unfold mcp_file. rewrite <- !app_assoc. intros E%app_inv_head. by injection E.
  - intros v m' [[<- <-]|[_ H]]%lookup_insert_Some; [done|by eapply K].
Qed.

Lemma held_ok fs s u : mcp_holds fs s -> servers_ok (default ∅ (s !! u)).
Proof.
  intros H. destruct (s !! u) as [m|] eqn:M; [by apply (mh_ok _ _ H u)|]. intros i v. cbn. by rewrite lookup_empty.
Qed.

Lemma servers_ok_insert m i v : servers_ok m -> safe_segment i = true -> server_ok v -> servers_ok (<[i := v]> m).
Proof. intros K S V j w [[<- <-]|[_ H]]%lookup_insert_Some; [done|by apply K]. Qed.
Lemma servers_ok_delete m i : servers_ok m -> servers_ok (delete i m).
Proof. intros K j w [_ H]%lookup_delete_Some. by apply K. Qed.

Lemma servers_error_valid id : servers_error id = valid_id "server id" id.
Proof. done. Qed.

(** The record of a server in the list that is read. *)
Lemma reads_record l m i v : reads l m -> servers_ok m -> m !! i = Some v ->
  exists r, od_get i l = Some r /\ represents r v /\ detail_from_record other_iso i r = Ok (detail_of i v).
Proof.
  intros R K M. destruct (rd_some _ _ R i v M) as (r & G & P). exists r. split; [done|]. split; [done|].
  apply detail_represented; [by apply (K i)|done].
Qed.

Lemma read_invalid user e fs :
  valid_id "user id" user = Err e -> read_user_servers resolve root max_file_size_bytes user fs = Err e.
Proof. intros U. unfold read_user_servers. by rewrite servers_file_spec, U. Qed.

(** ** Each operation implements its specification *)

Lemma list_implements user now fs s : mcp_holds fs s -> mcp_implements (ListServers user) now fs s.
Proof.
  intros H. unfold mcp_implements, mcp_run, list_user_servers. cbn [mcp_spec].
  destruct (valid_id "user id" user) as [u|e] eqn:U; [|rewrite (read_invalid _ _ _ U); by right].
  destruct (read_held_servers user u fs s H U) as (l & -> & R & Ks). cbn [mbind result_bind].
  rewrite (entries_read (default ∅ (s !! u))).
  - cbn [mbind result_bind]. intros _. exists s. split; [|done]. do 3 f_equal. unfold listed_ids. rewrite sorted_fst. by rewrite <- Ks.
  - by eapply held_ok.
  - intros i r E%py_sorted_elem. apply (od_elem_get i r l (rd_wf _ _ R)) in E.
    destruct (default ∅ (s !! u) !! i) as [v|] eqn:M; [|by rewrite (rd_none _ _ R i M) in E].
    exists v. split; [done|]. destruct (rd_some _ _ R i v M) as (r' & G & P). congruence.
Qed.

Lemma get_implements user id now fs s : mcp_holds fs s -> mcp_implements (GetServer user id) now fs s.
Proof.
  intros H. unfold mcp_implements, mcp_run, get_user_server. cbn [mcp_spec]. rewrite servers_error_valid.
  destruct (valid_id "server id" id) as [i|e]; cbn [mbind result_bind]; [|by right].
  destruct (valid_id "user id" user) as [u|e] eqn:U; [|rewrite (read_invalid _ _ _ U); by right].
  destruct (read_held_servers user u fs s H U) as (l & -> & R & _). cbn [mbind result_bind].
  destruct (default ∅ (s !! u) !! i) as [v|] eqn:M.
  - destruct (reads_record _ _ i v R (held_ok _ _ u H) M) as (r & -> & _ & ->). cbn [mbind result_bind]. intros _. by exists s.
  - rewrite (rd_none _ _ R i M). by right.
Qed.

Lemma delete_implements user id now fs s : mcp_holds fs s -> mcp_implements (DeleteServer user id) now fs s.
Proof.
  intros H. unfold mcp_implements, mcp_run, delete_user_server. cbn [mcp_spec]. rewrite servers_error_valid.
  destruct (valid_id "server id" id) as [i|e]; cbn [mbind result_bind]; [|by right].
  destruct (valid_id "user id" user) as [u|e] eqn:U; [|rewrite (read_invalid _ _ _ U); by right].
  destruct (read_held_servers user u fs s H U) as (l & -> & R & _). cbn [mbind result_bind].
  destruct (default ∅ (s !! u) !! i) as [v|] eqn:M; [|rewrite (rd_none _ _ R i M); by right].
  destruct (reads_record _ _ i v R (held_ok _ _ u H) M) as (r & -> & _ & _).
  pose proof (write_held user u _ _ fs s H U (reads_pop i _ _ R) (servers_ok_delete _ i (held_ok _ _ u H))) as W.
  destruct (write_user_servers _ _ _ _ _ _ _) as [fs'|e]; cbn [mbind result_bind]; [|by left].
  intros L. eexists. split; [done|by apply W].
Qed.

(** A record in which the enabled flag and the time of the update are replaced. *)
Lemma represents_enabled r v b now :
  represents r v ->
  represents (od_set "updated_at" (JStr (iso_datetime now)) (od_set "enabled" (JBool b) r))
    (mkServer b (sv_description v) (sv_created_at v) (seconds now) (sv_payload v)).
Proof.
  intros [W R]. split; [by do 2 apply od_wf_set|]. intros k. rewrite seconds_iso.
  destruct (decide ("updated_at" = k)) as [<-|N1]; [by rewrite od_get_set_eq; destruct (sv_payload v)|].
  rewrite od_get_set_ne by done.
  destruct (decide ("enabled" = k)) as [<-|N2]; [by rewrite od_get_set_eq; destruct (sv_payload v)|].
  rewrite od_get_set_ne, R by done. unfold record_of, server_record. cbn [sv_enabled sv_description sv_created_at sv_updated_at sv_payload app].
  cbn [od_get]. by destruct (decide ("enabled" = k)), (decide ("updated_at" = k)).
Qed.

Section updates.
Variable now : Z.
Hypothesis now_ok : (datetime_min <= now <= datetime_max)%Z.

Lemma set_enabled_implements user id b fs s : mcp_holds fs s -> mcp_implements (SetEnabled user id b) now fs s.
Proof.
  intros H. unfold mcp_implements, mcp_run, set_user_server_enabled. cbn [mcp_spec]. rewrite servers_error_valid.
  destruct (valid_id "server id" id) as [i|e] eqn:I; cbn [mbind result_bind]; [|by right].
  destruct (valid_id "user id" user) as [u|e] eqn:U; [|rewrite (read_invalid _ _ _ U); by right].
  destruct (read_held_servers user u fs s H U) as (l & -> & R & _). cbn [mbind result_bind].
  set (m := default ∅ (s !! u)) in *. pose proof (held_ok _ _ u H : servers_ok m) as K.
  destruct (m !! i) as [v|] eqn:M; [|rewrite (rd_none _ _ R i M); by right].
  destruct (reads_record _ _ i v R K M) as (r & -> & P & ->). cbn [mbind result_bind].
  replace (md_enabled (detail_of i v)) with (sv_enabled v) by (unfold detail_of; by destruct (sv_payload v)).
  destruct (Bool.eqb (sv_enabled v) b); cbn [mbind result_bind fst snd]; [intros _; by exists s|].
  apply (represents_enabled r v b now) in P. set (w := mkServer b _ _ _ _) in *. set (r' := od_set _ _ _) in *.
  assert (Sw : server_ok w) by (destruct (K i v M) as [_ [C _ Pl]]; split; [done|by apply seconds_ok|done]).
  assert (Kw : servers_ok (<[i := w]> m)) by (apply servers_ok_insert; [done|by apply (K i v)|done]).
  pose proof (write_held user u _ _ fs s H U (reads_set i r' w _ _ P R) Kw) as W.
  destruct (write_user_servers _ _ _ _ _ _ _) as [fs'|e]; cbn [mbind result_bind]; [|by left].
  rewrite (detail_represented other_iso i r' w Sw P). cbn [mbind result_bind fst snd].
  intros L. eexists. split; [done|by apply W].
Qed.

Lemma upsert_implements user id t c a e url h de fs s :
  mcp_holds fs s -> mcp_implements (Upsert user id t c a e url h de) now fs s.
Proof.
  intros H. unfold mcp_implements, mcp_run, upsert_user_server. cbn [mcp_spec]. rewrite servers_error_valid.
  destruct (valid_id "server id" id) as [i|er] eqn:I; cbn [mbind result_bind]; [|by right].
  destruct (normalize_transport_payload t c a e url h) as [p|er] eqn:P; cbn [mbind result_bind]; [|by right].
  destruct (valid_id "user id" user) as [u|er] eqn:U; [|rewrite (read_invalid _ _ _ U); by right].
  destruct (read_held_servers user u fs s H U) as (l & -> & R & _). cbn [mbind result_bind].
  set (m := default ∅ (s !! u)) in *. pose proof (held_ok _ _ u H : servers_ok m) as K.
  apply payload_normal in P. set (de' := normalize_optional_string de).
  set (w := match m !! i with None => _ | Some _ => _ end).
  assert (Old : exists en cr, (match od_get i l with
       | None => Ok (true, now)
       | Some record => d ← detail_from_record other_iso i record; Ok (md_enabled d, md_created_at d)
       end : result mcp_error _) = Ok (en, cr) /\ w = mkServer en de' (seconds cr) (seconds now) p /\ server_ok w).
  { subst w. destruct (m !! i) as [v|] eqn:M.
    - destruct (reads_record _ _ i v R K M) as (r & -> & _ & ->). cbn [mbind result_bind].
      destruct (K i v M) as [_ [Cv _ _]]. exists (sv_enabled v), (sv_created_at v).
      split; [unfold detail_of; by destruct (sv_payload v)|]. destruct Cv as [Cb Cs]. rewrite Cs.
      split; [done|]. split; [done|by apply seconds_ok|done].
    - rewrite (rd_none _ _ R i M). exists true, now. split; [done|]. split; [done|].
      split; [by apply seconds_ok|by apply seconds_ok|done]. }
  destruct Old as (en & cr & -> & Ew & Sw). cbn [mbind result_bind fst snd].
  assert (Er : server_record en de' cr now p = record_of w)
    by (rewrite Ew; unfold record_of, server_record; cbn; by rewrite (seconds_iso cr), (seconds_iso now)).
  rewrite Er. assert (Kw : servers_ok (<[i := w]> m)) by (apply servers_ok_insert; [done|by eapply valid_id_safe|done]).
  pose proof (write_held user u _ _ fs s H U (reads_set i _ w _ _ (record_represents w) R) Kw) as W.
  destruct (write_user_servers _ _ _ _ _ _ _) as [fs'|er]; cbn [mbind result_bind]; [|by left].
  rewrite (detail_represented other_iso i _ w Sw (record_represents w)). cbn [mbind result_bind fst snd].
  intros L. eexists. split; [done|by apply W].
Qed.

Lemma mcp_refines op fs s : mcp_holds fs s -> mcp_implements op now fs s.
Proof.
  intros H. destruct op.
  - by apply list_implements.
  - by apply get_implements.
  - by apply upsert_implements.
  - by apply set_enabled_implements.
  - by apply delete_implements.
Qed.

(** C8: The directory of server files implements a map of servers for each user. When
    the files hold the store, listing, reading, inserting or replacing, enabling or
    disabling and deleting a server answer as the specification does and leave files
    that hold the specified store (as long as no file is beyond the size limit), or
    they raise the error the specification raises; the one further error is that of
    the size limit. *)
Theorem mcp_refine op fs s : mcp_holds fs s -> mcp_implements op now fs s.
Proof. apply mcp_refines. Qed.
End updates.

(** A fresh directory holds the empty store. *)
Lemma mcp_holds_empty : mcp_holds ∅ ∅.
Proof. split; [done| |done]. intros u m. by rewrite lookup_empty. Qed.
End store.

Lemma mcp_refine_witness :
  mcp_implements (fun _ => None) (fun s => s) (fun p => p) sx_root 1000
    (Upsert "alice" "search" "HTTP" None JNull JNull (Some "http://x") JNull (Some "docs")) 1500000 ∅ ∅.
Proof.
  apply (mcp_refine (fun _ => None) (fun s => s) (fun p => p) sx_root 1000).
  - intros q. reflexivity.
  - split; apply Z.leb_le; reflexivity.
  - apply mcp_holds_empty.
Defined.

(** The limit is checked without the line feed that is written: an insertion of exactly
    the limit succeeds, and from then on every call of the user raises. *)
Example full_size_servers_are_lost :
  let upsert limit := upsert_user_server (fun _ => None) (fun s => s) (fun p => p) sx_root limit "alice" "search" "http"
    None JNull JNull (Some "http://x") JNull None in
  let limit := match upsert 1000%Z 1000000%Z ∅ with Ok (_, fs) => default 0%Z (st_size <$> fs !! mcp_file sx_root "alice") - 1 | _ => 0 end%Z in
  (x ← upsert limit 1000000%Z ∅; Ok (list_user_servers (fun _ => None) (fun p => p) sx_root limit "alice" x.2)) =
  Ok (raise (McpValueError "mcp servers file exceeds size limit")).
Proof. vm_compute. reflexivity. Qed.
