(* ===== verification/RunnerProtocol.v ===== *)
(** * The protocol between the gateway and the agent runner

    [container/agent-runner/src/runner.py] frames one JSON envelope on its standard
    output, [services/execution_backends.py] takes it out again and turns it into the
    result of the run. pydantic's serialization is a parameter. *)


From stdpp Require Import base list option strings.
From Stdlib Require Import ZArith NArith Lia Ascii.
From S2P Require Import Prelude PyStr PyInt PyTime PySort PyDict PyJson PyJsonProps.

Definition NL : ascii := ascii_of_N 10.
Definition OUTPUT_START_MARKER : string := "---PORTEX_OUTPUT_START---".
Definition OUTPUT_END_MARKER : string := "---PORTEX_OUTPUT_END---".

(** ** The runner *)

Inductive OutputStatus := OutSuccess | OutError | OutTimeout.
Record ContainerOutput := mkOutput {
  co_status : OutputStatus;
  co_result : option string;
  co_error : option string
}.

(** What the agent's run gives [run_agent]: a final output, already a text, or an exception. *)
Definition run_agent (run_sync : string -> result string (option string)) (prompt : string) : ContainerOutput :=
  match run_sync prompt with
  | Err exc => mkOutput OutError None (Some exc)
  | Ok final_output => mkOutput OutSuccess (Some (default "" final_output)) None
  end.

Section runner.
(** [payload.model_dump_json(ensure_ascii=False)]. *)
Variable model_dump_json : ContainerOutput -> string.

(** [write_output] with [framed=True]. *)
Definition write_output (o : ContainerOutput) : string :=
  of_chars (str_chars OUTPUT_START_MARKER ++ [NL] ++ str_chars (model_dump_json o) ++ [NL] ++
            str_chars OUTPUT_END_MARKER ++ [NL]).
End runner.

(** ** The gateway *)

(** [text.rfind(pat)]. *)
Fixpoint rfind_from (pat l : list ascii) (i : nat) : option nat :=
  match l with
  | [] => if chars_prefix pat [] then Some i else None
  | _ :: l' =>
      match rfind_from pat l' (S i) with
      | Some k => Some k
      | None => if chars_prefix pat l then Some i else None
      end
  end.
Definition py_rfind (pat text : list ascii) : option nat := rfind_from pat text 0.

(** [_extract_runner_output]. *)
Definition extract_runner_output (stdout : string) : option string :=
  let text := str_chars stdout in
  let s := str_chars OUTPUT_START_MARKER in
  let e := str_chars OUTPUT_END_MARKER in
  match py_rfind s text, py_find e text 0 with
  | Some start, Some _ =>
      match py_find e text start with
      | None => None
      | Some stop => Some (of_chars (strip_chars (slice (start + length s) stop text)))
      end
  | _, _ => let stripped := strip stdout in if bool_decide (stripped = "") then None else Some stripped
  end.

(** [not value] of a float, from its literal: its value rounds to zero when it is at
    most half of the least subnormal number, 2^-1075. *)
Definition float_zero (literal : string) : bool :=
  let l := str_chars literal in
  let l := match l with c :: l' => if bool_decide (c = "-"%char) then l' else l | [] => l end in
  let '(int, l) := span_digits l in
  let '(frac, l) := match l with
                    | c :: l' => if bool_decide (c = "."%char) then span_digits l' else ([], l)
                    | [] => ([], l)
                    end in
  let exponent := match l with
                  | _ :: s :: l' => if bool_decide (s = "-"%char) then (- default 0 (number l'))%Z
                                    else if bool_decide (s = "+"%char) then default 0%Z (number l')
                                    else default 0%Z (number (s :: l'))
                  | _ => 0%Z
                  end in
  let e := (exponent - Z.of_nat (length frac))%Z in
  match int with
  | [] => false
  | _ => let m := default 0%Z (number (int ++ frac)) in
         (m =? 0)%Z || ((e <? 0)%Z && (m * 2 ^ 1075 <=? 10 ^ (- e))%Z)
  end.

Definition truthy (v : json) : bool :=
  match v with
  | JNull => false
  | JBool b => b
  | JInt n => negb (n =? 0)%Z
  | JFloat f => negb (float_zero f)
  | JStr s => negb (bool_decide (s = ""))
  | JArr l => match l with [] => false | _ => true end
  | JObj d => match d with [] => false | _ => true end
  end.

(** The dictionary of a result; every one has the return code. *)
Inductive runner_result :=
| RCompleted (final_output : json) (returncode : Z)
| RTimeout (error : json) (returncode : Z)
| RFailed (error : string) (returncode : Z).

(** The [ValueError] of an integer of more than 4300 digits, which is not a
    [JSONDecodeError]; a text outside the model. *)
Inductive parse_error := ParseValueError | ParseNotModelled.

Definition get (k : string) (d : list (string * json)) : json := default JNull (od_get k d).

(** [parse_runner_output]. *)
Definition parse_runner_output (stdout stderr : string) (returncode : Z) (source : string) :
    result parse_error runner_result :=
  match extract_runner_output stdout with
  | None =>
      let err := strip stderr in
      Ok (RFailed (if bool_decide (err = "") then source +:+ " runner did not produce parseable output" else err)
            returncode)
  | Some raw_payload =>
      match json_loads raw_payload with
      | Err JValueError => raise ParseValueError
      | Err JOutOfRange => raise ParseNotModelled
      | Err JDecodeError => Ok (RFailed (source +:+ " runner produced invalid JSON output") returncode)
      | Ok (JObj payload) =>
          match get "status" payload with
          | JStr "success" => Ok (RCompleted (get "result" payload) returncode)
          | JStr "timeout" => Ok (RTimeout (get "error" payload) returncode)
          | _ =>
              let e := if truthy (get "error" payload) then get "error" payload
                       else if truthy (get "result" payload) then get "result" payload
                       else JStr (strip stderr) in
              Ok (RFailed (match e with
                           | JStr s => if bool_decide (s = "") then source +:+ " runner failed" else s
                           | _ => source +:+ " runner failed"
                           end) returncode)
          end
      | Ok _ => Ok (RFailed (source +:+ " runner returned non-object output") returncode)
      end
  end.

(** * Properties of the runner protocol *)


(** ** Lines: a pattern without a line feed is found within one line *)

Lemma prefix_line pat a b :
  NL ∉ pat -> chars_prefix pat (a ++ NL :: b) = chars_prefix pat a.
Proof.
  revert a. induction pat as [|c pat IH]; intros a N; [by destruct a|].
  rewrite not_elem_of_cons in N. destruct N as [Nc N]. destruct a as [|x a]; simpl.
  - by rewrite bool_decide_eq_false_2 by congruence.
  - by rewrite IH.
Qed.

Lemma find_line pat a b i :
  NL ∉ pat ->
  find_from pat (a ++ NL :: b) i =
    match find_from pat a i with Some k => Some k | None => find_from pat b (i + length a + 1) end.
Proof.
  intros N. revert i. induction a as [|x a IH]; intros i; cbn [find_from app].
  - rewrite (prefix_line pat [] b N : chars_prefix pat (NL :: b) = _). destruct (chars_prefix pat []); [done|]. f_equal. simpl. lia.
  - rewrite (prefix_line pat (x :: a) b N : chars_prefix pat (x :: a ++ NL :: b) = _).
    destruct (chars_prefix pat (x :: a)); [done|]. rewrite IH. destruct (find_from pat a (S i)); [done|].
    f_equal. simpl. lia.
Qed.

Lemma rfind_line pat a b i :
  NL ∉ pat ->
  rfind_from pat (a ++ NL :: b) i =
    match rfind_from pat b (i + length a + 1) with Some k => Some k | None => rfind_from pat a i end.
Proof.
  intros N. revert i. induction a as [|x a IH]; intros i; cbn [rfind_from app].
  - replace (i + length [] + 1) with (S i) by (simpl; lia). by rewrite (prefix_line pat [] b N : chars_prefix pat (NL :: b) = _).
  - rewrite IH. replace (S i + length a + 1) with (i + length (x :: a) + 1) by (simpl; lia).
    destruct (rfind_from pat b _); [done|]. destruct (rfind_from pat a _); [done|].
    by rewrite (prefix_line pat (x :: a) b N : chars_prefix pat (x :: a ++ NL :: b) = _).
Qed.

Lemma prefix_short pat l : length l < length pat -> chars_prefix pat l = false.
Proof. intros H. destruct (chars_prefix pat l) eqn:E; [|done]. apply chars_prefix_length in E. lia. Qed.

Lemma rfind_short pat l i : length l < length pat -> rfind_from pat l i = None.
Proof.
  revert i. induction l as [|c l IH]; intros i H; cbn [rfind_from].
  - by rewrite prefix_short.
  - rewrite IH by (simpl in H; lia). by rewrite prefix_short.
Qed.

(** The last occurrence in a text that ends with the pattern. *)
Lemma rfind_end pat a i : pat <> [] -> rfind_from pat (a ++ pat) i = Some (i + length a).
Proof.
  intros N. revert i. induction a as [|x a IH]; intros i; cbn [app].
  - destruct pat as [|c pat]; [done|]. cbn [rfind_from]. rewrite rfind_short by (simpl; lia).
    assert (E : chars_prefix (c :: pat) (c :: pat) = true) by (apply chars_prefix_spec; exists []; by rewrite app_nil_r).
    rewrite E. simpl. f_equal. lia.
  - cbn [rfind_from]. rewrite IH. simpl. f_equal. lia.
Qed.

Lemma find_here pat i : find_from pat pat i = Some i.
Proof.
  assert (P : chars_prefix pat pat = true) by (apply chars_prefix_spec; exists []; by rewrite app_nil_r).
  destruct pat; cbn [find_from]; by rewrite P.
Qed.

Definition occurs (pat l : list ascii) : bool := bool_decide (is_Some (find_from pat l 0)).

Lemma occurs_find pat l i : occurs pat l = false -> find_from pat l i = None.
Proof.
  unfold occurs. intros H%bool_decide_eq_false. destruct (find_from pat l 0) eqn:E; [by destruct H|].
  pose proof (find_from_none _ _ _ E) as F. destruct (find_from pat l i) eqn:G; [|done].
  apply find_from_some in G as (_ & G & _). by rewrite F in G.
Qed.

Lemma occurs_rfind pat l i : occurs pat l = false -> rfind_from pat l i = None.
Proof.
  intros H. pose proof (find_from_none _ _ _ (occurs_find _ _ 0 H)) as F. clear H. revert i F.
  induction l as [|c l IH]; intros i F; cbn [rfind_from].
  - by rewrite (F 0 : chars_prefix pat [] = false).
  - rewrite IH by (intros j; apply (F (S j))). by rewrite (F 0 : chars_prefix pat (c :: l) = false).
Qed.

Local Abbreviation S_ := (str_chars OUTPUT_START_MARKER).
Local Abbreviation E_ := (str_chars OUTPUT_END_MARKER).

Lemma no_newline_start : NL ∉ S_.
Proof. apply (bool_decide_eq_true_1 (NL ∉ S_)). vm_compute. reflexivity. Qed.
Lemma no_newline_end : NL ∉ E_.
Proof. apply (bool_decide_eq_true_1 (NL ∉ E_)). vm_compute. reflexivity. Qed.

(** The output of the runner within what the process writes around it. *)
Definition framed (before text after : list ascii) : list ascii :=
  (before ++ S_) ++ NL :: text ++ NL :: E_ ++ NL :: after.

Lemma rfind_framed before text after :
  occurs S_ text = false -> occurs S_ after = false ->
  py_rfind S_ (framed before text after) = Some (length before).
Proof.
  intros H1 H2. unfold py_rfind, framed. rewrite !rfind_line by apply no_newline_start.
  rewrite (occurs_rfind _ _ _ H1), (occurs_rfind _ _ _ H2).
  rewrite (occurs_rfind S_ E_) by (vm_compute; reflexivity). by rewrite rfind_end.
Qed.

Lemma find_end_framed text after i :
  occurs E_ text = false ->
  find_from E_ (S_ ++ NL :: text ++ NL :: E_ ++ NL :: after) i = Some (i + length S_ + 1 + length text + 1).
Proof.
  intros H. rewrite !find_line by apply no_newline_end. rewrite (occurs_find E_ S_) by (vm_compute; reflexivity).
  by rewrite (occurs_find _ _ _ H), find_here.
Qed.

Lemma slice_mid (a b c : list ascii) n m : length a = n -> m = n + length b -> slice n m (a ++ b ++ c) = b.
Proof.
  intros H1 H2. unfold slice. rewrite drop_app_length' by done. apply take_app_length'. lia.
Qed.

(** ** The round trip *)

Definition protocol_result (source stderr : string) (o : ContainerOutput) (returncode : Z) : runner_result :=
  let text o := match o with Some s => JStr s | None => JNull end in
  match co_status o with
  | OutSuccess => RCompleted (text (co_result o)) returncode
  | OutTimeout => RTimeout (text (co_error o)) returncode
  | OutError =>
      let first := match co_error o with
                   | Some e => if bool_decide (e = "") then co_result o else Some e
                   | None => co_result o
                   end in
      let e := match first with Some s => if bool_decide (s = "") then strip stderr else s | None => strip stderr end in
      RFailed (if bool_decide (e = "") then source +:+ " runner failed" else e) returncode
  end.

Definition status_name (s : OutputStatus) : string :=
  match s with OutSuccess => "success" | OutError => "error" | OutTimeout => "timeout" end.
Definition output_payload (o : ContainerOutput) : list (string * json) :=
  let text o := match o with Some s => JStr s | None => JNull end in
  [("status", JStr (status_name (co_status o))); ("result", text (co_result o)); ("error", text (co_error o))].

Lemma output_get o :
  let text o := match o with Some s => JStr s | None => JNull end in
  get "status" (output_payload o) = JStr (status_name (co_status o)) /\
  get "result" (output_payload o) = text (co_result o) /\ get "error" (output_payload o) = text (co_error o).
Proof. by repeat split. Qed.

Section protocol.
Variable model_dump_json : ContainerOutput -> string.

(** pydantic writes the JSON object of the fields. *)
Hypothesis dump_object : forall o, exists body, str_chars (model_dump_json o) = "{"%char :: body ++ ["}"%char].
Hypothesis dump_json : forall o, json_loads (model_dump_json o) = Ok (JObj (output_payload o)).

Lemma strip_framed o : strip_chars (NL :: str_chars (model_dump_json o) ++ [NL]) = str_chars (model_dump_json o).
Proof.
  destruct (dump_object o) as [body ->]. unfold strip_chars. simpl.
  rewrite !rev_app_distr. simpl. rewrite rev_app_distr. simpl. by rewrite rev_involutive.
Qed.

Lemma extract_framed before o after :
  occurs S_ (str_chars (model_dump_json o)) = false -> occurs E_ (str_chars (model_dump_json o)) = false ->
  occurs S_ after = false ->
  extract_runner_output (of_chars (framed before (str_chars (model_dump_json o)) after)) = Some (model_dump_json o).
Proof.
  intros H1 H2 H3. unfold extract_runner_output. rewrite str_chars_of_chars, rfind_framed by done.
  set (text := str_chars (model_dump_json o)) in *.
  assert (F : py_find E_ (framed before text after) (length before) = Some (length before + length S_ + 1 + length text + 1)).
  { unfold py_find, framed. rewrite <- app_assoc. rewrite bool_decide_eq_true_2 by (rewrite length_app; lia).
    rewrite drop_app_length. by apply find_end_framed. }
  destruct (py_find E_ (framed before text after) 0) eqn:Z.
  2: { pose proof F as F0. apply py_find_some in F0 as (_ & F0 & _).
       pose proof (py_find_none _ _ _ Z) as N. rewrite N in F0; [done|vm_compute; lia|lia]. }
  rewrite F. f_equal. rewrite <- (of_chars_str_chars (model_dump_json o)). f_equal. fold text.
  unfold framed. replace ((before ++ S_) ++ NL :: text ++ NL :: E_ ++ NL :: after)
    with ((before ++ S_) ++ (NL :: text ++ [NL]) ++ E_ ++ NL :: after) by (f_equal; rewrite <- app_comm_cons, <- (app_assoc text); reflexivity).
  rewrite (slice_mid _ _ _ (length before + length S_)).
  - by apply strip_framed.
  - by rewrite length_app.
  - cbn [length]. rewrite length_app. cbn [length]. lia.
Qed.

(** C30: The gateway recovers what the runner reports. Whatever the process writes
    before and after the frame (after it, without another start marker) and whatever
    its return code, an output in which no marker occurs comes back as its
    result: the answer of a success, the error of a timeout, the first text among
    error, result and standard error of a failure. *)
Theorem runner_output_roundtrip before after o stderr returncode source :
  occurs S_ (str_chars (model_dump_json o)) = false -> occurs E_ (str_chars (model_dump_json o)) = false ->
  occurs S_ (str_chars after) = false ->
  parse_runner_output (before +:+ write_output model_dump_json o +:+ after) stderr returncode source =
    Ok (protocol_result source stderr o returncode).
Proof.
  intros H1 H2 H3. unfold parse_runner_output.
  replace (before +:+ write_output model_dump_json o +:+ after)
    with (of_chars (framed (str_chars before) (str_chars (model_dump_json o)) (str_chars after))).
  2: { rewrite <- (of_chars_str_chars (before +:+ _)). f_equal. rewrite !str_chars_app. unfold write_output.
       rewrite str_chars_of_chars. unfold framed. rewrite <- !app_assoc. reflexivity. }
  rewrite extract_framed, dump_json by done. destruct (output_get o) as (-> & -> & ->).
  unfold protocol_result. destruct o as [[] r e]; [done| |done]. cbn [co_status status_name co_result co_error].
  destruct e as [e|]; [unfold truthy at 1; destruct (bool_decide (e = "")) eqn:E; cbn [negb]|];
    [|cbn; rewrite ?E; cbn; by rewrite ?E|]; (destruct r as [r|]; [|done]; cbn; by destruct (bool_decide (r = "")) eqn:R; cbn; rewrite ?R).
Qed.
End protocol.

(** ** Concrete outputs *)

Definition rx_dump (o : ContainerOutput) : string := json_dumps (fun s => s) (JObj (output_payload o)).

Lemma rx_object o : exists body, str_chars (rx_dump o) = "{"%char :: body ++ ["}"%char].
Proof.
  eexists. unfold rx_dump, json_dumps. rewrite str_chars_of_chars. unfold output_payload. cbn [print_json].
  rewrite !app_assoc. reflexivity.
Qed.
Lemma rx_json o : json_loads (rx_dump o) = Ok (JObj (output_payload o)).
Proof. apply dumps_roundtrip. destruct o as [s [r|] [e|]]; by split; [apply (bool_decide_eq_true_1 (NoDup _))|]. Qed.

Lemma runner_output_roundtrip_witness :
  parse_runner_output (of_chars (str_chars "loading" ++ [NL]) +:+
      write_output rx_dump (mkOutput OutSuccess (Some "42") None) +:+ "bye") "" 0 "host" =
    Ok (RCompleted (JStr "42") 0).
Proof.
  apply (runner_output_roundtrip rx_dump rx_object rx_json (of_chars (str_chars "loading" ++ [NL])) "bye"
    (mkOutput OutSuccess (Some "42") None)); vm_compute; reflexivity.
Defined.

(** An answer that quotes the end marker: the run succeeded, its result is lost. *)
Example marker_in_the_answer :
  parse_runner_output (write_output rx_dump (mkOutput OutSuccess (Some "it prints ---PORTEX_OUTPUT_END---") None))
    "" 0 "host" = Ok (RFailed "host runner produced invalid JSON output" 0).
Proof. vm_compute. reflexivity. Qed.
