(* ===== verification/Containers.v ===== *)
(** * Containers of the agent runner

    What [infra/exec/docker.py], [infra/exec/container_manager.py] and the command of
    [services/execution_backends.py] ask docker for: the mounts, the name, the
    environment. [resolve] is [Path.resolve], [data_root] the resolved data root. *)


From stdpp Require Import base list option strings.
From Stdlib Require Import ZArith NArith Lia Ascii.
From S2P Require Import Prelude PyStr PyDict SafePath.

Definition SESSIONS_CONTAINER_PATH : string := "/home/portex/.claude".
Definition MEMORY_CONTAINER_PATH : string := "/workspace/memory".
Definition IPC_CONTAINER_PATH : string := "/workspace/ipc".
Definition GROUP_CONTAINER_PATH : string := "/workspace/group".
Definition SKILLS_CONTAINER_PATH : string := "/workspace/skills".

(** [DockerExecutionError] of a segment or of a directory. *)
Inductive docker_error := InvalidSegment (label value : string) | OutsideRoots (label value : string).

Definition validate_path_segment (label value : string) : result docker_error string :=
  if safe_segment value then Ok value else raise (InvalidSegment label value).

Record Mount := mkMount { mt_bind : string; mt_mode : string }.
(** The mapping of host paths; a path that comes again keeps its place. *)
Definition Volumes := list (path * Mount).

(** ** Mounts *)

Definition build_volume (host : path) (container : string) (read_only : bool) : Volumes :=
  [(host, mkMount container (if read_only then "ro" else "rw"))].
Definition build_readonly_volume (host : path) (container : string) : Volumes := build_volume host container true.

(** [mounts.update(volumes)]. *)
Definition mounts_update (mounts volumes : Volumes) : Volumes := foldl (fun m v => od_set v.1 v.2 m) mounts volumes.

Section docker.
Variable resolve : path -> path.
Variable data_root : path.
(** [readonly_mounts]. *)
Variable readonly_names : list string.

(** [_scoped_directory]. *)
Definition scoped_directory (root : path) (parts : list string) (label : string) : result docker_error path :=
  let base_root := resolve root in
  let candidate := resolve (base_root ++ parts) in
  if validate_path resolve candidate [base_root] then Ok candidate
  else raise (OutsideRoots label (default "" (head parts))).

Definition readonly (name : string) : bool := bool_decide (name ∈ readonly_names).

(** [build_volumes]. *)
Definition build_volumes (group_folder user_id : string) : result docker_error Volumes :=
  safe_group ← validate_path_segment "group_folder" group_folder;
  safe_user ← validate_path_segment "user_id" user_id;
  sessions_dir ← scoped_directory (data_root ++ ["sessions"]) [safe_group; ".claude"] "group_folder";
  memory_dir ← scoped_directory (data_root ++ ["memory"]) [safe_group] "group_folder";
  ipc_dir ← scoped_directory (data_root ++ ["ipc"]) [safe_group] "group_folder";
  group_dir ← scoped_directory (data_root ++ ["groups"]) [safe_group] "group_folder";
  skills_dir ← scoped_directory (data_root ++ ["skills"]) [safe_user] "user_id";
  let mounts := mounts_update [] (build_volume sessions_dir SESSIONS_CONTAINER_PATH (readonly "sessions")) in
  let mounts := mounts_update mounts (build_volume memory_dir MEMORY_CONTAINER_PATH (readonly "memory")) in
  let mounts := mounts_update mounts (build_volume ipc_dir IPC_CONTAINER_PATH (readonly "ipc")) in
  let mounts := mounts_update mounts (build_volume group_dir GROUP_CONTAINER_PATH (readonly "group")) in
  let mounts := mounts_update mounts
                  (if readonly "skills" then build_volume skills_dir SKILLS_CONTAINER_PATH true
                   else build_readonly_volume skills_dir SKILLS_CONTAINER_PATH) in
  Ok mounts.
End docker.

(** ** Names *)

Definition name_char (c : ascii) : bool :=
  alnum c || bool_decide (c = "_"%char) || bool_decide (c = "."%char) || bool_decide (c = "-"%char).

(** [_CONTAINER_NAME_SEGMENT.sub("-", value)]: a run of other characters becomes one dash. *)
Fixpoint dash_runs (in_run : bool) (l : list ascii) : list ascii :=
  match l with
  | [] => []
  | c :: l =>
      if name_char c then c :: dash_runs false l
      else if in_run then dash_runs true l else "-"%char :: dash_runs true l
  end.

Definition dash_dot (c : ascii) : bool := bool_decide (c = "-"%char) || bool_decide (c = "."%char).
(** [.strip("-.")]. *)
Definition strip_dash_dot (l : list ascii) : list ascii := rev (drop_while dash_dot (rev (drop_while dash_dot l))).

(** [_sanitize_container_name_segment]. *)
Definition sanitize_container_name_segment (value dflt : string) : string :=
  let sanitized := of_chars (strip_dash_dot (dash_runs false (str_chars value))) in
  if bool_decide (sanitized = "") then dflt else sanitized.

Definition CONTAINER_NAME_PREFIX : string := "portex-agent".

(** [ContainerManager.build_container_name]. *)
Definition build_container_name (group_folder : string) (session_id : option string) : string :=
  let safe_group := sanitize_container_name_segment group_folder "group" in
  let safe_session := sanitize_container_name_segment (default "" session_id) "" in
  if bool_decide (safe_session = "") then CONTAINER_NAME_PREFIX +:+ "-" +:+ safe_group
  else CONTAINER_NAME_PREFIX +:+ "-" +:+ safe_group +:+ "-" +:+ safe_session.

(** [ContainerManager.build_environment]. *)
Definition build_environment (group_folder : string) (session_id : option string) (agent_name : string) :
    list (string * string) :=
  [("PORTEX_RUN_MODE", "container"); ("PORTEX_GROUP_FOLDER", group_folder);
   ("PORTEX_SESSION_ID", default "" session_id); ("PORTEX_AGENT_NAME", agent_name);
   ("PORTEX_GROUP_DIR", GROUP_CONTAINER_PATH); ("PORTEX_IPC_DIR", IPC_CONTAINER_PATH);
   ("PORTEX_MEMORY_DIR", MEMORY_CONTAINER_PATH); ("PORTEX_SKILLS_DIR", SKILLS_CONTAINER_PATH);
   ("PORTEX_SESSIONS_DIR", SESSIONS_CONTAINER_PATH)].

(** ** The command *)

Definition CONTAINER_COMMAND : list string := ["python"; "-m"; "src.runner"].
Definition CONTAINER_WORKDIR : string := GROUP_CONTAINER_PATH.

(** [str(path)] of an absolute path. *)
Definition path_str (p : path) : string :=
  match p with [] => "/" | _ => foldr (fun s acc => "/" +:+ s +:+ acc) "" p end.

Definition volume_argument (v : path * Mount) : string :=
  let volume := path_str v.1 +:+ ":" +:+ mt_bind v.2 in
  if bool_decide (mt_mode v.2 = "ro") then volume +:+ ":ro" else volume.

(** [ContainerBackend._build_command]. *)
Definition build_command (resolve : path -> path) (data_root : path) (readonly_names : list string)
    (docker_executable container_image group_folder user_id agent_name : string) (session_id : option string)
    (container_name : string) : result docker_error (list string) :=
  volumes ← build_volumes resolve data_root readonly_names group_folder user_id;
  Ok ([docker_executable; "run"; "-i"; "--rm"; "--name"; container_name] ++
      concat (map (fun v => ["-v"; volume_argument v]) volumes) ++
      concat (map (fun e => ["-e"; e.1 +:+ "=" +:+ e.2]) (build_environment group_folder session_id agent_name)) ++
      ["-w"; CONTAINER_WORKDIR; container_image] ++ CONTAINER_COMMAND).

(** * Properties of the containers of the agent runner *)


(** The directory of the data root that a mount point shows, and the name that makes it read-only. *)
Definition mount_points : list (string * (string * string)) :=
  [(SESSIONS_CONTAINER_PATH, ("sessions", "sessions")); (MEMORY_CONTAINER_PATH, ("memory", "memory"));
   (IPC_CONTAINER_PATH, ("ipc", "ipc")); (GROUP_CONTAINER_PATH, ("groups", "group"));
   (SKILLS_CONTAINER_PATH, ("skills", "skills"))].

Section docker.
Variable resolve : path -> path.
Variable data_root : path.
Variable readonly_names : list string.

(** A mount that shows the inside of its own directory, read-only where asked, the skills always. *)
Definition confined (v : path * Mount) : Prop :=
  exists dir name,
    (mt_bind v.2, (dir, name)) ∈ mount_points /\
    path_prefix (resolve (data_root ++ [dir])) v.1 = true /\
    (name ∈ readonly_names \/ mt_bind v.2 = SKILLS_CONTAINER_PATH -> mt_mode v.2 = "ro").

(** A resolved path has no links left. *)
Hypothesis resolve_idemp : forall p, resolve (resolve p) = resolve p.

Lemma scoped_directory_below root parts label p :
  scoped_directory resolve root parts label = Ok p -> path_prefix (resolve root) p = true.
Proof.
  unfold scoped_directory, validate_path. cbn [existsb]. rewrite !resolve_idemp, orb_false_r.
  destruct (path_prefix _ _) eqn:E; [|done]. by intros [= <-].
Qed.

Lemma mounts_update_confined mounts p bind (ro : bool) dir name :
  Forall confined mounts -> (bind, (dir, name)) ∈ mount_points ->
  path_prefix (resolve (data_root ++ [dir])) p = true ->
  (name ∈ readonly_names \/ bind = SKILLS_CONTAINER_PATH -> ro = true) ->
  Forall confined (mounts_update mounts (build_volume p bind ro)).
Proof.
  intros F M P R. unfold mounts_update, build_volume. cbn [foldl fst snd].
  assert (C : confined (p, mkMount bind (if ro then "ro" else "rw"))).
  { exists dir, name. cbn. split; [done|]. split; [done|]. intros Q. by rewrite R. }
  induction F as [|[q m] mounts Hm F IH]; cbn [od_set]; [by constructor|].
  destruct (decide (q = p)); by constructor.
Qed.

Lemma readonly_true name bind :
  bind <> SKILLS_CONTAINER_PATH ->
  name ∈ readonly_names \/ bind = SKILLS_CONTAINER_PATH -> readonly readonly_names name = true.
Proof. intros N [H|H]; [|done]. by apply bool_decide_eq_true. Qed.

Ltac mount_step d n :=
  apply (mounts_update_confined _ _ _ _ d n);
  [| apply (bool_decide_eq_true_1 (_ ∈ mount_points)); reflexivity | assumption
   | try done; apply readonly_true; discriminate].

(** C34: The mounts of a container stay within their roots. Whatever symbolic links the data
    root holds, every mount of a container shows a directory at or below the one of its
    mount point (sessions, memory, ipc, groups, skills of the data root), though not
    always the folder of the group itself, which may be a link to another one there; it is
    read-only when its name is asked to be, and the skills always are. *)
Theorem build_volumes_confined group_folder user_id mounts :
  build_volumes resolve data_root readonly_names group_folder user_id = Ok mounts -> Forall confined mounts.
Proof.
  unfold build_volumes, validate_path_segment. destruct (safe_segment group_folder); [|done].
  destruct (safe_segment user_id); [|done]. cbn [mbind result_bind].
  repeat match goal with |- context [scoped_directory ?r ?a ?b ?c] =>
    let E := fresh "E" in destruct (scoped_directory r a b c) eqn:E; cbn [mbind result_bind]; [|done];
    apply scoped_directory_below in E end.
  match goal with |- Ok ?m = _ -> _ => intros H; replace mounts with m by congruence; clear H end.
  unfold build_readonly_volume.
  assert (K : forall p, (if readonly readonly_names "skills" then build_volume p SKILLS_CONTAINER_PATH true
    else build_volume p SKILLS_CONTAINER_PATH true) = build_volume p SKILLS_CONTAINER_PATH true) by (intros; by case_match).
  rewrite K. mount_step "skills" "skills". mount_step "groups" "group". mount_step "ipc" "ipc".
  mount_step "memory" "memory". mount_step "sessions" "sessions". constructor.
Qed.
End docker.

(** ** A concrete data root: a link of the group directory leads out of it *)

Lemma build_volumes_confined_witness :
  exists mounts,
    build_volumes (fun p => p) ["srv"; "data"] ["memory"] "team-1" "alice" = Ok mounts /\
    Forall (confined (fun p => p) ["srv"; "data"] ["memory"]) mounts.
Proof.
  eexists. split; [reflexivity|].
  by apply (build_volumes_confined (fun p => p) ["srv"; "data"] ["memory"] (fun p => eq_refl) "team-1" "alice").
Defined.

Example link_out_is_refused :
  build_volumes (fun p => if bool_decide (p = ["data"; "groups"; "team"]) then ["etc"] else p) ["data"] [] "team" "alice" =
    raise (OutsideRoots "group_folder" "team").
Proof. reflexivity. Qed.

(** The command of a run. *)
Example command_of_a_run :
  build_command (fun p => p) ["data"] [] "docker" "portex/agent-runner:latest" "team" "alice" "PortexAgent" (Some "s1")
    (build_container_name "team" (Some "s1")) =
  Ok (["docker"; "run"; "-i"; "--rm"; "--name"; "portex-agent-team-s1";
       "-v"; "/data/sessions/team/.claude:/home/portex/.claude"; "-v"; "/data/memory/team:/workspace/memory";
       "-v"; "/data/ipc/team:/workspace/ipc"; "-v"; "/data/groups/team:/workspace/group";
       "-v"; "/data/skills/alice:/workspace/skills:ro";
       "-e"; "PORTEX_RUN_MODE=container"; "-e"; "PORTEX_GROUP_FOLDER=team"; "-e"; "PORTEX_SESSION_ID=s1";
       "-e"; "PORTEX_AGENT_NAME=PortexAgent"; "-e"; "PORTEX_GROUP_DIR=/workspace/group";
       "-e"; "PORTEX_IPC_DIR=/workspace/ipc"; "-e"; "PORTEX_MEMORY_DIR=/workspace/memory";
       "-e"; "PORTEX_SKILLS_DIR=/workspace/skills"; "-e"; "PORTEX_SESSIONS_DIR=/home/portex/.claude";
       "-w"; "/workspace/group"; "portex/agent-runner:latest"; "python"; "-m"; "src.runner"]).
Proof. vm_compute. reflexivity. Qed.

(** Names do not tell the group from the session. *)
Example container_names_collide :
  build_container_name "team" (Some "s1") = build_container_name "team-s1" None /\
  build_container_name "a b" None = build_container_name "a-b" None.
Proof. split; reflexivity. Qed.
