(* ===== verification/Backends.v ===== *)
(** * The container backend ([ContainerBackend] of [services/execution_backends.py])

    The life of the [docker run] processes: an execution, the cleanup task its
    cancellation leaves behind, and the calls of [cancel]. Every stretch of code
    between two suspensions is one event; processes exit when they like. The command
    and the output are those of Containers.v and RunnerProtocol.v. *)

From stdpp Require Import base tactics list option gmap strings.
From S2P Require Import Prelude.

(** A process: whether it has exited, and whether it was told to. *)
Record process := mkProcess { pr_exited : bool; pr_killed : bool }.

(** [execute]: waiting for the process to be created, for its output, or over. *)
Inductive exec_phase :=
| ESpawning
| ECommunicating (pid : nat)
| EReturned
| ECancelled (pid : option nat)
| EFailed.
Record exec := mkExec { ex_run : string; ex_name : string; ex_phase : exec_phase }.

(** [_cleanup_after_cancellation]: not started, in [stop_container], in [wait], done. *)
Inductive task_phase := TStart | TStopping | TWaiting | TDone.
Record cleanup := mkCleanup { cl_run : string; cl_pid : nat; cl_name : string; cl_phase : task_phase }.

(** [cancel]: waiting for the cleanup task, in [stop_container], in [wait], done, or
    ended by the [ProcessLookupError] of [kill]. *)
Inductive call_phase :=
| KGather (t : nat)
| KStopping (pid : option nat)
| KWaiting (pid : nat)
| KDone
| KRaised.
Record call := mkCall { ca_run : string; ca_phase : call_phase }.

Record backend := mkBackend {
  bk_active : gmap string nat;
  bk_names : gmap string string;
  bk_cleanup : gmap string nat;
  bk_execs : list exec;
  bk_tasks : list cleanup;
  bk_calls : list call;
  bk_procs : list process
}.

Definition init_backend : backend := mkBackend ∅ ∅ ∅ [] [] [] [].

Definition with_execs (x : list exec) (s : backend) : backend :=
  mkBackend (bk_active s) (bk_names s) (bk_cleanup s) x (bk_tasks s) (bk_calls s) (bk_procs s).
Definition with_tasks (x : list cleanup) (s : backend) : backend :=
  mkBackend (bk_active s) (bk_names s) (bk_cleanup s) (bk_execs s) x (bk_calls s) (bk_procs s).
Definition with_calls (x : list call) (s : backend) : backend :=
  mkBackend (bk_active s) (bk_names s) (bk_cleanup s) (bk_execs s) (bk_tasks s) x (bk_procs s).
Definition with_procs (x : list process) (s : backend) : backend :=
  mkBackend (bk_active s) (bk_names s) (bk_cleanup s) (bk_execs s) (bk_tasks s) (bk_calls s) x.

Definition set_exec (e : nat) (p : exec_phase) (s : backend) : backend :=
  with_execs (alter (fun x => mkExec (ex_run x) (ex_name x) p) e (bk_execs s)) s.
Definition set_task (t : nat) (p : task_phase) (s : backend) : backend :=
  with_tasks (alter (fun x => mkCleanup (cl_run x) (cl_pid x) (cl_name x) p) t (bk_tasks s)) s.
Definition set_call (c : nat) (p : call_phase) (s : backend) : backend :=
  with_calls (alter (fun x => mkCall (ca_run x) p) c (bk_calls s)) s.

(** [_clear_active_run]. *)
Definition clear_active_run (run : string) (s : backend) : backend :=
  mkBackend (delete run (bk_active s)) (delete run (bk_names s)) (delete run (bk_cleanup s))
    (bk_execs s) (bk_tasks s) (bk_calls s) (bk_procs s).

Definition exited (pid : nat) (s : backend) : bool :=
  match bk_procs s !! pid with Some p => pr_exited p | None => false end.

(** [process.kill()]: [lookup_error] is whether it raises [ProcessLookupError], which it
    only may for a process that has exited. *)
Definition kill (pid : nat) (s : backend) : backend :=
  with_procs (alter (fun p => mkProcess (pr_exited p) true) pid (bk_procs s)) s.

Definition task_done (t : nat) (s : backend) : bool :=
  match bk_tasks s !! t with Some c => match cl_phase c with TDone => true | _ => false end | None => true end.

(** [_ensure_cleanup_task]. *)
Definition ensure_cleanup_task (run : string) (pid : nat) (name : string) (s : backend) : backend :=
  match bk_cleanup s !! run with
  | Some t => if task_done t s then
                mkBackend (bk_active s) (bk_names s) (<[run := length (bk_tasks s)]> (bk_cleanup s)) (bk_execs s)
                  (bk_tasks s ++ [mkCleanup run pid name TStart]) (bk_calls s) (bk_procs s)
              else s
  | None => mkBackend (bk_active s) (bk_names s) (<[run := length (bk_tasks s)]> (bk_cleanup s)) (bk_execs s)
              (bk_tasks s ++ [mkCleanup run pid name TStart]) (bk_calls s) (bk_procs s)
  end.

Inductive backend_event :=
| Execute (run name : string)
| Spawned (e : nat) (ok : bool)
| Exits (pid : nat)
| Communicated (e : nat)
| Cancelled (e : nat)
| TaskRuns (t : nat) (lookup_error : bool)
| Cancel (run : string)
| CallRuns (c : nat) (lookup_error : bool).

(** The execution [e]. *)
Definition spawned (e : nat) (ok : bool) (x : exec) (s : backend) : option backend :=
  match ex_phase x with
  | ESpawning =>
      if ok then
        let pid := length (bk_procs s) in
        Some (mkBackend (<[ex_run x := pid]> (bk_active s)) (<[ex_run x := ex_name x]> (bk_names s)) (bk_cleanup s)
                (alter (fun x => mkExec (ex_run x) (ex_name x) (ECommunicating pid)) e (bk_execs s)) (bk_tasks s)
                (bk_calls s) (bk_procs s ++ [mkProcess false false]))
      else Some (set_exec e EFailed s)
  | _ => None
  end.

Definition communicated (e : nat) (x : exec) (s : backend) : option backend :=
  match ex_phase x with
  | ECommunicating pid => if exited pid s then Some (set_exec e EReturned (clear_active_run (ex_run x) s)) else None
  | _ => None
  end.

(** The task of the execution is cancelled at its [await]. *)
Definition cancelled (e : nat) (x : exec) (s : backend) : option backend :=
  match ex_phase x with
  | ESpawning => Some (set_exec e (ECancelled None) s)
  | ECommunicating pid => Some (set_exec e (ECancelled (Some pid)) (ensure_cleanup_task (ex_run x) pid (ex_name x) s))
  | _ => None
  end.

(** [_stop_active_run] within the cleanup task: [stop_container], which may fail or
    time out, then [kill], then [wait], which may time out. *)
Definition task_runs (t : nat) (lookup_error : bool) (c : cleanup) (s : backend) : option backend :=
  match cl_phase c with
  | TStart => Some (set_task t TStopping s)
  | TStopping =>
      if lookup_error then
        if exited (cl_pid c) s then Some (set_task t TDone (clear_active_run (cl_run c) s)) else None
      else Some (set_task t TWaiting (kill (cl_pid c) s))
  | TWaiting => Some (set_task t TDone (clear_active_run (cl_run c) s))
  | TDone => None
  end.

(** [cancel] up to its first suspension. *)
Definition cancel (run : string) (s : backend) : backend :=
  let gather := match bk_cleanup s !! run with
                | Some t => if task_done t s then None else Some t
                | None => None
                end in
  match gather with
  | Some t => with_calls (bk_calls s ++ [mkCall run (KGather t)]) s
  | None =>
      match bk_names s !! run with
      | Some _ => with_calls (bk_calls s ++ [mkCall run (KStopping (bk_active s !! run))]) s
      | None =>
          match bk_active s !! run with
          | Some pid => with_calls (bk_calls s ++ [mkCall run (KWaiting pid)]) (kill pid s)
          | None => with_calls (bk_calls s ++ [mkCall run KDone]) (clear_active_run run s)
          end
      end
  end.

Definition call_runs (c : nat) (lookup_error : bool) (k : call) (s : backend) : option backend :=
  match ca_phase k with
  | KGather t => if task_done t s then Some (set_call c KDone s) else None
  | KStopping (Some pid) =>
      if lookup_error then if exited pid s then Some (set_call c KRaised s) else None
      else Some (set_call c (KWaiting pid) (kill pid s))
  | KStopping None => Some (set_call c KDone (clear_active_run (ca_run k) s))
  | KWaiting _ => Some (set_call c KDone (clear_active_run (ca_run k) s))
  | KDone | KRaised => None
  end.

Definition step (ev : backend_event) (s : backend) : option backend :=
  match ev with
  | Execute run name => Some (with_execs (bk_execs s ++ [mkExec run name ESpawning]) s)
  | Spawned e ok => x ← bk_execs s !! e; spawned e ok x s
  | Exits pid => p ← bk_procs s !! pid; Some (with_procs (<[pid := mkProcess true (pr_killed p)]> (bk_procs s)) s)
  | Communicated e => x ← bk_execs s !! e; communicated e x s
  | Cancelled e => x ← bk_execs s !! e; cancelled e x s
  | TaskRuns t lookup_error => c ← bk_tasks s !! t; task_runs t lookup_error c s
  | Cancel run => Some (cancel run s)
  | CallRuns c lookup_error => k ← bk_calls s !! c; call_runs c lookup_error k s
  end.

(** The coordinator gives every execution a run id of its own. *)
Definition fresh (ev : backend_event) (s : backend) : Prop :=
  match ev with
  | Execute run _ => forall x, x ∈ bk_execs s -> ex_run x <> run
  | _ => True
  end.

Inductive reach : backend -> Prop :=
| reach_init : reach init_backend
| reach_step ev s s' : reach s -> fresh ev s -> step ev s = Some s' -> reach s'.
