(* ===== verification/BackendsProps.v ===== *)
(** * Properties of the container backend *)

From stdpp Require Import base tactics list option gmap strings.
From Stdlib Require Import Lia.
From S2P Require Import Prelude Backends.

Definition proc (pid : nat) (s : backend) : process := default (mkProcess false false) (bk_procs s !! pid).
Definition stopped (pid : nat) (s : backend) : Prop := pr_killed (proc pid s) = true \/ pr_exited (proc pid s) = true.

(** A cleanup task of a run that is not over. *)
Definition cleaning (run : string) (s : backend) : Prop :=
  exists c, c ∈ bk_tasks s /\ cl_run c = run /\ cl_phase c <> TDone.
(** A cleanup task that has yet to kill the process. *)
Definition to_be_killed (run : string) (pid : nat) (s : backend) : Prop :=
  exists c, c ∈ bk_tasks s /\ cl_run c = run /\ cl_pid c = pid /\ (cl_phase c = TStart \/ cl_phase c = TStopping).

Record inv (s : backend) : Prop := {
  bi_runs : NoDup (ex_run <$> bk_execs s);
  bi_names : forall run, is_Some (bk_names s !! run) <-> is_Some (bk_active s !! run);
  bi_active : forall run pid, bk_active s !! run = Some pid ->
    exists x, x ∈ bk_execs s /\ ex_run x = run /\
      (ex_phase x = ECommunicating pid \/ (ex_phase x = ECancelled (Some pid) /\ cleaning run s));
  bi_cleanup : forall run t, bk_cleanup s !! run = Some t ->
    exists c, bk_tasks s !! t = Some c /\ cl_run c = run /\ cl_phase c <> TDone;
  bi_cancelled : forall x pid, x ∈ bk_execs s -> ex_phase x = ECancelled (Some pid) ->
    stopped pid s \/ to_be_killed (ex_run x) pid s;
  bi_tasks : forall c, c ∈ bk_tasks s ->
    exists x, x ∈ bk_execs s /\ ex_run x = cl_run c /\ ex_phase x = ECancelled (Some (cl_pid c));
  bi_task_runs : NoDup (cl_run <$> bk_tasks s);
  bi_pids : forall x pid, x ∈ bk_execs s -> ex_phase x = ECommunicating pid \/ ex_phase x = ECancelled (Some pid) ->
    pid < length (bk_procs s)
}.

Lemma bk_inv_init : inv init_backend.
Proof.
  split; cbn; try (intros; by rewrite ?lookup_empty in *); try (by intros ? ?%not_elem_of_nil);
    try (by intros ? ? ?%not_elem_of_nil); try constructor; try (by intros ? []).
  all: intros [? E]; by rewrite lookup_empty in E.
Qed.

(** ** Steps that leave executions and tasks alone *)

Lemma proc_alter_killed pid p s : stopped p s -> stopped p (kill pid s).
Proof.
  unfold stopped, proc, kill. cbn. destruct (decide (p = pid)) as [->|N].
  - rewrite list_lookup_alter_eq. destruct (bk_procs s !! pid); cbn; tauto.
  - by rewrite list_lookup_alter_ne.
Qed.

Lemma kill_stops pid s : pid < length (bk_procs s) -> stopped pid (kill pid s).
Proof.
  intros H. unfold stopped, proc, kill. cbn. rewrite list_lookup_alter_eq.
  destruct (bk_procs s !! pid) eqn:E; [by left|]. apply lookup_ge_None in E. lia.
Qed.

(** Only the dictionaries shrink, or the processes go on. *)
Lemma inv_fewer s s' :
  inv s -> bk_execs s' = bk_execs s -> bk_tasks s' = bk_tasks s ->
  length (bk_procs s') = length (bk_procs s) -> (forall p, stopped p s -> stopped p s') ->
  (forall run, is_Some (bk_names s' !! run) <-> is_Some (bk_active s' !! run)) ->
  (forall run pid, bk_active s' !! run = Some pid -> bk_active s !! run = Some pid) ->
  (forall run t, bk_cleanup s' !! run = Some t -> bk_cleanup s !! run = Some t) -> inv s'.
Proof.
  intros [I1 I2 I3 I4 I5 I6 I7 I8] E1 E2 E3 P Nm A C.
  split; unfold cleaning, to_be_killed; rewrite ?E1, ?E2, ?E3; auto.
  intros x pid Hx Hp. destruct (I5 x pid Hx Hp); auto.
Qed.

Lemma inv_clear run s : inv s -> inv (clear_active_run run s).
Proof.
  intros I. apply (inv_fewer s); try done.
  - intros r. cbn. rewrite !lookup_delete_is_Some. by rewrite (bi_names s I r).
  - intros r p. cbn. by intros [_ H]%lookup_delete_Some.
  - intros r t. cbn. by intros [_ H]%lookup_delete_Some.
Qed.

Lemma inv_kill pid s : inv s -> inv (kill pid s).
Proof.
  intros I. apply (inv_fewer s); try done; [cbn; by rewrite length_alter|intros p; apply proc_alter_killed|apply I].
Qed.

Lemma bk_inv_calls x s : inv s -> inv (with_calls x s).
Proof. intros I. by apply (inv_fewer s); try done; apply I. Qed.

(** ** Executions *)

Lemma exec_here s e x : bk_execs s !! e = Some x -> x ∈ bk_execs s.
Proof. apply list_elem_of_lookup_2. Qed.

Lemma same_run s x y : inv s -> x ∈ bk_execs s -> y ∈ bk_execs s -> ex_run x = ex_run y -> x = y.
Proof. intros I. by apply same_key, I. Qed.

Lemma inv_execute run name s :
  inv s -> (forall x, x ∈ bk_execs s -> ex_run x <> run) ->
  inv (with_execs (bk_execs s ++ [mkExec run name ESpawning]) s).
Proof.
  intros I F. pose proof I as [I1 I2 I3 I4 I5 I6 I7 I8].
  split; unfold cleaning, to_be_killed in *; cbn [with_execs bk_execs bk_tasks bk_active bk_names bk_cleanup bk_procs]; try done.
  - rewrite fmap_app. apply NoDup_app. split; [done|]. split; [|apply NoDup_singleton].
    intros r (x & -> & Hx)%list_elem_of_fmap H. apply list_elem_of_singleton in H. cbn in H. by apply (F x).
  - intros r pid H. destruct (I3 r pid H) as (x & Hx & A). exists x. split; [by apply elem_of_app; left|done].
  - intros x pid [Hx| ->%list_elem_of_singleton]%elem_of_app; [by apply I5|done].
  - intros c Hc. destruct (I6 c Hc) as (x & Hx & A). exists x. split; [by apply elem_of_app; left|done].
  - intros x pid [Hx| ->%list_elem_of_singleton]%elem_of_app; [by apply I8|by intros []].
Qed.

(** An execution of a run without a process in the dictionary ends. *)
Lemma inv_over e x p s :
  inv s -> bk_execs s !! e = Some x -> bk_active s !! ex_run x = None ->
  (forall pid, ex_phase x <> ECancelled (Some pid)) ->
  (forall pid, p <> ECommunicating pid /\ p <> ECancelled (Some pid)) -> inv (set_exec e p s).
Proof.
  intros I E Na Nc Np. pose proof I as [I1 I2 I3 I4 I5 I6 I7 I8].
  set (f := fun x => mkExec (ex_run x) (ex_name x) p).
  assert (Old : forall y, y ∈ bk_execs s -> y <> x -> y ∈ alter f e (bk_execs s)).
  { intros y Hy N. destruct (alter_elem f e _ y Hy) as [Ey|]; [|done]. congruence. }
  assert (New : forall y, y ∈ alter f e (bk_execs s) -> y ∈ bk_execs s \/ y = f x).
  { intros y [Hy|(x' & Ex & ->)]%elem_alter; [by left|]. rewrite E in Ex. injection Ex as <-. by right. }
  split; unfold cleaning, to_be_killed in *; cbn [set_exec with_execs bk_execs bk_tasks bk_active bk_names bk_cleanup bk_procs]; try done.
  - by rewrite fmap_alter_same.
  - intros r pid H. destruct (I3 r pid H) as (y & Hy & R & A). exists y. split; [|done].
    apply Old; [done|]. intros ->. congruence.
  - intros y pid [Hy| ->]%New Hp; [by apply I5|]. cbn in Hp. by destruct (Np pid).
  - intros c Hc. destruct (I6 c Hc) as (y & Hy & R & A). exists y. split; [|done]. apply Old; [done|].
    intros ->. by apply (Nc (cl_pid c)).
  - intros y pid [Hy| ->]%New Hp; [by eapply I8|]. cbn in Hp. destruct (Np pid) as [P1 P2]. by destruct Hp.
Qed.

Lemma spawning_inactive s x : inv s -> x ∈ bk_execs s -> ex_phase x = ESpawning -> bk_active s !! ex_run x = None.
Proof.
  intros I Hx P. destruct (bk_active s !! ex_run x) as [pid|] eqn:E; [|done].
  destruct (bi_active s I _ _ E) as (y & Hy & R & A). pose proof (same_run s y x I Hy Hx R) as ->.
  destruct A as [A|[A _]]; congruence.
Qed.

Lemma inv_spawned e x s s' : inv s -> bk_execs s !! e = Some x -> spawned e true x s = Some s' -> inv s'.
Proof.
  intros I E H. unfold spawned in H. destruct (ex_phase x) eqn:P; try done. injection H as <-.
  pose proof (spawning_inactive s x I (exec_here _ _ _ E) P) as Na. pose proof I as [I1 I2 I3 I4 I5 I6 I7 I8].
  set (pid := length (bk_procs s)). set (f := fun x => mkExec (ex_run x) (ex_name x) (ECommunicating pid)).
  assert (Old : forall y, y ∈ bk_execs s -> y <> x -> y ∈ alter f e (bk_execs s)).
  { intros y Hy N. destruct (alter_elem f e _ y Hy) as [Ey|]; [|done]. congruence. }
  assert (New : forall y, y ∈ alter f e (bk_execs s) -> y ∈ bk_execs s \/ y = f x).
  { intros y [Hy|(x' & Ex & ->)]%elem_alter; [by left|]. rewrite E in Ex. injection Ex as <-. by right. }
  assert (St : forall p, p < pid -> stopped p s -> stopped p (with_procs (bk_procs s ++ [mkProcess false false]) s)).
  { intros p L. unfold stopped, proc. cbn. by rewrite lookup_app_l. }
  split; unfold cleaning, to_be_killed in *; cbn [bk_execs bk_tasks bk_active bk_names bk_cleanup bk_procs]; try done.
  - by rewrite fmap_alter_same.
  - intros r. rewrite !lookup_insert_is_Some. specialize (I2 r). tauto.
  - intros r p. intros [[<- <-]|[N H]]%lookup_insert_Some.
    + exists (f x). split; [by apply alter_here|]. split; [done|by left].
    + destruct (I3 r p H) as (y & Hy & R & A). exists y. split; [|done]. apply Old; [done|]. intros ->. congruence.
  - intros y p [Hy| ->]%New Hp; [|done]. destruct (I5 y p Hy Hp) as [A|A]; [left|by right].
    by apply St; [apply (I8 y p Hy); right|].
  - intros c Hc. destruct (I6 c Hc) as (y & Hy & R & A). exists y. split; [|done]. apply Old; [done|].
    intros ->. congruence.
  - intros y p Hy Hp. rewrite length_app. cbn. apply New in Hy as [Hy| ->].
    + specialize (I8 y p Hy Hp). lia.
    + cbn in Hp. destruct Hp as [[= <-]|]; [|done]. subst pid. lia.
Qed.

Lemma inv_communicated e x s s' : inv s -> bk_execs s !! e = Some x -> communicated e x s = Some s' -> inv s'.
Proof.
  intros I E H. unfold communicated in H. destruct (ex_phase x) eqn:P; try done. destruct (exited pid s); [|done].
  injection H as <-. apply (inv_over e x); try done.
  - by apply inv_clear.
  - cbn. apply lookup_delete_eq.
  - intros p. by rewrite P.
Qed.

(** ** Cancellation *)

Lemma inv_cancelled_task e x pid s :
  inv s -> bk_execs s !! e = Some x -> ex_phase x = ECommunicating pid ->
  inv (set_exec e (ECancelled (Some pid)) (ensure_cleanup_task (ex_run x) pid (ex_name x) s)).
Proof.
  intros I E P. pose proof I as [I1 I2 I3 I4 I5 I6 I7 I8]. pose proof (exec_here _ _ _ E) as Hx.
  (* no task of this run yet *)
  assert (Nt : forall c, c ∈ bk_tasks s -> cl_run c <> ex_run x).
  { intros c Hc R. destruct (I6 c Hc) as (y & Hy & Ry & A).
    pose proof (same_run s y x I Hy Hx ltac:(congruence)) as ->. congruence. }
  assert (Nc : bk_cleanup s !! ex_run x = None).
  { destruct (bk_cleanup s !! ex_run x) as [t|] eqn:C; [|done]. destruct (I4 _ _ C) as (c & Ec & R & _).
    by destruct (Nt c (list_elem_of_lookup_2 _ _ _ Ec)). }
  unfold ensure_cleanup_task. rewrite Nc. set (task := mkCleanup (ex_run x) pid (ex_name x) TStart).
  set (f := fun x => mkExec (ex_run x) (ex_name x) (ECancelled (Some pid))).
  assert (Old : forall y, y ∈ bk_execs s -> y <> x -> y ∈ alter f e (bk_execs s)).
  { intros y Hy N. destruct (alter_elem f e _ y Hy) as [Ey|]; [|done]. congruence. }
  assert (New : forall y, y ∈ alter f e (bk_execs s) -> y ∈ bk_execs s \/ y = f x).
  { intros y [Hy|(x' & Ex & ->)]%elem_alter; [by left|]. rewrite E in Ex. injection Ex as <-. by right. }
  assert (T : forall c, c ∈ bk_tasks s -> c ∈ bk_tasks s ++ [task]) by (intros c Hc; by apply elem_of_app; left).
  assert (Th : task ∈ bk_tasks s ++ [task]) by (apply elem_of_app; right; by apply list_elem_of_singleton).
  split; unfold cleaning, to_be_killed in *;
    cbn [set_exec with_execs bk_execs bk_tasks bk_active bk_names bk_cleanup bk_procs]; try done.
  - by rewrite fmap_alter_same.
  - intros r p H. destruct (I3 r p H) as (y & Hy & R & A). destruct (decide (r = ex_run x)) as [->|Nr].
    + pose proof (same_run s y x I Hy Hx R) as ->. exists (f x). split; [by apply alter_here|]. split; [done|]. right.
      cbn. destruct A as [A|[A _]]; [|congruence]. split; [congruence|]. by exists task.
    + exists y. split; [apply Old; [done|]; intros ->; congruence|]. split; [done|].
      destruct A as [A|[A (c & Hc & B)]]; [by left|right]. split; [done|]. exists c. auto.
  - intros r t [[<- <-]|[N H]]%lookup_insert_Some.
    + exists task. by rewrite lookup_app_r, Nat.sub_diag by done.
    + destruct (I4 r t H) as (c & Ec & A). exists c. by erewrite lookup_app_l_Some.
  - intros y p [Hy| ->]%New Hp.
    + destruct (I5 y p Hy Hp) as [A|(c & Hc & A)]; [by left|right]. exists c. auto.
    + right. exists task. cbn in Hp. injection Hp as <-. cbn. auto.
  - intros c [Hc| ->%list_elem_of_singleton]%elem_of_app.
    + destruct (I6 c Hc) as (y & Hy & R & A). exists y. split; [apply Old; [done|]; intros ->; congruence|done].
    + exists (f x). split; [by apply alter_here|done].
  - rewrite fmap_app. apply NoDup_app. split; [done|]. split; [|apply NoDup_singleton].
    intros r (c & -> & Hc)%list_elem_of_fmap H. apply list_elem_of_singleton in H. by apply (Nt c).
  - intros y p [Hy| ->]%New Hp; [by eapply I8|]. cbn in Hp. destruct Hp as [|[= <-]]; [done|].
    apply (I8 x pid Hx). by left.
Qed.

(** ** Cleanup tasks *)

Lemma inv_task t c p s :
  inv s -> bk_tasks s !! t = Some c ->
  (p = TDone -> bk_active s !! cl_run c = None /\ bk_cleanup s !! cl_run c = None) ->
  (p = TStart \/ p = TStopping \/ stopped (cl_pid c) s) -> inv (set_task t p s).
Proof.
  intros I E Hd Hp. pose proof I as [I1 I2 I3 I4 I5 I6 I7 I8].
  set (f := fun x => mkCleanup (cl_run x) (cl_pid x) (cl_name x) p).
  assert (New : forall y, y ∈ alter f t (bk_tasks s) -> y ∈ bk_tasks s \/ y = f c).
  { intros y [Hy|(x' & Ex & ->)]%elem_alter; [by left|]. rewrite E in Ex. injection Ex as <-. by right. }
  assert (Old : forall y, y ∈ bk_tasks s -> y = c \/ y ∈ alter f t (bk_tasks s)).
  { intros y Hy. destruct (alter_elem f t _ y Hy) as [Ey|]; [left; congruence|by right]. }
  pose proof (alter_here f t _ c E) as Here.
  split; unfold cleaning, to_be_killed in *;
    cbn [set_task with_tasks bk_execs bk_tasks bk_active bk_names bk_cleanup bk_procs]; try done.
  - intros r pid H. destruct (I3 r pid H) as (x & Hx & R & A). exists x. split; [done|]. split; [done|].
    destruct A as [A|[A (y & Hy & Ry & N)]]; [by left|right]. split; [done|].
    destruct (Old y Hy) as [->|Hy']; [|by exists y]. exists (f c). split; [done|]. split; [done|]. cbn.
    intros ->. destruct (Hd eq_refl) as [Na _]. congruence.
  - intros r u H. destruct (I4 r u H) as (y & Ey & R & N). destruct (decide (u = t)) as [->|Nu].
    + rewrite list_lookup_alter_eq, E. exists (f c). rewrite E in Ey. injection Ey as <-. split; [done|]. split; [done|].
      cbn. intros ->. destruct (Hd eq_refl) as [_ Nc]. congruence.
    + exists y. by rewrite list_lookup_alter_ne.
  - intros x pid Hx P. destruct (I5 x pid Hx P) as [A|(y & Hy & R & B & C)]; [by left|].
    destruct (Old y Hy) as [->|Hy']; [|right; by exists y].
    destruct Hp as [->|[->|Hs]]; [right; exists (f c); cbn; auto|right; exists (f c); cbn; auto|left]. by rewrite <- B.
  - intros y [Hy| ->]%New; [by apply I6|]. apply (I6 c). by eapply list_elem_of_lookup_2.
  - by rewrite fmap_alter_same.
Qed.

Lemma exited_stopped pid s : exited pid s = true -> stopped pid s.
Proof. unfold exited, stopped, proc. destruct (bk_procs s !! pid); [by right|done]. Qed.

Lemma task_pid t c s : inv s -> bk_tasks s !! t = Some c -> cl_pid c < length (bk_procs s).
Proof.
  intros I E. destruct (bi_tasks s I c (list_elem_of_lookup_2 _ _ _ E)) as (x & Hx & R & P).
  apply (bi_pids s I x _ Hx). by right.
Qed.

(** A task that waits has killed its process. *)
Definition waiting_killed (s : backend) : Prop :=
  forall c, c ∈ bk_tasks s -> cl_phase c = TWaiting -> stopped (cl_pid c) s.

Lemma clear_done t c s :
  inv s -> bk_tasks s !! t = Some c -> stopped (cl_pid c) s -> inv (set_task t TDone (clear_active_run (cl_run c) s)).
Proof.
  intros I E St. apply (inv_task t c); [by apply inv_clear|done| |by right; right].
  intros _. cbn. by rewrite !lookup_delete_eq.
Qed.

Lemma inv_task_runs t le c s s' :
  inv s -> waiting_killed s -> bk_tasks s !! t = Some c -> task_runs t le c s = Some s' -> inv s'.
Proof.
  intros I Wk E H. unfold task_runs in H. destruct (cl_phase c) eqn:P; try done.
  - injection H as <-. apply (inv_task t c); [done|done|done|by right; left].
  - destruct le.
    + destruct (exited (cl_pid c) s) eqn:X; [|done]. injection H as <-. apply clear_done; [done|done|by apply exited_stopped].
    + injection H as <-. apply (inv_task t c); [by apply inv_kill|done|done|].
      right; right. apply kill_stops. by eapply task_pid.
  - injection H as <-. apply clear_done; [done|done|]. apply (Wk c); [by eapply list_elem_of_lookup_2|done].
Qed.

Lemma inv_cancel run s : inv s -> inv (cancel run s).
Proof.
  intros I. unfold cancel. destruct (match bk_cleanup s !! run with Some t => _ | None => None end); [by apply bk_inv_calls|].
  destruct (bk_names s !! run); [by apply bk_inv_calls|].
  destruct (bk_active s !! run); [by apply bk_inv_calls, inv_kill|by apply bk_inv_calls, inv_clear].
Qed.

Lemma inv_call_runs c le k s s' : inv s -> call_runs c le k s = Some s' -> inv s'.
Proof.
  intros I H. unfold call_runs in H. destruct (ca_phase k) as [t|[pid|]|pid| |]; try done.
  - destruct (task_done t s); [|done]. injection H as <-. by apply bk_inv_calls.
  - destruct le; [destruct (exited pid s); [|done]|]; injection H as <-; [by apply bk_inv_calls|by apply bk_inv_calls, inv_kill].
  - injection H as <-. by apply bk_inv_calls, inv_clear.
  - injection H as <-. by apply bk_inv_calls, inv_clear.
Qed.

Lemma stopped_exits pid p s q :
  bk_procs s !! pid = Some p -> stopped q s -> stopped q (with_procs (<[pid := mkProcess true (pr_killed p)]> (bk_procs s)) s).
Proof.
  intros E. unfold stopped, proc. cbn. destruct (decide (q = pid)) as [->|N].
  - rewrite list_lookup_insert_eq by by eapply lookup_lt_Some. by right.
  - by rewrite list_lookup_insert_ne.
Qed.

Lemma inv_exits pid p s :
  inv s -> bk_procs s !! pid = Some p -> inv (with_procs (<[pid := mkProcess true (pr_killed p)]> (bk_procs s)) s).
Proof.
  intros I E. apply (inv_fewer s); try done; [cbn; by rewrite length_insert|intros q; by apply stopped_exits|apply I].
Qed.

Lemma waiting_mono s s' :
  waiting_killed s -> bk_tasks s' = bk_tasks s -> (forall p, stopped p s -> stopped p s') -> waiting_killed s'.
Proof. intros Wk E St c. rewrite E. intros Hc P. by apply St, Wk. Qed.

Lemma waiting_set_task t c p s :
  waiting_killed s -> bk_tasks s !! t = Some c -> (p = TWaiting -> stopped (cl_pid c) s) -> waiting_killed (set_task t p s).
Proof.
  intros Wk E Hp y [Hy|(x & Ex & ->)]%elem_alter P; [by apply (Wk y)|]. rewrite E in Ex. injection Ex as <-. cbn in P. by apply Hp.
Qed.

Lemma stopped_app p x s : p < length (bk_procs s) -> stopped p s -> stopped p (with_procs (bk_procs s ++ [x]) s).
Proof. intros L. unfold stopped, proc. cbn. by rewrite lookup_app_l. Qed.

Lemma waiting_ensure run pid name s : waiting_killed s -> waiting_killed (ensure_cleanup_task run pid name s).
Proof.
  intros Wk. unfold ensure_cleanup_task. repeat case_match; [|done|];
    intros c [Hc| ->%list_elem_of_singleton]%elem_of_app P; try done; by apply (Wk c).
Qed.

Lemma waiting_spawned e x s s' : inv s -> waiting_killed s -> spawned e true x s = Some s' -> waiting_killed s'.
Proof.
  intros I Wk H. unfold spawned in H. destruct (ex_phase x); try done. injection H as <-.
  intros c Hc P. apply (stopped_app (cl_pid c)); [|by apply Wk].
  apply list_elem_of_lookup in Hc as [t E]. by eapply task_pid.
Qed.

Lemma bk_step_inv ev s s' :
  inv s /\ waiting_killed s -> fresh ev s -> step ev s = Some s' -> inv s' /\ waiting_killed s'.
Proof.
  intros [I Wk] F H. destruct ev as [run name|e ok|pid|e|e|t le|run|c le]; cbn [step] in H.
  - injection H as <-. split; [by apply inv_execute|by apply (waiting_mono s)].
  - destruct (bk_execs s !! e) as [x|] eqn:E; [|done]. cbn in H. destruct ok.
    + split; [by eapply inv_spawned|by eapply waiting_spawned].
    + unfold spawned in H. destruct (ex_phase x) eqn:P; try done. injection H as <-. split; [|by apply (waiting_mono s)].
      apply (inv_over e x); [done|done|apply spawning_inactive; [done|by eapply exec_here|done]|by rewrite P|done].
  - destruct (bk_procs s !! pid) as [p|] eqn:E; [|done]. injection H as <-.
    split; [by apply inv_exits|apply (waiting_mono s); [done..|intros q; by apply stopped_exits]].
  - destruct (bk_execs s !! e) as [x|] eqn:E; [|done]. cbn in H. split; [by eapply inv_communicated|].
    unfold communicated in H. destruct (ex_phase x); try done. destruct (exited pid s); [|done]. injection H as <-.
    by apply (waiting_mono s).
  - destruct (bk_execs s !! e) as [x|] eqn:E; [|done]. cbn in H. unfold cancelled in H.
    destruct (ex_phase x) eqn:P; try done; injection H as <-.
    + split; [|by apply (waiting_mono s)].
      apply (inv_over e x); [done|done|apply spawning_inactive; [done|by eapply exec_here|done]|by rewrite P|done].
    + split; [by apply inv_cancelled_task|]. by apply (waiting_ensure (ex_run x) pid (ex_name x)).
  - destruct (bk_tasks s !! t) as [c|] eqn:E; [|done]. cbn in H. split; [by eapply inv_task_runs|].
    unfold task_runs in H. destruct (cl_phase c) eqn:P; try done.
    + injection H as <-. by apply (waiting_set_task t c).
    + destruct le; [destruct (exited (cl_pid c) s); [|done]|]; injection H as <-; apply (waiting_set_task t c); try done.
      * by apply (waiting_mono s); [| |intros q; apply proc_alter_killed].
      * intros _. apply kill_stops. by eapply task_pid.
    + injection H as <-. by apply (waiting_set_task t c).
  - injection H as <-. split; [by apply inv_cancel|]. unfold cancel.
    repeat case_match; apply (waiting_mono s); try done; intros q; apply proc_alter_killed.
  - destruct (bk_calls s !! c) as [k|] eqn:E; [|done]. cbn in H. split; [by eapply inv_call_runs|].
    unfold call_runs in H. repeat case_match; simplify_eq; apply (waiting_mono s); try done; intros q; apply proc_alter_killed.
Qed.

Lemma reach_inv_backend s : reach s -> inv s /\ waiting_killed s.
Proof.
  induction 1 as [|ev s s' R IH F E]; [split; [apply bk_inv_init|by intros c ?%not_elem_of_nil]|by eapply bk_step_inv].
Qed.

(** ** What holds of the backend *)

Definition running (x : exec) : bool :=
  match ex_phase x with ESpawning | ECommunicating _ => true | _ => false end.
Definition unfinished (c : cleanup) : bool := match cl_phase c with TDone => false | _ => true end.

(** The cleanup task of a run, run to its end. *)
Fixpoint finish (n t : nat) (s : backend) : option backend :=
  match n with
  | O => Some s
  | S n => s' ← step (TaskRuns t false) s; finish n t s'
  end.

Definition at_phase (c : cleanup) (p : task_phase) : cleanup := mkCleanup (cl_run c) (cl_pid c) (cl_name c) p.

Lemma task_set t c p s : bk_tasks s !! t = Some c -> bk_tasks (set_task t p s) !! t = Some (at_phase c p).
Proof. intros E. cbn. by rewrite list_lookup_alter_eq, E. Qed.

Lemma task_step t c s : bk_tasks s !! t = Some c -> step (TaskRuns t false) s = task_runs t false c s.
Proof. intros E. cbn [step]. by rewrite E. Qed.

Lemma finish_waiting t c s :
  bk_tasks s !! t = Some c -> cl_phase c = TWaiting ->
  finish 1 t s = Some (set_task t TDone (clear_active_run (cl_run c) s)).
Proof. intros E P. cbn [finish]. rewrite (task_step t c) by done. unfold task_runs. by rewrite P. Qed.

Lemma finish_stopping t c s :
  bk_tasks s !! t = Some c -> cl_phase c = TStopping ->
  finish 2 t s = Some (set_task t TDone (clear_active_run (cl_run c) (set_task t TWaiting (kill (cl_pid c) s)))).
Proof.
  intros E P. remember 1 as n. cbn [finish]. rewrite (task_step t c) by done. unfold task_runs. rewrite P. cbn [mbind option_bind].
  subst n. by apply (finish_waiting t (at_phase c TWaiting)); [apply (task_set t c)|].
Qed.

Lemma finish_kills t c s :
  bk_tasks s !! t = Some c -> cl_pid c < length (bk_procs s) -> cl_phase c = TStart \/ cl_phase c = TStopping ->
  exists n s', n <= 3 /\ finish n t s = Some s' /\ task_done t s' = true /\ stopped (cl_pid c) s'.
Proof.
  intros E L P.
  destruct P as [P|P].
  - exists 3. eexists. split; [done|]. split.
    + remember 2 as n. cbn [finish]. rewrite (task_step t c) by done. unfold task_runs. rewrite P. cbn [mbind option_bind].
      subst n. apply (finish_stopping t (at_phase c TStopping)); [by apply (task_set t c)|done].
    + split; [unfold task_done; cbn; by rewrite !list_lookup_alter_eq, E|].
      by apply (kill_stops (cl_pid c) s).
  - exists 2. eexists. split; [lia|]. split; [by apply (finish_stopping t c)|].
    split; [unfold task_done; cbn; by rewrite !list_lookup_alter_eq, E|].
    by apply (kill_stops (cl_pid c) s).
Qed.

(** C28: No process is forgotten. In every reachable state the process of a
    cancelled execution has been told to stop, has exited, or has a cleanup task
    that is about to kill it; such a task ends after at most three of its own steps,
    whatever docker does, with the process told to stop; and when no execution
    and no cleanup is under way, the backend holds no entry. *)
Theorem cancelled_process_is_stopped s :
  reach s ->
  (forall x pid, x ∈ bk_execs s -> ex_phase x = ECancelled (Some pid) ->
     stopped pid s \/
     exists t c, bk_tasks s !! t = Some c /\ cl_run c = ex_run x /\ cl_pid c = pid /\
       exists n s', n <= 3 /\ finish n t s = Some s' /\ task_done t s' = true /\ stopped pid s') /\
  (Forall (fun x => running x = false) (bk_execs s) -> Forall (fun c => unfinished c = false) (bk_tasks s) ->
   bk_active s = ∅ /\ bk_names s = ∅ /\ bk_cleanup s = ∅).
Proof.
  intros R. destruct (reach_inv_backend s R) as [I Wk]. split.
  - intros x pid Hx P. destruct (bi_cancelled s I x pid Hx P) as [A|(c & Hc & Rc & Pc & Ph)]; [by left|right].
    apply list_elem_of_lookup in Hc as [t E]. exists t, c. split; [done|]. split; [done|]. split; [done|].
    assert (L : pid < length (bk_procs s)) by (rewrite <- Pc; by eapply task_pid).
    destruct (finish_kills t c s E) as (n & s' & Ln & Fn & D & K); [by rewrite Pc|done|].
    exists n, s'. rewrite Pc in K. done.
  - intros Fx Ft. rewrite Forall_forall in Fx. rewrite Forall_forall in Ft.
    assert (A : forall run, bk_active s !! run = None).
    { intros run. destruct (bk_active s !! run) as [pid|] eqn:E; [|done].
      destruct (bi_active s I _ _ E) as (x & Hx & _ & [P|[_ (c & Hc & _ & N)]]).
      - specialize (Fx x Hx). unfold running in Fx. by rewrite P in Fx.
      - specialize (Ft c Hc). unfold unfinished in Ft. by destruct (cl_phase c). }
    split; [by apply map_empty|]. split; apply map_empty; intros run.
    + destruct (bk_names s !! run) eqn:E; [|done].
      destruct (proj1 (bi_names s I run)) as [p Ep]; [by rewrite E|]. by rewrite A in Ep.
    + destruct (bk_cleanup s !! run) as [t|] eqn:E; [|done]. destruct (bi_cleanup s I _ _ E) as (c & Ec & _ & N).
      specialize (Ft c (list_elem_of_lookup_2 _ _ _ Ec)). unfold unfinished in Ft. by destruct (cl_phase c).
Qed.

(** ** Concrete runs *)

Definition run_events (evs : list backend_event) : option backend :=
  foldl (fun o ev => s ← o; step ev s) (Some init_backend) evs.

(** A cancel that arrives while the process is being created finds nothing to stop and
    is over; then the process starts, and nobody is left to kill it. *)
Example cancel_before_spawn_is_lost :
  (fun s => (ca_phase <$> bk_calls s, ex_phase <$> bk_execs s, bk_procs s)) <$>
    run_events [Execute "r" "c"; Cancel "r"; Spawned 0 true] =
  Some ([KDone], [ECommunicating 0], [mkProcess false false]).
Proof. vm_compute. reflexivity. Qed.

(** docker stops the container, so the process has exited when it is to be killed: the
    error of [kill] ends [cancel] before the entries are cleared. *)
Example kill_of_an_exited_process :
  (fun s => (ca_phase <$> bk_calls s, bk_active s !! "r")) <$>
    run_events [Execute "r" "c"; Spawned 0 true; Cancel "r"; Exits 0; CallRuns 0 true] =
  Some ([KRaised], Some 0).
Proof. vm_compute. reflexivity. Qed.

Definition bx_spawned : backend := default init_backend (run_events [Execute "r" "c"; Spawned 0 true]).
Definition bx_state : backend := default init_backend (run_events [Execute "r" "c"; Spawned 0 true; Cancelled 0]).
Lemma bx_reach : reach bx_state.
Proof.
  apply (reach_step (Cancelled 0) bx_spawned); [|exact I|reflexivity].
  apply (reach_step (Spawned 0 true) (with_execs [mkExec "r" "c" ESpawning] init_backend)); [|exact I|reflexivity].
  apply (reach_step (Execute "r" "c") init_backend); [apply reach_init|by intros x ?%not_elem_of_nil|reflexivity].
Qed.

Lemma cancelled_process_is_stopped_witness :
  stopped 0 bx_state \/
  exists t c, bk_tasks bx_state !! t = Some c /\ cl_run c = "r" /\ cl_pid c = 0 /\
    exists n s', n <= 3 /\ finish n t bx_state = Some s' /\ task_done t s' = true /\ stopped 0 s'.
Proof.
  apply (proj1 (cancelled_process_is_stopped bx_state bx_reach) (mkExec "r" "c" (ECancelled (Some 0))) 0);
    [left|reflexivity].
Defined.
