(* ===== verification/HostProcess.v ===== *)
(** * Host processes ([ProcessExecutor] of [infra/exec/process.py])

    What an execution on the host is checked for, and the life of its process, with
    [HostProcessBackend]: executions, the cleanup tasks of cancelled ones, and the calls
    of [cancel], as a transition system like that of Backends.v. Processes exit when they
    like; [kill] may raise [ProcessLookupError], but only for a process that has exited. *)

From stdpp Require Import base tactics list option gmap strings.
From Stdlib Require Import ZArith Ascii.
From S2P Require Import Prelude PyStr SafePath Backends.

(** ** Restrictions *)

(** A rule: a text of the command line, or the first arguments. *)
Inductive command_rule := RText (text : string) | RPrefix (args : list string).

Record HostModeRestrictions := mkRestrictions {
  hr_allowed_directories : list path;
  hr_forbidden_commands : list command_rule;
  hr_max_execution_time : Z
}.

Definition DEFAULT_MAX_EXECUTION_TIME : Z := 3600.
Definition DEFAULT_FORBIDDEN : list command_rule := [RText "rm -rf /"; RText "dd if="].

(** [p in s]. *)
Definition contains (p s : string) : bool :=
  match py_find (str_chars p) (str_chars s) 0 with Some _ => true | None => false end.
Definition endswith_eq (s : string) : bool := bool_decide (last (str_chars s) = Some "="%char).

Definition rule_matches (command : list string) (rule : command_rule) : bool :=
  match rule with
  | RText text => contains text (String.concat " " command)
  | RPrefix args =>
      match last args with
      | None => false
      | Some final =>
          if bool_decide (length command < length args) then false
          else if endswith_eq final then
            let static_prefix := take (length args - 1) args in
            bool_decide (take (length static_prefix) command = static_prefix) &&
            match command !! length static_prefix with Some candidate => startswith final candidate | None => false end
          else bool_decide (take (length args) command = args)
      end
  end.

(** [is_command_forbidden]: the loop over the rules. *)
Fixpoint is_command_forbidden (command : list string) (forbidden_prefixes : list command_rule) : bool :=
  match forbidden_prefixes with
  | [] => false
  | rule :: rules => if rule_matches command rule then true else is_command_forbidden command rules
  end.

(** The [restrictions] argument: absent, an object, or a mapping with optional keys. *)
Inductive restrictions_arg :=
| NoRestrictions
| Restrictions (r : HostModeRestrictions)
| RestrictionsMap (allowed_directories : option (list path)) (forbidden_commands : option (list command_rule))
    (max_execution_time : option Z).

Inductive process_error :=
| GroupOutside
| RunnerOutside
| ForbiddenCommand
| StartFailed
| TimedOutError (seconds : Z).

Section executor.
Variable resolve : path -> path.
Variable expanduser : path -> path.

Definition normalize_restrictions (restrictions : restrictions_arg) (data_root runner_root : path) : HostModeRestrictions :=
  match restrictions with
  | NoRestrictions =>
      mkRestrictions [resolve (data_root ++ ["groups"]); resolve runner_root] DEFAULT_FORBIDDEN DEFAULT_MAX_EXECUTION_TIME
  | Restrictions r =>
      mkRestrictions (map (fun p => resolve (expanduser p)) (hr_allowed_directories r)) (hr_forbidden_commands r)
        (hr_max_execution_time r)
  | RestrictionsMap allowed forbidden max =>
      mkRestrictions (map (fun p => resolve (expanduser p)) (default [] allowed)) (default [] forbidden)
        (default DEFAULT_MAX_EXECUTION_TIME max)
  end.

(** [ProcessExecutor.__init__]. *)
Record executor := mkExecutor {
  xe_data_root : path;
  xe_runner_root : path;
  xe_python : string;
  xe_restrictions : HostModeRestrictions
}.
Definition new_executor (data_root runner_root : path) (python : string) (restrictions : restrictions_arg) : executor :=
  let data_root := resolve (expanduser data_root) in
  let runner_root := resolve (expanduser runner_root) in
  mkExecutor data_root runner_root python (normalize_restrictions restrictions data_root runner_root).

Section checks.
Variable x : executor.

Definition build_command : list string := [xe_python x; "-m"; "src.runner"].

(** [Path / text] of a relative text. *)
Definition join_segments (root : path) (text : string) : path :=
  let fix go (acc l : list ascii) : path :=
    match l with
    | [] => [of_chars (rev acc)]
    | c :: l => if bool_decide (c = "/"%char) then of_chars (rev acc) :: go [] l else go (c :: acc) l
    end in
  root ++ List.filter (fun s => negb (bool_decide (s = "" \/ s = "."))) (go [] (str_chars text)).
(** An absolute text replaces the root. *)
Definition join_path (root : path) (text : string) : path :=
  join_segments (if startswith "/" text then [] else root) text.

Definition resolve_group_dir (group_folder : string) : result process_error path :=
  let group_dir := resolve (join_path (xe_data_root x ++ ["groups"]) group_folder) in
  if validate_path resolve group_dir (hr_allowed_directories (xe_restrictions x)) then Ok group_dir
  else raise GroupOutside.
Definition validate_runner_root : result process_error path :=
  if validate_path resolve (xe_runner_root x) (hr_allowed_directories (xe_restrictions x)) then Ok (xe_runner_root x)
  else raise RunnerOutside.
Definition resolve_timeout (timeout : option Z) : Z :=
  match timeout with
  | None => hr_max_execution_time (xe_restrictions x)
  | Some t => Z.min t (hr_max_execution_time (xe_restrictions x))
  end.

(** [build_env]. *)
Definition build_env (environ : gmap string string) (group_folder group_dir : string) : gmap string string :=
  <["PORTEX_GROUP_DIR" := group_dir]> (<["PORTEX_GROUP_FOLDER" := group_folder]> (<["PORTEX_RUN_MODE" := "host"]> environ)).

(** [run_agent] up to the creation of the process: its directories, command and timeout. *)
Definition prepare_run (group_folder : string) (timeout : option Z) :
    result process_error (path * path * list string * Z) :=
  group_dir ← resolve_group_dir group_folder;
  runner_root ← validate_runner_root;
  if is_command_forbidden build_command (hr_forbidden_commands (xe_restrictions x)) then raise ForbiddenCommand
  else Ok (group_dir, runner_root, build_command, resolve_timeout timeout).
End checks.
End executor.

(** ** The life of the processes *)

(** [run_agent]: waiting for the process to be created, for its output, after a timeout
    for its end, or over, with the process it had. *)
Inductive run_phase :=
| HSpawning
| HCommunicating (pid : nat)
| HWaiting (pid : nat)
| HReturned (pid : nat)
| HTimedOut (pid : nat)
| HCancelled (pid : option nat)
| HFailed
| HRaised (pid : nat).
Record run := mkRun { ru_id : string; ru_phase : run_phase }.

(** [_cleanup_after_cancellation]: not started, in [wait], over. *)
Inductive reap_phase := RStart | RWaiting | RDone.
Record reaper := mkReaper { rp_run : string; rp_pid : nat; rp_phase : reap_phase }.

(** [cancel]: waiting for the cleanup task or for the process, or over. *)
Inductive kill_phase := PGather (t : nat) | PWaiting (pid : nat) | PDone (found : bool) | PRaised.
Record kill_call := mkKill { kc_run : string; kc_phase : kill_phase }.

Record host := mkHost {
  ho_active : gmap string nat;
  ho_cleanup : gmap string nat;
  ho_runs : list run;
  ho_tasks : list reaper;
  ho_calls : list kill_call;
  ho_procs : list process
}.
Definition init_host : host := mkHost ∅ ∅ [] [] [] [].

Definition set_run (e : nat) (p : run_phase) (s : host) : host :=
  mkHost (ho_active s) (ho_cleanup s) (alter (fun x => mkRun (ru_id x) p) e (ho_runs s)) (ho_tasks s) (ho_calls s) (ho_procs s).
Definition set_reaper (t : nat) (p : reap_phase) (s : host) : host :=
  mkHost (ho_active s) (ho_cleanup s) (ho_runs s) (alter (fun x => mkReaper (rp_run x) (rp_pid x) p) t (ho_tasks s))
    (ho_calls s) (ho_procs s).
Definition set_kill (c : nat) (p : kill_phase) (s : host) : host :=
  mkHost (ho_active s) (ho_cleanup s) (ho_runs s) (ho_tasks s) (alter (fun x => mkKill (kc_run x) p) c (ho_calls s)) (ho_procs s).
Definition add_kill (k : kill_call) (s : host) : host :=
  mkHost (ho_active s) (ho_cleanup s) (ho_runs s) (ho_tasks s) (ho_calls s ++ [k]) (ho_procs s).

Definition host_exited (pid : nat) (s : host) : bool :=
  match ho_procs s !! pid with Some p => pr_exited p | None => false end.
(** [process.kill()]; [None] is the [ProcessLookupError]. *)
Definition host_kill (pid : nat) (lookup_error : bool) (s : host) : option host :=
  if lookup_error then None
  else Some (mkHost (ho_active s) (ho_cleanup s) (ho_runs s) (ho_tasks s) (ho_calls s)
               (alter (fun p => mkProcess (pr_exited p) true) pid (ho_procs s))).

Definition host_clear (run_id : string) (s : host) : host :=
  mkHost (delete run_id (ho_active s)) (delete run_id (ho_cleanup s)) (ho_runs s) (ho_tasks s) (ho_calls s) (ho_procs s).

Definition reaper_done (t : nat) (s : host) : bool :=
  match ho_tasks s !! t with Some c => match rp_phase c with RDone => true | _ => false end | None => true end.

(** [_ensure_cleanup_task]. *)
Definition host_ensure_cleanup (run_id : string) (pid : nat) (s : host) : host :=
  let create := mkHost (ho_active s) (<[run_id := length (ho_tasks s)]> (ho_cleanup s)) (ho_runs s)
                  (ho_tasks s ++ [mkReaper run_id pid RStart]) (ho_calls s) (ho_procs s) in
  match ho_cleanup s !! run_id with
  | Some t => if reaper_done t s then create else s
  | None => create
  end.

Inductive host_event :=
| HostRun (run_id : string)
| HostSpawned (e : nat) (ok : bool)
| HostExits (pid : nat)
| HostOutput (e : nat)
(** [wait_for] times out; the task of the execution is cancelled *)
| HostTimeout (e : nat) (lookup_error : bool)
| HostCancelled (e : nat) (lookup_error : bool)
(** the wait after a timeout ends *)
| HostWaited (e : nat)
| ReaperRuns (t : nat)
| HostCancel (run_id : string) (lookup_error : bool)
| KillRuns (c : nat).

(** An exception may only come from [kill] when the process has exited. *)
Definition may_raise (pid : nat) (lookup_error : bool) (s : host) : bool := implb lookup_error (host_exited pid s).

Definition host_spawned (e : nat) (ok : bool) (x : run) (s : host) : option host :=
  match ru_phase x with
  | HSpawning =>
      if ok then
        let pid := length (ho_procs s) in
        Some (mkHost (<[ru_id x := pid]> (ho_active s)) (ho_cleanup s)
                (alter (fun x => mkRun (ru_id x) (HCommunicating pid)) e (ho_runs s)) (ho_tasks s) (ho_calls s)
                (ho_procs s ++ [mkProcess false false]))
      else Some (set_run e HFailed s)
  | _ => None
  end.

Definition host_output (e : nat) (x : run) (s : host) : option host :=
  match ru_phase x with
  | HCommunicating pid => if host_exited pid s then Some (set_run e (HReturned pid) (host_clear (ru_id x) s)) else None
  | _ => None
  end.

(** [except asyncio.TimeoutError]. *)
Definition host_timeout (e : nat) (lookup_error : bool) (x : run) (s : host) : option host :=
  match ru_phase x with
  | HCommunicating pid =>
      if may_raise pid lookup_error s then
        Some (match host_kill pid lookup_error s with Some s => set_run e (HWaiting pid) s | None => set_run e (HRaised pid) s end)
      else None
  | _ => None
  end.

(** The [CancelledError] at the await of [run_agent]. *)
Definition host_cancelled (e : nat) (lookup_error : bool) (x : run) (s : host) : option host :=
  match ru_phase x with
  | HSpawning => Some (set_run e (HCancelled None) s)
  | HCommunicating pid =>
      if may_raise pid lookup_error s then
        Some (match host_kill pid lookup_error s with
              | Some s => set_run e (HCancelled (Some pid)) (host_ensure_cleanup (ru_id x) pid s)
              | None => set_run e (HRaised pid) s
              end)
      else None
  | HWaiting pid => Some (set_run e (HCancelled (Some pid)) s)
  | _ => None
  end.

Definition host_waited (e : nat) (x : run) (s : host) : option host :=
  match ru_phase x with
  | HWaiting pid => if host_exited pid s then Some (set_run e (HTimedOut pid) (host_clear (ru_id x) s)) else None
  | _ => None
  end.

(** [_cleanup_after_cancellation]: [wait] may time out. *)
Definition reaper_runs (t : nat) (c : reaper) (s : host) : option host :=
  match rp_phase c with
  | RStart => Some (set_reaper t RWaiting s)
  | RWaiting => Some (set_reaper t RDone (host_clear (rp_run c) s))
  | RDone => None
  end.

(** [cancel] up to its await. *)
Definition host_cancel (run_id : string) (lookup_error : bool) (s : host) : option host :=
  match ho_active s !! run_id with
  | None => Some (add_kill (mkKill run_id (PDone false)) s)
  | Some pid =>
      if may_raise pid lookup_error s then
        Some (match host_kill pid lookup_error s with
              | None => add_kill (mkKill run_id PRaised) s
              | Some s' =>
                  add_kill (mkKill run_id
                    (match ho_cleanup s !! run_id with
                     | Some t => if reaper_done t s then PWaiting pid else PGather t
                     | None => PWaiting pid
                     end)) s'
              end)
      else None
  end.

Definition kill_runs (c : nat) (k : kill_call) (s : host) : option host :=
  match kc_phase k with
  | PGather t => if reaper_done t s then Some (set_kill c (PDone true) s) else None
  | PWaiting _ => Some (set_kill c (PDone true) (host_clear (kc_run k) s))
  | PDone _ | PRaised => None
  end.

Definition host_step (ev : host_event) (s : host) : option host :=
  match ev with
  | HostRun run_id =>
      Some (mkHost (ho_active s) (ho_cleanup s) (ho_runs s ++ [mkRun run_id HSpawning]) (ho_tasks s) (ho_calls s) (ho_procs s))
  | HostSpawned e ok => x ← ho_runs s !! e; host_spawned e ok x s
  | HostExits pid =>
      p ← ho_procs s !! pid;
      Some (mkHost (ho_active s) (ho_cleanup s) (ho_runs s) (ho_tasks s) (ho_calls s)
              (<[pid := mkProcess true (pr_killed p)]> (ho_procs s)))
  | HostOutput e => x ← ho_runs s !! e; host_output e x s
  | HostTimeout e lookup_error => x ← ho_runs s !! e; host_timeout e lookup_error x s
  | HostCancelled e lookup_error => x ← ho_runs s !! e; host_cancelled e lookup_error x s
  | HostWaited e => x ← ho_runs s !! e; host_waited e x s
  | ReaperRuns t => c ← ho_tasks s !! t; reaper_runs t c s
  | HostCancel run_id lookup_error => host_cancel run_id lookup_error s
  | KillRuns c => k ← ho_calls s !! c; kill_runs c k s
  end.

Definition host_fresh (ev : host_event) (s : host) : Prop :=
  match ev with HostRun run_id => forall x, x ∈ ho_runs s -> ru_id x <> run_id | _ => True end.
Inductive host_reach : host -> Prop :=
| host_init : host_reach init_host
| host_next ev s s' : host_reach s -> host_fresh ev s -> host_step ev s = Some s' -> host_reach s'.
