(* ===== verification/HostProcessProps.v ===== *)
(** * Properties of host processes *)

From stdpp Require Import base tactics list option gmap strings.
From Stdlib Require Import ZArith Lia.
From S2P Require Import Prelude PyStr SafePath Backends HostProcess.

(** ** The checks of an execution *)

(** A rule forbids a command: its text occurs in the command line, or the command starts
    with its arguments, the last one up to its [=] if it ends in one. *)
Definition forbids (command : list string) (rule : command_rule) : Prop :=
  match rule with
  | RText text => contains text (String.concat " " command) = true
  | RPrefix args =>
      exists init final, args = init ++ [final] /\
        if endswith_eq final then exists arg rest, command = init ++ arg :: rest /\ startswith final arg = true
        else exists rest, command = args ++ rest
  end.

Lemma take_prefix {A} (l k : list A) : take (length k) l = k <-> exists r, l = k ++ r.
Proof.
  split.
  - intros E. exists (drop (length k) l). rewrite <- E at 1. by rewrite take_drop.
  - intros [r ->]. by rewrite take_app_length.
Qed.

Lemma rule_matches_spec command rule : rule_matches command rule = true <-> forbids command rule.
Proof.
  destruct rule as [text|args]; [done|]. unfold rule_matches, forbids.
  destruct args as [|final init _] using rev_ind.
  { cbn. split; [done|]. intros (i & f & E & _). by destruct i. }
  rewrite last_snoc, length_app. cbn [length].
  replace (length init + 1 - 1) with (length init) by lia. rewrite take_app_length.
  assert (U : forall i f, init ++ [final] = i ++ [f] -> i = init /\ f = final).
  { intros i f E%app_inj_tail. naive_solver. }
  case_bool_decide as L.
  - split; [done|]. intros (i & f & [-> ->]%U & H). destruct (endswith_eq final).
    + destruct H as (arg & rest & -> & _). rewrite length_app in L. cbn in L. lia.
    + destruct H as [rest ->]. rewrite !length_app in L. cbn in L. lia.
  - destruct (endswith_eq final) eqn:Eq.
    + rewrite andb_true_iff, bool_decide_eq_true, take_prefix. split.
      * intros [[r ->] M]. exists init, final. split; [done|]. rewrite Eq.
        rewrite lookup_app_r, Nat.sub_diag in M by done.
        destruct r as [|arg rest]; [done|]. exists arg, rest. by split.
      * intros (i & f & [-> ->]%U & H). rewrite Eq in H. destruct H as (arg & rest & -> & S). split; [by eexists|].
        by rewrite lookup_app_r, Nat.sub_diag.
    + replace (length init + 1) with (length (init ++ [final])) by (rewrite length_app; done).
      rewrite bool_decide_eq_true, take_prefix. split.
      * intros H. exists init, final. by rewrite Eq.
      * intros (i & f & [-> ->]%U & H). by rewrite Eq in H.
Qed.

Lemma is_command_forbidden_spec command rules :
  is_command_forbidden command rules = true <-> exists rule, rule ∈ rules /\ forbids command rule.
Proof.
  induction rules as [|rule rules IH]; cbn [is_command_forbidden].
  - split; [done|]. by intros (r & ?%not_elem_of_nil & _).
  - destruct (rule_matches command rule) eqn:M.
    + split; [|done]. intros _. exists rule. split; [left|by apply rule_matches_spec].
    + rewrite IH. split.
      * intros (r & H & F). exists r. split; [by right|done].
      * intros (r & [->|H]%elem_of_cons & F); [|by exists r]. apply rule_matches_spec in F. congruence.
Qed.

(** What an execution on the host may do. For the default restrictions, if the checks of a
    run pass, its group directory and the directory of the runner are, with symbolic links
    followed, below the directory of the groups or that of the runner; the command is
    the runner, and no rule forbids it; and the timeout is at most an hour. *)
Theorem host_run_confined resolve expanduser data_root runner_root python group_folder timeout d r c t :
  let x := new_executor resolve expanduser data_root runner_root python NoRestrictions in
  (forall p, resolve (resolve p) = resolve p) ->
  prepare_run resolve x group_folder timeout = Ok (d, r, c, t) ->
  (path_prefix (resolve (xe_data_root x ++ ["groups"])) d = true \/ path_prefix (xe_runner_root x) d = true) /\
  r = xe_runner_root x /\ c = build_command x /\
  (forall rule, rule ∈ DEFAULT_FORBIDDEN -> ~ forbids c rule) /\
  (t <= 3600)%Z /\ (forall limit, timeout = Some limit -> t <= limit)%Z.
Proof.
  intros x Idem H. unfold prepare_run, resolve_group_dir, validate_runner_root in H.
  set (dir := resolve _) in H. destruct (validate_path resolve dir _) eqn:V; [|done].
  destruct (validate_path resolve (xe_runner_root x) _) eqn:V'; [|done]. cbn [mbind result_bind] in H.
  destruct (is_command_forbidden _ _) eqn:F; [done|]. injection H as <- <- <- <-.
  split; [|split; [done|split; [done|split]]].
  - unfold validate_path, x in V. cbn in V. unfold dir in V. rewrite !Idem, orb_false_r in V. fold x dir in V.
    apply orb_true_iff in V. exact V.
  - intros rule Hr Fr. assert (is_command_forbidden (build_command x) DEFAULT_FORBIDDEN = true)
      by (apply is_command_forbidden_spec; by exists rule). change (hr_forbidden_commands (xe_restrictions x)) with DEFAULT_FORBIDDEN in F. congruence.
  - unfold resolve_timeout, x. cbn. unfold DEFAULT_MAX_EXECUTION_TIME.
    destruct timeout; (split; [lia|]); intros l [= <-]; lia.
Qed.

(** ** The processes *)

Definition pid_of (p : run_phase) : option nat :=
  match p with
  | HCommunicating pid | HWaiting pid | HReturned pid | HTimedOut pid | HCancelled (Some pid) | HRaised pid => Some pid
  | HSpawning | HCancelled None | HFailed => None
  end.
(** The process exists, and has exited or been killed. *)
Definition down (pid : nat) (s : host) : Prop :=
  exists p, ho_procs s !! pid = Some p /\ (pr_killed p = true \/ pr_exited p = true).

Record host_inv (s : host) : Prop := {
  hi_runs : NoDup (ru_id <$> ho_runs s);
  hi_pids : forall x pid, x ∈ ho_runs s -> pid_of (ru_phase x) = Some pid ->
    down pid s \/
    (ru_phase x = HCommunicating pid /\ ho_active s !! ru_id x = Some pid /\ pid < length (ho_procs s));
  hi_active : forall r pid, ho_active s !! r = Some pid ->
    exists x, x ∈ ho_runs s /\ ru_id x = r /\ pid_of (ru_phase x) = Some pid;
  hi_tasks : forall c, c ∈ ho_tasks s ->
    exists x, x ∈ ho_runs s /\ ru_id x = rp_run c /\ pid_of (ru_phase x) = Some (rp_pid c) /\ down (rp_pid c) s;
  hi_calls : forall k pid, k ∈ ho_calls s -> kc_phase k = PWaiting pid ->
    exists x, x ∈ ho_runs s /\ ru_id x = kc_run k /\ pid_of (ru_phase x) = Some pid /\ down pid s
}.

Lemma host_inv_init : host_inv init_host.
Proof.
  split; cbn; [constructor|by intros x pid ?%not_elem_of_nil|intros r pid; by rewrite lookup_empty
              |by intros c ?%not_elem_of_nil|by intros k pid ?%not_elem_of_nil].
Qed.

Lemma down_exited pid s : host_exited pid s = true -> down pid s.
Proof. unfold host_exited, down. destruct (ho_procs s !! pid) as [p|]; [|done]. intros E. exists p. auto. Qed.

Lemma host_same_run s x y : host_inv s -> x ∈ ho_runs s -> y ∈ ho_runs s -> ru_id x = ru_id y -> x = y.
Proof. intros I. apply same_key, I. Qed.

(** A run that has a process: it is the only one of its id. *)
Lemma pid_unique s x y pid :
  host_inv s -> x ∈ ho_runs s -> y ∈ ho_runs s -> ru_id x = ru_id y -> pid_of (ru_phase x) = Some pid -> pid_of (ru_phase y) = Some pid.
Proof. intros I Hx Hy E. by rewrite (host_same_run s x y I Hx Hy E). Qed.

(** The processes change, but none comes up again. *)
Lemma inv_procs s procs :
  host_inv s -> length procs = length (ho_procs s) ->
  let s' := mkHost (ho_active s) (ho_cleanup s) (ho_runs s) (ho_tasks s) (ho_calls s) procs in
  (forall pid, down pid s -> down pid s') -> host_inv s'.
Proof.
  intros [A B C D E] L s' H. split; cbn; [done| |done| |].
  - intros x pid Hx P. rewrite L. destruct (B x pid Hx P); auto.
  - intros c Hc. destruct (D c Hc) as (x & X). exists x. naive_solver.
  - intros k pid Hk P. destruct (E k pid Hk P) as (x & X). exists x. naive_solver.
Qed.

Lemma host_kill_down pid s s' p : host_kill pid false s = Some s' -> down p s -> down p s'.
Proof.
  intros [= <-] (q & E & H). unfold down. cbn. destruct (decide (p = pid)) as [->|N].
  - rewrite list_lookup_alter_eq, E. cbn. eexists. split; [done|by left].
  - rewrite list_lookup_alter_ne by done. by exists q.
Qed.

Lemma host_kill_kills pid s s' : host_kill pid false s = Some s' -> pid < length (ho_procs s) -> down pid s'.
Proof.
  intros [= <-] L. unfold down. cbn. rewrite list_lookup_alter_eq.
  destruct (ho_procs s !! pid) as [p|] eqn:E; [|apply lookup_ge_None in E; lia]. eexists. split; [reflexivity|by left].
Qed.

Lemma inv_host_kill pid s s' : host_inv s -> host_kill pid false s = Some s' -> host_inv s'.
Proof.
  intros I K. pose proof (fun p => host_kill_down pid s s' p K) as M. injection K as <-.
  apply inv_procs; [done|by rewrite length_alter|done].
Qed.

Lemma inv_host_exits pid p s :
  host_inv s -> ho_procs s !! pid = Some p ->
  host_inv (mkHost (ho_active s) (ho_cleanup s) (ho_runs s) (ho_tasks s) (ho_calls s) (<[pid := mkProcess true (pr_killed p)]> (ho_procs s))).
Proof.
  intros I E. apply inv_procs; [done|by rewrite length_insert|]. intros q (p' & Eq & H). unfold down. cbn.
  destruct (decide (q = pid)) as [->|N].
  - rewrite list_lookup_insert_eq by by eapply lookup_lt_Some. eexists. split; [done|by right].
  - rewrite list_lookup_insert_ne by done. by exists p'.
Qed.

(** The entries of a run go, whose process is down. *)
Lemma inv_host_clear r s :
  host_inv s -> (forall x pid, x ∈ ho_runs s -> ru_id x = r -> pid_of (ru_phase x) = Some pid -> down pid s) ->
  host_inv (host_clear r s).
Proof.
  intros [A B C D E] H. split; cbn; try done.
  - intros x pid Hx P. destruct (B x pid Hx P) as [K|(P' & Ac & L)]; [by left|].
    destruct (decide (r = ru_id x)) as [->|N]; [left; by apply (H x)|right]. by rewrite lookup_delete_ne.
  - intros r' pid [N Ac]%lookup_delete_Some. by apply C.
Qed.

(** One run goes on with the same process, which is down. *)
Lemma inv_set_run e x p s :
  host_inv s -> ho_runs s !! e = Some x -> pid_of p = pid_of (ru_phase x) ->
  (forall pid, pid_of p = Some pid -> down pid s) -> host_inv (set_run e p s).
Proof.
  intros [A B C D E] Ex Ep Hd. set (f := fun x => mkRun (ru_id x) p).
  assert (New : forall y, y ∈ alter f e (ho_runs s) -> y ∈ ho_runs s \/ y = f x).
  { intros y [Hy|(x' & Ex' & ->)]%elem_alter; [by left|right; congruence]. }
  assert (Old : forall (r : string) pid, (exists y, y ∈ ho_runs s /\ ru_id y = r /\ pid_of (ru_phase y) = Some pid) ->
    exists y, y ∈ alter f e (ho_runs s) /\ ru_id y = r /\ pid_of (ru_phase y) = Some pid).
  { intros r pid (y & Hy & R & P). destruct (alter_elem f e _ y Hy) as [Ey|Hy']; [|by exists y].
    exists (f x). split; [by apply alter_here|]. assert (y = x) as -> by congruence. split; [done|]. cbn. by rewrite Ep. }
  split; cbn.
  - by rewrite fmap_alter_same.
  - intros y pid [Hy| ->]%New P; [by apply B|left; by apply Hd].
  - intros r pid H. by apply Old, C.
  - intros c Hc. destruct (D c Hc) as (y & Hy & R & P & K). destruct (Old (rp_run c) (rp_pid c)) as (z & Z); [by exists y|].
    exists z. naive_solver.
  - intros k pid Hk Pk. destruct (E k pid Hk Pk) as (y & Hy & R & P & K). destruct (Old (kc_run k) pid) as (z & Z); [by exists y|].
    exists z. naive_solver.
Qed.

Lemma inv_tasks tasks s :
  host_inv s -> (forall c, c ∈ tasks -> exists x, x ∈ ho_runs s /\ ru_id x = rp_run c /\ pid_of (ru_phase x) = Some (rp_pid c) /\ down (rp_pid c) s) ->
  forall cleanup, host_inv (mkHost (ho_active s) cleanup (ho_runs s) tasks (ho_calls s) (ho_procs s)).
Proof. by intros [A B C D E] H cleanup. Qed.

Lemma inv_host_calls calls s :
  host_inv s ->
  (forall k pid, k ∈ calls -> kc_phase k = PWaiting pid ->
     exists x, x ∈ ho_runs s /\ ru_id x = kc_run k /\ pid_of (ru_phase x) = Some pid /\ down pid s) ->
  host_inv (mkHost (ho_active s) (ho_cleanup s) (ho_runs s) (ho_tasks s) calls (ho_procs s)).
Proof. by intros [A B C D E] H. Qed.

Lemma inv_host_spawned e x s s' :
  host_inv s -> ho_runs s !! e = Some x -> host_spawned e true x s = Some s' -> host_inv s'.
Proof.
  intros I Ex H. unfold host_spawned in H. destruct (ru_phase x) eqn:Ph; try done. injection H as <-.
  pose proof I as [A B C D E]. set (pid := length (ho_procs s)). set (f := fun x => mkRun (ru_id x) (HCommunicating pid)).
  assert (Hx : x ∈ ho_runs s) by (by eapply list_elem_of_lookup_2).
  assert (Dn : forall q s0, down q s -> ho_procs s0 = ho_procs s ++ [mkProcess false false] -> down q s0).
  { intros q s0 (p & Eq & Hp) E0. exists p. rewrite E0. split; [by apply lookup_app_l_Some|done]. }
  assert (New : forall y, y ∈ alter f e (ho_runs s) -> y ∈ ho_runs s \/ y = f x).
  { intros y [Hy|(x' & Ex' & ->)]%elem_alter; [by left|right; congruence]. }
  assert (Old : forall (r : string) q, (exists y, y ∈ ho_runs s /\ ru_id y = r /\ pid_of (ru_phase y) = Some q) ->
    exists y, y ∈ alter f e (ho_runs s) /\ ru_id y = r /\ pid_of (ru_phase y) = Some q).
  { intros r q (y & Hy & R & P). destruct (alter_elem f e _ y Hy) as [Ey|Hy']; [|by exists y].
    assert (y = x) as -> by congruence. by rewrite Ph in P. }
  split; cbn.
  - by rewrite fmap_alter_same.
  - intros y q [Hy| ->]%New P; rewrite length_app; cbn in P |- *.
    + destruct (B y q Hy P) as [K|(P' & Ac & L)]; [left; by eapply Dn|right]. split; [done|]. split; [|lia].
      rewrite lookup_insert_ne; [done|]. intros R. rewrite (host_same_run s x y I Hx Hy R) in Ph. congruence.
    + injection P as <-. right. split; [done|]. split; [by rewrite lookup_insert_eq|]. subst pid. lia.
  - intros r q [[<- <-]|[N Ac]]%lookup_insert_Some; [|by apply Old, C].
    exists (f x). split; [by apply alter_here|done].
  - intros c Hc. destruct (D c Hc) as (y & Hy & R & P & K). destruct (Old (rp_run c) (rp_pid c)) as (z & Hz & Rz & Pz); [by exists y|].
    exists z. repeat split; try done. by eapply Dn.
  - intros k q Hk Pk. destruct (E k q Hk Pk) as (y & Hy & R & P & K). destruct (Old (kc_run k) q) as (z & Hz & Rz & Pz); [by exists y|].
    exists z. repeat split; try done. by eapply Dn.
Qed.

Lemma inv_host_ensure r pid s :
  host_inv s -> (exists x, x ∈ ho_runs s /\ ru_id x = r /\ pid_of (ru_phase x) = Some pid /\ down pid s) ->
  host_inv (host_ensure_cleanup r pid s).
Proof.
  intros I K. unfold host_ensure_cleanup.
  assert (N : host_inv (mkHost (ho_active s) (<[r := length (ho_tasks s)]> (ho_cleanup s)) (ho_runs s)
                 (ho_tasks s ++ [mkReaper r pid RStart]) (ho_calls s) (ho_procs s))).
  { apply inv_tasks; [done|]. intros c [Hc| ->%list_elem_of_singleton]%elem_of_app; [by apply I|done]. }
  destruct (ho_cleanup s !! r); [|done]. by destruct (reaper_done _ s).
Qed.

(** The process of a run that communicates is down once it has been killed or had exited. *)
Lemma host_kill_cases pid le s :
  may_raise pid le s = true ->
  (exists s1, host_kill pid le s = Some s1 /\ host_kill pid false s = Some s1) \/ (host_kill pid le s = None /\ down pid s).
Proof. destruct le; cbn; [intros H; right; split; [done|by apply down_exited]|intros _; left; eexists; split; reflexivity]. Qed.

Lemma communicating_pid s x pid : host_inv s -> x ∈ ho_runs s -> pid_of (ru_phase x) = Some pid -> pid < length (ho_procs s).
Proof.
  intros I Hx P. destruct (hi_pids s I x pid Hx P) as [(p & E & _)|(_ & _ & L)]; [by eapply lookup_lt_Some|done].
Qed.

Lemma inv_host_over e x pid le s (f : host -> host) (p q : run_phase) :
  host_inv s -> ho_runs s !! e = Some x -> ru_phase x = HCommunicating pid -> may_raise pid le s = true ->
  pid_of p = Some pid -> pid_of q = Some pid ->
  (forall s1, host_inv s1 -> down pid s1 -> ho_runs s1 = ho_runs s -> host_inv (set_run e p s1) -> host_inv (f (set_run e p s1))) ->
  host_inv (match host_kill pid le s with Some s1 => f (set_run e p s1) | None => set_run e q s end).
Proof.
  intros I Ex Ph Mr Pp Pq Hf. assert (Hx : x ∈ ho_runs s) by (by eapply list_elem_of_lookup_2).
  assert (Px : pid_of (ru_phase x) = Some pid) by (by rewrite Ph).
  destruct (host_kill_cases pid le s Mr) as [(s1 & -> & K)|[-> Dn]].
  - pose proof (inv_host_kill pid s s1 I K) as I1.
    assert (Dn : down pid s1) by (eapply host_kill_kills; [done|by eapply communicating_pid]).
    assert (R1 : ho_runs s1 = ho_runs s) by (by injection K as <-).
    apply Hf; [done|done|done|]. apply (inv_set_run e x); [done|by rewrite R1|congruence|]. intros q' E. by replace q' with pid by congruence.
  - apply (inv_set_run e x); [done|done|congruence|]. intros q' E. by replace q' with pid by congruence.
Qed.

Lemma inv_clear_set e x pid p s :
  host_inv s -> ho_runs s !! e = Some x -> pid_of (ru_phase x) = Some pid -> pid_of p = Some pid -> down pid s ->
  host_inv (set_run e p (host_clear (ru_id x) s)).
Proof.
  intros I Ex Px Pp Dn. assert (Hx : x ∈ ho_runs s) by (by eapply list_elem_of_lookup_2).
  apply (inv_set_run e x); [|done|congruence|intros q E; by replace q with pid by congruence].
  apply inv_host_clear; [done|]. intros y q Hy R P. pose proof (pid_unique s y x q I Hy Hx R P). by replace q with pid by congruence.
Qed.

Lemma inv_clear_known r pid s :
  host_inv s -> (exists x, x ∈ ho_runs s /\ ru_id x = r /\ pid_of (ru_phase x) = Some pid /\ down pid s) -> host_inv (host_clear r s).
Proof.
  intros I (x & Hx & R & P & Dn). apply inv_host_clear; [done|]. intros y q Hy Ry Py.
  pose proof (pid_unique s y x q I Hy Hx ltac:(congruence) Py). by replace q with pid by congruence.
Qed.

Lemma inv_reaper t c p s : host_inv s -> ho_tasks s !! t = Some c -> host_inv (set_reaper t p s).
Proof.
  intros I E. apply inv_tasks; [done|]. intros y [Hy|(c' & E' & ->)]%elem_alter; [by apply I|].
  rewrite E in E'. injection E' as <-. apply (hi_tasks s I c). by eapply list_elem_of_lookup_2.
Qed.

Lemma inv_kill_call c p s : host_inv s -> (forall pid, p <> PWaiting pid) -> host_inv (set_kill c p s).
Proof.
  intros I N. apply inv_host_calls; [done|]. intros k pid [Hk|(k' & _ & ->)]%elem_alter P; [by apply I|by destruct (N pid)].
Qed.

Lemma inv_add_kill k s :
  host_inv s -> (forall pid, kc_phase k = PWaiting pid ->
    exists x, x ∈ ho_runs s /\ ru_id x = kc_run k /\ pid_of (ru_phase x) = Some pid /\ down pid s) -> host_inv (add_kill k s).
Proof.
  intros I H. apply inv_host_calls; [done|]. intros k' pid [Hk| ->%list_elem_of_singleton]%elem_of_app P; [by apply I|by apply H].
Qed.

Lemma host_inv_step ev s s' : host_inv s -> host_fresh ev s -> host_step ev s = Some s' -> host_inv s'.
Proof.
  intros I F H. destruct ev as [r|e ok|pid|e|e le|e le|e|t|r le|c]; cbn [host_step] in H.
  - injection H as <-. destruct I as [A B C D E]. split; cbn.
    + rewrite fmap_app. apply NoDup_app. split; [done|]. split; [|apply NoDup_singleton].
      intros id (x & -> & Hx)%list_elem_of_fmap K%list_elem_of_singleton. by apply (F x).
    + intros x pid [Hx| ->%list_elem_of_singleton]%elem_of_app P; [by apply B|done].
    + intros r' pid Ac. destruct (C r' pid Ac) as (x & Hx & K). exists x. split; [apply elem_of_app; by left|done].
    + intros c Hc. destruct (D c Hc) as (x & Hx & K). exists x. split; [apply elem_of_app; by left|done].
    + intros k pid Hk P. destruct (E k pid Hk P) as (x & Hx & K). exists x. split; [apply elem_of_app; by left|done].
  - destruct (ho_runs s !! e) as [x|] eqn:Ex; [|done]. cbn in H. destruct ok; [by eapply inv_host_spawned|].
    unfold host_spawned in H. destruct (ru_phase x) eqn:Ph; try done. injection H as <-.
    apply (inv_set_run e x); [done|done|by rewrite Ph|done].
  - destruct (ho_procs s !! pid) as [p|] eqn:Ep; [|done]. injection H as <-. by apply inv_host_exits.
  - destruct (ho_runs s !! e) as [x|] eqn:Ex; [|done]. cbn in H. unfold host_output in H.
    destruct (ru_phase x) eqn:Ph; try done. destruct (host_exited pid s) eqn:X; [|done]. injection H as <-.
    eapply (inv_clear_set e x pid); [done|done|by rewrite Ph|done|by apply down_exited].
  - destruct (ho_runs s !! e) as [x|] eqn:Ex; [|done]. cbn in H. unfold host_timeout in H.
    destruct (ru_phase x) eqn:Ph; try done. destruct (may_raise pid le s) eqn:Mr; [|done]. injection H as <-.
    by apply (inv_host_over e x pid le s (fun s => s) (HWaiting pid) (HRaised pid)).
  - destruct (ho_runs s !! e) as [x|] eqn:Ex; [|done]. cbn in H. unfold host_cancelled in H.
    assert (Hx : x ∈ ho_runs s) by (by eapply list_elem_of_lookup_2).
    destruct (ru_phase x) eqn:Ph; try done.
    + injection H as <-. apply (inv_set_run e x); [done|done|by rewrite Ph|done].
    + destruct (may_raise pid le s) eqn:Mr; [|done]. injection H as <-.
      assert (Px : pid_of (ru_phase x) = Some pid) by (by rewrite Ph).
      destruct (host_kill_cases pid le s Mr) as [(s1 & -> & K)|[-> Dn]].
      * pose proof (inv_host_kill pid s s1 I K) as I1. assert (R1 : ho_runs s1 = ho_runs s) by (by injection K as <-).
        assert (Dn : down pid s1) by (eapply host_kill_kills; [done|by eapply communicating_pid]).
        assert (I2 : host_inv (host_ensure_cleanup (ru_id x) pid s1)).
        { apply inv_host_ensure; [done|]. exists x. by rewrite R1. }
        assert (Same : ho_runs (host_ensure_cleanup (ru_id x) pid s1) = ho_runs s /\ ho_procs (host_ensure_cleanup (ru_id x) pid s1) = ho_procs s1).
        { unfold host_ensure_cleanup. repeat case_match; by rewrite <- R1. }
        destruct Same as [Sr Sp]. apply (inv_set_run e x); [done|by rewrite Sr|by rewrite Px|].
        intros q [= <-]. unfold down. by rewrite Sp.
      * apply (inv_set_run e x); [done|done|by rewrite Px|]. by intros q [= <-].
    + injection H as <-. apply (inv_set_run e x); [done|done|by rewrite Ph|]. intros q [= <-].
      destruct (hi_pids s I x pid Hx) as [K|(P & _)]; [by rewrite Ph|done|congruence].
  - destruct (ho_runs s !! e) as [x|] eqn:Ex; [|done]. cbn in H. unfold host_waited in H.
    destruct (ru_phase x) eqn:Ph; try done. destruct (host_exited pid s) eqn:X; [|done]. injection H as <-.
    eapply (inv_clear_set e x pid); [done|done|by rewrite Ph|done|by apply down_exited].
  - destruct (ho_tasks s !! t) as [c|] eqn:Ec; [|done]. cbn in H. unfold reaper_runs in H.
    destruct (rp_phase c); try done; injection H as <-; [by eapply inv_reaper|]. eapply inv_reaper; [|done].
    eapply inv_clear_known; [done|]. apply (hi_tasks s I c). by eapply list_elem_of_lookup_2.
  - unfold host_cancel in H. destruct (ho_active s !! r) as [pid|] eqn:Ac; [|injection H as <-; by apply inv_add_kill].
    destruct (may_raise pid le s) eqn:Mr; [|done]. injection H as <-.
    destruct (host_kill_cases pid le s Mr) as [(s1 & -> & K)|[-> Dn]]; [|by apply inv_add_kill].
    apply inv_add_kill; [by eapply inv_host_kill|]. intros q P. destruct (hi_active s I r pid Ac) as (x & Hx & R & Px).
    assert (q = pid) as -> by (cbn in P; repeat case_match; congruence). assert (R1 : ho_runs s1 = ho_runs s) by (by injection K as <-).
    exists x. rewrite R1. repeat split; try done. eapply host_kill_kills; [done|by eapply communicating_pid].
  - destruct (ho_calls s !! c) as [k|] eqn:Ek; [|done]. cbn in H. unfold kill_runs in H. destruct (kc_phase k) eqn:P; try done.
    + destruct (reaper_done t s); [|done]. injection H as <-. by apply inv_kill_call.
    + injection H as <-. apply inv_kill_call; [|done]. eapply inv_clear_known; [done|].
      apply (hi_calls s I k pid); [by eapply list_elem_of_lookup_2|done].
Qed.

Lemma host_reach_inv s : host_reach s -> host_inv s.
Proof. induction 1 as [|ev s s' R IH F E]; [apply host_inv_init|by eapply host_inv_step]. Qed.

(** C36: No host process outlives its run. In every reachable state the process of a run
    that is over (returned, timed out, cancelled or failed) has exited or been killed; the
    process of any other is registered under the id of the run, so that [cancel] finds
    it and, unless it raises, brings it down at once; and every registered process is that
    of a run of that id. *)
Theorem host_process_down s :
  host_reach s ->
  (forall x pid, x ∈ ho_runs s -> pid_of (ru_phase x) = Some pid ->
     down pid s \/
     (ru_phase x = HCommunicating pid /\ ho_active s !! ru_id x = Some pid /\
      exists s', host_step (HostCancel (ru_id x) false) s = Some s' /\ down pid s')) /\
  (forall r pid, ho_active s !! r = Some pid -> exists x, x ∈ ho_runs s /\ ru_id x = r /\ pid_of (ru_phase x) = Some pid).
Proof.
  intros R. pose proof (host_reach_inv s R) as I. split; [|by apply I].
  intros x pid Hx P. destruct (hi_pids s I x pid Hx P) as [Dn|(Ph & Ac & L)]; [by left|right].
  split; [done|]. split; [done|]. cbn [host_step]. unfold host_cancel. rewrite Ac. cbn [may_raise implb].
  destruct (host_kill pid false s) as [s1|] eqn:K; [|done]. eexists. split; [done|].
  assert (Dn : down pid s1) by (by eapply host_kill_kills). exact Dn.
Qed.

(** ** Concrete runs *)

Definition run_host (events : list host_event) : option host := foldl (fun o ev => s ← o; host_step ev s) (Some init_host) events.

(** The cancellation of a run that waits for the end of its process after a timeout leaves
    the entry of the run behind: nothing removes it. *)
Example cancelled_wait_leaks :
  (fun s => (ho_active s !! "r", length (ho_tasks s), ru_phase <$> ho_runs s)) <$>
    run_host [HostRun "r"; HostSpawned 0 true; HostTimeout 0 false; HostCancelled 0 false; HostExits 0] =
  Some (Some 0, 0, [HCancelled (Some 0)]).
Proof. vm_compute. reflexivity. Qed.

(** A process that exits while the time runs out: [kill] may raise, and the caller gets a
    [ProcessLookupError] in place of the timeout, the entry stays. *)
Example exited_process_times_out :
  (fun s => (ho_active s !! "r", ru_phase <$> ho_runs s)) <$>
    run_host [HostRun "r"; HostSpawned 0 true; HostExits 0; HostTimeout 0 true] = Some (Some 0, [HRaised 0]).
Proof. vm_compute. reflexivity. Qed.

Definition hx_state : host := default init_host (run_host [HostRun "r"; HostSpawned 0 true]).
Lemma hx_reach : host_reach hx_state.
Proof.
  apply (host_next (HostSpawned 0 true) (mkHost ∅ ∅ [mkRun "r" HSpawning] [] [] [])); [|exact I|reflexivity].
  apply (host_next (HostRun "r") init_host); [apply host_init|by intros x ?%not_elem_of_nil|reflexivity].
Qed.

Lemma host_process_down_witness :
  (down 0 hx_state \/
   (HCommunicating 0 = HCommunicating 0 /\ ho_active hx_state !! "r" = Some 0 /\
    exists s', host_step (HostCancel "r" false) hx_state = Some s' /\ down 0 s')) /\
  ho_active hx_state !! "r" = Some 0.
Proof.
  split; [|reflexivity].
  apply (proj1 (host_process_down hx_state hx_reach) (mkRun "r" (HCommunicating 0)) 0); [left|reflexivity].
Defined.

Lemma host_run_confined_witness :
  let x := new_executor (fun p => p) (fun p => p) ["data"] ["runner"] "python" NoRestrictions in
  (path_prefix ["data"; "groups"] ["data"; "groups"; "team"] = true \/ path_prefix ["runner"] ["data"; "groups"; "team"] = true) /\
  ["runner"] = xe_runner_root x /\ ["python"; "-m"; "src.runner"] = build_command x /\
  (forall rule, rule ∈ DEFAULT_FORBIDDEN -> ~ forbids ["python"; "-m"; "src.runner"] rule) /\
  (10 <= 3600)%Z /\ (forall limit, Some 10%Z = Some limit -> 10 <= limit)%Z.
Proof.
  apply (host_run_confined (fun p => p) (fun p => p) ["data"] ["runner"] "python" "team" (Some 10%Z)); reflexivity.
Defined.

(** A prefix rule for an argument such as [if=] is only looked for in its own place. *)
Example rule_examples :
  is_command_forbidden ["dd"; "if=/dev/zero"] [RPrefix ["dd"; "if="]] = true /\
  is_command_forbidden ["dd"; "of=x"; "if=/dev/zero"] [RPrefix ["dd"; "if="]] = false /\
  is_command_forbidden ["rm"; "-rf"; "/"] DEFAULT_FORBIDDEN = true /\
  is_command_forbidden ["rm"; "-r"; "-f"; "/"] DEFAULT_FORBIDDEN = false /\
  is_command_forbidden ["echo"; "add if=x"] DEFAULT_FORBIDDEN = true.
Proof. vm_compute. repeat split; reflexivity. Qed.
