(* ===== verification/AgentTrigger.v ===== *)
(** * Agent runs: [infra/runtime] and [services/agent_trigger.py]

    The mapping of the events of the OpenAI Agents SDK, the stream and the cancellation
    of [OpenAIAgentsRuntime], the collector of the answer, and [run_agent_execution]: the
    task that waits, the task that consumes the stream, and their cancellation, as a
    transition system. The SDK is not modelled: its events, and when its streams end or
    raise, are data of the steps. A payload value is JSON. *)

From stdpp Require Import base tactics list option strings gmap.
From Stdlib Require Import ZArith Ascii.
From S2P Require Import Prelude PyStr PyInt PyDict PyJson Execution Coordinator RunnerProtocol.

(** ** [infra/runtime/adapter.py] *)

Record RunRequest := mkRunRequest {
  rr_request_id : string;
  rr_group_folder : string;
  rr_message : string;
  rr_session_id : string;
  rr_user_id : string
}.
Record RunEvent := mkRunEvent { ev_type : string; ev_run_id : string; ev_payload : list (string * json) }.
Record RunResult := mkRunResult {
  rn_run_id : string;
  rn_status : string;
  rn_final_output : option string;
  rn_error : option string;
  rn_timeout_ms : option Z
}.

(** [serialize_run_event]. *)
Definition serialize_run_event (float_repr : string -> string) (e : RunEvent) : string :=
  of_chars (print_json float_repr true None 0
    (JObj [("event_type", JStr (ev_type e)); ("run_id", JStr (ev_run_id e)); ("payload", JObj (ev_payload e))])).

(** ** [infra/runtime/mapper.py] *)

(** An event of the SDK: the attributes the mapper reads, [JNull] for one that is missing
    or [None]. *)
Record sdk_event := mkSdk {
  sk_type : json;
  sk_agent_name : json;
  sk_data_type : json;
  sk_delta : json;
  sk_name : json;
  sk_tool_name : json;
  sk_call_id : json;
  sk_output : json
}.

Definition is_str (v : json) (s : string) : bool :=
  match v with JStr t => bool_decide (t = s) | _ => false end.

(** [_payload]: without the values that are [None]. *)
Definition payload (kwargs : list (string * json)) : list (string * json) :=
  List.filter (fun e => match e.2 with JNull => false | _ => true end) kwargs.

Definition map_sdk_event (e : sdk_event) (run_id : string) : option RunEvent :=
  if is_str (sk_type e) "agent_updated_stream_event" then
    Some (mkRunEvent "run.started" run_id (payload [("agent_name", sk_agent_name e)]))
  else if is_str (sk_type e) "raw_response_event" then
    if is_str (sk_data_type e) "response.output_text.delta" then
      Some (mkRunEvent "run.token.delta" run_id (payload [("delta", sk_delta e)]))
    else if is_str (sk_data_type e) "response.completed" then None
    else if is_str (sk_data_type e) "response.failed" || is_str (sk_data_type e) "response.incomplete" then
      Some (mkRunEvent "run.failed" run_id (payload [("status", sk_data_type e)]))
    else None
  else if is_str (sk_type e) "run_item_stream_event" then
    if is_str (sk_name e) "tool_called" then
      Some (mkRunEvent "run.tool.started" run_id
              (payload [("tool_name", sk_tool_name e); ("tool_call_id", sk_call_id e)]))
    else if is_str (sk_name e) "tool_output" then
      Some (mkRunEvent "run.tool.completed" run_id
              (payload [("tool_name", sk_tool_name e); ("tool_call_id", sk_call_id e); ("output", sk_output e)]))
    else None
  else None.

(** ** [OpenAIAgentsRuntime]: the streams and their cancellation *)

(** [run_streamed] of a request: iterating over the SDK, after the event that ends a run,
    or closed. *)
Inductive stream_phase := Iterating | Completing | Closed.
Record runtime := mkRuntime {
  rt_active : gset string;
  rt_cancelled : gset string;
  rt_streams : list (string * stream_phase);
  (** what the streams have yielded *)
  rt_yielded : list RunEvent
}.
Definition init_runtime : runtime := mkRuntime ∅ ∅ [] [].

Definition set_stream (i : nat) (p : stream_phase) (r : runtime) : runtime :=
  mkRuntime (rt_active r) (rt_cancelled r) (alter (fun x => (x.1, p)) i (rt_streams r)) (rt_yielded r).
Definition yields (e : RunEvent) (r : runtime) : runtime :=
  mkRuntime (rt_active r) (rt_cancelled r) (rt_streams r) (rt_yielded r ++ [e]).

(** The [finally] of [run_streamed]. *)
Definition close_stream (i : nat) (id : string) (r : runtime) : runtime :=
  set_stream i Closed (mkRuntime (rt_active r ∖ {[id]}) (rt_cancelled r ∖ {[id]}) (rt_streams r) (rt_yielded r)).

Definition completed_event (id : string) (final_output : json) : RunEvent :=
  mkRunEvent "run.completed" id [("status", JStr "response.completed"); ("final_output", final_output)].

(** [cancel]; the streamed result is told to stop. *)
Definition cancel_run (id : string) (r : runtime) : runtime :=
  if bool_decide (id ∈ rt_active r) then mkRuntime (rt_active r) ({[id]} ∪ rt_cancelled r) (rt_streams r) (rt_yielded r)
  else r.

Inductive runtime_event :=
| Starts (id : string)
| SdkEvent (i : nat) (e : sdk_event)
(** the stream of the SDK ends; the stringified final output *)
| SdkEnds (i : nat) (final_output : json)
(** the SDK raises, or the generator is closed or cancelled where it is suspended *)
| Leaves (i : nat)
| CancelRun (id : string).

Definition runtime_step (ev : runtime_event) (r : runtime) : option runtime :=
  match ev with
  | Starts id => Some (mkRuntime ({[id]} ∪ rt_active r) (rt_cancelled r) (rt_streams r ++ [(id, Iterating)]) (rt_yielded r))
  | SdkEvent i e =>
      match rt_streams r !! i with
      | Some (id, Iterating) => Some (match map_sdk_event e id with Some m => yields m r | None => r end)
      | _ => None
      end
  | SdkEnds i final_output =>
      match rt_streams r !! i with
      | Some (id, Iterating) =>
          if bool_decide (id ∈ rt_cancelled r) then Some (close_stream i id r)
          else Some (set_stream i Completing (yields (completed_event id final_output) r))
      | _ => None
      end
  | Leaves i =>
      match rt_streams r !! i with
      | Some (id, Closed) => None
      | Some (id, _) => Some (close_stream i id r)
      | None => None
      end
  | CancelRun id => Some (cancel_run id r)
  end.

(** Requests have ids of their own. *)
Definition fresh_stream (ev : runtime_event) (r : runtime) : Prop :=
  match ev with Starts id => id ∉ (rt_streams r).*1 | _ => True end.
Inductive runtime_reach : runtime -> Prop :=
| runtime_init : runtime_reach init_runtime
| runtime_next ev r r' : runtime_reach r -> fresh_stream ev r -> runtime_step ev r = Some r' -> runtime_reach r'.

(** ** [RuntimeReplyCollector] *)

Record collector := mkCollector {
  cl_status : option string;
  cl_final_output : option string;
  cl_error : option string;
  cl_timeout_ms : option Z
}.
Definition new_collector : collector := mkCollector None None None None.

Section trigger.
Definition pget (k : string) (e : RunEvent) : json := default JNull (od_get k (ev_payload e)).

(** [isinstance(v, str) and v]. *)
Definition non_empty (v : json) : option string :=
  match v with JStr s => if bool_decide (s = "") then None else Some s | _ => None end.
(** [isinstance(v, int)]: [True] and [False] are integers. *)
Definition as_int (v : json) : option Z :=
  match v with JInt n => Some n | JBool b => Some (if b then 1 else 0)%Z | _ => None end.
Definition failure (e : RunEvent) : json :=
  if truthy (pget "error" e) then pget "error" e else pget "status" e.

Definition collect (c : collector) (e : RunEvent) : collector :=
  if bool_decide (ev_type e = "run.completed") then
    mkCollector (Some "completed")
      (match non_empty (pget "final_output" e) with Some s => Some s | None => cl_final_output c end)
      (cl_error c) (cl_timeout_ms c)
  else if bool_decide (ev_type e = "run.failed") then
    mkCollector (Some "failed") (cl_final_output c)
      (match non_empty (failure e) with Some s => Some s | None => cl_error c end) (cl_timeout_ms c)
  else if bool_decide (ev_type e = "run.timeout") then
    mkCollector (Some "timeout") (cl_final_output c) (cl_error c)
      (match as_int (pget "timeout_ms" e) with Some n => Some n | None => cl_timeout_ms c end)
  else c.

Definition build_run_result (run_id : string) (c : collector) : RunResult :=
  mkRunResult run_id (default "completed" (cl_status c)) (cl_final_output c) (cl_error c) (cl_timeout_ms c).

Definition build_timeout_event (run_id : string) (timeout_ms : Z) : RunEvent :=
  mkRunEvent "run.timeout" run_id [("status", JStr "timeout"); ("timeout_ms", JInt timeout_ms)].

(** ** [run_agent_execution] *)

(** What the runtime and the handler may raise: an [OpenAIRuntimeSessionError], another
    exception (and whether it is a [RuntimeError]), a [TimeoutError], a [CancelledError]. *)
Inductive trigger_error :=
| SessionError (msg : string)
| OtherError (is_runtime_error : bool) (msg : string)
| TimedOut
| Cancelled.

(** The consumer task: waiting for the stream, in the event handler, or over. *)
Inductive consumer_phase :=
| CStream
| CHandler
| COver (r : result trigger_error unit).
(** Why the runtime is cancelled, and what follows the cleanup of the consumer. *)
Inductive main_phase :=
| MWait
| MRuntimeCancel (after : result trigger_error unit)
| MCleanup (after : result trigger_error unit)
| MHandler
| MOver (r : result trigger_error RunResult).

Record trigger := mkTrigger {
  tr_main : main_phase;
  tr_consumer : consumer_phase;
  (** [consumer_task.cancel()] has been called *)
  tr_cancel_requested : bool;
  tr_collector : collector;
  (** what the event handler has been called with *)
  tr_handled : list RunEvent;
  (** what the collector has been given *)
  tr_seen : list RunEvent
}.

(** The run id, the timeout, and whether there is an event handler. *)
Variable run_id : string.
Variable timeout_ms : option Z.
Variable has_handler : bool.

Definition init_trigger : trigger := mkTrigger MWait CStream false new_collector [] [].

Definition with_main (p : main_phase) (s : trigger) : trigger :=
  mkTrigger p (tr_consumer s) (tr_cancel_requested s) (tr_collector s) (tr_handled s) (tr_seen s).
Definition with_consumer (p : consumer_phase) (s : trigger) : trigger :=
  mkTrigger (tr_main s) p (tr_cancel_requested s) (tr_collector s) (tr_handled s) (tr_seen s).

(** [handle_event] up to the await of the event handler. *)
Definition handle_event (e : RunEvent) (s : trigger) : trigger :=
  mkTrigger (tr_main s) (tr_consumer s) (tr_cancel_requested s) (collect (tr_collector s) e)
    (if has_handler then tr_handled s ++ [e] else tr_handled s) (tr_seen s ++ [e]).

Definition consumer_over (s : trigger) : option (result trigger_error unit) :=
  match tr_consumer s with COver r => Some r | _ => None end.

(** [_cleanup_consumer_task] up to its [gather]. *)
Definition cleanup_consumer (after : result trigger_error unit) (s : trigger) : trigger :=
  mkTrigger (MCleanup after) (tr_consumer s)
    (match consumer_over s with None => true | Some _ => tr_cancel_requested s end)
    (tr_collector s) (tr_handled s) (tr_seen s).

Definition return_result (s : trigger) : trigger := with_main (MOver (Ok (build_run_result run_id (tr_collector s)))) s.

Inductive trigger_event :=
(** the stream yields, ends or raises; the handler of an event returns or raises *)
| StreamYields (e : RunEvent)
| StreamOver (r : result trigger_error unit)
| HandlerOver (r : result trigger_error unit)
(** [asyncio.wait] returns; [runtime.cancel] and [gather] return *)
| WaitReturns (timed_out : bool)
| RuntimeCancelOver (r : result trigger_error unit)
| CleanupOver
| MainHandlerOver (r : result trigger_error unit)
(** the task of the caller is cancelled at its await *)
| MainCancelled.

(** [consume_runtime_events]. *)
Definition consumer_step (ev : trigger_event) (s : trigger) : option trigger :=
  match ev, tr_consumer s with
  | StreamYields e, CStream =>
      let s := handle_event e s in
      Some (if has_handler then with_consumer CHandler s else s)
  | StreamOver r, CStream => Some (with_consumer (COver r) s)
  | HandlerOver (Ok _), CHandler => Some (with_consumer CStream s)
  | HandlerOver (Err e), CHandler => Some (with_consumer (COver (Err e)) s)
  | _, _ => None
  end.

(** After the cleanup: the exception under way, or the timeout event. *)
Definition after_cleanup (after : result trigger_error unit) (s : trigger) : trigger :=
  match after with
  | Err e => with_main (MOver (Err e)) s
  | Ok _ =>
      match timeout_ms with
      | None => return_result s
      | Some t =>
          let s := handle_event (build_timeout_event run_id t) s in
          if has_handler then with_main MHandler s else return_result s
      end
  end.

Definition main_step (ev : trigger_event) (s : trigger) : option trigger :=
  match ev, tr_main s with
  | WaitReturns timed_out, MWait =>
      match consumer_over s with
      | Some (Ok _) => Some (return_result s)
      | Some (Err e) => Some (with_main (MOver (Err e)) s)
      | None => if timed_out && bool_decide (is_Some timeout_ms) then Some (with_main (MRuntimeCancel (Ok tt)) s) else None
      end
  | RuntimeCancelOver (Ok _), MRuntimeCancel after => Some (cleanup_consumer after s)
  | RuntimeCancelOver (Err e), MRuntimeCancel _ => Some (cleanup_consumer (Err e) s)
  | CleanupOver, MCleanup after =>
      match consumer_over s with Some _ => Some (after_cleanup after s) | None => None end
  | MainHandlerOver (Ok _), MHandler => Some (return_result s)
  | MainHandlerOver (Err e), MHandler => Some (with_main (MOver (Err e)) s)
  | MainCancelled, MWait => Some (with_main (MRuntimeCancel (Err Cancelled)) s)
  | MainCancelled, MRuntimeCancel _ => Some (cleanup_consumer (Err Cancelled) s)
  (* a cancelled [gather] cancels the consumer and still waits for it *)
  | MainCancelled, MCleanup _ => Some (cleanup_consumer (Err Cancelled) s)
  | MainCancelled, MHandler => Some (with_main (MOver (Err Cancelled)) s)
  | _, _ => None
  end.

Definition trigger_step (ev : trigger_event) (s : trigger) : option trigger :=
  match ev with
  | StreamYields _ | StreamOver _ | HandlerOver _ => consumer_step ev s
  | _ => main_step ev s
  end.
End trigger.

(** ** [OpenAIRuntimeBackend.execute]: what the coordinator gets *)

(** The statuses the collector gives. *)
Definition run_status (s : string) : option ExecutionStatus :=
  if bool_decide (s = "completed") then Some StCompleted
  else if bool_decide (s = "failed") then Some StFailed
  else if bool_decide (s = "timeout") then Some StTimeout
  else None.
Definition openai_outcome (r : result trigger_error RunResult) : outcome :=
  match r with
  | Ok r => BRaw (mkRaw (run_status (rn_status r)) (rn_final_output r) (rn_error r) (rn_timeout_ms r))
  | Err (SessionError msg) => BRuntimeError true msg
  | Err (OtherError true msg) => BRuntimeError false msg
  | Err (OtherError false msg) => BException msg
  | Err TimedOut => BTimeout
  | Err Cancelled => BCancelled
  end.
