(* ===== verification/AgentTriggerProps.v ===== *)
(** * Properties of agent runs *)

From stdpp Require Import base tactics list option strings gmap.
From Stdlib Require Import ZArith Ascii Lia.
From S2P Require Import Prelude PyStr PyInt PyDict PyJson PyJsonProps Execution Coordinator RunnerProtocol AgentTrigger.

(** ** The collector, in closed form *)

Definition terminal_status (e : RunEvent) : option string :=
  if bool_decide (ev_type e = "run.completed") then Some "completed"
  else if bool_decide (ev_type e = "run.failed") then Some "failed"
  else if bool_decide (ev_type e = "run.timeout") then Some "timeout" else None.
Definition answer_of (e : RunEvent) : option string :=
  if bool_decide (ev_type e = "run.completed") then non_empty (pget "final_output" e) else None.
Definition error_of (e : RunEvent) : option string :=
  if bool_decide (ev_type e = "run.failed") then non_empty (failure e) else None.
Definition timeout_of (e : RunEvent) : option Z :=
  if bool_decide (ev_type e = "run.timeout") then as_int (pget "timeout_ms" e) else None.

(** What the last event that says so says. *)
Definition last_of {A} (f : RunEvent -> option A) (events : list RunEvent) : option A := last (omap f events).
Definition result_of (run_id : string) (events : list RunEvent) : RunResult :=
  mkRunResult run_id (default "completed" (last_of terminal_status events)) (last_of answer_of events)
    (last_of error_of events) (last_of timeout_of events).

Lemma last_of_snoc {A} (f : RunEvent -> option A) l e :
  last_of f (l ++ [e]) = match f e with Some a => Some a | None => last_of f l end.
Proof.
  unfold last_of. rewrite omap_app. cbn. destruct (f e); [apply last_snoc|by rewrite app_nil_r].
Qed.

Lemma collect_spec events :
  foldl collect new_collector events =
  mkCollector (last_of terminal_status events) (last_of answer_of events) (last_of error_of events)
    (last_of timeout_of events).
Proof.
  induction events as [|e events IH] using rev_ind; [done|]. rewrite foldl_app, IH. cbn [foldl]. rewrite !last_of_snoc.
  unfold collect, terminal_status, answer_of, error_of, timeout_of. cbn [cl_status cl_final_output cl_error cl_timeout_ms].
  destruct (decide (ev_type e = "run.completed")) as [E|N1].
  { rewrite E. rewrite (bool_decide_eq_true_2 (_ = _)) by done. done. }
  rewrite (bool_decide_eq_false_2 _ N1).
  destruct (decide (ev_type e = "run.failed")) as [E|N2].
  { rewrite E. rewrite (bool_decide_eq_true_2 (_ = _)) by done. done. }
  rewrite (bool_decide_eq_false_2 _ N2).
  by destruct (decide (ev_type e = "run.timeout")) as [E|N3]; [rewrite E|rewrite (bool_decide_eq_false_2 _ N3)].
Qed.

Lemma build_run_result_spec run_id events :
  build_run_result run_id (foldl collect new_collector events) = result_of run_id events.
Proof. by rewrite collect_spec. Qed.

(** The status of a result is one the coordinator knows. *)
Lemma result_status run_id events :
  exists st, run_status (rn_status (result_of run_id events)) = Some st /\ (st = StCompleted \/ st = StFailed \/ st = StTimeout).
Proof.
  cbn. assert (H : forall s, last_of terminal_status events = Some s -> s = "completed" \/ s = "failed" \/ s = "timeout").
  { unfold last_of. intros s Hs%last_Some_elem_of. apply list_elem_of_omap in Hs as (e & _ & E). unfold terminal_status in E.
    repeat case_bool_decide; naive_solver. }
  destruct (last_of terminal_status events) as [s|]; [|eexists; split; [reflexivity|by left]].
  destruct (H s eq_refl) as [->|[->| ->]]; cbn; eexists; (split; [reflexivity|tauto]).
Qed.

(** ** The two tasks *)

Section trigger.
Variable run_id : string.
Variable timeout_ms : option Z.
Variable has_handler : bool.
Local Abbreviation step := (trigger_step run_id timeout_ms has_handler).
Local Abbreviation timeout_event := (build_timeout_event run_id).

(** The event of the timeout is the last one, and the stream is over. *)
Definition timed_out (s : trigger) : Prop :=
  exists t, timeout_ms = Some t /\ last (tr_seen s) = Some (timeout_event t).

Record trigger_inv (s : trigger) : Prop := {
  ti_collector : tr_collector s = foldl collect new_collector (tr_seen s);
  ti_handled : tr_handled s = (if has_handler then tr_seen s else []);
  ti_handler : tr_main s = MHandler -> (exists r, tr_consumer s = COver r) /\ timed_out s;
  ti_over : forall r, tr_main s = MOver r ->
    (exists c, tr_consumer s = COver c) /\
    (forall x, r = Ok x -> x = result_of run_id (tr_seen s) /\
       (tr_consumer s = COver (Ok tt) \/ timed_out s \/ timeout_ms = None));
  ti_cleanup : forall after, tr_main s = MCleanup after -> tr_cancel_requested s = true \/ exists r, tr_consumer s = COver r;
  ti_untimed : (tr_main s = MRuntimeCancel (Ok tt) \/ tr_main s = MCleanup (Ok tt)) -> is_Some timeout_ms
}.

Lemma trigger_inv_init : trigger_inv init_trigger.
Proof. by split; cbn; try (by destruct has_handler); naive_solver. Qed.

Lemma inv_handle e s :
  trigger_inv s -> tr_main s <> MHandler -> (forall r, tr_main s <> MOver r) -> trigger_inv (handle_event has_handler e s).
Proof.
  intros [C H Hm Ho Hc Hu] K1 K2. split; cbn; try done.
  - by rewrite foldl_app, <- C.
  - rewrite H. by destruct has_handler.
  - by intros r ?%K2.
Qed.

Lemma inv_consumer p s :
  trigger_inv s -> (forall c, tr_consumer s <> COver c) -> trigger_inv (with_consumer p s).
Proof.
  intros [C H Hm Ho Hc Hu] K. split; cbn; try done.
  - intros M. destruct (Hm M) as [[r R] _]. by destruct (K r).
  - intros r M. destruct (Ho r M) as [[c R] _]. by destruct (K c).
  - intros a M. destruct (Hc a M) as [|[r R]]; [by left|by destruct (K r)].
Qed.

Lemma trigger_inv_consumer ev s s' : trigger_inv s -> consumer_step has_handler ev s = Some s' -> trigger_inv s'.
Proof.
  intros I E. pose proof I as [C H Hm Ho Hc Hu]. unfold consumer_step in E.
  assert (K : tr_consumer s = CStream \/ tr_consumer s = CHandler ->
    tr_main s <> MHandler /\ forall r, tr_main s <> MOver r).
  { intros K. split; [intros M; destruct (Hm M) as [[r R] _]|intros r M; destruct (Ho r M) as [[c R] _]]; destruct K; congruence. }
  destruct ev as [e|r|r|b|r| |r|]; try done.
  - destruct (tr_consumer s) eqn:P; try done. destruct (K (or_introl eq_refl)) as [K1 K2]. injection E as <-.
    pose proof (inv_handle e s I K1 K2) as I'. assert (P' : tr_consumer (handle_event has_handler e s) = CStream) by done.
    revert I' P'. generalize (handle_event has_handler e s) as s1. intros s1 I' P'.
    destruct has_handler; [|done]. apply inv_consumer; [done|intros c; by rewrite ?P, ?P'].
  - destruct (tr_consumer s) eqn:P; try done. injection E as <-. apply inv_consumer; [done|intros c; by rewrite ?P, ?P'].
  - destruct r as [[]|e], (tr_consumer s) eqn:P; try done; injection E as <-; (apply inv_consumer; [done|intros c; by rewrite ?P, ?P']).
Qed.

Lemma inv_return s :
  trigger_inv s -> (exists c, tr_consumer s = COver c) ->
  (tr_consumer s = COver (Ok tt) \/ timed_out s \/ timeout_ms = None) -> trigger_inv (return_result run_id s).
Proof.
  intros [C H Hm Ho Hc Hu] K T. split; cbn; try done; [|by intros [|]].
  intros r [= <-]. split; [done|]. intros x [= <-]. split; [|done]. by rewrite C, build_run_result_spec.
Qed.

Lemma inv_raise e s : trigger_inv s -> (exists c, tr_consumer s = COver c) -> trigger_inv (with_main (MOver (Err e)) s).
Proof.
  intros [C H Hm Ho Hc Hu] K. split; cbn; try done; [|by intros [|]]. intros r [= <-]. by split.
Qed.

Lemma inv_cleanup after s :
  trigger_inv s -> (after = Ok tt -> is_Some timeout_ms) -> trigger_inv (cleanup_consumer after s).
Proof.
  intros [C H Hm Ho Hc Hu] K. split; cbn; try done; [|intros [|[= ->]]; [done|by apply K]].
  intros a _. unfold consumer_over. destruct (tr_consumer s); [by left|by left|right; by eexists].
Qed.

Lemma timed_out_last t s : timeout_ms = Some t -> timed_out (handle_event has_handler (timeout_event t) s).
Proof. intros E. exists t. split; [done|]. cbn. by rewrite last_snoc. Qed.

Lemma inv_after_cleanup after s :
  trigger_inv s -> tr_main s = MCleanup after -> (exists c, tr_consumer s = COver c) ->
  trigger_inv (after_cleanup run_id timeout_ms has_handler after s).
Proof.
  intros I M K. unfold after_cleanup. destruct after as [[]|e]; [|by apply inv_raise].
  destruct timeout_ms as [t|] eqn:T; [|apply inv_return; auto].
  assert (I' : trigger_inv (handle_event has_handler (timeout_event t) s)).
  { apply inv_handle; [done|congruence|intros r; congruence]. }
  assert (T' : timed_out (handle_event has_handler (timeout_event t) s)) by (by apply timed_out_last).
  assert (K' : exists c, tr_consumer (handle_event has_handler (timeout_event t) s) = COver c) by done.
  revert I' T' K'. generalize (handle_event has_handler (timeout_event t) s) as s1. intros s1 I' T' K'.
  destruct has_handler; [|apply inv_return; auto].
  destruct I' as [C H Hm Ho Hc Hu]. split; cbn; try done.
Qed.

Lemma trigger_inv_main ev s s' : trigger_inv s -> main_step run_id timeout_ms has_handler ev s = Some s' -> trigger_inv s'.
Proof.
  intros I E. pose proof I as [C H Hm Ho Hc Hu]. unfold main_step in E.
  assert (Over : forall r, consumer_over s = Some r -> tr_consumer s = COver r)
    by (unfold consumer_over; destruct (tr_consumer s); naive_solver).
  destruct ev as [e|r|r|late|r| |r|], (tr_main s) as [|after|after| |r'] eqn:M; try done; try (by destruct r).
  - destruct (consumer_over s) as [[[]|e]|] eqn:O.
    + injection E as <-. pose proof (Over _ eq_refl). apply inv_return; [done|by eexists|by left].
    + injection E as <-. pose proof (Over _ eq_refl). apply inv_raise; [done|by eexists].
    + destruct late; [|done]. case_bool_decide as T; [|done]. injection E as <-. split; cbn; done.
  - destruct r as [[]|e]; injection E as <-; apply inv_cleanup; try done. intros ->. apply Hu. by left.
  - destruct (consumer_over s) as [c|] eqn:O; [|done]. injection E as <-.
    pose proof (Over _ eq_refl). apply inv_after_cleanup; [done|done|by eexists].
  - destruct (Hm eq_refl) as [K T]. destruct r as [[]|e]; injection E as <-; [apply inv_return; auto|by apply inv_raise].
  - injection E as <-. split; cbn; try done. by intros [|].
  - injection E as <-. by apply inv_cleanup.
  - injection E as <-. by apply inv_cleanup.
  - injection E as <-. destruct (Hm eq_refl) as [K T]. by apply inv_raise.
Qed.

(** A run, with whether it ran out of time, that is, the wait was over while the consumer
    was not, and with what its stream has yielded. *)
Definition runs_out (ev : trigger_event) (s : trigger) : bool :=
  match ev, tr_main s, consumer_over s with WaitReturns true, MWait, None => true | _, _, _ => false end.
Definition yielded_by (ev : trigger_event) : list RunEvent := match ev with StreamYields e => [e] | _ => [] end.
Inductive trigger_run : bool -> list RunEvent -> trigger -> Prop :=
| run_init : trigger_run false [] init_trigger
| run_next ev late yielded s s' :
    trigger_run late yielded s -> step ev s = Some s' -> trigger_run (late || runs_out ev s) (yielded ++ yielded_by ev) s'.

(** What the collector has seen, by the phase of the caller. *)
Definition with_timeout (yielded : list RunEvent) (s : trigger) : Prop :=
  exists t, timeout_ms = Some t /\ tr_seen s = yielded ++ [timeout_event t].
Definition accounted (late : bool) (yielded : list RunEvent) (s : trigger) : Prop :=
  match tr_main s with
  | MWait => late = false /\ tr_seen s = yielded
  | MRuntimeCancel after | MCleanup after => (after = Ok tt -> late = true) /\ tr_seen s = yielded
  | MHandler => late = true /\ with_timeout yielded s
  | MOver (Ok _) => if late then with_timeout yielded s else tr_seen s = yielded /\ tr_consumer s = COver (Ok tt)
  | MOver (Err _) => True
  end.

Lemma accounted_consumer ev late yielded s s' :
  trigger_inv s -> accounted late yielded s -> consumer_step has_handler ev s = Some s' ->
  accounted late (yielded ++ yielded_by ev) s'.
Proof.
  intros I J E. unfold consumer_step in E.
  assert (K : (forall c, tr_consumer s <> COver c) -> match tr_main s with MHandler | MOver _ => False | _ => True end).
  { intros K. destruct (tr_main s) as [|a|a| |r] eqn:M; try done.
    - destruct (ti_handler s I M) as [[c R] _]. by destruct (K c).
    - destruct (ti_over s I r M) as [[c R] _]. by destruct (K c). }
  assert (N : forall c, tr_consumer s <> COver c) by (intros c; destruct (tr_consumer s); [done|done|by destruct ev as [| |[]| | | | |]]).
  apply K in N. unfold accounted in *.
  destruct ev as [e|r|r|b|r| |r|]; try done; cbn [yielded_by]; rewrite ?app_nil_r;
    [|destruct (tr_consumer s); try done; injection E as <-; cbn; by destruct (tr_main s)
     |destruct r, (tr_consumer s); try done; injection E as <-; cbn; by destruct (tr_main s)].
  destruct (tr_consumer s); try done. injection E as <-.
  destruct has_handler; cbn; destruct (tr_main s); try done; by destruct J as [? ->].
Qed.

Lemma accounted_main ev late yielded s s' :
  trigger_inv s -> accounted late yielded s -> main_step run_id timeout_ms has_handler ev s = Some s' ->
  accounted (late || runs_out ev s) yielded s'.
Proof.
  intros I J E. unfold main_step in E. unfold accounted, runs_out in *.
  assert (Over : forall r, consumer_over s = Some r -> tr_consumer s = COver r)
    by (unfold consumer_over; destruct (tr_consumer s); naive_solver).
  destruct ev as [e|r|r|b|r| |r|], (tr_main s) as [|after|after| |r'] eqn:M; try done; try (by destruct r);
    rewrite ?orb_false_r.
  - destruct J as [-> Y]. destruct (consumer_over s) as [[[]|e]|].
    + injection E as <-. cbn. destruct b; cbn; by rewrite (Over _ eq_refl).
    + by injection E as <-.
    + destruct b; [|done]. case_bool_decide; [|done]. by injection E as <-.
  - destruct J as [J Y]. by destruct r as [[]|e]; injection E as <-.
  - destruct J as [J Y]. destruct (consumer_over s) as [c|]; [|done]. injection E as <-. unfold after_cleanup.
    destruct after as [[]|e]; [|done]. rewrite J by done.
    destruct (ti_untimed s I (or_intror M)) as [t T]. rewrite T.
    destruct has_handler; cbn; [split; [done|]|]; exists t; cbn; by rewrite Y.
  - destruct J as [-> T]. by destruct r as [[]|e]; injection E as <-.
  - injection E as <-. cbn. destruct J as [-> Y]. by destruct (consumer_over s).
  - injection E as <-. by destruct J.
  - injection E as <-. by destruct J.
  - by injection E as <-.
Qed.

Lemma trigger_run_inv late yielded s : trigger_run late yielded s -> trigger_inv s /\ accounted late yielded s.
Proof.
  induction 1 as [|ev late yielded s s' R [I J] E]; [split; [apply trigger_inv_init|done]|].
  destruct ev; cbn [trigger_step] in E;
    first [ assert (runs_out _ s = false) as -> by reflexivity; rewrite orb_false_r;
            split; [by eapply trigger_inv_consumer|by eapply accounted_consumer]
          | cbn [yielded_by]; rewrite app_nil_r; split; [by eapply trigger_inv_main|by eapply accounted_main] ].
Qed.

(** C35: A finished agent run has no loose ends. Whatever the runtime and the handler do,
    however often the caller is cancelled, when [run_agent_execution] is over its consumer
    task is over; the handler was called with exactly the events the result is made of, in
    their order; the result says what the last event of each kind said, with a status the
    coordinator knows. A run that ran out of time, and returns, is a timeout with the limit
    of the run, however its stream ended after that: the result is made of what the stream
    yielded and then the event of the timeout. Any other run that returns was waited for
    until its stream had ended, and its result is made of what the stream yielded. *)
Theorem agent_run_settles late yielded s r :
  trigger_run late yielded s -> tr_main s = MOver r ->
  (exists c, tr_consumer s = COver c) /\
  tr_handled s = (if has_handler then tr_seen s else []) /\
  forall x, r = Ok x ->
    x = result_of run_id (tr_seen s) /\
    (exists st, run_status (rn_status x) = Some st /\ (st = StCompleted \/ st = StFailed \/ st = StTimeout)) /\
    if late then
      exists t, timeout_ms = Some t /\ tr_seen s = yielded ++ [timeout_event t] /\
        rn_status x = "timeout" /\ rn_timeout_ms x = Some t
    else tr_seen s = yielded /\ tr_consumer s = COver (Ok tt).
Proof.
  intros R M. destruct (trigger_run_inv _ _ _ R) as [[C H Hm Ho Hc Hu] J]. destruct (Ho r M) as [K X].
  split; [done|]. split; [done|]. intros x ->. destruct (X x eq_refl) as [-> _].
  split; [done|]. split; [apply result_status|]. unfold accounted in J. rewrite M in J.
  destruct late; [|done]. destruct J as (t & T & L). exists t. rewrite L. cbn [result_of rn_status rn_timeout_ms].
  by rewrite !last_of_snoc.
Qed.
End trigger.

(** ** The runtime *)

Definition open_ids (r : runtime) : gset string :=
  list_to_set (List.filter (fun x => match x.2 with Closed => false | _ => true end) (rt_streams r)).*1.

Record runtime_inv (r : runtime) : Prop := {
  ri_ids : NoDup (rt_streams r).*1;
  ri_active : forall id, id ∈ rt_active r <-> exists p, (id, p) ∈ rt_streams r /\ p <> Closed;
  ri_cancelled : rt_cancelled r ⊆ rt_active r
}.

Lemma streams_alter (l : list (string * stream_phase)) i p : (alter (fun x => (x.1, p)) i l).*1 = l.*1.
Proof.
  apply list_eq. intros j. rewrite !list_lookup_fmap. destruct (decide (j = i)) as [->|N].
  - rewrite list_lookup_alter_eq. by destruct (l !! i).
  - by rewrite list_lookup_alter_ne.
Qed.

(** The members after one phase has changed. *)
Lemma elem_set_stream l i p id q id' p' :
  NoDup l.*1 -> l !! i = Some (id, q) ->
  (id', p') ∈ alter (fun x : string * stream_phase => (x.1, p)) i l <-> (id' = id /\ p' = p) \/ (id' <> id /\ (id', p') ∈ l).
Proof.
  intros ND E. rewrite !list_elem_of_lookup. split.
  - intros [j Ej]. destruct (decide (j = i)) as [->|N].
    + rewrite list_lookup_alter_eq, E in Ej. cbn in Ej. left. naive_solver.
    + rewrite list_lookup_alter_ne in Ej by done. right. split; [|by exists j]. intros ->. apply N.
      apply (NoDup_lookup _ j i id ND); rewrite list_lookup_fmap; [by rewrite Ej|by rewrite E].
  - intros [[-> ->]|[N [j Ej]]].
    + exists i. by rewrite list_lookup_alter_eq, E.
    + exists j. rewrite list_lookup_alter_ne; [done|]. intros <-. congruence.
Qed.

Lemma runtime_inv_yields e r : runtime_inv r -> runtime_inv (yields e r).
Proof. by intros [A B C]. Qed.

Lemma runtime_inv_close i id q r : runtime_inv r -> rt_streams r !! i = Some (id, q) -> runtime_inv (close_stream i id r).
Proof.
  intros [A B C] E. split; cbn.
  - by rewrite streams_alter.
  - intros id'. rewrite elem_of_difference, elem_of_singleton, B. split.
    + intros [(p & Hp & N) Ni]. exists p. split; [|done]. apply (elem_set_stream _ i Closed id q); auto.
    + intros (p & Hp & N). apply (elem_set_stream _ i Closed id q) in Hp as [[-> ->]|[Ni Hp]]; naive_solver.
  - set_solver.
Qed.

Lemma runtime_inv_step ev r r' : runtime_inv r -> fresh_stream ev r -> runtime_step ev r = Some r' -> runtime_inv r'.
Proof.
  intros I F E. pose proof I as [A B C]. destruct ev as [id|i e|i fo|i|id]; cbn [runtime_step fresh_stream] in *.
  - injection E as <-. split; cbn; [|intros id'|set_solver].
    + rewrite fmap_app. apply NoDup_app. split; [done|]. split; [set_solver|apply NoDup_singleton].
    + rewrite elem_of_union, elem_of_singleton, B. split.
      * intros [->|(p & Hp & N)]; [exists Iterating; split; [apply elem_of_app; right; by left|done]|].
        exists p. split; [apply elem_of_app; by left|done].
      * intros (p & [Hp|Hp%list_elem_of_singleton]%elem_of_app & N); [right; by exists p|left; congruence].
  - destruct (rt_streams r !! i) as [[id []]|]; try done. injection E as <-. destruct (map_sdk_event e id); [by apply runtime_inv_yields|done].
  - destruct (rt_streams r !! i) as [[id []]|] eqn:S; try done. case_bool_decide as X; injection E as <-; [by eapply runtime_inv_close|].
    split; cbn; [by rewrite streams_alter| |done]. intros id'. rewrite B. split.
    + intros (p & Hp & N). destruct (decide (id' = id)) as [->|Ni].
      * exists Completing. split; [|done]. apply (elem_set_stream _ i Completing id Iterating); auto.
      * exists p. split; [|done]. apply (elem_set_stream _ i Completing id Iterating); auto.
    + intros (p & Hp & N). apply (elem_set_stream _ i Completing id Iterating) in Hp as [[-> ->]|[Ni Hp]]; [|by exists p|done..].
      exists Iterating. split; [by eapply list_elem_of_lookup_2|done].
  - destruct (rt_streams r !! i) as [[id []]|] eqn:S; try done; injection E as <-; by eapply runtime_inv_close.
  - injection E as <-. unfold cancel_run. case_bool_decide as X; [|done]. split; cbn; [done|done|set_solver].
Qed.

Lemma runtime_reach_inv r : runtime_reach r -> runtime_inv r.
Proof.
  induction 1 as [|ev r r' R IH F E]; [|by eapply runtime_inv_step].
  split; cbn; [constructor| |done]. intros id. split; [by intros ?%elem_of_empty|by intros (p & ?%not_elem_of_nil & _)].
Qed.

(** A run that is told to stop before its stream has ended, or whose stream is closed. *)
Definition stopping (id : string) (r : runtime) : Prop :=
  ((id, Iterating) ∈ rt_streams r /\ id ∈ rt_cancelled r) \/ (id, Closed) ∈ rt_streams r.
Definition completes (id : string) (e : RunEvent) : Prop := ev_type e = "run.completed" /\ ev_run_id e = id.

Lemma mapped_not_completed e run m id : map_sdk_event e run = Some m -> ~ completes id m.
Proof. unfold map_sdk_event, completes. intros H [T _]. repeat case_match; simplify_eq; done. Qed.

Lemma stopping_step ev r r' id :
  runtime_inv r -> fresh_stream ev r -> stopping id r -> runtime_step ev r = Some r' ->
  stopping id r' /\ (Forall (fun e => ~ completes id e) (rt_yielded r) -> Forall (fun e => ~ completes id e) (rt_yielded r')).
Proof.
  intros [A B C] F S E. destruct ev as [id1|i e|i fo|i|id1]; cbn [runtime_step] in E.
  - injection E as <-. split; [|done]. destruct S as [[S1 S2]|S]; [left; split; [apply elem_of_app; by left|done]|right].
    apply elem_of_app. by left.
  - destruct (rt_streams r !! i) as [[id1 []]|] eqn:L; try done. injection E as <-.
    destruct (map_sdk_event e id1) as [m|] eqn:M; [|done]. split; [done|]. intros Y. cbn. apply Forall_app. split; [done|].
    apply Forall_singleton. by eapply mapped_not_completed.
  - destruct (rt_streams r !! i) as [[id1 []]|] eqn:L; try done. case_bool_decide as X; injection E as <-.
    + split; [|done]. destruct (decide (id1 = id)) as [->|N].
      * right. apply (elem_set_stream _ i Closed id Iterating); auto.
      * destruct S as [[S1 S2]|S]; [left; split|right]; cbn; try (apply (elem_set_stream _ i Closed id1 Iterating); auto); set_solver.
    + assert (N : id1 <> id).
      { intros ->. destruct S as [[_ S]|S]; [done|]. apply list_elem_of_lookup in S as [j Lj].
        assert (j = i) as -> by (apply (NoDup_lookup _ j i id A); rewrite list_lookup_fmap; [by rewrite Lj|by rewrite L]).
        congruence. }
      split; [|intros Y; cbn; apply Forall_app; split; [done|]; apply Forall_singleton; by intros [_ ?]].
      destruct S as [[S1 S2]|S]; [left; split; [|done]|right]; cbn; apply (elem_set_stream _ i Completing id1 Iterating); auto.
  - destruct (rt_streams r !! i) as [[id1 q]|] eqn:L; [|done]. assert (E' : r' = close_stream i id1 r) by (destruct q; congruence).
    subst r'. split; [|done]. destruct (decide (id1 = id)) as [->|N].
    + right. apply (elem_set_stream _ i Closed id q); auto.
    + destruct S as [[S1 S2]|S]; [left; split|right]; cbn; try (apply (elem_set_stream _ i Closed id1 q); auto); set_solver.
  - injection E as <-. unfold cancel_run. case_bool_decide; [|done]. split; [|done].
    destruct S as [[S1 S2]|S]; [left; split; [done|cbn; set_solver]|by right].
Qed.

(** A run of events with fresh ids. *)
Inductive runtime_steps (r : runtime) : runtime -> Prop :=
| steps_nil : runtime_steps r r
| steps_snoc ev r1 r2 : runtime_steps r r1 -> fresh_stream ev r1 -> runtime_step ev r1 = Some r2 -> runtime_steps r r2.

(** A cancelled run does not complete. When the runtime is told to cancel a run whose
    stream has not ended, no stream of it yields a completion, then or ever after; and in
    every reachable state the runs the runtime holds are those whose streams are open, and
    only held runs are marked as cancelled. *)
Theorem cancelled_run_never_completes id r r' :
  runtime_reach r -> (id, Iterating) ∈ rt_streams r -> Forall (fun e => ~ completes id e) (rt_yielded r) ->
  runtime_steps (cancel_run id r) r' ->
  Forall (fun e => ~ completes id e) (rt_yielded r') /\
  (forall id', id' ∈ rt_active r' <-> exists p, (id', p) ∈ rt_streams r' /\ p <> Closed) /\
  rt_cancelled r' ⊆ rt_active r'.
Proof.
  intros R S Y St. pose proof (runtime_reach_inv r R) as I.
  assert (Ha : id ∈ rt_active r) by (apply (ri_active r I); by exists Iterating).
  assert (H : runtime_inv r' /\ stopping id r' /\ Forall (fun e => ~ completes id e) (rt_yielded r')).
  { induction St as [|ev r1 r2 St (I1 & S1 & Y1) F E].
    - split; [by apply (runtime_inv_step (CancelRun id) r)|]. unfold cancel_run. rewrite bool_decide_eq_true_2 by done.
      split; [left; split; [done|cbn; set_solver]|done].
    - split; [by eapply runtime_inv_step|]. destruct (stopping_step ev r1 r2 id I1 F S1 E) as [S2 Y2]. auto. }
  destruct H as ([_ B C] & _ & Y'). done.
Qed.

(** ** The text of an event *)

Lemma serialize_roundtrip float_repr e :
  json_wf (JObj (ev_payload e)) ->
  json_loads (serialize_run_event float_repr e) =
  Ok (JObj [("event_type", JStr (ev_type e)); ("run_id", JStr (ev_run_id e)); ("payload", JObj (ev_payload e))]).
Proof.
  intros W. unfold serialize_run_event. apply print_parse. cbn [json_wf fold_right snd].
  split; [by apply (bool_decide_unpack _)|]. repeat split; apply W.
Qed.

(** ** Concrete runs *)

Definition fold_steps {S E} (step : E -> S -> option S) (s : S) (events : list E) : option S :=
  foldl (fun o ev => s ← o; step ev s) (Some s) events.

Definition tx_done (answer : string) : RunEvent := completed_event "r" (JStr answer).

(** A timeout: the runtime is cancelled, the stream yields its completion all the same and
    ends as if nothing was, then the timeout event is handled. *)
Definition tx_delta : RunEvent := mkRunEvent "run.token.delta" "r" [].
Definition tx_events : list trigger_event :=
  [StreamYields tx_delta; HandlerOver (Ok tt); WaitReturns true; RuntimeCancelOver (Ok tt);
   StreamYields (tx_done "late"); HandlerOver (Ok tt); StreamOver (Ok tt); CleanupOver; MainHandlerOver (Ok tt)].
Definition tx_ghost (ev : trigger_event) (g : bool * list RunEvent * trigger) : option (bool * list RunEvent * trigger) :=
  s' ← trigger_step "r" (Some 5%Z) true ev g.2; Some (g.1.1 || runs_out ev g.2, g.1.2 ++ yielded_by ev, s').
Definition tx_state : trigger := default init_trigger (fold_steps (trigger_step "r" (Some 5%Z) true) init_trigger tx_events).

Lemma tx_run : trigger_run "r" (Some 5%Z) true true [tx_delta; tx_done "late"] tx_state.
Proof.
  assert (G : forall l late yielded s, fold_steps tx_ghost (false, [], init_trigger) l = Some (late, yielded, s) ->
    trigger_run "r" (Some 5%Z) true late yielded s).
  { intros l. induction l as [|ev l IH] using rev_ind; intros late yielded s.
    - cbn. intros [= <- <- <-]. constructor.
    - unfold fold_steps. rewrite foldl_app. cbn [foldl]. fold (fold_steps tx_ghost (false, [], init_trigger) l).
      destruct (fold_steps tx_ghost _ l) as [[[late1 yielded1] s1]|]; [|done]. cbn. unfold tx_ghost. cbn [fst snd].
      destruct (trigger_step _ _ _ ev s1) as [s'|] eqn:E; [|done]. intros [= <- <- <-].
      eapply run_next; [by apply IH|done]. }
  apply (G tx_events). vm_compute. reflexivity.
Qed.

Lemma agent_run_settles_witness :
  let s := tx_state in
  let x := mkRunResult "r" "timeout" (Some "late") None (Some 5%Z) in
  tr_main s = MOver (Ok x) /\ (exists c, tr_consumer s = COver c) /\ tr_handled s = tr_seen s /\
  forall y, Ok x = Ok y :> result trigger_error RunResult ->
    y = result_of "r" (tr_seen s) /\
    (exists st, run_status (rn_status y) = Some st /\ (st = StCompleted \/ st = StFailed \/ st = StTimeout)) /\
    exists t, Some 5%Z = Some t /\ tr_seen s = [tx_delta; tx_done "late"] ++ [build_timeout_event "r" t] /\
      rn_status y = "timeout" /\ rn_timeout_ms y = Some t.
Proof.
  split; [reflexivity|].
  apply (agent_run_settles "r" (Some 5%Z) true true [tx_delta; tx_done "late"] tx_state
    (Ok (mkRunResult "r" "timeout" (Some "late") None (Some 5%Z)))); [apply tx_run|reflexivity].
Defined.

Definition rx_started : runtime := mkRuntime {["r"]} ∅ [("r", Iterating)] [].
Lemma rx_reach : runtime_reach rx_started.
Proof.
  apply (runtime_next (Starts "r") init_runtime); [constructor|by intros ?%not_elem_of_nil|].
  reflexivity.
Qed.

Lemma cancelled_run_never_completes_witness :
  Forall (fun e => ~ completes "r" e) (rt_yielded (cancel_run "r" rx_started)) /\
  (forall id, id ∈ rt_active (cancel_run "r" rx_started) <->
     exists p, (id, p) ∈ rt_streams (cancel_run "r" rx_started) /\ p <> Closed) /\
  rt_cancelled (cancel_run "r" rx_started) ⊆ rt_active (cancel_run "r" rx_started).
Proof.
  apply (cancelled_run_never_completes "r" rx_started); [apply rx_reach|left|constructor|constructor].
Defined.

(** A response that fails does not end its stream: when the SDK goes on to the end
    without raising, the failed run completes. *)
Definition rx_failed : sdk_event := mkSdk (JStr "raw_response_event") JNull (JStr "response.failed") JNull JNull JNull JNull JNull.
Example failed_response_completes :
  (fun r => result_of "r" (rt_yielded r)) <$>
    fold_steps runtime_step init_runtime [Starts "r"; SdkEvent 0 rx_failed; SdkEnds 0 JNull; Leaves 0] =
  Some (mkRunResult "r" "completed" None (Some "response.failed") None).
Proof. vm_compute. reflexivity. Qed.

(** A cancellation that comes before the stream has started is lost on the runtime. *)
Example early_cancel_is_lost :
  (fun r => rt_yielded r) <$>
    fold_steps runtime_step init_runtime [CancelRun "r"; Starts "r"; SdkEnds 0 (JStr "done")] = Some [tx_done "done"].
Proof. vm_compute. reflexivity. Qed.
