(* ===== verification/Db.v ===== *)
(** * Tables of the database

    What the services rely on of a table with a primary key (SQLite through
    SQLAlchemy): the interface [Table] with its laws, and finite maps as one table that
    satisfies them. A service method is a computation over the database that can raise:
    what was committed before the exception stays. *)

From stdpp Require Import base tactics list option gmap.
From S2P Require Import Prelude.

(** ** Computations that change a state and can raise *)

Definition M (S E A : Type) : Type := S -> result E A * S.

#[export] Instance M_ret {S E} : MRet (M S E) := fun A a s => (Ok a, s).
#[export] Instance M_bind {S E} : MBind (M S E) := fun A B f m s =>
  match m s with
  | (Ok a, s) => f a s
  | (Err e, s) => (Err e, s)
  end.

Definition throw {S E A} (e : E) : M S E A := fun s => (Err e, s).
Definition gets {S E A} (f : S -> A) : M S E A := fun s => (Ok (f s), s).
Definition modify {S E} (f : S -> S) : M S E unit := fun s => (Ok tt, f s).

(** [try: m except ...]: [h] is the exception that is raised in place of [e]. *)
Definition catching {S E E' A} (h : E -> E') (m : M S E A) : M S E' A := fun s =>
  match m s with
  | (Ok a, s) => (Ok a, s)
  | (Err e, s) => (Err (h e), s)
  end.

(** Reading the steps of a computation off its result. *)
Lemma M_bind_ok {S E A B} (m : M S E A) (f : A -> M S E B) s b s' :
  (m ≫= f) s = (Ok b, s') <-> exists a s1, m s = (Ok a, s1) /\ f a s1 = (Ok b, s').
Proof.
  unfold mbind, M_bind. destruct (m s) as [[a|e] s1]; [naive_solver|]. naive_solver.
Qed.

Lemma M_bind_eq {S E A B} (m : M S E A) (f : A -> M S E B) s a s' :
  m s = (Ok a, s') -> (m ≫= f) s = f a s'.
Proof. intros H. unfold mbind, M_bind. by rewrite H. Qed.

(** What holds after a computation: [Q] of its value and state, [X] of the state it
    raises in. *)
Definition wp {S E A} (m : M S E A) (Q : A -> S -> Prop) (X : S -> Prop) (s : S) : Prop :=
  match m s with
  | (Ok a, s') => Q a s'
  | (Err _, s') => X s'
  end.

Section wp.
Context {S E : Type}.
Implicit Types (s : S) (X : S -> Prop).

Lemma wp_ret {A} (a : A) Q X s : Q a s -> wp (mret a : M S E A) Q X s.
Proof. done. Qed.
Lemma wp_throw {A} (e : E) (Q : A -> S -> Prop) X s : X s -> wp (throw e) Q X s.
Proof. done. Qed.
Lemma wp_gets {A} (f : S -> A) Q X s : Q (f s) s -> wp (gets f : M S E A) Q X s.
Proof. done. Qed.
Lemma wp_modify (f : S -> S) (Q : unit -> S -> Prop) X s : Q tt (f s) -> wp (modify f : M S E unit) Q X s.
Proof. done. Qed.
Lemma wp_bind {A B} (m : M S E A) (f : A -> M S E B) Q X s :
  wp m (fun a s' => wp (f a) Q X s') X s -> wp (m ≫= f) Q X s.
Proof. unfold wp, mbind, M_bind. by destruct (m s) as [[a|e] s1]. Qed.
Lemma wp_mono {A} (m : M S E A) (Q Q' : A -> S -> Prop) X X' s :
  wp m Q X s -> (forall a s', Q a s' -> Q' a s') -> (forall s', X s' -> X' s') -> wp m Q' X' s.
Proof. unfold wp. destruct (m s) as [[a|e] s1]; naive_solver. Qed.
Lemma wp_catching {E' A} (h : E -> E') (m : M S E A) Q X s : wp m Q X s -> wp (catching h m) Q X s.
Proof. unfold wp, catching. by destruct (m s) as [[a|e] s1]. Qed.
(** The state after, whatever the outcome. *)
Lemma wp_after {A} (m : M S E A) (X : S -> Prop) s : wp m (fun _ => X) X s <-> X (m s).2.
Proof. unfold wp. by destruct (m s) as [[a|e] s1]. Qed.
End wp.

(** ** The interface of a table *)

Class Table (T K R : Type) := {
  tbl_empty : T;
  tbl_get : K -> T -> option R;
  tbl_put : K -> R -> T -> T;
  tbl_delete : K -> T -> T;
  (** [SELECT *] without [ORDER BY] *)
  tbl_rows : T -> list (K * R)
}.

Class TableLaws (T K R : Type) `{EqDecision K, Table T K R} : Prop := {
  get_empty k : tbl_get k tbl_empty = None;
  get_put k k' r (t : T) : tbl_get k' (tbl_put k r t) = if decide (k = k') then Some r else tbl_get k' t;
  get_delete k k' (t : T) : tbl_get k' (tbl_delete k t) = if decide (k = k') then None else tbl_get k' t;
  elem_rows k r (t : T) : (k, r) ∈ tbl_rows t <-> tbl_get k t = Some r;
  nodup_rows (t : T) : NoDup (tbl_rows t).*1
}.

(** Finite maps are tables. *)
#[export] Instance gmap_table {K R} `{Countable K} : Table (gmap K R) K R := {
  tbl_empty := ∅;
  tbl_get k t := t !! k;
  tbl_put k r t := <[k := r]> t;
  tbl_delete k t := delete k t;
  tbl_rows t := map_to_list t
}.

#[export] Instance gmap_table_laws {K R} `{Countable K} : TableLaws (gmap K R) K R.
Proof.
  split; unfold tbl_get, tbl_put, tbl_delete, tbl_rows, tbl_empty; cbn.
  - intros k. apply lookup_empty.
  - intros k k' r t. case_decide as D; [subst; apply lookup_insert_eq|by apply lookup_insert_ne].
  - intros k k' t. case_decide as D; [subst; apply lookup_delete_eq|by apply lookup_delete_ne].
  - intros k r t. apply elem_of_map_to_list.
  - intros t. apply NoDup_fst_map_to_list.
Qed.

Section laws.
Context {T K R : Type} `{TableLaws T K R}.

Lemma get_put_eq k r (t : T) : tbl_get k (tbl_put k r t) = Some r.
Proof. rewrite get_put. by case_decide. Qed.
Lemma get_put_ne k k' r (t : T) : k <> k' -> tbl_get k' (tbl_put k r t) = tbl_get k' t.
Proof. intros N. rewrite get_put. by case_decide. Qed.

(** A query for the rows that satisfy a condition. *)
Definition tbl_select (p : R -> bool) (t : T) : list R := (filter (fun e => p e.2 = true) (tbl_rows t)).*2.

Lemma elem_select p r (t : T) : r ∈ tbl_select p t <-> p r = true /\ exists k, tbl_get k t = Some r.
Proof.
  unfold tbl_select. rewrite list_elem_of_fmap. split.
  - intros ([k r'] & -> & [P E]%list_elem_of_filter). split; [done|]. exists k. by apply elem_rows.
  - intros (P & k & E). exists (k, r). split; [done|]. apply list_elem_of_filter. split; [done|]. by apply elem_rows.
Qed.
End laws.
