(* ===== verification/Groups.v ===== *)
(** * Registered groups, their members and conversation slots

    [services/conversation_slot_service.py], [services/group_member_service.py] and
    [services/group_registry.py] over three tables. A method runs in a database
    session of its own request; the clock is an argument of the methods that stamp.
    The creation and the migrations of the tables ([_ensure_schema]) are not modelled. *)

From stdpp Require Import base tactics list option strings gmap.
From Stdlib Require Import ZArith NArith Ascii.
From S2P Require Import Prelude PyStr PySort SafePath Db.

Record RegisteredGroup := mkGroup {
  rg_jid : string;
  rg_name : string;
  rg_folder : string;
  rg_added_at : Z;
  rg_created_by : option string;
  rg_is_home : bool;
  rg_target : option string
}.

Record GroupMember := mkMember {
  gm_group_folder : string;
  gm_user_id : string;
  gm_role : string;
  gm_joined_at : Z;
  gm_added_by : option string
}.

Record ConversationSlot := mkSlot {
  cs_workspace_folder : string;
  cs_slot_id : string;
  cs_title : string;
  cs_created_by : option string;
  cs_created_at : Z
}.

Inductive group_error :=
| GValueError (msg : string)
| GConflictError (msg : string)
| GLookupError (msg : string)
| GRuntimeError (msg : string).

Record GroupIMBindingStatus := mkBinding {
  ib_im_jid : string;
  ib_name : string;
  ib_channel : string;
  ib_fallback_group_id : string;
  ib_binding_state : string;
  ib_target_group_id : option string;
  ib_target_group_name : option string;
  ib_bound_to_current_group : bool
}.

(** [^[a-z0-9][a-z0-9-]*$], matched in full: slots and workspace folders. *)
Definition lower_alnum (c : ascii) : bool :=
  let n := code c in ((97 <=? n) && (n <=? 122) || (48 <=? n) && (n <=? 57))%N.
Definition folder_pattern (s : string) : bool :=
  match str_chars s with
  | [] => false
  | c :: l => lower_alnum c && forallb (fun c => lower_alnum c || bool_decide (c = "-"%char)) l
  end.

(** [_channel_from_jid]. *)
Definition channel_from_jid (jid : string) : option string :=
  if startswith "telegram:" jid then Some "telegram"
  else if startswith "feishu:" jid then Some "feishu" else None.

Definition VALID_GROUP_MEMBER_ROLES : list string := ["owner"; "admin"; "member"].

Section services.
Context {GT MT ST : Type} `{Table GT string RegisteredGroup} `{Table MT (string * string) GroupMember}
  `{Table ST (string * string) ConversationSlot}.

Record db := mkDb { db_groups : GT; db_members : MT; db_slots : ST }.
Definition with_groups (g : GT) (s : db) : db := mkDb g (db_members s) (db_slots s).
Definition with_members (m : MT) (s : db) : db := mkDb (db_groups s) m (db_slots s).
Definition with_slots (x : ST) (s : db) : db := mkDb (db_groups s) (db_members s) x.

Local Abbreviation Q := (M db group_error).

(** ** Conversation slots *)

Definition get_slot (workspace_folder slot_id : string) : Q (option ConversationSlot) :=
  gets (fun s => tbl_get (workspace_folder, slot_id) (db_slots s)).
Definition put_slot (c : ConversationSlot) : Q ConversationSlot :=
  _ ← modify (fun s => with_slots (tbl_put (cs_workspace_folder c, cs_slot_id c) c (db_slots s)) s);
  mret c.

Definition ensure_main_slot (workspace_folder : string) (created_by : option string) (now : Z) : Q ConversationSlot :=
  existing ← get_slot workspace_folder "main";
  match existing with
  | Some c =>
      match cs_created_by c, created_by with
      | None, Some _ =>
          put_slot (mkSlot (cs_workspace_folder c) (cs_slot_id c) (cs_title c) created_by (cs_created_at c))
      | _, _ => mret c
      end
  | None => put_slot (mkSlot workspace_folder "main" "Main" created_by now)
  end.

Definition create_slot (workspace_folder slot_id title : string) (created_by : option string) (now : Z) :
    Q ConversationSlot :=
  if bool_decide (slot_id = "main") then throw (GValueError "slot_id 'main' is reserved")
  else if negb (folder_pattern slot_id) then throw (GValueError "invalid slot_id")
  else
    existing ← get_slot workspace_folder slot_id;
    match existing with
    | Some c => mret c
    | None => put_slot (mkSlot workspace_folder slot_id title created_by now)
    end.

(** Ordered by whether it is the main slot, then by id. *)
Definition list_slots (workspace_folder : string) : Q (list ConversationSlot) :=
  gets (fun s => py_sorted (fun c => ((if bool_decide (cs_slot_id c = "main") then 0 else 1)%Z, cs_slot_id c))
    (tbl_select (fun c => bool_decide (cs_workspace_folder c = workspace_folder)) (db_slots s))).

(** ** Members *)

Definition get_member (group_folder user_id : string) : Q (option GroupMember) :=
  gets (fun s => tbl_get (group_folder, user_id) (db_members s)).

Definition list_members (group_folder : string) : Q (list GroupMember) :=
  gets (fun s => py_sorted gm_user_id
    (tbl_select (fun m => bool_decide (gm_group_folder m = group_folder)) (db_members s))).

Definition get_member_role (group_folder user_id : string) : Q (option string) :=
  m ← get_member group_folder user_id; mret (gm_role <$> m).

Definition validate_role (role : string) : Q string :=
  if bool_decide (role ∈ VALID_GROUP_MEMBER_ROLES) then mret role
  else throw (GValueError ("invalid group member role: " +:+ role)).

Definition is_owner (m : GroupMember) : bool := bool_decide (gm_role m = "owner").

Definition add_member (group_folder user_id role : string) (added_by : option string) (now : Z) : Q GroupMember :=
  normalized_role ← validate_role role;
  existing_member ← get_member group_folder user_id;
  let refused :=
    match existing_member with
    | Some m => negb (Bool.eqb (is_owner m) (bool_decide (normalized_role = "owner")))
    | None => false
    end in
  if refused : bool then throw (GValueError "owner role changes are not supported")
  else
    let member := mkMember group_folder user_id normalized_role
                    (match existing_member with Some m => gm_joined_at m | None => now end)
                    (match existing_member with Some m => gm_added_by m | None => added_by end) in
    _ ← modify (fun s => with_members (tbl_put (group_folder, user_id) member (db_members s)) s);
    persisted ← get_member group_folder user_id;
    match persisted with
    | Some m => mret m
    | None => throw (GRuntimeError "failed to persist group member")
    end.

Definition remove_member (group_folder user_id : string) : Q bool :=
  member ← get_member group_folder user_id;
  match member with
  | None => mret false
  | Some m =>
      if is_owner m then throw (GValueError "group owner cannot be removed")
      else _ ← modify (fun s => with_members (tbl_delete (group_folder, user_id) (db_members s)) s); mret true
  end.

(** ** The registry *)

Definition get_registered_group (jid : string) : Q (option RegisteredGroup) :=
  gets (fun s => tbl_get jid (db_groups s)).
Definition put_group (g : RegisteredGroup) : Q unit :=
  modify (fun s => with_groups (tbl_put (rg_jid g) g (db_groups s)) s).

Definition list_registered_groups : Q (list RegisteredGroup) :=
  gets (fun s => py_sorted (fun g => (rg_added_at g, rg_folder g)) (tbl_select (fun _ => true) (db_groups s))).

Definition ensure_main_slot_for_workspace (g : RegisteredGroup) (now : Z) : Q unit :=
  _ ← ensure_main_slot (rg_folder g) (rg_created_by g) now; mret tt.

(** [target_workspace_jid] is never given by the application. *)
Definition ensure_registered_group (jid name folder : string) (created_by : option string) (is_home : option bool)
    (now : Z) : Q RegisteredGroup :=
  existing ← get_registered_group jid;
  let group :=
    match existing with
    | Some g => mkGroup (rg_jid g) name folder (rg_added_at g)
                  (match rg_created_by g with None => created_by | Some c => Some c end)
                  (rg_is_home g || default false is_home) (rg_target g)
    | None => mkGroup jid name folder now created_by (default false is_home) None
    end in
  _ ← put_group group;
  _ ← ensure_main_slot_for_workspace group now;
  mret group.

Definition ensure_im_endpoint (jid name folder : string) (now : Z) : Q RegisteredGroup :=
  existing ← get_registered_group jid;
  match existing with
  | Some g => _ ← ensure_main_slot_for_workspace g now; mret g
  | None => ensure_registered_group jid name folder None None now
  end.

Definition ensure_home_workspace (user_id : string) (role : option string) (username : string) (now : Z) :
    Q RegisteredGroup :=
  if bool_decide (role = Some "owner")
  then ensure_registered_group "web:main" "Main" "main" (Some user_id) (Some true) now
  else ensure_registered_group ("web:home-" +:+ user_id) (username +:+ " Home") ("home-" +:+ user_id)
         (Some user_id) (Some true) now.

Definition validate_workspace_folder (folder : string) : Q unit :=
  if bool_decide (folder = "main") || startswith "home-" folder then throw (GValueError "reserved workspace folder")
  else if negb (folder_pattern folder) then throw (GValueError "invalid workspace folder")
  else mret tt.

Definition get_group_by_folder (folder : string) : Q (option RegisteredGroup) :=
  gets (fun s => head (py_sorted (fun g => (rg_added_at g, rg_jid g))
    (tbl_select (fun g => bool_decide (rg_folder g = folder)) (db_groups s)))).

Definition create_workspace (folder name created_by : string) (now : Z) : Q RegisteredGroup :=
  _ ← validate_workspace_folder folder;
  existing ← get_group_by_folder folder;
  match existing with
  | Some _ => throw (GConflictError "workspace already exists")
  | None =>
      workspace ← ensure_registered_group ("web:" +:+ folder) name folder (Some created_by) (Some false) now;
      _ ← add_member folder created_by "owner" (Some created_by) now;
      mret workspace
  end.

Definition is_web (jid : string) : bool := startswith "web:" jid.

Definition rename_workspace (group : RegisteredGroup) (name : string) : Q RegisteredGroup :=
  if rg_is_home group then throw (GValueError "home workspaces cannot be renamed")
  else if negb (is_web (rg_jid group)) then throw (GValueError "only canonical web workspaces can be renamed")
  else
    let g := mkGroup (rg_jid group) name (rg_folder group) (rg_added_at group) (rg_created_by group)
               (rg_is_home group) (rg_target group) in
    _ ← put_group g; mret g.

(** The first of the web workspaces of a folder. *)
Definition find_web_workspace (folder : string) (s : db) : option RegisteredGroup :=
  head (py_sorted (fun g => (rg_added_at g, rg_jid g))
    (List.filter (fun g => is_web (rg_jid g))
       (tbl_select (fun g => bool_decide (rg_folder g = folder)) (db_groups s)))).

Definition get_web_workspace_by_folder (folder : string) (now : Z) : Q (option RegisteredGroup) :=
  workspace ← gets (find_web_workspace folder);
  match workspace with
  | None => mret None
  | Some g => _ ← ensure_main_slot_for_workspace g now; mret (Some g)
  end.

Definition truthy_text (o : option string) : option string :=
  match o with Some s => if bool_decide (s = "") then None else Some s | None => None end.

Definition resolve_im_workspace (jid : string) : Q (option RegisteredGroup) :=
  endpoint ← get_registered_group jid;
  match endpoint with
  | None => mret None
  | Some e =>
      match truthy_text (rg_target e) with
      | None => mret (Some e)
      | Some t =>
          bound_workspace ← get_registered_group t;
          mret (match bound_workspace with
                | Some w => if is_web (rg_jid w) then Some w else Some e
                | None => Some e
                end)
      end
  end.

(** ** Bindings of IM endpoints *)

Definition binding_status (group : RegisteredGroup) (s : db) (endpoint : RegisteredGroup) :
    option GroupIMBindingStatus :=
  match channel_from_jid (rg_jid endpoint) with
  | None => None
  | Some channel =>
      let '(state, id, name, bound) :=
        match truthy_text (rg_target endpoint) with
        | None => ("unbound", None, None, false)
        | Some t =>
            match tbl_get t (db_groups s) with
            | Some target =>
                if is_web (rg_jid target)
                then ("bound", Some (rg_folder target), Some (rg_name target), bool_decide (rg_jid target = rg_jid group))
                else ("orphaned", None, None, false)
            | None => ("orphaned", None, None, false)
            end
        end in
      Some (mkBinding (rg_jid endpoint) (rg_name endpoint) channel (rg_folder endpoint) state id name bound)
  end.

Definition list_im_endpoint_bindings (group : RegisteredGroup) : Q (list GroupIMBindingStatus) :=
  gets (fun s => omap (binding_status group s)
    (py_sorted (fun g => (rg_added_at g, rg_jid g)) (tbl_select (fun _ => true) (db_groups s)))).

Definition set_target (e : RegisteredGroup) (target : option string) : RegisteredGroup :=
  mkGroup (rg_jid e) (rg_name e) (rg_folder e) (rg_added_at e) (rg_created_by e) (rg_is_home e) target.

(** The endpoint of an id, or the error both operations raise. *)
Definition im_endpoint (im_jid : string) : Q RegisteredGroup :=
  endpoint ← get_registered_group im_jid;
  match endpoint with
  | None => throw (GLookupError "IM endpoint not found")
  | Some e =>
      match channel_from_jid (rg_jid e) with
      | None => throw (GValueError "group is not an IM endpoint")
      | Some _ => mret e
      end
  end.

Definition bind_im_endpoint_to_workspace (group : RegisteredGroup) (im_jid : string) : Q RegisteredGroup :=
  e ← im_endpoint im_jid;
  if bool_decide (rg_target e = Some (rg_jid group)) then mret e
  else
    target ← match truthy_text (rg_target e) with Some t => get_registered_group t | None => mret None end;
    match target with
    | Some w =>
        if is_web (rg_jid w) then throw (GConflictError "IM endpoint is already bound elsewhere")
        else _ ← put_group (set_target e (Some (rg_jid group))); mret (set_target e (Some (rg_jid group)))
    | None => _ ← put_group (set_target e (Some (rg_jid group))); mret (set_target e (Some (rg_jid group)))
    end.

Definition unbind_im_endpoint_from_workspace (group : RegisteredGroup) (im_jid : string) : Q RegisteredGroup :=
  e ← im_endpoint im_jid;
  if bool_decide (rg_target e = Some (rg_jid group))
  then _ ← put_group (set_target e None); mret (set_target e None)
  else throw (GValueError "IM endpoint is not bound to this workspace").

(** ** Access *)

Definition created_by_user (g : RegisteredGroup) (user_id : string) : bool :=
  bool_decide (rg_created_by g = Some user_id).

(** The fuel bounds the recursion; [user_can_access_group] starts with two calls,
    which [access_ends] shows to be enough. *)
Fixpoint user_can_access (fuel : nat) (user_id : string) (user_role : option string) (group : RegisteredGroup) :
    Q bool :=
  match fuel with
  | O => throw (GRuntimeError "maximum recursion depth exceeded")
  | S fuel =>
      if rg_is_home group then
        mret (bool_decide (rg_jid group = "web:main" /\ rg_folder group = "main" /\ user_role = Some "owner")
              || created_by_user group user_id)
      else if is_web (rg_jid group) then
        if created_by_user group user_id then mret true
        else m ← get_member (rg_folder group) user_id; mret (bool_decide (is_Some m))
      else
        match truthy_text (rg_target group) with
        | Some _ =>
            bound_workspace ← resolve_im_workspace (rg_jid group);
            match bound_workspace with
            | Some w =>
                if bool_decide (rg_jid w = rg_jid group) then mret (created_by_user group user_id)
                else user_can_access fuel user_id user_role w
            | None => mret (created_by_user group user_id)
            end
        | None => mret (created_by_user group user_id)
        end
  end.

Definition user_can_access_group : string -> option string -> RegisteredGroup -> Q bool := user_can_access 2.

Definition user_can_manage_members (user_id : string) (group : RegisteredGroup) : bool :=
  negb (rg_is_home group) && is_web (rg_jid group) && created_by_user group user_id.
End services.

Arguments db : clear implicits.
