(* ===== verification/GroupRoutes.v ===== *)
(** * The group routes ([app/routes/groups.py])

    Each handler as one computation over the database, for the user its dependency
    has resolved; [user_exists] is the lookup of [auth_service]. *)

From stdpp Require Import base tactics list option strings gmap.
From Stdlib Require Import ZArith NArith Ascii.
From S2P Require Import Prelude PyStr PySort Auth SafePath Db Groups.

Definition http_status (conflict lookup value : Z) (e : group_error) : http_error :=
  match e with
  | GConflictError msg => (conflict, msg)
  | GLookupError msg => (lookup, msg)
  | GValueError msg => (value, msg)
  | GRuntimeError _ => server_error
  end.
(** The [except] clauses of the handlers; a 500 where an exception is not caught. *)
Definition uncaught : group_error -> http_error := fun _ => server_error.
Definition value_to_400 (e : group_error) : http_error :=
  match e with GValueError msg => (400%Z, msg) | _ => server_error end.

Definition not_found : http_error := (404%Z, "group not found").
Definition no_home_members : http_error := (400%Z, "home workspaces do not support member management").

Section routes.
Context {GT MT ST : Type} `{Table GT string RegisteredGroup} `{Table MT (string * string) GroupMember}
  `{Table ST (string * string) ConversationSlot}.
Variable user_exists : string -> bool.

Local Abbreviation R := (M (db GT MT ST) http_error).

(** [require_permission("groups", action)], for a resolved user. *)
Definition require_groups (action : string) (u : AuthUser) : R unit :=
  if has_permission (au_role u) "groups" action then mret tt else throw forbidden.

Definition require_accessible_workspace (group_id : string) (u : AuthUser) (now : Z) : R RegisteredGroup :=
  workspace ← catching uncaught (get_web_workspace_by_folder group_id now);
  match workspace with
  | None => throw not_found
  | Some w =>
      ok ← catching uncaught (user_can_access_group (au_id u) (au_role u) w);
      if ok : bool then mret w else throw not_found
  end.

Definition require_owner_binding_role (u : AuthUser) : R unit :=
  if bool_decide (au_role u = Some "owner") then mret tt else throw forbidden.

Definition ensure_owner_role_change_supported (group_folder user_id requested_role : string) : R unit :=
  existing ← catching uncaught (get_member group_folder user_id);
  let owner := match existing with Some m => is_owner m | None => false end in
  if Bool.eqb owner (bool_decide (requested_role = "owner")) then mret tt
  else throw (400%Z, "owner role changes are not supported").

(** The rows of [list_registered_groups] the user sees, in order. *)
Fixpoint accessible (u : AuthUser) (groups : list RegisteredGroup) : R (list RegisteredGroup) :=
  match groups with
  | [] => mret []
  | g :: groups =>
      ok ← (if is_web (rg_jid g) then catching uncaught (user_can_access_group (au_id u) (au_role u) g) else mret false);
      rest ← accessible u groups;
      mret (if ok : bool then g :: rest else rest)
  end.

(** [GET /groups]: the ids and names. *)
Definition list_groups (u : AuthUser) (now : Z) : R (list (string * string)) :=
  _ ← catching uncaught (ensure_home_workspace (au_id u) (au_role u) (au_username u) now);
  groups ← catching uncaught list_registered_groups;
  visible ← accessible u groups;
  mret (map (fun g => (rg_folder g, rg_name g)) visible).

(** [POST /groups]. *)
Definition create_group (u : AuthUser) (group_id name : string) (now : Z) : R (string * string) :=
  _ ← require_groups "write" u;
  w ← catching (http_status 409 500 400) (create_workspace group_id name (au_id u) now);
  mret (rg_folder w, rg_name w).

(** [PATCH /groups/{group_id}]. *)
Definition update_group (u : AuthUser) (group_id name : string) (now : Z) : R (string * string) :=
  _ ← require_groups "write" u;
  w ← require_accessible_workspace group_id u now;
  _ ← (if rg_is_home w then _ ← catching value_to_400 (rename_workspace w name); mret tt else mret tt);
  if negb (user_can_manage_members (au_id u) w) then throw forbidden
  else
    renamed ← catching value_to_400 (rename_workspace w name);
    mret (rg_folder renamed, rg_name renamed).

(** [GET /groups/{group_id}/slots], [POST /groups/{group_id}/slots]. *)
Definition list_group_slots (u : AuthUser) (group_id : string) (now : Z) : R (list ConversationSlot) :=
  w ← require_accessible_workspace group_id u now;
  catching uncaught (list_slots (rg_folder w)).
Definition create_group_slot (u : AuthUser) (group_id slot_id title : string) (now : Z) : R ConversationSlot :=
  w ← require_accessible_workspace group_id u now;
  catching value_to_400 (create_slot (rg_folder w) slot_id title (Some (au_id u)) now).

(** [GET], [PUT] and [DELETE /groups/{group_id}/bindings/im]. *)
Definition list_group_im_bindings (u : AuthUser) (group_id : string) (now : Z) : R (list GroupIMBindingStatus) :=
  _ ← require_owner_binding_role u;
  w ← require_accessible_workspace group_id u now;
  catching uncaught (list_im_endpoint_bindings w).

Definition channel_from_im_jid (im_jid : string) : string :=
  if startswith "telegram:" im_jid then "telegram" else "feishu".

Definition bind_group_im_endpoint (u : AuthUser) (group_id im_jid : string) (now : Z) : R GroupIMBindingStatus :=
  _ ← require_owner_binding_role u;
  w ← require_accessible_workspace group_id u now;
  e ← catching (http_status 409 404 400) (bind_im_endpoint_to_workspace w im_jid);
  mret (mkBinding (rg_jid e) (rg_name e) (channel_from_im_jid (rg_jid e)) (rg_folder e) "bound"
          (Some (rg_folder w)) (Some (rg_name w)) true).

Definition unbind_group_im_endpoint (u : AuthUser) (group_id im_jid : string) (now : Z) : R GroupIMBindingStatus :=
  _ ← require_owner_binding_role u;
  w ← require_accessible_workspace group_id u now;
  e ← catching (http_status 500 404 400) (unbind_im_endpoint_from_workspace w im_jid);
  mret (mkBinding (rg_jid e) (rg_name e) (channel_from_im_jid (rg_jid e)) (rg_folder e) "unbound" None None false).

(** [GET], [POST] and [DELETE /groups/{group_id}/members]. *)
Definition list_group_members (u : AuthUser) (group_id : string) (now : Z) : R (list GroupMember) :=
  _ ← require_groups "read" u;
  w ← require_accessible_workspace group_id u now;
  if rg_is_home w then throw no_home_members else catching uncaught (list_members (rg_folder w)).

Definition add_group_member (u : AuthUser) (group_id user_id role : string) (now : Z) : R GroupMember :=
  _ ← require_groups "write" u;
  w ← require_accessible_workspace group_id u now;
  if rg_is_home w then throw no_home_members
  else if negb (user_can_manage_members (au_id u) w) then throw forbidden
  else if negb (user_exists user_id) then throw (404%Z, "user not found")
  else
    _ ← ensure_owner_role_change_supported (rg_folder w) user_id role;
    catching value_to_400 (add_member (rg_folder w) user_id role (Some (au_id u)) now).

Definition member_not_found : http_error := (404%Z, "group member not found").

Definition remove_group_member (u : AuthUser) (group_id user_id : string) (now : Z) : R unit :=
  w ← require_accessible_workspace group_id u now;
  if rg_is_home w then throw no_home_members
  else if bool_decide (user_id = au_id u) then
    current_role ← catching uncaught (get_member_role (rg_folder w) (au_id u));
    match current_role with
    | None => throw member_not_found
    | Some role =>
        if bool_decide (role = "owner") then throw (400%Z, "group owner cannot remove self")
        else
          removed ← catching uncaught (remove_member (rg_folder w) user_id);
          if removed : bool then mret tt else throw member_not_found
    end
  else if negb (user_can_manage_members (au_id u) w) then throw forbidden
  else
    removed ← catching value_to_400 (remove_member (rg_folder w) user_id);
    if removed : bool then mret tt else throw member_not_found.

(** The requests that reach the group routes. *)
Inductive group_request :=
| RListGroups
| RCreateGroup (group_id name : string)
| RUpdateGroup (group_id name : string)
| RListSlots (group_id : string)
| RCreateSlot (group_id slot_id title : string)
| RListBindings (group_id : string)
| RBind (group_id im_jid : string)
| RUnbind (group_id im_jid : string)
| RListMembers (group_id : string)
| RAddMember (group_id user_id role : string)
| RRemoveMember (group_id user_id : string).

Definition ignore {A} (m : R A) : R unit := _ ← m; mret tt.

Definition handle (u : AuthUser) (now : Z) (r : group_request) : R unit :=
  match r with
  | RListGroups => ignore (list_groups u now)
  | RCreateGroup g n => ignore (create_group u g n now)
  | RUpdateGroup g n => ignore (update_group u g n now)
  | RListSlots g => ignore (list_group_slots u g now)
  | RCreateSlot g i t => ignore (create_group_slot u g i t now)
  | RListBindings g => ignore (list_group_im_bindings u g now)
  | RBind g j => ignore (bind_group_im_endpoint u g j now)
  | RUnbind g j => ignore (unbind_group_im_endpoint u g j now)
  | RListMembers g => ignore (list_group_members u g now)
  | RAddMember g i r => ignore (add_group_member u g i r now)
  | RRemoveMember g i => remove_group_member u g i now
  end.
End routes.
