(* ===== verification/GroupsProps.v ===== *)
(** * Properties of the groups *)

From stdpp Require Import base tactics list option strings gmap.
From Stdlib Require Import ZArith NArith Ascii.
From S2P Require Import Prelude PyStr PySort Auth SafePath Db Groups GroupRoutes.

(** Walking through a computation. *)
Ltac wp_step :=
  match goal with
  | |- wp (_ ≫= _) _ _ _ => apply wp_bind
  | |- wp (mret _) _ _ _ => apply wp_ret
  | |- wp (throw _) _ _ _ => apply wp_throw
  | |- wp (gets _) _ _ _ => apply wp_gets
  | |- wp (modify _) _ _ _ => apply wp_modify
  | |- wp (catching _ _) _ _ _ => apply wp_catching
  | |- wp (let _ := _ in _) _ _ _ => cbv zeta
  | |- wp (if ?b then _ else _) _ _ _ => let D := fresh "D" in destruct b eqn:D
  | |- wp (match ?x with Some _ => _ | None => _ end) _ _ _ => let D := fresh "D" in destruct x eqn:D
  end.

Section props.
Context {GT MT ST : Type} `{Table GT string RegisteredGroup} `{Table MT (string * string) GroupMember}
  `{Table ST (string * string) ConversationSlot}.
Context `{!TableLaws GT string RegisteredGroup} `{!TableLaws MT (string * string) GroupMember}
  `{!TableLaws ST (string * string) ConversationSlot}.

Local Abbreviation DB := (db GT MT ST).
Implicit Types (s : DB) (g w : RegisteredGroup) (c : ConversationSlot) (m : GroupMember).

Definition group_at (jid : string) s : option RegisteredGroup := tbl_get jid (db_groups s).
Definition member_at (f u : string) s : option GroupMember := tbl_get (f, u) (db_members s).
Definition slot_at (f i : string) s : option ConversationSlot := tbl_get (f, i) (db_slots s).

Definition reserved (folder : string) : bool := bool_decide (folder = "main") || startswith "home-" folder.

(** ** The invariant *)

Definition slots_keyed s : Prop :=
  forall f i c, slot_at f i s = Some c -> cs_workspace_folder c = f /\ cs_slot_id c = i.

Record wf s : Prop := {
  wf_group_key : forall jid g, group_at jid s = Some g -> rg_jid g = jid;
  wf_member_key : forall f u m, member_at f u s = Some m -> gm_group_folder m = f /\ gm_user_id m = u;
  wf_slot_key : slots_keyed s;
  (** the id of a web workspace is its folder's *)
  wf_identity : forall jid g, group_at jid s = Some g -> is_web jid = true -> jid = "web:" +:+ rg_folder g;
  (** exactly the home workspaces have reserved folders *)
  wf_home : forall jid g, group_at jid s = Some g -> rg_is_home g = is_web jid && reserved (rg_folder g);
  wf_created : forall jid g, group_at jid s = Some g -> is_web jid = true -> is_Some (rg_created_by g);
  (** every group has the main slot of its folder *)
  wf_main : forall jid g, group_at jid s = Some g -> is_Some (slot_at (rg_folder g) "main" s)
}.

(** ** Steps that only make sure of slots *)

(** Slots stay, with their title; a known creator stays. *)
Definition slots_ext s s' : Prop :=
  forall f i c, slot_at f i s = Some c -> exists c', slot_at f i s' = Some c' /\
    cs_title c' = cs_title c /\ cs_created_at c' = cs_created_at c /\
    (cs_created_by c <> None -> cs_created_by c' = cs_created_by c).

(** The main slot of the folder of a registered group was made, or completed, in its creator's name. *)
Definition main_made (f i : string) c' s s' : Prop :=
  i = "main" /\ (exists jid g, group_at jid s' = Some g /\ rg_folder g = f /\ cs_created_by c' = rg_created_by g) /\
  match slot_at f i s with Some c => cs_created_by c = None | None => cs_title c' = "Main" end.
Definition slots_sure s s' : Prop :=
  forall f i c', slot_at f i s' = Some c' -> slot_at f i s = Some c' \/ main_made f i c' s s'.

(** The groups and members are the same, and so are the slots up to main slots. *)
Definition quiet s s' : Prop :=
  db_groups s' = db_groups s /\ db_members s' = db_members s /\ slots_ext s s' /\ (slots_keyed s -> slots_keyed s') /\
  slots_sure s s'.

(** Groups that stay, with their folder and creator. *)
Definition groups_stay s s' : Prop :=
  forall jid g, group_at jid s = Some g -> exists g', group_at jid s' = Some g' /\ rg_folder g' = rg_folder g /\
    rg_created_by g' = rg_created_by g.
Lemma main_made_later f i c s s1 s2 : main_made f i c s s1 -> groups_stay s1 s2 -> main_made f i c s s2.
Proof.
  intros (-> & (jid & g & E & F & C) & N) G. split; [done|]. split; [|done]. destruct (G jid g E) as (g' & E' & F' & C').
  exists jid, g'. split; [done|]. split; congruence.
Qed.

Lemma slots_ext_refl s : slots_ext s s.
Proof. intros f i c E. by exists c. Qed.
Lemma slots_ext_trans s1 s2 s3 : slots_ext s1 s2 -> slots_ext s2 s3 -> slots_ext s1 s3.
Proof.
  intros A B f i c E. destruct (A f i c E) as (c2 & E2 & T2 & C2 & P2).
  destruct (B f i c2 E2) as (c3 & E3 & T3 & C3 & P3). exists c3. split; [done|]. split; [congruence|].
  split; [congruence|]. intros N. specialize (P2 N). rewrite <- P2 in *. auto.
Qed.

Lemma slots_sure_refl s : slots_sure s s.
Proof. intros f i c E. by left. Qed.
(** A slot made in the second step, seen from the start. *)
Lemma main_made_earlier f i c s s1 s2 :
  slots_ext s s1 -> slots_ext s1 s2 -> slots_sure s s1 ->
  slot_at f i s2 = Some c -> main_made f i c s1 s2 -> main_made f i c s s2.
Proof.
  intros X1 X2 S E (-> & G & N). split; [done|]. split; [done|]. destruct (slot_at f "main" s1) as [c1|] eqn:E1.
  - destruct (S f "main" c1 E1) as [E0|(_ & _ & N0)]; [by rewrite E0|]. destruct (slot_at f "main" s); [done|].
    destruct (X2 f "main" c1 E1) as (c2 & E2 & T & _). congruence.
  - destruct (slot_at f "main" s) as [c0|] eqn:E0; [|done]. destruct (X1 f "main" c0 E0) as (c1 & E1' & _). congruence.
Qed.
Lemma slots_sure_trans s1 s2 s3 :
  slots_ext s1 s2 -> slots_ext s2 s3 -> groups_stay s2 s3 -> slots_sure s1 s2 -> slots_sure s2 s3 -> slots_sure s1 s3.
Proof.
  intros X1 X2 G A B f i c E. destruct (B f i c E) as [E2|M]; [|right; by eapply main_made_earlier].
  destruct (A f i c E2) as [E1|M]; [by left|right; by eapply main_made_later].
Qed.
Lemma same_groups_stay s s' : db_groups s' = db_groups s -> groups_stay s s'.
Proof. intros E jid g H'. exists g. unfold group_at in *. by rewrite E. Qed.

Lemma quiet_refl s : quiet s s.
Proof. split; [done|]. split; [done|]. split; [apply slots_ext_refl|]. split; [done|apply slots_sure_refl]. Qed.
Lemma quiet_trans s1 s2 s3 : quiet s1 s2 -> quiet s2 s3 -> quiet s1 s3.
Proof.
  intros (A1 & A2 & A3 & A4 & A5) (B1 & B2 & B3 & B4 & B5). split; [congruence|]. split; [congruence|].
  split; [by eapply slots_ext_trans|]. split; [auto|]. eapply slots_sure_trans; [exact A3|exact B3| |done..].
  by apply same_groups_stay.
Qed.

#[local] Instance quiet_pre : PreOrder quiet.
Proof. split; [exact quiet_refl|exact quiet_trans]. Qed.

Lemma slot_at_put f i c s f' i' :
  slot_at f' i' (with_slots (tbl_put (f, i) c (db_slots s)) s) =
    if decide ((f, i) = (f', i')) then Some c else slot_at f' i' s.
Proof. unfold slot_at. cbn [db_slots with_slots]. by rewrite get_put. Qed.

(** Storing a slot under its key, over nothing or over the same slot without creator. *)
Lemma put_slot_ext c s :
  (forall c0, slot_at (cs_workspace_folder c) (cs_slot_id c) s = Some c0 ->
     cs_title c = cs_title c0 /\ cs_created_at c = cs_created_at c0 /\
     (cs_created_by c0 <> None -> cs_created_by c = cs_created_by c0)) ->
  let s' := with_slots (tbl_put (cs_workspace_folder c, cs_slot_id c) c (db_slots s)) s in
  slots_ext s s' /\ (slots_keyed s -> slots_keyed s').
Proof.
  intros C s'. split.
  - intros f i c0 E. unfold s'. rewrite slot_at_put. case_decide as D; [|by exists c0]. injection D as <- <-.
    exists c. split; [done|]. by apply C.
  - intros K f i c0. unfold s'. rewrite slot_at_put. case_decide as D; [|apply K]. injection D as <- <-.
    by intros [= <-].
Qed.
(** The main slot of a registered group. *)
Lemma put_main_quiet c g jid s :
  group_at jid s = Some g -> rg_folder g = cs_workspace_folder c -> cs_created_by c = rg_created_by g -> cs_slot_id c = "main" ->
  match slot_at (cs_workspace_folder c) "main" s with
  | Some c0 => cs_title c = cs_title c0 /\ cs_created_at c = cs_created_at c0 /\ cs_created_by c0 = None
  | None => cs_title c = "Main"
  end ->
  quiet s (with_slots (tbl_put (cs_workspace_folder c, cs_slot_id c) c (db_slots s)) s).
Proof.
  intros G F C I P. destruct (put_slot_ext c s) as [X K].
  { intros c0 E. rewrite I in E. rewrite E in P. destruct P as (P1 & P2 & P3). split; [done|]. split; [done|]. congruence. }
  split; [done|]. split; [done|]. split; [exact X|]. split; [exact K|].
  intros f i c' E. rewrite slot_at_put in E. case_decide as D; [|by left]. injection D as <- <-. injection E as <-. right.
  split; [done|]. split; [by exists jid, g|]. rewrite I. destruct (slot_at _ "main" s); [by destruct P as (_ & _ & P)|done].
Qed.

Lemma quiet_wf s s' : quiet s s' -> wf s -> wf s'.
Proof.
  intros (E1 & E2 & X & K & _) [W1 W2 W3 W4 W5 W6 W7]. unfold group_at, member_at in *.
  split; unfold group_at, member_at; rewrite ?E1, ?E2; auto.
  intros jid g E. destruct (W7 jid g E) as [c0 E0]. destruct (X _ _ _ E0) as (c1 & E3 & _). by exists c1.
Qed.

(** Any computation that ends in a state that is quietly different. *)
Lemma ensure_workspace_slot_spec g now s :
  slots_keyed s -> group_at (rg_jid g) s = Some g -> wp (ensure_main_slot_for_workspace g now)
    (fun _ s' => quiet s s' /\ is_Some (slot_at (rg_folder g) "main" s')) (fun _ => False) s.
Proof.
  intros W G. unfold ensure_main_slot_for_workspace. wp_step. unfold ensure_main_slot, get_slot, put_slot. wp_step. wp_step.
  change (tbl_get (rg_folder g, "main") (db_slots s)) with (slot_at (rg_folder g) "main" s).
  destruct (slot_at (rg_folder g) "main" s) as [c|] eqn:E.
  - destruct (W (rg_folder g) "main" c E) as [K1 K2]. destruct (cs_created_by c) as [u|] eqn:C; [|destruct (rg_created_by g) as [u|] eqn:Cg].
    + wp_step. wp_step. split; [apply quiet_refl|by exists c].
    + wp_step. wp_step. wp_step. wp_step. split.
      * apply (put_main_quiet _ g (rg_jid g)); cbn; try done. by rewrite K1, E.
      * rewrite slot_at_put. cbn. rewrite K1, K2. by rewrite decide_True.
    + wp_step. wp_step. split; [apply quiet_refl|by exists c].
  - wp_step. wp_step. wp_step. wp_step. split.
    + apply (put_main_quiet _ g (rg_jid g)); cbn; try done. by rewrite E.
    + rewrite slot_at_put. cbn. by rewrite decide_True.
Qed.

(** ** What the reads answer *)

Lemma select_group p s g : wf s -> g ∈ tbl_select p (db_groups s) -> p g = true /\ group_at (rg_jid g) s = Some g.
Proof.
  intros W (P & k & E)%elem_select. split; [done|]. pose proof (wf_group_key s W k g E) as <-. exact E.
Qed.

Lemma find_web_workspace_some f s w :
  wf s -> find_web_workspace f s = Some w ->
  group_at (rg_jid w) s = Some w /\ is_web (rg_jid w) = true /\ rg_folder w = f.
Proof.
  unfold find_web_workspace. intros W Hd. set (l := List.filter _ _) in Hd.
  assert (E : w ∈ l).
  { assert (P : py_sorted (fun g => (rg_added_at g, rg_jid g)) l ≡ₚ l) by apply py_sorted_perm.
    rewrite <- P. destruct (py_sorted _ l); [done|]. injection Hd as <-. left. }
  apply list_elem_of_In, filter_In in E as [E1%list_elem_of_In E2].
  apply select_group in E1 as [E1%bool_decide_eq_true E3]; [|done]. done.
Qed.

(** The workspace a handler goes on with. *)
Definition workspace_of (f : string) w s : Prop :=
  group_at (rg_jid w) s = Some w /\ is_web (rg_jid w) = true /\ rg_folder w = f.

Lemma quiet_group jid s s' : quiet s s' -> group_at jid s' = group_at jid s.
Proof. intros (E & _). unfold group_at. by rewrite E. Qed.
Lemma quiet_member f u s s' : quiet s s' -> member_at f u s' = member_at f u s.
Proof. intros (_ & E & _). unfold member_at. by rewrite E. Qed.

Lemma get_web_workspace_spec f now s :
  wf s -> wp (get_web_workspace_by_folder f now)
    (fun o s' => quiet s s' /\ forall w, o = Some w -> workspace_of f w s') (fun _ => False) s.
Proof.
  intros W. unfold get_web_workspace_by_folder. wp_step. wp_step.
  destruct (find_web_workspace f s) as [w|] eqn:E; [|wp_step; split; [apply quiet_refl|done]].
  pose proof (find_web_workspace_some _ _ _ W E) as (G & _).
  wp_step. eapply wp_mono; [apply ensure_workspace_slot_spec; [by apply wf_slot_key|done]| |done]. intros _ s' [Qs _]. wp_step.
  split; [done|]. intros w' [= <-]. unfold workspace_of. rewrite (quiet_group _ _ _ Qs). by apply find_web_workspace_some.
Qed.

(** ** Access *)

(** Who may see a web workspace, and who any group: the members of the workspace an
    endpoint is bound to, the creator otherwise. *)
Definition may_access (user_id : string) (role : option string) w s : bool :=
  if rg_is_home w then
    bool_decide (rg_jid w = "web:main" /\ rg_folder w = "main" /\ role = Some "owner") || created_by_user w user_id
  else created_by_user w user_id || bool_decide (is_Some (member_at (rg_folder w) user_id s)).

Definition bound_to g s : option RegisteredGroup :=
  match truthy_text (rg_target g) with
  | Some t => match group_at t s with Some w => if is_web (rg_jid w) then Some w else None | None => None end
  | None => None
  end.

Definition access_rule (user_id : string) (role : option string) g s : bool :=
  if rg_is_home g || is_web (rg_jid g) then may_access user_id role g s
  else match bound_to g s with
       | Some w => may_access user_id role w s
       | None => created_by_user g user_id
       end.

Lemma access_web n user_id role w s :
  is_web (rg_jid w) = true -> user_can_access (S n) user_id role w s = (Ok (may_access user_id role w s), s).
Proof.
  intros Hw. unfold may_access. cbn [user_can_access]. destruct (rg_is_home w); [done|]. rewrite Hw.
  destruct (created_by_user w user_id); [reflexivity|]. cbn. reflexivity.
Qed.

Lemma bound_to_some g s w :
  bound_to g s = Some w -> is_web (rg_jid w) = true /\ exists t, rg_target g = Some t /\ group_at t s = Some w.
Proof.
  unfold bound_to. destruct (truthy_text (rg_target g)) as [t|] eqn:T; [|done].
  destruct (group_at t s) as [w'|] eqn:E; [|done]. destruct (is_web (rg_jid w')) eqn:Web; [|done]. intros [= <-].
  split; [done|]. exists t. split; [|done]. unfold truthy_text in T. destruct (rg_target g) as [x|]; [|done].
  by case_bool_decide.
Qed.

Lemma resolve_eq g s :
  group_at (rg_jid g) s = Some g -> resolve_im_workspace (rg_jid g) s = (Ok (Some (default g (bound_to g s))), s).
Proof.
  intros E. unfold resolve_im_workspace, bound_to.
  rewrite (M_bind_eq _ _ _ (Some g) s) by (by rewrite <- E).
  destruct (truthy_text (rg_target g)) as [t|]; [|done].
  rewrite (M_bind_eq _ _ _ (group_at t s) s) by done. destruct (group_at t s) as [w|]; [|done].
  by destruct (is_web (rg_jid w)).
Qed.

(** Access checks end. The check of a registered group recurses at most once
    whatever the bindings in the registry (a workspace an endpoint is bound to is
    never looked through again): with two calls or more it answers the rule, changes
    nothing and raises nothing. *)
Theorem access_ends n user_id role g s :
  wf s -> group_at (rg_jid g) s = Some g ->
  user_can_access (S (S n)) user_id role g s = (Ok (access_rule user_id role g s), s).
Proof.
  intros W E. unfold access_rule. destruct (is_web (rg_jid g)) eqn:Hw; [rewrite orb_true_r; by apply access_web|].
  assert (Hh : rg_is_home g = false) by (by rewrite (wf_home s W _ _ E), Hw). rewrite Hh.
  cbn [orb user_can_access]. rewrite Hh, Hw.
  destruct (truthy_text (rg_target g)) as [t|] eqn:T; [|by unfold bound_to; rewrite T].
  rewrite (M_bind_eq _ _ _ _ _ (resolve_eq g s E)).
  destruct (bound_to g s) as [w|] eqn:B; cbn [default from_option id]; [|by rewrite bool_decide_eq_true_2].
  apply bound_to_some in B as (Hb & _). rewrite bool_decide_eq_false_2 by congruence. by apply access_web.
Qed.

Lemma access_web_group user_id role w s :
  is_web (rg_jid w) = true -> user_can_access_group user_id role w s = (Ok (may_access user_id role w s), s).
Proof. apply access_web. Qed.

Lemma require_accessible_spec group_id u now s :
  wf s -> wp (require_accessible_workspace group_id u now)
    (fun w s' => quiet s s' /\ workspace_of group_id w s' /\ may_access (au_id u) (au_role u) w s' = true)
    (fun s' => quiet s s') s.
Proof.
  intros W. unfold require_accessible_workspace. wp_step. wp_step.
  eapply wp_mono; [by apply get_web_workspace_spec| |done]. intros o s' [Qs Ho]. destruct o as [w|]; [|by wp_step].
  specialize (Ho w eq_refl). wp_step. wp_step. unfold wp at 1. rewrite access_web_group by apply Ho.
  destruct (may_access (au_id u) (au_role u) w s') eqn:A; by wp_step.
Qed.

(** ** Writing one row *)

Definition put_row g s : DB := with_groups (tbl_put (rg_jid g) g (db_groups s)) s.

Lemma group_at_put g jid s : group_at jid (put_row g s) = if decide (rg_jid g = jid) then Some g else group_at jid s.
Proof. unfold group_at, put_row. cbn [db_groups with_groups]. by rewrite get_put. Qed.

Record row_ok g s : Prop := {
  ro_identity : is_web (rg_jid g) = true -> rg_jid g = "web:" +:+ rg_folder g;
  ro_home : rg_is_home g = is_web (rg_jid g) && reserved (rg_folder g);
  ro_created : is_web (rg_jid g) = true -> is_Some (rg_created_by g)
}.

(** The row, and right after it its main slot. *)
Lemma put_row_wf g s s' :
  wf s -> row_ok g s -> quiet (put_row g s) s' -> is_Some (slot_at (rg_folder g) "main" s') -> wf s'.
Proof.
  intros [W1 W2 W3 W4 W5 W6 W7] [R1 R2 R3] (E1 & E2 & X & K & _) Hm.
  assert (G : forall jid, group_at jid s' = group_at jid (put_row g s)) by (intros jid; unfold group_at; by rewrite E1).
  split.
  - intros jid g'. rewrite G, group_at_put. case_decide as D; [by intros [= <-]|apply W1].
  - intros f u m. unfold member_at. rewrite E2. apply W2.
  - by apply K.
  - intros jid g'. rewrite G, group_at_put. case_decide as D; [intros [= <-]; by subst|apply W4].
  - intros jid g'. rewrite G, group_at_put. case_decide as D; [intros [= <-]; by subst|apply W5].
  - intros jid g'. rewrite G, group_at_put. case_decide as D; [intros [= <-]; by subst|apply W6].
  - intros jid g'. rewrite G, group_at_put. case_decide as D; [by intros [= <-]|].
    intros E. destruct (W7 jid g' E) as [c Ec]. destruct (X _ _ _ Ec) as (c' & Ec' & _). by exists c'.
Qed.

(** What [ensure_registered_group] stores. *)
Definition merged (jid name folder : string) (created_by : option string) (is_home : option bool) (now : Z) s :
    RegisteredGroup :=
  match group_at jid s with
  | Some g => mkGroup (rg_jid g) name folder (rg_added_at g)
                (match rg_created_by g with None => created_by | Some c => Some c end)
                (rg_is_home g || default false is_home) (rg_target g)
  | None => mkGroup jid name folder now created_by (default false is_home) None
  end.

Lemma ensure_registered_spec jid name folder created_by is_home now s :
  slots_keyed s ->
  wp (ensure_registered_group jid name folder created_by is_home now)
    (fun g s' => g = merged jid name folder created_by is_home now s /\ quiet (put_row g s) s' /\
                 is_Some (slot_at (rg_folder g) "main" s')) (fun _ => False) s.
Proof.
  intros W. unfold ensure_registered_group. wp_step. unfold get_registered_group at 1. wp_step. cbv zeta.
  change (tbl_get jid (db_groups s)) with (group_at jid s).
  change (match group_at jid s with Some g => _ | None => _ end) with (merged jid name folder created_by is_home now s).
  wp_step. unfold put_group. wp_step.
  change (with_groups _ s) with (put_row (merged jid name folder created_by is_home now s) s).
  wp_step. eapply wp_mono; [apply ensure_workspace_slot_spec; [done|]| |done].
  - rewrite group_at_put. by rewrite decide_True.
  - intros _ s' [Q1 Q2]. by wp_step.
Qed.

(** ** What a request of a user may change *)

Definition home_jid (u : AuthUser) : string :=
  if bool_decide (au_role u = Some "owner") then "web:main" else "web:home-" +:+ au_id u.
Definition can_write (u : AuthUser) : bool := has_permission (au_role u) "groups" "write".

(** A group keeps its identity and its creator. Only its creator renames a workspace
    (the home of the requester gets its standard name), only an owner binds
    an endpoint; a new group is the requester's home or a workspace of the requester. *)
Definition group_allowed (u : AuthUser) (o o' : option RegisteredGroup) : Prop :=
  match o, o' with
  | None, None => True
  | Some g, Some g' =>
      rg_jid g' = rg_jid g /\ rg_folder g' = rg_folder g /\ rg_added_at g' = rg_added_at g /\
      rg_is_home g' = rg_is_home g /\ rg_created_by g' = rg_created_by g /\
      (rg_name g' = rg_name g \/ rg_jid g = home_jid u \/
       (can_write u = true /\ user_can_manage_members (au_id u) g = true)) /\
      (rg_target g' = rg_target g \/ (au_role u = Some "owner" /\ is_Some (channel_from_jid (rg_jid g))))
  | None, Some g' =>
      rg_created_by g' = Some (au_id u) /\ rg_target g' = None /\
      (rg_jid g' = home_jid u \/ (can_write u = true /\ reserved (rg_folder g') = false))
  | Some _, None => False
  end.

(** A member changes through the creator of the workspace, or leaves; an owner stays. *)
Definition member_allowed (u : AuthUser) (f uid : string) (o o' : option GroupMember) s' : Prop :=
  o' = o \/
  ((forall m, o = Some m -> is_owner m = false) /\
   ((exists w, group_at ("web:" +:+ f) s' = Some w /\ user_can_manage_members (au_id u) w = true) \/
    (uid = au_id u /\ o' = None))).

(** An endpoint is bound, free, by an owner to a workspace the owner sees, and released from one. *)
Definition binding_allowed (u : AuthUser) g g' s s' : Prop :=
  au_role u = Some "owner" /\ is_Some (channel_from_jid (rg_jid g)) /\
  exists w, group_at (rg_jid w) s' = Some w /\ is_web (rg_jid w) = true /\ may_access (au_id u) (au_role u) w s' = true /\
    ((rg_target g' = Some (rg_jid w) /\ bound_to g s = None) \/ (rg_target g = Some (rg_jid w) /\ rg_target g' = None)).

(** A new slot is a main slot, or one its user made in a workspace the user sees. *)
Definition slot_opened (u : AuthUser) (f i : string) c s s' : Prop :=
  slot_at f i s = None /\ i <> "main" /\ cs_created_by c = Some (au_id u) /\
  exists w, workspace_of f w s' /\ may_access (au_id u) (au_role u) w s' = true.
Definition slot_allowed (u : AuthUser) (f i : string) c s s' : Prop :=
  slot_at f i s = Some c \/ main_made f i c s s' \/ slot_opened u f i c s s'.

Record authorized (u : AuthUser) s s' : Prop := {
  au_groups : forall jid, group_allowed u (group_at jid s) (group_at jid s');
  au_bindings : forall jid g g', group_at jid s = Some g -> group_at jid s' = Some g' ->
    rg_target g' = rg_target g \/ binding_allowed u g g' s s';
  au_members : forall f uid, member_allowed u f uid (member_at f uid s) (member_at f uid s') s';
  au_slots : slots_ext s s';
  au_new_slots : forall f i c, slot_at f i s' = Some c -> slot_allowed u f i c s s'
}.

Definition good (u : AuthUser) s s' : Prop := wf s' /\ authorized u s s'.

Lemma group_allowed_refl u o : group_allowed u o o.
Proof. destruct o; cbn; [|done]. repeat split; by left. Qed.
Lemma group_allowed_stay u s s' : (forall jid, group_allowed u (group_at jid s) (group_at jid s')) -> groups_stay s s'.
Proof.
  intros A jid g E. specialize (A jid). rewrite E in A. destruct (group_at jid s') as [g'|]; [|done].
  destruct A as (_ & F & _ & _ & C & _). by exists g'.
Qed.

(** Looking at the groups and members only. *)
Lemma may_access_same user_id role w s s' :
  (forall f uid, member_at f uid s' = member_at f uid s) -> may_access user_id role w s' = may_access user_id role w s.
Proof. intros E. unfold may_access. by rewrite E. Qed.
Lemma bound_to_same g s s' : (forall jid, group_at jid s' = group_at jid s) -> bound_to g s' = bound_to g s.
Proof. intros E. unfold bound_to. destruct (truthy_text (rg_target g)); [|done]. by rewrite E. Qed.
Lemma workspace_of_same f w s s' : (forall jid, group_at jid s' = group_at jid s) -> workspace_of f w s -> workspace_of f w s'.
Proof. intros E. unfold workspace_of. by rewrite E. Qed.

Lemma quiet_good u s s' : wf s -> quiet s s' -> good u s s'.
Proof.
  intros W Hq. split; [by eapply quiet_wf|]. split.
  - intros jid. rewrite (quiet_group _ _ _ Hq). apply group_allowed_refl.
  - intros jid g g' E. rewrite (quiet_group _ _ _ Hq), E. intros [= <-]. by left.
  - intros f uid. left. by apply quiet_member.
  - by destruct Hq as (_ & _ & X & _).
  - intros f i c E. destruct Hq as (_ & _ & _ & _ & S). destruct (S f i c E); [by left|by right; left].
Qed.
Lemma good_refl u s : wf s -> good u s s.
Proof. intros W. apply quiet_good; [done|apply quiet_refl]. Qed.

Lemma good_quiet_l u s s1 s2 : quiet s s1 -> good u s1 s2 -> good u s s2.
Proof.
  intros Hq [W [A1 A2 A3 A4 A5]]. pose proof (fun jid => quiet_group jid _ _ Hq) as G. split; [done|]. split.
  - intros jid. rewrite <- G. apply A1.
  - intros jid g g' E E'. rewrite <- G in E. destruct (A2 jid g g' E E') as [T|(O & C & w & Ew & Web & M & B)]; [by left|right].
    split; [done|]. split; [done|]. exists w. rewrite (bound_to_same g s s1 G) in B. done.
  - intros f uid. rewrite <- (quiet_member _ _ _ _ Hq). apply A3.
  - destruct Hq as (_ & _ & X & _). by eapply slots_ext_trans.
  - destruct Hq as (_ & _ & X & _ & S). intros f i c E. destruct (A5 f i c E) as [E1|[M|(N & I & C & O)]].
    + destruct (S f i c E1) as [E0|M]; [by left|]. right; left. eapply main_made_later; [done|by eapply group_allowed_stay].
    + right; left. by eapply (main_made_earlier f i c s s1 s2).
    + right; right. split; [|done]. destruct (slot_at f i s) as [c0|] eqn:E0; [|done].
      destruct (X f i c0 E0) as (c1 & E1 & _). congruence.
Qed.

Lemma good_quiet_r u s s1 s2 : good u s s1 -> quiet s1 s2 -> good u s s2.
Proof.
  intros [W [A1 A2 A3 A4 A5]] Hq. pose proof (fun jid => quiet_group jid _ _ Hq) as G.
  pose proof (fun f uid => quiet_member f uid _ _ Hq) as Mb. split; [by eapply quiet_wf|]. split.
  - intros jid. rewrite G. apply A1.
  - intros jid g g' E E'. rewrite G in E'. destruct (A2 jid g g' E E') as [T|(O & C & w & Ew & Web & M & B)]; [by left|right].
    split; [done|]. split; [done|]. exists w. rewrite G, (may_access_same _ _ w s1 s2 Mb). done.
  - intros f uid. rewrite Mb. destruct (A3 f uid) as [E|(O & C)]; [by left|right].
    split; [done|]. destruct C as [(w & Ew & M)|C]; [left|by right]. exists w. by rewrite G.
  - destruct Hq as (_ & _ & X & _). by eapply slots_ext_trans.
  - destruct Hq as (Eg & _ & X & _ & S). intros f i c E.
    assert (Later : forall s0, main_made f i c s0 s1 -> main_made f i c s0 s2).
    { intros s0 M. eapply main_made_later; [done|]. by apply same_groups_stay. }
    destruct (S f i c E) as [E1|(-> & Gr & N)].
    + destruct (A5 f i c E1) as [E0|[M|(N & I & C & w & Hw & M)]]; [by left|right; left; auto|right; right].
      split; [done|]. split; [done|]. split; [done|]. exists w.
      split; [by apply (workspace_of_same f w s1 s2 G)|by rewrite (may_access_same _ _ w s1 s2 Mb)].
    + right; left. split; [done|]. split; [done|]. destruct (slot_at f "main" s1) as [c1|] eqn:E1.
      * destruct (A5 f "main" c1 E1) as [E0|[(_ & _ & N0)|(N0 & I & _)]]; [by rewrite E0| |done].
        destruct (slot_at f "main" s); [done|]. destruct (X f "main" c1 E1) as (c2 & E2 & T & _). congruence.
      * destruct (slot_at f "main" s) as [c0|] eqn:E0; [|done]. destruct (A4 f "main" c0 E0) as (c1 & E1' & _). congruence.
Qed.

(** One row that may be written, with its slot. *)
Lemma put_row_good u g s s' :
  wf s -> row_ok g s -> group_allowed u (group_at (rg_jid g) s) (Some g) ->
  (forall g0, group_at (rg_jid g) s = Some g0 -> rg_target g = rg_target g0 \/ binding_allowed u g0 g s s') ->
  quiet (put_row g s) s' -> is_Some (slot_at (rg_folder g) "main" s') -> good u s s'.
Proof.
  intros W R A B Hq Hm. split; [by eapply put_row_wf|]. split.
  - intros jid. rewrite (quiet_group _ _ _ Hq), group_at_put. case_decide as D; [by subst|apply group_allowed_refl].
  - intros jid g0 g'. rewrite (quiet_group _ _ _ Hq), group_at_put. case_decide as D; [|intros -> [= <-]; by left].
    intros E [= <-]. rewrite <- D in E. by apply B.
  - intros f uid. left. by rewrite (quiet_member _ _ _ _ Hq).
  - by destruct Hq as (_ & _ & X & _).
  - destruct Hq as (_ & _ & _ & _ & S). intros f i c E. destruct (S f i c E); [by left|by right; left].
Qed.

(** A row that replaces one with the same folder has its slot already. *)
Lemma put_row_same_folder u g g0 s :
  wf s -> group_at (rg_jid g) s = Some g0 -> rg_folder g = rg_folder g0 -> row_ok g s ->
  group_allowed u (Some g0) (Some g) -> rg_target g = rg_target g0 \/ binding_allowed u g0 g s (put_row g s) ->
  good u s (put_row g s).
Proof.
  intros W E F R A B. apply (put_row_good u g); try done.
  - by rewrite E.
  - intros g1. rewrite E. by intros [= <-].
  - rewrite F. by apply (wf_main s W _ _ E).
Qed.

Lemma row_ok_of g s : wf s -> group_at (rg_jid g) s = Some g -> row_ok g s.
Proof.
  intros W E. split.
  - by apply (wf_identity s W).
  - by apply (wf_home s W).
  - by apply (wf_created s W).
Qed.

(** ** The home workspace *)

Lemma web_app f : is_web ("web:" +:+ f) = true.
Proof. apply startswith_spec. by exists f. Qed.
Lemma web_inj f f' : "web:" +:+ f = "web:" +:+ f' -> f = f'.
Proof. intros E. by injection E. Qed.

Lemma home_good jid name folder u now s :
  wf s -> jid = "web:" +:+ folder -> reserved folder = true -> jid = home_jid u ->
  wp (ensure_registered_group jid name folder (Some (au_id u)) (Some true) now)
    (fun _ s' => good u s s') (fun s' => good u s s') s.
Proof.
  intros W -> R Hj. eapply wp_mono; [by apply ensure_registered_spec, wf_slot_key| |done].
  intros g s' (-> & Hq & Hm). revert Hq Hm. unfold merged.
  destruct (group_at ("web:" +:+ folder) s) as [g|] eqn:E; intros Hq Hm.
  - pose proof (wf_group_key s W _ _ E) as K. pose proof (web_inj _ _ (wf_identity s W _ _ E (web_app _))) as F.
    pose proof (wf_home s W _ _ E) as Hh. rewrite web_app, <- F, R in Hh. cbn in Hh.
    destruct (wf_created s W _ _ E (web_app _)) as [c Hc].
    eapply put_row_good; [done| | | |done|done].
    + split; cbn; rewrite K; [done|by rewrite Hh, web_app, R|]. intros _. rewrite Hc. by exists c.
    + cbn. rewrite K, E. cbn. rewrite Hh, Hc. repeat split; try done; [by right; left; rewrite K|by left].
    + cbn. rewrite K, E. intros g0 [= <-]. by left.
  - eapply put_row_good; [done| | | |done|done].
    + split; cbn; [done|by rewrite web_app, R|by exists (au_id u)].
    + cbn. rewrite E. cbn. auto.
    + cbn. by rewrite E.
Qed.

Lemma ensure_home_good u now s :
  wf s -> wp (ensure_home_workspace (au_id u) (au_role u) (au_username u) now)
    (fun _ s' => good u s s') (fun s' => good u s s') s.
Proof.
  intros W. unfold ensure_home_workspace. wp_step.
  - apply home_good; [done|done|done|]. unfold home_jid. by rewrite D.
  - apply home_good; [done|done| |by unfold home_jid; rewrite D].
    unfold reserved. apply orb_true_iff. right. apply startswith_spec. by exists (au_id u).
Qed.

(** ** The writing operations *)

Lemma rename_good u w name s :
  wf s -> group_at (rg_jid w) s = Some w -> (rg_is_home w = false -> can_write u = true /\ user_can_manage_members (au_id u) w = true) ->
  wp (rename_workspace w name) (fun _ s' => good u s s') (fun s' => good u s s') s.
Proof.
  intros W E A. unfold rename_workspace. wp_step; [by apply wp_throw, quiet_good|].
  wp_step; [by apply wp_throw, quiet_good|]. cbv zeta. wp_step. unfold put_group. wp_step. wp_step.
  pose proof (row_ok_of w s W E) as [R1 R2 R3]. specialize (A eq_refl). rewrite D in R2.
  match goal with |- good u s (with_groups (tbl_put (rg_jid ?g) ?g _) _) => apply (put_row_same_folder u g w) end; try done; [|by left].
  cbn. repeat split; first [done | by right; right | by left].
Qed.

Lemma create_workspace_fresh folder s :
  wf s -> get_group_by_folder folder s = (Ok None, s) -> group_at ("web:" +:+ folder) s = None.
Proof.
  intros W E. destruct (group_at ("web:" +:+ folder) s) as [g|] eqn:G; [|done]. exfalso.
  pose proof (web_inj _ _ (wf_identity s W _ _ G (web_app _))) as F.
  unfold get_group_by_folder, gets in E. injection E as E. set (l := tbl_select _ _) in E.
  assert (L : g ∈ l) by (apply elem_select; split; [by apply bool_decide_eq_true|by eexists]).
  assert (P : py_sorted (fun g => (rg_added_at g, rg_jid g)) l ≡ₚ l) by apply py_sorted_perm.
  rewrite <- P in L. destruct (py_sorted _ l); [by apply not_elem_of_nil in L|done].
Qed.

Definition put_member_row f uid m s : DB := with_members (tbl_put (f, uid) m (db_members s)) s.

Lemma member_at_put f uid m f' uid' s :
  member_at f' uid' (put_member_row f uid m s) = if decide ((f, uid) = (f', uid')) then Some m else member_at f' uid' s.
Proof. unfold member_at. cbn [db_members put_member_row with_members]. by rewrite get_put. Qed.

Lemma members_only_wf s s' :
  wf s -> db_groups s' = db_groups s -> db_slots s' = db_slots s ->
  (forall f u m, member_at f u s' = Some m -> gm_group_folder m = f /\ gm_user_id m = u) -> wf s'.
Proof.
  intros [W1 W2 W3 W4 W5 W6 W7] E1 E2 K. unfold group_at, slots_keyed, slot_at in *.
  split; unfold group_at, slots_keyed, slot_at; rewrite ?E1, ?E2; done.
Qed.

(** The members of the workspace of a creator, on a state that already is [good]. *)
Lemma add_member_good u f uid role ab now s0 s w :
  good u s0 s -> (forall f' uid', member_at f' uid' s = member_at f' uid' s0) ->
  group_at ("web:" +:+ f) s = Some w -> user_can_manage_members (au_id u) w = true ->
  wp (add_member f uid role ab now) (fun _ s' => good u s0 s') (fun s' => good u s0 s') s.
Proof.
  intros [W [A1 A2 A3 A4 A5]] Same Ew Mw. unfold add_member, validate_role. wp_step.
  wp_step; [|by wp_step]. wp_step. wp_step. unfold get_member at 1. wp_step. cbv zeta.
  change (tbl_get (f, uid) (db_members s)) with (member_at f uid s).
  match goal with |- wp (if ?b then _ else _) _ _ _ => destruct b eqn:Ref end; [by wp_step|].
  wp_step. wp_step. match goal with |- context [with_members (tbl_put _ ?x _) _] => set (m' := x) end.
  change (with_members _ s) with (put_member_row f uid m' s).
  assert (G : good u s0 (put_member_row f uid m' s)).
  { split.
    - apply (members_only_wf s); [done..|]. intros f' u' m. rewrite member_at_put.
      destruct (decide ((f, uid) = (f', u'))) as [D1|D1]; [injection D1 as <- <-; by intros [= <-]|apply (wf_member_key s W)].
    - assert (Acc : forall w', may_access (au_id u) (au_role u) w' s = true ->
                    may_access (au_id u) (au_role u) w' (put_member_row f uid m' s) = true).
      { intros w'. unfold may_access. destruct (rg_is_home w'); [done|]. intros [C|C%bool_decide_eq_true]%orb_true_iff; [by rewrite C|].
        apply orb_true_iff. right. apply bool_decide_eq_true. rewrite member_at_put. destruct (decide ((f, uid) = (rg_folder w', au_id u))); [by eexists|done]. }
      split; [exact A1| | |exact A4|].
      1: { intros jid g g' E E'. destruct (A2 jid g g' E E') as [T|(O & C & w' & Hw' & Web & M & B)]; [by left|right].
           split; [done|]. split; [done|]. exists w'. split; [done|]. split; [done|]. split; [by apply Acc|done]. }
      2: { intros f' i c E. destruct (A5 f' i c E) as [E0|[M|(N & I & C & w' & Hw' & M)]]; [by left|by right; left|right; right].
           split; [done|]. split; [done|]. split; [done|]. exists w'. split; [done|by apply Acc]. }
      intros f' u'. rewrite member_at_put.
      destruct (decide ((f, uid) = (f', u'))) as [D1|D1]; [injection D1 as <- <-|apply A3]. rewrite <- Same.
      destruct (member_at f uid s) as [m|] eqn:Em.
      + destruct (wf_member_key s W f uid m Em) as [K1 K2]. apply negb_false_iff, Bool.eqb_prop in Ref.
        destruct (is_owner m) eqn:O.
        * left. f_equal. subst m'. symmetry in Ref. apply bool_decide_eq_true in Ref. apply bool_decide_eq_true in O.
          destruct m; cbn in *; congruence.
        * right. split; [by intros ? [= <-]|]. left. by exists w.
      + right. split; [done|]. left. by exists w. }
  wp_step. unfold get_member. wp_step. wp_step; by wp_step.
Qed.

Lemma create_workspace_good u folder name now s :
  wf s -> can_write u = true ->
  wp (create_workspace folder name (au_id u) now) (fun _ s' => good u s s') (fun s' => good u s s') s.
Proof.
  intros W Cw. unfold create_workspace, validate_workspace_folder. wp_step.
  wp_step; [by apply wp_throw, quiet_good|]. wp_step; [by apply wp_throw, quiet_good|]. wp_step. wp_step.
  destruct (get_group_by_folder folder s) as [[o|] s1] eqn:E; [|done].
  assert (s1 = s) as -> by (by unfold get_group_by_folder, gets in E; injection E). unfold wp at 1. rewrite E.
  destruct o as [g|]; [by apply wp_throw, quiet_good|]. pose proof (create_workspace_fresh _ _ W E) as N.
  wp_step. eapply wp_mono; [by apply ensure_registered_spec, wf_slot_key| |done].
  intros g s' (-> & Hq & Hm). revert Hq Hm. unfold merged. rewrite N. set (g := mkGroup _ _ _ _ _ _ _). intros Hq Hm.
  assert (G : good u s s').
  { eapply (put_row_good u g); try done.
    - split; cbn; [done|by rewrite web_app; symmetry|by exists (au_id u)].
    - cbn. rewrite N. cbn. auto.
    - cbn. by rewrite N. }
  wp_step. eapply wp_mono.
  - eapply (add_member_good u folder (au_id u) "owner" _ now s s' g); [done| | |].
    + intros f' u'. by rewrite (quiet_member _ _ _ _ Hq).
    + rewrite (quiet_group _ _ _ Hq), group_at_put. cbn. by rewrite decide_True.
    + unfold user_can_manage_members, created_by_user. cbn [rg_is_home rg_jid rg_created_by g].
      rewrite web_app. by rewrite bool_decide_eq_true_2.
  - intros m s'' G'. by wp_step.
  - done.
Qed.

Lemma create_slot_good u w i title now s :
  wf s -> workspace_of (rg_folder w) w s -> may_access (au_id u) (au_role u) w s = true ->
  wp (create_slot (rg_folder w) i title (Some (au_id u)) now) (fun _ s' => good u s s') (fun s' => good u s s') s.
Proof.
  intros W Hw Acc. unfold create_slot. wp_step; [by apply wp_throw, good_refl|]. apply bool_decide_eq_false in D.
  wp_step; [by apply wp_throw, good_refl|]. wp_step. unfold get_slot. wp_step.
  wp_step; [by apply wp_ret, good_refl|]. change (slot_at (rg_folder w) i s = None) in D1.
  unfold put_slot. wp_step. wp_step. wp_step.
  set (c := mkSlot _ _ _ _ _). destruct (put_slot_ext c s) as [X K]; [cbn; by rewrite D1|].
  cbn [cs_workspace_folder cs_slot_id c] in X, K. set (s' := with_slots _ s) in *.
  split.
  - destruct W as [W1 W2 W3 W4 W5 W6 W7]. split; [done|done|by apply K|done..|].
    intros jid g E. destruct (W7 jid g E) as [c0 E0]. destruct (X _ _ _ E0) as (c1 & E1 & _). by exists c1.
  - split; [intros jid; apply group_allowed_refl|intros jid g g' E; change (group_at jid s') with (group_at jid s); rewrite E; intros [= <-]; by left|by left|exact X|].
    intros f j c' E. unfold s' in E. rewrite slot_at_put in E. case_decide as Dk; [|by left]. injection Dk as <- <-.
    injection E as <-. right; right. split; [done|]. split; [done|]. split; [done|]. by exists w.
Qed.

Lemma set_target_good u e target s :
  wf s -> group_at (rg_jid e) s = Some e -> au_role u = Some "owner" -> is_Some (channel_from_jid (rg_jid e)) ->
  binding_allowed u e (set_target e target) s (put_row (set_target e target) s) ->
  good u s (put_row (set_target e target) s).
Proof.
  intros W E R C B. pose proof (row_ok_of e s W E) as [R1 R2 R3].
  apply (put_row_same_folder u (set_target e target) e); [done|done|done|by split| |by right].
  cbn. repeat split; first [done | by left | by right].
Qed.

(** The workspace of a binding is not the endpoint itself, and stays. *)
Lemma binding_workspace u e w target s :
  workspace_of (rg_folder w) w s -> may_access (au_id u) (au_role u) w s = true -> au_role u = Some "owner" ->
  is_Some (channel_from_jid (rg_jid e)) ->
  (target = Some (rg_jid w) /\ bound_to e s = None) \/ (rg_target e = Some (rg_jid w) /\ target = None) ->
  binding_allowed u e (set_target e target) s (put_row (set_target e target) s).
Proof.
  intros (Ew & Web & _) Acc O C B. split; [done|]. split; [done|]. exists w.
  rewrite group_at_put. case_decide as D; [|by split].
  cbn in D. rewrite D in C. exfalso. unfold is_web in Web. apply startswith_spec in Web as [f Web]. rewrite Web in C.
  destruct C as [x C]. unfold channel_from_jid in C. cbn in C. done.
Qed.

Lemma im_endpoint_spec im_jid s :
  wf s -> wp (im_endpoint im_jid)
    (fun e s' => s' = s /\ group_at (rg_jid e) s = Some e /\ is_Some (channel_from_jid (rg_jid e)))
    (fun s' => s' = s) s.
Proof.
  intros W. unfold im_endpoint. wp_step. unfold get_registered_group. wp_step. wp_step; [|by wp_step].
  pose proof (wf_group_key s W _ _ D) as K. wp_step; [|by wp_step]. wp_step.
  split; [done|]. split; [by rewrite K|by eexists].
Qed.

Lemma bind_good u w im_jid s :
  wf s -> au_role u = Some "owner" -> workspace_of (rg_folder w) w s -> may_access (au_id u) (au_role u) w s = true ->
  wp (bind_im_endpoint_to_workspace w im_jid) (fun _ s' => good u s s') (fun s' => good u s s') s.
Proof.
  intros W O Hw Acc. pose proof (good_refl u s W) as Refl.
  unfold bind_im_endpoint_to_workspace. wp_step. eapply wp_mono; [by apply im_endpoint_spec| |by intros s' ->].
  intros e s' (-> & E & C).
  assert (G : bound_to e s = None -> good u s (put_row (set_target e (Some (rg_jid w))) s)).
  { intros N. apply set_target_good; try done. apply (binding_workspace u e w); auto. }
  wp_step; [by wp_step|]. wp_step.
  assert (T : wp (match truthy_text (rg_target e) with Some t => get_registered_group t | None => mret None end)
    (fun o s' => s' = s /\ bound_to e s = match o with Some w => if is_web (rg_jid w) then Some w else None | None => None end)
    (fun s' => s' = s) s).
  { unfold bound_to. destruct (truthy_text (rg_target e)); done. }
  eapply wp_mono; [exact T| |by intros s' ->]. intros o s' [-> B].
  wp_step; [wp_step; [by wp_step|]|]; wp_step; unfold put_group; wp_step; wp_step; apply G; by rewrite ?D1 in B.
Qed.

Lemma unbind_good u w im_jid s :
  wf s -> au_role u = Some "owner" -> workspace_of (rg_folder w) w s -> may_access (au_id u) (au_role u) w s = true ->
  wp (unbind_im_endpoint_from_workspace w im_jid) (fun _ s' => good u s s') (fun s' => good u s s') s.
Proof.
  intros W O Hw Acc. pose proof (good_refl u s W) as Refl.
  unfold unbind_im_endpoint_from_workspace. wp_step.
  eapply wp_mono; [by apply im_endpoint_spec| |by intros s' ->].
  intros e s' (-> & E & C). wp_step; [|by wp_step]. apply bool_decide_eq_true in D.
  assert (G : good u s (put_row (set_target e None) s)).
  { apply set_target_good; try done. apply (binding_workspace u e w); auto. }
  wp_step. unfold put_group. wp_step. by wp_step.
Qed.

(** The member [uid] of the folder of a workspace goes, unless it is an owner. *)
Lemma remove_member_good u f uid s :
  wf s -> (uid = au_id u \/ exists w, group_at ("web:" +:+ f) s = Some w /\ user_can_manage_members (au_id u) w = true) ->
  wp (remove_member f uid) (fun _ s' => good u s s') (fun s' => good u s s') s.
Proof.
  intros W A. pose proof (good_refl u s W) as Refl.
  unfold remove_member. wp_step. unfold get_member. wp_step.
  change (tbl_get (f, uid) (db_members s)) with (member_at f uid s). wp_step; [|by wp_step].
  wp_step; [by wp_step|]. wp_step. wp_step. wp_step. set (s' := with_members _ s).
  assert (Em : forall f' u', member_at f' u' s' = if decide ((f, uid) = (f', u')) then None else member_at f' u' s)
    by (intros; unfold member_at; apply get_delete).
  split.
  - apply (members_only_wf s); [done..|]. intros f' u' m'. rewrite Em.
    destruct (decide ((f, uid) = (f', u'))); [done|apply (wf_member_key s W)].
  - split.
    + intros jid. apply group_allowed_refl.
    + intros jid g0 g' E. change (group_at jid s') with (group_at jid s). rewrite E. intros [= <-]. by left.
    + intros f' u'. rewrite Em. destruct (decide ((f, uid) = (f', u'))) as [D1|D1]; [injection D1 as <- <-|by left].
      right. rewrite D. split; [by intros ? [= <-]|]. destruct A as [->|A]; [by right|by left].
    + intros f' i c E. by exists c.
    + intros f' i c E. by left.
Qed.

(** ** The handlers *)

Lemma accessible_pure u groups s : wp (accessible u groups) (fun _ s' => s' = s) (fun s' => s' = s) s.
Proof.
  induction groups as [|g groups IH]; cbn [accessible]; [by wp_step|]. wp_step.
  eapply wp_mono with (X := fun s' => s' = s) (Q := fun _ s' => s' = s); [|intros ok s' ->|by intros s' ->].
  - wp_step; [|by wp_step]. wp_step. unfold wp. by rewrite access_web_group.
  - wp_step. eapply wp_mono; [exact IH| |done]. intros rest s' ->. by wp_step.
Qed.

Lemma wp_ignore {A} (m : M DB http_error A) X s : wp m (fun _ => X) X s -> wp (ignore m) (fun _ => X) X s.
Proof. intros Hm. unfold ignore. wp_step. eapply wp_mono; [exact Hm| |done]. intros a s' Hs. by wp_step. Qed.

(** A handler that goes on with an accessible workspace. *)
Lemma with_workspace u group_id now s {A} (f : RegisteredGroup -> M DB http_error A) :
  wf s ->
  (forall w s1, wf s1 -> workspace_of group_id w s1 -> may_access (au_id u) (au_role u) w s1 = true ->
     wp (f w) (fun _ s' => good u s1 s') (fun s' => good u s1 s') s1) ->
  wp (w ← require_accessible_workspace group_id u now; f w) (fun _ s' => good u s s') (fun s' => good u s s') s.
Proof.
  intros W F. wp_step. eapply wp_mono; [by apply require_accessible_spec| |by intros s' Hq; apply quiet_good].
  intros w s1 (Hq & Hw & Ha). eapply wp_mono.
  - apply F; [by eapply quiet_wf|done|done].
  - intros a s' G. by eapply good_quiet_l.
  - intros s' G. by eapply good_quiet_l.
Qed.

Lemma workspace_jid f w s : wf s -> workspace_of f w s -> group_at ("web:" +:+ rg_folder w) s = Some w.
Proof. intros W (E & Web & _). by rewrite <- (wf_identity s W _ _ E Web). Qed.

Section handlers.
Variable user_exists : string -> bool.
Variables (u : AuthUser) (now : Z).

Local Abbreviation fine m := (forall s, wf s -> wp m (fun _ s' => good u s s') (fun s' => good u s s') s).

Lemma list_groups_good : fine (list_groups u now).
Proof.
  intros s W. unfold list_groups. wp_step. wp_step. eapply wp_mono; [by apply ensure_home_good| |done].
  intros g s1 G. wp_step. wp_step. unfold list_registered_groups. wp_step. wp_step.
  eapply wp_mono; [by apply accessible_pure| |by intros s' ->]. intros l s' ->. by wp_step.
Qed.

Lemma create_group_good f n : fine (create_group u f n now).
Proof.
  intros s W. unfold create_group, require_groups. wp_step. wp_step; [|by apply wp_throw, quiet_good].
  wp_step. wp_step. wp_step. eapply wp_mono; [by apply create_workspace_good| |done]. intros g s' G. by wp_step.
Qed.

Lemma update_group_good f n : fine (update_group u f n now).
Proof.
  intros s W. unfold update_group, require_groups. wp_step. wp_step; [|by apply wp_throw, quiet_good]. wp_step.
  apply with_workspace; [done|]. intros w s1 W1 Hw _. wp_step. eapply wp_mono with (Q := fun _ s' => s' = s1 /\ rg_is_home w = false).
  - wp_step; [|by wp_step]. wp_step. wp_step. unfold rename_workspace. rewrite D0. wp_step. by apply quiet_good.
  - intros _ s' [-> Nh]. wp_step; [by apply wp_throw, quiet_good|]. apply negb_false_iff in D0. wp_step. wp_step.
    eapply wp_mono; [apply rename_good; [done|apply Hw|done]| |done]. intros g s' G. by wp_step.
  - done.
Qed.

Lemma create_group_slot_good f i t : fine (create_group_slot u f i t now).
Proof.
  intros s W. apply with_workspace; [done|]. intros w s1 W1 Hw Acc. wp_step.
  apply create_slot_good; [done| |done]. by destruct Hw as (? & ? & _).
Qed.

Lemma read_good {A} f (m : RegisteredGroup -> M DB group_error A) (h : group_error -> http_error) :
  (forall w s, wp (m w) (fun _ s' => s' = s) (fun s' => s' = s) s) ->
  fine (w ← require_accessible_workspace f u now; catching h (m w)).
Proof.
  intros R s W. apply with_workspace; [done|]. intros w s1 W1 Hw _. wp_step.
  eapply wp_mono; [apply R|intros a s' ->|intros s' ->]; by apply quiet_good.
Qed.

Lemma bind_endpoint_good f j : fine (bind_group_im_endpoint u f j now).
Proof.
  intros s W. unfold bind_group_im_endpoint, require_owner_binding_role. wp_step.
  wp_step; [|by apply wp_throw, quiet_good]. apply bool_decide_eq_true in D. wp_step.
  apply with_workspace; [done|]. intros w s1 W1 (Hw & Web & _) Acc. wp_step. wp_step.
  eapply wp_mono; [by apply bind_good| |done]. intros e s' G. by wp_step.
Qed.

Lemma unbind_endpoint_good f j : fine (unbind_group_im_endpoint u f j now).
Proof.
  intros s W. unfold unbind_group_im_endpoint, require_owner_binding_role. wp_step.
  wp_step; [|by apply wp_throw, quiet_good]. apply bool_decide_eq_true in D. wp_step.
  apply with_workspace; [done|]. intros w s1 W1 (Hw & Web & _) Acc. wp_step. wp_step.
  eapply wp_mono; [by apply unbind_good| |done]. intros e s' G. by wp_step.
Qed.

Lemma list_members_good f : fine (list_group_members u f now).
Proof.
  intros s W. unfold list_group_members, require_groups. wp_step. wp_step; [|by apply wp_throw, quiet_good]. wp_step.
  apply with_workspace; [done|]. intros w s1 W1 Hw _. wp_step; [by apply wp_throw, quiet_good|]. wp_step.
  unfold list_members. wp_step. by apply quiet_good.
Qed.

Lemma list_bindings_good f : fine (list_group_im_bindings u f now).
Proof.
  intros s W. unfold list_group_im_bindings, require_owner_binding_role. wp_step.
  wp_step; [|by apply wp_throw, quiet_good]. wp_step. by apply read_good.
Qed.

Lemma add_group_member_good f i r : fine (add_group_member user_exists u f i r now).
Proof.
  intros s W. unfold add_group_member, require_groups. wp_step. wp_step; [|by apply wp_throw, quiet_good]. wp_step.
  apply with_workspace; [done|]. intros w s1 W1 Hw _. wp_step; [by apply wp_throw, quiet_good|].
  wp_step; [by apply wp_throw, quiet_good|]. wp_step; [by apply wp_throw, quiet_good|].
  apply negb_false_iff in D1. wp_step. unfold ensure_owner_role_change_supported. wp_step. wp_step.
  unfold get_member at 1. wp_step. cbv zeta. wp_step; [|by apply wp_throw, quiet_good]. wp_step. wp_step.
  eapply (add_member_good u _ i r _ now s1 s1 w); [by apply quiet_good|done|by eapply workspace_jid|done].
Qed.

Lemma remove_group_member_good f i : fine (remove_group_member u f i now).
Proof.
  intros s W. unfold remove_group_member. apply with_workspace; [done|]. intros w s1 W1 Hw _.
  wp_step; [by apply wp_throw, quiet_good|]. wp_step.
  - apply bool_decide_eq_true in D0. wp_step. wp_step. unfold get_member_role. wp_step. unfold get_member at 1. wp_step.
    wp_step. wp_step; [|by apply wp_throw, quiet_good]. wp_step; [by apply wp_throw, quiet_good|]. wp_step. wp_step.
    eapply wp_mono; [apply remove_member_good; [done|by left]| |done].
    intros removed s' G. wp_step; by wp_step.
  - wp_step; [by apply wp_throw, quiet_good|]. apply negb_false_iff in D1. wp_step. wp_step.
    eapply wp_mono; [apply remove_member_good; [done|right; exists w; split; [by eapply workspace_jid|done]]| |done].
    intros removed s' G. wp_step; by wp_step.
Qed.

Lemma handle_good r s : wf s -> good u s (handle user_exists u now r s).2.
Proof.
  intros W. apply wp_after. destruct r; cbn [handle]; try apply wp_ignore.
  - by apply list_groups_good.
  - by apply create_group_good.
  - by apply update_group_good.
  - by apply read_good.
  - by apply create_group_slot_good.
  - by apply list_bindings_good.
  - by apply bind_endpoint_good.
  - by apply unbind_endpoint_good.
  - by apply list_members_good.
  - by apply add_group_member_good.
  - by apply remove_group_member_good.
Qed.
End handlers.

(** C6: A request to the group routes changes no more than its user may change. From a
    coherent registry, whatever the request and its outcome: no group loses its identity,
    folder or creator; a name changes only for the creator of the workspace (with the right
    to write groups) or for the home of the requester; an endpoint is bound only by an
    owner, to a workspace the owner sees and when no other workspace has it, and released
    only from such a workspace; a new group is the requester's; members change only through
    the creator of the workspace, unless they leave; owners stay members; a slot stays as it
    is, and a new one is the main slot of a registered group or was made by the requester in
    a workspace the requester sees. Coherence ([wf]) is needed: that group requests and
    messages addressed by folder keep it is shown in MessagesProps.v; a message
    addressed by the id of a workspace can break it, and then a request can give away what
    is not its user's ([message_takes_over_a_workspace] there). *)
Theorem group_requests_authorized user_exists u now r s :
  wf s -> authorized u s (handle user_exists u now r s).2.
Proof. intros W. by apply handle_good. Qed.
End props.

(** ** A concrete registry *)

Definition gx_db : Type := db (gmap string RegisteredGroup) (gmap (string * string) GroupMember)
  (gmap (string * string) ConversationSlot).
Definition gx_empty : gx_db := mkDb ∅ ∅ ∅.
Definition gx_user (id role : string) : AuthUser :=
  mkUser id id (Some role) (Some "active") None None None None (Some false) None None None.

Lemma gx_wf : wf gx_empty.
Proof. split; try done; intros ? ?; cbn; by rewrite ?lookup_empty. Qed.

Definition gx_team : gx_db := (handle (fun _ => true) (gx_user "alice" "admin") 1 (RCreateGroup "team" "Team") gx_empty).2.

(** Alice makes a workspace and a slot in it; Mallory, who does not see it, makes none. *)
Lemma group_requests_authorized_witness :
  authorized (gx_user "alice" "admin") gx_empty gx_team /\
  authorized (gx_user "alice" "admin") gx_team
    (handle (fun _ => true) (gx_user "alice" "admin") 2 (RCreateSlot "team" "notes" "Notes") gx_team).2 /\
  authorized (gx_user "mallory" "member") gx_team
    (handle (fun _ => true) (gx_user "mallory" "member") 2 (RCreateSlot "team" "notes" "Notes") gx_team).2.
Proof.
  assert (W : wf gx_team) by (apply handle_good, gx_wf).
  split; [|split]; apply (group_requests_authorized (fun _ => true)); [apply gx_wf|exact W|exact W].
Defined.

Example slots_need_access :
  let slot p := cs_title <$> slot_at "team" "notes" p.2 in
  let alice := handle (fun _ => true) (gx_user "alice" "admin") 2 (RCreateSlot "team" "notes" "Notes") gx_team in
  let mallory := handle (fun _ => true) (gx_user "mallory" "member") 2 (RCreateSlot "team" "notes" "Notes") gx_team in
  slot alice = Some "Notes" /\ slot mallory = None /\ mallory.1 = Err (404%Z, "group not found").
Proof. repeat split; vm_compute; reflexivity. Qed.

(** The first request of the witness does create the workspace, its member and its slot. *)
Example create_group_stores :
  let s := gx_team in
  (rg_folder <$> group_at "web:team" s, gm_role <$> member_at "team" "alice" s, cs_title <$> slot_at "team" "main" s) =
  (Some "team", Some "owner", Some "Main").
Proof. vm_compute. reflexivity. Qed.

(** An endpoint bound to a workspace that is bound itself: the second binding is not followed. *)
Definition gx_endpoint : RegisteredGroup := mkGroup "feishu:1" "f" "chat-1" 0 None false (Some "feishu:2").
Definition gx_bound : gx_db :=
  mkDb {[ "feishu:1" := gx_endpoint; "feishu:2" := mkGroup "feishu:2" "g" "chat-2" 0 None false (Some "feishu:1") ]} ∅
    {[ ("chat-1", "main") := mkSlot "chat-1" "main" "Main" None 0; ("chat-2", "main") := mkSlot "chat-2" "main" "Main" None 0 ]}.

Lemma gx_bound_wf : wf gx_bound.
Proof.
  assert (G : forall jid g, group_at jid gx_bound = Some g ->
    jid = "feishu:1" /\ g = gx_endpoint \/ jid = "feishu:2" /\ g = mkGroup "feishu:2" "g" "chat-2" 0 None false (Some "feishu:1")).
  { intros jid g E. unfold group_at in E. cbn in E.
    apply lookup_insert_Some in E as [[<- <-]|[_ E]]; [by left|]. apply lookup_singleton_Some in E as [<- <-]. by right. }
  split.
  - by intros jid g [[-> ->]|[-> ->]]%G.
  - intros f u m E. unfold member_at in E. cbn in E. by rewrite lookup_empty in E.
  - intros f i c E. unfold slot_at in E. cbn in E.
    apply lookup_insert_Some in E as [[[= <- <-] <-]|[_ E]]; [done|]. by apply lookup_singleton_Some in E as [[= <- <-] <-].
  - by intros jid g [[-> ->]|[-> ->]]%G.
  - by intros jid g [[-> ->]|[-> ->]]%G.
  - by intros jid g [[-> ->]|[-> ->]]%G.
  - intros jid g [[-> ->]|[-> ->]]%G; by eexists.
Qed.

Lemma access_ends_witness :
  user_can_access 5 "bob" None gx_endpoint gx_bound = (Ok (access_rule "bob" None gx_endpoint gx_bound), gx_bound).
Proof. apply (access_ends 3 "bob" None gx_endpoint gx_bound); [apply gx_bound_wf|reflexivity]. Defined.
