(* ===== verification/TerminalRoutes.v ===== *)
(** * The terminal routes ([app/routes/terminals.py])

    The HTTP handlers, each as one computation over the database of the groups and the
    terminal session service, for the user its dependency has resolved. A handler that
    opens or closes a session goes on in the service ([Pending]); the query parameters
    are those FastAPI has accepted. A response model is a record of its fields; the
    encoding of a response as JSON is FastAPI's. *)

From stdpp Require Import base gmap strings list option pretty.
From Stdlib Require Import ZArith NArith Ascii.
From S2P Require Import Prelude PyStr PyInt PyTime PySort PyDict Auth TerminalHistory TerminalSearch TerminalSessions SafePath Db Groups GroupRoutes.

(** ** Names of downloads *)

(** [re.sub] of every run of characters other than those by one dash. *)
Fixpoint dash_runs (in_run : bool) (l : list ascii) : list ascii :=
  match l with
  | [] => []
  | c :: l =>
      if segment_char c then c :: dash_runs false l
      else if in_run then dash_runs true l else "-"%char :: dash_runs true l
  end.
Definition dash_or_dot (c : ascii) : bool := bool_decide (c = "-"%char) || bool_decide (c = "."%char).
(** [s.strip("-.")]. *)
Definition strip_dashes (l : list ascii) : list ascii := rev (drop_while dash_or_dot (rev (drop_while dash_or_dot l))).

Definition sanitize_terminal_filename_part (value : string) : string :=
  let sanitized := strip_dashes (dash_runs false (str_chars (strip value))) in
  if bool_decide (sanitized = []) then "snapshot" else of_chars sanitized.

Definition build_terminal_history_download_filename (group_id session_id extension : string) : string :=
  "terminal-history-" +:+ sanitize_terminal_filename_part group_id +:+ "-" +:+
  sanitize_terminal_filename_part session_id +:+ "." +:+ extension.
Definition build_terminal_history_export_filename (group_id : string) (offset limit : Z) : string :=
  "terminal-history-export-" +:+ sanitize_terminal_filename_part group_id +:+ "-" +:+
  "offset-" +:+ pretty offset +:+ "-limit-" +:+ pretty limit +:+ ".json".
Definition build_terminal_history_archive_filename (group_id : string) : string :=
  "terminal-history-archive-" +:+ sanitize_terminal_filename_part group_id +:+ ".json".
Definition build_terminal_history_search_export_filename (group_id query : string) (offset limit : Z) : string :=
  "terminal-history-search-" +:+ sanitize_terminal_filename_part group_id +:+ "-" +:+
  sanitize_terminal_filename_part query +:+ "-offset-" +:+ pretty offset +:+ "-limit-" +:+ pretty limit +:+ ".json".
Definition build_terminal_history_search_archive_filename (group_id query : string) : string :=
  "terminal-history-search-archive-" +:+ sanitize_terminal_filename_part group_id +:+ "-" +:+
  sanitize_terminal_filename_part query +:+ ".json".

(** ** Responses *)

Record TerminalSessionResponse := mkSessionResponse {
  tr_session_id : string;
  tr_group_id : string;
  tr_owner_user_id : string;
  tr_backend : string;
  tr_container_name : option string;
  tr_status : TerminalSessionStatus;
  tr_created_at : Z;
  tr_last_attached_at : option Z;
  tr_reconnect_deadline : option Z
}.
Record TerminalSessionHistoryResponse := mkHistoryResponse {
  hr_session : TerminalSessionResponse;
  hr_output : string;
  hr_output_bytes : Z;
  hr_history_max_bytes : Z;
  hr_truncated : bool
}.
Record TerminalSessionHistorySummaryResponse := mkSummaryResponse {
  sr_session : TerminalSessionResponse;
  sr_snapshot_at : Z;
  sr_output_bytes : Z;
  sr_history_max_bytes : Z;
  sr_truncated : bool
}.
Record TerminalSessionHistoryTimelineResponse := mkTimelineResponse {
  tl_limit : Z;
  tl_offset : Z;
  tl_has_more : bool;
  tl_items : list TerminalSessionHistorySummaryResponse
}.
Record TerminalSessionHistorySearchMatchResponse := mkMatchResponse {
  mr_session : TerminalSessionResponse;
  mr_snapshot_at : Z;
  mr_match_count : Z;
  mr_snippets : list string;
  mr_snippet_matches : list TerminalSessionHistorySearchSnippet
}.
Record TerminalSessionHistorySearchResponse := mkSearchResponse {
  se_query : string;
  se_limit : Z;
  se_offset : Z;
  se_total : Z;
  se_has_more : bool;
  se_items : list TerminalSessionHistorySearchMatchResponse
}.
Record TerminalSessionHistoryDetailResponse := mkDetailResponse {
  dr_session : TerminalSessionResponse;
  dr_snapshot_at : Z;
  dr_output : string;
  dr_output_bytes : Z;
  dr_history_max_bytes : Z;
  dr_truncated : bool
}.
Record TerminalWorkspaceSummaryResponse := mkWorkspaceSummary {
  wr_group_id : string;
  wr_group_name : string;
  wr_chat_accessible : bool;
  wr_session : option TerminalSessionResponse;
  wr_history : option TerminalSessionHistorySummaryResponse
}.

Definition to_terminal_session_response (r : TerminalSessionRecord) : TerminalSessionResponse :=
  mkSessionResponse (ts_session_id r) (ts_group_id r) (ts_owner_user_id r) (ts_backend r) (ts_container_name r)
    (ts_status r) (ts_created_at r) (ts_last_attached_at r) (ts_reconnect_deadline r).
Definition to_terminal_history_summary_response (i : TerminalSessionHistorySummary) : TerminalSessionHistorySummaryResponse :=
  mkSummaryResponse (to_terminal_session_response (su_record i)) (su_snapshot_at i) (su_output_bytes i)
    (su_history_max_bytes i) (su_truncated i).
Definition to_terminal_history_search_match_response (i : TerminalSessionHistorySearchMatch) :
    TerminalSessionHistorySearchMatchResponse :=
  mkMatchResponse (to_terminal_session_response (sm_record i)) (sm_snapshot_at i) (sm_match_count i) (sm_snippets i)
    (sm_snippet_matches i).
Definition to_terminal_history_detail_response (i : TerminalSessionHistorySnapshot) : TerminalSessionHistoryDetailResponse :=
  mkDetailResponse (to_terminal_session_response (hs_record i)) (hs_snapshot_at i) (hs_output i) (hs_output_bytes i)
    (hs_history_max_bytes i) (hs_truncated i).

(** An attachment: its file name and content. *)
Record download (A : Type) := mkDownload { dl_filename : string; dl_content : A }.
Arguments mkDownload {A}.
Arguments dl_filename {A}.
Arguments dl_content {A}.

(** The filters an export repeats; the bounds as text. *)
Record export_filters := mkExportFilters {
  ef_status : option TerminalSessionStatus;
  ef_owner_user_id : option string;
  ef_session_id_prefix : option string;
  ef_snapshot_from : option string;
  ef_snapshot_to : option string
}.

(** [_serialize_utc_datetime], of an instant within the years 1 to 9999: [isoformat]
    ends in the offset of UTC, its only "+00:00". *)
Definition serialize_utc_datetime (value : option datetime) : option string :=
  match value with
  | None => None
  | Some (Naive t) | Some (Aware t) =>
      let l := str_chars (isoformat t) in Some (of_chars (take (length l - 6) l) +:+ "Z")
  end.
Definition filters_of (f : history_filter) : export_filters :=
  mkExportFilters (fl_status f) (fl_owner_user_id f) (fl_session_id_prefix f)
    (serialize_utc_datetime (fl_snapshot_from f)) (serialize_utc_datetime (fl_snapshot_to f)).

Record page_export (A : Type) := mkPageExport {
  pe_group_id : string;
  pe_query : option (string * string);   (* the query and its sort, of a search *)
  pe_limit : Z;
  pe_offset : Z;
  pe_total : Z;
  pe_has_more : bool;
  pe_filters : export_filters;
  pe_items : list A
}.
Arguments mkPageExport {A}.
Arguments pe_items {A}.
Record full_export (A : Type) := mkFullExport {
  fe_group_id : string;
  fe_query : option (string * string);
  fe_total : Z;
  fe_filters : export_filters;
  fe_items : list A
}.
Arguments mkFullExport {A}.
Arguments fe_items {A}.
Arguments fe_total {A}.

(** A workspace of the bundle of latest histories, and of the grouped archive. *)
Record latest_item := mkLatestItem {
  li_group_id : string;
  li_group_name : string;
  li_chat_accessible : bool;
  li_history : TerminalSessionHistoryDetailResponse
}.
Record archive_item := mkArchiveItem {
  ai_group_id : string;
  ai_group_name : string;
  ai_chat_accessible : bool;
  ai_total : Z;
  ai_items : list TerminalSessionHistoryDetailResponse
}.
Record archive_bundle := mkBundle {
  ab_group_name_prefix : option string;
  ab_group_id_prefix : option string;
  ab_chat_accessible : option bool;
  ab_filters : export_filters;
  ab_total_workspaces : Z;
  ab_total_snapshots : Z;
  ab_items : list archive_item
}.

(** [_ACTIVE_TERMINAL_STATUSES]. *)
Definition active_terminal_status (s : TerminalSessionStatus) : bool :=
  match s with TsCreated | TsAttached | TsDetached => true | _ => false end.

Definition terminal_workspace_sort_key (i : TerminalWorkspaceSummaryResponse) : Z * (string * string) :=
  (match wr_session i with
   | None => 2%Z
   | Some r => if active_terminal_status (tr_status r) then 0%Z else 1%Z
   end, (lower (wr_group_name i), wr_group_id i)).

Definition archive_sort_key (i : archive_item) : Z * (string * string) :=
  (match ai_items i with
   | d :: _ => if active_terminal_status (tr_status (dr_session d)) then 0%Z else 1%Z
   | [] => 1%Z
   end, (lower (ai_group_name i), ai_group_id i)).

(** ** Errors *)

(** [_map_terminal_error]; an exception of a bridge is none of the classes. *)
Definition map_terminal_error (e : terminal_error) : http_error :=
  match e with
  | TerminalSessionNotFoundError msg => (404%Z, msg)
  | TerminalSessionConflictError msg | TerminalSessionOwnershipError msg => (409%Z, msg)
  | TerminalBackendDisabledError msg | TerminalBackendUnsupportedError msg => (422%Z, msg)
  | ValueError msg => (400%Z, msg)
  | BridgeError _ => (500%Z, "terminal operation failed")
  end.
Definition no_session : http_error := (404%Z, "terminal session not found").

(** [c.casefold()] for a character; that of the micro sign, which is beyond U+00FF, and
    no other, is kept as it is, which changes no comparison of texts in the model. *)
Definition casefold_char (c : ascii) : list ascii :=
  if bool_decide (code c = 223%N) then ["s"; "s"]%char else [lower_char c].
Definition casefold (s : string) : string := of_chars (concat (map casefold_char (str_chars s))).

(** What the service searches with. *)
Definition DEFAULT_SEARCH_SNIPPET_LIMIT : Z := 3.
Definition DEFAULT_SEARCH_SNIPPET_CONTEXT_CHARS : Z := 40.

Section routes.
Context {GT MT ST : Type} `{Table GT string RegisteredGroup} `{Table MT (string * string) GroupMember}
  `{Table ST (string * string) ConversationSlot}.
Variable history_max_bytes_arg : Z.
Variable uuid4_hex : nat -> string.
Variable utcnow : nat -> Z.
Variable container_name : string -> string -> option string.
Variable history_dir : string -> option string.

Record tworld := mkTWorld { tw_db : db GT MT ST; tw_service : service }.
Local Abbreviation T := (M tworld http_error).

(** A computation over the database; a query of the service, its errors mapped. *)
Definition on_db {A} (m : M (db GT MT ST) http_error A) : T A := fun w =>
  let '(r, d) := m (tw_db w) in (r, mkTWorld d (tw_service w)).
Definition on_service {A} (f : service -> A * service) : T A := fun w =>
  let '(a, s) := f (tw_service w) in (Ok a, mkTWorld (tw_db w) s).
Definition service_query {A} (f : service -> result terminal_error A * service) : T A := fun w =>
  match f (tw_service w) with
  | (Ok a, s) => (Ok a, mkTWorld (tw_db w) s)
  | (Err e, s) => (Err (map_terminal_error e), mkTWorld (tw_db w) s)
  end.
(** A query over the merged snapshots of a workspace. *)
Definition merged_query {A} (g : string)
    (q : result terminal_error (list TerminalSessionHistorySnapshot) -> result terminal_error A) : T A :=
  service_query (fun s =>
    let '(merged, s) := list_merged_history_snapshots_by_group history_max_bytes_arg utcnow history_dir g s in
    (q merged, s)).

(** The response to a request, or the continuation of the service it waits for. *)
Inductive pending (A : Type) := Responds (a : A) | Waits (k : nat).
Arguments Responds {A}.
Arguments Waits {A}.
(** What a segment of the service means for the request that waits for it. *)
Definition respond {A} (f : TerminalSessionRecord -> A) (r : reply) : result http_error (pending A) :=
  match r with
  | RRecord r | RQueue r _ => Ok (Responds (f r))
  | RWaits k => Ok (Waits k)
  | RNone => Err server_error
  | RError e => Err (map_terminal_error e)
  end.
Definition service_call {A} (f : TerminalSessionRecord -> A) (op : service -> reply * service) : T (pending A) := fun w =>
  let '(r, s) := op (tw_service w) in (respond f r, mkTWorld (tw_db w) s).

(** [_require_terminal_role], [_require_accessible_workspace]. *)
Definition require_terminal_role (u : AuthUser) : T unit :=
  if bool_decide (au_role u = Some "owner") || bool_decide (au_role u = Some "admin") then mret tt else throw forbidden.
Definition require_terminal_workspace (group_id : string) (u : AuthUser) (now : Z) : T RegisteredGroup :=
  on_db (require_accessible_workspace group_id u now).

(** ** Across workspaces *)

Definition user_can_open (u : AuthUser) (g : RegisteredGroup) : T bool :=
  on_db (catching uncaught (user_can_access_group (au_id u) (au_role u) g)).

Fixpoint overview_items (u : AuthUser) (sessions : list (string * TerminalSessionRecord))
    (histories : list (string * TerminalSessionHistorySummary)) (workspaces : list RegisteredGroup) :
    T (list TerminalWorkspaceSummaryResponse) :=
  match workspaces with
  | [] => mret []
  | w :: workspaces =>
      if bool_decide (rg_folder w = "") then overview_items u sessions histories workspaces
      else
        accessible ← user_can_open u w;
        items ← overview_items u sessions histories workspaces;
        mret (mkWorkspaceSummary (rg_folder w) (rg_name w) accessible
                (to_terminal_session_response <$> od_get (rg_folder w) sessions)
                (to_terminal_history_summary_response <$> od_get (rg_folder w) histories) :: items)
  end.

Definition by_folder {A} (folder : A -> string) (l : list A) : list (string * A) :=
  foldl (fun d x => od_set (folder x) x d) [] l.

(** [GET /terminals]. *)
Definition list_terminal_overview (u : AuthUser) : T (list TerminalWorkspaceSummaryResponse) :=
  _ ← require_terminal_role u;
  groups ← on_db (catching uncaught list_registered_groups);
  let workspaces := List.filter (fun g => is_web (rg_jid g)) groups in
  sessions ← on_service (fun s => (list_sessions s, s));
  histories ← on_service (list_history_summaries history_max_bytes_arg utcnow);
  items ← overview_items u (by_folder ts_group_folder sessions)
            (by_folder (fun i => ts_group_folder (su_record i)) histories) workspaces;
  mret (py_sorted terminal_workspace_sort_key items).

(** [GET /terminals/export]. *)
Definition export_terminal_overview (u : AuthUser) : T (download (list TerminalWorkspaceSummaryResponse)) :=
  payload ← list_terminal_overview u;
  mret (mkDownload "terminal-overview.json" payload).

(** [GET /terminals/history/export]. *)
Definition export_terminal_latest_histories (u : AuthUser) : T (download (Z * list latest_item)) :=
  overview ← list_terminal_overview u;
  latest ← on_service (list_latest_history_snapshots history_max_bytes_arg utcnow);
  let snapshots := by_folder (fun i => ts_group_folder (hs_record i)) latest in
  let items := omap (fun i =>
    (fun snap => mkLatestItem (wr_group_id i) (wr_group_name i) (wr_chat_accessible i)
                   (to_terminal_history_detail_response snap)) <$> od_get (wr_group_id i) snapshots) overview in
  match items with
  | [] => throw no_session
  | _ => mret (mkDownload "terminal-latest-histories.json" (Z.of_nat (length items), items))
  end.

(** The workspaces of the archive: those that pass the filters of the request. *)
Fixpoint archive_entries (u : AuthUser) (name_prefix id_prefix : option string) (accessible_filter : option bool)
    (groups : list RegisteredGroup) : T (list (string * (string * bool))) :=
  match groups with
  | [] => mret []
  | w :: groups =>
      let rest := archive_entries u name_prefix id_prefix accessible_filter groups in
      let group_id := strip (rg_folder w) in
      if negb (is_web (rg_jid w)) then rest
      else if bool_decide (group_id = "") then rest
      else if match id_prefix with Some p => negb (startswith p group_id) | None => false end then rest
      else if match name_prefix with Some p => negb (startswith (casefold p) (casefold (rg_name w))) | None => false end then rest
      else
        accessible ← user_can_open u w;
        if match accessible_filter with Some b => negb (Bool.eqb accessible b) | None => false end then rest
        else entries ← rest; mret ((group_id, (rg_name w, accessible)) :: entries)
  end.

(** The merged snapshots of each folder in turn, as the tasks of the service get them. *)
Fixpoint merged_all (folders : list string) (s : service) :
    list (string * result terminal_error (list TerminalSessionHistorySnapshot)) * service :=
  match folders with
  | [] => ([], s)
  | g :: folders =>
      let '(merged, s) := list_merged_history_snapshots_by_group history_max_bytes_arg utcnow history_dir g s in
      let '(rest, s) := merged_all folders s in
      ((g, merged) :: rest, s)
  end.
Definition archives_of (folders : list string) (f : history_filter) (s : service) :
    result terminal_error (list (string * list TerminalSessionHistorySnapshot)) * service :=
  let '(all, s) := merged_all (normalize_group_folders folders) s in
  (list_history_snapshot_archives_by_groups
     (fun g => default (Err TerminalHistory.not_found) (od_get g all)) folders f, s).

Definition archive_row (archives : list (string * list TerminalSessionHistorySnapshot)) (e : string * (string * bool)) :
    option archive_item :=
  match od_get e.1 archives with
  | Some (snap :: snaps) =>
      Some (mkArchiveItem e.1 e.2.1 e.2.2 (Z.of_nat (length (snap :: snaps)))
              (map to_terminal_history_detail_response (snap :: snaps)))
  | _ => None
  end.

(** [GET /terminals/history/archive]. *)
Definition export_terminal_history_archive (u : AuthUser) (f : history_filter) (group_name_prefix group_id_prefix : option string)
    (chat_accessible_filter : option bool) : T (download archive_bundle) :=
  _ ← require_terminal_role u;
  let name_prefix := normalize_text group_name_prefix in
  let id_prefix := normalize_text group_id_prefix in
  groups ← on_db (catching uncaught list_registered_groups);
  entries ← archive_entries u name_prefix id_prefix chat_accessible_filter groups;
  archives ← service_query (archives_of (map fst entries) f);
  match omap (archive_row archives) entries with
  | [] => throw no_session
  | rows =>
      let items := py_sorted archive_sort_key rows in
      mret (mkDownload "terminal-history-archive.json"
              (mkBundle name_prefix id_prefix chat_accessible_filter (filters_of f) (Z.of_nat (length items))
                 (foldr (fun i n => ai_total i + n)%Z 0%Z items) items))
  end.

(** ** One workspace *)

(** [POST /terminals/{group_id}/sessions]. *)
Definition create_terminal_session (u : AuthUser) (group_id requested_mode : string) (now : Z) : T (pending TerminalSessionResponse) :=
  _ ← require_terminal_role u;
  w ← require_terminal_workspace group_id u now;
  service_call to_terminal_session_response
    (create_session uuid4_hex utcnow container_name group_id (rg_folder w) (au_id u) requested_mode).

(** [GET /terminals/{group_id}/sessions/current]. *)
Definition get_current_terminal_session (u : AuthUser) (group_id : string) (now : Z) : T TerminalSessionResponse :=
  _ ← require_terminal_role u;
  w ← require_terminal_workspace group_id u now;
  session ← on_service (fun s => (get_current_session (rg_folder w) s, s));
  match session with
  | None => throw no_session
  | Some r => mret (to_terminal_session_response r)
  end.

(** [GET /terminals/{group_id}/sessions/current/history]. *)
Definition get_current_terminal_session_history (u : AuthUser) (group_id : string) (now : Z) : T TerminalSessionHistoryResponse :=
  _ ← require_terminal_role u;
  w ← require_terminal_workspace group_id u now;
  snap ← service_query (get_history_by_group history_max_bytes_arg utcnow history_dir (rg_folder w));
  mret (mkHistoryResponse (to_terminal_session_response (hs_record snap)) (hs_output snap) (hs_output_bytes snap)
          (hs_history_max_bytes snap) (hs_truncated snap)).

(** [GET /terminals/{group_id}/sessions/history]. *)
Definition get_terminal_history_timeline (u : AuthUser) (group_id : string) (limit offset : Z) (f : history_filter) (now : Z) :
    T TerminalSessionHistoryTimelineResponse :=
  _ ← require_terminal_role u;
  w ← require_terminal_workspace group_id u now;
  page ← merged_query (rg_folder w) (fun m => list_history_timeline_by_group m limit offset f);
  mret (mkTimelineResponse (tp_limit page) (tp_offset page) (tp_has_more page)
          (map to_terminal_history_summary_response (tp_items page))).

(** [GET /terminals/{group_id}/sessions/history/export]. *)
Definition export_terminal_history (u : AuthUser) (group_id : string) (limit offset : Z) (f : history_filter) (now : Z) :
    T (download (page_export TerminalSessionHistoryDetailResponse)) :=
  _ ← require_terminal_role u;
  w ← require_terminal_workspace group_id u now;
  page ← merged_query (rg_folder w) (fun m => list_history_snapshot_page_by_group m limit offset f);
  mret (mkDownload (build_terminal_history_export_filename (rg_folder w) (sp_offset page) (sp_limit page))
          (mkPageExport (rg_folder w) None (sp_limit page) (sp_offset page) (sp_total page) (sp_has_more page) (filters_of f)
             (map to_terminal_history_detail_response (sp_items page)))).

(** [GET /terminals/{group_id}/sessions/history/archive]. *)
Definition archive_terminal_history (u : AuthUser) (group_id : string) (f : history_filter) (now : Z) :
    T (download (full_export TerminalSessionHistoryDetailResponse)) :=
  _ ← require_terminal_role u;
  w ← require_terminal_workspace group_id u now;
  items ← merged_query (rg_folder w) (fun m => list_history_snapshots_by_group m f);
  mret (mkDownload (build_terminal_history_archive_filename (rg_folder w))
          (mkFullExport (rg_folder w) None (Z.of_nat (length items)) (filters_of f)
             (map to_terminal_history_detail_response items))).

Definition search_workspace (g q : string) (limit offset : Z) (sort : string) (f : history_filter) :
    T TerminalSessionHistorySearchPage :=
  merged_query g (fun m => search_history_by_group m q limit offset sort f
    DEFAULT_SEARCH_SNIPPET_LIMIT DEFAULT_SEARCH_SNIPPET_CONTEXT_CHARS).

(** [GET /terminals/{group_id}/sessions/history/search]. *)
Definition search_terminal_history_output (u : AuthUser) (group_id q : string) (limit offset : Z) (sort : string)
    (f : history_filter) (now : Z) : T TerminalSessionHistorySearchResponse :=
  _ ← require_terminal_role u;
  w ← require_terminal_workspace group_id u now;
  page ← search_workspace (rg_folder w) q limit offset sort f;
  mret (mkSearchResponse (pg_query page) (pg_limit page) (pg_offset page) (pg_total page) (pg_has_more page)
          (map to_terminal_history_search_match_response (pg_items page))).

(** [GET /terminals/{group_id}/sessions/history/search/export]. *)
Definition export_terminal_history_search (u : AuthUser) (group_id q : string) (limit offset : Z) (sort : string)
    (f : history_filter) (now : Z) : T (download (page_export TerminalSessionHistorySearchMatchResponse)) :=
  _ ← require_terminal_role u;
  w ← require_terminal_workspace group_id u now;
  page ← search_workspace (rg_folder w) q limit offset sort f;
  mret (mkDownload (build_terminal_history_search_export_filename (rg_folder w) (pg_query page) (pg_offset page) (pg_limit page))
          (mkPageExport (rg_folder w) (Some (pg_query page, sort)) (pg_limit page) (pg_offset page) (pg_total page)
             (pg_has_more page) (filters_of f) (map to_terminal_history_search_match_response (pg_items page)))).

(** [GET /terminals/{group_id}/sessions/history/search/archive]: one match first, then
    as many as there are. *)
Definition archive_terminal_history_search (u : AuthUser) (group_id q sort : string) (f : history_filter) (now : Z) :
    T (download (full_export TerminalSessionHistorySearchMatchResponse)) :=
  _ ← require_terminal_role u;
  w ← require_terminal_workspace group_id u now;
  first_page ← search_workspace (rg_folder w) q 1 0 sort f;
  page ← (if (Z.of_nat (length (pg_items first_page)) <? pg_total first_page)%Z
          then search_workspace (rg_folder w) q (pg_total first_page) 0 sort f else mret first_page);
  mret (mkDownload (build_terminal_history_search_archive_filename (rg_folder w) (pg_query page))
          (mkFullExport (rg_folder w) (Some (pg_query page, sort)) (pg_total page) (filters_of f)
             (map to_terminal_history_search_match_response (pg_items page)))).

(** [GET /terminals/{group_id}/sessions/history/{session_id}] and its download. *)
Definition get_terminal_history_detail (u : AuthUser) (group_id session_id : string) (now : Z) :
    T TerminalSessionHistoryDetailResponse :=
  _ ← require_terminal_role u;
  w ← require_terminal_workspace group_id u now;
  snap ← merged_query (rg_folder w) (fun m => get_history_snapshot_by_group m session_id);
  mret (to_terminal_history_detail_response snap).

Inductive detail_content := DetailJson (d : TerminalSessionHistoryDetailResponse) | DetailText (output : string).
Definition download_terminal_history_detail (u : AuthUser) (group_id session_id : string) (format : string) (now : Z) :
    T (download detail_content) :=
  _ ← require_terminal_role u;
  w ← require_terminal_workspace group_id u now;
  snap ← merged_query (rg_folder w) (fun m => get_history_snapshot_by_group m session_id);
  mret (if bool_decide (format = "json")
        then mkDownload (build_terminal_history_download_filename (rg_folder w) session_id "json")
               (DetailJson (to_terminal_history_detail_response snap))
        else mkDownload (build_terminal_history_download_filename (rg_folder w) session_id "log") (DetailText (hs_output snap))).

(** [DELETE /terminals/{group_id}/sessions/current] and [.../force]: the response is
    the status "closed". *)
Definition delete_current_terminal_session (u : AuthUser) (group_id : string) (now : Z) : T (pending string) :=
  _ ← require_terminal_role u;
  w ← require_terminal_workspace group_id u now;
  service_call (fun _ => "closed") (close_session_by_group history_max_bytes_arg utcnow (rg_folder w) (au_id u)).
Definition force_delete_current_terminal_session (u : AuthUser) (group_id : string) (now : Z) : T (pending string) :=
  _ ← require_terminal_role u;
  w ← require_terminal_workspace group_id u now;
  service_call (fun _ => "closed") (force_close_session_by_group history_max_bytes_arg utcnow (rg_folder w)).

(** The requests that reach the terminal routes. *)
Inductive terminal_request :=
| TOverview
| TExportOverview
| TExportLatest
| TArchiveAll (f : history_filter) (name_prefix id_prefix : option string) (accessible : option bool)
| TCreate (group_id mode : string)
| TCurrent (group_id : string)
| TCurrentHistory (group_id : string)
| TTimeline (group_id : string) (limit offset : Z) (f : history_filter)
| TExport (group_id : string) (limit offset : Z) (f : history_filter)
| TArchive (group_id : string) (f : history_filter)
| TSearch (group_id q : string) (limit offset : Z) (sort : string) (f : history_filter)
| TSearchExport (group_id q : string) (limit offset : Z) (sort : string) (f : history_filter)
| TSearchArchive (group_id q sort : string) (f : history_filter)
| TDetail (group_id session_id : string)
| TDownload (group_id session_id format : string)
| TClose (group_id : string)
| TForceClose (group_id : string).

Definition discard {A} (m : T A) : T unit := _ ← m; mret tt.

Definition handle_terminal (u : AuthUser) (now : Z) (r : terminal_request) : T unit :=
  match r with
  | TOverview => discard (list_terminal_overview u)
  | TExportOverview => discard (export_terminal_overview u)
  | TExportLatest => discard (export_terminal_latest_histories u)
  | TArchiveAll f n i a => discard (export_terminal_history_archive u f n i a)
  | TCreate g m => discard (create_terminal_session u g m now)
  | TCurrent g => discard (get_current_terminal_session u g now)
  | TCurrentHistory g => discard (get_current_terminal_session_history u g now)
  | TTimeline g l o f => discard (get_terminal_history_timeline u g l o f now)
  | TExport g l o f => discard (export_terminal_history u g l o f now)
  | TArchive g f => discard (archive_terminal_history u g f now)
  | TSearch g q l o s f => discard (search_terminal_history_output u g q l o s f now)
  | TSearchExport g q l o s f => discard (export_terminal_history_search u g q l o s f now)
  | TSearchArchive g q s f => discard (archive_terminal_history_search u g q s f now)
  | TDetail g i => discard (get_terminal_history_detail u g i now)
  | TDownload g i f => discard (download_terminal_history_detail u g i f now)
  | TClose g => discard (delete_current_terminal_session u g now)
  | TForceClose g => discard (force_delete_current_terminal_session u g now)
  end.
End routes.
