(* ===== verification/TerminalRoutesProps.v ===== *)
(** * Properties of the terminal routes *)

From stdpp Require Import base gmap strings list option pretty sorting.
From Stdlib Require Import ZArith NArith Lia Ascii.
From S2P Require Import Prelude PyStr PyInt PyTime PySort PyDict Auth TerminalHistory TerminalSearch TerminalSessions TerminalSessionsInv TerminalSessionsOps TerminalSessionsProps SafePath Db Groups GroupRoutes GroupsProps TerminalRoutes.

(** ** What an operation on the session of one workspace leaves alone *)

Section frames.
Variable hist_arg : Z.
Variable uuid4_hex : nat -> string.
Variable utcnow : nat -> Z.
Variable container_name : string -> string -> option string.

Local Abbreviation sess_inv := (sess_inv hist_arg uuid4_hex).

(** Only the session of workspace [g] may change, and only its bridge is called. *)
Record only_group (g : string) (s s' : service) : Prop := {
  og_others : forall g', g' <> g -> group_session g' s' = group_session g' s;
  og_calls : exists l, sv_calls s' = sv_calls s ++ l /\
    forall b c, (b, c) ∈ l -> exists o m, group_session g s' = Some (o, m) /\ md_bridge m = Some b
}.

Lemma only_refl g s : only_group g s s.
Proof. split; [done|]. exists []. rewrite app_nil_r. split; [done|]. intros b c H. by apply not_elem_of_nil in H. Qed.

Lemma session_of_core g s s' :
  sv_heap s' = sv_heap s -> sv_by_group s' = sv_by_group s -> group_session g s' = group_session g s.
Proof. intros E1 E2. unfold group_session, by_group. by rewrite E1, E2. Qed.

(** Two workspaces have no session in common. *)
Lemma other_object g g' o s :
  sess_inv s -> by_group g s = Some o -> by_group g' s = Some o -> g' = g.
Proof.
  intros I H H'. destruct (si_group _ _ s I _ _ H) as (m & M & F & _). destruct (si_group _ _ s I _ _ H') as (m' & M' & F' & _).
  congruence.
Qed.

Lemma set_session g o m' s :
  sess_inv s -> by_group g s = Some o ->
  group_session g (set_managed o m' s) = Some (o, m') /\
  forall g', g' <> g -> group_session g' (set_managed o m' s) = group_session g' s.
Proof.
  intros I B. unfold group_session, set_managed, by_group in *. cbn. split.
  - rewrite B. cbn. by rewrite lookup_insert_eq.
  - intros g' N. destruct (od_get g' (sv_by_group s)) as [o'|] eqn:E; [|done]. cbn.
    rewrite lookup_insert_ne; [done|]. intros <-. apply N. by eapply other_object.
Qed.

Lemma close_heap o m s :
  exists m', md_bridge m' = md_bridge m /\ sv_heap (close_managed hist_arg utcnow o m s).2 = <[o := m']> (sv_heap s) /\
    sv_by_group (close_managed hist_arg utcnow o m s).2 = sv_by_group s /\
    sv_calls (close_managed hist_arg utcnow o m s).2 =
      sv_calls s ++ match md_bridge m with Some b => [(b, BClose)] | None => [] end.
Proof.
  unfold close_managed, cancel_reconnect_task. rewrite cancel_task_eq. unfold build_history_snapshot, read_now. cbn.
  destruct (md_bridge m) as [b|] eqn:B; cbn; eexists; (split; [|split; [by rewrite insert_insert_eq|]]);
    rewrite ?app_nil_r; by cbn.
Qed.

Lemma close_only g o m s :
  sess_inv s -> group_session g s = Some (o, m) -> only_group g s (close_managed hist_arg utcnow o m s).2.
Proof.
  intros I G. assert (B : by_group g s = Some o).
  { unfold group_session in G. destruct (by_group g s) as [o'|]; [|done]. cbn in G. destruct (sv_heap s !! o'); [|done].
    by injection G as -> _. }
  destruct (close_heap o m s) as (m' & Bm & H & Bg & C). destruct (set_session g o m' s I B) as [S1 S2].
  assert (E : forall g', group_session g' (close_managed hist_arg utcnow o m s).2 = group_session g' (set_managed o m' s))
    by (intros g'; by apply session_of_core).
  split; [intros g' N; rewrite E; by apply S2|]. eexists. split; [exact C|]. intros b c Hb. exists o, m'.
  rewrite E, S1, Bm. split; [done|]. destruct (md_bridge m); [|by apply not_elem_of_nil in Hb].
  apply list_elem_of_singleton in Hb. by injection Hb as -> _.
Qed.

Lemma create_new_only gid g u backend s s0 :
  (forall g', g' <> g -> group_session g' s = group_session g' s0) -> sv_calls s = sv_calls s0 ->
  (forall g' o, by_group g' s = Some o -> o < sv_next s) ->
  only_group g s0 (create_new uuid4_hex utcnow container_name gid g u backend s).2.
Proof.
  intros O C F. unfold create_new, fresh, read_now, await_call, call_bridge. cbn. split.
  - intros g' N. rewrite <- (O g' N). unfold group_session, by_group in *. cbn. rewrite od_get_set_ne by done.
    destruct (od_get g' (sv_by_group s)) as [o'|] eqn:E; [|done]. cbn.
    rewrite lookup_insert_ne; [done|]. pose proof (F g' o' E). lia.
  - eexists. split; [by rewrite C|]. intros b c Hb%list_elem_of_singleton. injection Hb as -> ->.
    unfold group_session, by_group. cbn. rewrite od_get_set_eq. cbn. rewrite lookup_insert_eq. cbn. by eexists _, _.
Qed.

Lemma registered_next s g o : sess_inv s -> by_group g s = Some o -> o < sv_next s.
Proof. intros I B. destruct (si_group _ _ s I _ _ B) as (m & M & _). by eapply si_next. Qed.

Lemma drop_keeps o m s :
  sv_by_group (drop_session o m s) = od_pop (ts_group_folder (md_record m)) (sv_by_group s) /\
  sv_heap (drop_session o m s) = <[o := md_with_reconnect None m]> (sv_heap s) /\
  sv_calls (drop_session o m s) = sv_calls s /\ sv_next (drop_session o m s) = sv_next s.
Proof. unfold drop_session, cancel_reconnect_task. by rewrite cancel_task_eq. Qed.

Lemma create_only gid g u mode s :
  sess_inv s -> only_group g s (create_session uuid4_hex utcnow container_name gid g u mode s).2.
Proof.
  intros I. unfold create_session. destruct (resolve_backend mode) as [backend|]; [|apply only_refl].
  destruct (group_session g s) as [[o m]|] eqn:G; [|by apply create_new_only; [| |intros; eapply registered_next]].
  destruct (archive_status _); [|by case_bool_decide; apply only_refl].
  destruct (group_session_ok _ _ _ _ _ _ I G) as (M & _ & F). unfold folder in F.
  destruct (drop_keeps o m s) as (Eg & Eh & Ec & En). rewrite F in Eg. apply create_new_only; [|done|].
  - intros g' N. unfold group_session, by_group. rewrite Eg, Eh, od_get_pop_ne by done.
    destruct (od_get g' (sv_by_group s)) as [o'|] eqn:E; [|done]. cbn. rewrite lookup_insert_ne; [done|].
    intros <-. apply N. destruct (si_group _ _ s I g' o E) as (m' & M' & F' & _). unfold folder in F'. congruence.
  - intros g' o' E. rewrite En. apply (registered_next s g'); [done|]. unfold by_group in *. rewrite Eg, od_get_pop in E.
    by destruct (decide (g = g')).
Qed.

(** Who may open or close the session of a workspace without force: its owner; anybody
    opens one where there is none, or an ended one. *)
Definition session_allows (g u : string) (opens : bool) (s : service) : Prop :=
  forall o m, group_session g s = Some (o, m) ->
    ts_owner_user_id (md_record m) = u \/ (opens = true /\ archive_status (ts_status (md_record m)) = true).

Lemma create_refused gid g u mode s :
  (create_session uuid4_hex utcnow container_name gid g u mode s).2 = s \/ session_allows g u true s.
Proof.
  unfold create_session, session_allows. destruct (resolve_backend mode) as [backend|]; [|by left].
  destruct (group_session g s) as [[o m]|]; [|by right].
  destruct (archive_status _) eqn:A; [right; intros ? ? [= <- <-]; by right|]. case_bool_decide; by left.
Qed.

Lemma close_by_group_only g u s :
  sess_inv s ->
  let s' := (close_session_by_group hist_arg utcnow g u s).2 in
  s' = s \/ (session_allows g u false s /\ only_group g s s').
Proof.
  intros I. unfold close_session_by_group, session_allows. destruct (group_session g s) as [[o m]|] eqn:G; [|by left].
  case_bool_decide as O; [|by left]. destruct (group_session_ok _ _ _ _ _ _ I G) as (M & Id & F).
  unfold close_session, require_owned, id_session. unfold sid in Id. rewrite Id. cbn. rewrite M. cbn.
  rewrite bool_decide_eq_true_2 by done. right. split; [intros ? ? [= <- <-]; by left|]. by apply close_only.
Qed.

Lemma force_close_only g s :
  sess_inv s -> only_group g s (force_close_session_by_group hist_arg utcnow g s).2.
Proof.
  intros I. unfold force_close_session_by_group. destruct (group_session g s) as [[o m]|] eqn:G; [by apply close_only|apply only_refl].
Qed.

(** ** Queries change nothing but the clock *)

Variable history_dir : string -> option string.

Lemma merged_core g s :
  core (list_merged_history_snapshots_by_group hist_arg utcnow history_dir g s).2 = core s.
Proof. unfold list_merged_history_snapshots_by_group. by destruct (group_session g s) as [[o m]|]. Qed.

Lemma history_core g s : core (get_history_by_group hist_arg utcnow history_dir g s).2 = core s.
Proof.
  unfold get_history_by_group. destruct (group_session g s) as [[o m]|]; [done|].
  by destruct (load_persisted_history_snapshot _ _ _) as [[snap|]|].
Qed.

Lemma build_snapshots_core l s : core (build_snapshots hist_arg utcnow l s).2 = core s.
Proof.
  revert s. induction l as [|[g o] l IH]; intros s; [done|]. cbn [build_snapshots].
  destruct (sv_heap s !! o) as [m|]; [|apply IH]. unfold build_history_snapshot, read_now.
  match goal with |- context [build_snapshots _ _ l ?x] => specialize (IH x); destruct (build_snapshots hist_arg utcnow l x) end.
  exact IH.
Qed.

Lemma latest_core s : core (list_latest_history_snapshots hist_arg utcnow s).2 = core s.
Proof.
  unfold list_latest_history_snapshots. pose proof (build_snapshots_core (sv_by_group s) s) as H.
  by destruct (build_snapshots hist_arg utcnow (sv_by_group s) s).
Qed.
Lemma summaries_core s : core (list_history_summaries hist_arg utcnow s).2 = core s.
Proof.
  unfold list_history_summaries. pose proof (latest_core s) as H. by destruct (list_latest_history_snapshots hist_arg utcnow s).
Qed.

Lemma merged_all_core l s : core (merged_all hist_arg utcnow history_dir l s).2 = core s.
Proof.
  revert s. induction l as [|g l IH]; intros s; [done|]. cbn [merged_all]. pose proof (merged_core g s) as H.
  destruct (list_merged_history_snapshots_by_group _ _ _ g s) as [r s1]. cbn in H. specialize (IH s1).
  destruct (merged_all _ _ _ l s1) as [rest s2]. cbn in *. congruence.
Qed.
Lemma archives_core l f s : core (archives_of hist_arg utcnow history_dir l f s).2 = core s.
Proof.
  unfold archives_of. pose proof (merged_all_core (normalize_group_folders l) s) as H.
  by destruct (merged_all _ _ _ (normalize_group_folders l) s).
Qed.
End frames.

(** ** Requests *)

Create HintDb reads.

Section routes.
Context {GT MT ST : Type} `{Table GT string RegisteredGroup} `{Table MT (string * string) GroupMember}
  `{Table ST (string * string) ConversationSlot}.
Context `{!TableLaws GT string RegisteredGroup} `{!TableLaws MT (string * string) GroupMember}
  `{!TableLaws ST (string * string) ConversationSlot}.
Variable hist_arg : Z.
Variable uuid4_hex : nat -> string.
Variable utcnow : nat -> Z.
Variable container_name : string -> string -> option string.
Variable history_dir : string -> option string.

Local Abbreviation W := (tworld (GT := GT) (MT := MT) (ST := ST)).
Local Abbreviation TR := (M W http_error).
Implicit Types (w : W).

(** Looked at only: slots may have been made sure of, and the clock read. *)
Definition looked w w' : Prop := quiet (tw_db w) (tw_db w') /\ core (tw_service w') = core (tw_service w).
Definition reads {A} (m : TR A) : Prop := forall w, wf (tw_db w) -> wp m (fun _ => looked w) (looked w) w.

Lemma looked_refl w : looked w w.
Proof. split; [apply quiet_refl|done]. Qed.
Lemma looked_eta w : looked w (mkTWorld (tw_db w) (tw_service w)).
Proof. split; [apply quiet_refl|done]. Qed.
Lemma looked_trans w1 w2 w3 : looked w1 w2 -> looked w2 w3 -> looked w1 w3.
Proof. intros [A1 A2] [B1 B2]. split; [by eapply quiet_trans|congruence]. Qed.
Lemma looked_wf w w' : looked w w' -> wf (tw_db w) -> wf (tw_db w').
Proof. intros [Q _]. by apply quiet_wf. Qed.

Lemma wp_over_db {A} (m : M (db GT MT ST) http_error A) (Q : A -> W -> Prop) (X : W -> Prop) w :
  wp m (fun a d => Q a (mkTWorld d (tw_service w))) (fun d => X (mkTWorld d (tw_service w))) (tw_db w) ->
  wp (on_db m) Q X w.
Proof. unfold wp, on_db. by destruct (m (tw_db w)) as [[a|e] d]. Qed.

Lemma reads_ret {A} (a : A) : reads (mret a).
Proof. intros w _. apply looked_refl. Qed.
Lemma reads_throw {A} (e : http_error) : reads (throw e : TR A).
Proof. intros w _. apply looked_refl. Qed.
Lemma reads_bind {A B} (m : TR A) (f : A -> TR B) : reads m -> (forall a, reads (f a)) -> reads (a ← m; f a).
Proof.
  intros Hm Hf w C. apply wp_bind. eapply wp_mono; [by apply Hm| |done]. intros a w1 L. cbn in L.
  eapply wp_mono; [by apply Hf; eapply looked_wf| |]; cbn; [intros b w2|intros w2]; by apply looked_trans.
Qed.
Lemma reads_on_service {A} (f : service -> A * service) : (forall s, core (f s).2 = core s) -> reads (on_service f).
Proof.
  intros C w _. unfold wp, on_service. specialize (C (tw_service w)). destruct (f (tw_service w)) as [a s]. split; [apply quiet_refl|done].
Qed.
Lemma reads_query {A} (f : service -> result terminal_error A * service) :
  (forall s, core (f s).2 = core s) -> reads (service_query f).
Proof.
  intros C w _. unfold wp, service_query. specialize (C (tw_service w)).
  destruct (f (tw_service w)) as [[a|e] s]; (split; [apply quiet_refl|done]).
Qed.
Lemma reads_merged {A} g (q : _ -> result terminal_error A) : reads (merged_query hist_arg utcnow history_dir g q).
Proof.
  apply reads_query. intros s. pose proof (merged_core hist_arg utcnow history_dir g s) as C.
  by destruct (list_merged_history_snapshots_by_group hist_arg utcnow history_dir g s).
Qed.
Lemma reads_groups : reads (on_db (catching uncaught list_registered_groups)).
Proof. intros w _. apply wp_over_db. wp_step. unfold wp, list_registered_groups. cbn. apply looked_eta. Qed.
Lemma reads_can_open u g : is_web (rg_jid g) = true -> reads (user_can_open u g).
Proof.
  intros Web w _. apply wp_over_db. wp_step. unfold wp. rewrite access_web_group by done. apply looked_eta.
Qed.
Lemma reads_role u : reads (require_terminal_role u).
Proof. unfold require_terminal_role. destruct (_ || _); [apply reads_ret|apply reads_throw]. Qed.
Lemma reads_workspace g u now : reads (require_terminal_workspace g u now).
Proof.
  intros w C. apply wp_over_db. eapply wp_mono; [by apply require_accessible_spec| |].
  - intros ws d (Q & _). by split.
  - intros d Q. by split.
Qed.

Hint Resolve reads_ret reads_throw reads_groups reads_role reads_workspace reads_merged : reads.
Hint Resolve history_core latest_core summaries_core archives_core : reads.

Lemma reads_overview_items u se hi l :
  Forall (fun g => is_web (rg_jid g) = true) l -> reads (overview_items u se hi l).
Proof.
  induction 1 as [|g l Web F IH]; cbn [overview_items]; [apply reads_ret|]. case_bool_decide; [done|].
  apply reads_bind; [by apply reads_can_open|]. intros a. apply reads_bind; [done|]. intros b. apply reads_ret.
Qed.
Lemma reads_archive_entries u np ip af l : reads (archive_entries u np ip af l).
Proof.
  induction l as [|g l IH]; cbn [archive_entries]; [apply reads_ret|]. destruct (is_web (rg_jid g)) eqn:Web; [|done].
  cbn [negb]. case_bool_decide; [done|]. destruct (match ip with Some _ => _ | None => _ end); [done|].
  destruct (match np with Some _ => _ | None => _ end); [done|]. apply reads_bind; [by apply reads_can_open|].
  intros a. destruct (match af with Some _ => _ | None => _ end); [done|]. apply reads_bind; [done|]. intros b. apply reads_ret.
Qed.
Hint Resolve reads_archive_entries : reads.

Ltac reads :=
  repeat (lazymatch goal with |- reads (_ ≫= _) => apply reads_bind; [|intros ?] end);
  try lazymatch goal with
      | |- reads (on_service _) => apply reads_on_service
      | |- reads (service_query _) => apply reads_query
      end; auto with reads.

Lemma reads_overview u : reads (list_terminal_overview hist_arg utcnow u).
Proof.
  unfold list_terminal_overview. reads. apply reads_overview_items. apply Forall_forall. intros g.
  rewrite list_elem_of_In, filter_In. by intros [_ ?].
Qed.
Hint Resolve reads_overview : reads.

Lemma reads_search g q l o so f : reads (search_workspace hist_arg utcnow history_dir g q l o so f).
Proof. apply reads_merged. Qed.
Hint Resolve reads_search : reads.

(** The workspace whose session a request may change. *)
Definition target (r : terminal_request) : option string :=
  match r with TCreate g _ | TClose g | TForceClose g => Some g | _ => None end.

Lemma reads_handle u now r : target r = None ->
  reads (handle_terminal hist_arg uuid4_hex utcnow container_name history_dir u now r).
Proof.
  intros T. destruct r; try done; cbn [handle_terminal]; unfold discard; apply reads_bind; try (by intros; apply reads_ret).
  - apply reads_overview.
  - unfold export_terminal_overview. reads.
  - unfold export_terminal_latest_histories. reads. destruct (omap _ _); auto with reads.
  - unfold export_terminal_history_archive. reads. destruct (omap _ _); auto with reads.
  - unfold get_current_terminal_session. reads. destruct a1; auto with reads.
  - unfold get_current_terminal_session_history. reads.
  - unfold get_terminal_history_timeline. reads.
  - unfold export_terminal_history. reads.
  - unfold archive_terminal_history. reads.
  - unfold search_terminal_history_output. reads.
  - unfold export_terminal_history_search. reads.
  - unfold archive_terminal_history_search. reads. destruct (_ <? _)%Z; auto with reads.
  - unfold get_terminal_history_detail. reads.
  - unfold download_terminal_history_detail. reads.
Qed.

(** ** Who changes what *)

Definition terminal_role (u : AuthUser) : bool :=
  bool_decide (au_role u = Some "owner") || bool_decide (au_role u = Some "admin").

(** The request [r] of [u] may change the session of workspace [g], and changes no
    other. *)
Record may_touch (u : AuthUser) (r : terminal_request) (g : string) w w' : Prop := {
  mt_role : terminal_role u = true;
  mt_workspace : exists ws, workspace_of g ws (tw_db w') /\ may_access (au_id u) (au_role u) ws (tw_db w') = true;
  mt_session : match r with
               | TForceClose _ => True
               | TCreate _ _ => session_allows g (au_id u) true (tw_service w)
               | _ => session_allows g (au_id u) false (tw_service w)
               end;
  mt_only : only_group g (tw_service w) (tw_service w')
}.

Local Abbreviation touched u r g := (fun w w' => looked w w' \/ (quiet (tw_db w) (tw_db w') /\ may_touch u r g w w')).

(** The service call of a request that passed the checks. *)
Lemma touch_workspace {A} u r g now w (f : TerminalSessionRecord -> A) (op : string -> service -> reply * service) :
  wf (tw_db w) ->
  (let s := tw_service w in (op g s).2 = s \/
     (only_group g s (op g s).2 /\
      match r with
      | TForceClose _ => True
      | TCreate _ _ => session_allows g (au_id u) true s
      | _ => session_allows g (au_id u) false s
      end)) ->
  wp (discard (_ ← require_terminal_role u; ws ← require_terminal_workspace g u now; service_call f (op (rg_folder ws))))
    (fun _ => touched u r g w) (touched u r g w) w.
Proof.
  intros C Hop. unfold discard. do 2 apply wp_bind. unfold require_terminal_role. fold (terminal_role u).
  destruct (terminal_role u) eqn:Role; [|apply wp_throw; left; apply looked_refl]. apply wp_ret, wp_bind, wp_over_db.
  eapply wp_mono; [by apply require_accessible_spec| |intros d Q; left; by split].
  intros ws d (Q & Ws & Acc). unfold wp, service_call. cbn [tw_service tw_db].
  assert (F : rg_folder ws = g) by apply Ws. rewrite F. destruct (op g (tw_service w)) as [rep s'] eqn:E. cbn in Hop. rewrite E in Hop. cbn in Hop.
  assert (X : touched u r g w (mkTWorld d s')).
  { destruct Hop as [->|[Only Al]]; [left; by split|]. right. split; [done|]. split; [done|by exists ws|done|done]. }
  by destruct (respond f rep) as [[a|k]|e].
Qed.

Lemma refused_bind {A B} (m : TR A) (f : A -> TR B) e w : m w = (Err e, w) -> (m ≫= f) w = (Err e, w).
Proof. intros E. unfold mbind, M_bind. by rewrite E. Qed.

Hypothesis uuid_inj : forall i j, uuid4_hex i = uuid4_hex j -> i = j.
Variable reconnect_timeout : Z.

(** C23: A request to the terminal routes only changes the session it is about, and only
    where its user may. Whatever the request and its outcome: the groups stay as they
    are (but for a main slot that is made sure of); without the role of an owner or an
    admin it is refused and changes nothing at all; and it either leaves the sessions,
    their files and their bridges as they are, or it is a request to open, close or
    force-close the session of a workspace its user may access, the session was the user's own (or there was none,
    or an ended one, to open), or it is closed by force, and then no other session changes and no other bridge is called. *)
Theorem terminal_requests_authorized u now r w :
  wf (tw_db w) -> reach hist_arg reconnect_timeout uuid4_hex utcnow container_name history_dir (tw_service w) ->
  let h := handle_terminal hist_arg uuid4_hex utcnow container_name history_dir u now r in
  let w' := (h w).2 in
  quiet (tw_db w) (tw_db w') /\
  (terminal_role u = false -> h w = (Err forbidden, w)) /\
  (core (tw_service w') = core (tw_service w) \/ exists g, target r = Some g /\ may_touch u r g w w').
Proof.
  intros C R h w'. assert (I := reach_inv _ _ _ _ _ _ uuid_inj _ R).
  assert (X : looked w w' \/ exists g, target r = Some g /\ quiet (tw_db w) (tw_db w') /\ may_touch u r g w w').
  { destruct (target r) as [g|] eqn:T; [|left; by apply wp_after, reads_handle].
    assert (Y : touched u r g w w'); [|destruct Y as [Y|[Y1 Y2]]; [by left|right; by exists g]].
    apply wp_after. subst h. destruct r; try done; injection T as <-; cbn [handle_terminal].
    - unfold create_terminal_session. apply (touch_workspace u (TCreate group_id mode) group_id now w _
        (fun f => create_session uuid4_hex utcnow container_name group_id f (au_id u) mode)); [done|].
      destruct (create_refused uuid4_hex utcnow container_name group_id group_id (au_id u) mode (tw_service w)) as [E|Al]; [by left|].
      right. split; [by eapply create_only|done].
    - apply (touch_workspace u (TClose group_id) group_id now w (fun _ => "closed")
        (fun f => close_session_by_group hist_arg utcnow f (au_id u))); [done|].
      destruct (close_by_group_only hist_arg uuid4_hex utcnow group_id (au_id u) (tw_service w) I) as [E|[A B]]; [by left|by right].
    - apply (touch_workspace u (TForceClose group_id) group_id now w (fun _ => "closed")
        (fun f => force_close_session_by_group hist_arg utcnow f)); [done|].
      right. split; [by eapply force_close_only|done]. }
  split; [by destruct X as [[Q _]|(g & _ & Q & _)]|]. split.
  - intros Role. subst h. assert (G : require_terminal_role u w = (Err forbidden, w))
      by (unfold require_terminal_role; fold (terminal_role u); by rewrite Role).
    clear -G. destruct r; repeat (apply refused_bind); exact G.
  - destruct X as [[_ E]|(g & T & _ & M)]; [by left|right; by exists g].
Qed.
End routes.

(** ** File names *)

Lemma dash_runs_safe b l : forallb segment_char (dash_runs b l) = true.
Proof.
  revert b. induction l as [|c l IH]; intros b; [done|]. cbn. destruct (segment_char c) eqn:E; [by cbn; rewrite E, IH|].
  destruct b; [done|]. cbn. by rewrite IH.
Qed.

Lemma drop_while_safe p q l : forallb q l = true -> forallb q (drop_while p l) = true.
Proof.
  induction l as [|c l IH]; [done|]. cbn. intros [A B]%andb_true_iff. destruct (p c); [auto|]. cbn. by rewrite A, B.
Qed.
Lemma forallb_rev {A} (q : A -> bool) l : forallb q (rev l) = forallb q l.
Proof.
  induction l as [|c l IH]; [done|]. cbn. rewrite forallb_app, IH. cbn. by destruct (q c), (forallb q l).
Qed.

(** A part of a file name has characters of [A-Za-z0-9._-] only, at least one: no quote,
    separator or line break gets into the header. *)
Lemma sanitized_part_safe value :
  forallb segment_char (str_chars (sanitize_terminal_filename_part value)) = true /\
  sanitize_terminal_filename_part value <> "".
Proof.
  unfold sanitize_terminal_filename_part. case_bool_decide as E; [done|]. rewrite str_chars_of_chars. split.
  - unfold strip_dashes. rewrite forallb_rev. apply drop_while_safe. rewrite forallb_rev. apply drop_while_safe, dash_runs_safe.
  - intros X. apply E. by rewrite <- (str_chars_of_chars (strip_dashes _)), X.
Qed.

(** ** A concrete request *)

Definition rx_alice : AuthUser := gx_user "alice" "admin".
Definition rx_team : gx_db := (handle (fun _ => true) rx_alice 1 (RCreateGroup "team" "Team") gx_empty).2.
Definition rx_handle : AuthUser -> Z -> terminal_request -> M _ http_error unit :=
  handle_terminal (GT := gmap string RegisteredGroup) (MT := gmap (string * string) GroupMember)
    (ST := gmap (string * string) ConversationSlot) 8 ex_uuid ex_clock (fun _ _ => None) ex_dir.

Example rx_create : let w' := (rx_handle rx_alice 2 (TCreate "team" "container") (mkTWorld rx_team init_service)).2 in
  ts_owner_user_id ∘ md_record ∘ snd <$> group_session "team" (tw_service w') = Some "alice".
Proof. vm_compute. reflexivity. Qed.

Lemma terminal_requests_authorized_witness :
  let w := mkTWorld rx_team init_service in
  let h := rx_handle rx_alice 2 (TCreate "team" "container") in
  let w' := (h w).2 in
  quiet (tw_db w) (tw_db w') /\ (terminal_role rx_alice = false -> h w = (Err forbidden, w)) /\
  (core (tw_service w') = core (tw_service w) \/
   exists g, target (TCreate "team" "container") = Some g /\ may_touch rx_alice (TCreate "team" "container") g w w').
Proof.
  apply (terminal_requests_authorized 8 ex_uuid ex_clock (fun _ _ => None) ex_dir ex_uuid_inj 1000).
  - apply handle_good, gx_wf.
  - apply reach_init.
Defined.
