(* ===== verification/TerminalSocket.v ===== *)
(** * The terminal websocket ([app/routes/terminals.py])

    [terminal_websocket_endpoint] attaches a client to its session, forwards the events
    of the queue it was given in a task of its own and serves the messages of the client
    until it leaves. A system is the terminal session service with the sockets over it:
    every stretch of a handler between two suspensions is one step, and any event of the
    service (other clients, the routes, the bridges) can come in between. *)

From stdpp Require Import base gmap strings list option.
From Stdlib Require Import ZArith Ascii.
From S2P Require Import Prelude PyStr PyDict PyJson Auth TerminalHistory TerminalSessions Settings.

(** ** The client of a connection *)

(** [authorization.partition(" ")]: the scheme, and what follows the first space. *)
Fixpoint partition_space (l : list ascii) : list ascii * list ascii :=
  match l with
  | [] => ([], [])
  | c :: l => if bool_decide (c = " "%char) then ([], l) else let '(a, b) := partition_space l in (c :: a, b)
  end.
(** The token of the header, or else of the query. *)
Definition socket_token (authorization query_token : option string) : string :=
  let header :=
    match authorization with
    | Some h =>
        let '(scheme, token) := partition_space (str_chars h) in
        if bool_decide (lower (of_chars scheme) = "bearer") then of_chars token else ""
    | None => ""
    end in
  if bool_decide (header = "") then default "" query_token else header.

Section authenticate.
Variable jwt_decode : Z -> string -> option claims.
Variable utcnow : nat -> Z.
(** [_authenticate_websocket]. *)
Definition authenticate_websocket (authorization query_token : option string) (s : auth_state) : option AuthUser * auth_state :=
  let token := socket_token authorization query_token in
  if bool_decide (token = "") then (None, s)
  else
    let '(id, s) := decode_access_token jwt_decode utcnow token s in
    (id ≫= (fun id => od_get id (as_by_id s)), s).
End authenticate.

(** ** Frames and messages *)

Definition status_text (st : TerminalSessionStatus) : string :=
  match st with
  | TsCreated => "created" | TsAttached => "attached" | TsDetached => "detached"
  | TsClosed => "closed" | TsExited => "exited"
  end.

(** What the handler sends: the ready frame, an event, an error. *)
Inductive frame := FReady (r : TerminalSessionRecord) | FEvent (e : TerminalSessionEvent) | FError (detail : string).
Definition optional_field (k : string) (v : option json) : dict := match v with Some v => [(k, v)] | None => [] end.
Definition frame_json (f : frame) : json :=
  match f with
  | FReady r =>
      JObj [("type", JStr "terminal.ready"); ("session_id", JStr (ts_session_id r)); ("backend", JStr (ts_backend r));
            ("status", JStr (status_text (ts_status r)))]
  | FEvent e =>
      JObj (("type", JStr (ev_type e)) :: optional_field "data" (JStr <$> ev_data e) ++
            optional_field "exit_code" (JInt <$> ev_exit_code e) ++ optional_field "error" (JStr <$> ev_error e))
  | FError detail => JObj [("type", JStr "terminal.error"); ("error", JStr detail)]
  end.

(** What a message of the client asks for. *)
Inductive request := MInput (data : string) | MResize (cols rows : Z) | MClose | MInvalid (detail : string).
(** An [int], which a boolean is too. *)
Definition as_int (v : json) : option Z :=
  match v with JInt n => Some n | JBool b => Some (if b then 1%Z else 0%Z) | _ => None end.
Definition request_of (payload : dict) : request :=
  match field "type" payload with
  | JStr "terminal.input" =>
      match field "data" payload with
      | JStr data => MInput data
      | _ => MInvalid "terminal.input requires string data"
      end
  | JStr "terminal.resize" =>
      match as_int (field "cols" payload), as_int (field "rows" payload) with
      | Some cols, Some rows =>
          if ((cols <=? 0) || (rows <=? 0))%Z then MInvalid "terminal.resize requires positive integer cols and rows"
          else MResize cols rows
      | _, _ => MInvalid "terminal.resize requires positive integer cols and rows"
      end
  | JStr "terminal.close" => MClose
  | _ => MInvalid "unsupported terminal message type"
  end.
(** [None]: the plain [ValueError] of a huge integer, which is not caught. *)
Definition parse_message (message : string) : result json_error (option request) :=
  match json_loads message with
  | Ok (JObj payload) => Ok (Some (request_of payload))
  | Ok _ | Err JDecodeError => Ok (Some (MInvalid "invalid terminal message payload"))
  | Err JValueError => Ok None
  | Err JOutOfRange => Err JOutOfRange
  end.

(** ** Sockets *)

(** The task of [_forward_terminal_events]: its queue and how many events it has sent. *)
Inductive forwarder_state := FwRunning | FwCancelling | FwDone.
Record forwarder := mkForwarder { fw_queue : nat; fw_sent : nat; fw_state : forwarder_state }.

(** Where a handler is: waiting for [attach_session], for [accept], for the ready frame to
    be sent, for a message, for [close_session], for the forwarder it has cancelled, for
    [detach_session]. Only from [PReceiving] on is it within its [try]. *)
Inductive phase :=
| PAttaching (k : nat)
| PAccepting (record : TerminalSessionRecord) (queue : nat)
| PGreeting (record : TerminalSessionRecord) (queue : nat)
| PReceiving
| PClosing (k : nat)
| PStopping (explicitly_closed : bool)
| PDetaching (k : nat)
| POver.

Record socket := mkSocket {
  so_session : string;
  so_user : string;
  so_phase : phase;
  so_frames : list frame;
  so_forwarder : option forwarder
}.
Definition with_phase (p : phase) (x : socket) : socket :=
  mkSocket (so_session x) (so_user x) p (so_frames x) (so_forwarder x).
Definition with_frame (f : frame) (x : socket) : socket :=
  mkSocket (so_session x) (so_user x) (so_phase x) (so_frames x ++ [f]) (so_forwarder x).
Definition with_forwarder (f : option forwarder) (x : socket) : socket :=
  mkSocket (so_session x) (so_user x) (so_phase x) (so_frames x) f.

Record system := mkSystem { sy_service : service; sy_sockets : gmap nat socket }.
Definition set_socket (i : nat) (x : socket) (y : system) : system :=
  mkSystem (sy_service y) (<[i := x]> (sy_sockets y)).

Section sockets.
Variable history_max_bytes_arg : Z.
Variable reconnect_timeout : Z.
Variable uuid4_hex : nat -> string.
Variable utcnow : nat -> Z.
Variable container_name : string -> string -> option string.
Variable history_dir : string -> option string.

Local Abbreviation attach := (attach_session history_max_bytes_arg utcnow container_name).
Local Abbreviation detach := (detach_session history_max_bytes_arg reconnect_timeout utcnow).
Local Abbreviation close := (close_session history_max_bytes_arg utcnow).
Local Abbreviation service_step :=
  (step history_max_bytes_arg reconnect_timeout uuid4_hex utcnow container_name history_dir).

(** The [finally] block: a forwarder that is not done is cancelled and waited for. *)
Definition stop (explicitly_closed : bool) (x : socket) : socket :=
  let cancel f := match fw_state f with
                  | FwRunning => mkForwarder (fw_queue f) (fw_sent f) FwCancelling
                  | _ => f
                  end in
  with_phase (PStopping explicitly_closed) (with_forwarder (cancel <$> so_forwarder x) x).

(** The handler goes on with what a call of the service gives it. *)
Definition advance (r : reply) (x : socket) : socket :=
  match so_phase x with
  | PAttaching _ =>
      match r with
      | RWaits k => with_phase (PAttaching k) x
      | RQueue record q => with_phase (PAccepting record q) x
      | _ => with_phase POver x
      end
  | PClosing _ => match r with RWaits k => with_phase (PClosing k) x | _ => stop true x end
  | PDetaching _ => match r with RWaits k => with_phase (PDetaching k) x | _ => with_phase POver x end
  | _ => x
  end.
Definition waits_on (k : nat) (x : socket) : bool :=
  match so_phase x with PAttaching n | PClosing n | PDetaching n => bool_decide (n = k) | _ => false end.
Definition deliver (k : nat) (r : reply) (socks : gmap nat socket) : gmap nat socket :=
  (fun x => if waits_on k x then advance r x else x) <$> socks.

(** A connection of an authenticated user. *)
Definition connect (i : nat) (user session : string) (y : system) : system :=
  let '(r, s) := attach session user (sy_service y) in
  mkSystem s (<[i := advance r (mkSocket session user (PAttaching 0) [] None)]> (sy_sockets y)).

(** [accept] and then the sending of the ready frame are over; [ok] says whether the client
    was still there. An exception of either ends the handler before its [try]. *)
Definition accepted (x : socket) (ok : bool) : option socket :=
  match so_phase x with
  | PAccepting record q => Some (with_phase (if ok then PGreeting record q else POver) x)
  | _ => None
  end.
Definition greeted (x : socket) (ok : bool) : option socket :=
  match so_phase x with
  | PGreeting record q =>
      Some (if ok
            then with_phase PReceiving (with_forwarder (Some (mkForwarder q 0 FwRunning)) (with_frame (FReady record) x))
            else with_phase POver x)
  | _ => None
  end.

(** A message; [failed] is an exception of the bridge, or of the sending of an error. *)
Definition receive (i : nat) (x : socket) (message : string) (failed : bool) (y : system) : option system :=
  match parse_message message with
  | Err _ => None
  | Ok None => Some (set_socket i (stop false x) y)
  | Ok (Some m) =>
      let call op :=
        let '(r, s) := op (sy_service y) in
        let x := match r with RError _ => stop false x | _ => if failed then stop false x else x end in
        Some (mkSystem s (<[i := x]> (sy_sockets y))) in
      match m with
      | MInvalid detail => Some (set_socket i (if failed then stop false x else with_frame (FError detail) x) y)
      | MInput data => call (send_input (so_session x) (so_user x) data)
      | MResize cols rows => call (resize (so_session x) (so_user x) cols rows)
      | MClose =>
          let '(r, s) := close (so_session x) (so_user x) (sy_service y) in
          Some (mkSystem s (<[i := advance r (with_phase (PClosing 0) x)]> (sy_sockets y)))
      end
  end.

(** The forwarder takes the next event of its queue and sends it; [sent] says whether the
    client was still there. *)
Definition forward (i : nat) (x : socket) (sent : bool) (y : system) : option system :=
  match so_forwarder x with
  | Some f =>
      match fw_state f, default [] (sv_queues (sy_service y) !! fw_queue f) !! fw_sent f with
      | FwRunning, Some e =>
          let over := negb sent || bool_decide (ev_type e = "terminal.exit") in
          let f := mkForwarder (fw_queue f) (if sent then S (fw_sent f) else fw_sent f) (if over then FwDone else FwRunning) in
          Some (set_socket i (with_forwarder (Some f) (if sent then with_frame (FEvent e) x else x)) y)
      | _, _ => None
      end
  | None => None
  end.

(** The end of the forwarder is awaited, then the session detached unless the client has
    closed it; an error of that is swallowed. *)
Definition stopped (i : nat) (x : socket) (explicitly_closed : bool) (y : system) : system :=
  let done f := mkForwarder (fw_queue f) (fw_sent f) FwDone in
  let x := with_forwarder (done <$> so_forwarder x) x in
  if explicitly_closed then set_socket i (with_phase POver x) y
  else
    let '(r, s) := detach (so_session x) (so_user x) (sy_service y) in
    mkSystem s (<[i := advance r (with_phase (PDetaching 0) x)]> (sy_sockets y)).

Inductive socket_event :=
| VService (ev : event)
| VConnect (i : nat) (user session : string)
| VAccepted (i : nat) (ok : bool)
| VGreeted (i : nat) (ok : bool)
| VReceive (i : nat) (message : string) (failed : bool)
| VDisconnect (i : nat)
| VForward (i : nat) (sent : bool)
| VStopped (i : nat).

Definition socket_step (y : system) (ev : socket_event) : option system :=
  match ev with
  | VService ev =>
      match service_step (sy_service y) ev with
      | None => None
      | Some (r, s) =>
          Some (mkSystem s (match ev with EResume k _ => deliver k r (sy_sockets y) | _ => sy_sockets y end))
      end
  | VConnect i user session =>
      match sy_sockets y !! i with None => Some (connect i user session y) | Some _ => None end
  | VAccepted i ok =>
      match sy_sockets y !! i with
      | Some x => (fun x => set_socket i x y) <$> accepted x ok
      | None => None
      end
  | VGreeted i ok =>
      match sy_sockets y !! i with
      | Some x => (fun x => set_socket i x y) <$> greeted x ok
      | None => None
      end
  | VReceive i message failed =>
      match sy_sockets y !! i with
      | Some x => match so_phase x with PReceiving => receive i x message failed y | _ => None end
      | None => None
      end
  | VDisconnect i =>
      match sy_sockets y !! i with
      | Some x => match so_phase x with PReceiving => Some (set_socket i (stop false x) y) | _ => None end
      | None => None
      end
  | VForward i sent =>
      match sy_sockets y !! i with Some x => forward i x sent y | None => None end
  | VStopped i =>
      match sy_sockets y !! i with
      | Some x => match so_phase x with PStopping closed => Some (stopped i x closed y) | _ => None end
      | None => None
      end
  end.

(** Systems reached from a service without sockets. *)
Inductive sys_reach : system -> Prop :=
| sys_init s : reach history_max_bytes_arg reconnect_timeout uuid4_hex utcnow container_name history_dir s ->
    sys_reach (mkSystem s ∅)
| sys_step y ev y' : sys_reach y -> socket_step y ev = Some y' -> sys_reach y'.

Fixpoint run_sockets (evs : list socket_event) (y : system) : option system :=
  match evs with
  | [] => Some y
  | ev :: evs => y ← socket_step y ev; run_sockets evs y
  end.
End sockets.
