(* ===== verification/TerminalSocketProps.v ===== *)
(** * Properties of the terminal websocket *)

From stdpp Require Import base gmap strings list option sorting.
From Stdlib Require Import ZArith Lia Ascii.
From S2P Require Import Prelude PyStr PyDict PyJson Auth TerminalHistory TerminalSessions TerminalSessionsInv TerminalSessionsOps TerminalSessionsProps Settings TerminalSocket.

(** ** Queues only grow

    An event of the service puts its own events at the end of the queues there are, and
    makes new queues under new names. *)

Definition queue_of (q : nat) (s : service) : list TerminalSessionEvent := default [] (sv_queues s !! q).

(** The queue an [attach_session] under way will return. *)
Definition after_queue (a : after) : option nat := match a with AQueue _ q => Some q | _ => None end.
Definition kont_queue (k : kont) : option nat :=
  match k with
  | KCreate _ _ _ => None
  | KAttach _ _ _ q => Some q
  | KClose _ a | KPersist _ a | KAfter a => after_queue a
  end.
Definition konts_ok (s : service) : Prop :=
  forall n k q, sv_konts s !! n = Some k -> kont_queue k = Some q -> q < sv_next s.

(** The continuation that a step may take up: that of a resumption or of a cancelled
    callback. *)
Section grows.
Variable hot : nat.

Record grows (s s' : service) : Prop := {
  gr_next : sv_next s <= sv_next s';
  gr_queues : forall q, q < sv_next s -> exists l, queue_of q s' = queue_of q s ++ l;
  gr_konts : konts_ok s -> konts_ok s';
  gr_kept : forall k, k <> hot -> k < sv_next s -> sv_konts s' !! k = sv_konts s !! k
}.
(** A segment, with its reply. *)
Record goes (s : service) (p : reply * service) : Prop := {
  go_grows : grows s p.2;
  go_reply : konts_ok s -> forall r q, p.1 = RQueue r q -> q < sv_next p.2
}.

Create HintDb grows.

Lemma grows_refl s : grows s s.
Proof. split; [done| |done|done]. intros q _. exists []. by rewrite app_nil_r. Qed.
Lemma grows_trans s1 s2 s3 : grows s1 s2 -> grows s2 s3 -> grows s1 s3.
Proof.
  intros [N1 Q1 K1 T1] [N2 Q2 K2 T2]. split; [lia| |auto|].
  - intros q L. destruct (Q1 q L) as [l E1].
    destruct (Q2 q ltac:(lia)) as [l' E2]. exists (l ++ l'). by rewrite E2, E1, app_assoc.
  - intros k Nk L. rewrite T2, T1; [done..|lia].
Qed.

(** Changes to neither queues nor continuations. *)
Lemma grows_same s s' :
  sv_next s <= sv_next s' -> sv_queues s' = sv_queues s -> sv_konts s' = sv_konts s -> grows s s'.
Proof.
  intros N Q K. split; [done| | |by intros; rewrite K].
  - intros q _. exists []. unfold queue_of. by rewrite Q, app_nil_r.
  - intros O n k q. rewrite K. intros E1 E2. specialize (O n k q E1 E2). lia.
Qed.
Lemma grows_managed o m s : grows s (set_managed o m s).
Proof. by apply grows_same. Qed.
Lemma grows_cancel o m s : grows s (cancel_reconnect_task o m s).2.
Proof. unfold cancel_reconnect_task. rewrite cancel_task_eq. by apply grows_same. Qed.
Lemma grows_drop o m s : grows s (drop_session o m s).
Proof. unfold drop_session, cancel_reconnect_task. rewrite cancel_task_eq. by apply grows_same. Qed.
Lemma grows_tasks t s : grows s (with_tasks t s).
Proof. by apply grows_same. Qed.
Lemma grows_end_task t s : grows s (end_task t s).
Proof. unfold end_task. destruct (sv_tasks s !! t) as [x|]; [destruct (xt_state x)|]; by apply grows_same. Qed.
Lemma grows_persist dir snap s : grows s (persist dir snap s).
Proof. unfold persist. repeat (case_match; try done); by apply grows_same. Qed.
Lemma grows_put q e s : grows s (put_event q e s).
Proof.
  split; [done| |done|done]. intros q' _. unfold queue_of, put_event. cbn. destruct (decide (q = q')) as [<-|N].
  - rewrite lookup_insert_eq. by exists [e].
  - rewrite lookup_insert_ne by done. exists []. by rewrite app_nil_r.
Qed.
Lemma grows_put_opt p s : grows s (put_opt p s).
Proof. destruct p as [[q e]|]; [apply grows_put|apply grows_refl]. Qed.
Lemma grows_kont n k s :
  n = hot \/ sv_next s <= n -> (forall q, kont_queue k = Some q -> q < sv_next s) -> grows s (with_konts (<[n := k]> (sv_konts s)) s).
Proof.
  intros Hn H. split; [done| | |intros k' Nk L; cbn; rewrite lookup_insert_ne; [done|]; lia].
  - intros q _. exists []. by rewrite app_nil_r.
  - intros O n' k' q'. cbn. intros [[<- <-]|[_ E]]%lookup_insert_Some; [apply H|by apply (O n')].
Qed.
Lemma grows_resumed s : grows s (with_konts (delete hot (sv_konts s)) s).
Proof.
  split; [done| | |intros k' Nk L; cbn; by rewrite lookup_delete_ne].
  - intros q _. exists []. by rewrite app_nil_r.
  - intros O n' k' q'. cbn. intros [_ E]%lookup_delete_Some. by apply (O n').
Qed.
Hint Resolve grows_refl grows_managed grows_cancel grows_drop grows_tasks grows_end_task grows_persist grows_put
  grows_put_opt grows_resumed : grows.

Lemma goes_here r s : (forall x q, r <> RQueue x q) -> goes s (r, s).
Proof. intros N. split; [apply grows_refl|]. intros _ x q E. by destruct (N x q). Qed.
Lemma goes_after s s1 p : grows s s1 -> goes s1 p -> goes s p.
Proof. intros G [G1 R]. split; [by eapply grows_trans|]. intros O. apply R. by apply G. Qed.

Lemma goes_suspend k s s0 :
  sv_next s0 <= sv_next s -> sv_queues s = sv_queues s0 -> sv_konts s = sv_konts s0 ->
  (forall q, kont_queue k = Some q -> q < sv_next s) ->
  goes s0 (RWaits (sv_next s), with_konts (<[sv_next s := k]> (sv_konts s)) (with_next (S (sv_next s)) s)).
Proof.
  intros N Q K H. split; [|done]. cbn. apply (grows_trans _ s); [by apply grows_same|].
  split; cbn; [lia|intros q _; exists []; by rewrite app_nil_r| |].
  - intros O n' k' q'. cbn. intros [[<- <-]|[_ E]]%lookup_insert_Some E'; [specialize (H q' E')|specialize (O n' k' q' E E')]; lia.
  - intros n' _ L. rewrite lookup_insert_ne; [done|lia].
Qed.
Lemma goes_call b c k s : (forall q, kont_queue k = Some q -> q < sv_next s) -> goes s (await_call b c k s).
Proof. intros H. by apply (goes_suspend k (call_bridge b c s) s). Qed.
Lemma goes_persist snap a s : (forall q, after_queue a = Some q -> q < sv_next s) -> goes s (await_persist snap a s).
Proof. intros H. by apply (goes_suspend (KPersist snap a) s s). Qed.

Section service.
Variable history_max_bytes_arg : Z.
Variable reconnect_timeout : Z.
Variable uuid4_hex : nat -> string.
Variable utcnow : nat -> Z.
Variable container_name : string -> string -> option string.
Variable history_dir : string -> option string.

Local Abbreviation build := (build_history_snapshot history_max_bytes_arg utcnow).
Local Abbreviation service_step :=
  (step history_max_bytes_arg reconnect_timeout uuid4_hex utcnow container_name history_dir).
Local Abbreviation reach :=
  (reach history_max_bytes_arg reconnect_timeout uuid4_hex utcnow container_name history_dir).

Lemma grows_build m s : grows s (build m s).2.
Proof. by apply grows_same. Qed.
Hint Resolve grows_build : grows.

Lemma goes_built a m s s0 :
  grows s0 s -> after_queue a = None ->
  goes s0 (let '(snap, s1) := build m s in await_persist snap a s1).
Proof.
  intros G A. apply (goes_after _ s); [done|]. apply (goes_after _ (build m s).2); [apply grows_build|].
  apply goes_persist. by rewrite A.
Qed.

Lemma goes_close o m s : goes s (close_managed history_max_bytes_arg utcnow o m s).
Proof.
  unfold close_managed. pose proof (grows_cancel o m s) as G. destruct (cancel_reconnect_task o m s) as [m1 s1]. cbn in G.
  cbv zeta. set (m2 := md_with_record _ _). apply (goes_after _ s1); [done|]. apply (goes_after _ (set_managed o m2 s1)); [apply grows_managed|].
  pose proof (grows_build m2 (set_managed o m2 s1)) as B. destruct (build m2 _) as [snap s2]. cbn in B.
  apply (goes_after _ s2); [done|]. destruct (md_bridge m2); [by apply goes_call|by apply goes_persist].
Qed.
Lemma goes_close_session i u s : goes s (close_session history_max_bytes_arg utcnow i u s).
Proof. unfold close_session. destruct (require_owned i u s) as [[o m]|]; [apply goes_close|by apply goes_here]. Qed.

Lemma goes_detach i u s : goes s (detach_session history_max_bytes_arg reconnect_timeout utcnow i u s).
Proof.
  unfold detach_session. destruct (require_owned i u s) as [[o m]|]; [|by apply goes_here]. unfold read_now, fresh. cbv zeta.
  match goal with |- context [cancel_reconnect_task o ?m' ?s'] => pose proof (grows_cancel o m' s') as G; destruct (cancel_reconnect_task o m' s') as [m1 s1] end.
  cbn in G. apply (goes_after _ s1); [eapply grows_trans; [|exact G]; by apply grows_same|].
  apply goes_built; [|done]. apply grows_same; cbn; [lia|done|done].
Qed.

Lemma goes_use i u c s : goes s (use_bridge i u c s).
Proof.
  unfold use_bridge. destruct (require_owned i u s) as [[o m]|]; [|by apply goes_here].
  destruct (md_bridge m); [|by apply goes_here]. apply (goes_after _ (call_bridge n c s)); [by apply grows_same|by apply goes_here].
Qed.

Lemma goes_create_new gid g u backend s : goes s (create_new uuid4_hex utcnow container_name gid g u backend s).
Proof.
  unfold create_new, fresh, read_now. cbv zeta.
  match goal with |- goes s (await_call ?b ?c ?k ?s') => apply (goes_after _ s'); [apply grows_same; cbn; [lia|done|done]|by apply goes_call] end.
Qed.
Lemma goes_create gid g u mode s : goes s (create_session uuid4_hex utcnow container_name gid g u mode s).
Proof.
  unfold create_session. destruct (resolve_backend mode); [|by apply goes_here].
  destruct (group_session g s) as [[o m]|]; [|apply goes_create_new].
  destruct (archive_status _); [eapply goes_after; [apply grows_drop|apply goes_create_new]|].
  case_bool_decide; by apply goes_here.
Qed.

(** The queue of a new client is one nobody has. *)
Lemma grows_new_queue l s : grows s (with_queues (<[sv_next s := l]> (sv_queues s)) (with_next (S (sv_next s)) s)).
Proof.
  split; cbn; [lia| | |done].
  - intros q L. exists []. unfold queue_of. cbn. rewrite lookup_insert_ne by lia. by rewrite app_nil_r.
  - intros O n k q E1 E2. specialize (O n k q E1 E2). cbn. lia.
Qed.

Lemma goes_attach i u s : goes s (attach_session history_max_bytes_arg utcnow container_name i u s).
Proof.
  unfold attach_session. destruct (require_owned i u s) as [[o m]|]; [|by apply goes_here].
  pose proof (grows_cancel o m s) as G. destruct (cancel_reconnect_task o m s) as [m1 s1]. cbn in G. unfold fresh, read_now. cbv zeta.
  apply (goes_after _ s1); [done|]. set (q := sv_next s1).
  match goal with |- context [with_queues (<[q := ?l]> ?qs) ?s'] => set (s2 := with_queues (<[q := l]> qs) s');
    apply (goes_after _ s2); [apply (grows_new_queue l s1)|] end.
  assert (L : q < sv_next s2) by (cbn; lia). clearbody s2.
  match goal with |- context [md_bridge ?m'] => destruct (md_bridge m') end.
  - match goal with |- goes s2 (let '(_, _) := build ?m' ?s' in _) =>
      apply (goes_after _ s'); [by apply grows_same|]; apply (goes_after _ (build m' s').2); [apply grows_build|] end.
    apply goes_persist. intros q' [= <-]. exact L.
  - match goal with |- goes s2 (let '(_, _) := build ?m' ?s' in _) =>
      apply (goes_after _ s'); [apply grows_same; cbn; [lia|done|done]|]; apply (goes_after _ (build m' s').2); [apply grows_build|] end.
    apply goes_call. intros q' [= <-]. cbn. lia.
Qed.

Lemma goes_bridge i e s : goes s (handle_bridge_event history_max_bytes_arg utcnow i e s).
Proof.
  unfold handle_bridge_event. destruct (id_session i s) as [[o m]|]; [|by apply goes_here]. cbv zeta.
  case_bool_decide; [destruct (be_data e)|case_bool_decide; [|case_bool_decide]].
  - apply goes_built; [by apply grows_same|done].
  - eapply goes_after; [apply grows_put_opt|by apply goes_here].
  - pose proof (grows_cancel o m s) as G. destruct (cancel_reconnect_task o m s) as [m1 s1]. cbn in G.
    apply goes_built; [|done]. eapply grows_trans; [exact G|by apply grows_same].
  - eapply goes_after; [apply grows_put_opt|by apply goes_here].
  - by apply goes_here.
Qed.

Lemma goes_cancel_callback n s p : n = hot -> cancel_callback n s = Some p -> goes s p.
Proof.
  intros Hn.
  assert (C : forall a a', cancel_put a s = Some a' -> after_queue a' = None).
  { intros a a'. unfold cancel_put. destruct a as [| | | |? ? [b|] ?| |]; try done. case_bool_decide; [|done]. by intros [= <-]. }
  unfold cancel_callback. destruct (sv_konts s !! n) as [[| | |snap a|a]|]; try done.
  - destruct (cancel_put a s) as [a'|] eqn:E; [|done]. intros [= <-]. split; [|done].
    apply (grows_kont n (KPersist snap a') s); [by left|]. intros q Hq. cbn in Hq. by rewrite (C a a' E) in Hq.
  - destruct (cancel_put a s) as [a'|] eqn:E; [|done]. intros [= <-]. split; [|done].
    apply (grows_kont n (KAfter a') s); [by left|]. intros q Hq. cbn in Hq. by rewrite (C a a' E) in Hq.
Qed.

Lemma goes_expire t s p : expire_detached_session history_max_bytes_arg utcnow t s = Some p -> goes s p.
Proof.
  unfold expire_detached_session. destruct (sv_tasks s !! t) as [x|]; [|done]. destruct (xt_state x); try done. cbv zeta.
  assert (D : goes s (RNone, with_tasks (<[t := mkTask (xt_session x) (xt_deadline x) TkDone]> (sv_tasks s)) s))
    by (eapply goes_after; [apply grows_tasks|by apply goes_here]).
  destruct (id_session _ s) as [[o m]|]; [|by intros [= <-]]. case_bool_decide; [|by intros [= <-]]. case_bool_decide; [|by intros [= <-]].
  match goal with |- context [build ?m' ?s'] => assert (G : grows s s') by (by apply grows_same); pose proof (grows_build m' s') as B;
    destruct (build m' s') as [snap s1] end.
  cbn in B. destruct (md_bridge _); intros [= <-]; (eapply goes_after; [eapply grows_trans; [exact G|exact B]|]);
    [by apply goes_call|by apply goes_persist].
Qed.

Lemma goes_finish a s : (forall q, after_queue a = Some q -> q < sv_next s) -> goes s (finish a s).
Proof.
  intros H. destruct a; cbn [finish]; try by apply goes_here.
  - split; [apply grows_refl|]. intros _ r' q' [= <- <-]. by apply H.
  - destruct (sv_heap s !! object); by apply goes_here.
  - eapply goes_after; [apply grows_put_opt|by apply goes_here].
  - eapply goes_after; [apply grows_end_task|by apply goes_here].
Qed.

Lemma goes_resume n failed s p :
  n = hot -> konts_ok s -> resume history_max_bytes_arg utcnow history_dir n failed s = Some p -> goes s p.
Proof.
  intros Hn O. unfold resume. destruct (sv_konts s !! n) as [k|] eqn:K; [|done]. cbv zeta.
  assert (G := grows_resumed s). rewrite <- Hn in G. set (s1 := with_konts (delete n (sv_konts s)) s) in *.
  assert (Hk : forall q, kont_queue k = Some q -> q < sv_next s1) by (intros q; by apply (O n)). intros E. apply (inj Some) in E. subst p.
  apply (goes_after _ s1); [exact G|]. clearbody s1. clear G K O. destruct k as [i g r|i snap r q|snap a|snap a|a]; cbn [kont_queue] in Hk.
  - destruct failed; [by apply goes_here|]. destruct (id_session i s1) as [[o m]|]; [by apply goes_built; [apply grows_refl|]|by apply goes_finish].
  - destruct failed as [msg|]; [|apply goes_persist; intros q' [= <-]; by apply Hk].
    destruct (id_session i s1) as [[o m]|]; [|by apply goes_finish]. cbv zeta. by apply goes_built; [apply grows_managed|].
  - destruct (close_outcome a failed s1) as [msg|]; [|by apply goes_persist].
    apply (goes_after _ (match a with ATask t => end_task t s1 | _ => s1 end)); [destruct a; auto with grows|by apply goes_here].
  - set (s2 := match failed with None => persist history_dir snap s1 | Some _ => s1 end).
    assert (P : grows s1 s2) by (subst s2; destruct failed; auto with grows).
    apply (goes_after _ s2); [done|]. split; [|done]. apply (grows_kont n (KAfter a) s2); [by left|]. intros q E. cbn in E.
    pose proof (gr_next _ _ P). specialize (Hk q E). lia.
  - by apply goes_finish.
Qed.

Definition takes_up (ev : event) : Prop :=
  match ev with EResume n _ | ECancelCallback n => n = hot | _ => True end.

Lemma goes_step s ev p : takes_up ev -> konts_ok s -> service_step s ev = Some p -> goes s p.
Proof.
  intros Tk O. destruct ev; cbn [step]; try (intros [= <-]).
  - apply goes_create.
  - apply goes_attach.
  - apply goes_detach.
  - apply goes_close_session.
  - unfold close_session_by_group. destruct (group_session _ s) as [[o m]|]; [|by apply goes_here].
    case_bool_decide; [apply goes_close_session|by apply goes_here].
  - unfold force_close_session_by_group. destruct (group_session _ s) as [[o m]|]; [apply goes_close|by apply goes_here].
  - apply goes_use.
  - apply goes_use.
  - destruct (bridge_ready _ _ s); [|done]. intros [= <-]. apply goes_bridge.
  - by apply goes_cancel_callback.
  - apply goes_expire.
  - by apply goes_resume.
Qed.

End service.
End grows.

Section props.
Variable history_max_bytes_arg : Z.
Variable reconnect_timeout : Z.
Variable uuid4_hex : nat -> string.
Variable utcnow : nat -> Z.
Variable container_name : string -> string -> option string.
Variable history_dir : string -> option string.

Local Abbreviation service_step :=
  (step history_max_bytes_arg reconnect_timeout uuid4_hex utcnow container_name history_dir).
Local Abbreviation reach :=
  (reach history_max_bytes_arg reconnect_timeout uuid4_hex utcnow container_name history_dir).

(** The continuation an event takes up, and any other for the rest. *)
Definition taken (ev : event) : nat := match ev with EResume n _ | ECancelCallback n => n | _ => 0 end.

Lemma step_goes s ev p : konts_ok s -> service_step s ev = Some p -> goes (taken ev) s p.
Proof. apply goes_step. by destruct ev. Qed.

Lemma recover_konts l s : sv_konts s = ∅ -> sv_konts (foldl (recover_one history_max_bytes_arg) s l) = ∅.
Proof.
  revert s. induction l as [|snap l IH]; intros s E; [done|]. cbn. apply IH. unfold recover_one.
  repeat (case_match; try done).
Qed.

Lemma reach_konts s : reach s -> konts_ok s.
Proof.
  induction 1 as [|s R IH|s ev r s' R IH E].
  - intros n k q. cbn. by rewrite lookup_empty.
  - intros n k q. unfold recover_active_sessions. rewrite recover_konts by done. by rewrite lookup_empty.
  - apply (gr_konts _ _ _ (go_grows _ _ _ (step_goes _ _ _ IH E))), IH.
Qed.

(** ** What a socket has sent *)

Definition event_frame (f : frame) : option TerminalSessionEvent := match f with FEvent e => Some e | _ => None end.
Definition sent (x : socket) : list TerminalSessionEvent := omap event_frame (so_frames x).
Definition is_exit (e : TerminalSessionEvent) : Prop := ev_type e = "terminal.exit".

(** Where the forwarder can be in each phase of the handler. *)
Definition phase_ok (p : phase) (st : forwarder_state) : Prop :=
  match p with
  | PAttaching _ | PAccepting _ _ | PGreeting _ _ => False
  | PReceiving | PClosing _ => st <> FwCancelling
  | PStopping _ => st <> FwRunning
  | PDetaching _ | POver => st = FwDone
  end.

Record forwards (s : service) (x : socket) (f : forwarder) : Prop := {
  fo_queue : fw_queue f < sv_next s;
  fo_sent : exists rest, queue_of (fw_queue f) s = sent x ++ rest;
  fo_count : length (sent x) = fw_sent f;
  fo_exit : forall l e, sent x = l ++ [e] -> Forall (fun e => ~ is_exit e) l /\ (is_exit e -> fw_state f = FwDone);
  fo_ready : exists r, head (so_frames x) = Some (FReady r);
  fo_phase : phase_ok (so_phase x) (fw_state f)
}.
Definition sock_ok (s : service) (x : socket) : Prop :=
  match so_forwarder x with
  | None =>
      so_frames x = [] /\
      match so_phase x with
      | PAttaching _ | POver => True
      | PAccepting _ q | PGreeting _ q => q < sv_next s
      | _ => False
      end
  | Some f => forwards s x f
  end.

Lemma sock_grows h s s' x : grows h s s' -> sock_ok s x -> sock_ok s' x.
Proof.
  intros G. unfold sock_ok. destruct (so_forwarder x) as [f|].
  2: { pose proof (gr_next _ _ _ G). intros [F P]. split; [done|]. destruct (so_phase x); [done|lia..|done|done|done|done|done]. }
  intros [Q [rest R] C E H P]. split; try done.
  - pose proof (gr_next _ _ _ G). lia.
  - destruct (gr_queues _ _ _ G _ Q) as [l Hl]. exists (rest ++ l). by rewrite Hl, R, app_assoc.
Qed.

Lemma stop_ok s c x : sock_ok s x -> so_phase x = PReceiving \/ (exists k, so_phase x = PClosing k) -> sock_ok s (stop c x).
Proof.
  unfold sock_ok. destruct x as [i u p fr [f|]]; cbn; [|intros [_ F] [->|[k ->]]; done].
  intros [Q R C E H P] _. destruct f as [q n []]; split; try done; cbn in *.
  all: try (intros l e Hl; by destruct (E l e Hl) as [A B]; split; [|intros X; specialize (B X)]).
Qed.

Lemma advance_ok s r x :
  (forall rec q, r = RQueue rec q -> q < sv_next s) -> sock_ok s x -> sock_ok s (advance r x).
Proof.
  intros L O. unfold advance. destruct (so_phase x) as [k|rc qc|rc qc| |k|c|k|] eqn:P; try done.
  - assert (N : so_forwarder x = None /\ so_frames x = []).
    { unfold sock_ok in O. destruct (so_forwarder x) as [f|]; [destruct O as [_ _ _ _ _ X]; by rewrite P in X|by destruct O]. }
    destruct N as [N F]. destruct r; unfold sock_ok; cbn [with_phase so_forwarder so_frames so_phase]; rewrite ?N; try done.
    split; [done|by eapply L].
  - destruct r; try (apply stop_ok; [done|right; by eexists]).
    unfold sock_ok in *. cbn [with_phase so_forwarder so_frames so_phase]. destruct (so_forwarder x) as [f|]; [|by rewrite P in O; destruct O].
    destruct O as [A B C D H X]. rewrite P in X. by split.
  - unfold sock_ok in *. destruct (so_forwarder x) as [f|] eqn:Ef; [|by rewrite P in O; destruct O].
    destruct O as [A B C D H X]. rewrite P in X. by destruct r; cbn; rewrite Ef; split.
Qed.

(** A socket without a forwarder yet, and its first frame. *)
Lemma early_ok s x : sock_ok s x -> (exists k r q, so_phase x = PAttaching k \/ so_phase x = PAccepting r q \/ so_phase x = PGreeting r q) ->
  so_forwarder x = None /\ so_frames x = [].
Proof.
  unfold sock_ok. intros O (k & r & q & P). destruct (so_forwarder x) as [f|]; [|by destruct O].
  destruct O as [_ _ _ _ _ X]. by destruct P as [P|[P|P]]; rewrite P in X.
Qed.
Lemma accepted_ok s x ok x' : sock_ok s x -> accepted x ok = Some x' -> sock_ok s x'.
Proof.
  intros O. unfold accepted. destruct (so_phase x) as [|r q| | | | | |] eqn:P; try done. intros [= <-].
  destruct (early_ok s x O) as [N F]; [exists 0, r, q; tauto|]. unfold sock_ok in *. rewrite N, P in O. cbn. rewrite N.
  split; [done|]. destruct ok; [apply O|done].
Qed.
Lemma greeted_ok s x ok x' : sock_ok s x -> greeted x ok = Some x' -> sock_ok s x'.
Proof.
  intros O. unfold greeted. destruct (so_phase x) as [| |r q| | | | |] eqn:P; try done. intros [= <-].
  destruct (early_ok s x O) as [N F]; [exists 0, r, q; tauto|]. unfold sock_ok in O. rewrite N, P in O. destruct ok; unfold sock_ok; cbn; [|by rewrite N].
  split; cbn; [apply O| | | | |done]; unfold sent; cbn; rewrite F; cbn; [by eexists|done| |by eexists].
  intros l e X. symmetry in X. by apply app_nil in X as [_ ?].
Qed.

Lemma error_ok s d x : sock_ok s x -> so_phase x = PReceiving -> sock_ok s (with_frame (FError d) x).
Proof.
  unfold sock_ok. destruct x as [i u p fr [f|]]; cbn; [|intros [_ F] ->; done]. intros [Q R C E [r H] P] _.
  assert (S : sent (with_frame (FError d) (mkSocket i u p fr (Some f))) = sent (mkSocket i u p fr (Some f)))
    by (unfold sent; cbn; by rewrite omap_app, app_nil_r).
  unfold with_frame in S. cbn in S. split; cbn; rewrite ?S; try done. exists r. by destruct fr.
Qed.

Lemma forward_ok i x snt y y' :
  sock_ok (sy_service y) x -> forward i x snt y = Some y' ->
  exists x', y' = set_socket i x' y /\ sock_ok (sy_service y) x'.
Proof.
  unfold forward, sock_ok at 1. destruct (so_forwarder x) as [f|] eqn:Ef; [|done]. intros [Q [rest R] C E [r H] P].
  destruct (fw_state f) eqn:St; try done. fold (queue_of (fw_queue f) (sy_service y)).
  destruct (queue_of (fw_queue f) (sy_service y) !! fw_sent f) as [e|] eqn:L; [|done]. intros [= <-].
  assert (NE : Forall (fun e => ~ is_exit e) (sent x)).
  { destruct (sent x) as [|a l _] using rev_ind; [constructor|]. destruct (E l a eq_refl) as [A B]. apply Forall_app. split; [done|].
    apply Forall_singleton. intros X. by specialize (B X). }
  eexists. split; [done|]. unfold sock_ok. cbn [with_forwarder so_forwarder].
  assert (Pd : phase_ok (so_phase x) FwDone) by (by destruct (so_phase x)).
  rewrite R, <- C, lookup_app_r, Nat.sub_diag in L by done. destruct rest as [|e' rest]; [done|]. injection L as ->.
  destruct snt; cbn [negb orb].
  - assert (S : sent (with_frame (FEvent e) x) = sent x ++ [e]) by (unfold sent; cbn; by rewrite omap_app).
    unfold with_forwarder, with_frame, sent in *. cbn [so_frames so_session so_user so_phase so_forwarder] in *.
    split; cbn [fw_queue fw_sent fw_state so_frames so_phase]; unfold sent; cbn [so_frames]; rewrite ?S.
    + done.
    + exists rest. by rewrite R, <- app_assoc.
    + rewrite length_app, C. cbn. lia.
    + intros l a X. apply app_inj_tail in X as [<- <-]. split; [done|]. unfold is_exit. intros ->. by rewrite bool_decide_eq_true_2.
    + exists r. by destruct (so_frames x).
    + by case_bool_decide.
  - split; try done; [by exists (e :: rest)| |by exists r]. intros l a X. by destruct (E l a X) as [A B].
Qed.

Definition sys_ok (y : system) : Prop := forall i x, sy_sockets y !! i = Some x -> sock_ok (sy_service y) x.

Lemma sys_ok_set i x y : sys_ok y -> sock_ok (sy_service y) x -> sys_ok (set_socket i x y).
Proof. intros O X j z. cbn. intros [[<- <-]|[_ E]]%lookup_insert_Some; [done|by apply (O j)]. Qed.

Lemma sys_ok_goes h s' r i x y :
  konts_ok (sy_service y) -> goes h (sy_service y) (r, s') -> sys_ok y -> sock_ok (sy_service y) x ->
  sys_ok (mkSystem s' (<[i := advance r x]> (sy_sockets y))).
Proof.
  intros K G O X j z. cbn. pose proof (go_grows _ _ _ G) as Gr. cbn in Gr.
  intros [[<- <-]|[_ E]]%lookup_insert_Some; [|eapply sock_grows; [done|by apply (O j)]].
  apply advance_ok; [|by eapply sock_grows]. intros rec q ->. by eapply (go_reply _ _ _ G).
Qed.

Local Abbreviation socket_step :=
  (socket_step history_max_bytes_arg reconnect_timeout uuid4_hex utcnow container_name history_dir).
Local Abbreviation sys_reach :=
  (sys_reach history_max_bytes_arg reconnect_timeout uuid4_hex utcnow container_name history_dir).

Definition sys_inv (y : system) : Prop := reach (sy_service y) /\ sys_ok y.

(** A call of the service by the handler of socket [i]. *)
Lemma inv_call ev r s' i x y :
  service_step (sy_service y) ev = Some (r, s') -> sys_inv y -> sock_ok (sy_service y) x ->
  sys_inv (mkSystem s' (<[i := advance r x]> (sy_sockets y))) /\ grows (taken ev) (sy_service y) s'.
Proof.
  intros E [R O] X. pose proof (reach_konts _ R) as K. pose proof (step_goes _ _ _ K E) as G.
  split; [|apply (go_grows _ _ _ G)]. split; [by eapply reach_step|]. by apply (sys_ok_goes (taken ev)).
Qed.

Lemma inv_set i x y : sys_inv y -> sock_ok (sy_service y) x -> sys_inv (set_socket i x y).
Proof. intros [R O] X. split; [done|]. by apply sys_ok_set. Qed.

Lemma inv_receive i x message failed y y' :
  sys_inv y -> sy_sockets y !! i = Some x -> so_phase x = PReceiving ->
  receive history_max_bytes_arg utcnow i x message failed y = Some y' -> sys_inv y'.
Proof.
  intros I E P. pose proof (proj2 I i x E) as X. unfold receive. destruct (parse_message message) as [[m|]|]; [| |done].
  2: { intros [= <-]. apply inv_set; [done|]. apply stop_ok; [done|by left]. }
  assert (Call : forall ev r s', service_step (sy_service y) ev = Some (r, s') ->
    sys_inv (mkSystem s' (<[i := match r with RError _ => stop false x | _ => if failed then stop false x else x end]> (sy_sockets y)))).
  { intros ev r s' Es. destruct I as [R O]. pose proof (step_goes _ _ _ (reach_konts _ R) Es) as G. pose proof (go_grows _ _ _ G) as Gr.
    split; [by eapply reach_step|]. intros j z. cbn. intros [[<- <-]|[_ Ej]]%lookup_insert_Some; [|eapply sock_grows; [done|by apply (O j)]].
    apply (sock_grows _ _ _ _ Gr). assert (St : sock_ok (sy_service y) (stop false x)) by (apply stop_ok; [done|by left]).
    destruct r, failed; done. }
  destruct m as [data|cols rows| |detail].
  - pose proof (Call (EInput (so_session x) (so_user x) data)) as C. cbn [step] in C.
    destruct (send_input (so_session x) (so_user x) data (sy_service y)) as [r s']. intros [= <-]. by apply C.
  - pose proof (Call (EResize (so_session x) (so_user x) cols rows)) as C. cbn [step] in C.
    destruct (resize (so_session x) (so_user x) cols rows (sy_service y)) as [r s']. intros [= <-]. by apply C.
  - pose proof (fun r s' H => inv_call (EClose (so_session x) (so_user x)) r s' i (with_phase (PClosing 0) x) y H) as C. cbn [step] in C.
    destruct (close_session history_max_bytes_arg utcnow (so_session x) (so_user x) (sy_service y)) as [r s']. intros [= <-].
    apply C; [done|done|]. unfold sock_ok in *. cbn. destruct (so_forwarder x) as [f|]; [|by rewrite P in X; destruct X].
    destruct X as [A1 A2 A3 A4 A5 A6]. rewrite P in A6. by split.
  - intros [= <-]. apply inv_set; [done|]. destruct failed; [apply stop_ok; [done|by left]|by apply error_ok].
Qed.

Lemma inv_stopped i x c y :
  sys_inv y -> sy_sockets y !! i = Some x -> so_phase x = PStopping c ->
  sys_inv (stopped history_max_bytes_arg reconnect_timeout utcnow i x c y).
Proof.
  intros I E P. pose proof (proj2 I i x E) as X. unfold stopped. unfold sock_ok in X.
  destruct (so_forwarder x) as [f|] eqn:Ef; [|by rewrite P in X; destruct X]. destruct X as [A1 A2 A3 A4 A5 _]. cbn [fmap option_fmap option_map].
  set (x1 := with_forwarder _ x).
  assert (D : forall p, phase_ok p FwDone -> sock_ok (sy_service y) (with_phase p x1)).
  { intros p Hp. unfold sock_ok. cbn. split; try done. intros l e Hl. by destruct (A4 l e Hl). }
  destruct c; [apply inv_set; [done|by apply D]|].
  pose proof (fun r s' H => inv_call (EDetach (so_session x1) (so_user x1)) r s' i (with_phase (PDetaching 0) x1) y H) as C. cbn [step] in C.
  destruct (detach_session _ _ _ (so_session x1) (so_user x1) (sy_service y)) as [r s']. apply C; [done|done|by apply D].
Qed.

Lemma inv_socket_step y ev y' : sys_inv y -> socket_step y ev = Some y' -> sys_inv y'.
Proof.
  intros I. destruct ev as [ev|i user session|i b|i b|i message failed|i|i snt|i]; cbn [TerminalSocket.socket_step].
  - destruct (service_step (sy_service y) ev) as [[r s']|] eqn:E; [|done]. intros [= <-]. destruct I as [R O].
    pose proof (step_goes _ _ _ (reach_konts _ R) E) as G. pose proof (go_grows _ _ _ G) as Gr. split; [by eapply reach_step|].
    destruct ev as [| | | | | | | | | | |k failed]; try (intros j z Ez; eapply sock_grows; [exact Gr|by apply (O j)]).
    intros j z. unfold deliver. cbn [sy_sockets sy_service]. rewrite lookup_fmap. intros (x & Ex & ->)%fmap_Some_1.
    pose proof (sock_grows _ _ _ _ Gr (O j x Ex)) as X. destruct (waits_on k x); [|done]. apply advance_ok; [|done].
    intros rec q ->. by apply (go_reply _ _ _ G (reach_konts _ R) rec q).
  - destruct (sy_sockets y !! i); [done|]. intros [= <-]. unfold connect.
    pose proof (fun r s' H => inv_call (EAttach session user) r s' i (mkSocket session user (PAttaching 0) [] None) y H) as C. cbn [step] in C.
    destruct (attach_session _ _ _ session user (sy_service y)) as [r s']. by apply C.
  - destruct (sy_sockets y !! i) as [x|] eqn:E; [|done]. intros (x' & A & ->)%fmap_Some_1. apply inv_set; [done|].
    by apply (accepted_ok _ x b); [apply (proj2 I i)|].
  - destruct (sy_sockets y !! i) as [x|] eqn:E; [|done]. intros (x' & A & ->)%fmap_Some_1. apply inv_set; [done|].
    by apply (greeted_ok _ x b); [apply (proj2 I i)|].
  - destruct (sy_sockets y !! i) as [x|] eqn:E; [|done]. destruct (so_phase x) eqn:P; try done. by eapply inv_receive.
  - destruct (sy_sockets y !! i) as [x|] eqn:E; [|done]. destruct (so_phase x) eqn:P; try done. intros [= <-].
    apply inv_set; [done|]. apply stop_ok; [by apply (proj2 I i)|by left].
  - destruct (sy_sockets y !! i) as [x|] eqn:E; [|done]. intros H.
    destruct (forward_ok i x snt y y' (proj2 I i x E) H) as (x' & -> & X). by apply inv_set.
  - destruct (sy_sockets y !! i) as [x|] eqn:E; [|done]. destruct (so_phase x) eqn:P; try done. intros [= <-]. by eapply inv_stopped.
Qed.

Lemma sys_reach_inv y : sys_reach y -> sys_inv y.
Proof.
  induction 1 as [s R|y ev y' _ IH E]; [|by eapply inv_socket_step]. split; [done|]. intros i x. cbn. by rewrite lookup_empty.
Qed.

(** ** A client that leaves *)

Local Abbreviation run_sockets :=
  (run_sockets history_max_bytes_arg reconnect_timeout uuid4_hex utcnow container_name history_dir).
Local Abbreviation detach := (detach_session history_max_bytes_arg reconnect_timeout utcnow).

(** The session is detached: it writes to no queue, and its reconnect task sleeps until the
    deadline. *)
Definition detached (i : string) (o : nat) (s : service) : Prop :=
  exists m t d, sv_heap s !! o = Some m /\ md_queue m = None /\ ts_status (md_record m) = TsDetached /\
    ts_reconnect_deadline (md_record m) = Some d /\ md_reconnect m = Some t /\
    sv_tasks s !! t = Some (mkTask i d TkSleeping).

(** The snapshot of a detached session is being written, or has been. *)
Definition recording (k : nat) (s : service) : Prop :=
  k < sv_next s /\
  exists r, (exists snap, sv_konts s !! k = Some (KPersist snap (ARecord r))) \/ sv_konts s !! k = Some (KAfter (ARecord r)).

Lemma detach_effect i u o m s :
  require_owned i u s = Ok (o, m) ->
  exists n s', detach i u s = (RWaits n, s') /\ recording n s' /\ detached i o s'.
Proof.
  intros E. unfold detach_session. rewrite E. unfold read_now, cancel_reconnect_task. rewrite cancel_task_eq.
  unfold fresh, build_history_snapshot, read_now, await_persist, fresh. cbn. eexists _, _. split; [reflexivity|].
  unfold recording, detached. cbn. rewrite lookup_insert_eq. split.
  - split; [lia|]. eexists. left. by eexists.
  - eexists _, _, _. rewrite lookup_insert_eq. split; [reflexivity|]. cbn. repeat split. by rewrite lookup_insert_eq.
Qed.

(** What the handler waits for stays there, until it is resumed. *)
Lemma recording_step s ev p k :
  konts_ok s -> service_step s ev = Some p -> (forall f, ev <> EResume k f) -> recording k s -> recording k p.2.
Proof.
  intros O E N [L [r K]].
  assert (H : exists hot, hot <> k /\ takes_up hot ev).
  { destruct ev as [| | | | | | | | |n| |n f]; try (exists (S k); split; [lia|done]).
    - exists n. split; [|done]. intros ->. cbn [step] in E. unfold cancel_callback in E. by destruct K as [[snap K]|K]; rewrite K in E.
    - exists n. split; [|done]. intros ->. by destruct (N f). }
  destruct H as (hot & Nh & T). pose proof (go_grows _ _ _ (goes_step hot _ _ _ _ _ _ _ _ _ T O E)) as G.
  split; [pose proof (gr_next _ _ _ G); lia|]. exists r.
  assert (Kp : sv_konts p.2 !! k = sv_konts s !! k) by (apply (gr_kept _ _ _ G); [by intros ->|done]).
  destruct K as [[snap K]|K]; [left; exists snap|right]; congruence.
Qed.

Lemma recording_resumes s n f p :
  service_step s (EResume n f) = Some p -> recording n s ->
  (p.1 = RWaits n /\ recording n p.2) \/ exists r, p.1 = RRecord r.
Proof.
  intros E [L [r K]]. cbn [step] in E. unfold resume in E. destruct K as [[snap K]|K]; rewrite K in E; injection E as <-; [left|right; by eexists].
  split; [done|]. split; [destruct f; [done|]; cbn; unfold persist; by repeat case_match|]. exists r. right. apply lookup_insert_eq.
Qed.

(** Every handler that waits for its detaching waits for that. *)
Definition det_ok (y : system) : Prop :=
  forall i x k, sy_sockets y !! i = Some x -> so_phase x = PDetaching k -> recording k (sy_service y).

Lemma det_set i x y : det_ok y -> (forall k, so_phase x <> PDetaching k) -> det_ok (set_socket i x y).
Proof. intros D N j z k. cbn. intros [[<- <-]|[_ E]]%lookup_insert_Some P; [by destruct (N k)|by apply (D j z)]. Qed.

Lemma det_call ev r s' i x y :
  konts_ok (sy_service y) -> service_step (sy_service y) ev = Some (r, s') -> (forall k f, ev <> EResume k f) -> det_ok y ->
  (forall k, so_phase x = PDetaching k -> recording k s') -> det_ok (mkSystem s' (<[i := x]> (sy_sockets y))).
Proof.
  intros K E N D H j z k. cbn. intros [[<- <-]|[_ Ez]]%lookup_insert_Some P; [by apply H|].
  apply (recording_step _ _ _ k K E); [by intros f|by apply (D j z)].
Qed.

Lemma advance_not_detaching r x k :
  (forall k, so_phase x <> PDetaching k) -> so_phase (advance r x) <> PDetaching k.
Proof.
  intros N. specialize (N k) as Nk. unfold advance. destruct (so_phase x) as [| | | | | |n|] eqn:P; try (by destruct r); try congruence; by destruct (N n).
Qed.

Lemma det_stopped i x c y :
  konts_ok (sy_service y) -> det_ok y -> det_ok (stopped history_max_bytes_arg reconnect_timeout utcnow i x c y).
Proof.
  intros K D. unfold stopped. destruct c; [by apply det_set|]. cbn [so_session so_user with_forwarder].
  destruct (detach (so_session x) (so_user x) (sy_service y)) as [r s'] eqn:E.
  apply (det_call (EDetach (so_session x) (so_user x)) r); [done|cbn [step]; by rewrite E|done|done|].
  intros k. cbn. destruct (require_owned (so_session x) (so_user x) (sy_service y)) as [[o m]|e] eqn:Ow.
  - destruct (detach_effect _ _ _ _ _ Ow) as (n & s2 & E2 & R & _). rewrite E2 in E. injection E as <- <-. cbn. by intros [= <-].
  - unfold detach_session in E. rewrite Ow in E. by injection E as <- <-.
Qed.

Lemma det_receive i x message failed y y' :
  konts_ok (sy_service y) -> det_ok y -> so_phase x = PReceiving ->
  receive history_max_bytes_arg utcnow i x message failed y = Some y' -> det_ok y'.
Proof.
  intros K D P. unfold receive. destruct (parse_message message) as [[m|]|]; [|intros [= <-]; by apply det_set|done].
  assert (C : forall ev r s', service_step (sy_service y) ev = Some (r, s') -> (forall k f, ev <> EResume k f) ->
    det_ok (mkSystem s' (<[i := match r with RError _ => stop false x | _ => if failed then stop false x else x end]> (sy_sockets y)))).
  { intros ev r s' E N. eapply det_call; [done|exact E|done|done|]. intros k. destruct r, failed; cbn; congruence. }
  destruct m as [data|cols rows| |detail].
  - destruct (send_input (so_session x) (so_user x) data (sy_service y)) as [r s'] eqn:E. intros [= <-].
    by apply (C (EInput (so_session x) (so_user x) data)); [cbn [step]; by rewrite E|].
  - destruct (resize (so_session x) (so_user x) cols rows (sy_service y)) as [r s'] eqn:E. intros [= <-].
    by apply (C (EResize (so_session x) (so_user x) cols rows)); [cbn [step]; by rewrite E|].
  - destruct (close_session history_max_bytes_arg utcnow (so_session x) (so_user x) (sy_service y)) as [r s'] eqn:E. intros [= <-].
    eapply (det_call (EClose (so_session x) (so_user x))); [done|cbn [step]; by rewrite E|done|done|].
    intros k X. by apply advance_not_detaching in X.
  - intros [= <-]. apply det_set; [done|]. intros k. destruct failed; cbn; congruence.
Qed.

Lemma det_socket_step y ev y' : sys_inv y -> det_ok y -> socket_step y ev = Some y' -> det_ok y'.
Proof.
  intros [R O] D. pose proof (reach_konts _ R) as K. destruct ev as [ev|i user session|i b|i b|i message failed|i|i snt|i]; cbn [TerminalSocket.socket_step].
  - destruct (service_step (sy_service y) ev) as [[r s']|] eqn:E; [|done]. intros [= <-].
    assert (Other : (forall k f, ev <> EResume k f) -> det_ok (mkSystem s' (sy_sockets y))).
    { intros N j z k Ez P. apply (recording_step _ _ _ k K E); [by intros f|by apply (D j z)]. }
    destruct ev as [| | | | | | | | | | |n failed]; try (by apply Other).
    intros j z k. unfold deliver. cbn [sy_sockets sy_service]. rewrite lookup_fmap. intros (x & Ex & ->)%fmap_Some_1.
    destruct (waits_on n x) eqn:W; intros P.
    + unfold waits_on in W. destruct (so_phase x) as [n1| | | |n1|c|n1|] eqn:Px; try done; apply bool_decide_eq_true in W as ->;
        [by apply advance_not_detaching in P; [|rewrite Px]..|].
      destruct (recording_resumes _ _ _ _ E (D j x n Ex Px)) as [[Er Rec]|[rec Er]]; cbn in Er; subst r;
        unfold advance in P; rewrite Px in P; [by injection P as <-|done].
    + apply (recording_step _ _ _ k K E); [|by apply (D j x)]. intros f [= -> ->]. unfold waits_on in W. rewrite P in W.
      by rewrite bool_decide_eq_true_2 in W.
  - destruct (sy_sockets y !! i); [done|]. intros [= <-]. unfold connect.
    destruct (attach_session history_max_bytes_arg utcnow container_name session user (sy_service y)) as [r s'] eqn:E.
    apply (det_call (EAttach session user) r); [done|cbn [step]; by rewrite E|done|done|].
    intros k X. by apply advance_not_detaching in X.
  - destruct (sy_sockets y !! i) as [x|]; [|done]. intros (x' & A & ->)%fmap_Some_1. apply det_set; [done|].
    unfold accepted in A. destruct (so_phase x); try done. injection A as <-. by destruct b.
  - destruct (sy_sockets y !! i) as [x|]; [|done]. intros (x' & A & ->)%fmap_Some_1. apply det_set; [done|].
    unfold greeted in A. destruct (so_phase x); try done. injection A as <-. by destruct b.
  - destruct (sy_sockets y !! i) as [x|]; [|done]. destruct (so_phase x) eqn:P; try done. by apply det_receive.
  - destruct (sy_sockets y !! i) as [x|]; [|done]. destruct (so_phase x) eqn:P; try done. intros [= <-]. by apply det_set.
  - destruct (sy_sockets y !! i) as [x|] eqn:E; [|done]. unfold forward. destruct (so_forwarder x) as [f|]; [|done].
    destruct (fw_state f); try done. destruct (default [] _ !! _) as [e|]; [|done]. intros [= <-] j z k. cbn.
    intros [[<- <-]|[_ Ez]]%lookup_insert_Some P; [|by apply (D j z)]. apply (D i x); [done|]. by destruct snt.
  - destruct (sy_sockets y !! i) as [x|]; [|done]. destruct (so_phase x) as [| | | | |c| |]; try done. intros [= <-]. by apply det_stopped.
Qed.

Lemma sys_reach_det y : sys_reach y -> det_ok y.
Proof.
  induction 1 as [s R|y ev y' R IH E]; [intros i x k; cbn; by rewrite lookup_empty|].
  eapply det_socket_step; [by apply sys_reach_inv|done|done].
Qed.

(** A handler that has left its loop only goes on by what it waits for. *)
Definition leaving (x : socket) : Prop :=
  (forall f, so_forwarder x = Some f -> fw_state f <> FwRunning) /\
  match so_phase x with PStopping _ | PDetaching _ | POver => True | _ => False end.

Lemma set_socket_other i j x z y : j <> i -> sy_sockets y !! i = Some x -> sy_sockets (set_socket j z y) !! i = Some x.
Proof. intros N E. cbn. by rewrite lookup_insert_ne. Qed.

Lemma leaving_step y ev y' i x :
  sy_sockets y !! i = Some x -> leaving x -> socket_step y ev = Some y' ->
  (ev = VStopped i /\ exists c, so_phase x = PStopping c) \/ sy_sockets y' !! i = Some x \/
  exists k r, so_phase x = PDetaching k /\ sy_sockets y' !! i = Some (advance r x).
Proof.
  intros Ex [F P] E. destruct ev as [ev|j user session|j b|j b|j message failed|j|j snt|j]; cbn [TerminalSocket.socket_step] in E.
  - destruct (service_step (sy_service y) ev) as [[r s']|]; [|done]. injection E as <-. right.
    destruct ev as [| | | | | | | | | | |n failed]; try (by left). unfold deliver. cbn [sy_sockets]. rewrite lookup_fmap, Ex.
    cbn [fmap option_fmap option_map]. destruct (waits_on n x) eqn:Wt; [|by left].
    unfold waits_on in Wt. destruct (so_phase x) as [| | | | | |k|]; try done. right. by exists k, r.
  - destruct (sy_sockets y !! j) eqn:Ej; [done|]. injection E as <-. unfold connect.
    destruct (attach_session _ _ _ session user (sy_service y)) as [r s']. right; left. cbn. rewrite lookup_insert_ne; congruence.
  - destruct (sy_sockets y !! j) as [z|] eqn:Ej; [|done]. apply fmap_Some_1 in E as (x' & A & ->). right; left.
    apply set_socket_other; [|done]. intros ->. assert (z = x) as -> by congruence. unfold accepted in A. by destruct (so_phase x).
  - destruct (sy_sockets y !! j) as [z|] eqn:Ej; [|done]. apply fmap_Some_1 in E as (x' & A & ->). right; left.
    apply set_socket_other; [|done]. intros ->. assert (z = x) as -> by congruence. unfold greeted in A. by destruct (so_phase x).
  - destruct (sy_sockets y !! j) as [z|] eqn:Ej; [|done]. destruct (so_phase z) eqn:Pz; try done. right; left.
    assert (N : j <> i) by (intros ->; assert (z = x) as -> by congruence; by rewrite Pz in P).
    unfold receive in E. destruct (parse_message message) as [[m|]|]; [|injection E as <-; by apply set_socket_other|done].
    destruct m as [data|cols rows| |detail]; [destruct (send_input _ _ _ _)|destruct (resize _ _ _ _ _)|destruct (close_session _ _ _ _ _)|];
      injection E as <-; cbn; by rewrite lookup_insert_ne.
  - destruct (sy_sockets y !! j) as [z|] eqn:Ej; [|done]. destruct (so_phase z) eqn:Pz; try done. injection E as <-. right; left.
    apply set_socket_other; [|done]. intros ->. assert (z = x) as -> by congruence. by rewrite Pz in P.
  - destruct (sy_sockets y !! j) as [z|] eqn:Ej; [|done]. right; left. unfold forward in E.
    destruct (so_forwarder z) as [f|] eqn:Ef; [|done]. destruct (fw_state f) eqn:St; try done.
    destruct (default [] _ !! _) as [e|]; [|done]. injection E as <-. apply set_socket_other; [|done].
    intros ->. assert (z = x) as -> by congruence. by apply (F f).
  - destruct (sy_sockets y !! j) as [z|] eqn:Ej; [|done]. destruct (so_phase z) as [| | | | |c| |] eqn:Pz; try done. injection E as <-.
    destruct (decide (j = i)) as [->|N]; [left; split; [done|]; exists c; congruence|]. right; left.
    unfold stopped. destruct c; [by apply set_socket_other|]. destruct (detach _ _ _) as [r s']. cbn. by rewrite lookup_insert_ne.
Qed.

(** A handler with nothing left to do but to wait for its session to be recorded. *)
Definition settled (x : socket) : Prop :=
  (forall f, so_forwarder x = Some f -> fw_state f = FwDone) /\ (so_phase x = POver \/ exists k, so_phase x = PDetaching k).

Lemma settled_leaving x : settled x -> leaving x.
Proof. intros [F P]. split; [intros f Ef; by rewrite (F f Ef)|]. by destruct P as [->|[k ->]]. Qed.

Lemma settled_run evs y y' i x :
  sy_sockets y !! i = Some x -> settled x -> run_sockets evs y = Some y' ->
  exists x', sy_sockets y' !! i = Some x' /\ settled x'.
Proof.
  revert y x. induction evs as [|ev evs IH]; intros y x Ex S E; cbn [TerminalSocket.run_sockets] in E; [injection E as <-; by exists x|].
  destruct (socket_step y ev) as [y1|] eqn:E1; [|done]. cbn [mbind option_bind] in E.
  destruct (leaving_step _ _ _ _ _ Ex (settled_leaving x S) E1) as [[_ [c P]]|[Ex1|(k & r & P & Ex1)]].
  - destruct S as [_ [P'|[k P']]]; congruence.
  - by apply (IH y1 x).
  - apply (IH y1 (advance r x)); [done| |done]. destruct S as [F _]. unfold advance. rewrite P. destruct r; (split; [done|]); cbn; eauto.
Qed.

(** What the end of the forwarder does. *)
Lemma stopped_effect i x y y' :
  sy_sockets y !! i = Some x -> so_phase x = PStopping false -> socket_step y (VStopped i) = Some y' ->
  (forall o m, require_owned (so_session x) (so_user x) (sy_service y) = Ok (o, m) -> detached (so_session x) o (sy_service y')) /\
  exists x', sy_sockets y' !! i = Some x' /\ settled x'.
Proof.
  intros Ex P E. cbn [TerminalSocket.socket_step] in E. rewrite Ex, P in E. injection E as <-. unfold stopped.
  cbn [so_session so_user with_forwarder]. destruct (detach (so_session x) (so_user x) (sy_service y)) as [r s'] eqn:D. split.
  - intros o m Ow. destruct (detach_effect _ _ _ _ _ Ow) as (n & s2 & E2 & _ & Dt). rewrite E2 in D. by injection D as <- <-.
  - eexists. split; [apply lookup_insert_eq|]. split.
    + intros f. assert (H : forall z, so_phase z = PDetaching 0 -> so_forwarder (advance r z) = so_forwarder z)
        by (intros z Hz; unfold advance; rewrite Hz; by destruct r).
      rewrite H by done. cbn. destruct (so_forwarder x); [|done]. by intros [= <-].
    + unfold advance. cbn. destruct r; cbn; eauto.
Qed.

(** A handler ends by itself: with the end of its forwarder and of the write it waits for,
    in at most three steps, and with nothing from anybody else. *)
Definition ends_by_itself (i : nat) (y : system) : Prop :=
  exists evs y' x', run_sockets evs y = Some y' /\ length evs <= 3 /\
    Forall (fun ev => ev = VStopped i \/ exists k, ev = VService (EResume k None)) evs /\
    sy_sockets y' !! i = Some x' /\ so_phase x' = POver /\ forall f, so_forwarder x' = Some f -> fw_state f = FwDone.

Lemma resumed_ends i x y n rc :
  sy_sockets y !! i = Some x -> so_phase x = PDetaching n -> sv_konts (sy_service y) !! n = Some (KAfter (ARecord rc)) ->
  exists y', socket_step y (VService (EResume n None)) = Some y' /\ sy_sockets y' !! i = Some (with_phase POver x).
Proof.
  intros Ex P K. eexists. cbn [TerminalSocket.socket_step step]. unfold resume. rewrite K. split; [reflexivity|].
  cbn. unfold deliver. rewrite lookup_fmap, Ex. cbn. unfold waits_on, advance. by rewrite P, bool_decide_eq_true_2.
Qed.

Lemma resumed_writes i x y n snap rc :
  sy_sockets y !! i = Some x -> so_phase x = PDetaching n -> sv_konts (sy_service y) !! n = Some (KPersist snap (ARecord rc)) ->
  exists y', socket_step y (VService (EResume n None)) = Some y' /\ sy_sockets y' !! i = Some (with_phase (PDetaching n) x) /\
    sv_konts (sy_service y') !! n = Some (KAfter (ARecord rc)).
Proof.
  intros Ex P K. eexists. cbn [TerminalSocket.socket_step step]. unfold resume. rewrite K. split; [reflexivity|].
  split; [|apply lookup_insert_eq].
  cbn. unfold deliver. rewrite lookup_fmap, Ex. cbn. unfold waits_on, advance. by rewrite P, bool_decide_eq_true_2.
Qed.

(** The steps that are left: at most two resumptions. *)
Lemma settled_ends i x y :
  det_ok y -> sy_sockets y !! i = Some x -> settled x ->
  exists evs y' x', run_sockets evs y = Some y' /\ length evs <= 2 /\
    Forall (fun ev => ev = VStopped i \/ exists k, ev = VService (EResume k None)) evs /\
    sy_sockets y' !! i = Some x' /\ so_phase x' = POver /\ forall f, so_forwarder x' = Some f -> fw_state f = FwDone.
Proof.
  intros D Ex [F [P|[k P]]]; [exists [], y, x; repeat split; try done; cbn; lia|].
  destruct (D i x k Ex P) as [_ [rc [[snap K]|K]]].
  - destruct (resumed_writes i x y k snap rc Ex P K) as (y1 & E1 & Ex1 & K1).
    destruct (resumed_ends i _ y1 k rc Ex1 eq_refl K1) as (y2 & E2 & Ex2).
    exists [VService (EResume k None); VService (EResume k None)], y2, (with_phase POver (with_phase (PDetaching k) x)).
    split; [cbn [TerminalSocket.run_sockets]; rewrite E1; cbn [mbind option_bind TerminalSocket.run_sockets]; by rewrite E2|]. split; [cbn; lia|].
    split; [do 2 (constructor; [right; by exists k|]); constructor|done].
  - destruct (resumed_ends i x y k rc Ex P K) as (y1 & E1 & Ex1).
    exists [VService (EResume k None)], y1, (with_phase POver x).
    split; [cbn [TerminalSocket.run_sockets]; by rewrite E1|]. split; [cbn; lia|].
    split; [constructor; [right; by exists k|constructor]|done].
Qed.

Lemma settled_ends_by_itself i x y : det_ok y -> sy_sockets y !! i = Some x -> settled x -> ends_by_itself i y.
Proof.
  intros D Ex S. destruct (settled_ends i x y D Ex S) as (evs & y' & x' & E & L & A).
  exists evs, y', x'. split; [done|]. split; [lia|done].
Qed.

Lemma stopping_ends_by_itself i x y :
  sys_reach y -> sy_sockets y !! i = Some x -> so_phase x = PStopping false -> ends_by_itself i y.
Proof.
  intros R Ex P.
  assert (E : exists y1, socket_step y (VStopped i) = Some y1) by (eexists; cbn [TerminalSocket.socket_step]; by rewrite Ex, P).
  destruct E as [y1 E]. destruct (stopped_effect i x y y1 Ex P E) as [_ (x1 & Ex1 & S)].
  destruct (settled_ends i x1 y1) as (evs & y' & x' & E' & L & A & B); [apply sys_reach_det; by eapply sys_step|done|done|].
  exists (VStopped i :: evs), y', x'. split; [cbn [TerminalSocket.run_sockets]; by rewrite E|]. split; [cbn; lia|].
  split; [constructor; [by left|done]|done].
Qed.

Lemma run_sockets_snoc_reach evs y y' : sys_reach y -> run_sockets evs y = Some y' -> sys_reach y'.
Proof.
  revert y. induction evs as [|ev evs IH]; intros y R; cbn [TerminalSocket.run_sockets]; [by intros [= <-]|].
  destruct (socket_step y ev) as [y1|] eqn:E; [|done]. cbn [mbind option_bind]. apply IH. by eapply sys_step.
Qed.

(** Either the handler still waits for its forwarder, or it has gone on, and its session was
    detached at that moment if it was still that of its user. *)
Definition has_left (i : nat) (x : socket) (evs : list socket_event) (y y' : system) : Prop :=
  ((VStopped i ∉ evs) /\ sy_sockets y' !! i = Some x) \/
  exists evs1 evs2 y1 y2 x', evs = evs1 ++ VStopped i :: evs2 /\ run_sockets evs1 y = Some y1 /\
    socket_step y1 (VStopped i) = Some y2 /\ run_sockets evs2 y2 = Some y' /\
    (forall o m, require_owned (so_session x) (so_user x) (sy_service y1) = Ok (o, m) -> detached (so_session x) o (sy_service y2)) /\
    sy_sockets y' !! i = Some x' /\ settled x'.

Lemma stopping_run evs y y' i x :
  sy_sockets y !! i = Some x -> leaving x -> so_phase x = PStopping false -> run_sockets evs y = Some y' -> has_left i x evs y y'.
Proof.
  intros Ex Lv P. revert y Ex. induction evs as [|ev evs IH]; intros y Ex E.
  { injection E as <-. left. split; [set_solver|done]. }
  cbn [TerminalSocket.run_sockets] in E. destruct (socket_step y ev) as [y1|] eqn:E1; [|done]. cbn [mbind option_bind] in E.
  destruct (leaving_step _ _ _ _ _ Ex Lv E1) as [[-> _]|[Ex1|(k & r & Pk & _)]]; [| |congruence].
  - right. destruct (stopped_effect i x y y1 Ex P E1) as [Dt (x1 & Ex1 & S)].
    destruct (settled_run evs y1 y' i x1 Ex1 S E) as (x' & Ex' & S'). by exists [], evs, y, y1, x'.
  - assert (Nv : ev <> VStopped i).
    { intros ->. destruct (stopped_effect i x y y1 Ex P E1) as [_ (x1 & Ex2 & _ & S)].
      assert (x1 = x) as -> by congruence. destruct S as [S|[k S]]; congruence. }
    destruct (IH y1 Ex1 E) as [[N Ex']|(evs1 & evs2 & y2 & y3 & x' & -> & R1 & St & R2 & Dt & Ex' & S)].
    + left. split; [|done]. set_solver.
    + right. exists (ev :: evs1), evs2, y2, y3, x'. split; [done|]. split; [|done].
      cbn [TerminalSocket.run_sockets]. by rewrite E1.
Qed.

(** C22: A client that leaves is cleaned up after. When the client of a socket in its
    receiving loop disconnects, whatever happens then to the service and to the other
    sockets and in whatever order: the handler either still waits for the end of its
    forwarder, or went on from there, and at that moment its session, if it was still its
    user's, became detached, wrote to no queue any more and had a reconnect task that
    sleeps until its deadline; and the handler ends by itself, in at most three more steps,
    with its forwarder over. A handler whose client is gone before the loop, when [accept]
    or the ready frame fails, is not in a [try] yet: it detaches nothing
    ([failed_ready_stays_attached]). *)
Theorem left_client_is_detached y i x evs y' :
  sys_reach y -> sy_sockets y !! i = Some x -> so_phase x = PReceiving ->
  run_sockets (VDisconnect i :: evs) y = Some y' ->
  has_left i (stop false x) evs (set_socket i (stop false x) y) y' /\ ends_by_itself i y'.
Proof.
  intros R Ex P E. set (x1 := stop false x). set (y1 := set_socket i x1 y).
  assert (E1 : socket_step y (VDisconnect i) = Some y1) by (cbn [TerminalSocket.socket_step]; by rewrite Ex, P).
  cbn [TerminalSocket.run_sockets] in E. rewrite E1 in E. cbn [mbind option_bind] in E.
  assert (R1 : sys_reach y1) by (by eapply sys_step). assert (Ex1 : sy_sockets y1 !! i = Some x1) by apply lookup_insert_eq.
  assert (Lv : leaving x1).
  { split; [|done]. intros f. unfold x1. cbn. destruct (so_forwarder x) as [[q n []]|]; cbn; try done; by intros [= <-]. }
  pose proof (stopping_run evs y1 y' i x1 Ex1 Lv eq_refl E) as H. split; [done|].
  assert (R' : sys_reach y') by (by eapply run_sockets_snoc_reach).
  destruct H as [[_ Ex']|(? & ? & ? & ? & x' & _ & _ & _ & _ & _ & Ex' & S)].
  - by apply (stopping_ends_by_itself i x1).
  - apply (settled_ends_by_itself i x'); [by apply sys_reach_det|done..].
Qed.
(** [uuid4] does not repeat itself. *)
Hypothesis uuid4_inj : forall i j, uuid4_hex i = uuid4_hex j -> i = j.

(** The text of the output events of a list. *)
Local Abbreviation shown l := (queue_output l).

(** C21: What a terminal client gets over its connection. In every reachable system, the
    socket of a client with a forwarder has sent the ready frame first and then, errors
    apart, exactly the first events of its queue, in order, none after an exit event,
    which ends the forwarder; and while the session still writes to that queue, its retained
    history is a suffix of what the client was shown, followed by what waits in the queue
    and the chunk on its way there. The exception is a session whose bridge was told to
    close. A socket that is over has no forwarder left. *)
Theorem terminal_client_sees_history y i x f :
  sys_reach y -> sy_sockets y !! i = Some x -> so_forwarder x = Some f ->
  (exists r, head (so_frames x) = Some (FReady r)) /\
  (exists rest, queue_of (fw_queue f) (sy_service y) = sent x ++ rest /\
     forall o m, sv_heap (sy_service y) !! o = Some m -> md_queue m = Some (fw_queue f) ->
       closing (sy_service y) m \/
       exists p, pend (sv_konts (sy_service y)) (fw_queue f) p /\
         is_suffix (join_chunks (md_chunks m)) (shown (sent x) +:+ (shown rest +:+ p))) /\
  (forall l e l', sent x = l ++ e :: l' -> is_exit e -> l' = [] /\ fw_state f = FwDone) /\
  (so_phase x = POver -> fw_state f = FwDone).
Proof.
  intros [R O]%sys_reach_inv Ex Ef. pose proof (O i x Ex) as X. unfold sock_ok in X. rewrite Ef in X.
  destruct X as [Q [rest Hr] C E H P]. split; [done|]. split; [|split].
  - exists rest. split; [done|]. intros o m Hm Hq. pose proof (reach_inv _ _ _ _ _ _ uuid4_inj _ R) as I.
    destruct (si_queue _ _ _ I o m _ Hm Hq) as [_ [Cl|(p & Pe & Su)]]; [by left|]. right. exists p. split; [done|].
    fold (queue_of (fw_queue f) (sy_service y)) in Su. rewrite Hr in Su. unfold queue_output in *.
    rewrite fmap_app, join_chunks_app, append_assoc in Su. exact Su.
  - intros l e l' Hl Xe. destruct l' as [|a l' _] using rev_ind; [by destruct (E l e Hl) as [_ B]; split; [|apply B]|].
    exfalso. destruct (E (l ++ e :: l') a) as [A _]; [by rewrite <- app_assoc|]. rewrite Forall_app, Forall_cons in A. by apply A.
  - intros Over. by rewrite Over in P.
Qed.
End props.

(** ** A concrete system *)

Definition vx_run : list socket_event -> option system :=
  fun evs => run_sockets 8 1000 ex_uuid ex_clock (fun _ _ => None) ex_dir evs (mkSystem init_service ∅).

(** Alice opens a terminal and connects; the bridge prints, she is shown it, and types. *)
Definition vx_client : list socket_event :=
  [VService (ECreate "g1" "ws" "alice" "container"); VService (EResume 2 None); VService (EResume 3 None); VService (EResume 3 None);
   VConnect 0 "alice" "s0"; VService (EResume 5 None); VService (EResume 5 None); VAccepted 0 true; VGreeted 0 true;
   VService (EBridge "s0" (ex_output "hello ")); VService (EResume 6 None); VService (EResume 6 None);
   VForward 0 true; VReceive 0 "{'type': 'terminal.input'}" false].

Definition vx_system : system := default (mkSystem init_service ∅) (vx_run vx_client).
Definition vx_socket : socket := default (mkSocket "" "" POver [] None) (sy_sockets vx_system !! 0).

Lemma vx_reach : sys_reach 8 1000 ex_uuid ex_clock (fun _ _ => None) ex_dir vx_system.
Proof.
  apply (run_sockets_snoc_reach _ _ _ _ _ _ vx_client (mkSystem init_service ∅)); [apply sys_init, reach_init|]. vm_compute. reflexivity.
Qed.

Example vx_frames : frame_json <$> so_frames vx_socket =
  [JObj [("type", JStr "terminal.ready"); ("session_id", JStr "s0"); ("backend", JStr "docker_container"); ("status", JStr "attached")];
   JObj [("type", JStr "terminal.output"); ("data", JStr "hello ")];
   JObj [("type", JStr "terminal.error"); ("error", JStr "invalid terminal message payload")]].
Proof. vm_compute. reflexivity. Qed.

Lemma terminal_client_sees_history_witness :
  sent vx_socket = [output_event (Some "hello ")] /\
  exists rest, queue_of 4 (sy_service vx_system) = sent vx_socket ++ rest.
Proof.
  split; [vm_compute; reflexivity|].
  destruct (terminal_client_sees_history 8 1000 ex_uuid ex_clock (fun _ _ => None) ex_dir ex_uuid_inj vx_system 0 vx_socket
    (mkForwarder 4 1 FwRunning) vx_reach ltac:(vm_compute; reflexivity) ltac:(vm_compute; reflexivity)) as (_ & (rest & H & _) & _).
  exists rest. exact H.
Defined.

(** Bob's terminal starts while the handler of Alice, who has left, comes to its end. *)
Definition vx_leaves : list socket_event :=
  [VService (ECreate "g2" "ws2" "bob" "container"); VStopped 0; VService (EResume 9 None)].
Lemma left_client_is_detached_witness :
  exists y', run_sockets 8 1000 ex_uuid ex_clock (fun _ _ => None) ex_dir (VDisconnect 0 :: vx_leaves) vx_system = Some y' /\
    has_left 8 1000 ex_uuid ex_clock (fun _ _ => None) ex_dir 0 (stop false vx_socket) vx_leaves
      (set_socket 0 (stop false vx_socket) vx_system) y' /\
    ends_by_itself 8 1000 ex_uuid ex_clock (fun _ _ => None) ex_dir 0 y'.
Proof.
  destruct (run_sockets 8 1000 ex_uuid ex_clock (fun _ _ => None) ex_dir (VDisconnect 0 :: vx_leaves) vx_system) as [y'|] eqn:E;
    [|vm_compute in E; discriminate E].
  exists y'. split; [reflexivity|].
  exact (left_client_is_detached 8 1000 ex_uuid ex_clock (fun _ _ => None) ex_dir vx_system 0 vx_socket vx_leaves y'
    vx_reach ltac:(vm_compute; reflexivity) ltac:(vm_compute; reflexivity) E).
Defined.

(** The client is gone before the ready frame: the handler ends, and the session stays
    attached, with no reconnect task, for as long as nobody comes back to it. *)
Example failed_ready_stays_attached :
  (y ← vx_run [VService (ECreate "g1" "ws" "alice" "container"); VService (EResume 2 None); VService (EResume 3 None); VService (EResume 3 None);
     VConnect 0 "alice" "s0"; VService (EResume 5 None); VService (EResume 5 None); VAccepted 0 true; VGreeted 0 false];
   x ← sy_sockets y !! 0; p ← group_session "ws" (sy_service y);
   Some (so_phase x, ts_status (md_record p.2), md_queue p.2, md_reconnect p.2)) = Some (POver, TsAttached, Some 4, None).
Proof. vm_compute. reflexivity. Qed.

(** The session has no idea of its sockets: when a client connects a second time and its
    first connection ends, the session is detached from the second one, which is still
    open, and the reconnect task closes it under that client. *)
Example stale_socket_detaches :
  (y ← run_sockets 8 1000 ex_uuid ex_clock (fun _ _ => None) ex_dir
         [VConnect 1 "alice" "s0"; VService (EResume 8 None); VService (EResume 8 None); VAccepted 1 true; VGreeted 1 true; VDisconnect 0; VStopped 0] vx_system;
   x ← sy_sockets y !! 1; p ← group_session "ws" (sy_service y); t ← md_reconnect p.2;
   y' ← run_sockets 8 1000 ex_uuid ex_clock (fun _ _ => None) ex_dir [VService (EExpire t)] y;
   x' ← sy_sockets y' !! 1; p' ← group_session "ws" (sy_service y');
   Some (so_phase x, ts_status (md_record p.2), so_phase x', ts_status (md_record p'.2))) =
  Some (PReceiving, TsDetached, PReceiving, TsClosed).
Proof. vm_compute. reflexivity. Qed.
