(* ===== verification/Messages.v ===== *)
(** * Messages: intake, dispatch, routing

    [services/message_dispatch.py], [services/message_router.py],
    [services/message_service.py] and the handlers of [app/routes/messages.py] and
    [app/routes/im.py] with their wiring. The run of a message is an oracle that may
    change anything meanwhile; identifiers and the clock are arguments. The
    attachments are kept as the pairs of the object that is stored as JSON text. *)

From stdpp Require Import base tactics list option strings gmap.
From Stdlib Require Import ZArith NArith Ascii.
From S2P Require Import Prelude PyStr PySort Execution Auth Db Groups.

Record UnifiedMessage := mkUnified {
  um_channel : string;
  um_chat_jid : string;
  um_sender_id : string;
  um_group_folder : option string;
  um_slot_id : string;
  um_content : string;
  um_message_id : string;
  um_timestamp : Z
}.

(** A row of the table of messages. *)
Record Message := mkMessage {
  ms_id : string;
  ms_chat_jid : string;
  ms_sender : string;
  ms_content : string;
  ms_timestamp : Z;
  ms_is_from_me : bool;
  ms_slot_id : string;
  ms_attachments : option (list (string * string))
}.

Record ResolvedMessageTarget := mkTarget { tg_group_folder : string; tg_chat_jid : string }.

Record DispatchResult := mkDispatch {
  dp_run_id : string;
  dp_status : ExecutionStatus;
  dp_group_folder : string;
  dp_inbound_message_id : string;
  dp_outbound_message_id : option string;
  dp_final_output : option string;
  dp_error : option string
}.

(** What a channel handler raises: the error of its client, or anything else. *)
Inductive handler_error := ClientError (msg : string) | OtherException.

Inductive dispatch_error :=
| MessageDispatchError (msg : string)
| MessageRouterError (msg : string)
| GroupError (e : group_error)
| HandlerError (e : handler_error)
| ValidationError.

Definition DEFAULT_ASSISTANT_SENDER_ID : string := "portex".

(** [_build_attachments_payload]: sorted keys, absent values left out. *)
Definition build_attachments_payload (channel group_folder run_id external_message_id : option string) :
    option (list (string * string)) :=
  match omap (fun e => (pair e.1) <$> e.2)
          [("channel", channel); ("external_message_id", external_message_id); ("group_folder", group_folder);
           ("run_id", run_id)] with
  | [] => None
  | d => Some d
  end.

Section messages.
Context {GT MT ST : Type} `{Table GT string RegisteredGroup} `{Table MT (string * string) GroupMember}
  `{Table ST (string * string) ConversationSlot}.

(** The database, and what the channel handlers have been given. *)
Record world := mkWorld { w_db : db GT MT ST; w_messages : list Message; w_sent : list UnifiedMessage }.

Local Abbreviation W := (M world dispatch_error).

Definition on_db {A} (m : M (db GT MT ST) group_error A) : W A := fun w =>
  match m (w_db w) with
  | (Ok a, d) => (Ok a, mkWorld d (w_messages w) (w_sent w))
  | (Err e, d) => (Err (GroupError e), mkWorld d (w_messages w) (w_sent w))
  end.

(** [store_message]. *)
Definition store_message (id chat_jid sender content : string) (is_from_me : bool) (slot_id : string)
    (channel group_folder run_id external_message_id : option string) (now : Z) : W Message :=
  let message := mkMessage id chat_jid sender content now is_from_me slot_id
                   (build_attachments_payload channel group_folder run_id external_message_id) in
  _ ← modify (fun w => mkWorld (w_db w) (w_messages w ++ [message]) (w_sent w));
  mret message.

(** ** Routing *)

(** The channel handlers; what they are given is recorded, then they may raise. *)
Variable feishu_send : UnifiedMessage -> result handler_error unit.
Variable telegram_send : UnifiedMessage -> result handler_error unit.
Definition noop_web_handler (message : UnifiedMessage) : result handler_error unit := Ok tt.

Definition send (handler : UnifiedMessage -> result handler_error unit) (message : UnifiedMessage) : W unit :=
  _ ← modify (fun w => mkWorld (w_db w) (w_messages w) (w_sent w ++ [message]));
  match handler message with Ok _ => mret tt | Err e => throw (HandlerError e) end.

(** [MessageRouter.route_message]. *)
Definition route_message (message : UnifiedMessage) : W unit :=
  match um_channel message with
  | "feishu" => send feishu_send message
  | "telegram" => send telegram_send message
  | "web" => send noop_web_handler message
  | c => throw (MessageRouterError ("unsupported message channel: " +:+ c))
  end.

(** The checks of the fields of [UnifiedMessage]. *)
Definition unified_message (m : UnifiedMessage) : W UnifiedMessage :=
  if bool_decide (um_chat_jid m = "" \/ um_sender_id m = "" \/ um_slot_id m = "" \/ um_message_id m = "" \/
                  um_channel m ∉ ["web"; "feishu"; "telegram"])
  then throw ValidationError else mret m.

(** ** Targets *)

(** [sha1(chat_jid).hexdigest()[:12]]. *)
Variable sha1_12 : string -> string.
Definition build_group_folder (chat_jid : string) : string := "chat-" +:+ sha1_12 chat_jid.
Definition resolve_fallback (message : UnifiedMessage) : ResolvedMessageTarget :=
  mkTarget (build_group_folder (um_chat_jid message)) (um_chat_jid message).
Definition registered_group_name (message : UnifiedMessage) (target : ResolvedMessageTarget) : string :=
  if bool_decide (um_channel message = "web") then tg_group_folder target else tg_chat_jid target.

(** [_resolve_registered_im_target]. *)
Definition resolve_registered_im_target (message : UnifiedMessage) (now : Z) : W ResolvedMessageTarget :=
  let fallback := resolve_fallback message in
  if bool_decide (um_channel message = "web") then mret fallback
  else
    _ ← on_db (ensure_im_endpoint (um_chat_jid message) (registered_group_name message fallback)
                 (tg_group_folder fallback) now);
    resolved ← on_db (resolve_im_workspace (um_chat_jid message));
    mret (mkTarget (match resolved with Some g => rg_folder g | None => tg_group_folder fallback end)
            (um_chat_jid message)).

(** [MessageDispatchService._resolve_target] with that resolver. *)
Definition resolve_target (message : UnifiedMessage) (now : Z) : W ResolvedMessageTarget :=
  match um_group_folder message with
  | Some folder => mret (mkTarget folder (um_chat_jid message))
  | None => resolve_registered_im_target message now
  end.

(** [register_target] of [get_message_dispatch_service]. *)
Definition register_target (message : UnifiedMessage) (target : ResolvedMessageTarget) (now : Z) : W unit :=
  if bool_decide (um_channel message = "web") then
    _ ← on_db (ensure_registered_group (tg_chat_jid target) (registered_group_name message target)
                 (tg_group_folder target) (Some (um_sender_id message)) None now);
    mret tt
  else mret tt.

(** ** Dispatch *)

(** [submit_execution] and [wait_for_run]. *)
Variable execute : ExecutionRequest -> W ExecutionResult.

Definition resolve_slot_id (message : UnifiedMessage) : string :=
  if bool_decide (um_channel message = "web") then um_slot_id message else "main".

Definition build_execution_request (target : ResolvedMessageTarget) (message : UnifiedMessage)
    (run_id slot_id : string) (execution_mode : option string) : ExecutionRequest :=
  {| rq_group_folder := tg_group_folder target; rq_chat_jid := tg_chat_jid target;
     rq_user_id := um_sender_id message; rq_prompt := um_content message;
     rq_source := if bool_decide (um_channel message = "web") then SrcWeb else SrcIm;
     rq_slot_id := slot_id; rq_requested_mode := execution_mode; rq_timeout_ms := None;
     rq_fresh_session := false; rq_request_id := Some run_id; rq_request_metadata := None |}.

(** The identifiers and instants one dispatch draws. *)
Record draws := mkDraws { dr_run : string; dr_in : string; dr_out : string; dr_now : Z; dr_sent_at : Z }.

Definition dispatch_inbound_message (message : UnifiedMessage) (execution_mode : option string) (d : draws) :
    W DispatchResult :=
  if bool_decide (strip (um_content message) = "")
  then throw (MessageDispatchError "message content cannot be empty")
  else
    target ← resolve_target message (dr_now d);
    _ ← register_target message target (dr_now d);
    let run_id := dr_run d in
    let slot_id := resolve_slot_id message in
    inbound ← store_message (dr_in d) (tg_chat_jid target) (um_sender_id message) (um_content message) false slot_id
                (Some (um_channel message)) (Some (tg_group_folder target)) (Some run_id) (Some (um_message_id message))
                (dr_now d);
    run_result ← execute (build_execution_request target message run_id slot_id execution_mode);
    if negb (bool_decide (rs_status run_result = StCompleted))
    then mret (mkDispatch (rs_run_id run_result) (rs_status run_result) (tg_group_folder target) (ms_id inbound) None
                 (rs_final_output run_result) (rs_error run_result))
    else
      match rs_final_output run_result with
      | Some output =>
          if bool_decide (strip output = "")
          then throw (MessageDispatchError "runtime completed without final output")
          else
            outbound ← unified_message (mkUnified (um_channel message) (tg_chat_jid target) DEFAULT_ASSISTANT_SENDER_ID
                         (Some (tg_group_folder target)) (rs_slot_id run_result) output
                         ("out-" +:+ rs_run_id run_result) (dr_sent_at d));
            _ ← route_message outbound;
            record ← store_message (dr_out d) (tg_chat_jid target) DEFAULT_ASSISTANT_SENDER_ID output true
                       (rs_slot_id run_result) (Some (um_channel message)) (Some (tg_group_folder target))
                       (Some (rs_run_id run_result)) (Some (um_message_id outbound)) (dr_sent_at d);
            mret (mkDispatch (rs_run_id run_result) (rs_status run_result) (tg_group_folder target) (ms_id inbound)
                    (Some (ms_id record)) (Some output) None)
      | None => throw (MessageDispatchError "runtime completed without final output")
      end.

(** ** The HTTP route *)

Local Abbreviation R := (M world http_error).

Definition slot_not_found : http_error := (404%Z, "slot not found").
Definition group_not_found : http_error := (404%Z, "group not found").

(** [_resolve_http_message_target]: the chat id and the folder. *)
Definition resolve_http_message_target (group_id slot_id : string) (u : AuthUser) (now : Z) : R (string * string) :=
  _ ← catching (fun _ => server_error)
        (on_db (ensure_home_workspace (au_id u) (au_role u) (au_username u) now));
  workspace ← catching (fun _ => server_error) (on_db (get_web_workspace_by_folder group_id now));
  match workspace with
  | Some w =>
      ok ← catching (fun _ => server_error) (on_db (user_can_access_group (au_id u) (au_role u) w));
      if negb ok then throw group_not_found
      else if bool_decide (slot_id = "main") then mret (rg_jid w, rg_folder w)
      else
        slot ← catching (fun _ => server_error) (on_db (get_slot (rg_folder w) slot_id));
        match slot with
        | None => throw slot_not_found
        | Some _ => mret (rg_jid w, rg_folder w)
        end
  | None => if bool_decide (slot_id = "main") then mret (group_id, group_id) else throw slot_not_found
  end.

(** [POST /messages], of a body that passed its schema. *)
Definition send_message (u : AuthUser) (group_id content slot_id : string) (execution_mode : option string)
    (message_id : string) (d : draws) : R (string * ExecutionStatus * option string) :=
  target ← resolve_http_message_target group_id slot_id u (dr_now d);
  normalized ← catching (fun _ => server_error)
    (unified_message (mkUnified "web" target.1 (au_id u) (Some target.2) slot_id content message_id (dr_now d)));
  r ← catching (fun e => match e with MessageDispatchError msg => (400%Z, msg) | _ => server_error end)
        (dispatch_inbound_message normalized execution_mode d);
  mret (dp_run_id r, dp_status r, dp_final_output r).

(** A message of an IM channel, as the webhooks hand it over. *)
Definition im_message (channel chat_id sender_id content message_id : string) (timestamp : Z) : UnifiedMessage :=
  mkUnified channel (channel +:+ ":" +:+ chat_id) sender_id None "main" content message_id timestamp.
(** The errors the webhooks answer with. *)
Definition im_error (e : dispatch_error) : http_error :=
  match e with
  | MessageDispatchError msg | HandlerError (ClientError msg) => (400%Z, msg)
  | _ => server_error
  end.
Definition receive_im (channel chat_id sender_id content message_id : string) (timestamp : Z) (d : draws) : R string :=
  r ← catching im_error
        (m ← unified_message (im_message channel chat_id sender_id content message_id timestamp);
         dispatch_inbound_message m None d);
  mret (dp_run_id r).
End messages.

Arguments world : clear implicits.
