(* ===== verification/MessagesProps.v ===== *)
(** * Properties of messages *)

From stdpp Require Import base tactics list option strings gmap.
From Stdlib Require Import ZArith NArith Ascii.
From S2P Require Import Prelude PyStr PySort Execution Auth Db Groups GroupRoutes GroupsProps Messages.

Section props.
Context {GT MT ST : Type} `{Table GT string RegisteredGroup} `{Table MT (string * string) GroupMember}
  `{Table ST (string * string) ConversationSlot}.
Context `{!TableLaws GT string RegisteredGroup} `{!TableLaws MT (string * string) GroupMember}
  `{!TableLaws ST (string * string) ConversationSlot}.

Local Abbreviation W := (world GT MT ST).
Implicit Types (w : W).

Definition with_db (d : db GT MT ST) w : W := mkWorld d (w_messages w) (w_sent w).

Lemma wp_on_db {A} (m : M (db GT MT ST) group_error A) (Q : A -> W -> Prop) (X : W -> Prop) w :
  wp m (fun a d => Q a (with_db d w)) (fun d => X (with_db d w)) (w_db w) -> wp (on_db m) Q X w.
Proof. unfold wp, on_db. by destruct (m (w_db w)) as [[a|e] d]. Qed.

Variables feishu_send telegram_send : UnifiedMessage -> result handler_error unit.
Variable sha1_12 : string -> string.
Variable execute : ExecutionRequest -> M W dispatch_error ExecutionResult.

Local Abbreviation dispatch := (dispatch_inbound_message feishu_send telegram_send sha1_12 execute).
Local Abbreviation send_message := (send_message feishu_send telegram_send sha1_12 execute).
Local Abbreviation receive_im := (receive_im feishu_send telegram_send sha1_12 execute).

(** ** The walk through a dispatch

    [J] is kept by the steps that resolve and register the target, by the run and by
    what the dispatch adds to the records. *)

Section walk.
Variable J : W -> Prop.
Hypothesis J_execute : forall r w, J w -> J (execute r w).2.
Hypothesis J_sent : forall w m, J w -> J (mkWorld (w_db w) (w_messages w) (w_sent w ++ [m])).
Hypothesis J_message : forall w m, J w -> J (mkWorld (w_db w) (w_messages w ++ [m]) (w_sent w)).

Lemma wp_any {A} (m : M W dispatch_error A) w : J (m w).2 -> wp m (fun _ => J) J w.
Proof. by intros Hm; apply wp_after. Qed.

Lemma send_keeps h m w : J w -> wp (send h m) (fun _ => J) J w.
Proof. intros Hw. unfold send. wp_step. wp_step. destruct (h m); [wp_step|wp_step]; by apply J_sent. Qed.

Lemma route_keeps m w : J w -> wp (route_message feishu_send telegram_send m) (fun _ => J) J w.
Proof.
  intros Hw. unfold route_message.
  repeat match goal with |- wp (match ?x with _ => _ end) _ _ _ => destruct x end;
    first [by apply send_keeps | by apply wp_throw].
Qed.

Lemma store_keeps id chat sender content me slot ch gf rid ext now w :
  J w -> wp (store_message id chat sender content me slot ch gf rid ext now) (fun _ => J) J w.
Proof. intros Hw. unfold store_message. wp_step. wp_step. wp_step. by apply J_message. Qed.

Lemma dispatch_keeps message mode d w :
  J w ->
  wp (resolve_target sha1_12 message (dr_now d))
    (fun t w' => wp (register_target message t (dr_now d)) (fun _ => J) J w') J w ->
  wp (dispatch message mode d) (fun _ => J) J w.
Proof.
  intros Hw Ht. unfold dispatch_inbound_message. wp_step; [by wp_step|]. wp_step.
  eapply wp_mono; [exact Ht| |done]. intros t w1 Hr. wp_step. eapply wp_mono; [exact Hr| |done].
  intros a2 w2 H2. cbv beta zeta in *. wp_step. eapply wp_mono; [by apply store_keeps| |done]. intros inb w3 H3. wp_step.
  eapply wp_mono; [by apply wp_any, J_execute| |done]. intros r w4 H4. wp_step; [by wp_step|].
  wp_step; [|by wp_step]. wp_step; [by wp_step|]. wp_step. unfold unified_message. wp_step; [by wp_step|].
  wp_step. wp_step. eapply wp_mono; [by apply route_keeps| |done]. intros a5 w5 H5. wp_step.
  eapply wp_mono; [by apply store_keeps| |done]. intros rec w6 H6. by wp_step.
Qed.
End walk.

(** ** The registry stays well formed *)

Lemma merged_row_ok jid name folder cb now s :
  wf s -> (is_web jid = true -> jid = "web:" +:+ folder /\ is_Some (group_at jid s)) ->
  row_ok (merged jid name folder cb None now s) s.
Proof.
  intros Wf Web. unfold merged. destruct (group_at jid s) as [g|] eqn:E.
  - pose proof (wf_group_key s Wf _ _ E) as K.
    split; cbn [rg_jid rg_folder rg_is_home rg_created_by default from_option]; rewrite K.
    + intros Hw. by destruct (Web Hw) as [-> _].
    + rewrite orb_false_r, (wf_home s Wf _ _ E). destruct (is_web jid) eqn:Hw; [|done].
      destruct (Web eq_refl) as [J _]. pose proof (wf_identity s Wf _ _ E Hw) as I.
      assert (F : rg_folder g = folder) by (apply web_inj; congruence). by rewrite F.
    + intros Hw. destruct (wf_created s Wf _ _ E Hw) as [c ->]. by exists c.
  - assert (N : is_web jid = false) by (destruct (is_web jid); [by destruct (Web eq_refl) as [_ [? ?]]|done]).
    split; cbn [rg_jid rg_folder rg_is_home rg_created_by default from_option]; by rewrite N.
Qed.

Lemma ensure_registered_wf jid name folder cb now s :
  wf s -> (is_web jid = true -> jid = "web:" +:+ folder /\ is_Some (group_at jid s)) ->
  wp (ensure_registered_group jid name folder cb None now) (fun _ => wf) wf s.
Proof.
  intros Wf Web. eapply wp_mono; [by apply ensure_registered_spec, wf_slot_key| |done].
  intros g s' (-> & Q & M). eapply put_row_wf; [exact Wf| |exact Q|exact M]. by apply merged_row_ok.
Qed.

Lemma ensure_endpoint_wf jid name folder now s :
  wf s -> is_web jid = false -> wp (ensure_im_endpoint jid name folder now) (fun _ => wf) wf s.
Proof.
  intros Wf N. unfold ensure_im_endpoint. wp_step. unfold get_registered_group at 1. wp_step. wp_step.
  - pose proof (wf_group_key s Wf _ _ D) as K. wp_step.
    eapply wp_mono; [apply ensure_workspace_slot_spec; [by apply wf_slot_key|by rewrite K]| |done].
    intros x s' [Q _]. wp_step. by eapply quiet_wf.
  - apply ensure_registered_wf; [done|]. by rewrite N.
Qed.

Definition coherent w : Prop := wf (w_db w).

Lemma register_coherent message t now w :
  coherent w ->
  (is_web (tg_chat_jid t) = true ->
     tg_chat_jid t = "web:" +:+ tg_group_folder t /\ is_Some (group_at (tg_chat_jid t) (w_db w))) ->
  wp (register_target message t now) (fun _ => coherent) coherent w.
Proof.
  intros C Ht. unfold register_target. wp_step; [|by wp_step]. wp_step. apply wp_on_db.
  eapply wp_mono; [by apply ensure_registered_wf| |done]. intros a s' Hs. by wp_step.
Qed.

Section coherence.
Hypothesis execute_coherent : forall r w, coherent w -> coherent (execute r w).2.

Lemma resolve_http_spec group_id slot_id u now w :
  coherent w ->
  wp (resolve_http_message_target group_id slot_id u now)
    (fun t w' => coherent w' /\
       ((exists g, workspace_of group_id g (w_db w') /\ may_access (au_id u) (au_role u) g (w_db w') = true /\
                   t = (rg_jid g, group_id)) \/
        (find_web_workspace group_id (w_db w') = None /\ slot_id = "main" /\ t = (group_id, group_id))))
    coherent w.
Proof.
  intros C. unfold resolve_http_message_target. wp_step. wp_step. apply wp_on_db.
  eapply wp_mono; [by apply ensure_home_good| |by intros d [? _]]. intros x d1 [W1 _]. wp_step. wp_step. apply wp_on_db.
  unfold get_web_workspace_by_folder. wp_step. wp_step. cbn [with_db w_db w_messages w_sent].
  destruct (find_web_workspace group_id d1) as [g|] eqn:F.
  - pose proof (find_web_workspace_some _ _ _ W1 F) as (G & _). wp_step.
    eapply wp_mono; [apply ensure_workspace_slot_spec; [by apply wf_slot_key|done]| |done]. intros y d2 [Q _]. wp_step.
    pose proof (quiet_wf _ _ Q W1) as W2.
    assert (Hg : workspace_of group_id g d2).
    { unfold workspace_of. rewrite (quiet_group _ _ _ Q). by apply find_web_workspace_some. }
    wp_step. wp_step. apply wp_on_db. unfold wp at 1. cbn [with_db w_db w_messages w_sent].
    rewrite access_web_group by apply Hg. destruct (may_access (au_id u) (au_role u) g d2) eqn:A; [|by wp_step].
    cbn [negb]. destruct Hg as (E & Web & Fg).
    wp_step; [by wp_step; split; [done|left; exists g; rewrite <- Fg]|].
    wp_step. wp_step. apply wp_on_db. unfold get_slot. wp_step. cbn [with_db w_db w_messages w_sent].
    wp_step; [|by wp_step]. wp_step. split; [done|]. left. exists g. by rewrite <- Fg.
  - wp_step. cbn [with_db w_db w_messages w_sent]. wp_step; [|by wp_step]. wp_step. apply bool_decide_eq_true in D. auto.
Qed.

Lemma send_message_coherent u group_id content slot_id mode mid d w :
  coherent w -> is_web group_id = false ->
  coherent (send_message u group_id content slot_id mode mid d w).2.
Proof.
  intros C N. apply wp_after. unfold Messages.send_message. wp_step.
  eapply wp_mono; [by apply resolve_http_spec| |done]. intros t w1 [C1 T]. wp_step. unfold unified_message.
  wp_step. wp_step; [by wp_step|]. wp_step. wp_step. wp_step.
  eapply wp_mono; [apply (dispatch_keeps coherent); [done..|]| |done].
  - unfold resolve_target. cbn [um_group_folder]. wp_step. apply register_coherent; [done|].
    cbn [tg_chat_jid tg_group_folder um_chat_jid]. destruct T as [(g & (E & Web & F) & _ & ->)|(_ & _ & ->)].
    + cbn [fst snd]. intros _. rewrite E, <- F. split; [by apply (wf_identity _ C1)|by eexists].
    + cbn [fst snd]. by rewrite N.
  - intros r w2 C2. by wp_step.
Qed.

Lemma not_web_channel channel chat : channel = "feishu" \/ channel = "telegram" -> is_web (channel +:+ ":" +:+ chat) = false.
Proof. by intros [->| ->]. Qed.

Lemma receive_im_coherent channel chat sender content mid t d w :
  coherent w -> channel = "feishu" \/ channel = "telegram" ->
  coherent (receive_im channel chat sender content mid t d w).2.
Proof.
  intros C Ch. apply wp_after. unfold Messages.receive_im. wp_step. wp_step. wp_step. unfold unified_message.
  wp_step; [by wp_step|]. wp_step.
  eapply wp_mono; [apply (dispatch_keeps coherent); [done..|]| |done].
  - assert (Nw : bool_decide (channel = "web") = false) by (by destruct Ch as [->| ->]).
    unfold resolve_target, im_message. cbn [um_group_folder]. unfold resolve_registered_im_target. cbv zeta.
    cbn [um_channel]. rewrite Nw. wp_step. apply wp_on_db.
    eapply wp_mono; [apply ensure_endpoint_wf; [done|by apply not_web_channel]| |done]. intros x d1 W1.
    wp_step. apply wp_on_db. cbn [with_db w_db w_messages w_sent].
    eapply wp_mono with (Q := fun _ => wf) (X := wf).
    + unfold resolve_im_workspace. wp_step. unfold get_registered_group. wp_step. wp_step; [|by wp_step].
      wp_step; [|by wp_step]. wp_step. wp_step. by wp_step.
    + intros o d2 W2. wp_step. unfold register_target. cbn [um_channel]. rewrite Nw. by wp_step.
    + done.
  - intros r w2 C2. by wp_step.
Qed.
(** What can happen to the registry: a request to the group routes, a message of a
    user, a message of an IM channel. *)
Inductive registry_event :=
| EGroups (u : AuthUser) (now : Z) (r : group_request)
| EMessage (u : AuthUser) (group_id content slot_id : string) (mode : option string) (mid : string) (d : draws)
| EIncoming (channel chat_id sender_id content mid : string) (timestamp : Z) (d : draws).

Definition sound_event (e : registry_event) : Prop :=
  match e with
  | EGroups _ _ _ => True
  | EMessage _ group_id _ _ _ _ _ => is_web group_id = false
  | EIncoming channel _ _ _ _ _ _ => channel = "feishu" \/ channel = "telegram"
  end.

Definition registry_step (user_exists : string -> bool) (e : registry_event) w : W :=
  match e with
  | EGroups u now r => with_db (handle user_exists u now r (w_db w)).2 w
  | EMessage u g c s m mid d => (send_message u g c s m mid d w).2
  | EIncoming ch chat from c mid t d => (receive_im ch chat from c mid t d w).2
  end.

(** C26: The registry stays coherent. Whatever the group requests and the messages
    (those of users addressed by folder, not by a workspace id), and whatever happens
    during the runs: the id of every web workspace is that of its folder, exactly the
    home workspaces have reserved folders, every workspace has a creator and every
    group the main slot of its folder, and rows are stored under their keys. *)
Theorem registry_coherent user_exists events w :
  wf (w_db w) -> Forall sound_event events ->
  wf (w_db (foldl (fun w e => registry_step user_exists e w) w events)).
Proof.
  revert w. induction events as [|e events IH]; intros w C F; [done|].
  apply Forall_cons in F as [S F]. cbn [foldl]. apply IH; [|done]. destruct e; cbn [registry_step sound_event] in *.
  - by apply handle_good.
  - by apply send_message_coherent.
  - by apply receive_im_coherent.
Qed.

(** A message to the folder of a workspace only gets there for those who may see
    it. A target is resolved either to the workspace of the requested folder, which the
    user may access, or, when no workspace has this folder, to the folder itself. *)
Theorem message_target_access group_id slot_id u now w t w' :
  wf (w_db w) -> resolve_http_message_target group_id slot_id u now w = (Ok t, w') ->
  (exists g, workspace_of group_id g (w_db w') /\ may_access (au_id u) (au_role u) g (w_db w') = true /\
             t = (rg_jid g, group_id)) \/
  (find_web_workspace group_id (w_db w') = None /\ slot_id = "main" /\ t = (group_id, group_id)).
Proof. intros C E. pose proof (resolve_http_spec group_id slot_id u now w C) as S. unfold wp in S. rewrite E in S. apply S. Qed.
End coherence.

(** ** The record of the conversation *)

Section log.

(** [i] is the inbound message of the run whose answer [o] was sent and stored. *)
Definition answers (o i : Message) (s : UnifiedMessage) : Prop :=
  exists channel ext folder run,
    ms_is_from_me i = false /\ ms_chat_jid i = ms_chat_jid o /\
    ms_attachments i = build_attachments_payload (Some channel) (Some folder) (Some run) (Some ext) /\
    ms_attachments o = build_attachments_payload (Some channel) (Some folder) (Some run) (Some (um_message_id s)) /\
    um_message_id s = "out-" +:+ run /\ um_channel s = channel /\ um_chat_jid s = ms_chat_jid o /\
    um_content s = ms_content o /\ um_group_folder s = Some folder.

Definition log_ok w : Prop :=
  forall o, o ∈ w_messages w -> ms_is_from_me o = true ->
    exists i s, i ∈ w_messages w /\ s ∈ w_sent w /\ answers o i s.

Definition grows w w' : Prop :=
  (forall m, m ∈ w_messages w -> m ∈ w_messages w') /\ (forall s, s ∈ w_sent w -> s ∈ w_sent w').

(** Runs add to the records what other dispatches add, and end under their own id. *)
Hypothesis execute_grows : forall r w, grows w (execute r w).2.
Hypothesis execute_log : forall r w, log_ok w -> log_ok (execute r w).2.
Hypothesis execute_run : forall r w x w', execute r w = (Ok x, w') -> rq_request_id r = Some (rs_run_id x).

Definition same_log w w' : Prop := w_messages w' = w_messages w /\ w_sent w' = w_sent w.

Lemma same_log_ok w w' : same_log w w' -> log_ok w -> log_ok w'.
Proof. intros [E1 E2] L. unfold log_ok. by rewrite E1, E2. Qed.

Lemma on_db_log {A} (m : M (db GT MT ST) group_error A) w : wp (on_db m) (fun _ => same_log w) (same_log w) w.
Proof. apply wp_on_db. unfold wp. by destruct (m (w_db w)) as [[a|e] d]. Qed.

Lemma resolve_target_log message now w :
  wp (resolve_target sha1_12 message now) (fun _ => same_log w) (same_log w) w.
Proof.
  unfold resolve_target, resolve_registered_im_target. wp_step; [by wp_step|]. cbv zeta. wp_step; [by wp_step|]. wp_step.
  eapply wp_mono; [by apply on_db_log| |done]. intros a w1 [E1 E2]. wp_step.
  eapply wp_mono; [by apply on_db_log| |].
  - intros b w2 [E3 E4]. wp_step. split; congruence.
  - intros w2 [E3 E4]. split; congruence.
Qed.

Lemma register_target_log message t now w :
  wp (register_target message t now) (fun _ => same_log w) (same_log w) w.
Proof.
  unfold register_target. wp_step; [|by wp_step]. wp_step. eapply wp_mono; [by apply on_db_log| |done].
  intros a w1 E. by wp_step.
Qed.

Lemma send_spec h m w :
  wp (send h m) (fun _ w' => w' = mkWorld (w_db w) (w_messages w) (w_sent w ++ [m]))
    (fun w' => w' = mkWorld (w_db w) (w_messages w) (w_sent w ++ [m])) w.
Proof. unfold send. wp_step. wp_step. by destruct (h m); wp_step. Qed.

Lemma route_spec m w :
  wp (route_message feishu_send telegram_send m) (fun _ w' => w' = mkWorld (w_db w) (w_messages w) (w_sent w ++ [m]))
    (fun w' => w_messages w' = w_messages w /\ (w_sent w' = w_sent w ++ [m] \/ w_sent w' = w_sent w)) w.
Proof.
  unfold route_message.
  repeat match goal with |- wp (match ?x with _ => _ end) _ _ _ => destruct x end;
    first [by apply wp_throw; auto | by eapply wp_mono; [apply send_spec|done|intros w' ->; auto]].
Qed.

Lemma log_ok_sent w w' :
  log_ok w -> w_messages w' = w_messages w -> (forall s, s ∈ w_sent w -> s ∈ w_sent w') -> log_ok w'.
Proof.
  intros L E S o. rewrite E. intros Ho Hm. destruct (L o Ho Hm) as (i & s & Hi & Hs & A). exists i, s. auto.
Qed.

Lemma log_ok_message w m :
  log_ok w -> (ms_is_from_me m = true -> exists i s, i ∈ w_messages w /\ s ∈ w_sent w /\ answers m i s) ->
  log_ok (mkWorld (w_db w) (w_messages w ++ [m]) (w_sent w)).
Proof.
  intros L A o. cbn. rewrite elem_of_app, list_elem_of_singleton. intros [Ho| ->] Hm.
  - destruct (L o Ho Hm) as (i & s & Hi & Hs & B). exists i, s. split; [by apply elem_of_app; left|done].
  - destruct (A Hm) as (i & s & Hi & Hs & B). exists i, s. split; [by apply elem_of_app; left|done].
Qed.

Lemma dispatch_log message mode d w : log_ok w -> wp (dispatch message mode d) (fun _ => log_ok) log_ok w.
Proof.
  intros L. unfold dispatch_inbound_message. wp_step; [by wp_step|]. wp_step.
  eapply wp_mono; [by apply resolve_target_log| |by intros w1 E; eapply same_log_ok]. intros t w1 E1. wp_step.
  pose proof (same_log_ok _ _ E1 L) as L1.
  eapply wp_mono; [by apply register_target_log| |by intros w2 E; eapply same_log_ok]. intros a2 w2 E2. cbv zeta.
  pose proof (same_log_ok _ _ E2 L1) as L2. wp_step. unfold store_message at 1. wp_step. wp_step. wp_step.
  set (i := mkMessage _ _ _ _ _ false _ _). set (w3 := mkWorld _ _ _).
  assert (L3 : log_ok w3) by (by apply log_ok_message). assert (I3 : i ∈ w_messages w3) by (cbn; set_solver).
  wp_step. unfold wp at 1. pose proof (execute_log (build_execution_request t message (dr_run d) (resolve_slot_id message) mode) w3 L3) as L4.
  pose proof (execute_grows (build_execution_request t message (dr_run d) (resolve_slot_id message) mode) w3) as [G4 _].
  destruct (execute _ w3) as [[x|e] w4] eqn:Ex; [|exact L4]. cbn [snd] in *. apply execute_run in Ex.
  injection Ex as Run. specialize (G4 i I3). wp_step; [by wp_step|]. wp_step; [|by wp_step]. wp_step; [by wp_step|].
  wp_step. unfold unified_message. wp_step; [by wp_step|]. wp_step. set (um := mkUnified _ _ _ _ _ _ _ _). wp_step.
  eapply wp_mono; [by apply route_spec| |].
  - intros a5 w5 ->. wp_step. unfold store_message. wp_step. wp_step. wp_step. wp_step. apply log_ok_message.
    + eapply log_ok_sent; [exact L4|done|]. intros s' Hs. cbn. set_solver.
    + intros _. exists i, um. split; [done|]. split; [cbn; set_solver|]. cbn.
      exists (um_channel message), (um_message_id message), (tg_group_folder t), (dr_run d).
      unfold answers, i, um. cbn. rewrite <- Run. by repeat split.
  - intros w5 [M [S|S]]; (eapply log_ok_sent; [exact L4|done|]); rewrite S; set_solver.
Qed.
Lemma resolve_http_log group_id slot_id u now w :
  wp (resolve_http_message_target group_id slot_id u now) (fun _ => same_log w) (same_log w) w.
Proof.
  assert (T : forall w1 w2 w3, same_log w1 w2 -> same_log w2 w3 -> same_log w1 w3)
    by (intros w1 w2 w3 [A B] [A' B']; split; congruence).
  unfold resolve_http_message_target. wp_step. wp_step.
  eapply wp_mono; [by apply on_db_log| |done]. intros a w1 E1. wp_step. wp_step.
  eapply wp_mono; [by apply on_db_log| |by intros w2 E2; eapply T; eauto]. intros o w2 E2. pose proof (T _ _ _ E1 E2) as E.
  wp_step; [|by wp_step; wp_step]. wp_step. wp_step.
  eapply wp_mono; [by apply on_db_log| |by intros w3 E3; eapply T; eauto]. intros b w3 E3. pose proof (T _ _ _ E E3) as E'.
  wp_step; [by wp_step|]. wp_step; [by wp_step|]. wp_step. wp_step.
  eapply wp_mono; [by apply on_db_log| |by intros w4 E4; eapply T; eauto]. intros c w4 E4.
  wp_step; wp_step; eapply T; eauto.
Qed.

End log.
End props.

(** ** Concrete worlds: what a message may do to the workspaces of others *)

Definition xworld : Type := world (gmap string RegisteredGroup) (gmap (string * string) GroupMember)
  (gmap (string * string) ConversationSlot).

Definition alice : AuthUser := gx_user "alice" "admin".
Definition mallory : AuthUser := gx_user "mallory" "member".

Definition mx_empty : xworld := mkWorld gx_empty [] [].
(** The agent of a run answers with the folder it works in. *)
Definition mx_execute (r : ExecutionRequest) : M xworld dispatch_error ExecutionResult :=
  match rq_request_id r with
  | Some id => mret (mkResult id StCompleted (rq_group_folder r) "openai_runtime" "s" (rq_slot_id r)
                       (Some ("ran in " +:+ rq_group_folder r)) None None)
  | None => throw (HandlerError (ClientError "no run id"))
  end.

Lemma mx_execute_same r w : (mx_execute r w).2 = w.
Proof. unfold mx_execute. by destruct (rq_request_id r). Qed.

Definition mx_ok : UnifiedMessage -> result handler_error unit := fun _ => Ok tt.
Definition mx_draws : draws := mkDraws "run" "in" "out" 2 3.
Definition mx_events : list registry_event :=
  [EGroups alice 1 (RCreateGroup "team" "Project Team");
   EMessage alice "team" "hello" "main" None "msg" mx_draws;
   EIncoming "telegram" "42" "bob" "hi" "7" 0%Z mx_draws].
Lemma registry_coherent_witness : wf (w_db (foldl
  (fun w e => registry_step mx_ok mx_ok (fun s => s) mx_execute (fun _ => true) e w) mx_empty mx_events)).
Proof.
  apply (registry_coherent mx_ok mx_ok (fun s => s) mx_execute).
  - intros r w C. by rewrite mx_execute_same.
  - apply gx_wf.
  - apply Forall_cons. split; [exact I|]. apply Forall_cons. split; [reflexivity|]. apply Forall_cons.
    split; [by right|apply Forall_nil; exact I].
Defined.


Lemma message_target_access_witness :
  let w' := (resolve_http_message_target "home-mallory" "main" mallory 1 mx_empty).2 in
  (exists g, workspace_of "home-mallory" g (w_db w') /\ may_access "mallory" (Some "member") g (w_db w') = true /\
             ("web:home-mallory", "home-mallory") = (rg_jid g, "home-mallory")) \/
  (find_web_workspace "home-mallory" (w_db w') = None /\ "main" = "main" /\
   ("web:home-mallory", "home-mallory") = ("home-mallory", "home-mallory")).
Proof.
  apply (message_target_access "home-mallory" "main" mallory 1 mx_empty _
    (resolve_http_message_target "home-mallory" "main" mallory 1 mx_empty).2); [apply gx_wf|].
  rewrite (surjective_pairing (resolve_http_message_target _ _ _ _ _)) at 1. f_equal.
Defined.

Definition mx_create (u : AuthUser) (folder name : string) : M xworld http_error unit := fun w =>
  match create_group u folder name 1 (w_db w) with
  | (Ok _, d) => (Ok tt, mkWorld d (w_messages w) (w_sent w))
  | (Err e, d) => (Err e, mkWorld d (w_messages w) (w_sent w))
  end.
Definition mx_send (u : AuthUser) (group_id content : string) : M xworld http_error (option string) :=
  r ← send_message (fun _ => Ok tt) (fun _ => Ok tt) (fun s => s) mx_execute u group_id content "main" None "msg"
        (mkDraws "run" "in" "out" 2 3);
  mret r.2.
Definition mx_can_see (u : AuthUser) (folder : string) : M xworld http_error bool := fun w =>
  match require_accessible_workspace folder u 4 (w_db w) with
  | (Ok _, d) => (Ok true, w)
  | (Err _, d) => (Ok false, w)
  end.

(** A message to a workspace renames it to its folder. *)
Example message_renames_the_workspace :
  (fun p => (p.1, rg_name <$> tbl_get "web:team" (db_groups (w_db p.2))))
    ((_ ← mx_create alice "team" "Project Team"; mx_send alice "team" "hello") mx_empty) =
  (Ok (Some "ran in team"), Some "team").
Proof. vm_compute. reflexivity. Qed.

(** A member who has no access to the workspace addresses its id instead of its folder:
    the registration of the target moves the workspace away from its folder; then the
    folder is nobody's, and a message to it runs there. *)
Example message_takes_over_a_folder :
  (fun p => p.1)
    ((_ ← mx_create alice "team" "Project Team";
      before ← mx_can_see mallory "team";
      _ ← mx_send mallory "web:team" "x";
      owner ← mx_can_see alice "team";
      answer ← mx_send mallory "team" "cat secrets";
      mret (before, owner, answer)) mx_empty) =
  Ok (false, false, Some "ran in team").
Proof. vm_compute. reflexivity. Qed.

(** With the right to create workspaces, the workspace itself is taken over. *)
Definition eve : AuthUser := gx_user "eve" "admin".
Example message_takes_over_a_workspace :
  (fun p => p.1)
    ((_ ← mx_create alice "team" "Project Team";
      before ← mx_can_see eve "team";
      _ ← mx_send eve "web:team" "x";
      _ ← mx_create eve "team" "Project Team";
      after ← mx_can_see eve "team";
      mret (before, after)) mx_empty) =
  Ok (false, true).
Proof. vm_compute. reflexivity. Qed.
