(* ===== verification/UsageAudit.v ===== *)
(** * Usage statistics and the audit feed ([services/usage_audit.py])

    Both read the table of messages. The attachments of a message are the JSON text
    [store_message] writes; what the queries ask of the database is written as
    filtering and sorting. A timestamp of the table is a UTC instant. *)

From stdpp Require Import base tactics list option strings gmap.
From Stdlib Require Import ZArith Lia Ascii.
From S2P Require Import Prelude PyStr PyInt PyTime PySort PyDict PyJson Auth Db Groups Messages.

Local Open Scope Z_scope.

Record UsageSummarySnapshot := mkSummary {
  sm_total_messages : nat;
  sm_total_runs : nat;
  sm_total_user_messages : nat;
  sm_total_assistant_messages : nat;
  sm_total_active_days : nat
}.
Record UsageDailyBreakdownSnapshot := mkDaily {
  dy_date : string;
  dy_message_count : nat;
  dy_run_count : nat;
  dy_user_message_count : nat;
  dy_assistant_message_count : nat
}.
Record UsageChannelBreakdownSnapshot := mkChannel {
  ch_channel : string;
  ch_message_count : nat;
  ch_run_count : nat
}.
Record UsageStatsSnapshot := mkUsage {
  us_days : Z;
  us_summary : UsageSummarySnapshot;
  us_daily : list UsageDailyBreakdownSnapshot;
  us_channels : list UsageChannelBreakdownSnapshot
}.
Record AuditMessageSnapshot := mkAudit {
  am_message_id : string;
  am_chat_jid : string;
  am_group_id : string;
  am_channel : string;
  am_run_id : option string;
  am_external_message_id : option string;
  am_sender : string;
  am_is_from_me : bool;
  am_slot_id : string;
  am_content : string;
  am_timestamp : Z
}.
Record AuditMessageListSnapshot := mkAuditList {
  al_items : list AuditMessageSnapshot;
  al_limit : Z;
  al_group_id : option string;
  al_has_more : bool
}.
Record MessageMetadata := mkMetadata {
  mt_channel : string;
  mt_group_id : string;
  mt_run_id : option string;
  mt_external_message_id : option string
}.

(** [OverflowError] of the date arithmetic, and what [json.loads] raises beyond
    [JSONDecodeError]. *)
Inductive usage_error := UsageOverflow | UsageJson (e : json_error).

Definition normalize_days (days : Z) : Z := Z.max 1 (Z.min 365 days).
Definition normalize_limit (limit : Z) : Z := Z.max 1 (Z.min 200 limit).

(** ** What a message tells about itself *)

(** The text [store_message] writes for the attachments. *)
Definition attachments_text (payload : option (list (string * string))) : option string :=
  (fun d => json_dumps_ascii (fun lit => lit) (JObj (map (fun e => (e.1, JStr e.2)) d))) <$> payload.

Definition parse_attachments (value : option string) : result usage_error (list (string * json)) :=
  match value with
  | None => Ok []
  | Some text =>
      if bool_decide (text = ""%string) then Ok []
      else match json_loads text with
           | Ok (JObj d) => Ok d
           | Ok _ => Ok []
           | Err JDecodeError => Ok []
           | Err e => raise (UsageJson e)
           end
  end.

Definition as_non_empty_string (value : option json) : option string :=
  match value with
  | Some (JStr s) => let normalized := strip s in if bool_decide (normalized = ""%string) then None else Some normalized
  | _ => None
  end.

Definition channel_of_jid (chat_jid : string) : string :=
  if startswith "feishu:" chat_jid then "feishu"
  else if startswith "telegram:" chat_jid then "telegram"
  else "web".
Definition infer_channel (chat_jid : string) (attachments : list (string * json)) : string :=
  match as_non_empty_string (od_get "channel"%string attachments) with
  | Some channel => if bool_decide (channel ∈ ["web"; "feishu"; "telegram"]%string) then channel else channel_of_jid chat_jid
  | None => channel_of_jid chat_jid
  end.

(** The text after the first colon of a web id. *)
Definition group_of_jid (chat_jid : string) : string :=
  if startswith "web:" chat_jid then
    let web_group := of_chars (drop 4 (str_chars chat_jid)) in
    if bool_decide (web_group = ""%string) then chat_jid else web_group
  else chat_jid.
Definition infer_group_id (chat_jid : string) (attachments : list (string * json)) : string :=
  match as_non_empty_string (od_get "group_folder"%string attachments) with
  | Some attachment_group => attachment_group
  | None => group_of_jid chat_jid
  end.

Definition extract_metadata (message : Message) : result usage_error MessageMetadata :=
  attachments ← parse_attachments (attachments_text (ms_attachments message));
  Ok (mkMetadata (infer_channel (ms_chat_jid message) attachments) (infer_group_id (ms_chat_jid message) attachments)
        (as_non_empty_string (od_get "run_id"%string attachments))
        (as_non_empty_string (od_get "external_message_id"%string attachments))).

(** ** Statistics *)

(** [timestamp.date().isoformat()]. *)
Definition date_of_day (day : Z) : string :=
  let '(y, m, d) := ord2ymd (day + epoch_ordinal) in
  of_chars (fixed 4 y ++ "-"%char :: fixed 2 m ++ "-"%char :: fixed 2 d).
Definition day_of (t : Z) : Z := t / us_per_day.
Definition date_of (t : Z) : string := date_of_day (day_of t).

(** Midnight of the first day of the window. *)
Definition window_start (now days : Z) : result usage_error Z :=
  match datetime_add now (- ((days - 1) * us_per_day)) with
  | Some first => Ok (day_of first * us_per_day)
  | None => raise UsageOverflow
  end.

(** The defaultdicts: a counter and a set of runs. *)
Definition bump (key : string) (d : list (string * nat)) : list (string * nat) :=
  od_set key (S (default 0%nat (od_get key d))) d.
Definition add_run (key run : string) (d : list (string * gset string)) : list (string * gset string) :=
  od_set key ({[run]} ∪ default ∅ (od_get key d)) d.
Definition count_of (key : string) (d : list (string * nat)) : nat := default 0%nat (od_get key d).
Definition runs_of (key : string) (d : list (string * gset string)) : nat := size (default ∅ (od_get key d)).

Record usage_totals := mkTotals {
  ut_user_messages : nat;
  ut_assistant_messages : nat;
  ut_run_ids : gset string;
  ut_daily_messages : list (string * nat);
  ut_daily_users : list (string * nat);
  ut_daily_assistants : list (string * nat);
  ut_daily_runs : list (string * gset string);
  ut_channel_messages : list (string * nat);
  ut_channel_runs : list (string * gset string)
}.
Definition no_totals : usage_totals := mkTotals 0 0 ∅ [] [] [] [] [] [].

(** The body of the loop over the messages. *)
Definition count_message (acc : usage_totals) (message : Message) (md : MessageMetadata) : usage_totals :=
  let date_key := date_of (ms_timestamp message) in
  let me := ms_is_from_me message in
  {| ut_user_messages := if me then ut_user_messages acc else S (ut_user_messages acc);
     ut_assistant_messages := if me then S (ut_assistant_messages acc) else ut_assistant_messages acc;
     ut_run_ids := match mt_run_id md with Some run => {[run]} ∪ ut_run_ids acc | None => ut_run_ids acc end;
     ut_daily_messages := bump date_key (ut_daily_messages acc);
     ut_daily_users := if me then ut_daily_users acc else bump date_key (ut_daily_users acc);
     ut_daily_assistants := if me then bump date_key (ut_daily_assistants acc) else ut_daily_assistants acc;
     ut_daily_runs := match mt_run_id md with Some run => add_run date_key run (ut_daily_runs acc) | None => ut_daily_runs acc end;
     ut_channel_messages := bump (mt_channel md) (ut_channel_messages acc);
     ut_channel_runs := match mt_run_id md with
                        | Some run => add_run (mt_channel md) run (ut_channel_runs acc)
                        | None => ut_channel_runs acc
                        end |}.

Fixpoint count_messages (acc : usage_totals) (messages : list Message) : result usage_error usage_totals :=
  match messages with
  | [] => Ok acc
  | message :: messages =>
      md ← extract_metadata message;
      count_messages (count_message acc message md) messages
  end.

(** The rows of the table in the order of a query. *)
Definition row_key (m : Message) : Z * string := (ms_timestamp m, ms_id m).
Definition messages_since (start : Z) (table : list Message) : list Message :=
  py_sorted row_key (filter (fun m => start <= ms_timestamp m) table).

Definition get_usage_stats (now days : Z) (table : list Message) : result usage_error UsageStatsSnapshot :=
  let normalized_days := normalize_days days in
  start ← window_start now normalized_days;
  let messages := messages_since start table in
  acc ← count_messages no_totals messages;
  Ok {| us_days := normalized_days;
        us_summary := mkSummary (length messages) (size (ut_run_ids acc)) (ut_user_messages acc)
                        (ut_assistant_messages acc) (length (ut_daily_messages acc));
        us_daily := map (fun date_key => mkDaily date_key (count_of date_key (ut_daily_messages acc))
                           (runs_of date_key (ut_daily_runs acc)) (count_of date_key (ut_daily_users acc))
                           (count_of date_key (ut_daily_assistants acc)))
                        (py_sorted (fun k => k) (od_keys (ut_daily_messages acc)));
        us_channels := map (fun channel => mkChannel channel (count_of channel (ut_channel_messages acc))
                              (runs_of channel (ut_channel_runs acc)))
                           (py_sorted (fun k => (- Z.of_nat (count_of k (ut_channel_messages acc)), k))
                              (od_keys (ut_channel_messages acc))) |}.

(** ** The audit feed *)

Definition audit_item (message : Message) (md : MessageMetadata) : AuditMessageSnapshot :=
  mkAudit (ms_id message) (ms_chat_jid message) (mt_group_id md) (mt_channel md) (mt_run_id md)
    (mt_external_message_id md) (ms_sender message) (ms_is_from_me message) (ms_slot_id message) (ms_content message)
    (ms_timestamp message).

(** The loop over the candidates, left when it has [wanted] items. *)
Fixpoint audit_items (wanted : nat) (group_id : option string) (items : list AuditMessageSnapshot)
    (candidates : list Message) : result usage_error (list AuditMessageSnapshot) :=
  match candidates with
  | [] => Ok items
  | message :: candidates =>
      md ← extract_metadata message;
      if match group_id with Some g => negb (bool_decide (mt_group_id md = g)) | None => false end
      then audit_items wanted group_id items candidates
      else
        let items := items ++ [audit_item message md] in
        if bool_decide (wanted <= length items)%nat then Ok items
        else audit_items wanted group_id items candidates
  end.

Definition normalize_group_id (group_id : option string) : option string :=
  match strip <$> group_id with
  | Some g => if bool_decide (g = ""%string) then None else Some g
  | None => None
  end.

Definition list_audit_messages (limit : Z) (group_id : option string) (table : list Message) :
    result usage_error AuditMessageListSnapshot :=
  let normalized_limit := normalize_limit limit in
  let n := Z.to_nat normalized_limit in
  let normalized_group_id := normalize_group_id group_id in
  let rows := py_sorted_rev row_key table in
  let candidates := match normalized_group_id with None => take (n + 1) rows | Some _ => rows end in
  items ← audit_items (n + 1) normalized_group_id [] candidates;
  Ok (mkAuditList (take n items) normalized_limit normalized_group_id (bool_decide (n < length items)%nat)).

(** ** The routes *)

(** [GET /usage/stats] and [GET /audit/messages]: their guard. *)
Definition may_read_usage (u : AuthUser) : bool := bool_decide (au_role u = Some "owner" \/ au_role u = Some "admin")%string.
Definition usage_route {A} (u : AuthUser) (r : result usage_error A) : result http_error A :=
  if negb (may_read_usage u) then raise (403, "permission denied"%string)
  else match r with Ok a => Ok a | Err _ => raise server_error end.
