(* ===== verification/UsageAuditProps.v ===== *)
(** * Properties of the usage statistics and the audit feed *)

From stdpp Require Import base tactics list option strings gmap sorting.
From Stdlib Require Import ZArith Lia Ascii.
From S2P Require Import Prelude PyStr PyInt PyTime PySort PyDict PyJson PyJsonProps Auth Db Groups Messages UsageAudit.

Local Open Scope Z_scope.

(** ** The order of dates and of their text *)

Lemma compare_cons a b x y :
  String.compare (of_chars (a :: x)) (of_chars (b :: y)) = lex (Ascii.compare a b) (String.compare (of_chars x) (of_chars y)).
Proof. unfold lex. simpl. by destruct (Ascii.compare a b). Qed.

Lemma digit_compare a b : 0 <= a < 10 -> 0 <= b < 10 -> Ascii.compare (digit_char a) (digit_char b) = (a ?= b).
Proof.
  intros Ha Hb. revert a Ha.
  apply (digit_cases (fun a => Ascii.compare (digit_char a) (digit_char b) = (a ?= b))).
  revert b Hb.
  apply (digit_cases (fun b => forallb (fun a => bool_decide (Ascii.compare (digit_char a) (digit_char b) = (a ?= b))) (seqZ 0 10) = true)).
  vm_compute. reflexivity.
Qed.

Lemma compare_fixed k a b x y :
  0 <= a < 10 ^ Z.of_nat k -> 0 <= b < 10 ^ Z.of_nat k ->
  String.compare (of_chars (fixed k a ++ x)) (of_chars (fixed k b ++ y)) =
  lex (a ?= b) (String.compare (of_chars x) (of_chars y)).
Proof.
  revert a b x y. induction k as [|k IH]; intros a b x y Ha Hb.
  - simpl in Ha, Hb. replace a with 0 by lia. by replace b with 0 by lia.
  - rewrite Nat2Z.inj_succ, Z.pow_succ_r in Ha, Hb by lia. cbn [fixed]. rewrite <- !app_assoc. cbn [app].
    pose proof (Z.div_mod a 10 ltac:(lia)) as Da. pose proof (Z.mod_pos_bound a 10 ltac:(lia)) as Ra.
    pose proof (Z.div_mod b 10 ltac:(lia)) as Db. pose proof (Z.mod_pos_bound b 10 ltac:(lia)) as Rb.
    rewrite IH by lia. rewrite compare_cons, digit_compare by done.
    destruct (Z.compare_spec (a / 10) (b / 10)); destruct (Z.compare_spec (a mod 10) (b mod 10));
      destruct (Z.compare_spec a b); cbn [lex]; try done; lia.
Qed.

Lemma next_year y : 1 <= y <= 9999 -> days_before_year (y + 1) = days_before_year y + (if is_leap y then 366 else 365).
Proof.
  intros H. apply Z.eqb_eq. revert y H.
  assert (A : forallb (fun y => days_before_year (y + 1) =? days_before_year y + (if is_leap y then 366 else 365)) (seqZ 1 9999) = true)
    by (vm_compute; reflexivity).
  rewrite forallb_forall in A. intros y H. apply A. apply list_elem_of_In, elem_of_seqZ. lia.
Qed.

Lemma days_before_year_mono y y' : 1 <= y -> y <= y' <= 10000 -> days_before_year y <= days_before_year y'.
Proof.
  intros H [L U]. revert L U. apply (Zlt_lower_bound_ind (fun z => z <= 10000 -> days_before_year y <= days_before_year z)).
  intros z IH L U. destruct (decide (z = y)) as [->|N]; [lia|].
  specialize (IH (z - 1) ltac:(lia) ltac:(lia)). pose proof (next_year (z - 1) ltac:(lia)) as E.
  replace (z - 1 + 1) with z in E by lia. destruct (is_leap (z - 1)); lia.
Qed.

Lemma day_of_year leap m d :
  1 <= m <= 12 -> 1 <= d <= days_in_month leap m ->
  1 <= days_before_month leap m + d <= (if leap then 366 else 365) /\
  (m < 12 -> days_before_month leap m + days_in_month leap m <= days_before_month leap (m + 1)).
Proof.
  intros Hm Hd.
  assert (A : forallb (fun leap => forallb (fun m => (0 <=? days_before_month leap m) &&
      (days_before_month leap m + days_in_month leap m <=? (if leap then 366 else 365)) &&
      ((12 <=? m) || (days_before_month leap m + days_in_month leap m <=? days_before_month leap (m + 1))))
    (seqZ 1 12)) [true; false] = true) by (vm_compute; reflexivity).
  rewrite forallb_forall in A. specialize (A leap (ltac:(destruct leap; simpl; tauto))).
  rewrite forallb_forall in A. specialize (A m (ltac:(apply list_elem_of_In, elem_of_seqZ; lia))).
  bool_hyps. rewrite orb_true_iff, !Z.leb_le in *. lia.
Qed.

Lemma valid_date_unfold y m d : valid_date y m d = true ->
  1 <= y <= 9999 /\ 1 <= m <= 12 /\ 1 <= d <= days_in_month (is_leap y) m.
Proof. unfold valid_date. intros H. bool_hyps. rewrite ?Z.leb_le in *. lia. Qed.

Lemma before_month_mono leap m m' : 1 <= m -> m <= m' <= 12 -> days_before_month leap m <= days_before_month leap m'.
Proof.
  intros H [L U].
  assert (A : forallb (fun leap => forallb (fun a => forallb (fun b => (b <? a) || (days_before_month leap a <=? days_before_month leap b))
    (seqZ 1 12)) (seqZ 1 12)) [true; false] = true) by (vm_compute; reflexivity).
  rewrite forallb_forall in A. specialize (A leap (ltac:(destruct leap; simpl; tauto))).
  rewrite forallb_forall in A. specialize (A m (ltac:(apply list_elem_of_In, elem_of_seqZ; lia))).
  rewrite forallb_forall in A. specialize (A m' (ltac:(apply list_elem_of_In, elem_of_seqZ; lia))).
  apply orb_true_iff in A as [A|A]; [apply Z.ltb_lt in A|apply Z.leb_le in A]; lia.
Qed.

(** Days compare as their dates do. *)
Lemma compare_dates y m d y' m' d' :
  valid_date y m d = true -> valid_date y' m' d' = true ->
  (ymd2ord y m d ?= ymd2ord y' m' d') = lex (y ?= y') (lex (m ?= m') (d ?= d')).
Proof.
  intros (Y & M & D)%valid_date_unfold (Y' & M' & D')%valid_date_unfold. unfold ymd2ord.
  destruct (day_of_year _ m d M D) as [B N]. destruct (day_of_year _ m' d' M' D') as [B' N'].
  destruct (Z.compare_spec y y') as [<-|L|L]; cbn [lex].
  - destruct (Z.compare_spec m m') as [<-|L|L]; cbn [lex].
    + destruct (Z.compare_spec d d'); destruct (Z.compare_spec (days_before_year y + days_before_month (is_leap y) m + d)
        (days_before_year y + days_before_month (is_leap y) m + d')); (done || lia).
    + pose proof (before_month_mono (is_leap y) (m + 1) m' ltac:(lia) ltac:(lia)). apply Z.compare_lt_iff. lia.
    + pose proof (before_month_mono (is_leap y) (m' + 1) m ltac:(lia) ltac:(lia)). apply Z.compare_gt_iff. lia.
  - pose proof (next_year y Y). pose proof (days_before_year_mono (y + 1) y' ltac:(lia) ltac:(lia)). apply Z.compare_lt_iff.
    destruct (is_leap y), (is_leap y'); lia.
  - pose proof (next_year y' Y'). pose proof (days_before_year_mono (y' + 1) y ltac:(lia) ltac:(lia)). apply Z.compare_gt_iff.
    destruct (is_leap y), (is_leap y'); lia.
Qed.

Definition in_calendar (day : Z) : Prop := 1 <= day + epoch_ordinal <= 3652059.

Lemma date_of_day_order p q : in_calendar p -> in_calendar q ->
  String.compare (date_of_day p) (date_of_day q) = (p ?= q).
Proof.
  intros Hp Hq. pose proof (ord2ymd_spec _ Hp) as Sp. pose proof (ord2ymd_spec _ Hq) as Sq. unfold date_of_day.
  destruct (ord2ymd (p + epoch_ordinal)) as [[y m] d]. destruct (ord2ymd (q + epoch_ordinal)) as [[y' m'] d'].
  destruct Sp as [Vp Ep], Sq as [Vq Eq]. pose proof (compare_dates _ _ _ _ _ _ Vp Vq) as C.
  apply valid_date_bounds in Vp as (? & ? & ?), Vq as (? & ? & ?).
  rewrite compare_fixed by lia. rewrite compare_cons, compare_fixed by lia. rewrite compare_cons.
  rewrite <- (app_nil_r (fixed 2 d)), <- (app_nil_r (fixed 2 d')), compare_fixed by lia.
  rewrite Ep, Eq in C. 
  assert (S : (p + epoch_ordinal ?= q + epoch_ordinal) = (p ?= q)) by (rewrite !(Z.add_comm _ epoch_ordinal); apply Z.add_compare_mono_l).
  rewrite <- S, C.
  change (Ascii.compare "-" "-") with Datatypes.Eq. cbn [lex]. f_equal. f_equal.
  by destruct (d ?= d').
Qed.

Lemma date_of_day_inj p q : in_calendar p -> in_calendar q -> date_of_day p = date_of_day q -> p = q.
Proof. intros Hp Hq E. apply Z.compare_eq_iff. rewrite <- date_of_day_order, E by done. apply (pcmp_refl (date_of_day q)). Qed.

(** ** Counting *)

Definition tally (keys : list string) (d : list (string * nat)) : list (string * nat) := foldl (fun d k => bump k d) d keys.
Definition tally_runs (l : list (string * string)) (d : list (string * gset string)) : list (string * gset string) :=
  foldl (fun d e => add_run e.1 e.2 d) d l.

Lemma tally_count keys d k : count_of k (tally keys d) = (count_of k d + length (filter (eq k) keys))%nat.
Proof.
  revert d. induction keys as [|k' keys IH]; intros d; [simpl; lia|]. cbn [tally foldl]. fold (tally keys (bump k' d)).
  rewrite IH. unfold count_of, bump. rewrite od_get_set, filter_cons.
  destruct (decide (k' = k)) as [->|N]; [rewrite decide_True by done; simpl; lia|].
  rewrite decide_False by congruence. done.
Qed.

Lemma tally_keys keys d k : k ∈ od_keys (tally keys d) <-> k ∈ od_keys d \/ k ∈ keys.
Proof.
  revert d. induction keys as [|k' keys IH]; intros d; [simpl; set_solver|]. cbn [tally foldl]. fold (tally keys (bump k' d)).
  rewrite IH. unfold bump. destruct (decide (k' ∈ od_keys d)) as [H|H].
  - rewrite od_keys_set_in by done. set_solver.
  - rewrite od_keys_set_notin by done. set_solver.
Qed.

Lemma tally_nodup keys d : od_wf d -> od_wf (tally keys d).
Proof.
  revert d. induction keys as [|k' keys IH]; intros d W; [done|]. cbn [tally foldl]. by apply IH, od_wf_set.
Qed.

Lemma tally_runs_spec l d k :
  default ∅ (od_get k (tally_runs l d)) =
  default ∅ (od_get k d) ∪ list_to_set (filter (fun e => k = e.1) l).*2.
Proof.
  revert d. induction l as [|[k' run] l IH]; intros d; [simpl; set_solver|].
  change (tally_runs ((k', run) :: l) d) with (tally_runs l (add_run k' run d)). rewrite IH. unfold add_run. cbn [fst snd].
  rewrite od_get_set, filter_cons. destruct (decide (k' = k)) as [->|N].
  - rewrite decide_True by done. cbn. set_solver.
  - rewrite decide_False by (cbn; congruence). done.
Qed.

(** ** What a stored message tells *)

(** A row that [store_message] wrote. *)
Definition stored (m : Message) : Prop :=
  exists channel folder run external, ms_attachments m = build_attachments_payload channel folder run external.

(** The metadata, from what was given to [store_message]. *)
Definition clean (value : option string) : option string := as_non_empty_string (JStr <$> value).
Definition stored_metadata (chat_jid : string) (channel folder run external : option string) : MessageMetadata :=
  mkMetadata
    (match clean channel with
     | Some c => if bool_decide (c ∈ ["web"; "feishu"; "telegram"]%string) then c else channel_of_jid chat_jid
     | None => channel_of_jid chat_jid
     end)
    (default (group_of_jid chat_jid) (clean folder)) (clean run) (clean external).

Lemma parse_stored channel folder run external :
  exists d, parse_attachments (attachments_text (build_attachments_payload channel folder run external)) = Ok d /\
    od_get "channel"%string d = JStr <$> channel /\ od_get "group_folder"%string d = JStr <$> folder /\
    od_get "run_id"%string d = JStr <$> run /\ od_get "external_message_id"%string d = JStr <$> external.
Proof.
  unfold build_attachments_payload. set (l := omap _ _).
  assert (W : od_wf (map (fun e => (e.1, JStr e.2)) l) /\ Forall (fun e : string * json => scalar e.2 = true) (map (fun e => (e.1, JStr e.2)) l) /\
    od_get "channel"%string (map (fun e => (e.1, JStr e.2)) l) = JStr <$> channel /\
    od_get "group_folder"%string (map (fun e => (e.1, JStr e.2)) l) = JStr <$> folder /\
    od_get "run_id"%string (map (fun e => (e.1, JStr e.2)) l) = JStr <$> run /\
    od_get "external_message_id"%string (map (fun e => (e.1, JStr e.2)) l) = JStr <$> external).
  { subst l. split; [|split; [by apply Forall_map, Forall_true|]].
    - destruct channel, folder, run, external; apply (bool_decide_unpack _); reflexivity.
    - destruct channel, folder, run, external; repeat split; reflexivity. }
  clearbody l. destruct l as [|e l].
  { exists []. destruct W as (_ & _ & <- & <- & <- & <-). done. }
  destruct W as (W & Sc & G). set (d := map _ _) in *. destruct (sort_keys_get d W Sc) as (d' & E & _ & G').
  exists d'. rewrite !G'. split; [|done]. cbn [attachments_text fmap option_fmap option_map parse_attachments].
  assert (J : json_wf (JObj d)).
  { cbn [json_wf]. split; [done|]. apply fold_and_Forall. unfold d. apply Forall_map, Forall_true. done. }
  pose proof (dumps_ascii_roundtrip (fun lit => lit) (JObj d) J) as R. rewrite E in R. fold d. rewrite R.
  by rewrite bool_decide_eq_false_2; [|intros Z; rewrite Z in R].
Qed.

Lemma extract_stored m channel folder run external :
  ms_attachments m = build_attachments_payload channel folder run external ->
  extract_metadata m = Ok (stored_metadata (ms_chat_jid m) channel folder run external).
Proof.
  intros E. unfold extract_metadata. rewrite E.
  destruct (parse_stored channel folder run external) as (d & -> & C & G & R & X). cbn [mbind result_bind].
  unfold infer_channel, infer_group_id. rewrite C, G, R, X. unfold stored_metadata, clean. done.
Qed.

(** The metadata of a row; of a stored one, without the error. *)
Definition metadata (m : Message) : MessageMetadata :=
  match extract_metadata m with Ok md => md | Err _ => mkMetadata "" "" None None end.
Lemma stored_extract m : stored m -> extract_metadata m = Ok (metadata m).
Proof. intros (c & f & r & x & E). unfold metadata. by rewrite (extract_stored _ _ _ _ _ E). Qed.

(** ** The loop, by counter *)

Definition day (m : Message) : Z := day_of (ms_timestamp m).
Definition run_pairs (key : Message -> string) (l : list Message) : list (string * string) :=
  omap (fun m => pair (key m) <$> mt_run_id (metadata m)) l.
Definition runs (l : list Message) : gset string := list_to_set (omap (fun m => mt_run_id (metadata m)) l).
Definition assistant (m : Message) : Prop := ms_is_from_me m = true.
Definition user (m : Message) : Prop := ms_is_from_me m = false.
Definition date_key (m : Message) : string := date_of (ms_timestamp m).
Definition channel (m : Message) : string := mt_channel (metadata m).

Definition totals_after (acc : usage_totals) (l : list Message) : usage_totals :=
  {| ut_user_messages := (ut_user_messages acc + length (filter user l))%nat;
     ut_assistant_messages := (ut_assistant_messages acc + length (filter assistant l))%nat;
     ut_run_ids := runs l ∪ ut_run_ids acc;
     ut_daily_messages := tally (date_key <$> l) (ut_daily_messages acc);
     ut_daily_users := tally (date_key <$> filter user l) (ut_daily_users acc);
     ut_daily_assistants := tally (date_key <$> filter assistant l) (ut_daily_assistants acc);
     ut_daily_runs := tally_runs (run_pairs date_key l) (ut_daily_runs acc);
     ut_channel_messages := tally (channel <$> l) (ut_channel_messages acc);
     ut_channel_runs := tally_runs (run_pairs channel l) (ut_channel_runs acc) |}.

Lemma count_messages_spec l acc :
  Forall stored l -> count_messages acc l = Ok (totals_after acc l).
Proof.
  intros F. revert acc. induction F as [|m l S F IH]; intros acc.
  - destruct acc. unfold totals_after, runs. cbn. do 2 f_equal; [lia|lia|set_solver].
  - cbn [count_messages]. rewrite (stored_extract m S). cbn [mbind result_bind]. rewrite IH. f_equal.
    unfold totals_after. rewrite !filter_cons. unfold user, assistant, count_message, runs, run_pairs, channel.
    fold (date_key m).
    destruct (ms_is_from_me m), (mt_run_id (metadata m)) as [run|] eqn:Er; cbn; rewrite ?Er; cbn; f_equal;
      try lia; set_solver.
Qed.

(** ** The statistics, by definition *)

(** The rows of the table, in any order, that count for a day or a channel. *)
Definition day_row (l : list Message) (p : Z) : UsageDailyBreakdownSnapshot :=
  let today := filter (fun m => day m = p) l in
  mkDaily (date_of_day p) (length today) (size (runs today)) (length (filter user today)) (length (filter assistant today)).
Definition active_days (l : list Message) : list Z := py_sorted (fun p => p) (remove_dups (day <$> l)).
Definition channel_row (l : list Message) (c : string) : UsageChannelBreakdownSnapshot :=
  let here := filter (fun m => channel m = c) l in mkChannel c (length here) (size (runs here)).
Definition channel_key (l : list Message) (c : string) : Z * string :=
  (- Z.of_nat (length (filter (fun m => channel m = c) l)), c).
Definition active_channels (l : list Message) : list string := py_sorted (channel_key l) (remove_dups (channel <$> l)).

#[export] Instance runs_perm : Proper ((≡ₚ) ==> eq) runs.
Proof. intros l l' P. unfold runs. by rewrite P. Qed.
#[export] Instance day_row_perm : Proper ((≡ₚ) ==> eq ==> eq) day_row.
Proof. intros l l' P p ? <-. unfold day_row. by rewrite P. Qed.
#[export] Instance channel_row_perm : Proper ((≡ₚ) ==> eq ==> eq) channel_row.
Proof. intros l l' P c ? <-. unfold channel_row. by rewrite P. Qed.

Lemma remove_dups_perm {A} `{EqDecision A} (l l' : list A) : l ≡ₚ l' -> remove_dups l ≡ₚ remove_dups l'.
Proof.
  intros P. apply NoDup_Permutation; [apply NoDup_remove_dups..|]. intros x. rewrite !elem_of_remove_dups. by rewrite P.
Qed.

Lemma active_days_perm l l' : l ≡ₚ l' -> active_days l = active_days l'.
Proof.
  intros P. apply py_sorted_determined; [by intros x y _ _ E%Z.compare_eq_iff|]. apply remove_dups_perm. by rewrite P.
Qed.

Lemma sort_by_ext {A} (f g : A -> A -> bool) l : (forall x y, f x y = g x y) -> sort_by f l = sort_by g l.
Proof.
  intros E. induction l as [|x l IH]; [done|]. simpl. rewrite IH. generalize (sort_by g l) as k. clear -E.
  induction k as [|y k IH]; [done|]. simpl. by rewrite E, IH.
Qed.
Lemma py_sorted_ext {A K} `{PyOrd K} (f g : A -> K) l : (forall x, f x = g x) -> py_sorted f l = py_sorted g l.
Proof. intros E. apply sort_by_ext. intros x y. unfold key_leb. by rewrite !E. Qed.

Lemma channels_determined l l' k k' :
  l ≡ₚ l' -> k ≡ₚ k' -> py_sorted (channel_key l) k = py_sorted (channel_key l') k'.
Proof.
  intros P Pk. rewrite (py_sorted_ext (channel_key l) (channel_key l')); [|intros x; unfold channel_key; by rewrite P].
  apply py_sorted_determined; [|done]. intros x y _ _ E. unfold pcmp, PyOrd_pair, channel_key in E. cbn [fst snd] in E.
  unfold lex in E. destruct (pcmp _ _) in E; try done. by apply String.compare_eq_iff.
Qed.

(** ** The counters, by definition *)

Lemma filter_key {A} (f : A -> string) k l : length (filter (eq k) (f <$> l)) = length (filter (fun m => f m = k) l).
Proof.
  induction l as [|m l IH]; [done|]. cbn [fmap list_fmap]. rewrite !filter_cons.
  destruct (decide (f m = k)) as [E|N]; [rewrite decide_True by done; cbn; by rewrite IH|]. by rewrite decide_False by congruence.
Qed.

Lemma run_pairs_key key k l :
  (filter (fun e => k = e.1) (run_pairs key l)).*2 = omap (fun m => mt_run_id (metadata m)) (filter (fun m => key m = k) l).
Proof.
  induction l as [|m l IH]; [done|]. unfold run_pairs in *. cbn [omap list_omap]. rewrite filter_cons.
  destruct (mt_run_id (metadata m)) as [run|] eqn:R; cbn [fmap option_fmap option_map].
  - rewrite filter_cons. cbn [fst]. destruct (decide (key m = k)) as [E|N].
    + rewrite decide_True by done. cbn [omap list_omap fmap list_fmap snd]. by rewrite R, IH.
    + by rewrite decide_False by congruence.
  - rewrite IH. destruct (decide (key m = k)); [|done]. cbn [omap list_omap]. by rewrite R.
Qed.

Lemma runs_of_key key k l :
  runs_of k (tally_runs (run_pairs key l) []) = size (runs (filter (fun m => key m = k) l)).
Proof. unfold runs_of. rewrite tally_runs_spec, run_pairs_key. unfold runs. cbn [od_get]. cbn. by rewrite (left_id_L ∅ (∪)). Qed.

Lemma filter_comm (P Q : Message -> Prop) `{forall m, Decision (P m), forall m, Decision (Q m)} (l : list Message) :
  filter P (filter Q l) = filter Q (filter P l).
Proof. rewrite !list_filter_filter. apply list_filter_iff. tauto. Qed.

Lemma filter_date p l :
  in_calendar p -> Forall (fun m => in_calendar (day m)) l ->
  filter (fun m => date_key m = date_of_day p) l = filter (fun m => day m = p) l.
Proof.
  intros Hp F. induction F as [|m l Hm F IH]; [done|]. rewrite !filter_cons, IH.
  destruct (decide (day m = p)) as [E|N].
  - rewrite decide_True; [done|]. unfold date_key, date_of. by f_equal.
  - rewrite decide_False; [done|]. intros E. by apply N, date_of_day_inj.
Qed.

Lemma daily_counted p l :
  in_calendar p -> Forall (fun m => in_calendar (day m)) l ->
  count_of (date_of_day p) (tally (date_key <$> l) []) = length (filter (fun m => day m = p) l).
Proof. intros Hp F. rewrite tally_count, filter_key, filter_date by done. done. Qed.

Lemma filter_calendar (P : Message -> Prop) `{forall m, Decision (P m)} (l : list Message) :
  Forall (fun m => in_calendar (day m)) l -> Forall (fun m => in_calendar (day m)) (filter P l).
Proof. rewrite !Forall_forall. intros F m [_ Hm]%list_elem_of_filter. auto. Qed.

Lemma active_calendar l p : Forall (fun m => in_calendar (day m)) l -> p ∈ active_days l -> in_calendar p.
Proof.
  intros F. rewrite Forall_forall in F. unfold active_days. rewrite py_sorted_elem, elem_of_remove_dups.
  intros (m & -> & Hm)%list_elem_of_fmap. auto.
Qed.

(** The sorted keys are the texts of the days in order. *)
Lemma sorted_dates l :
  Forall (fun m => in_calendar (day m)) l ->
  py_sorted (fun k => k) (od_keys (tally (date_key <$> l) [])) = date_of_day <$> active_days l.
Proof.
  intros F. apply (sorted_perm_unique (key_leb (fun k => k))).
  - intros x y _ _ H1 H2. pose proof (key_leb_antisym (fun k : string => k) x y H1 H2) as E. by apply String.compare_eq_iff.
  - apply py_sorted_sorted.
  - pose proof (py_sorted_sorted (fun p : Z => p) (remove_dups (day <$> l))) as S.
    fold (active_days l) in S. pose proof (fun p => active_calendar l p F) as C. revert S C.
    induction (active_days l) as [|p ps IH]; intros S C; [constructor|]. cbn. inversion S as [|? ? S' Fp]; subst.
    constructor; [apply IH; [done|]; intros q Hq; apply C; by right|]. apply Forall_map. rewrite Forall_forall in *.
    intros q Hq. specialize (Fp q Hq). unfold key_leb in *. change (pcmp (date_of_day p) (date_of_day q)) with
      (String.compare (date_of_day p) (date_of_day q)). rewrite date_of_day_order; [exact Fp|apply C; left|apply C; by right].
  - rewrite py_sorted_perm. apply NoDup_Permutation.
    + apply tally_nodup. constructor.
    + unfold active_days. rewrite py_sorted_perm. apply NoDup_fmap_2_strong; [|apply NoDup_remove_dups].
      intros p q Hp Hq. apply date_of_day_inj; eapply active_calendar; try exact F; unfold active_days; by rewrite py_sorted_elem.
    + intros k. rewrite tally_keys. split.
      * intros [H|(m & -> & Hm)%list_elem_of_fmap]; [by apply not_elem_of_nil in H|].
        apply list_elem_of_fmap. exists (day m). split; [done|]. unfold active_days. rewrite py_sorted_elem, elem_of_remove_dups. by apply list_elem_of_fmap_2.
      * intros (p & -> & Hp)%list_elem_of_fmap. unfold active_days in Hp. rewrite py_sorted_elem, elem_of_remove_dups in Hp.
        apply list_elem_of_fmap in Hp as (m & -> & Hm). right. apply list_elem_of_fmap. by exists m.
Qed.

Lemma daily_spec l :
  Forall (fun m => in_calendar (day m)) l ->
  let t := totals_after no_totals l in
  map (fun date_key => mkDaily date_key (count_of date_key (ut_daily_messages t)) (runs_of date_key (ut_daily_runs t))
         (count_of date_key (ut_daily_users t)) (count_of date_key (ut_daily_assistants t)))
      (py_sorted (fun k => k) (od_keys (ut_daily_messages t))) = day_row l <$> active_days l.
Proof.
  intros F t. cbn [t totals_after no_totals ut_daily_messages ut_daily_runs ut_daily_users ut_daily_assistants].
  rewrite sorted_dates by done. rewrite <- list_fmap_compose. apply list_fmap_ext. intros i p Hp.
  apply list_elem_of_lookup_2, (active_calendar l p F) in Hp. cbn [compose]. unfold day_row.
  rewrite !daily_counted, runs_of_key, filter_date by (try apply filter_calendar; done).
  by rewrite (filter_comm (fun m => day m = p) user), (filter_comm (fun m => day m = p) assistant).
Qed.

Lemma channels_spec l :
  let t := totals_after no_totals l in
  map (fun c => mkChannel c (count_of c (ut_channel_messages t)) (runs_of c (ut_channel_runs t)))
      (py_sorted (fun k => (- Z.of_nat (count_of k (ut_channel_messages t)), k)) (od_keys (ut_channel_messages t))) =
  channel_row l <$> active_channels l.
Proof.
  intros t. cbn [t totals_after no_totals ut_channel_messages ut_channel_runs].
  assert (C : forall c, count_of c (tally (channel <$> l) []) = length (filter (fun m => channel m = c) l))
    by (intros c; by rewrite tally_count, filter_key).
  rewrite (py_sorted_ext _ (channel_key l)) by (intros c; unfold channel_key; by rewrite C).
  unfold active_channels. rewrite (channels_determined l l (od_keys (tally (channel <$> l) [])) (remove_dups (channel <$> l))); [|done|].
  - apply list_fmap_ext. intros i c _. unfold channel_row. by rewrite C, runs_of_key.
  - apply NoDup_Permutation; [apply tally_nodup; constructor|apply NoDup_remove_dups|].
    intros c. rewrite tally_keys, elem_of_remove_dups. split; [intros [H|H]; [by apply not_elem_of_nil in H|done]|by right].
Qed.

Lemma length_days l : length (ut_daily_messages (totals_after no_totals l)) = length (remove_dups (date_key <$> l)).
Proof.
  cbn [totals_after ut_daily_messages no_totals]. rewrite <- (length_fmap fst). apply Permutation_length, NoDup_Permutation.
  - apply (tally_nodup (date_key <$> l) []). constructor.
  - apply NoDup_remove_dups.
  - intros k. etransitivity; [apply (tally_keys (date_key <$> l) [] k)|]. rewrite elem_of_remove_dups.
    split; [intros [H|H]; [by apply not_elem_of_nil in H|done]|by right].
Qed.

Lemma window_start_spec now days :
  datetime_min <= now - (days - 1) * us_per_day -> 1 <= days -> now <= datetime_max ->
  window_start now days = Ok ((day_of now - (days - 1)) * us_per_day).
Proof.
  intros L H U. unfold window_start. rewrite (proj2 (datetime_add_some _ _ (now - (days - 1) * us_per_day))).
  - do 2 f_equal. unfold day_of. replace (now - (days - 1) * us_per_day) with (now + (- (days - 1)) * us_per_day) by lia.
    rewrite Z.div_add by done. lia.
  - unfold us_per_day in *. lia.
Qed.

Lemma since_day p t : p * us_per_day <= t <-> p <= day_of t.
Proof.
  unfold day_of. pose proof (Z.div_mod t us_per_day ltac:(done)). pose proof (Z.mod_pos_bound t us_per_day ltac:(done)).
  unfold us_per_day in *. nia.
Qed.

Lemma datetime_calendar t : datetime_min <= t <= datetime_max -> in_calendar (day_of t).
Proof.
  unfold datetime_min, datetime_max, in_calendar, day_of, epoch_ordinal, us_per_day. intros H.
  pose proof (Z.div_mod t 86400000000 ltac:(lia)). pose proof (Z.mod_pos_bound t 86400000000 ltac:(lia)). lia.
Qed.

(** The rows that count for a request at [now], in any order. *)
Definition window (now days : Z) (table : list Message) : list Message :=
  filter (fun m => day_of now - (days - 1) <= day m) table.

Lemma messages_since_window now days table :
  messages_since ((day_of now - (days - 1)) * us_per_day) table ≡ₚ window now days table.
Proof.
  unfold messages_since. rewrite py_sorted_perm. unfold window.
  rewrite (list_filter_iff _ (fun m => day_of now - (days - 1) <= day m)); [done|]. intros m. apply since_day.
Qed.

(** At most one active day per day of the window, if the table is not ahead of the clock. *)
Lemma active_days_bound now days table :
  1 <= days -> Forall (fun m => day m <= day_of now) table ->
  (length (active_days (window now days table)) <= Z.to_nat days)%nat.
Proof.
  intros D F. rewrite Forall_forall in F. rewrite <- (length_seqZ (day_of now - (days - 1)) days).
  apply submseteq_length, NoDup_submseteq; unfold active_days.
  - rewrite py_sorted_perm. apply NoDup_remove_dups.
  - intros p. rewrite py_sorted_elem, elem_of_remove_dups.
    intros (m & -> & [W Hm]%list_elem_of_filter)%list_elem_of_fmap. apply elem_of_seqZ. specialize (F m Hm). lia.
Qed.

Definition valid_now (now : Z) : Prop := datetime_min + 364 * us_per_day <= now <= datetime_max.

(** C37: The statistics are the counts of the definition. For a table the service wrote,
    the report for any number of days, clamped to 1 to 365, counts exactly the messages
    from midnight of the first day on: the totals; for every day with a message, in the
    order of the days, its messages, its distinct runs, and those of users and of the
    assistant; and for every channel, the busiest first and then by name, its messages
    and distinct runs. It has at most one row per day of the window. *)
Theorem usage_stats_spec now days table :
  valid_now now -> Forall stored table -> Forall (fun m => datetime_min <= ms_timestamp m <= datetime_max) table ->
  let l := window now (normalize_days days) table in
  get_usage_stats now days table =
    Ok {| us_days := normalize_days days;
          us_summary := mkSummary (length l) (size (runs l)) (length (filter user l)) (length (filter assistant l))
                          (length (active_days l));
          us_daily := day_row l <$> active_days l;
          us_channels := channel_row l <$> active_channels l |} /\
  (Forall (fun m => ms_timestamp m <= now) table -> (length (active_days l) <= Z.to_nat (normalize_days days))%nat).
Proof.
  intros V St Ts l. assert (D : 1 <= normalize_days days <= 365) by (unfold normalize_days; lia). split.
  - unfold get_usage_stats. rewrite window_start_spec by (unfold valid_now, us_per_day in *; lia). cbn [mbind result_bind].
    pose proof (messages_since_window now (normalize_days days) table) as P. fold l in P.
    set (ms := messages_since _ _) in *.
    assert (Cl : Forall (fun m => in_calendar (day m)) l).
    { apply filter_calendar. eapply Forall_impl; [exact Ts|]. intros m. apply datetime_calendar. }
    assert (Sl : Forall stored l).
    { rewrite Forall_forall in *. intros m [_ Hm]%list_elem_of_filter. auto. }
    assert (Cm : Forall (fun m => in_calendar (day m)) ms) by (by rewrite P).
    rewrite count_messages_spec by (by rewrite P). cbn [mbind result_bind]. f_equal.
    rewrite daily_spec, channels_spec, length_days by done.
    assert (Ld : length (remove_dups (date_key <$> ms)) = length (active_days ms)).
    { rewrite <- length_days, <- (length_fmap date_of_day (active_days ms)), <- sorted_dates by done.
      rewrite py_sorted_perm. unfold od_keys. by rewrite length_fmap. }
    rewrite Ld, (active_days_perm _ _ P). unfold active_channels.
    rewrite (channels_determined ms l _ (remove_dups (channel <$> l)) P) by (apply remove_dups_perm; by rewrite P).
    cbn [totals_after ut_run_ids ut_user_messages ut_assistant_messages no_totals]. rewrite (right_id_L ∅ (∪)).
    f_equal; [by rewrite P| |]; apply list_fmap_ext; intros i x _; by rewrite P.
  - intros F. apply active_days_bound; [lia|]. eapply Forall_impl; [exact F|]. intros m H. cbn in H.
    unfold day, day_of. by apply Z.div_le_mono.
Qed.

(** ** The audit feed *)

Definition of_group (group_id : option string) (m : Message) : bool :=
  match group_id with Some g => bool_decide (mt_group_id (metadata m) = g) | None => true end.
Definition audit_row (m : Message) : AuditMessageSnapshot := audit_item m (metadata m).
(** The rows of a group, newest first. *)
Definition feed (group_id : option string) (table : list Message) : list Message :=
  filter (fun m => of_group group_id m = true) (py_sorted_rev row_key table).

Lemma audit_items_spec wanted g l items :
  Forall stored l -> (length items < wanted)%nat ->
  audit_items wanted g items l =
  Ok (take wanted (items ++ (audit_row <$> filter (fun m => of_group g m = true) l))).
Proof.
  intros F. revert items. induction F as [|m l S F IH]; intros items L; cbn [audit_items].
  - cbn. rewrite app_nil_r, take_ge by lia. done.
  - rewrite (stored_extract m S). cbn [mbind result_bind]. rewrite filter_cons.
    replace (match g with Some g => negb (bool_decide (mt_group_id (metadata m) = g)) | None => false end)
      with (negb (of_group g m)) by (by destruct g).
    destruct (of_group g m); cbn [negb].
    + rewrite decide_True by done. change (audit_item m (metadata m)) with (audit_row m).
      rewrite fmap_cons.
      set (k := audit_row <$> _) in *. replace (items ++ audit_row m :: k) with ((items ++ [audit_row m]) ++ k) by (by rewrite <- app_assoc).
      case_bool_decide as H.
      * rewrite length_app in H. cbn in H.
        by rewrite take_app_length' by (rewrite length_app; cbn; lia).
      * apply IH. rewrite length_app in H. rewrite length_app. cbn in *. lia.
    + rewrite decide_False by done. by apply IH.
Qed.

Lemma of_no_group (l : list Message) : filter (fun m => of_group None m = true) l = l.
Proof. induction l as [|m l IH]; [done|]. by rewrite filter_cons, decide_True, IH. Qed.

(** The audit feed is the newest rows. For a table the service wrote, a request
    answers the first rows, at most the limit clamped to 1 to 200, of the feed of the
    group asked for, trimmed, or of all groups, newest first; and it says that there
    are more exactly when there are. *)
Theorem audit_feed_page limit group_id table :
  Forall stored table ->
  let n := Z.to_nat (normalize_limit limit) in
  let rows := feed (normalize_group_id group_id) table in
  list_audit_messages limit group_id table =
    Ok (mkAuditList (audit_row <$> take n rows) (normalize_limit limit) (normalize_group_id group_id)
          (bool_decide (n < length rows)%nat)) /\
  StronglySorted (fun a b => key_leb row_key b a = true) rows /\
  (forall m, m ∈ rows <-> m ∈ table /\ of_group (normalize_group_id group_id) m = true).
Proof.
  intros F n rows. split; [|split].
  - unfold list_audit_messages. fold n. set (g := normalize_group_id group_id) in *.
    assert (Fr : Forall stored (py_sorted_rev row_key table)) by (by rewrite py_sorted_rev_perm).
    assert (I : audit_items (n + 1) g [] (match g with None => take (n + 1) (py_sorted_rev row_key table)
                                          | Some _ => py_sorted_rev row_key table end) = Ok (take (n + 1) (audit_row <$> rows))).
    { destruct g as [g0|] eqn:G.
      - rewrite audit_items_spec; [done|done|cbn; lia].
      - rewrite audit_items_spec; [|by apply Forall_take|cbn; lia]. cbn [app]. unfold rows, feed.
        rewrite !of_no_group. by rewrite fmap_take, take_take, Nat.min_id. }
    rewrite I. cbn [mbind result_bind]. rewrite take_take, length_take, length_fmap, <- fmap_take.
    do 2 f_equal; [do 2 f_equal; lia|]. apply bool_decide_ext. lia.
  - unfold rows, feed. pose proof (py_sorted_rev_sorted row_key table) as S. revert S.
    induction (py_sorted_rev row_key table) as [|m l IH]; intros S; [constructor|]. inversion S as [|? ? S' Fm]; subst.
    rewrite filter_cons. destruct (decide _); [|auto]. constructor; [auto|]. rewrite Forall_forall in *.
    intros x [_ Hx]%list_elem_of_filter. auto.
  - intros m. unfold rows, feed. rewrite list_elem_of_filter, py_sorted_rev_elem. tauto.
Qed.

(** ** Writing and reading the attachments *)

Definition clean_text (s : string) : Prop := strip s = s /\ s <> ""%string.
Lemma clean_some s : clean_text s -> clean (Some s) = Some s.
Proof. intros [E N]. unfold clean. cbn. by rewrite E, bool_decide_eq_false_2. Qed.

Section store.
Context {GT MT ST : Type} `{Table GT string RegisteredGroup} `{Table MT (string * string) GroupMember}
  `{Table ST (string * string) ConversationSlot}.

(** What a message is stored under is what the reports read. [store_message] adds
    one row, and the metadata the statistics and the feed read from its JSON
    attachments are the channel, the folder, the run and the external id it was given. *)
Theorem stored_metadata_roundtrip id chat sender content me slot channel folder run external now
    (w : world GT MT ST) :
  channel ∈ ["web"; "feishu"; "telegram"]%string -> clean_text folder -> clean_text run -> clean_text external ->
  exists m w', store_message id chat sender content me slot (Some channel) (Some folder) (Some run) (Some external) now w =
                 (Ok m, w') /\
    w_messages w' = w_messages w ++ [m] /\ stored m /\
    extract_metadata m = Ok (mkMetadata channel folder (Some run) (Some external)).
Proof.
  intros Hc Hf Hr Hx. eexists _, _. split; [reflexivity|]. split; [reflexivity|].
  split; [by exists (Some channel), (Some folder), (Some run), (Some external)|].
  rewrite (extract_stored _ (Some channel) (Some folder) (Some run) (Some external)) by done. unfold stored_metadata.
  assert (clean_text channel) as Cc.
  { repeat (apply elem_of_cons in Hc as [->|Hc]; [by split|]). by apply not_elem_of_nil in Hc. }
  rewrite !clean_some by done. by rewrite bool_decide_eq_true_2.
Qed.
End store.

(** ** Concrete tables *)

Definition ux_message (id chat : string) (now : Z) (me : bool) (run : string) : Message :=
  mkMessage id chat "u" "hi" now me "main"
    (build_attachments_payload (Some "web") (Some "team") (Some run) (Some id))%string.
Definition ux_table : list Message :=
  [ux_message "1" "web:team" 1709251200000000 false "r"; ux_message "2" "web:team" 1709251260000000 true "r";
   mkMessage "3" "telegram:7" "u" "hi" 1709164800000000 false "main" None]%string.
Definition ux_now : Z := 1709251300000000.

Lemma ux_stored : Forall stored ux_table.
Proof.
  apply Forall_cons. split; [by exists (Some "web"), (Some "team"), (Some "r"), (Some "1")|].
  apply Forall_cons. split; [by exists (Some "web"), (Some "team"), (Some "r"), (Some "2")|].
  apply Forall_cons. split; [by exists None, None, None, None|done].
Qed.

Example ux_stats : get_usage_stats ux_now 1 ux_table =
  Ok (mkUsage 1 (mkSummary 2 1 1 1 1) [mkDaily "2024-03-01" 2 1 1 1] [mkChannel "web" 2 1]).
Proof. vm_compute. reflexivity. Qed.
Example ux_stats_week : us_channels <$> get_usage_stats ux_now 7 ux_table =
  Ok [mkChannel "web" 2 1; mkChannel "telegram" 1 0].
Proof. vm_compute. reflexivity. Qed.

Lemma usage_stats_spec_witness :
  let l := window ux_now (normalize_days 7) ux_table in
  get_usage_stats ux_now 7 ux_table =
    Ok (mkUsage 7 (mkSummary (length l) (size (runs l)) (length (filter user l)) (length (filter assistant l))
          (length (active_days l))) (day_row l <$> active_days l) (channel_row l <$> active_channels l)) /\
  (Forall (fun m => ms_timestamp m <= ux_now) ux_table -> (length (active_days l) <= 7)%nat).
Proof.
  apply (usage_stats_spec ux_now 7 ux_table); [by split|apply ux_stored|].
  repeat (apply Forall_cons; split; [by split|]). by apply Forall_nil.
Defined.

Lemma audit_feed_page_witness :
  let rows := feed (Some "team"%string) ux_table in
  list_audit_messages 1 (Some " team "%string) ux_table =
    Ok (mkAuditList (audit_row <$> take 1 rows) 1 (Some "team"%string) (bool_decide (1 < length rows)%nat)) /\
  StronglySorted (fun a b => key_leb row_key b a = true) rows /\
  (forall m, m ∈ rows <-> m ∈ ux_table /\ of_group (Some "team"%string) m = true).
Proof. apply (audit_feed_page 1 (Some " team "%string) ux_table). apply ux_stored. Defined.

Lemma stored_metadata_roundtrip_witness :
  let w : world (gmap string RegisteredGroup) (gmap (string * string) GroupMember)
            (gmap (string * string) ConversationSlot) := mkWorld (mkDb ∅ ∅ ∅) [] [] in
  exists m w', store_message "1" "web:team" "u" "hi" false "main" (Some "web") (Some "team") (Some "r") (Some "x") 0 w =
                 (Ok m, w') /\
    w_messages w' = w_messages w ++ [m] /\ stored m /\
    extract_metadata m = Ok (mkMetadata "web" "team" (Some "r") (Some "x"))%string.
Proof.
  apply (stored_metadata_roundtrip "1" "web:team" "u" "hi" false "main" "web" "team" "r" "x" 0); [left|by split..].
Defined.
