(* ===== verification/PyPath.v ===== *)
(** * Lexical paths ([pathlib.PurePosixPath]) and text files

    A path is its list of segments: [Path] drops empty segments and dots and keeps the
    rest, [".."] included, as it stands. The text of a file is its UTF-8 bytes, one
    [ascii] each; reading a text translates its line ends. *)

From stdpp Require Import base list option strings.
From Stdlib Require Import ZArith NArith Lia Ascii.
From S2P Require Import Prelude PyStr SafePath.

(** ** Segments *)

Definition slash : ascii := "/"%char.
Definition dot : ascii := "."%char.

(** [s.split("/")]. *)
Fixpoint split_slash (acc l : list ascii) : list string :=
  match l with
  | [] => [of_chars (rev acc)]
  | c :: l => if bool_decide (c = slash) then of_chars (rev acc) :: split_slash [] l else split_slash (c :: acc) l
  end.

Definition no_segment (s : string) : bool := bool_decide (s = "") || bool_decide (s = ".").

(** The segments of [Path(s)], and whether it is absolute. *)
Definition path_parts (s : string) : path := List.filter (fun n => negb (no_segment n)) (split_slash [] (str_chars s)).
Definition is_absolute (s : string) : bool := startswith "/" s.

(** [p.as_posix()] of a relative path. *)
Definition as_posix (p : path) : string :=
  match p with
  | [] => "."
  | n :: p => fold_left (fun acc m => acc +:+ "/" +:+ m) p n
  end.

(** [p.name]. *)
Definition path_name (p : path) : string := default "" (last p).

(** [p.suffix]: from the last dot of the name, if it neither starts nor ends it. *)
Definition suffix_chars (l : list ascii) : list ascii :=
  match find_from [dot] (rev l) 0 with
  | Some i => if bool_decide (0 < i) && bool_decide (S i < List.length l) then drop (List.length l - S i) l else []
  | None => []
  end.
Definition suffix (p : path) : string := of_chars (suffix_chars (str_chars (path_name p))).

(** [p.with_suffix(suffix)], for a path that has a name and a suffix that starts with a
    dot, is longer and has no slash. *)
Definition with_suffix (p : path) (new : string) : path :=
  let l := str_chars (path_name p) in
  removelast p ++ [of_chars (take (List.length l - List.length (suffix_chars l)) l) +:+ new].

(** [p.relative_to(root)], when [p] is lexically below [root]. *)
Definition relative_to (root p : path) : path := drop (List.length root) p.

(** [s.strip("/")]. *)
Definition is_slash (c : ascii) : bool := bool_decide (c = slash).
Definition strip_slashes (s : string) : string :=
  of_chars (rev (drop_while is_slash (rev (drop_while is_slash (str_chars s))))).

(** A segment with a null character is refused by the system calls. *)
Definition has_null (p : path) : bool := existsb (fun n => existsb (fun c => (code c =? 0)%N) (str_chars n)) p.

(** ** Bytes *)

Definition byte_of (n : N) : ascii := ascii_of_N n.

(** [s.encode("utf-8")]. *)
Definition encode_char (c : ascii) : list ascii :=
  let n := code c in
  if (n <? 128)%N then [c] else [byte_of (192 + n / 64); byte_of (128 + n mod 64)].
Definition utf8_encode (s : string) : string := of_chars (flat_map encode_char (str_chars s)).

(** [b.decode("utf-8")]: the text; [UnicodeDecodeError]; a text with characters beyond
    U+00FF, which is outside the model. *)
Inductive decoded := Decoded (s : string) | Undecodable | BeyondLatin1.

Definition continuation (c : ascii) : bool := ((128 <=? code c) && (code c <? 192))%N.
Definition between (lo hi : N) (c : ascii) : bool := ((lo <=? code c) && (code c <=? hi))%N.

(** The length of the first sequence of [l], when it is well formed. *)
Definition sequence_length (l : list ascii) : option nat :=
  match l with
  | [] => None
  | a :: l =>
      let n := code a in
      if (n <? 128)%N then Some 1
      else if between 194 223 a then match l with b :: _ => if continuation b then Some 2 else None | _ => None end
      else if between 224 239 a then
        match l with
        | b :: c :: _ =>
            if (if (n =? 224)%N then between 160 191 b else if (n =? 237)%N then between 128 159 b else continuation b)
               && continuation c then Some 3 else None
        | _ => None
        end
      else if between 240 244 a then
        match l with
        | b :: c :: d :: _ =>
            if (if (n =? 240)%N then between 144 191 b else if (n =? 244)%N then between 128 143 b else continuation b)
               && continuation c && continuation d then Some 4 else None
        | _ => None
        end
      else None
  end.

Definition cons_decoded (c : ascii) (d : decoded) : decoded :=
  match d with Decoded s => Decoded (String c s) | d => d end.
(** A character beyond U+00FF: an error after it still is one. *)
Definition beyond (d : decoded) : decoded := match d with Undecodable => Undecodable | _ => BeyondLatin1 end.

Fixpoint decode (fuel : nat) (l : list ascii) : decoded :=
  match fuel, l with
  | _, [] => Decoded ""
  | 0, _ => Undecodable
  | S fuel, a :: l' =>
      match sequence_length l with
      | None => Undecodable
      | Some 1 => cons_decoded a (decode fuel l')
      | Some 2 =>
          match l' with
          | b :: l'' =>
              if (code a <=? 195)%N then cons_decoded (byte_of ((code a - 192) * 64 + (code b - 128))) (decode fuel l'')
              else beyond (decode fuel l'')
          | [] => Undecodable
          end
      | Some n => beyond (decode fuel (drop n l))
      end
  end.
Definition utf8_decode (s : string) : decoded := decode (String.length s) (str_chars s).

(** Universal newlines: what a text file's reader makes of the line ends. *)
Fixpoint newlines (l : list ascii) : list ascii :=
  match l with
  | [] => []
  | c :: l' =>
      if (code c =? 13)%N then
        match l' with
        | d :: l'' => if (code d =? 10)%N then d :: newlines l'' else byte_of 10 :: newlines l'
        | [] => [byte_of 10]
        end
      else c :: newlines l'
  end.

(** The text [read_text(encoding="utf-8")] gives of the bytes of a file. *)
Definition text_of (bytes : string) : decoded :=
  match utf8_decode bytes with Decoded s => Decoded (of_chars (newlines (str_chars s))) | d => d end.

(** ** Lemmas *)

Lemma path_parts_plain s n : n ∈ path_parts s -> n <> "" /\ n <> ".".
Proof.
  unfold path_parts. rewrite list_elem_of_In, filter_In. unfold no_segment.
  intros [_ H]. rewrite negb_true_iff, orb_false_iff, !bool_decide_eq_false in H. done.
Qed.

Lemma code_byte_of n : (n < 256)%N -> code (byte_of n) = n.
Proof. intros. unfold code, byte_of. by apply N_ascii_embedding. Qed.
Lemma byte_of_code c : byte_of (code c) = c.
Proof. apply ascii_N_embedding. Qed.
Lemma code_bound c : (code c < 256)%N.
Proof. apply N_ascii_bounded. Qed.

(** Decoding an encoded character gives it back. *)
Lemma decode_char c l fuel : decode (S fuel) (encode_char c ++ l) = cons_decoded c (decode fuel l).
Proof.
  unfold encode_char. pose proof (code_bound c) as Hc. destruct (N.ltb_spec (code c) 128) as [L|L].
  - cbn. apply N.ltb_lt in L. by rewrite L.
  - pose proof (N.div_mod (code c) 64 ltac:(done)) as D.
    pose proof (N.mod_lt (code c) 64 ltac:(done)) as Hm.
    assert (Hd : (2 <= code c / 64 <= 3)%N) by (split; [apply N.div_le_lower_bound; lia|apply N.lt_succ_r, N.Div0.div_lt_upper_bound; lia]).
    remember (code c / 64)%N as d. remember (code c mod 64)%N as m.
    cbn. unfold between, continuation. rewrite !code_byte_of by lia.
    replace (192 + d <? 128)%N with false by (symmetry; apply N.ltb_ge; lia).
    replace (194 <=? 192 + d)%N with true by (symmetry; apply N.leb_le; lia).
    replace (192 + d <=? 223)%N with true by (symmetry; apply N.leb_le; lia).
    replace (128 <=? 128 + m)%N with true by (symmetry; apply N.leb_le; lia).
    replace (128 + m <? 192)%N with true by (symmetry; apply N.ltb_lt; lia).
    cbn. replace (192 + d <=? 195)%N with true by (symmetry; apply N.leb_le; lia).
    f_equal. rewrite <- (byte_of_code c). f_equal. lia.
Qed.

Lemma encode_char_length c : Z.of_nat (List.length (encode_char c)) = utf8_width c.
Proof. unfold encode_char, utf8_width. by case_match. Qed.

Lemma str_chars_cons c s : str_chars (String c s) = c :: str_chars s.
Proof. done. Qed.

Lemma decode_encoded s fuel : String.length s <= fuel -> decode fuel (flat_map encode_char (str_chars s)) = Decoded s.
Proof.
  revert fuel. induction s as [|c s IH]; intros fuel L; [by destruct fuel|]. cbn in L.
  destruct fuel as [|fuel]; [lia|]. rewrite str_chars_cons. cbn [flat_map]. rewrite decode_char, IH by lia. done.
Qed.

Lemma length_str_chars s : List.length (str_chars s) = String.length s.
Proof. induction s as [|c s IH]; [done|]. rewrite str_chars_cons. cbn. by rewrite IH. Qed.

Lemma utf8_encode_size s : Z.of_nat (String.length (utf8_encode s)) = utf8_len s.
Proof.
  rewrite <- length_str_chars. unfold utf8_encode, utf8_len. rewrite str_chars_of_chars.
  induction (str_chars s) as [|c l IH]; [done|]. cbn. rewrite length_app, Nat2Z.inj_add, encode_char_length. lia.
Qed.

(** Any more fuel than the length will do. *)
Lemma utf8_length_le s : String.length s <= String.length (utf8_encode s).
Proof.
  apply Nat2Z.inj_le. rewrite utf8_encode_size. unfold utf8_len. rewrite <- length_str_chars.
  induction (str_chars s) as [|c l IH]; [done|]. cbn [List.length foldr]. pose proof (utf8_width_pos c). lia.
Qed.

Lemma utf8_roundtrip s : utf8_decode (utf8_encode s) = Decoded s.
Proof.
  unfold utf8_decode. replace (str_chars (utf8_encode s)) with (flat_map encode_char (str_chars s))
    by (unfold utf8_encode; by rewrite str_chars_of_chars).
  apply decode_encoded, utf8_length_le.
Qed.

Lemma newlines_plain l : Forall (fun c => code c <> 13%N) l -> newlines l = l.
Proof.
  induction 1 as [|c l N _ IH]; [done|]. cbn [newlines]. destruct (N.eqb_spec (code c) 13); [done|]. by rewrite IH.
Qed.

(** A text without carriage returns is read as it was written. *)
Lemma text_roundtrip s : Forall (fun c => code c <> 13%N) (str_chars s) -> text_of (utf8_encode s) = Decoded s.
Proof.
  intros F. unfold text_of. rewrite utf8_roundtrip, newlines_plain by done. by rewrite of_chars_str_chars.
Qed.

Example path_examples :
  path_parts "/a//./b/../c/" = ["a"; "b"; ".."; "c"] /\ as_posix (path_parts "a/./b/") = "a/b" /\
  as_posix (path_parts "./.") = "." /\ suffix ["x"; "a.tar.gz"] = ".gz" /\ suffix [".bashrc"] = "" /\
  suffix ["a."] = "" /\ with_suffix ["w"; "a.md"] ".md.tmp" = ["w"; "a.md.tmp"] /\ strip_slashes "//a/b/" = "a/b".
Proof. repeat split; reflexivity. Qed.
