(* ===== verification/FileSys.v ===== *)
(** * A file system with symbolic links

    What the file-backed services observe of the disk: a tree of files, directories and
    symbolic links, [Path.resolve] and the system calls behind [pathlib], [os] and
    [shutil]. A node is found at its real path. A service method is a computation over
    the tree that can raise; what it changed before the exception stays. Permissions,
    full disks, hard links and names longer than the system takes are not modelled. *)

From stdpp Require Import base tactics gmap list option strings.
From Stdlib Require Import ZArith NArith Lia Ascii.
From S2P Require Import Prelude PyStr SafePath Db PyPath.

Inductive node :=
| NFile (data : string) (mtime : Z)
| NDir
| NLink (absolute : bool) (target : path).
Abbreviation fsys := (gmap path node).

(** [OSError]s by number, the system's own with the paths they name or raised with a
    text; [ValueError]s; [UnicodeDecodeError], which is one; the [RuntimeError] of a loop
    of links; an outcome outside the model. *)
Inductive errno := ENOENT | ENOTDIR | EISDIR | EEXIST | ENOTEMPTY | ELOOP | EINVAL | EOTHER.
Inductive file_error :=
| OSError (no : errno) (paths : list path)
| Raised (no : errno) (msg : string)
| ValueErr (msg : string)
| DecodeError
| LoopError
| FileNotModelled.

Definition FM : Type -> Type := M fsys file_error.

(** A directory is the root or has a node. *)
Definition node_of (fs : fsys) (p : path) : option node := match p with [] => Some NDir | _ => fs !! p end.
Definition is_dir_node (n : option node) : bool := match n with Some NDir => true | _ => false end.
Definition is_link_node (n : option node) : bool := match n with Some (NLink _ _) => true | _ => false end.

(** The links one resolution follows: what the system allows. [Path.resolve] only
    refuses loops; a longer chain without one is taken for one. *)
Definition max_links : nat := 40.

(** ** [os.path.realpath]: what does not exist is kept as it stands *)

Fixpoint walk (links : nat) (fs : fsys) : path -> path -> option path :=
  fix go (cur rest : path) : option path :=
    match rest with
    | [] => Some cur
    | name :: rest =>
        if bool_decide (name = "..") then go (removelast cur) rest
        else match fs !! (cur ++ [name]) with
             | Some (NLink absolute target) =>
                 match links with
                 | 0 => None
                 | S links => walk links fs (if absolute then [] else cur) (target ++ rest)
                 end
             | _ => go (cur ++ [name]) rest
             end
    end.

(** [p.resolve(strict=False)]. *)
Definition resolve (p : path) (fs : fsys) : result file_error path :=
  if has_null p then Err (ValueErr "lstat: embedded null character in path")
  else match walk max_links fs [] p with Some r => Ok r | None => Err LoopError end.

(** [validate_path]: resolved, the path is below a resolved root. *)
Fixpoint below_some (candidate : path) (roots : list path) (fs : fsys) : result file_error bool :=
  match roots with
  | [] => Ok false
  | root :: roots =>
      r ← resolve root fs;
      if path_prefix r candidate then Ok true else below_some candidate roots fs
  end.
Definition validate_path (p : path) (allowed_roots : list path) (fs : fsys) : result file_error bool :=
  candidate ← resolve p fs;
  below_some candidate allowed_roots fs.

(** ** The system's own resolution: every segment but the last has to be there *)

Fixpoint namei (links : nat) (fs : fsys) (follow : bool) : path -> path -> result errno path :=
  fix go (cur rest : path) : result errno path :=
    match rest with
    | [] => Ok cur
    | name :: rest =>
        match node_of fs cur with
        | Some NDir =>
            if bool_decide (name = "..") then go (removelast cur) rest
            else match fs !! (cur ++ [name]) with
                 | Some (NLink absolute target) =>
                     if bool_decide (rest = []) && negb follow then Ok (cur ++ [name])
                     else match links with
                          | 0 => Err ELOOP
                          | S links => namei links fs follow (if absolute then [] else cur) (target ++ rest)
                          end
                 | Some _ => go (cur ++ [name]) rest
                 | None => if bool_decide (rest = []) then Ok (cur ++ [name]) else Err ENOENT
                 end
        | Some _ => Err ENOTDIR
        | None => Err ENOENT
        end
    end.

(** The place of a path, its last link followed or not. *)
Definition place (follow : bool) (p : path) (fs : fsys) : result errno path := namei max_links fs follow [] p.
Definition stat_node (p : path) (fs : fsys) : option node :=
  match place true p fs with Ok r => node_of fs r | Err _ => None end.

(** [p.exists()], [p.is_dir()], [p.is_file()]. *)
Definition exists_ (p : path) (fs : fsys) : bool := match stat_node p fs with Some _ => true | None => false end.
Definition is_dir (p : path) (fs : fsys) : bool := is_dir_node (stat_node p fs).
Definition is_file (p : path) (fs : fsys) : bool := match stat_node p fs with Some (NFile _ _) => true | _ => false end.

(** ** System calls *)

Section calls.
(** The size and the modification time of a directory, which the system chooses. *)
Variable dir_stat : fsys -> path -> Z * Z.

Definition located {A} (follow : bool) (p : path) (k : path -> FM A) : FM A := fun fs =>
  match place follow p fs with
  | Ok r => k r fs
  | Err e => (Err (OSError e [p]), fs)
  end.
Definition os_error {A} (e : errno) (p : path) : FM A := throw (OSError e [p]).

(** [p.stat()]: size and modification time. *)
Definition stat (p : path) : FM (Z * Z) :=
  located true p (fun r fs =>
    match node_of fs r with
    | Some (NFile data mtime) => (Ok (Z.of_nat (String.length data), mtime), fs)
    | Some _ => (Ok (dir_stat fs r), fs)
    | None => os_error ENOENT p fs
    end).

Definition read_bytes (p : path) : FM string :=
  located true p (fun r fs =>
    match node_of fs r with
    | Some (NFile data _) => (Ok data, fs)
    | Some _ => os_error EISDIR p fs
    | None => os_error ENOENT p fs
    end).

(** [p.read_text(encoding="utf-8")]. *)
Definition read_text (p : path) : FM string :=
  bytes ← read_bytes p;
  match text_of bytes with
  | Decoded s => mret s
  | Undecodable => throw DecodeError
  | BeyondLatin1 => throw FileNotModelled
  end.

(** [open(p, "wb").write(data)], at the time [now]. *)
Definition write_bytes (p : path) (data : string) (now : Z) : FM unit :=
  located true p (fun r fs =>
    match node_of fs r with
    | Some NDir => os_error EISDIR p fs
    | _ => (Ok tt, <[r := NFile data now]> fs)
    end).
Definition write_text (p : path) (content : string) (now : Z) : FM unit := write_bytes p (utf8_encode content) now.

(** [open(p, "a").write(content)]. *)
Definition append_text (p : path) (content : string) (now : Z) : FM unit :=
  located true p (fun r fs =>
    match node_of fs r with
    | Some NDir => os_error EISDIR p fs
    | Some (NFile data _) => (Ok tt, <[r := NFile (data +:+ utf8_encode content) now]> fs)
    | _ => (Ok tt, <[r := NFile (utf8_encode content) now]> fs)
    end).

(** [os.mkdir(p)]. *)
Definition os_mkdir (p : path) : FM unit :=
  located false p (fun r fs =>
    match node_of fs r with
    | Some _ => os_error EEXIST p fs
    | None => (Ok tt, <[r := NDir]> fs)
    end).

(** [p.mkdir(parents=..., exist_ok=True)], for the segments in reverse. *)
Definition mkdir_again (p : path) : FM unit := fun fs =>
  match os_mkdir p fs with
  | (Err (OSError ENOENT l), fs) => (Err (OSError ENOENT l), fs)
  | (Err e, fs) => if is_dir p fs then (Ok tt, fs) else (Err e, fs)
  | r => r
  end.
Fixpoint mkdir_rev (rp : path) : FM unit := fun fs =>
  match os_mkdir (rev rp) fs with
  | (Err (OSError ENOENT l), fs) =>
      match rp with
      | [] => (Err (OSError ENOENT l), fs)
      | _ :: parent => (_ ← mkdir_rev parent; mkdir_again (rev rp)) fs
      end
  | (Err e, fs) => if is_dir (rev rp) fs then (Ok tt, fs) else (Err e, fs)
  | r => r
  end.
Definition mkdir_parents (p : path) : FM unit := mkdir_rev (rev p).

(** [p.unlink()]. *)
Definition unlink (p : path) : FM unit :=
  located false p (fun r fs =>
    match node_of fs r with
    | Some NDir => os_error EISDIR p fs
    | Some _ => (Ok tt, delete r fs)
    | None => os_error ENOENT p fs
    end).

(** The nodes strictly below a directory. *)
Definition strictly_below (r p : path) : bool := path_prefix r p && bool_decide (p <> r).
Definition remove_below (r : path) (fs : fsys) : fsys := filter (fun e => strictly_below r e.1 = false) fs.
Definition is_empty_dir (r : path) (fs : fsys) : bool :=
  forallb (fun e : path * node => negb (strictly_below r e.1)) (map_to_list fs).

(** [os.rmdir(p)]. *)
Definition os_rmdir (p : path) : FM unit :=
  located false p (fun r fs =>
    match node_of fs r with
    | Some NDir =>
        if bool_decide (r = []) then os_error EOTHER p fs
        else if bool_decide (last p = Some "..") then os_error ENOTEMPTY p fs
        else if is_empty_dir r fs then (Ok tt, delete r fs) else os_error ENOTEMPTY p fs
    | Some _ => os_error ENOTDIR p fs
    | None => os_error ENOENT p fs
    end).

(** [shutil.rmtree(p)]: a link is refused; the directory goes after what is in it. *)
Definition rmtree (p : path) : FM unit :=
  located false p (fun r fs =>
    match node_of fs r with
    | Some NDir => os_rmdir p (remove_below r fs)
    | Some (NLink _ _) =>
        if is_dir p fs then (Err (Raised EOTHER "Cannot call rmtree on a symbolic link"), fs) else os_error ENOTDIR p fs
    | Some (NFile _ _) => os_error ENOTDIR p fs
    | None => os_error ENOENT p fs
    end).

(** [src.replace(dst)] and [src.rename(dst)]. *)
Definition move_tree (src dst : path) (fs : fsys) : fsys :=
  kmap (fun p => if path_prefix src p then dst ++ drop (List.length src) p else p) fs.
Definition rename (src dst : path) : FM unit :=
  located false src (fun r1 => located false dst (fun r2 fs =>
    let fail e := (Err (OSError e [src; dst]), fs) in
    match node_of fs r1 with
    | None => fail ENOENT
    | Some NDir =>
        if bool_decide (r1 = r2) then (Ok tt, fs)
        else if path_prefix r1 r2 then fail EINVAL
        else match node_of fs r2 with
             | None => (Ok tt, move_tree r1 r2 fs)
             | Some NDir => if is_empty_dir r2 fs then (Ok tt, move_tree r1 r2 (delete r2 fs)) else fail ENOTEMPTY
             | Some _ => fail ENOTDIR
             end
    | Some n =>
        if bool_decide (r1 = r2) then (Ok tt, fs)
        else match node_of fs r2 with
             | Some NDir => fail EISDIR
             | _ => (Ok tt, <[r2 := n]> (delete r1 fs))
             end
    end)).

(** [os.listdir]: the names in a directory, in an order of the system's choosing. *)
Variable scandir : fsys -> path -> list string.
Definition iterdir (p : path) : FM (list string) :=
  located true p (fun r fs =>
    match node_of fs r with
    | Some NDir => (Ok (scandir fs r), fs)
    | Some _ => os_error ENOTDIR p fs
    | None => os_error ENOENT p fs
    end).

(** Reading without changing. *)
Definition peek {A} (f : fsys -> A) : FM A := gets f.
Definition check {A} (f : fsys -> result file_error A) : FM A := fun fs => (f fs, fs).
End calls.
