(* ===== verification/FileSysProps.v ===== *)
(** * Resolution of paths and the reach of the system calls

    [walk] follows links to a path without links; the system's own resolution, where it
    succeeds, gives the same place. Every call changes only the place it resolves. *)

From stdpp Require Import base tactics gmap list option strings.
From Stdlib Require Import ZArith NArith Lia Ascii.
From S2P Require Import Prelude PyStr SafePath Db PyPath FileSys.

(** ** Well-formed trees *)

Record tree (fs : fsys) : Prop := {
  tree_root : fs !! [] = None;
  tree_parent q n nd : fs !! (q ++ [n]) = Some nd -> is_dir_node (node_of fs q) = true;
  tree_name q nd : fs !! q = Some nd -> ".." ∉ q
}.

Definition is_link (fs : fsys) (p : path) : bool := is_link_node (fs !! p).

(** No link on the way, no dots. *)
Definition resolved (fs : fsys) (p : path) : Prop :=
  (".." ∉ p) /\ forall q n s, p = q ++ n :: s -> is_link fs (q ++ [n]) = false.

Lemma resolved_nil fs : resolved fs [].
Proof. split; [set_solver|]. intros [|??] ? ? [=]. Qed.

Lemma resolved_prefix fs p q : resolved fs (p ++ q) -> resolved fs p.
Proof.
  intros [H1 H2]. split; [set_solver|]. intros q' n s ->. apply (H2 q' n (s ++ q)). by rewrite <- app_assoc.
Qed.

Lemma resolved_removelast fs p : resolved fs p -> resolved fs (removelast p).
Proof.
  induction p as [|n p _] using rev_ind; [done|]. rewrite removelast_last. apply resolved_prefix.
Qed.

Lemma snoc_split {A} (p q s : list A) (n m : A) :
  p ++ [n] = q ++ m :: s -> (s = [] /\ p = q /\ n = m) \/ exists s', s = s' ++ [n] /\ p = q ++ m :: s'.
Proof.
  destruct s as [|x s _] using rev_ind; intros E.
  - apply app_inj_tail in E as [-> ->]. by left.
  - right. rewrite app_comm_cons, app_assoc in E. apply app_inj_tail in E as [-> ->]. by exists s.
Qed.

Lemma resolved_snoc fs p n : resolved fs p -> n <> ".." -> is_link fs (p ++ [n]) = false -> resolved fs (p ++ [n]).
Proof.
  intros [H1 H2] N L. split.
  - rewrite elem_of_app, list_elem_of_singleton. intros [?|E]; [done|]. by apply N.
  - intros q m s [(-> & -> & ->)|(s' & -> & ->)]%snoc_split; [done|]. by apply (H2 q m s').
Qed.

(** ** [walk] as a relation *)

Section walks.
Context (fs : fsys).

Inductive walks : nat -> path -> path -> path -> Prop :=
| walks_nil l cur : walks l cur [] cur
| walks_up l cur rest r : walks l (removelast cur) rest r -> walks l cur (".." :: rest) r
| walks_down l cur name rest r :
    name <> ".." -> is_link fs (cur ++ [name]) = false -> walks l (cur ++ [name]) rest r -> walks l cur (name :: rest) r
| walks_link l cur name rest r a t :
    name <> ".." -> fs !! (cur ++ [name]) = Some (NLink a t) ->
    walks l (if a then [] else cur) (t ++ rest) r -> walks (S l) cur (name :: rest) r.

Lemma walk_nil l cur : walk l fs cur [] = Some cur.
Proof. by destruct l. Qed.

Lemma walk_cons l cur name rest :
  walk l fs cur (name :: rest) =
  if bool_decide (name = "..") then walk l fs (removelast cur) rest
  else match fs !! (cur ++ [name]) with
       | Some (NLink a t) => match l with 0 => None | S l => walk l fs (if a then [] else cur) (t ++ rest) end
       | _ => walk l fs (cur ++ [name]) rest
       end.
Proof. by destruct l. Qed.

Lemma walk_walks l cur rest r : walk l fs cur rest = Some r -> walks l cur rest r.
Proof.
  revert cur rest r. induction l as [l IHl] using lt_wf_ind. intros cur rest. revert cur.
  induction rest as [|name rest IH]; intros cur r.
  - rewrite walk_nil. intros [= ->]. constructor.
  - rewrite walk_cons. case_bool_decide as D; [subst; intros H; apply walks_up; auto|].
    destruct (fs !! (cur ++ [name])) as [[? ?| |a t]|] eqn:E.
    1,2,4: intros H; apply walks_down; [done|by unfold is_link; rewrite E|auto].
    destruct l as [|l]; [done|]. intros H. eapply walks_link; [done..|]. apply IHl; [lia|done].
Qed.

Lemma walks_walk l cur rest r : walks l cur rest r -> walk l fs cur rest = Some r.
Proof.
  induction 1 as [| |l cur name rest r N L _ IH|l cur name rest r a t N L _ IH].
  - apply walk_nil.
  - by rewrite walk_cons.
  - rewrite walk_cons, bool_decide_eq_false_2 by done. unfold is_link in L. by destruct (fs !! _) as [[? ?| |a t]|].
  - by rewrite walk_cons, bool_decide_eq_false_2, L by done.
Qed.

Lemma walks_more l l' cur rest r : walks l cur rest r -> l <= l' -> walks l' cur rest r.
Proof.
  intros W. revert l'. induction W; intros l' Hl; [by constructor|apply walks_up; auto|apply walks_down; auto|].
  destruct l' as [|l']; [lia|]. eapply walks_link; [done..|]. apply IHW. lia.
Qed.

Lemma walks_det l l' cur rest r r' : walks l cur rest r -> walks l' cur rest r' -> r = r'.
Proof.
  intros W W'. apply (walks_more _ (l + l')), walks_walk in W; [|lia].
  apply (walks_more _ (l + l')), walks_walk in W'; [|lia]. congruence.
Qed.

(** The way through a first part. *)
Lemma walks_app l cur p q r : walks l cur (p ++ q) r -> exists m, walks l cur p m /\ walks l m q r.
Proof.
  intros W. remember (p ++ q) as rest eqn:E. revert p E.
  induction W as [l cur|l cur rest r W IH|l cur name rest r N L W IH|l cur name rest r a t N L W IH]; intros p E.
  - destruct p; [|done]. cbn in E. subst. exists cur. split; constructor.
  - destruct p as [|n p]; cbn in E; [subst; exists cur; split; [constructor|by apply walks_up]|].
    injection E as <- ->. destruct (IH p eq_refl) as (m & W1 & W2). exists m. split; [by apply walks_up|done].
  - destruct p as [|n p]; cbn in E; [subst; exists cur; split; [constructor|by apply walks_down]|].
    injection E as <- ->. destruct (IH p eq_refl) as (m & W1 & W2). exists m. split; [by apply walks_down|done].
  - destruct p as [|n p]; cbn in E; [subst; exists cur; split; [constructor|by eapply walks_link]|].
    injection E as <- ->. destruct (IH (t ++ p)) as (m & W1 & W2); [by rewrite app_assoc|].
    exists m. split; [by eapply walks_link|]. eapply walks_more; [done|lia].
Qed.

Lemma walks_then l l' cur p m q r : walks l cur p m -> walks l' m q r -> walks (l + l') cur (p ++ q) r.
Proof.
  induction 1 as [l cur|l cur rest m W IH|l cur name rest m N L W IH|l cur name rest m a t N L W IH]; intros W'; cbn.
  - eapply walks_more; [done|lia].
  - by apply walks_up, IH.
  - by apply walks_down, IH.
  - eapply walks_link; [done..|]. rewrite app_assoc. by apply IH.
Qed.

Lemma walks_snoc l cur p d n :
  walks l cur p d -> n <> ".." -> is_link fs (d ++ [n]) = false -> walks l cur (p ++ [n]) (d ++ [n]).
Proof.
  intros W N L. rewrite <- (Nat.add_0_r l). eapply walks_then; [done|]. apply walks_down; [done..|constructor].
Qed.

Lemma walks_resolved l cur rest r : resolved fs cur -> walks l cur rest r -> resolved fs r.
Proof.
  intros H W. revert H. induction W as [| |l cur name rest r N L W IH|l cur name rest r a t N L W IH]; intros H; [done|..].
  - apply IHW. by apply resolved_removelast.
  - apply IH. by apply resolved_snoc.
  - apply IH. destruct a; [apply resolved_nil|done].
Qed.

(** A path without links resolves to itself. *)
Lemma resolved_walks l cur rest : resolved fs (cur ++ rest) -> walks l cur rest (cur ++ rest).
Proof.
  revert cur. induction rest as [|n rest IH]; intros cur H.
  - rewrite app_nil_r. constructor.
  - pose proof H as [H1 H2]. apply walks_down.
    + intros ->. apply H1. set_solver.
    + by apply (H2 cur n rest).
    + replace (cur ++ n :: rest) with ((cur ++ [n]) ++ rest) in * by (by rewrite <- app_assoc). by apply IH.
Qed.

Lemma resolved_walk p : resolved fs p -> walk max_links fs [] p = Some p.
Proof. intros H. by apply walks_walk, (resolved_walks _ []). Qed.

(** Below what does not exist there is nothing to follow. *)
Lemma missing_below (T : tree fs) p q : p <> [] -> fs !! p = None -> fs !! (p ++ q) = None.
Proof.
  intros Np Hp. induction q as [|n q IH] using rev_ind; [by rewrite app_nil_r|].
  destruct (fs !! (p ++ q ++ [n])) as [nd|] eqn:E; [|done]. rewrite app_assoc in E. apply (tree_parent _ T) in E.
  unfold node_of in E. destruct (p ++ q) as [|x l] eqn:E2; [by destruct p|]. by rewrite IH in E.
Qed.

Lemma missing_resolved (T : tree fs) p q :
  p <> [] -> resolved fs p -> fs !! p = None -> ".." ∉ q -> resolved fs (p ++ q).
Proof.
  intros Np H Hp. induction q as [|n q IH] using rev_ind; intros N; [by rewrite app_nil_r|].
  rewrite app_assoc. apply resolved_snoc; [apply IH; set_solver|set_solver|].
  unfold is_link. by rewrite <- app_assoc, missing_below.
Qed.
End walks.

(** Resolution depends on the links only. *)
Lemma walks_ext fs fs' l cur rest r :
  (forall p, is_link fs p = true \/ is_link fs' p = true -> fs !! p = fs' !! p) ->
  walks fs l cur rest r -> walks fs' l cur rest r.
Proof.
  intros Ext. induction 1 as [| |l cur name rest r N L W IH|l cur name rest r a t N L W IH]; [constructor|by apply walks_up|..].
  - apply walks_down; [done| |done]. destruct (is_link fs' (cur ++ [name])) eqn:E; [|done].
    pose proof (Ext (cur ++ [name]) (or_intror E)) as E'. unfold is_link in *. by rewrite E', E in L.
  - eapply walks_link; [done| |done]. rewrite <- Ext; [done|]. left. unfold is_link. by rewrite L.
Qed.

(** ** The system's resolution *)

Section namei.
Context (fs : fsys).

Lemma namei_nil l fl cur : namei l fs fl cur [] = Ok cur.
Proof. by destruct l. Qed.

Lemma namei_cons l fl cur name rest :
  namei l fs fl cur (name :: rest) =
  match node_of fs cur with
  | Some NDir =>
      if bool_decide (name = "..") then namei l fs fl (removelast cur) rest
      else match fs !! (cur ++ [name]) with
           | Some (NLink a t) =>
               if bool_decide (rest = []) && negb fl then Ok (cur ++ [name])
               else match l with 0 => Err ELOOP | S l => namei l fs fl (if a then [] else cur) (t ++ rest) end
           | Some _ => namei l fs fl (cur ++ [name]) rest
           | None => if bool_decide (rest = []) then Ok (cur ++ [name]) else Err ENOENT
           end
  | Some _ => Err ENOTDIR
  | None => Err ENOENT
  end.
Proof. by destruct l. Qed.

(** Where the system finds a place, [realpath] gives it. *)
Lemma namei_walks l cur rest r : namei l fs true cur rest = Ok r -> walks fs l cur rest r.
Proof.
  revert cur rest r. induction l as [l IHl] using lt_wf_ind. intros cur rest. revert cur.
  induction rest as [|name rest IH]; intros cur r.
  - rewrite namei_nil. intros [= ->]. constructor.
  - rewrite namei_cons. destruct (node_of fs cur) as [[? ?| |? ?]|]; try done.
    case_bool_decide as D; [subst; intros H; apply walks_up; auto|].
    destruct (fs !! (cur ++ [name])) as [[? ?| |a t]|] eqn:E.
    + intros H. apply walks_down; [done|by unfold is_link; rewrite E|auto].
    + intros H. apply walks_down; [done|by unfold is_link; rewrite E|auto].
    + rewrite andb_false_r. destruct l as [|l]; [done|]. intros H. eapply walks_link; [done..|]. apply IHl; [lia|done].
    + case_bool_decide as D2; [|done]. subst. intros [= <-].
      apply walks_down; [done|by unfold is_link; rewrite E|constructor].
Qed.

(** Not following the last segment: it is found in the directory of the others. *)
Lemma namei_parent l cur p n r :
  n <> ".." -> namei l fs false cur (p ++ [n]) = Ok r ->
  exists d, walks fs l cur p d /\ is_dir_node (node_of fs d) = true /\ r = d ++ [n].
Proof.
  intros N. revert cur p r. induction l as [l IHl] using lt_wf_ind. intros cur p. revert cur.
  induction p as [|name p IH]; intros cur r; cbn [app]; rewrite namei_cons;
    destruct (node_of fs cur) as [[? ?| |? ?]|] eqn:Dir; try done.
  - rewrite bool_decide_eq_false_2 by done.
    assert (F : Ok (cur ++ [n]) = Ok (E := errno) r -> exists d, walks fs l cur [] d /\ is_dir_node (node_of fs d) = true /\ r = d ++ [n]).
    { intros [= <-]. exists cur. split; [constructor|]. by rewrite Dir. }
    destruct (fs !! (cur ++ [n])) as [[? ?| |a t]|]; by rewrite ?namei_nil.
  - case_bool_decide as D.
    { subst. intros (d & W & H)%IH. exists d. split; [by apply walks_up|done]. }
    rewrite (bool_decide_eq_false_2 (p ++ [n] = [])) by (by destruct p). cbn [andb].
    destruct (fs !! (cur ++ [name])) as [[? ?| |a t]|] eqn:E; [| | |done].
    1,2: intros (d & W & H)%IH; exists d; split; [apply walks_down; [done|by unfold is_link; rewrite E|done]|done].
    destruct l as [|l]; [done|]. rewrite app_assoc. intros (d & W & H)%IHl; [|lia].
    exists d. split; [by eapply walks_link|done].
Qed.

Lemma namei_up l cur p r : namei l fs false cur (p ++ [".."]) = Ok r -> namei l fs true cur (p ++ [".."]) = Ok r.
Proof.
  revert cur p r. induction l as [l IHl] using lt_wf_ind. intros cur p. revert cur.
  induction p as [|name p IH]; intros cur r; cbn [app]; rewrite !namei_cons;
    destruct (node_of fs cur) as [[? ?| |? ?]|] eqn:Dir; try done.
  - by rewrite bool_decide_eq_true_2, !namei_nil.
  - case_bool_decide as D; [apply IH|].
    rewrite (bool_decide_eq_false_2 (p ++ [".."] = [])) by (by destruct p). cbn [andb].
    destruct (fs !! (cur ++ [name])) as [[? ?| |a t]|] eqn:E; [apply IH|apply IH| |done].
    destruct l as [|l]; [done|]. rewrite app_assoc. apply IHl. lia.
Qed.
End namei.

Lemma place_walk p fs r : place true p fs = Ok r -> walk max_links fs [] p = Some r.
Proof. unfold place. by intros W%namei_walks%walks_walk. Qed.

(** A place the system finds is free of links. *)
Lemma place_resolved p fs r : place true p fs = Ok r -> resolved fs r.
Proof. unfold place. intros W%namei_walks. eapply walks_resolved; [apply resolved_nil|done]. Qed.

Lemma resolve_ok p fs r : resolve p fs = Ok r -> walk max_links fs [] p = Some r /\ resolved fs r.
Proof.
  unfold resolve. destruct (has_null p); [done|]. destruct (walk _ _ _ _) as [r'|] eqn:E; [|done].
  intros [= <-]. split; [done|]. eapply walks_resolved; [apply resolved_nil|by apply walk_walks].
Qed.

Lemma resolve_resolved p fs r : resolved fs p -> resolve p fs = Ok r -> r = p.
Proof. intros H [E _]%resolve_ok. rewrite resolved_walk in E by done. congruence. Qed.

(** What a resolved candidate that passes the check is: below the root, where the root
    is resolved itself. *)
Lemma validate_path_ok p root fs :
  resolved fs root -> validate_path p [root] fs = Ok true -> exists r, resolve p fs = Ok r /\ path_prefix root r = true.
Proof.
  intros R. unfold validate_path, mbind, result_bind. destruct (resolve p fs) as [r|] eqn:E; [|done]. cbn.
  unfold mbind, result_bind. destruct (resolve root fs) as [r'|] eqn:E'; [|done].
  apply (resolve_resolved _ _ _ R) in E' as ->. destruct (path_prefix root r) eqn:P; [|done]. intros _. by exists r.
Qed.

(** ** Growth: directories made where there was nothing *)

Definition grown (P : path -> Prop) (fs fs' : fsys) : Prop :=
  tree fs' /\ forall p, fs' !! p = fs !! p \/ (fs !! p = None /\ fs' !! p = Some NDir /\ P p).

Lemma grown_refl P fs : tree fs -> grown P fs fs.
Proof. split; [done|]. by left. Qed.

Lemma grown_trans P fs1 fs2 fs3 : grown P fs1 fs2 -> grown P fs2 fs3 -> grown P fs1 fs3.
Proof.
  intros [T1 H1] [T2 H2]. split; [done|]. intros p.
  destruct (H2 p) as [E2|(E2 & E2' & Hp)], (H1 p) as [E1|(E1 & E1' & Hp1)].
  - left. congruence.
  - right. split; [done|]. split; [congruence|done].
  - right. split; [congruence|]. done.
  - right. split; [done|]. split; [congruence|done].
Qed.

Lemma grown_mono (P Q : path -> Prop) fs fs' :
  (forall p, fs !! p = None -> P p -> Q p) -> grown P fs fs' -> grown Q fs fs'.
Proof. intros I [T H]. split; [done|]. intros p. destruct (H p) as [?|(? & ? & ?)]; [by left|right; auto]. Qed.

Lemma grown_links P fs fs' p : grown P fs fs' -> is_link fs' p = is_link fs p.
Proof. intros [_ H]. unfold is_link. destruct (H p) as [->|(-> & -> & _)]; done. Qed.

Lemma grown_same_links P fs fs' p :
  grown P fs fs' -> is_link fs p = true \/ is_link fs' p = true -> fs !! p = fs' !! p.
Proof.
  intros [_ H]. unfold is_link. destruct (H p) as [->|(-> & -> & _)]; [done|]. cbn. naive_solver.
Qed.

Lemma grown_walks P fs fs' l cur rest r : grown P fs fs' -> walks fs l cur rest r <-> walks fs' l cur rest r.
Proof.
  intros G. split; apply walks_ext; intros p; [by apply (grown_same_links P)|].
  intros H. symmetry. apply (grown_same_links P _ _ p G). tauto.
Qed.

Lemma grown_resolved P fs fs' p : grown P fs fs' -> resolved fs p -> resolved fs' p.
Proof. intros G [H1 H2]. split; [done|]. intros q n s E. by rewrite (grown_links P fs), (H2 q n s). Qed.

Lemma grown_dir P fs fs' p : grown P fs fs' -> node_of fs p = Some NDir -> node_of fs' p = Some NDir.
Proof. intros [_ H]. destruct p as [|n p]; [done|]. cbn. destruct (H (n :: p)) as [->|(-> & _)]; done. Qed.

(** ** Changing one node keeps a tree *)

Definition placed (fs : fsys) (p : path) : Prop :=
  p = [] \/ exists d n, p = d ++ [n] /\ (".." ∉ d ++ [n]) /\ is_dir_node (node_of fs d) = true.

Lemma dir_node o : is_dir_node o = true -> o = Some NDir.
Proof. by destruct o as [[]|]. Qed.

Lemma tree_dir_up fs p : tree fs -> is_dir_node (node_of fs p) = true -> placed fs (removelast p).
Proof.
  intros T H. destruct p as [|n p _] using rev_ind; [by left|]. rewrite removelast_last.
  destruct p as [|m p _] using rev_ind; [by left|]. right. exists p, m. split; [done|].
  assert (is_Some (fs !! ((p ++ [m]) ++ [n]))) as [nd E].
  { apply dir_node in H. unfold node_of in H. destruct ((p ++ [m]) ++ [n]) eqn:X; [by destruct p|]. by eexists. }
  pose proof (tree_name _ T _ _ E) as N. split; [set_solver|].
  apply (tree_parent _ T) in E. apply dir_node in E.
  apply (tree_parent _ T p m NDir). unfold node_of in E. destruct (p ++ [m]) eqn:X; [by destruct p|done].
Qed.

Lemma placed_down fs cur n : placed fs cur -> node_of fs cur = Some NDir -> n <> ".." -> placed fs (cur ++ [n]).
Proof.
  intros H D N. right. exists cur, n. split; [done|]. rewrite D. split; [|done].
  destruct H as [->|(d & m & -> & H & _)]; set_solver.
Qed.

Lemma namei_placed fs l fl cur rest r : tree fs -> placed fs cur -> namei l fs fl cur rest = Ok r -> placed fs r.
Proof.
  intros T. revert cur rest r. induction l as [l IHl] using lt_wf_ind. intros cur rest. revert cur.
  induction rest as [|name rest IH]; intros cur r Pc; [rewrite namei_nil; by intros [= <-]|].
  rewrite namei_cons. destruct (node_of fs cur) as [[? ?| |? ?]|] eqn:D; try done.
  case_bool_decide as Up; [apply IH, tree_dir_up; [done|by rewrite D]|].
  pose proof (placed_down fs cur name Pc D Up) as Pn.
  destruct (fs !! (cur ++ [name])) as [[? ?| |a t]|]; [by apply IH|by apply IH| |].
  - destruct (bool_decide (rest = []) && negb fl); [by intros [= <-]|].
    destruct l as [|l]; [done|]. apply IHl; [lia|]. destruct a; [by left|done].
  - case_bool_decide; [by intros [= <-]|done].
Qed.

Lemma place_placed fl p fs r : tree fs -> place fl p fs = Ok r -> placed fs r.
Proof. intros T. apply namei_placed; [done|by left]. Qed.

Lemma node_of_lookup fs p n : node_of fs (p ++ [n]) = fs !! (p ++ [n]).
Proof. by destruct p. Qed.

Lemma node_of_none fs r : node_of fs r = None -> fs !! r = None.
Proof. by destruct r. Qed.
Lemma missing_no_link fs r : node_of fs r = None -> is_link fs r = false.
Proof. intros H%node_of_none. unfold is_link. by rewrite H. Qed.

Lemma dir_no_link fs r : tree fs -> node_of fs r = Some NDir -> is_link fs r = false.
Proof.
  intros T. unfold is_link. destruct r as [|x r]; [by rewrite (tree_root _ T)|]. cbn [node_of]. by intros ->.
Qed.

Lemma tree_insert fs r nd :
  tree fs -> placed fs r -> node_of fs r <> Some NDir -> tree (<[r := nd]> fs).
Proof.
  intros T [->|(d & n & -> & N & D)] Hr; [done|]. rewrite node_of_lookup in Hr. split.
  - rewrite lookup_insert_ne; [apply T|]. by destruct d.
  - intros q m nd'. rewrite lookup_insert_Some. intros [[E _]|[_ E]].
    + apply app_inj_tail in E as [<- <-]. destruct d as [|x d]; [done|]. cbn in *. rewrite lookup_insert_ne; [done|].
      intros E. apply (f_equal List.length) in E. cbn in E. rewrite length_app in E. cbn in E. lia.
    + apply (tree_parent _ T) in E. destruct q as [|x q]; [done|]. cbn in *.
      rewrite lookup_insert_ne; [done|]. intros E'. rewrite E' in Hr. by apply Hr, dir_node.
  - intros q nd'. rewrite lookup_insert_Some. intros [[<- _]|[_ E]]; [done|]. by apply (tree_name _ T) in E.
Qed.

Lemma tree_delete fs r : tree fs -> fs !! r <> Some NDir -> tree (delete r fs).
Proof.
  intros T Hr. split.
  - apply lookup_delete_None. right. apply T.
  - intros q m nd [_ E]%lookup_delete_Some. apply (tree_parent _ T) in E. destruct q as [|x q]; [done|]. cbn in *.
    rewrite lookup_delete_ne; [done|]. intros E'. rewrite E' in Hr. by apply Hr, dir_node.
  - intros q nd [_ E]%lookup_delete_Some. by apply (tree_name _ T) in E.
Qed.

(** ** The calls *)

Lemma wp_peek {A} (f : fsys -> A) Q X fs : Q (f fs) fs -> wp (peek f) Q X fs.
Proof. done. Qed.
Lemma wp_check {A} (f : fsys -> result file_error A) (Q : A -> fsys -> Prop) X fs :
  (forall a, f fs = Ok a -> Q a fs) -> X fs -> wp (check f) Q X fs.
Proof. intros H HX. unfold wp, check. destruct (f fs) as [a|] eqn:E; [by apply H|done]. Qed.

Lemma wp_located {A} fl p (k : path -> FM A) Q X fs :
  (forall r, place fl p fs = Ok r -> wp (k r) Q X fs) -> X fs -> wp (located fl p k) Q X fs.
Proof. intros H HX. unfold located, wp. destruct (place fl p fs) as [r|] eqn:E; [by apply (H r)|done]. Qed.

Lemma wp_stat dir_stat p fs : wp (stat dir_stat p) (fun _ fs' => fs' = fs) (fun fs' => fs' = fs) fs.
Proof. apply wp_located; [|done]. intros r _. unfold wp. by destruct (node_of fs r) as [[]|]. Qed.

Lemma wp_iterdir scandir p fs : wp (iterdir scandir p) (fun _ fs' => fs' = fs) (fun fs' => fs' = fs) fs.
Proof. apply wp_located; [|done]. intros r _. unfold wp. by destruct (node_of fs r) as [[]|]. Qed.

(** What is read is the file at the place of the path. *)
Lemma wp_read_bytes p fs :
  wp (read_bytes p) (fun data fs' => fs' = fs /\ exists r m, place true p fs = Ok r /\ node_of fs r = Some (NFile data m))
    (fun fs' => fs' = fs) fs.
Proof.
  apply wp_located; [|done]. intros r E. unfold wp. destruct (node_of fs r) as [[d m| |]|] eqn:N; try done.
  split; [done|]. by exists r, m.
Qed.

Lemma wp_read_text p fs :
  wp (read_text p) (fun s fs' => fs' = fs /\ exists r data m,
      place true p fs = Ok r /\ node_of fs r = Some (NFile data m) /\ text_of data = Decoded s)
    (fun fs' => fs' = fs) fs.
Proof.
  apply wp_bind. eapply wp_mono; [apply wp_read_bytes| |done]. intros data fs' (-> & r & m & E & N). cbn.
  destruct (text_of data) eqn:T; [apply wp_ret|by apply wp_throw|by apply wp_throw].
  split; [done|]. by exists r, data, m.
Qed.

Definition not_dir (fs : fsys) (r : path) : Prop := node_of fs r <> Some NDir.

Lemma wp_write_bytes p data now fs :
  wp (write_bytes p data now)
    (fun _ fs' => exists r, place true p fs = Ok r /\ not_dir fs r /\ fs' = <[r := NFile data now]> fs)
    (fun fs' => fs' = fs) fs.
Proof.
  apply wp_located; [|done]. intros r E. unfold wp. destruct (node_of fs r) as [[]|] eqn:N; [| done| |];
    exists r; unfold not_dir; rewrite N; done.
Qed.

Lemma wp_append_text p content now fs :
  wp (append_text p content now)
    (fun _ fs' => exists r data, place true p fs = Ok r /\ not_dir fs r /\ fs' = <[r := NFile data now]> fs)
    (fun fs' => fs' = fs) fs.
Proof.
  apply wp_located; [|done]. intros r E. unfold wp. destruct (node_of fs r) as [[]|] eqn:N; [| done| |];
    eexists r, _; unfold not_dir; rewrite N; done.
Qed.

Lemma wp_unlink p fs :
  wp (unlink p) (fun _ fs' => exists r, place false p fs = Ok r /\ not_dir fs r /\ fs' = delete r fs) (fun fs' => fs' = fs) fs.
Proof.
  apply wp_located; [|done]. intros r E. unfold wp. destruct (node_of fs r) as [[]|] eqn:N; try done;
    exists r; unfold not_dir; rewrite N; done.
Qed.

(** The place of a path whose last segment is not a link there. *)
Lemma place_walks fl p fs r : place fl p fs = Ok r -> is_link fs r = false -> walks fs max_links [] p r.
Proof.
  unfold place. destruct fl; [intros H _; by apply namei_walks|]. destruct p as [|n p _] using rev_ind.
  - rewrite namei_nil. intros [= <-] _. constructor.
  - intros H L. destruct (decide (n = "..")) as [->|N]; [by apply namei_walks, namei_up|].
    apply namei_parent in H as (d & W & _ & ->); [|done]. by apply walks_snoc.
Qed.

(** ** Making directories *)

(** The places of the paths that start [p]. *)
Definition reached (fs : fsys) (p r : path) : Prop := exists q s, p = q ++ s /\ walks fs max_links [] q r.

Lemma os_mkdir_cases p fs :
  (exists r, os_mkdir p fs = (Ok tt, <[r := NDir]> fs) /\ place false p fs = Ok r /\ node_of fs r = None) \/
  exists e, os_mkdir p fs = (Err e, fs).
Proof.
  unfold os_mkdir, located. destruct (place false p fs) as [r|e] eqn:E; [|right; by eexists].
  destruct (node_of fs r) eqn:N; [right; by eexists|left; by exists r].
Qed.

Lemma os_mkdir_grown p fs : tree fs -> grown (reached fs p) fs (os_mkdir p fs).2.
Proof.
  intros T. destruct (os_mkdir_cases p fs) as [(r & -> & E & N)|[e ->]]; [|by apply grown_refl]. cbn.
  pose proof (node_of_none _ _ N) as L. split.
  - apply tree_insert; [done|by eapply place_placed|by rewrite N].
  - intros q. destruct (decide (r = q)) as [<-|D]; [|left; by apply lookup_insert_ne].
    right. split; [done|]. split; [apply lookup_insert_eq|]. exists p, []. rewrite app_nil_r. split; [done|].
    eapply place_walks; [done|by apply missing_no_link].
Qed.

Lemma reached_grown P fs fs' p r : grown P fs fs' -> reached fs' p r -> reached fs p r.
Proof. intros G (q & s & -> & W). exists q, s. split; [done|]. by apply (grown_walks P fs fs'). Qed.

Lemma reached_prefix fs p s r : reached fs p r -> reached fs (p ++ s) r.
Proof. intros (q & t & -> & W). exists q, (t ++ s). by rewrite app_assoc. Qed.

(** A second step that grows by the same path. *)
Lemma grown_then fs fs1 fs2 p : grown (reached fs p) fs fs1 -> grown (reached fs1 p) fs1 fs2 -> grown (reached fs p) fs fs2.
Proof.
  intros G1 G2. eapply grown_trans; [exact G1|]. eapply grown_mono; [|exact G2].
  intros q _. by apply (reached_grown _ _ _ _ _ G1).
Qed.

Lemma mkdir_again_after p fs : (mkdir_again p fs).2 = (os_mkdir p fs).2.
Proof. unfold mkdir_again. destruct (os_mkdir p fs) as [[[]|[[]| | | | |]] s]; try done; cbn; by destruct (is_dir p s). Qed.

Lemma mkdir_rev_grown rp fs : tree fs -> grown (reached fs (rev rp)) fs (mkdir_rev rp fs).2.
Proof.
  revert fs. induction rp as [|n rp IH]; intros fs T; cbn [mkdir_rev].
  - pose proof (os_mkdir_grown (rev []) fs T) as G.
    destruct (os_mkdir (rev []) fs) as [[[]|[[]| | | | |]] s] eqn:E; cbn [fst snd] in *; try done; by destruct (is_dir _ s).
  - pose proof (os_mkdir_grown (rev (n :: rp)) fs T) as G. 
    destruct (os_mkdir (rev (n :: rp)) fs) as [r s] eqn:E; cbn [fst snd] in *.
    assert (C : grown (reached fs (rev (n :: rp))) fs ((_ ← mkdir_rev rp; mkdir_again (rev (n :: rp))) s).2).
    { pose proof (IH s ltac:(by apply G)) as G1. unfold mbind, M_bind. destruct (mkdir_rev rp s) as [r1 s1]. cbn [fst snd] in G1.
      assert (G2 : grown (reached fs (rev (n :: rp))) fs s1).
      { eapply grown_then; [done|]. eapply grown_mono; [|done]. intros q _. cbn [rev]. apply reached_prefix. }
      destruct r1 as [[]|e]; [|done]. rewrite mkdir_again_after. eapply grown_then; [done|]. apply os_mkdir_grown, G2. }
    destruct r as [[]|[[]| | | | |]]; try done; cbn [fst snd]; by destruct (is_dir _ s).
Qed.

Lemma mkdir_grown p fs : tree fs -> grown (reached fs p) fs (mkdir_parents p fs).2.
Proof. intros T. unfold mkdir_parents. pose proof (mkdir_rev_grown (rev p) fs T) as G. by rewrite rev_involutive in G. Qed.

Lemma wp_mkdir p fs :
  tree fs -> wp (mkdir_parents p) (fun _ => grown (reached fs p) fs) (grown (reached fs p) fs) fs.
Proof. intros T. apply wp_after, mkdir_grown, T. Qed.

(** On the way to a resolved path only its own prefixes are reached. *)
Lemma reached_resolved fs p r : resolved fs p -> reached fs p r -> path_prefix r p = true.
Proof.
  intros H (q & s & -> & W). apply path_prefix_spec. exists s. f_equal.
  eapply walks_det; [exact (resolved_walks fs 0 [] q (resolved_prefix _ _ _ H))|done].
Qed.

Lemma is_dir_resolved fs p : resolved fs p -> is_dir p fs = true -> node_of fs p = Some NDir.
Proof.
  intros R. unfold is_dir, stat_node. destruct (place true p fs) as [r|] eqn:E; [|done].
  apply place_walk in E. rewrite resolved_walk in E by done. injection E as <-. apply dir_node.
Qed.

Lemma os_mkdir_made fs p s : resolved fs p -> os_mkdir p fs = (Ok tt, s) -> node_of s p = Some NDir.
Proof.
  intros R E. destruct (os_mkdir_cases p fs) as [(r & E' & Pl & N)|[e E']]; rewrite E' in E; [|done].
  injection E as <-. eapply place_walks in Pl; [|by apply missing_no_link].
  apply walks_walk in Pl. rewrite resolved_walk in Pl by done. injection Pl as <-.
  destruct p; [done|apply lookup_insert_eq].
Qed.

Lemma mkdir_again_made fs p s : resolved fs p -> mkdir_again p fs = (Ok tt, s) -> node_of s p = Some NDir.
Proof.
  unfold mkdir_again. intros R. pose proof (os_mkdir_made fs p) as M.
  destruct (os_mkdir_cases p fs) as [(r & E & _)|[e E]]; rewrite E in M |- *.
  - intros [= <-]. by apply M.
  - intros H. apply is_dir_resolved; [destruct e as [[]| | | | |]; by destruct (is_dir p fs) eqn:?; simplify_eq|].
    destruct e as [[]| | | | |]; by destruct (is_dir p fs) eqn:?; simplify_eq.
Qed.

Lemma mkdir_made fs p s : tree fs -> resolved fs p -> mkdir_parents p fs = (Ok tt, s) -> node_of s p = Some NDir.
Proof.
  unfold mkdir_parents. intros T R. destruct p as [|n p _] using rev_ind; [done|]. rewrite rev_unit. cbn [mkdir_rev rev].
  rewrite rev_involutive. pose proof (os_mkdir_made fs (p ++ [n])) as M.
  destruct (os_mkdir_cases (p ++ [n]) fs) as [(r & E & _)|[e E]]; rewrite E in M |- *.
  { intros [= <-]. by apply M. }
  assert (C : (if is_dir (p ++ [n]) fs then (Ok tt, fs) else (Err e, fs)) = (Ok tt, s) -> node_of s (p ++ [n]) = Some NDir).
  { destruct (is_dir (p ++ [n]) fs) eqn:D; [|done]. intros [= <-]. by apply is_dir_resolved. }
  destruct e as [[] l| | | | |]; try exact C. clear C. intros (u & s1 & E1 & E2)%M_bind_ok.
  eapply mkdir_again_made; [|exact E2]. eapply grown_resolved; [|exact R].
  pose proof (mkdir_rev_grown (rev p) fs T) as G. rewrite E1 in G. exact G.
Qed.

(** A directory that is there is found. *)
Lemma dir_place fs l fl cur rest :
  tree fs -> resolved fs (cur ++ rest) -> node_of fs (cur ++ rest) = Some NDir -> namei l fs fl cur rest = Ok (cur ++ rest).
Proof.
  intros T. revert cur. induction rest as [|n rest IH]; intros cur R D; [by rewrite namei_nil, app_nil_r|].
  replace (cur ++ n :: rest) with ((cur ++ [n]) ++ rest) in * by (by rewrite <- app_assoc).
  assert (N : fs !! (cur ++ [n]) = Some NDir).
  { clear IH. induction rest as [|m rest IH] using rev_ind.
    - rewrite app_nil_r in D. by rewrite node_of_lookup in D.
    - rewrite app_assoc in D, R. apply IH; [by eapply resolved_prefix|]. rewrite node_of_lookup in D.
      by apply (tree_parent _ T), dir_node in D. }
  rewrite namei_cons. rewrite (dir_node _ (tree_parent _ T _ _ _ N)).
  rewrite bool_decide_eq_false_2, N by (intros ->; apply R; set_solver). by apply IH.
Qed.

Lemma dir_found fs fl p : tree fs -> resolved fs p -> node_of fs p = Some NDir -> place fl p fs = Ok p.
Proof. apply (dir_place fs max_links fl []). Qed.

Lemma mkdir_there fs p : tree fs -> resolved fs p -> node_of fs p = Some NDir -> mkdir_parents p fs = (Ok tt, fs).
Proof.
  intros T R D. unfold mkdir_parents. destruct p as [|n p _] using rev_ind; [done|]. rewrite rev_unit. cbn [mkdir_rev rev].
  rewrite rev_involutive. assert (Dir : is_dir (p ++ [n]) fs = true).
  { unfold is_dir, stat_node. by rewrite dir_found, D. }
  unfold os_mkdir, located. rewrite dir_found, D by done. unfold os_error, throw. by rewrite Dir.
Qed.

(** ** Moving a file *)

Lemma wp_rename src dst fs :
  (forall r, place false src fs = Ok r -> not_dir fs r) ->
  wp (rename src dst)
    (fun _ fs' => fs' = fs \/ exists r1 r2 n, place false src fs = Ok r1 /\ place false dst fs = Ok r2 /\
       fs !! r1 = Some n /\ not_dir fs r1 /\ not_dir fs r2 /\ fs' = <[r2 := n]> (delete r1 fs))
    (fun fs' => fs' = fs) fs.
Proof.
  intros H. apply wp_located; [|done]. intros r1 E1. apply wp_located; [|done]. intros r2 E2. specialize (H _ E1).
  unfold wp. destruct (node_of fs r1) as [n|] eqn:N1; [|done].
  assert (L : fs !! r1 = Some n) by (destruct r1; [by injection N1 as <-|done]).
  assert (C : match (if bool_decide (r1 = r2) then (Ok tt, fs)
                     else match node_of fs r2 with
                          | Some NDir => (Err (OSError EISDIR [src; dst]), fs)
                          | _ => (Ok tt, <[r2 := n]> (delete r1 fs))
                          end) with
              | (Ok a, s') => s' = fs \/ exists r1 r2 n, place false src fs = Ok r1 /\ place false dst fs = Ok r2 /\
                  fs !! r1 = Some n /\ not_dir fs r1 /\ not_dir fs r2 /\ s' = <[r2 := n]> (delete r1 fs)
              | (Err _, s') => s' = fs
              end).
  { case_bool_decide; [by left|]. destruct (node_of fs r2) as [[]|] eqn:N2; try done;
      right; exists r1, r2, n; unfold not_dir; rewrite N2; done. }
  destruct n; [exact C|by destruct H|exact C].
Qed.

(** ** Removing a tree *)

Lemma namei_sub fs fs' l fl cur rest r :
  fs' ⊆ fs -> namei l fs' fl cur rest = Ok r -> is_Some (node_of fs' r) -> namei l fs fl cur rest = Ok r.
Proof.
  intros Sub. assert (Sn : forall p n, node_of fs' p = Some n -> node_of fs p = Some n).
  { intros [|x p] n; [done|]. intros H. by eapply (lookup_weaken fs'). }
  revert cur rest r. induction l as [l IHl] using lt_wf_ind. intros cur rest. revert cur.
  induction rest as [|name rest IH]; intros cur r; [by rewrite !namei_nil|]. rewrite !namei_cons.
  destruct (node_of fs' cur) as [n|] eqn:D; [|done]. rewrite (Sn _ _ D). destruct n; [done| |done].
  case_bool_decide as Up; [apply IH|]. destruct (fs' !! (cur ++ [name])) as [n|] eqn:E.
  - rewrite (lookup_weaken _ _ _ _ E Sub). destruct n as [? ?| |a t]; [apply IH|apply IH|].
    destruct (bool_decide (rest = []) && negb fl); [done|]. destruct l as [|l]; [done|]. apply IHl. lia.
  - case_bool_decide; [|done]. intros [= <-]. rewrite node_of_lookup, E. intros [? [=]].
Qed.

Lemma remove_below_sub r fs : remove_below r fs ⊆ fs.
Proof. apply map_filter_subseteq. Qed.

Lemma wp_os_rmdir p fs :
  wp (os_rmdir p) (fun _ fs' => exists r, place false p fs = Ok r /\ node_of fs r = Some NDir /\ is_empty_dir r fs = true /\ fs' = delete r fs)
    (fun fs' => fs' = fs) fs.
Proof.
  apply wp_located; [|done]. intros r E. unfold wp. destruct (node_of fs r) as [[]|] eqn:N; try done.
  do 2 (case_bool_decide; [done|]). destruct (is_empty_dir r fs) eqn:Em; [|done]. by exists r.
Qed.

(** [rmtree] removes nothing but what its directory, found at [r], leads to. *)
Definition pruned (p : path) (fs fs' : fsys) : Prop :=
  fs' = fs \/ exists r, place false p fs = Ok r /\ node_of fs r = Some NDir /\
    (tree fs -> tree fs') /\ forall q, path_prefix r q = false -> fs' !! q = fs !! q.

Lemma path_prefix_snoc root d n : path_prefix root (d ++ [n]) = true -> root = d ++ [n] \/ path_prefix root d = true.
Proof.
  intros [q E]%path_prefix_spec. destruct q as [|x q _] using rev_ind.
  - left. by rewrite app_nil_r in E.
  - right. rewrite app_assoc in E. apply app_inj_tail in E as [-> _]. apply path_prefix_app.
Qed.

Lemma path_prefix_down root p q : path_prefix root p = true -> path_prefix root (p ++ q) = true.
Proof. intros [s ->]%path_prefix_spec. rewrite <- app_assoc. apply path_prefix_app. Qed.

Lemma strictly_below_down r q m : strictly_below r q = true -> strictly_below r (q ++ [m]) = true.
Proof.
  unfold strictly_below. rewrite !andb_true_iff, !bool_decide_eq_true. intros [H N].
  split; [by apply path_prefix_down|]. intros E. apply path_prefix_spec in H as [s H]. rewrite H in E.
  apply (f_equal List.length) in E. rewrite !length_app in E. cbn in E. lia.
Qed.

Lemma remove_below_some r fs p n : remove_below r fs !! p = Some n <-> fs !! p = Some n /\ strictly_below r p = false.
Proof. unfold remove_below. by rewrite map_lookup_filter_Some. Qed.

Lemma tree_remove_below fs r : tree fs -> tree (remove_below r fs).
Proof.
  intros T. split.
  - apply eq_None_not_Some. intros [n [E _]%remove_below_some]. by rewrite (tree_root _ T) in E.
  - intros q m nd [E B]%remove_below_some. pose proof (tree_parent _ T _ _ _ E) as D%dir_node.
    destruct q as [|x q]; [done|]. cbn in *.
    assert (remove_below r fs !! (x :: q) = Some NDir) as ->; [|done].
    apply remove_below_some. split; [done|]. destruct (strictly_below r (x :: q)) eqn:S; [|done].
    change (strictly_below r ((x :: q) ++ [m]) = false) in B. by rewrite strictly_below_down in B.
  - intros q nd [E _]%remove_below_some. by apply (tree_name _ T) in E.
Qed.

Lemma tree_rmdir fs r : tree fs -> is_empty_dir r fs = true -> tree (delete r fs).
Proof.
  intros T H. split.
  - apply lookup_delete_None. right. apply T.
  - intros q m nd [N E]%lookup_delete_Some. pose proof (tree_parent _ T _ _ _ E) as D.
    destruct q as [|x q]; [done|]. cbn in *. rewrite lookup_delete_ne; [done|]. intros ->.
    unfold is_empty_dir in H. rewrite forallb_forall in H. apply elem_of_map_to_list, list_elem_of_In, H in E. cbn in E.
    rewrite negb_true_iff in E. unfold strictly_below in E. rewrite andb_false_iff, bool_decide_eq_false in E.
    destruct E as [E|E]; [|exfalso; apply E; intros E'; apply (f_equal List.length) in E'; cbn in E'; rewrite length_app in E'; cbn in E'; lia].
    change (path_prefix (x :: q) ((x :: q) ++ [m]) = false) in E. by rewrite path_prefix_app in E.
  - intros q nd [_ E]%lookup_delete_Some. by apply (tree_name _ T) in E.
Qed.

Lemma remove_below_outside r fs q : path_prefix r q = false -> remove_below r fs !! q = fs !! q.
Proof.
  intros Hq. unfold remove_below. destruct (fs !! q) as [n|] eqn:L.
  - apply map_lookup_filter_Some. split; [done|]. cbn. unfold strictly_below. by rewrite Hq.
  - apply map_lookup_filter_None. by left.
Qed.

Lemma path_prefix_refl p : path_prefix p p = true.
Proof. rewrite <- (app_nil_r p) at 2. apply path_prefix_app. Qed.

Lemma wp_rmtree p fs : wp (rmtree p) (fun _ => pruned p fs) (pruned p fs) fs.
Proof.
  apply wp_located; [|by left]. intros r E.
  unfold wp. destruct (node_of fs r) as [[]|] eqn:N; [by left| |destruct (is_dir p fs); by left|by left].
  change (wp (os_rmdir p) (fun _ => pruned p fs) (pruned p fs) (remove_below r fs)).
  eapply wp_mono; [apply wp_os_rmdir| |].
  - intros _ fs' (r' & E' & N' & Em & ->). right. exists r. split; [done|]. split; [done|].
    split; [intros T; by apply tree_rmdir; [apply tree_remove_below|]|]. intros q Hq.
    assert (r' = r) as ->.
    { eapply (namei_sub fs) in E'; [|apply remove_below_sub|by eexists]. unfold place in E. congruence. }
    rewrite lookup_delete_ne; [by apply remove_below_outside|]. intros ->. by rewrite path_prefix_refl in Hq.
  - intros fs' ->. right. exists r. split; [done|]. split; [done|].
    split; [apply tree_remove_below|]. apply remove_below_outside.
Qed.

(** ** Checking a concrete tree *)

Definition tree_check (fs : fsys) : bool :=
  forallb (fun e : path * node =>
    match e.1 with
    | [] => false
    | _ => is_dir_node (node_of fs (removelast e.1)) && negb (bool_decide (".." ∈ e.1))
    end) (map_to_list fs).

Lemma tree_check_ok fs : tree_check fs = true -> tree fs.
Proof.
  intros H. unfold tree_check in H. rewrite forallb_forall in H.
  assert (C : forall p n, fs !! p = Some n -> p <> [] /\ is_dir_node (node_of fs (removelast p)) = true /\ ".." ∉ p).
  { intros p n E. apply elem_of_map_to_list, list_elem_of_In, H in E. cbn in E. destruct p as [|x p]; [done|].
    rewrite andb_true_iff, negb_true_iff, bool_decide_eq_false in E. done. }
  split.
  - apply eq_None_not_Some. intros [n E]. by apply C in E as [? _].
  - intros q n nd (_ & E & _)%C. by rewrite removelast_last in E.
  - by intros q nd (_ & _ & E)%C.
Qed.

Definition resolved_check (fs : fsys) (p : path) : bool :=
  negb (bool_decide (".." ∈ p)) && forallb (fun k => negb (is_link fs (take k p))) (seq 1 (List.length p)).

Lemma resolved_check_ok fs p : resolved_check fs p = true -> resolved fs p.
Proof.
  unfold resolved_check. rewrite andb_true_iff, negb_true_iff, bool_decide_eq_false, forallb_forall. intros [H1 H2].
  split; [done|]. intros q n s ->. apply negb_true_iff.
  replace (q ++ [n]) with (take (S (List.length q)) (q ++ n :: s)).
  - apply H2, in_seq. rewrite length_app. cbn. lia.
  - replace (q ++ n :: s) with ((q ++ [n]) ++ s) by (by rewrite <- app_assoc).
    replace (S (List.length q)) with (List.length (q ++ [n])) by (rewrite length_app; cbn; lia). apply take_app_length.
Qed.

(** A property of every link of a tree, by evaluation. *)
Definition links_check (f : path -> bool) (fs : fsys) : bool :=
  forallb (fun e : path * node => negb (is_link_node (Some e.2)) || f e.1) (map_to_list fs).

Lemma links_check_ok f fs : links_check f fs = true -> forall p, is_link fs p = true -> f p = true.
Proof.
  unfold links_check, is_link. rewrite forallb_forall. intros H p L. destruct (fs !! p) as [n|] eqn:E; [|done].
  apply elem_of_map_to_list, list_elem_of_In, H in E. cbn in E. rewrite orb_true_iff, negb_true_iff in E. cbn in L, E.
  destruct E; congruence.
Qed.

(** ** Computations that only look *)

Definition keeps {A} (m : FM A) : Prop := forall s, wp m (fun _ s' => s' = s) (fun s' => s' = s) s.

Lemma keeps_ret {A} (a : A) : keeps (mret a).
Proof. done. Qed.
Lemma keeps_throw {A} e : keeps (throw e : FM A).
Proof. done. Qed.
Lemma keeps_peek {A} (f : fsys -> A) : keeps (peek f).
Proof. done. Qed.
Lemma keeps_check {A} (f : fsys -> result file_error A) : keeps (check f).
Proof. intros s. by apply wp_check. Qed.
Lemma keeps_stat dir_stat p : keeps (stat dir_stat p).
Proof. intros s. apply wp_stat. Qed.
Lemma keeps_read_text p : keeps (read_text p).
Proof. intros s. eapply wp_mono; [apply wp_read_text| |done]. by intros a s' [-> _]. Qed.
Lemma keeps_bind {A B} (m : FM A) (f : A -> FM B) : keeps m -> (forall a, keeps (f a)) -> keeps (a ← m; f a).
Proof.
  intros Hm Hf s. apply wp_bind. eapply wp_mono; [apply Hm| |done]. intros a s1 E. cbn in E. subst s1. apply Hf.
Qed.
Lemma keeps_if {A} (b : bool) (m n : FM A) : keeps m -> keeps n -> keeps (if b then m else n).
Proof. by destruct b. Qed.

Create HintDb keeps.
#[export] Hint Resolve keeps_ret keeps_throw keeps_peek keeps_check keeps_stat keeps_read_text : keeps.

(** Steps through binds and conditions. *)
Ltac keeps_step :=
  repeat first
    [ progress auto with keeps
    | apply keeps_if
    | apply keeps_bind; [|intros ?]
    | progress cbv zeta ].

(** ** Where there are no links *)

Lemma namei_dirs fs l fl cur d rest :
  tree fs -> resolved fs (cur ++ d) -> node_of fs (cur ++ d) = Some NDir -> rest <> [] ->
  namei l fs fl cur (d ++ rest) = namei l fs fl (cur ++ d) rest.
Proof.
  intros T. revert cur. induction d as [|n d IH]; intros cur R D Nr; [by rewrite app_nil_r|].
  replace (cur ++ n :: d) with ((cur ++ [n]) ++ d) in * by (by rewrite <- app_assoc).
  assert (N : fs !! (cur ++ [n]) = Some NDir).
  { clear IH. induction d as [|m d IH] using rev_ind.
    - rewrite app_nil_r in D. by rewrite node_of_lookup in D.
    - rewrite app_assoc in D, R. apply IH; [by eapply resolved_prefix|]. rewrite node_of_lookup in D.
      by apply (tree_parent _ T), dir_node in D. }
  cbn [app]. rewrite namei_cons, (dir_node _ (tree_parent _ T _ _ _ N)).
  rewrite bool_decide_eq_false_2, N by (intros ->; apply R; set_solver). by apply IH.
Qed.

(** A child of a directory that is not a link is found where it is. *)
Lemma place_child fs fl d n :
  tree fs -> resolved fs d -> node_of fs d = Some NDir -> n <> ".." -> is_link fs (d ++ [n]) = false ->
  place fl (d ++ [n]) fs = Ok (d ++ [n]).
Proof.
  intros T R D N L. unfold place. rewrite (namei_dirs fs _ fl [] d [n] T R D) by done. cbn [app].
  rewrite namei_cons, D, bool_decide_eq_false_2 by done. unfold is_link in L.
  destruct (fs !! (d ++ [n])) as [[]|]; by rewrite ?namei_nil, ?bool_decide_eq_true_2.
Qed.

Lemma stat_child fs d n :
  tree fs -> resolved fs d -> node_of fs d = Some NDir -> n <> ".." -> is_link fs (d ++ [n]) = false ->
  stat_node (d ++ [n]) fs = fs !! (d ++ [n]).
Proof. intros. unfold stat_node. by rewrite place_child, node_of_lookup. Qed.

Lemma resolve_self fs p : resolved fs p -> has_null p = false -> resolve p fs = Ok p.
Proof. intros R N. unfold resolve. by rewrite N, resolved_walk. Qed.

Lemma validate_below fs root q :
  resolved fs root -> has_null root = false -> resolved fs (root ++ q) -> has_null (root ++ q) = false ->
  validate_path (root ++ q) [root] fs = Ok true.
Proof.
  intros R N Rq Nq. unfold validate_path. rewrite resolve_self by done. cbn. rewrite resolve_self by done. cbn.
  by rewrite path_prefix_app.
Qed.

Lemma has_null_app p q : has_null (p ++ q) = has_null p || has_null q.
Proof. unfold has_null. apply existsb_app. Qed.

(** One directory. *)
Definition ensure_dir (r : path) (fs : fsys) : fsys := match fs !! r with None => <[r := NDir]> fs | Some _ => fs end.

Lemma mkdir_child fs d n :
  tree fs -> resolved fs d -> node_of fs d = Some NDir -> n <> ".." -> is_link fs (d ++ [n]) = false ->
  fs !! (d ++ [n]) = None \/ fs !! (d ++ [n]) = Some NDir ->
  mkdir_parents (d ++ [n]) fs = (Ok tt, ensure_dir (d ++ [n]) fs).
Proof.
  intros T R D N L [E|E]; unfold ensure_dir; rewrite E.
  - unfold mkdir_parents. rewrite rev_unit. cbn [mkdir_rev rev]. rewrite rev_involutive.
    unfold os_mkdir, located. by rewrite place_child, node_of_lookup, E.
  - apply mkdir_there; [done|by apply resolved_snoc|by rewrite node_of_lookup].
Qed.
