(* ===== verification/Confinement.v ===== *)
(** * Keeping to a directory

    What it takes for a service that uses paths below a directory [root] to leave the
    rest of the disk alone: the states it passes through, the paths it has checked, and
    the calls it makes with them. A path that goes up, [up], can make directories outside
    on its way; nothing that was there changes. *)

From stdpp Require Import base tactics gmap list option strings.
From Stdlib Require Import ZArith NArith Lia Ascii.
From S2P Require Import Prelude PyStr SafePath Db PyPath FileSys FileSysProps.

(** ** What an operation leaves of the rest *)

(** Outside, everything that is there stays; missing directories can be made, but only
    on the way to the root unless a path goes [up]. *)
Definition outside_kept (up : Prop) (root : path) (fs fs' : fsys) : Prop :=
  forall p, path_prefix root p = false ->
    fs' !! p = fs !! p \/ (fs !! p = None /\ fs' !! p = Some NDir /\ (up \/ path_prefix p root = true)).

Lemma outside_kept_refl up root fs : outside_kept up root fs fs.
Proof. by left. Qed.
Lemma outside_kept_trans up root fs1 fs2 fs3 :
  outside_kept up root fs1 fs2 -> outside_kept up root fs2 fs3 -> outside_kept up root fs1 fs3.
Proof.
  intros H1 H2 p Hp. destruct (H1 p Hp) as [E1|(E1 & E1' & Hr)], (H2 p Hp) as [E2|(E2 & E2' & Hr')].
  - left. congruence.
  - right. split; [congruence|done].
  - right. split; [done|]. split; [congruence|done].
  - right. split; [done|]. split; [congruence|done].
Qed.

(** No link from outside leads below the root; no link of the workspace has the name of
    a temporary file. *)
Definition no_backlinks (root : path) (fs : fsys) : Prop :=
  forall p r, is_link fs p = true -> path_prefix root p = false -> walks fs max_links [] p r -> path_prefix root r = false.
Definition temp_name (n : string) : Prop := exists s, n = s +:+ ".tmp".
Definition no_temp_links (root : path) (fs : fsys) : Prop :=
  forall q n, is_link fs (q ++ [n]) = true -> path_prefix root q = true -> ~ temp_name n.

Lemma prefix_of_prefix root r p : path_prefix root r = true -> path_prefix root p = false -> path_prefix r p = false.
Proof.
  intros P1 P2. destruct (path_prefix r p) eqn:P; [|done]. apply path_prefix_spec in P as [u ->].
  by rewrite path_prefix_down in P2.
Qed.

Section confined.
Context {up : Prop} {root : path}.

(** A state in which the directory of the workspace is reached and no other. *)
Record ready (fs s : fsys) : Prop := {
  ready_tree : tree s;
  ready_kept : outside_kept up root fs s;
  ready_resolved : resolved s root;
  ready_links : forall p, is_link fs p = true \/ is_link s p = true -> fs !! p = s !! p
}.

Definition good (fs fs' : fsys) : Prop := tree fs' /\ outside_kept up root fs fs'.

Lemma ready_good fs s : ready fs s -> good fs s.
Proof. intros [? ? ? ?]. by split. Qed.

Lemma ready_refl fs : tree fs -> resolved fs root -> ready fs fs.
Proof. by split; [|apply outside_kept_refl| |]. Qed.

Lemma ready_grown fs s s' :
  ready fs s -> grown (fun r => (up \/ path_prefix r root = true) \/ path_prefix root r = true) s s' -> ready fs s'.
Proof.
  intros [T K R L] G. split.
  - apply G.
  - eapply outside_kept_trans; [done|]. intros p Hp. destruct G as [_ G].
    destruct (G p) as [->|(-> & -> & [H|H])]; [by left|by right|congruence].
  - by eapply grown_resolved.
  - intros p Hp. rewrite L, (grown_same_links _ _ _ _ G); [done| |].
    + rewrite (grown_links _ _ _ p G) in *. unfold is_link in *. destruct Hp as [Hp|Hp]; [|by left].
      left. rewrite <- L; [done|]. by left.
    + destruct Hp as [Hp|Hp]; [by left|right]. by rewrite (grown_links _ _ _ p G) in Hp.
Qed.

Lemma ready_walks fs s l cur rest r : ready fs s -> walks s l cur rest r <-> walks fs l cur rest r.
Proof.
  intros [_ _ _ L]. split; apply walks_ext; intros p; [|by apply L]. intros H. symmetry. apply L. tauto.
Qed.

Lemma ready_no_backlinks fs s : ready fs s -> no_backlinks root fs -> no_backlinks root s.
Proof.
  intros R H p r Lp Out W. apply (H p r); [|done|by apply (ready_walks fs s)].
  unfold is_link in *. rewrite (ready_links _ _ R p); [done|by right].
Qed.

Lemma ready_no_temp fs s : ready fs s -> no_temp_links root fs -> no_temp_links root s.
Proof.
  intros R H q n Lp. apply H. unfold is_link in *. rewrite (ready_links _ _ R (q ++ [n])); [done|by right].
Qed.

(** What reading does: at most the directory of the workspace is made. *)
Definition looked (fs fs' : fsys) : Prop := grown (fun r => path_prefix r root = true) fs fs'.
Definition stage (fs s0 s : fsys) : Prop := ready fs s /\ looked s0 s.

Lemma stage_start fs s : ready fs s -> stage fs s s.
Proof. intros R. split; [done|]. apply grown_refl, R. Qed.

(** ** Paths that have been checked *)

(** What the check of a candidate gives. *)
Definition inside (s : fsys) (c : path) : Prop :=
  exists r, walks s max_links [] c r /\ path_prefix root r = true.

(** A file that is there, as opposed to a directory. *)
Lemma existing_place s c :
  exists_ c s = true -> is_dir c s = false -> exists r n, place true c s = Ok r /\ node_of s r = Some n /\ not_dir s r.
Proof.
  unfold exists_, is_dir, stat_node. destruct (place true c s) as [r|]; [|done].
  destruct (node_of s r) as [n|] eqn:N; [|done]. intros _ D. exists r, n. split; [done|]. split; [done|].
  unfold not_dir. rewrite N. by intros [= ->].
Qed.

Lemma inside_place s c r fl : inside s c -> place fl c s = Ok r -> is_link s r = false -> path_prefix root r = true.
Proof.
  intros (r' & W & P) E L. apply place_walks in E; [|done]. by rewrite (walks_det _ _ _ _ _ _ _ E W).
Qed.

Lemma place_true_inside s c r : inside s c -> place true c s = Ok r -> path_prefix root r = true.
Proof. intros (r' & W & P) E%namei_walks. by rewrite (walks_det _ _ _ _ _ _ _ E W). Qed.

(** The directory that holds a file of the workspace is below the root too. *)
Lemma parent_inside s p n d :
  node_of s root = Some NDir -> no_backlinks root s -> n <> ".." ->
  inside s (p ++ [n]) -> exists_ (p ++ [n]) s = true -> is_dir (p ++ [n]) s = false ->
  walks s max_links [] p d -> path_prefix root d = true.
Proof.
  intros D B Nn (r & W & P) Ex Nd Wd. destruct (existing_place _ _ Ex Nd) as (r' & nd & Pr & Nr & Dr).
  apply namei_walks in Pr. rewrite (walks_det _ _ _ _ _ _ _ Pr W) in Nr, Dr.
  destruct (is_link s (d ++ [n])) eqn:L.
  - destruct (path_prefix root (d ++ [n])) eqn:Pq.
    + apply path_prefix_snoc in Pq as [E|]; [|done]. exfalso. rewrite E, node_of_lookup in D.
      unfold is_link in L. by rewrite D in L.
    + exfalso. apply walks_app in W as (d' & Wd' & W). rewrite (walks_det _ _ _ _ _ _ _ Wd' Wd) in W.
      assert (resolved s d) as Rd by (eapply walks_resolved; [apply resolved_nil|done]).
      pose proof (walks_then s _ _ _ _ _ _ _ (resolved_walks s 0 [] d Rd) W) as W'. cbn in W'.
      by rewrite (B _ _ L Pq W') in P.
  - pose proof (walks_snoc s _ _ _ _ _ Wd Nn L) as W'. rewrite (walks_det _ _ _ _ _ _ _ W W') in *.
    apply path_prefix_snoc in P as [E|]; [|done]. exfalso. by rewrite E in D.
Qed.

(** ** Calls on checked paths *)

Lemma prefix_of_app r p t : path_prefix r (p ++ t) = true -> path_prefix r p = true \/ path_prefix p r = true.
Proof.
  rewrite path_prefix_spec. intros [q E]. apply app_eq_inv in E as [(k & -> & _)|(k & -> & _)].
  - left. apply path_prefix_app.
  - right. apply path_prefix_app.
Qed.

(** Directories made towards a candidate. *)
Lemma mkdir_towards fs s b t :
  ready fs s -> inside s (b ++ t) -> up \/ ".." ∉ b ++ t -> wp (mkdir_parents b) (fun _ => ready fs) (ready fs) s.
Proof.
  set (c := b ++ t).
  intros R (r & W & P) Nc. pose proof (ready_tree _ _ R) as T.
  assert (G : forall s', grown (reached s c) s s' -> ready fs s').
  { intros s' H. eapply ready_grown; [done|]. eapply grown_mono; [|done]. intros p Hp (q & u & Ec & Wq).
    destruct Nc as [Up|Nc]; [by left; left|]. rewrite Ec in W, Nc. destruct p as [|x p]; [by left; right|]. apply walks_app in W as (p' & Wp & W).
    rewrite (walks_det _ _ _ _ _ _ _ Wp Wq) in W.
    assert (Rp : resolved s (x :: p)) by (eapply walks_resolved; [apply resolved_nil|done]).
    assert (Rt : resolved s ((x :: p) ++ u)) by (apply missing_resolved; [done..|set_solver]).
    rewrite (walks_det _ _ _ _ _ _ _ W (resolved_walks s 0 _ _ Rt)) in P.
    apply prefix_of_app in P as [P|P]; [by right|by left; right]. }
  assert (Gb : forall s', grown (reached s b) s s' -> ready fs s').
  { intros s' H. apply G. eapply grown_mono; [|done]. intros p _. apply reached_prefix. }
  eapply wp_mono; [by apply wp_mkdir|intros a; apply Gb|apply Gb].
Qed.

Lemma mkdir_inside fs s c :
  ready fs s -> inside s c -> up \/ ".." ∉ c -> wp (mkdir_parents c) (fun _ => ready fs) (ready fs) s.
Proof. intros R I N. by apply (mkdir_towards _ _ c []); rewrite ?app_nil_r. Qed.

Lemma mkdir_parent fs s c :
  ready fs s -> inside s c -> up \/ ".." ∉ c -> wp (mkdir_parents (removelast c)) (fun _ => ready fs) (ready fs) s.
Proof.
  intros R I N. destruct c as [|n p _] using rev_ind; [by apply mkdir_inside|]. rewrite removelast_last.
  by apply (mkdir_towards _ _ p [n]).
Qed.

(** A file written below the root, where there is no link. *)
Lemma ready_write fs s r data m :
  ready fs s -> placed s r -> not_dir s r -> is_link s r = false -> path_prefix root r = true ->
  ready fs (<[r := NFile data m]> s).
Proof.
  intros R P D L B. assert (Lk : forall p, is_link (<[r := NFile data m]> s) p = is_link s p).
  { intros p. destruct (decide (r = p)) as [<-|N]; [rewrite L|]; unfold is_link; [by rewrite lookup_insert_eq|by rewrite lookup_insert_ne]. }
  split.
  - apply tree_insert; [apply R|done..].
  - eapply outside_kept_trans; [apply R|]. intros p Hp. left. apply lookup_insert_ne. congruence.
  - destruct (ready_resolved _ _ R) as [H1 H2]. split; [done|]. intros q n t E. rewrite Lk. by apply (H2 q n t).
  - intros p Hp. rewrite Lk in Hp. rewrite (ready_links _ _ R p Hp). destruct (decide (r = p)) as [<-|N]; [|by rewrite lookup_insert_ne].
    exfalso. rewrite L in Hp. destruct Hp as [Hp|]; [|done]. unfold is_link in *. rewrite (ready_links _ _ R r) in Hp; [congruence|by left].
Qed.

Lemma resolved_no_link s r : resolved s r -> is_link s r = false \/ r = [].
Proof. destruct r as [|n r _] using rev_ind; [by right|]. intros [_ H]. left. by apply (H r n []). Qed.

Lemma write_inside fs s c data now :
  ready fs s -> inside s c -> wp (write_bytes c data now) (fun _ => ready fs) (ready fs) s.
Proof.
  intros R I. eapply wp_mono; [apply wp_write_bytes| |by intros ? ->]. intros _ s' (r & E & D & ->).
  apply ready_write; [done|eapply place_placed; [apply R|done]|done| |by eapply place_true_inside].
  destruct (resolved_no_link _ _ (place_resolved _ _ _ E)) as [ | ->]; [done|]. by destruct D.
Qed.

Lemma inside_ready fs s s' c : ready fs s -> ready fs s' -> inside s c -> inside s' c.
Proof.
  intros R R' (r & W & P). exists r. split; [|done]. apply (ready_walks fs s'); [done|]. by apply (ready_walks fs s).
Qed.

Lemma path_prefix_antisym p q : path_prefix p q = true -> path_prefix q p = true -> p = q.
Proof.
  intros [u ->]%path_prefix_spec [v E]%path_prefix_spec. destruct u as [|x u]; [by rewrite app_nil_r|].
  apply (f_equal List.length) in E. rewrite !length_app in E. cbn in E. lia.
Qed.

(** Changes strictly below the root leave the way to it. *)
Lemma resolved_outside (s s' : fsys) :
  resolved s root -> (forall p, strictly_below root p = false -> s' !! p = s !! p) -> resolved s' root.
Proof.
  intros [H1 H2] K. split; [done|]. intros q n t E. unfold is_link. rewrite K; [by apply (H2 q n t)|].
  unfold strictly_below. apply andb_false_iff. destruct (path_prefix root (q ++ [n])) eqn:P; [|by left]. right.
  apply bool_decide_eq_false. intros Ne. apply Ne, path_prefix_antisym; [|done]. rewrite E.
  replace (q ++ n :: t) with ((q ++ [n]) ++ t) by (by rewrite <- app_assoc). apply path_prefix_app.
Qed.

Lemma strictly_below_file d n : path_prefix root d = true -> strictly_below root (d ++ [n]) = true.
Proof.
  intros P. unfold strictly_below. rewrite path_prefix_down by done. apply bool_decide_eq_true. intros E.
  apply path_prefix_spec in P as [u P]. rewrite P in E. apply (f_equal List.length) in E. rewrite !length_app in E. cbn in E. lia.
Qed.

Lemma below_kept (r p : path) (s s' : fsys) :
  (forall q, strictly_below r q = false -> s' !! q = s !! q) -> path_prefix r p = false -> s' !! p = s !! p.
Proof. intros K P. apply K. unfold strictly_below. by rewrite P. Qed.

(** The second half of a write: the temporary file takes the place of the target. *)
Lemma replace_good fs s p n m :
  ready fs s -> n <> ".." -> m <> ".." ->
  (forall d, walks s max_links [] p d -> path_prefix root d = true /\ not_dir s (d ++ [m])) ->
  wp (rename (p ++ [m]) (p ++ [n]))
    (fun _ s' => ready s' s' /\ outside_kept up root fs s') (ready fs) s.
Proof.
  intros R Nn Nm Par. pose proof (ready_tree _ _ R) as T.
  assert (Q : forall r d, place false (p ++ [n]) s = Ok r -> place false (p ++ [m]) s = Ok d -> exists c,
            walks s max_links [] p c /\ r = c ++ [n] /\ d = c ++ [m]).
  { intros r d (c & Wc & _ & ->)%namei_parent (c' & Wc' & _ & ->)%namei_parent; [|done..]. exists c.
    by rewrite (walks_det _ _ _ _ _ _ _ Wc' Wc). }
  destruct (place false (p ++ [n]) s) as [r|e] eqn:Pn.
  2: { apply wp_located; [|done]. intros r1 _. apply wp_located; [|done]. intros r2 E. congruence. }
  eapply wp_mono; [apply wp_rename| |by intros ? ->].
  - intros r1 E. destruct (Q _ _ eq_refl E) as (c & Wc & -> & ->). by apply Par.
  - intros _ s' [->|(r1 & r2 & nd & E1 & E2 & L1 & D1 & D2 & ->)].
    { split; [|apply R]. apply ready_refl; apply R. }
    assert (r2 = r) as -> by congruence. destruct (Q _ _ eq_refl E1) as (c & [Pc _]%Par & -> & ->).
    assert (K : forall q, strictly_below root q = false -> <[c ++ [n] := nd]> (delete (c ++ [m]) s) !! q = s !! q).
    { intros q Hq. rewrite lookup_insert_ne, lookup_delete_ne; [done|..]; intros <-; by rewrite strictly_below_file in Hq. }
    pose proof (place_placed _ _ _ _ T Pn) as Pl. split; [apply ready_refl|].
    + apply tree_insert; [apply tree_delete; [done|]| |].
      * intros E. apply D1. by rewrite node_of_lookup.
      * destruct Pl as [E|(d & x & E & Nu & Dd)]; [by destruct c|]. apply app_inj_tail in E as [<- <-]. right.
        exists c, n. split; [done|]. split; [done|]. destruct c as [|x c]; [done|]. cbn in *.
        rewrite lookup_delete_ne; [done|]. intros E. apply (f_equal List.length) in E. cbn in E. rewrite length_app in E. cbn in E. lia.
      * rewrite node_of_lookup in *. unfold not_dir in D2. rewrite node_of_lookup in D2. 
        destruct (decide (c ++ [m] = c ++ [n])) as [->|Ne]; [by rewrite lookup_delete_eq|by rewrite lookup_delete_ne].
    + by eapply resolved_outside; [apply R|].
    + eapply outside_kept_trans; [apply R|]. intros q Hq. left. by apply (below_kept root).
Qed.

Lemma unlink_good fs s c :
  ready fs s -> node_of s root = Some NDir -> no_backlinks root s -> inside s c -> exists_ c s = true -> is_dir c s = false ->
  wp (unlink c) (fun _ => good fs) (good fs) s.
Proof.
  intros R D B I Ex Nd. eapply wp_mono; [apply wp_unlink| |intros ? ->; by apply ready_good].
  intros _ s' (r & E & Dr & ->). assert (P : path_prefix root r = true).
  { destruct c as [|n p _] using rev_ind.
    - unfold place in E. rewrite namei_nil in E. injection E as <-. by destruct Dr.
    - destruct (decide (n = "..")) as [->|Nn].
      + eapply place_true_inside; [done|]. by apply namei_up.
      + apply namei_parent in E as (d & W & _ & ->); [|done]. apply path_prefix_down. by eapply parent_inside. }
  split.
  - apply tree_delete; [apply R|]. intros E'. apply Dr. by destruct r.
  - eapply outside_kept_trans; [apply R|]. intros p Hp. left. apply lookup_delete_ne. intros ->. congruence.
Qed.

Lemma rmtree_good fs s c : ready fs s -> inside s c -> wp (rmtree c) (fun _ => good fs) (good fs) s.
Proof.
  intros R I. assert (G : forall s', pruned c s s' -> good fs s').
  { intros s' [->|(r & E & N & T & K)]; [by apply ready_good|]. split; [apply T, R|].
    assert (P : path_prefix root r = true).
    { eapply inside_place; [done|done|]. apply dir_no_link; [apply R|done]. }
    eapply outside_kept_trans; [apply R|]. intros p Hp. left. apply K. by eapply prefix_of_prefix. }
  eapply wp_mono; [apply wp_rmtree|intros a; apply G|apply G].
Qed.

End confined.
Arguments ready : clear implicits.
Arguments good : clear implicits.
Arguments looked : clear implicits.
Arguments stage : clear implicits.
Arguments inside : clear implicits.
