(* ===== verification/WorkspaceFiles.v ===== *)
(** * Files of a workspace ([services/workspace_files.py])

    Listing, uploading, downloading, previewing, reading, writing and deleting the files
    below the directory of a workspace. A candidate path is checked by resolving it and
    then used as it stands. *)

From stdpp Require Import base tactics gmap list option strings.
From Stdlib Require Import ZArith NArith Ascii.
From S2P Require Import Prelude PyStr PySort SafePath Db PyPath FileSys.

Definition MAX_UPLOAD_SIZE_BYTES : Z := 50 * 1024 * 1024.
Definition MAX_TEXT_FILE_SIZE_BYTES : Z := 1 * 1024 * 1024.
Definition TEXT_FILE_EXTENSIONS : list string :=
  [".txt"; ".md"; ".py"; ".json"; ".toml"; ".yaml"; ".yml"; ".js"; ".ts"; ".tsx"; ".jsx"; ".css"; ".html"; ".sh"].
Definition SAFE_INLINE_MIME_TYPES : list string :=
  ["application/pdf"; "image/gif"; "image/jpeg"; "image/png"; "image/webp"; "text/plain"].

Record WorkspaceFileEntry := mkFileEntry {
  fe_name : string;
  fe_path : string;
  fe_type : string;
  fe_size : Z;
  fe_modified_at : Z
}.
Record WorkspaceFileListing := mkFileListing { fl_current_path : string; fl_entries : list WorkspaceFileEntry }.
Record WorkspaceTextFile := mkTextFile { tf_path : string; tf_content : string; tf_size : Z }.
Record WorkspaceResolvedFile := mkResolvedFile { rf_path : string; rf_absolute_path : path; rf_media_type : string }.

(** [directory / name]. *)
Definition join_path (p : path) (name : string) : path :=
  if is_absolute name then path_parts name else p ++ path_parts name.

(** [_normalize_current_path]. *)
Definition normalize_current_path (relative_path : string) : string :=
  let normalized := strip_slashes (strip relative_path) in
  if bool_decide (normalized = "") || bool_decide (normalized = ".") then "" else as_posix (path_parts normalized).

Section service.
Variable dir_stat : fsys -> path -> Z * Z.
Variable scandir : fsys -> path -> list string.
Variable guess_type : string -> option string.
(** The limits of the instance and its [_groups_root]. *)
Variables (max_upload_size_bytes max_text_file_size_bytes : Z) (groups_root : path).

(** [_workspace_root]. *)
Definition workspace_root (group_folder : string) : FM path :=
  candidate ← check (resolve (join_path groups_root group_folder));
  ok ← check (validate_path candidate [groups_root]);
  if ok : bool then
    _ ← mkdir_parents candidate;
    mret candidate
  else throw (ValueErr "invalid workspace root").

(** [_resolve_candidate]. *)
Definition resolve_candidate (root : path) (relative_path : string) : FM path :=
  let candidate := join_path root (normalize_current_path relative_path) in
  resolved_candidate ← check (resolve candidate);
  ok ← check (validate_path resolved_candidate [root]);
  if ok : bool then mret candidate
  else if bool_decide (".." ∈ path_parts relative_path) then throw (ValueErr "path traversal detected")
  else throw (ValueErr "symlink traversal detected").

(** [_resolve_existing_file], with the root of the workspace. *)
Definition resolve_existing_file (group_folder file_path : string) : FM path :=
  root ← workspace_root group_folder;
  target ← resolve_candidate root file_path;
  there ← peek (exists_ target);
  if negb there then throw (Raised ENOENT "file not found")
  else
    dir ← peek (is_dir target);
    if dir : bool then throw (Raised EISDIR "path is a directory") else mret target.

(** [_ensure_text_file]. *)
Definition ensure_text_file (target : path) : FM unit :=
  if bool_decide (lower (suffix target) ∈ TEXT_FILE_EXTENSIONS) then mret tt
  else throw (ValueErr "file type not supported for text content").

(** The sort key of a child: directories first, then the name without its case. *)
Definition entry_key (fs : fsys) (target : path) (name : string) : Z * string :=
  ((if is_dir (target ++ [name]) fs then 0 else 1)%Z, lower name).

Fixpoint list_children (root target : path) (names : list string) : FM (list WorkspaceFileEntry) :=
  match names with
  | [] => mret []
  | name :: names =>
      let child := target ++ [name] in
      st ← stat dir_stat child;
      dir ← peek (is_dir child);
      rest ← list_children root target names;
      mret (mkFileEntry name (as_posix (relative_to root child)) (if dir : bool then "directory" else "file")
              st.1 st.2 :: rest)
  end.

Definition list_entries (group_folder current_path : string) : FM WorkspaceFileListing :=
  root ← workspace_root group_folder;
  target ← resolve_candidate root current_path;
  there ← peek (exists_ target);
  if negb there then throw (Raised ENOENT "path not found")
  else
    dir ← peek (is_dir target);
    if negb dir then throw (Raised ENOTDIR "path is not a directory")
    else
      names ← iterdir scandir target;
      children ← peek (fun fs => py_sorted (entry_key fs target) names);
      entries ← list_children root target children;
      mret (mkFileListing (normalize_current_path current_path) entries).

Definition save_upload (group_folder current_path file_name content : string) (now : Z) : FM WorkspaceFileEntry :=
  if (max_upload_size_bytes <? Z.of_nat (String.length content))%Z then throw (ValueErr "file exceeds upload size limit")
  else if bool_decide (file_name ∈ [""; "."; ".."]) || negb (bool_decide (path_name (path_parts file_name) = file_name)) then
    throw (ValueErr "invalid file name")
  else
    root ← workspace_root group_folder;
    target_dir ← resolve_candidate root current_path;
    _ ← mkdir_parents target_dir;
    dir ← peek (is_dir target_dir);
    if negb dir then throw (Raised ENOTDIR "upload target is not a directory")
    else
      target_file ← resolve_candidate root (strip_slashes (normalize_current_path current_path +:+ "/" +:+ file_name));
      _ ← mkdir_parents (removelast target_file);
      _ ← write_bytes target_file content now;
      st ← stat dir_stat target_file;
      mret (mkFileEntry (path_name target_file) (as_posix (relative_to root target_file)) "file" st.1 st.2).

Definition resolve_download_file (group_folder file_path : string) : FM WorkspaceResolvedFile :=
  target ← resolve_existing_file group_folder file_path;
  root ← workspace_root group_folder;
  mret (mkResolvedFile (as_posix (relative_to root target)) target "application/octet-stream").

Definition resolve_preview_file (group_folder file_path : string) : FM WorkspaceResolvedFile :=
  target ← resolve_existing_file group_folder file_path;
  let media_type := default "application/octet-stream" (guess_type (path_name target)) in
  if negb (bool_decide (media_type ∈ SAFE_INLINE_MIME_TYPES)) then throw (ValueErr "file type not supported for preview")
  else
    root ← workspace_root group_folder;
    mret (mkResolvedFile (as_posix (relative_to root target)) target media_type).

Definition read_text_content (group_folder file_path : string) : FM WorkspaceTextFile :=
  target ← resolve_existing_file group_folder file_path;
  _ ← ensure_text_file target;
  st ← stat dir_stat target;
  if (max_text_file_size_bytes <? st.1)%Z then throw (ValueErr "text file exceeds size limit")
  else
    root ← workspace_root group_folder;
    content ← read_text target;
    mret (mkTextFile (as_posix (relative_to root target)) content st.1).

(** The file a text is written to before it replaces the target. *)
Definition temp_path (target : path) : path := with_suffix target (suffix target +:+ ".tmp").

Definition write_text_content (group_folder file_path content : string) (now : Z) : FM WorkspaceTextFile :=
  target ← resolve_existing_file group_folder file_path;
  _ ← ensure_text_file target;
  if (max_text_file_size_bytes <? utf8_len content)%Z then throw (ValueErr "text content exceeds size limit")
  else
    _ ← write_bytes (temp_path target) (utf8_encode content) now;
    _ ← rename (temp_path target) target;
    root ← workspace_root group_folder;
    mret (mkTextFile (as_posix (relative_to root target)) content (utf8_len content)).

Definition delete_path (group_folder file_path : string) : FM unit :=
  root ← workspace_root group_folder;
  let normalized := normalize_current_path file_path in
  if bool_decide (normalized = "") then throw (ValueErr "cannot delete workspace root")
  else
    target ← resolve_candidate root normalized;
    there ← peek (exists_ target);
    if negb there then throw (Raised ENOENT "path not found")
    else
      dir ← peek (is_dir target);
      if dir : bool then rmtree target else unlink target.
End service.

(** [WorkspaceFileService.__init__]: the groups root of a data root that has been made
    absolute. *)
Definition init_workspace_files (data_root : path) : FM path :=
  root ← check (resolve data_root);
  groups_root ← check (resolve (root ++ ["groups"]));
  _ ← mkdir_parents groups_root;
  mret groups_root.

(** ** Examples *)

Definition no_stat : fsys -> path -> Z * Z := fun _ _ => (4096, 0)%Z.
(** The names in a directory, in some order. *)
Definition names_in (fs : fsys) (p : path) : list string :=
  omap (fun e : path * node =>
    match last e.1 with Some n => if bool_decide (e.1 = p ++ [n]) then Some n else None | None => None end) (map_to_list fs).

Definition sample_tree : fsys :=
  list_to_map [(["d"], NDir); (["d"; "groups"], NDir); (["d"; "groups"; "w"], NDir);
               (["d"; "groups"; "w"; "a.txt"], NFile "one" 1); (["d"; "groups"; "w"; "sub"], NDir);
               (["d"; "groups"; "w"; "out"], NLink true ["etc"]); (["etc"], NDir); (["etc"; "passwd"], NFile "root" 1)].

Example list_sample :
  (list_entries no_stat names_in ["d"; "groups"] "w" "" (delete ["d"; "groups"; "w"; "out"] sample_tree)).1 =
  Ok (mkFileListing "" [mkFileEntry "sub" "sub" "directory" 4096 0; mkFileEntry "a.txt" "a.txt" "file" 3 1]).
Proof. vm_compute. reflexivity. Qed.

Example workspace_link_out_is_refused :
  (read_text_content no_stat 100 ["d"; "groups"] "w" "out/passwd" sample_tree).1 = Err (ValueErr "symlink traversal detected") /\
  (read_text_content no_stat 100 ["d"; "groups"] "w" "../../../etc/passwd" sample_tree).1 =
    Err (ValueErr "path traversal detected").
Proof. split; vm_compute; reflexivity. Qed.

Example upload_then_read :
  let r := save_upload no_stat 100 ["d"; "groups"] "w" "x/y" "n.txt" "hello" 7 sample_tree in
  r.1 = Ok (mkFileEntry "n.txt" "x/y/n.txt" "file" 5 7) /\
  (read_text_content no_stat 100 ["d"; "groups"] "w" "x/y/n.txt" r.2).1 = Ok (mkTextFile "x/y/n.txt" "hello" 5).
Proof. split; vm_compute; reflexivity. Qed.

(** Only the empty path and the dot are refused: other names of the root delete it. *)
Example dots_delete_the_root :
  (delete_path ["d"; "groups"] "w" "." sample_tree).1 = Err (ValueErr "cannot delete workspace root") /\
  let r := delete_path ["d"; "groups"] "w" "./." sample_tree in
  r.1 = Ok tt /\ r.2 !! ["d"; "groups"; "w"] = None /\ r.2 !! ["d"; "groups"; "w"; "a.txt"] = None.
Proof. repeat split; vm_compute; reflexivity. Qed.

(** [sub/..] empties the workspace, then fails to find what it named. *)
Example up_empties_the_root :
  let r := delete_path ["d"; "groups"] "w" "sub/.." sample_tree in
  r.1 = Err (OSError ENOENT [["d"; "groups"; "w"; "sub"; ".."]]) /\ r.2 !! ["d"; "groups"; "w"; "a.txt"] = None /\
  r.2 !! ["d"; "groups"; "w"] = Some NDir.
Proof. repeat split; vm_compute; reflexivity. Qed.

(** An upload to a path that leaves and comes back makes directories outside. *)
Example upload_makes_outside :
  let r := save_upload no_stat 100 ["d"; "groups"] "w" "../new/../w" "n.txt" "hello" 7 sample_tree in
  is_ok r.1 = true /\ r.2 !! ["d"; "groups"; "new"] = Some NDir.
Proof. split; vm_compute; reflexivity. Qed.

(** The temporary file of a write is not checked: a link there is written through. *)
Example temp_link_escapes :
  let fs := <[["d"; "groups"; "w"; "a.txt.tmp"] := NLink true ["etc"; "passwd"]]> sample_tree in
  let r := write_text_content 100 ["d"; "groups"] "w" "a.txt" "mine" 7 fs in
  is_ok r.1 = true /\ r.2 !! ["etc"; "passwd"] = Some (NFile "mine" 7).
Proof. split; vm_compute; reflexivity. Qed.

(** One link that leads nowhere and its directory cannot be listed. *)
Example broken_link_hides_directory :
  (list_entries no_stat names_in ["d"; "groups"] "w" "" (<[["d"; "groups"; "w"; "l"] := NLink false ["gone"]]> sample_tree)).1 =
  Err (OSError ENOENT [["d"; "groups"; "w"; "l"]]).
Proof. vm_compute. reflexivity. Qed.
