(* ===== verification/FileRoutes.v ===== *)
(** * The file routes ([app/routes/files.py])

    Each handler as one computation over the database and the disk, for the user its
    dependency has resolved. *)

From stdpp Require Import base tactics gmap list option strings.
From Stdlib Require Import ZArith NArith Ascii.
From S2P Require Import Prelude PyStr PySort Auth SafePath Db Groups GroupRoutes PyPath FileSys WorkspaceFiles.

(** An outcome of a handler that is not a response: an HTTP error, or beyond the model. *)
Inductive route_error := Http (e : http_error) | RouteNotModelled.

Section world.
Context {GT MT ST : Type}.

Record fworld := mkFWorld { fw_db : db GT MT ST; fw_fs : fsys }.
Definition RM : Type -> Type := M fworld route_error.

Definition over_db {A} (m : M (db GT MT ST) http_error A) : RM A := fun w =>
  match m (fw_db w) with
  | (Ok a, d) => (Ok a, mkFWorld d (fw_fs w))
  | (Err e, d) => (Err (Http e), mkFWorld d (fw_fs w))
  end.
Definition over_fs {A} (h : file_error -> route_error) (m : FM A) : RM A := fun w =>
  match m (fw_fs w) with
  | (Ok a, fs) => (Ok a, mkFWorld (fw_db w) fs)
  | (Err e, fs) => (Err (h e), mkFWorld (fw_db w) fs)
  end.
End world.
Arguments fworld : clear implicits.
Arguments RM : clear implicits.

(** [str(exc)]: the text of an [OSError] of the system or of a decoding error is a
    parameter of the handlers. *)
Definition error_text (system_text : file_error -> string) (e : file_error) : string :=
  match e with Raised _ msg | ValueErr msg => msg | _ => system_text e end.

Section routes.
Context {GT MT ST : Type} `{Table GT string RegisteredGroup} `{Table MT (string * string) GroupMember}
  `{Table ST (string * string) ConversationSlot}.
Variable dir_stat : fsys -> path -> Z * Z.
Variable scandir : fsys -> path -> list string.
Variable guess_type : string -> option string.
Variable system_text : file_error -> string.
(** The data root, made absolute. *)
Variable data_root : path.

Local Abbreviation R := (RM GT MT ST).

(** [_map_workspace_file_error]. *)
Definition map_workspace_file_error (e : file_error) : route_error :=
  let detail := error_text system_text e in
  match e with
  | OSError ENOENT _ | Raised ENOENT _ => Http (404%Z, detail)
  | OSError (ENOTDIR | EISDIR) _ | Raised (ENOTDIR | EISDIR) _ => Http (400%Z, detail)
  | ValueErr _ | DecodeError => Http (400%Z, detail)
  | FileNotModelled => RouteNotModelled
  | _ => Http (500%Z, "file operation failed")
  end.
Definition file_uncaught (e : file_error) : route_error :=
  match e with FileNotModelled => RouteNotModelled | _ => Http server_error end.

(** The dependencies, in the order they are resolved: the user's permission, then the
    service, which makes its root directory. *)
Definition get_workspace_file_service : R path := over_fs file_uncaught (init_workspace_files data_root).
Definition require_writer (u : AuthUser) : R unit := over_db (require_groups "write" u).
Definition require_file_workspace (group_id : string) (u : AuthUser) (now : Z) : R RegisteredGroup :=
  over_db (require_accessible_workspace group_id u now).

(** A handler: its dependencies, the workspace, one call of the service. *)
Definition file_handler {A} (writes : bool) (u : AuthUser) (group_id : string) (now : Z) (op : path -> string -> FM A) : R A :=
  _ ← (if writes then require_writer u else mret tt);
  groups_root ← get_workspace_file_service;
  workspace ← require_file_workspace group_id u now;
  over_fs map_workspace_file_error (op groups_root (rg_folder workspace)).

(** [GET /groups/{group_id}/files]. *)
Definition list_workspace_files (u : AuthUser) (group_id path : string) (now : Z) : R WorkspaceFileListing :=
  file_handler false u group_id now (fun root folder => list_entries dir_stat scandir root folder path).

(** [POST /groups/{group_id}/files]: name and content of each part; what was saved before
    a part that fails stays. *)
Fixpoint save_uploads (groups_root : path) (folder path : string) (uploads : list (string * string)) (now : Z) :
    FM (list string) :=
  match uploads with
  | [] => mret []
  | (filename, content) :: uploads =>
      saved ← save_upload dir_stat MAX_UPLOAD_SIZE_BYTES groups_root folder path filename content now;
      rest ← save_uploads groups_root folder path uploads now;
      mret (fe_path saved :: rest)
  end.
Definition upload_workspace_files (u : AuthUser) (group_id path : string) (uploads : list (string * string)) (now : Z) :
    R (list string) :=
  file_handler true u group_id now (fun root folder => save_uploads root folder path uploads now).

(** [GET .../files/download/{file_path}], [GET .../files/preview/{file_path}]: the file
    that is served, with its name as an attachment. *)
Definition download_workspace_file (u : AuthUser) (group_id file_path : string) (now : Z) :
    R (WorkspaceResolvedFile * string) :=
  file_handler false u group_id now (fun root folder =>
    resolved ← resolve_download_file root folder file_path;
    mret (resolved, path_name (rf_absolute_path resolved))).
Definition preview_workspace_file (u : AuthUser) (group_id file_path : string) (now : Z) : R WorkspaceResolvedFile :=
  file_handler false u group_id now (fun root folder => resolve_preview_file guess_type root folder file_path).

(** [GET] and [PUT .../files/content/{file_path}]. *)
Definition get_workspace_file_content (u : AuthUser) (group_id file_path : string) (now : Z) : R WorkspaceTextFile :=
  file_handler false u group_id now (fun root folder =>
    read_text_content dir_stat MAX_TEXT_FILE_SIZE_BYTES root folder file_path).
Definition put_workspace_file_content (u : AuthUser) (group_id file_path content : string) (now : Z) : R WorkspaceTextFile :=
  file_handler true u group_id now (fun root folder =>
    write_text_content MAX_TEXT_FILE_SIZE_BYTES root folder file_path content now).

(** [DELETE /groups/{group_id}/files/{file_path}]. *)
Definition delete_workspace_file (u : AuthUser) (group_id file_path : string) (now : Z) : R string :=
  file_handler true u group_id now (fun root folder => _ ← delete_path root folder file_path; mret "deleted").

(** ** Requests *)

Inductive file_request :=
| ListFiles (path : string)
| UploadFiles (path : string) (uploads : list (string * string))
| DownloadFile (file_path : string)
| PreviewFile (file_path : string)
| GetContent (file_path : string)
| PutContent (file_path content : string)
| DeleteFile (file_path : string).

Definition file_writes (r : file_request) : bool :=
  match r with UploadFiles _ _ | PutContent _ _ | DeleteFile _ => true | _ => false end.

Definition only_effect {A} (m : R A) : R unit := _ ← m; mret tt.
Definition handle_file (u : AuthUser) (group_id : string) (now : Z) (r : file_request) : R unit :=
  match r with
  | ListFiles p => only_effect (list_workspace_files u group_id p now)
  | UploadFiles p l => only_effect (upload_workspace_files u group_id p l now)
  | DownloadFile p => only_effect (download_workspace_file u group_id p now)
  | PreviewFile p => only_effect (preview_workspace_file u group_id p now)
  | GetContent p => only_effect (get_workspace_file_content u group_id p now)
  | PutContent p c => only_effect (put_workspace_file_content u group_id p c now)
  | DeleteFile p => only_effect (delete_workspace_file u group_id p now)
  end.
End routes.
