(* ===== verification/FileRoutesProps.v ===== *)
(** * Requests about the files of a workspace stay within it *)


From stdpp Require Import base tactics gmap list option strings.
From Stdlib Require Import ZArith NArith Lia Ascii.
From S2P Require Import Prelude PyStr PySort Auth SafePath Db Groups GroupRoutes GroupsProps PyPath FileSys FileSysProps Confinement WorkspaceFiles FileRoutes.

(** * The files of a workspace stay its own

    An operation changes only what is below the directory of its workspace. That holds of
    every path; what each operation asks of the links of the disk is [links_safe], and the
    examples of [WorkspaceFiles.v] show what each condition keeps out. An upload that goes
    up can leave empty directories outside. *)

Section confined.
Variable dir_stat : fsys -> path -> Z * Z.
Variable scandir : fsys -> path -> list string.
Variable guess_type : string -> option string.
Variables (max_upload max_text : Z) (groups_root : path) (group_folder : string) (up : Prop).

Local Abbreviation root := (join_path groups_root group_folder).
Local Abbreviation ready := (ready up root).
Local Abbreviation stage := (stage up root).
Local Abbreviation looked := (looked root).
Local Abbreviation good := (good up root).
Local Abbreviation inside := (inside root).

(** ** The root and the candidates *)

Lemma workspace_root_spec fs s0 s :
  stage fs s0 s ->
  wp (workspace_root groups_root group_folder)
    (fun a s' => a = root /\ stage fs s0 s' /\ node_of s' root = Some NDir) (stage fs s0) s.
Proof.
  intros [R L]. pose proof (ready_resolved _ _ R) as Rr. pose proof (ready_tree _ _ R) as T.
  apply wp_bind, wp_check; [|done]. intros c E. apply (resolve_resolved _ _ _ Rr) in E as ->.
  apply wp_bind, wp_check; [|done]. intros [] _; [|by apply wp_throw]. apply wp_bind.
  pose proof (mkdir_made s root) as Made. pose proof (wp_mkdir root s T) as G.
  assert (Gr : forall s', grown (reached s root) s s' -> stage fs s0 s').
  { intros s' H. assert (H' : looked s s') by (eapply grown_mono; [|done]; intros p _; by apply reached_resolved). split.
    - eapply ready_grown; [done|]. eapply grown_mono; [|exact H']. intros p _ Hp. by left; right.
    - eapply grown_trans; [exact L|exact H']. }
  unfold wp in *. destruct (mkdir_parents root s) as [[[]|e] s1]; [|by apply Gr].
  cbn. split; [done|]. split; [by apply Gr|]. by apply Made.
Qed.

Lemma resolve_candidate_spec fs s rel :
  ready fs s ->
  wp (resolve_candidate root rel)
    (fun c s' => s' = s /\ c = join_path root (normalize_current_path rel) /\ inside s c) (fun s' => s' = s) s.
Proof.
  intros R. apply wp_bind, wp_check; [|done]. intros r [W%walk_walks Rr]%resolve_ok.
  apply wp_bind, wp_check; [|done]. intros [] V; [|unfold wp; by case_bool_decide].
  apply wp_ret. split; [done|]. split; [done|]. apply validate_path_ok in V as (r' & E & P); [|apply R].
  apply (resolve_resolved _ _ _ Rr) in E as ->. by exists r.
Qed.

(** The first steps of the operations on a file. *)
Lemma existing_file_spec fs s0 s rel :
  stage fs s0 s ->
  wp (resolve_existing_file groups_root group_folder rel)
    (fun c s' => stage fs s0 s' /\ node_of s' root = Some NDir /\ inside s' c /\ exists_ c s' = true /\ is_dir c s' = false)
    (stage fs s0) s.
Proof.
  intros R. apply wp_bind. eapply wp_mono; [by apply workspace_root_spec| |done]. intros a s1 (-> & R1 & D).
  apply wp_bind. eapply wp_mono; [eapply resolve_candidate_spec, R1| |by intros ? ->]. intros c s2 (-> & _ & I).
  apply wp_bind, wp_peek. destruct (exists_ c s1) eqn:Ex; [|by apply wp_throw]. cbn [negb].
  apply wp_bind, wp_peek. destruct (is_dir c s1) eqn:Dr; [by apply wp_throw|by apply wp_ret].
Qed.

Lemma ensure_text_file_spec (c : path) (s : fsys) : wp (ensure_text_file c)
  (fun _ s' => s' = s /\ lower (suffix c) ∈ TEXT_FILE_EXTENSIONS) (fun s' => s' = s) s.
Proof. unfold wp, ensure_text_file. by case_bool_decide. Qed.

Lemma root_again fs s0 s : stage fs s0 s -> wp (workspace_root groups_root group_folder) (fun a s' => a = root /\ stage fs s0 s') (stage fs s0) s.
Proof. intros R. eapply wp_mono; [by apply workspace_root_spec| |done]. intros a s' (-> & R' & _). done. Qed.

Lemma children_spec r target names s :
  wp (list_children dir_stat r target names) (fun _ s' => s' = s) (fun s' => s' = s) s.
Proof.
  revert s. induction names as [|n names IH]; intros s; [done|]. apply wp_bind.
  eapply wp_mono; [apply wp_stat| |done]. intros st s1 ->. apply wp_bind, wp_peek, wp_bind.
  eapply wp_mono; [apply IH| |done]. by intros rest s1 ->.
Qed.

Lemma list_entries_ready fs s0 s p : stage fs s0 s ->
  wp (list_entries dir_stat scandir groups_root group_folder p) (fun _ => stage fs s0) (stage fs s0) s.
Proof.
  intros R. apply wp_bind. eapply wp_mono; [by apply workspace_root_spec| |done]. intros a s1 (-> & R1 & _).
  apply wp_bind. eapply wp_mono; [eapply resolve_candidate_spec, R1| |by intros ? ->]. intros c s2 (-> & _ & _).
  apply wp_bind, wp_peek. destruct (exists_ c s1); [|by apply wp_throw]. apply wp_bind, wp_peek.
  destruct (is_dir c s1); [|by apply wp_throw]. apply wp_bind.
  eapply wp_mono; [apply wp_iterdir| |by intros ? ->]. intros names s2 ->. apply wp_bind, wp_peek, wp_bind.
  eapply wp_mono; [apply children_spec| |by intros ? ->]. by intros l s2 ->.
Qed.

Lemma download_ready fs s0 s p : stage fs s0 s ->
  wp (resolve_download_file groups_root group_folder p) (fun _ => stage fs s0) (stage fs s0) s.
Proof.
  intros R. apply wp_bind. eapply wp_mono; [by apply existing_file_spec| |done]. intros c s1 (R1 & _).
  apply wp_bind. eapply wp_mono; [by apply root_again| |done]. by intros a s2 [_ R2].
Qed.

Lemma preview_ready fs s0 s p : stage fs s0 s ->
  wp (resolve_preview_file guess_type groups_root group_folder p) (fun _ => stage fs s0) (stage fs s0) s.
Proof.
  intros R. apply wp_bind. eapply wp_mono; [by apply existing_file_spec| |done]. intros c s1 (R1 & _).
  cbv zeta. destruct (negb _); [by apply wp_throw|]. apply wp_bind.
  eapply wp_mono; [by apply root_again| |done]. by intros a s2 [_ R2].
Qed.

(** What is read is the text of a file below the root. *)
Lemma read_spec fs s0 s p : stage fs s0 s ->
  wp (read_text_content dir_stat max_text groups_root group_folder p)
    (fun t s' => stage fs s0 s' /\ exists r data m,
       path_prefix root r = true /\ s' !! r = Some (NFile data m) /\ text_of data = Decoded (tf_content t)) (stage fs s0) s.
Proof.
  intros R. apply wp_bind. eapply wp_mono; [by apply existing_file_spec| |done]. intros c s1 (R1 & _ & I & _).
  apply wp_bind. eapply wp_mono; [apply ensure_text_file_spec| |by intros ? ->]. intros _ s2 [-> _].
  apply wp_bind. eapply wp_mono; [apply wp_stat| |by intros ? ->]. intros st s2 ->.
  destruct (_ <? _)%Z; [by apply wp_throw|]. apply wp_bind.
  eapply wp_mono; [by apply root_again| |done]. intros a s2 [_ R2].
  apply wp_bind. eapply wp_mono; [apply wp_read_text| |by intros ? ->]. intros txt s3 (-> & r & data & m & E & N & Tx).
  apply wp_ret. split; [done|]. exists r, data, m. split; [|split; [by destruct r|done]].
  eapply place_true_inside; [|done]. eapply (inside_ready fs s1); [apply R1|apply R2|done].
Qed.

(** ** Writing, uploading, deleting *)

Lemma temp_path_snoc p n : exists m, temp_path (p ++ [n]) = p ++ [m] /\ temp_name m.
Proof.
  unfold temp_path, with_suffix. rewrite removelast_last. eexists. split; [done|]. eexists. by rewrite append_assoc.
Qed.

Lemma temp_name_not_up m : temp_name m -> m <> "..".
Proof. intros [s ->] E. apply (f_equal String.length) in E. rewrite string_length_app in E. cbn in E. lia. Qed.

Lemma text_file_name c : lower (suffix c) ∈ TEXT_FILE_EXTENSIONS -> exists p n, c = p ++ [n] /\ n <> "..".
Proof.
  destruct c as [|n p _] using rev_ind.
  - intros H. assert (bool_decide (lower (suffix []) ∈ TEXT_FILE_EXTENSIONS) = false) as N by (vm_compute; reflexivity).
    by apply bool_decide_eq_false in N.
  - intros H. exists p, n. split; [done|]. intros ->. unfold suffix, path_name in H. rewrite last_snoc in H.
    assert (bool_decide (lower (of_chars (suffix_chars (str_chars ".."))) ∈ TEXT_FILE_EXTENSIONS) = false) as N
      by (vm_compute; reflexivity).
    by apply bool_decide_eq_false in N.
Qed.

Lemma write_good fs s rel content now :
  ready fs s -> no_backlinks root fs -> no_temp_links root fs ->
  wp (write_text_content max_text groups_root group_folder rel content now) (fun _ => good fs) (good fs) s.
Proof.
  intros R B Tl. assert (G : forall s, ready fs s -> good fs s) by apply ready_good.
  apply wp_bind. eapply wp_mono; [by apply existing_file_spec, stage_start| |intros ? [X _]; by apply G]. intros c s1 ([R1 _] & D1 & I1 & Ex & Nd).
  apply wp_bind. eapply wp_mono; [apply ensure_text_file_spec| |by intros ? ->; apply G]. intros _ s2 [-> (p & n & -> & Nn)%text_file_name].
  destruct (_ <? _)%Z; [by apply G|]. destruct (temp_path_snoc p n) as (m & -> & Tn). pose proof (temp_name_not_up _ Tn) as Nm.
  assert (Par : forall d, walks s1 max_links [] p d -> path_prefix root d = true /\ is_link s1 (d ++ [m]) = false).
  { intros d W. assert (P : path_prefix root d = true).
    { eapply parent_inside; [exact D1|by eapply ready_no_backlinks|exact Nn|exact I1|exact Ex|exact Nd|exact W]. }
    split; [done|]. destruct (is_link s1 (d ++ [m])) eqn:L; [|done]. by destruct (ready_no_temp _ _ R1 Tl d m L P). }
  apply wp_bind. eapply wp_mono; [apply wp_write_bytes| |by intros ? ->; apply G]. intros _ s2 (rt & Pt & Dt & ->).
  assert (exists d, rt = d ++ [m] /\ walks s1 max_links [] p d) as (d & -> & Wd).
  { apply namei_walks, walks_app in Pt as (d & Wd & W). exists d. split; [|done].
    apply (walks_det _ _ 0 _ _ _ _ W). apply walks_down; [done|by apply Par|constructor]. }
  destruct (Par _ Wd) as [Pd Ld].
  assert (R2 : ready fs (<[d ++ [m] := NFile (utf8_encode content) now]> s1)).
  { apply ready_write; [done|by eapply place_placed; [apply R1|]|done|done|by apply path_prefix_down]. }
  apply wp_bind. eapply wp_mono; [eapply (replace_good fs _ p n m R2 Nn Nm)| |by intros ?; apply G].
  - intros d' W'. apply (ready_walks _ _ _ _ _ _ R2), (ready_walks _ _ _ _ _ _ R1) in W'.
    rewrite (walks_det _ _ _ _ _ _ _ W' Wd). split; [done|]. unfold not_dir. by rewrite node_of_lookup, lookup_insert_eq.
  - intros _ s3 [R3 K]. apply wp_bind. assert (G3 : forall s4, ready s3 s4 -> good fs s4).
    { intros s4 [T4 K4 _ _]. split; [done|]. by eapply outside_kept_trans. }
    eapply wp_mono; [by apply (root_again s3 s3), stage_start| |intros ? [X _]; by apply G3]. intros a s4 [_ [R4 _]]. by apply G3.
Qed.

(** A path that does not go up. *)
Definition stays_down (rel : string) : Prop := ".." ∉ path_parts (normalize_current_path rel).

Lemma candidate_plain fs rel :
  resolved fs root -> up \/ stays_down rel -> up \/ ".." ∉ join_path root (normalize_current_path rel).
Proof.
  intros [H _] [Up|S]; [by left|right]. unfold stays_down in S. unfold join_path at 1. destruct (is_absolute _); [done|]. set_solver.
Qed.

(** The path of the uploaded file. *)
Definition upload_path (current_path file_name : string) : string :=
  strip_slashes (normalize_current_path current_path +:+ "/" +:+ file_name).

Lemma removelast_elem {A} (x : A) l : x ∈ removelast l -> x ∈ l.
Proof. destruct l as [|y l _] using rev_ind; [done|]. rewrite removelast_last. set_solver. Qed.

Lemma upload_ready fs s cur name content now :
  ready fs s -> up \/ stays_down cur -> up \/ stays_down (upload_path cur name) ->
  wp (save_upload dir_stat max_upload groups_root group_folder cur name content now) (fun _ => ready fs) (ready fs) s.
Proof.
  intros R S1 S2. unfold save_upload. fold (upload_path cur name). destruct (_ <? _)%Z; [by apply wp_throw|].
  destruct (_ || _); [by apply wp_throw|].
  apply wp_bind. eapply wp_mono; [by apply workspace_root_spec, stage_start| |by intros ? []]. intros a s1 (-> & [R1 _] & _).
  apply wp_bind. eapply wp_mono; [by eapply resolve_candidate_spec| |by intros ? ->]. intros c s2 (-> & -> & I).
  apply wp_bind. eapply wp_mono; [eapply mkdir_inside; [exact R1|exact I|]| |done].
  { eapply candidate_plain; [apply R1|done]. }
  intros ? s2 R2. cbn in R2. apply wp_bind, wp_peek. destruct (is_dir _ s2); [|by apply wp_throw]. cbn [negb].
  apply wp_bind. eapply wp_mono; [by eapply resolve_candidate_spec| |by intros ? ->]. intros c s3 (-> & -> & I2).
  apply wp_bind. eapply wp_mono; [eapply mkdir_parent; [exact R2|exact I2|]| |done].
  { eapply candidate_plain; [apply R2|done]. }
  intros ? s3 R3. cbn in R3. apply wp_bind. eapply wp_mono; [eapply write_inside; [exact R3|by eapply (inside_ready fs s2)]| |done].
  intros ? s4 R4. cbn in R4. apply wp_bind. eapply wp_mono; [apply wp_stat| |by intros ? ->]. by intros st s5 ->.
Qed.

Lemma delete_good fs s rel :
  ready fs s -> no_backlinks root fs -> wp (delete_path groups_root group_folder rel) (fun _ => good fs) (good fs) s.
Proof.
  intros R B. assert (G : forall s, ready fs s -> good fs s) by apply ready_good.
  apply wp_bind. eapply wp_mono; [by apply workspace_root_spec, stage_start| |intros ? [X _]; by apply G]. intros a s1 (-> & [R1 _] & D1).
  cbv zeta. case_bool_decide; [by apply wp_throw, G|].
  apply wp_bind. eapply wp_mono; [by eapply resolve_candidate_spec| |by intros ? ->; apply G]. intros c s2 (-> & _ & I).
  apply wp_bind, wp_peek. destruct (exists_ c s1) eqn:Ex; [|by apply wp_throw, G].
  apply wp_bind, wp_peek. destruct (is_dir c s1) eqn:Nd; [by apply rmtree_good|].
  apply unlink_good; [done|done|by eapply ready_no_backlinks|done..].
Qed.
End confined.

(** * Requests about the files of a workspace stay within it *)

Section routes.
Context {GT MT ST : Type} `{Table GT string RegisteredGroup} `{Table MT (string * string) GroupMember}
  `{Table ST (string * string) ConversationSlot}.
Context `{!TableLaws GT string RegisteredGroup} `{!TableLaws MT (string * string) GroupMember}
  `{!TableLaws ST (string * string) ConversationSlot}.
Variable dir_stat : fsys -> path -> Z * Z.
Variable scandir : fsys -> path -> list string.
Variable guess_type : string -> option string.
Variable system_text : file_error -> string.
Variables (data_root groups_root : path) (group_id : string).

Local Abbreviation root := (join_path groups_root group_id).
Local Abbreviation W := (fworld GT MT ST).
Local Abbreviation handle u now r :=
  (handle_file (GT := GT) (MT := MT) (ST := ST) dir_stat scandir guess_type system_text data_root u group_id now r).

(** A request one of whose paths goes up: only uploads make the directories they need. *)
Definition goes_up (r : file_request) : Prop :=
  match r with
  | UploadFiles p l => ~ (stays_down p /\ Forall (fun e => stays_down (upload_path p e.1)) l)
  | _ => False
  end.

(** What a call of the service may do to the disk. *)
Definition call_effect (up : Prop) (writes : bool) (fs fs' : fsys) : Prop :=
  tree fs' /\ outside_kept up root fs fs' /\ (writes = false -> looked root fs fs').

(** What a request asks of the links of the disk. *)
Definition links_safe (r : file_request) (fs : fsys) : Prop :=
  match r with
  | PutContent _ _ => no_backlinks root fs /\ no_temp_links root fs
  | DeleteFile _ => no_backlinks root fs
  | _ => True
  end.

(** What a request does to the world. *)
Definition request_effect (u : AuthUser) (up : Prop) (writes : bool) (w w' : W) : Prop :=
  quiet (fw_db w) (fw_db w') /\ tree (fw_fs w') /\
  (fw_fs w' = fw_fs w \/
   exists ws, workspace_of group_id ws (fw_db w') /\ may_access (au_id u) (au_role u) ws (fw_db w') = true /\
     (writes = true -> has_permission (au_role u) "groups" "write" = true) /\
     call_effect up writes (fw_fs w) (fw_fs w')).

Lemma wp_over_db_file {A} (m : M (db GT MT ST) http_error A) (Q : A -> W -> Prop) (X : W -> Prop) w :
  wp m (fun a d => Q a (mkFWorld d (fw_fs w))) (fun d => X (mkFWorld d (fw_fs w))) (fw_db w) -> wp (over_db m) Q X w.
Proof. unfold wp, over_db. by destruct (m (fw_db w)) as [[a|e] d]. Qed.
Lemma wp_over_fs {A} h (m : FM A) (Q : A -> W -> Prop) (X : W -> Prop) w :
  wp m (fun a fs => Q a (mkFWorld (fw_db w) fs)) (fun fs => X (mkFWorld (fw_db w) fs)) (fw_fs w) -> wp (over_fs h m) Q X w.
Proof. unfold wp, over_fs. by destruct (m (fw_fs w)) as [[a|e] fs]. Qed.

Lemma same_effect u up b (w : W) d : tree (fw_fs w) -> quiet (fw_db w) d -> request_effect u up b w (mkFWorld d (fw_fs w)).
Proof. intros T Q. split; [done|]. split; [done|by left]. Qed.

Lemma file_handler_spec {A} up b u now (op : path -> string -> FM A) (w : W) :
  wf (fw_db w) -> tree (fw_fs w) -> init_workspace_files data_root (fw_fs w) = (Ok groups_root, fw_fs w) ->
  wp (op groups_root group_id) (fun _ => call_effect up b (fw_fs w)) (call_effect up b (fw_fs w)) (fw_fs w) ->
  wp (file_handler system_text data_root b u group_id now op) (fun _ => request_effect u up b w) (request_effect u up b w) w.
Proof.
  intros C T Init Hop. assert (Same : request_effect u up b w w) by (destruct w; by apply same_effect, quiet_refl).
  unfold file_handler. apply wp_bind.
  assert (P : wp (if b then require_writer u else mret tt) (fun _ w' => w' = w /\ (b = true -> has_permission (au_role u) "groups" "write" = true))
                (fun w' => w' = w) w).
  { destruct b; [|done]. unfold require_writer, require_groups, over_db, wp.
    destruct (has_permission _ _ _) eqn:E; cbn; by destruct w. }
  eapply wp_mono; [exact P| |by intros ? ->]. intros _ w1 [-> Perm].
  apply wp_bind, wp_over_fs. unfold wp at 1. rewrite Init.
  apply wp_bind, wp_over_db_file. cbn [fw_db fw_fs].
  eapply wp_mono; [by apply require_accessible_spec| |].
  - intros ws d (Q & Ws & Acc). apply wp_over_fs. cbn [fw_db fw_fs]. assert (F : rg_folder ws = group_id) by apply Ws.
    assert (X : forall fs', call_effect up b (fw_fs w) fs' -> request_effect u up b w (mkFWorld d fs')).
    { intros fs' E. split; [done|]. split; [exact (proj1 E)|]. right. by exists ws. }
    rewrite F. eapply wp_mono; [exact Hop|intros a; apply X|apply X].
  - intros d Q. by apply same_effect.
Qed.

Lemma only_effect_spec {A} (m : RM GT MT ST A) (X : W -> Prop) w : wp m (fun _ => X) X w -> wp (only_effect m) (fun _ => X) X w.
Proof. intros Hm. apply wp_bind. by eapply wp_mono; [exact Hm| |]. Qed.

Lemma stage_effect up fs fs' b : stage up root fs fs fs' -> call_effect up b fs fs'.
Proof. intros [R L]. split; [apply R|]. split; [apply R|done]. Qed.
Lemma good_effect up fs fs' : good up root fs fs' -> call_effect up true fs fs'.
Proof. intros [T K]. by split. Qed.

(** A reading call, and a writing one, in the right state. *)
Lemma reading {A} up (op : FM A) fs :
  wp op (fun _ => stage up root fs fs) (stage up root fs fs) fs ->
  wp op (fun _ => call_effect up false fs) (call_effect up false fs) fs.
Proof. intros Hop. eapply wp_mono; [exact Hop| |]; [intros a s|intros s]; apply stage_effect. Qed.
Lemma writing {A} up (op : FM A) fs :
  wp op (fun _ => good up root fs) (good up root fs) fs ->
  wp op (fun _ => call_effect up true fs) (call_effect up true fs) fs.
Proof. intros Hop. eapply wp_mono; [exact Hop| |]; [intros a s|intros s]; apply good_effect. Qed.

Lemma save_uploads_ready (up : Prop) fs s p l now :
  ready up root fs s -> up \/ stays_down p -> Forall (fun e => up \/ stays_down (upload_path p e.1)) l ->
  wp (save_uploads dir_stat groups_root group_id p l now) (fun _ => ready up root fs) (ready up root fs) s.
Proof.
  intros R Sp F. revert s R. induction F as [|[n c] l Sn _ IH]; intros s R; [done|]. cbn [save_uploads].
  apply wp_bind. eapply wp_mono; [by apply upload_ready| |done]. intros e s1 R1. cbn in R1.
  apply wp_bind. eapply wp_mono; [by apply IH| |done]. done.
Qed.

(** The paths of an upload stay down, or the request is known to go up. *)
Lemma uploads_down (up : Prop) p (l : list (string * string)) :
  (~ (stays_down p /\ Forall (fun e => stays_down (upload_path p e.1)) l) -> up) ->
  (up \/ stays_down p) /\ Forall (fun e => up \/ stays_down (upload_path p e.1)) l.
Proof.
  intros Hup. destruct (decide (stays_down p /\ Forall (fun e => stays_down (upload_path p e.1)) l)) as [[Sp F]|N].
  - split; [by right|]. eapply Forall_impl; [exact F|]. by right.
  - apply Hup in N. split; [by left|]. apply Forall_true. by left.
Qed.

(** C9: A request about the files of a workspace stays within it, whatever its paths and
    its outcome. The disk stays a tree and, unless nothing changed at all, the user may
    access the workspace (and may write, for a request that writes). What is not below the
    directory of the workspace is as it was, but for new directories: those on the way to
    it, and, for an upload one of whose paths has "..", others too. A request that reads
    makes directories on the way to it at most. Of the links of the disk this asks: the
    directory of the workspace is not itself reached through a link, for every request;
    no link outside the directory leads into it, for replacing a file and for deleting;
    no link below it has the name of a temporary file, for replacing a file. *)
Theorem file_requests_confined u now r (w : W) :
  wf (fw_db w) -> tree (fw_fs w) -> init_workspace_files data_root (fw_fs w) = (Ok groups_root, fw_fs w) ->
  resolved (fw_fs w) root -> links_safe r (fw_fs w) ->
  request_effect u (goes_up r) (file_writes r) w (handle u now r w).2.
Proof.
  intros C T Init Rr D. set (up := goes_up r). pose proof (ready_refl (up := up) _ T Rr) as R.
  pose proof (stage_start _ _ R) as St. apply wp_after.
  assert (Bind : forall A E (op : FM A) (f : A -> E), wp op (fun _ => stage up root (fw_fs w) (fw_fs w))
      (stage up root (fw_fs w) (fw_fs w)) (fw_fs w) ->
      wp (a ← op; mret (f a)) (fun _ => stage up root (fw_fs w) (fw_fs w))
      (stage up root (fw_fs w) (fw_fs w)) (fw_fs w)).
  { intros A E op f Hop. apply wp_bind. by eapply wp_mono; [exact Hop| |]. }
  destruct r; cbn [handle_file file_writes]; apply only_effect_spec, file_handler_spec; try done.
  - by apply reading, list_entries_ready.
  - apply writing. destruct (uploads_down up path uploads) as [Sp F]; [intros N; exact N|].
    eapply wp_mono; [by apply save_uploads_ready| |]; [intros a s'|intros s']; apply ready_good.
  - apply reading, Bind. by apply download_ready.
  - by apply reading, preview_ready.
  - apply reading. eapply wp_mono; [by apply read_spec| |done]. by intros a s' [X _].
  - destruct D. apply writing. by apply write_good.
  - apply writing, wp_bind. eapply wp_mono; [by apply delete_good| |done]. done.
Qed.
End routes.

(** ** A concrete request *)

Definition fx_tree : fsys :=
  list_to_map [(["d"], NDir); (["d"; "groups"], NDir); (["d"; "groups"; "team"], NDir);
               (["d"; "groups"; "team"; "a.txt"], NFile "one" 1);
               (["d"; "groups"; "team"; "out"], NLink true ["etc"]); (["etc"], NDir); (["etc"; "hosts"], NFile "h" 1)].
Definition fx_alice : AuthUser := gx_user "alice" "admin".
Definition fx_world : fworld _ _ _ := mkFWorld (handle (fun _ => true) fx_alice 1 (RCreateGroup "team" "Team") gx_empty).2 fx_tree.
Definition fx_handle (r : file_request) (w : fworld _ _ _) : result route_error unit * fworld _ _ _ :=
  handle_file (GT := gmap string RegisteredGroup) (MT := gmap (string * string) GroupMember)
    (ST := gmap (string * string) ConversationSlot) no_stat names_in (fun _ => None) (fun _ => "") ["d"] fx_alice "team" 7 r w.

Lemma fx_tree_ok : tree fx_tree.
Proof. apply tree_check_ok. vm_compute. reflexivity. Qed.

Lemma fx_init : init_workspace_files ["d"] fx_tree = (Ok ["d"; "groups"], fx_tree).
Proof.
  assert (E1 : resolve ["d"] fx_tree = Ok ["d"]) by (vm_compute; reflexivity).
  assert (E2 : resolve ["d"; "groups"] fx_tree = Ok ["d"; "groups"]) by (vm_compute; reflexivity).
  unfold init_workspace_files, mbind, M_bind, check. rewrite E1. cbn [app]. rewrite E2.
  rewrite mkdir_there; [done|apply fx_tree_ok| |vm_compute; reflexivity].
  apply resolved_check_ok. vm_compute. reflexivity.
Qed.

Lemma fx_safe : let root := ["d"; "groups"; "team"] in
  resolved fx_tree root /\ no_backlinks root fx_tree /\ no_temp_links root fx_tree.
Proof.
  split; [|split].
  - apply resolved_check_ok. vm_compute. reflexivity.
  - intros p r L Out _. rewrite (links_check_ok (path_prefix ["d"; "groups"; "team"]) fx_tree) in Out; [done| |done].
    vm_compute. reflexivity.
  - intros q n L _ [s ->].
    assert (C : links_check (fun p => bool_decide (p = ["d"; "groups"; "team"; "out"])) fx_tree = true)
      by (vm_compute; reflexivity).
    pose proof (links_check_ok _ _ C _ L) as E.
    apply bool_decide_eq_true in E. apply (app_inj_tail q ["d"; "groups"; "team"]) in E as [_ E].
    apply (f_equal String.length) in E. rewrite string_length_app in E. cbn in E. lia.
Qed.

(** Every link and every path that does not leave is used as it stands. *)
Example fx_requests :
  let w' := (fx_handle (PutContent "a.txt" "two") fx_world).2 in
  fw_fs w' !! ["d"; "groups"; "team"; "a.txt"] = Some (NFile "two" 7) /\
  (fx_handle (PutContent "out/hosts" "two") fx_world).1 = Err (Http (400%Z, "symlink traversal detected")) /\
  (fx_handle (GetContent "b.txt") fx_world).1 = Err (Http (404%Z, "file not found")).
Proof. repeat split; vm_compute; reflexivity. Qed.

(** An upload to a path that leaves and comes back: what was outside stays. *)
Lemma file_requests_confined_witness :
  request_effect ["d"; "groups"] "team" fx_alice (goes_up (PutContent "a.txt" "two")) true fx_world
    (fx_handle (PutContent "a.txt" "two") fx_world).2 /\
  request_effect ["d"; "groups"] "team" fx_alice (goes_up (UploadFiles "../new/../team" [("n.txt", "hello")])) true fx_world
    (fx_handle (UploadFiles "../new/../team" [("n.txt", "hello")]) fx_world).2.
Proof.
  split.
  - apply (file_requests_confined no_stat names_in (fun _ => None) (fun _ => "") ["d"] ["d"; "groups"] "team" fx_alice 7
           (PutContent "a.txt" "two") fx_world); [apply handle_good, gx_wf|apply fx_tree_ok|apply fx_init|apply fx_safe|].
    split; apply fx_safe.
  - apply (file_requests_confined no_stat names_in (fun _ => None) (fun _ => "") ["d"] ["d"; "groups"] "team" fx_alice 7
           (UploadFiles "../new/../team" [("n.txt", "hello")]) fx_world);
      [apply handle_good, gx_wf|apply fx_tree_ok|apply fx_init|apply fx_safe|exact I].
Defined.
