(* ===== verification/Memory.v ===== *)
(** * Memory ([services/memory.py])

    The global memory of a user, a file with a cache in front of it, and the markdown
    files of a workspace. Every [asyncio.to_thread] is a step of its own: the calls on the
    global memory come as the stretches between them and as the whole call, undisturbed. *)


From stdpp Require Import base tactics gmap list option strings.
From Stdlib Require Import ZArith NArith Ascii.
From S2P Require Import Prelude PyStr PyTime PySort Auth SafePath Db Groups GroupRoutes PyPath FileSys WorkspaceFiles FileRoutes.

Definition USER_MEMORY_FILENAME : string := "AGENTS.md".
Definition MAX_GROUP_MEMORY_FILE_SIZE_BYTES : Z := 1 * 1024 * 1024.

Record GroupMemoryFileEntry := mkMemoryEntry { me_path : string; me_name : string; me_updated_at : Z; me_size : Z }.
Record GroupMemoryFileContent := mkMemoryContent {
  mc_path : string;
  mc_content : string;
  mc_updated_at : option Z;
  mc_size : Z
}.

(** [query in text]. *)
Definition occurs_in (query text : string) : bool :=
  match py_find (str_chars query) (str_chars text) 0 with Some _ => true | None => false end.

(** [dir.rglob("*.md")], sorted: the markdown names below, found without following links. *)
Definition is_markdown_name (n : string) : bool :=
  let l := str_chars n in bool_decide (drop (List.length l - 3) l = str_chars ".md").
Definition rglob_markdown (dir : path) (fs : fsys) : list path :=
  py_sorted (fun p => p)
    (List.filter (fun p => strictly_below dir p && is_markdown_name (path_name p)) (map fst (map_to_list fs))).

Section service.
Variable dir_stat : fsys -> path -> Z * Z.
(** The data directory, which is absolute, and the limit of the instance. *)
Variables (data_dir : path) (max_group_memory_file_size_bytes : Z).

(** ** The directory of a workspace *)

(** [_get_group_memory_dir]. *)
Definition get_group_memory_dir (group_folder : string) : FM path :=
  memory_root ← check (resolve (data_dir ++ ["memory"]));
  candidate ← check (resolve (join_path memory_root group_folder));
  ok ← check (validate_path candidate [memory_root]);
  if ok : bool then mret candidate else throw (ValueErr "invalid group memory root").

(** [_get_daily_memory_path], at the time [now]. *)
Definition today (now : Z) : string := of_chars (take 10 (str_chars (isoformat now))).
Definition get_daily_memory_path (group_folder : string) (now : Z) : FM path :=
  dir ← get_group_memory_dir group_folder;
  mret (dir ++ [today now +:+ ".md"]).

Definition append_daily_memory (group_folder content : string) (now : Z) : FM unit :=
  daily_memory_path ← get_daily_memory_path group_folder now;
  _ ← mkdir_parents (removelast daily_memory_path);
  append_text daily_memory_path (of_chars [byte_of 10] +:+ content +:+ of_chars [byte_of 10]) now.

(** The files a listing looks at, each after the check of where it leads. *)
Definition checked_file (memory_dir p : path) : FM bool :=
  file ← peek (is_file p);
  if negb file then mret false
  else
    resolved ← check (resolve p);
    ok ← check (validate_path resolved [memory_dir]);
    if ok : bool then mret true else throw (ValueErr "symlink traversal detected").

Fixpoint search_files (memory_dir : path) (query : string) (paths : list path) : FM (list string) :=
  match paths with
  | [] => mret []
  | p :: paths =>
      file ← checked_file memory_dir p;
      here ← (if file : bool then
                content ← read_text p;
                mret (if occurs_in query (lower content) then [as_posix (relative_to memory_dir p)] else [])
              else mret []);
      rest ← search_files memory_dir query paths;
      mret (here ++ rest)
  end.

Definition search_memory (group_folder query : string) : FM (list string) :=
  let normalized_query := lower (strip query) in
  if bool_decide (normalized_query = "") then mret []
  else
    memory_dir ← get_group_memory_dir group_folder;
    there ← peek (exists_ memory_dir);
    if negb there then mret []
    else
      paths ← peek (rglob_markdown memory_dir);
      search_files memory_dir normalized_query paths.

Fixpoint list_files (memory_dir : path) (paths : list path) : FM (list GroupMemoryFileEntry) :=
  match paths with
  | [] => mret []
  | p :: paths =>
      file ← checked_file memory_dir p;
      here ← (if file : bool then
                st ← stat dir_stat p;
                mret [mkMemoryEntry (as_posix (relative_to memory_dir p)) (path_name p) st.2 st.1]
              else mret []);
      rest ← list_files memory_dir paths;
      mret (here ++ rest)
  end.

Definition list_group_memory_files (group_folder : string) : FM (list GroupMemoryFileEntry) :=
  memory_dir ← get_group_memory_dir group_folder;
  there ← peek (exists_ memory_dir);
  if negb there then mret []
  else
    paths ← peek (rglob_markdown memory_dir);
    list_files memory_dir paths.

(** [_normalize_group_memory_relative_path]. *)
Definition normalize_group_memory_relative_path (relative_path : string) : result file_error string :=
  let normalized := strip_slashes (strip relative_path) in
  if bool_decide (normalized = "") || bool_decide (normalized = ".") then Err (ValueErr "memory file path is required")
  else
    let normalized := as_posix (path_parts normalized) in
    if negb (bool_decide (lower (suffix (path_parts normalized)) = ".md")) then
      Err (ValueErr "only markdown memory files are supported")
    else Ok normalized.

(** [_resolve_group_memory_file]: the directory, the candidate, its path. *)
Definition resolve_group_memory_file (group_folder relative_path : string) : FM (path * path * string) :=
  memory_dir ← get_group_memory_dir group_folder;
  normalized_path ← check (fun _ => normalize_group_memory_relative_path relative_path);
  let candidate := join_path memory_dir normalized_path in
  resolved ← check (resolve candidate);
  ok ← check (validate_path resolved [memory_dir]);
  if ok : bool then mret (memory_dir, candidate, normalized_path)
  else if bool_decide (".." ∈ path_parts relative_path) then throw (ValueErr "path traversal detected")
  else throw (ValueErr "symlink traversal detected").

Definition get_group_memory_file (group_folder relative_path : string) : FM GroupMemoryFileContent :=
  r ← resolve_group_memory_file group_folder relative_path;
  let '(_, candidate, normalized_path) := r in
  there ← peek (exists_ candidate);
  if negb there then mret (mkMemoryContent normalized_path "" None 0)
  else
    dir ← peek (is_dir candidate);
    if dir : bool then throw (Raised EISDIR "path is a directory")
    else
      st ← stat dir_stat candidate;
      if (max_group_memory_file_size_bytes <? st.1)%Z then throw (ValueErr "memory file exceeds size limit")
      else
        content ← read_text candidate;
        mret (mkMemoryContent normalized_path content (Some st.2) st.1).

Definition update_group_memory_file (group_folder relative_path content : string) (now : Z) : FM GroupMemoryFileContent :=
  r ← resolve_group_memory_file group_folder relative_path;
  let '(memory_dir, candidate, normalized_path) := r in
  if (max_group_memory_file_size_bytes <? utf8_len content)%Z then throw (ValueErr "memory content exceeds size limit")
  else
    dir ← peek (fun fs => exists_ candidate fs && is_dir candidate fs);
    if dir : bool then throw (Raised EISDIR "path is a directory")
    else
      _ ← mkdir_parents (removelast candidate);
      resolved ← check (resolve (removelast candidate));
      ok ← check (validate_path resolved [memory_dir]);
      if negb ok then throw (ValueErr "symlink traversal detected")
      else
        _ ← write_text candidate content now;
        st ← stat dir_stat candidate;
        mret (mkMemoryContent normalized_path content (Some st.2) st.1).

(** ** The global memory of a user *)

(** The disk and [_user_memory_cache]. *)
Record memory := mkMemory { my_fs : fsys; my_cache : gmap string string }.
Definition MM : Type -> Type := M memory file_error.
Definition on_disk {A} (m : FM A) : MM A := fun s =>
  let '(r, fs) := m (my_fs s) in (r, mkMemory fs (my_cache s)).
Definition cache (user_id content : string) : MM unit :=
  modify (fun s => mkMemory (my_fs s) (<[user_id := content]> (my_cache s))).

Definition get_user_memory_path (user_id : string) : path :=
  join_path (data_dir ++ ["memory"; "user-global"]) user_id ++ [USER_MEMORY_FILENAME].

(** [get_user_memory] until it has an answer ([Some]) or sends a thread to read. *)
Definition get_begin (user_id : string) : MM (option string) :=
  cached ← gets (fun s => my_cache s !! user_id);
  match cached with
  | Some content => mret (Some content)
  | None =>
      there ← gets (fun s => exists_ (get_user_memory_path user_id) (my_fs s));
      if negb there then _ ← cache user_id ""; mret (Some "") else mret None
  end.
Definition get_read (user_id : string) : MM string := on_disk (read_text (get_user_memory_path user_id)).
Definition get_user_memory (user_id : string) : MM string :=
  known ← get_begin user_id;
  match known with
  | Some content => mret content
  | None =>
      content ← get_read user_id;
      _ ← cache user_id content;
      mret content
  end.

(** The two threads of [update_user_memory]. *)
Definition update_mkdir (user_id : string) : MM unit := on_disk (mkdir_parents (removelast (get_user_memory_path user_id))).
Definition update_write (user_id content : string) (now : Z) : MM unit :=
  on_disk (write_text (get_user_memory_path user_id) content now).
Definition update_user_memory (user_id content : string) (now : Z) : MM unit :=
  _ ← update_mkdir user_id;
  _ ← update_write user_id content now;
  cache user_id content.

Definition get_user_memory_metadata (user_id : string) : FM (option Z * Z) :=
  let memory_path := get_user_memory_path user_id in
  there ← peek (exists_ memory_path);
  if negb there then mret (None, 0%Z)
  else
    st ← stat dir_stat memory_path;
    mret (Some st.2, st.1).
End service.

(** ** Examples *)

Definition memory_tree : fsys :=
  list_to_map [(["d"], NDir); (["d"; "memory"], NDir); (["d"; "memory"; "user-global"], NDir);
               (["d"; "memory"; "user-global"; "bob"], NDir);
               (["d"; "memory"; "user-global"; "bob"; "AGENTS.md"], NFile "secret of bob" 3)].

Example daily_then_search :
  let r := append_daily_memory ["d"] "team" "Ship it" 86400000000 memory_tree in
  r.1 = Ok tt /\ (search_memory ["d"] "team" " SHIP " r.2).1 = Ok ["1970-01-02.md"].
Proof. split; vm_compute; reflexivity. Qed.

(** The workspace "user-global" has the memory of every user for its own. *)
Example user_global_is_a_workspace :
  (get_group_memory_file no_stat ["d"] 100 "user-global" "bob/AGENTS.md" memory_tree).1 =
    Ok (mkMemoryContent "bob/AGENTS.md" "secret of bob" (Some 3%Z) 13) /\
  (search_memory ["d"] "user-global" "secret" memory_tree).1 = Ok ["bob/AGENTS.md"].
Proof. split; vm_compute; reflexivity. Qed.

(** A read that is under way when an update is made puts the old text into the cache,
    where it stays. *)
Example stale_memory_is_cached :
  let s0 := mkMemory memory_tree ∅ in
  let s1 := (get_begin ["d"] "bob" s0).2 in
  let r := get_read ["d"] "bob" s1 in
  let s2 := (update_user_memory ["d"] "bob" "new" 9 r.2).2 in
  let s3 := (cache "bob" (match r.1 with Ok c => c | Err _ => "" end) s2).2 in
  (get_user_memory ["d"] "bob" s2).1 = Ok "new" /\ (get_user_memory ["d"] "bob" s3).1 = Ok "secret of bob" /\
  (read_text (get_user_memory_path ["d"] "bob") (my_fs s3)).1 = Ok "new".
Proof. repeat split; vm_compute; reflexivity. Qed.

(** The note of a day is appended wherever a link of that name leads. *)
Example daily_link_escapes :
  let fs := <[["etc"] := NDir]> (<[["d"; "memory"; "team"] := NDir]> (<[["d"; "memory"; "team"; "1970-01-02.md"] := NLink true ["etc"; "cron"]]> memory_tree)) in
  let r := append_daily_memory ["d"] "team" "x" 86400000000 fs in r.1 = Ok tt /\ is_Some (r.2 !! ["etc"; "cron"]).
Proof. split; [vm_compute; reflexivity|]. apply (bool_decide_unpack (is_Some _)). vm_compute. exact I. Qed.

(** * The memory routes ([app/routes/memory.py]) *)


Record MemoryGlobalResponse := mkGlobal { mg_content : string; mg_updated_at : option Z; mg_size : Z }.

Section routes.
Context {GT MT ST : Type} `{Table GT string RegisteredGroup} `{Table MT (string * string) GroupMember}
  `{Table ST (string * string) ConversationSlot}.
Variable dir_stat : fsys -> path -> Z * Z.
Variable system_text : file_error -> string.
(** The data directory of the one service. *)
Variable data_dir : path.

Record mworld := mkMWorld { mw_db : db GT MT ST; mw_memory : memory }.
Local Abbreviation R := (M mworld route_error).

Definition mem_db {A} (m : M (db GT MT ST) http_error A) : R A := fun w =>
  match m (mw_db w) with
  | (Ok a, d) => (Ok a, mkMWorld d (mw_memory w))
  | (Err e, d) => (Err (Http e), mkMWorld d (mw_memory w))
  end.
Definition mem_service {A} (h : file_error -> route_error) (m : MM A) : R A := fun w =>
  match m (mw_memory w) with
  | (Ok a, s) => (Ok a, mkMWorld (mw_db w) s)
  | (Err e, s) => (Err (h e), mkMWorld (mw_db w) s)
  end.

(** [_map_memory_error]. *)
Definition map_memory_error (e : file_error) : route_error :=
  match e with
  | OSError (EISDIR | ENOTDIR) _ | Raised (EISDIR | ENOTDIR) _ | ValueErr _ | DecodeError => Http (400%Z, error_text system_text e)
  | FileNotModelled => RouteNotModelled
  | _ => Http (500%Z, "memory operation failed")
  end.

Definition require_memory_workspace (group_id : string) (u : AuthUser) (now : Z) : R RegisteredGroup :=
  mem_db (require_accessible_workspace group_id u now).

(** [_to_memory_global_response]; its errors are not caught. *)
Definition to_memory_global_response (user_id content : string) : R MemoryGlobalResponse :=
  m ← mem_service file_uncaught (on_disk (get_user_memory_metadata dir_stat data_dir user_id));
  mret (mkGlobal content m.1 m.2).

(** [GET] and [PUT /memory/global]. *)
Definition get_global_memory (u : AuthUser) : R MemoryGlobalResponse :=
  content ← mem_service file_uncaught (get_user_memory data_dir (au_id u));
  to_memory_global_response (au_id u) content.
Definition update_global_memory (u : AuthUser) (content : string) (now : Z) : R MemoryGlobalResponse :=
  _ ← mem_service file_uncaught (update_user_memory data_dir (au_id u) content now);
  to_memory_global_response (au_id u) content.

(** One call of the service for a workspace. *)
Definition memory_handler {A} (u : AuthUser) (group_id : string) (now : Z) (op : string -> FM A) : R A :=
  workspace ← require_memory_workspace group_id u now;
  mem_service map_memory_error (on_disk (op (rg_folder workspace))).

(** [GET /memory/workspaces/{group_id}/files], [GET] and [PUT .../file]. *)
Definition list_workspace_memory_files (u : AuthUser) (group_id : string) (now : Z) : R (list GroupMemoryFileEntry) :=
  memory_handler u group_id now (list_group_memory_files dir_stat data_dir).
Definition get_workspace_memory_file (u : AuthUser) (group_id path : string) (now : Z) : R GroupMemoryFileContent :=
  memory_handler u group_id now (fun folder =>
    get_group_memory_file dir_stat data_dir MAX_GROUP_MEMORY_FILE_SIZE_BYTES folder path).
Definition update_workspace_memory_file (u : AuthUser) (group_id path content : string) (now : Z) : R GroupMemoryFileContent :=
  memory_handler u group_id now (fun folder =>
    update_group_memory_file dir_stat data_dir MAX_GROUP_MEMORY_FILE_SIZE_BYTES folder path content now).

(** [_normalize_search_hit_path]. *)
Definition normalize_search_hit_path (group_folder raw_path : string) : FM string :=
  if is_absolute raw_path then
    memory_dir ← get_group_memory_dir data_dir group_folder;
    resolved ← check (resolve (path_parts raw_path));
    if path_prefix memory_dir resolved then mret (as_posix (relative_to memory_dir resolved))
    else throw (ValueErr "unexpected absolute memory search hit")
  else mret (as_posix (path_parts raw_path)).

Fixpoint normalize_hits (group_folder : string) (raw_paths : list string) : FM (list string) :=
  match raw_paths with
  | [] => mret []
  | raw_path :: raw_paths =>
      hit ← normalize_search_hit_path group_folder raw_path;
      hits ← normalize_hits group_folder raw_paths;
      mret (hit :: hits)
  end.

(** [GET /memory/workspaces/{group_id}/search]. *)
Definition search_workspace_memory (u : AuthUser) (group_id q : string) (now : Z) : R (list string) :=
  memory_handler u group_id now (fun folder =>
    raw_paths ← search_memory data_dir folder q;
    normalize_hits folder raw_paths).

(** ** Requests *)

Inductive memory_request :=
| GetGlobal
| PutGlobal (content : string)
| ListMemory (group_id : string)
| GetMemory (group_id path : string)
| PutMemory (group_id path content : string)
| SearchMemory (group_id q : string).

Definition effect_of {A} (m : R A) : R unit := _ ← m; mret tt.
Definition handle_memory (u : AuthUser) (now : Z) (r : memory_request) : R unit :=
  match r with
  | GetGlobal => effect_of (get_global_memory u)
  | PutGlobal c => effect_of (update_global_memory u c now)
  | ListMemory g => effect_of (list_workspace_memory_files u g now)
  | GetMemory g p => effect_of (get_workspace_memory_file u g p now)
  | PutMemory g p c => effect_of (update_workspace_memory_file u g p c now)
  | SearchMemory g q => effect_of (search_workspace_memory u g q now)
  end.
End routes.
Arguments mworld : clear implicits.
