(* ===== verification/MemoryRoutesProps.v ===== *)
(** * Memory requests touch only the memory they name *)

From stdpp Require Import base tactics gmap list option strings.
From Stdlib Require Import ZArith NArith Lia Ascii.
From S2P Require Import Prelude PyStr PySort Auth SafePath Db Groups GroupRoutes GroupsProps PyPath FileSys FileSysProps Confinement WorkspaceFiles FileRoutes Memory.

(** ** The service: what reads keeps the disk *)

Section service.
Variable dir_stat : fsys -> path -> Z * Z.
Variables (data_dir : path) (limit : Z).

Lemma keeps_memory_dir f : keeps (get_group_memory_dir data_dir f).
Proof. unfold get_group_memory_dir. keeps_step. Qed.
Hint Resolve keeps_memory_dir : keeps.

Lemma keeps_checked_file d p : keeps (checked_file d p).
Proof. unfold checked_file. keeps_step. Qed.
Hint Resolve keeps_checked_file : keeps.

Lemma keeps_search_files d q l : keeps (search_files d q l).
Proof. induction l as [|p l IH]; cbn [search_files]; keeps_step. Qed.
Lemma keeps_list_files d l : keeps (list_files dir_stat d l).
Proof. induction l as [|p l IH]; cbn [list_files]; keeps_step. Qed.
Hint Resolve keeps_search_files keeps_list_files : keeps.

Lemma keeps_search f q : keeps (search_memory data_dir f q).
Proof. unfold search_memory. keeps_step. Qed.
Lemma keeps_list f : keeps (list_group_memory_files dir_stat data_dir f).
Proof. unfold list_group_memory_files. keeps_step. Qed.
Lemma keeps_resolve_file f p : keeps (resolve_group_memory_file data_dir f p).
Proof. unfold resolve_group_memory_file. keeps_step. Qed.
Hint Resolve keeps_resolve_file : keeps.
Lemma keeps_get_file f p : keeps (get_group_memory_file dir_stat data_dir limit f p).
Proof. unfold get_group_memory_file. keeps_step. destruct a as [[d c] n]. keeps_step. Qed.
Lemma keeps_metadata u : keeps (get_user_memory_metadata dir_stat data_dir u).
Proof. unfold get_user_memory_metadata. keeps_step. Qed.
Lemma keeps_hits f l : keeps (normalize_hits data_dir f l).
Proof. induction l as [|x l IH]; cbn [normalize_hits]; [keeps_step|]. unfold normalize_search_hit_path. keeps_step. Qed.

(** ** What writes stays below the directory *)

Section workspace.
Variables (folder : string) (up : Prop).
Local Abbreviation root := (join_path (data_dir ++ ["memory"]) folder).

Lemma memory_dir_spec fs s :
  ready up root fs s -> resolved s (data_dir ++ ["memory"]) ->
  wp (get_group_memory_dir data_dir folder) (fun d s' => s' = s /\ d = root) (fun s' => s' = s) s.
Proof.
  intros R Rm. apply wp_bind, wp_check; [|done]. intros m E. apply (resolve_resolved _ _ _ Rm) in E as ->.
  apply wp_bind, wp_check; [|done]. intros c E. apply (resolve_resolved _ _ _ (ready_resolved _ _ R)) in E as ->.
  apply wp_bind, wp_check; [|done]. intros [] _; [by apply wp_ret|by apply wp_throw].
Qed.

(** The path of a file of the memory does not go up. *)
Definition memory_path_down (rel : string) : Prop :=
  match normalize_group_memory_relative_path rel with Ok n => ".." ∉ path_parts n | Err _ => True end.
#[global] Instance memory_path_down_dec rel : Decision (memory_path_down rel).
Proof. unfold memory_path_down. destruct (normalize_group_memory_relative_path rel); apply _. Defined.

Lemma resolve_file_spec fs s rel :
  ready up root fs s -> resolved s (data_dir ++ ["memory"]) -> up \/ memory_path_down rel ->
  wp (resolve_group_memory_file data_dir folder rel)
    (fun r s' => s' = s /\ r.1.1 = root /\ inside root s r.1.2 /\ (up \/ ".." ∉ r.1.2)) (fun s' => s' = s) s.
Proof.
  intros R Rm Dn. apply wp_bind. eapply wp_mono; [by eapply memory_dir_spec| |done]. intros d s' (-> & ->).
  apply wp_bind, wp_check; [|done]. intros n En.
  apply wp_bind, wp_check; [|done]. intros r [W%walk_walks Rr]%resolve_ok.
  apply wp_bind, wp_check; [|done]. intros [] V; [|unfold wp; by case_bool_decide].
  apply wp_ret. split; [done|]. split; [done|]. apply validate_path_ok in V as (r' & E & P); [|apply R].
  apply (resolve_resolved _ _ _ Rr) in E as ->. split; [by exists r|]. cbn.
  destruct Dn as [Up|Dn]; [by left|right]. unfold memory_path_down in Dn. rewrite En in Dn.
  destruct (ready_resolved _ _ R) as [Nr _]. unfold join_path at 1. destruct (is_absolute n); [done|]. set_solver.
Qed.

Lemma update_file_ready fs s rel content now :
  ready up root fs s -> resolved s (data_dir ++ ["memory"]) -> up \/ memory_path_down rel ->
  wp (update_group_memory_file dir_stat data_dir limit folder rel content now) (fun _ => ready up root fs) (ready up root fs) s.
Proof.
  intros R Rm Dn. apply wp_bind. eapply wp_mono; [by eapply resolve_file_spec| |by intros ? ->].
  intros [[d c] n] s' (-> & E & I & Nc). cbn [fst snd] in *. subst d.
  destruct (_ <? _)%Z; [by apply wp_throw|]. apply wp_bind, wp_peek. destruct (_ && _); [by apply wp_throw|].
  apply wp_bind. eapply wp_mono; [by eapply mkdir_parent| |done]. intros ? s1 R1. cbn in R1.
  apply wp_bind, wp_check; [|done]. intros r _. apply wp_bind, wp_check; [|done]. intros [] _; [|by apply wp_throw].
  cbn [negb]. apply wp_bind. eapply wp_mono; [eapply write_inside; [exact R1|exact (inside_ready _ _ _ _ R R1 I)]| |done].
  intros ? s2 R2. cbn in R2. apply wp_bind. eapply wp_mono; [apply wp_stat| |by intros ? ->]. by intros st s3 ->.
Qed.
End workspace.

(** The global memory of a user: its file, and its entry of the cache. *)
Section user.
Variable user_id : string.
Local Abbreviation user_path := (get_user_memory_path data_dir user_id).
Local Abbreviation user_dir := (removelast user_path).

Lemma user_path_snoc : user_path = user_dir ++ [USER_MEMORY_FILENAME].
Proof. unfold get_user_memory_path. by rewrite removelast_last. Qed.

(** The entry of a user alone has changed in the cache. *)
Definition cache_kept (s s' : memory) : Prop := forall v, v <> user_id -> my_cache s' !! v = my_cache s !! v.

Lemma get_user_memory_keeps s :
  wp (get_user_memory data_dir user_id) (fun _ s' => my_fs s' = my_fs s /\ cache_kept s s')
    (fun s' => my_fs s' = my_fs s /\ cache_kept s s') s.
Proof.
  assert (C : forall c s', my_fs s' = my_fs s -> cache_kept s s' ->
    my_fs (mkMemory (my_fs s') (<[user_id := c]> (my_cache s'))) = my_fs s /\
    cache_kept s (mkMemory (my_fs s') (<[user_id := c]> (my_cache s')))).
  { intros c s' E K. split; [done|]. intros v N. cbn. rewrite lookup_insert_ne by done. by apply K. }
  unfold get_user_memory, get_begin. apply wp_bind, wp_bind, wp_gets. destruct (my_cache s !! user_id) as [c|].
  { by apply wp_ret. }
  apply wp_bind, wp_gets. destruct (exists_ _ _); cbn [negb].
  - apply wp_ret, wp_bind. pose proof (keeps_read_text user_path (my_fs s)) as K. unfold wp, get_read, on_disk in *.
    destruct (read_text user_path (my_fs s)) as [[c|e] fs]; cbn in K; subst fs; [|done]. by apply C.
  - apply wp_bind. unfold wp. cbn. by apply C.
Qed.

Lemma update_user_memory_spec s content now :
  tree (my_fs s) -> resolved (my_fs s) user_path ->
  let X s' := ready False user_dir (my_fs s) (my_fs s') /\ cache_kept s s' in
  wp (update_user_memory data_dir user_id content now) (fun _ => X) X s.
Proof.
  intros T R X. assert (Rd : resolved (my_fs s) user_dir) by (by apply resolved_removelast).
  assert (Disk : forall A (m : FM A) s1, my_cache s1 = my_cache s ->
    wp m (fun _ => ready False user_dir (my_fs s)) (ready False user_dir (my_fs s)) (my_fs s1) ->
    wp (on_disk m) (fun _ s2 => my_cache s2 = my_cache s /\ ready False user_dir (my_fs s) (my_fs s2)) X s1).
  { intros A m s1 E Hm. unfold wp, on_disk in *. destruct (m (my_fs s1)) as [[a|e] fs]; [done|].
    split; [exact Hm|]. intros v _. cbn. by rewrite E. }
  assert (I : inside user_dir (my_fs s) user_path).
  { exists user_path. split; [by apply (resolved_walks _ _ [])|]. rewrite user_path_snoc at 2. apply path_prefix_app. }
  apply wp_bind. eapply wp_mono; [apply Disk; [done|]| |done].
  { apply mkdir_parent; [by apply ready_refl|exact I|right; apply R]. }
  intros _ s1 [E1 R1]. apply wp_bind. eapply wp_mono; [apply Disk; [done|]| |done].
  { apply write_inside; [exact R1|]. eapply inside_ready; [by apply ready_refl|exact R1|exact I]. }
  intros _ s2 [E2 R2]. unfold wp. cbn. split; [done|]. intros v N. cbn. by rewrite lookup_insert_ne, E2.
Qed.
End user.
End service.

(** ** Requests *)

Section routes.
Context {GT MT ST : Type} `{Table GT string RegisteredGroup} `{Table MT (string * string) GroupMember}
  `{Table ST (string * string) ConversationSlot}.
Context `{!TableLaws GT string RegisteredGroup} `{!TableLaws MT (string * string) GroupMember}
  `{!TableLaws ST (string * string) ConversationSlot}.
Variable dir_stat : fsys -> path -> Z * Z.
Variable system_text : file_error -> string.
Variable data_dir : path.

Local Abbreviation W := (mworld GT MT ST).
Local Abbreviation disk w := (my_fs (mw_memory w)).
Local Abbreviation workspace_dir g := (join_path (data_dir ++ ["memory"]) g).
Local Abbreviation user_dir u := (removelast (get_user_memory_path data_dir (au_id u))).

Definition memory_workspace (r : memory_request) : option string :=
  match r with
  | ListMemory g | GetMemory g _ | PutMemory g _ _ | SearchMemory g _ => Some g
  | _ => None
  end.

(** What a request does to the disk. *)
Definition disk_effect (u : AuthUser) (r : memory_request) (fs fs' : fsys) : Prop :=
  match r with
  | PutGlobal _ => outside_kept False (user_dir u) fs fs'
  | PutMemory g p _ => outside_kept (~ memory_path_down p) (workspace_dir g) fs fs'
  | _ => fs' = fs
  end.

Record memory_effect (u : AuthUser) (r : memory_request) (w w' : W) : Prop := {
  me_groups : quiet (mw_db w) (mw_db w');
  me_tree : tree (disk w');
  me_cache : forall v, v <> au_id u -> my_cache (mw_memory w') !! v = my_cache (mw_memory w) !! v;
  me_disk : disk_effect u r (disk w) (disk w');
  me_access : disk w' <> disk w -> forall g, memory_workspace r = Some g ->
    exists ws, workspace_of g ws (mw_db w') /\ may_access (au_id u) (au_role u) ws (mw_db w') = true
}.

(** The directories a request writes below are not reached through links. *)
Definition memory_request_safe (u : AuthUser) (r : memory_request) (fs : fsys) : Prop :=
  match r with
  | PutGlobal _ => resolved fs (get_user_memory_path data_dir (au_id u))
  | PutMemory g _ _ => resolved fs (data_dir ++ ["memory"]) /\ resolved fs (workspace_dir g)
  | _ => True
  end.

Lemma kept_effect u r (w : W) d s' :
  tree (disk w) -> quiet (mw_db w) d -> my_fs s' = disk w -> (forall v, v <> au_id u -> my_cache s' !! v = my_cache (mw_memory w) !! v) ->
  memory_effect u r w (mkMWorld d s').
Proof.
  intros T Q E C. split; cbn; [done|by rewrite E|done|rewrite E|by rewrite E].
  destruct r; cbn; done || apply outside_kept_refl.
Qed.

Lemma kept_same u r (w : W) s' :
  tree (disk w) -> my_fs s' = disk w -> cache_kept (au_id u) (mw_memory w) s' -> memory_effect u r w (mkMWorld (mw_db w) s').
Proof. intros T E C. apply kept_effect; [done|apply quiet_refl|done..]. Qed.

Lemma wp_effect_of {A} (m : M W route_error A) (X : W -> Prop) w : wp m (fun _ => X) X w -> wp (effect_of m) (fun _ => X) X w.
Proof. intros Hm. apply wp_bind. by eapply wp_mono; [exact Hm| |]. Qed.

Lemma wp_mem_service {A} h (m : MM A) (Q : A -> W -> Prop) (X : W -> Prop) w :
  wp m (fun a s => Q a (mkMWorld (mw_db w) s)) (fun s => X (mkMWorld (mw_db w) s)) (mw_memory w) -> wp (mem_service h m) Q X w.
Proof. unfold wp, mem_service. by destruct (m (mw_memory w)) as [[a|e] d]. Qed.

Lemma wp_on_disk {A} (m : FM A) (Q : A -> memory -> Prop) (X : memory -> Prop) s :
  wp m (fun a fs => Q a (mkMemory fs (my_cache s))) (fun fs => X (mkMemory fs (my_cache s))) (my_fs s) -> wp (on_disk m) Q X s.
Proof. unfold wp, on_disk. by destruct (m (my_fs s)) as [[a|e] fs]. Qed.

(** The response of the global memory only looks. *)
Lemma global_response_spec u r (w w1 : W) content :
  memory_effect u r w w1 ->
  wp (to_memory_global_response dir_stat data_dir (au_id u) content) (fun _ => memory_effect u r w) (memory_effect u r w) w1.
Proof.
  intros E. apply wp_bind, wp_mem_service, wp_on_disk. destruct w1 as [d [fs c]].
  eapply wp_mono; [apply keeps_metadata| |]; [intros a fs' ->|intros fs' ->]; exact E.
Qed.

Lemma memory_handler_spec {A} u r g now (op : string -> FM A) (w : W) :
  wf (mw_db w) -> tree (disk w) -> memory_workspace r = Some g ->
  wp (op g) (fun _ fs' => tree fs' /\ disk_effect u r (disk w) fs') (fun fs' => tree fs' /\ disk_effect u r (disk w) fs') (disk w) ->
  wp (memory_handler system_text u g now op) (fun _ => memory_effect u r w) (memory_effect u r w) w.
Proof.
  intros C T Mw Hop. apply wp_bind.
  assert (Dep : wp (require_memory_workspace g u now)
    (fun ws w' => quiet (mw_db w) (mw_db w') /\ mw_memory w' = mw_memory w /\ workspace_of g ws (mw_db w') /\
                  may_access (au_id u) (au_role u) ws (mw_db w') = true)
    (memory_effect u r w) w).
  { pose proof (require_accessible_spec g u now (mw_db w) C) as Hd. unfold wp, require_memory_workspace, mem_db in *.
    destruct (require_accessible_workspace g u now (mw_db w)) as [[ws|e] d]; [naive_solver|by apply kept_effect]. }
  eapply wp_mono; [exact Dep| |done]. intros ws [d m] (Q & E & Ws & Acc). cbn in E, Q, Ws, Acc. subst m.
  apply wp_mem_service, wp_on_disk. cbn [mw_db mw_memory]. assert (F : rg_folder ws = g) by apply Ws. rewrite F.
  assert (X : forall fs', tree fs' /\ disk_effect u r (disk w) fs' -> memory_effect u r w (mkMWorld d (mkMemory fs' (my_cache (mw_memory w))))).
  { intros fs' [T' D]. split; cbn; [done|done|done|done|]. intros _ g' Mw'. rewrite Mw in Mw'. injection Mw' as <-. by exists ws. }
  eapply wp_mono; [exact Hop|intros a; apply X|apply X].
Qed.

Lemma looking {A} u r (op : FM A) fs :
  tree fs -> disk_effect u r fs fs -> keeps op ->
  wp op (fun _ fs' => tree fs' /\ disk_effect u r fs fs') (fun fs' => tree fs' /\ disk_effect u r fs fs') fs.
Proof. intros T D K. eapply wp_mono; [apply K| |]; [intros a fs' ->|intros fs' ->]; done. Qed.

(** C11: Requests about memory touch only the memory they name. Whatever the outcome: the
    groups stay as they are; the disk stays a tree; of the cache only the entry of the
    user can change; a request that reads leaves the disk as it is; writing the global
    memory changes only what is below the directory of the user, writing a file of a
    workspace only what is below its memory directory, but for missing directories on
    the way, and only for a user who may access the workspace; where the path of that file
    has "..", directories can be made elsewhere too. The two requests
    that write ask of the disk that what they write below is a plain place: no link and no
    ".." on the way to the memory directory of the workspace, or to the file of the global
    memory of the user. *)
Theorem memory_requests_confined u now r (w : W) :
  wf (mw_db w) -> tree (disk w) -> memory_request_safe u r (disk w) ->
  memory_effect u r w (handle_memory dir_stat system_text data_dir u now r w).2.
Proof.
  intros C T S. apply wp_after. destruct r; cbn [handle_memory]; apply wp_effect_of.
  - apply wp_bind, wp_mem_service. eapply wp_mono; [apply get_user_memory_keeps| |].
    + intros c s' [E K]. by apply global_response_spec, kept_same.
    + intros s' [E K]. by apply kept_same.
  - cbn in S. assert (X : forall s', ready False (user_dir u) (disk w) (my_fs s') /\ cache_kept (au_id u) (mw_memory w) s' ->
      memory_effect u (PutGlobal content) w (mkMWorld (mw_db w) s')).
    { intros s' [R K]. split; cbn; [apply quiet_refl|apply R|done|apply R|done]. }
    apply wp_bind, wp_mem_service. eapply wp_mono; [by apply update_user_memory_spec| |apply X].
    intros a s' H'. by apply global_response_spec, X.
  - apply memory_handler_spec, looking, keeps_list; done.
  - apply memory_handler_spec, looking, keeps_get_file; done.
  - destruct S as (Rm & Rd). apply memory_handler_spec; [done..|]. cbn.
    eapply wp_mono; [apply (update_file_ready dir_stat data_dir _ _ (~ memory_path_down path)); [by apply ready_refl|done|]| |];
      [destruct (decide (memory_path_down path)); tauto| |]; [intros a fs' R|intros fs' R]; split; apply R.
  - apply memory_handler_spec, looking, keeps_bind; [done..|apply keeps_search|intros l; apply keeps_hits].
Qed.
End routes.

(** ** Concrete requests *)

(** A workspace called "user-global", which anyone who may make workspaces can make. *)
Definition mx_world : mworld _ _ _ :=
  mkMWorld (handle (fun _ => true) (gx_user "mallory" "admin") 1 (RCreateGroup "user-global" "Mine") gx_empty).2
    (mkMemory memory_tree ∅).
Definition mx_handle (r : memory_request) (w : mworld _ _ _) : result route_error unit * mworld _ _ _ :=
  handle_memory (GT := gmap string RegisteredGroup) (MT := gmap (string * string) GroupMember)
    (ST := gmap (string * string) ConversationSlot) no_stat (fun _ => "") ["d"] (gx_user "mallory" "admin") 7 r w.

(** Its memory is the memory of every user: it can be read, and written. *)
Example user_global_opens_all_memories :
  (get_workspace_memory_file (GT := gmap string RegisteredGroup) (MT := gmap (string * string) GroupMember)
     (ST := gmap (string * string) ConversationSlot) no_stat (fun _ => "") ["d"] (gx_user "mallory" "admin") "user-global"
     "bob/AGENTS.md" 7 mx_world).1 = Ok (mkMemoryContent "bob/AGENTS.md" "secret of bob" (Some 3%Z) 13) /\
  my_fs (mw_memory (mx_handle (PutMemory "user-global" "bob/AGENTS.md" "obey") mx_world).2)
    !! ["d"; "memory"; "user-global"; "bob"; "AGENTS.md"] = Some (NFile "obey" 7).
Proof. split; vm_compute; reflexivity. Qed.

(** A file whose path leaves the directory and comes back: it is written below it. *)
Definition mx_up : memory_request := PutMemory "user-global" "../new/../user-global/a.md" "mine".

Lemma memory_requests_confined_witness :
  memory_effect ["d"] (gx_user "mallory" "admin") (PutGlobal "mine") mx_world (mx_handle (PutGlobal "mine") mx_world).2 /\
  memory_effect ["d"] (gx_user "mallory" "admin") mx_up mx_world (mx_handle mx_up mx_world).2 /\
  my_fs (mw_memory (mx_handle mx_up mx_world).2) !! ["d"; "memory"; "user-global"; "a.md"] = Some (NFile "mine" 7) /\
  my_fs (mw_memory (mx_handle mx_up mx_world).2) !! ["d"; "memory"; "new"] = Some NDir.
Proof.
  split; [|split; [|split; vm_compute; reflexivity]].
  - apply (memory_requests_confined no_stat (fun _ => "") ["d"] (gx_user "mallory" "admin") 7 (PutGlobal "mine") mx_world);
      [apply handle_good, gx_wf|apply tree_check_ok; vm_compute; reflexivity|apply resolved_check_ok; vm_compute; reflexivity].
  - apply (memory_requests_confined no_stat (fun _ => "") ["d"] (gx_user "mallory" "admin") 7 mx_up mx_world);
      [apply handle_good, gx_wf|apply tree_check_ok; vm_compute; reflexivity|].
    split; apply resolved_check_ok; vm_compute; reflexivity.
Defined.
