(* ===== verification/Skills.v ===== *)
(** * Skills ([services/skills.py], [app/routes/skills.py])

    The skills of a user: a directory each, with the text in [SKILL.md] when the skill is
    enabled and in [SKILL.md.disabled] when it is not. A call is one step of a worker
    thread. *)

From stdpp Require Import base tactics gmap list option strings.
From Stdlib Require Import ZArith NArith Ascii.
From S2P Require Import Prelude PyStr PySort Auth SafePath Db PyPath FileSys WorkspaceFiles FileRoutes.

Definition SKILL_FILENAME : string := "SKILL.md".
Definition DISABLED_SKILL_FILENAME : string := "SKILL.md.disabled".
Definition MAX_SKILL_FILE_SIZE_BYTES : Z := 256 * 1024.

Record SkillEntry := mkSkillEntry { sk_skill_id : string; sk_enabled : bool; sk_updated_at : Z; sk_size : Z }.
Record SkillDetail := mkSkillDetail {
  sd_skill_id : string;
  sd_enabled : bool;
  sd_updated_at : Z;
  sd_size : Z;
  sd_content : string
}.

Definition skill_not_found : file_error := Raised ENOENT "skill not found".
Definition symlink_traversal : file_error := ValueErr "symlink traversal detected".

Section service.
Variable dir_stat : fsys -> path -> Z * Z.
Variable scandir : fsys -> path -> list string.
Variables (max_skill_file_size_bytes : Z) (skills_root : path).

(** [_validate_segment]. *)
Definition validate_skill_segment (value label : string) : FM string :=
  match validate_segment value with
  | Some s => mret s
  | None => throw (ValueErr ("invalid " +:+ label))
  end.

(** The check of a path that has been resolved against a root. *)
Definition ensure_below (p root : path) (e : file_error) : FM unit :=
  resolved ← check (resolve p);
  ok ← check (validate_path resolved [root]);
  if ok : bool then mret tt else throw e.

(** [_user_root], [_skill_dir]. *)
Definition user_root (user_id : string) : FM path :=
  safe_user_id ← validate_skill_segment user_id "user id";
  root ← check (resolve (skills_root ++ [safe_user_id]));
  ok ← check (validate_path root [skills_root]);
  if negb ok then throw (ValueErr "invalid user id")
  else
    _ ← mkdir_parents root;
    mret root.
Definition skill_dir (user_id skill_id : string) : FM path :=
  root ← user_root user_id;
  safe_skill_id ← validate_skill_segment skill_id "skill id";
  let dir := root ++ [safe_skill_id] in
  _ ← ensure_below dir root symlink_traversal;
  mret dir.

(** [_ensure_safe_skill_file]. *)
Definition ensure_safe_skill_file (file_path skill_root : path) : FM unit :=
  _ ← ensure_below file_path skill_root symlink_traversal;
  if bool_decide (path_name file_path ∈ [SKILL_FILENAME; DISABLED_SKILL_FILENAME]) then mret tt
  else throw (ValueErr "unexpected skill file name").

(** [_resolve_skill_file]: the file and whether the skill is enabled. *)
Definition resolve_skill_file (dir : path) : FM (option path * bool) :=
  let enabled_path := dir ++ [SKILL_FILENAME] in
  let disabled_path := dir ++ [DISABLED_SKILL_FILENAME] in
  enabled ← peek (exists_ enabled_path);
  if enabled : bool then
    _ ← ensure_safe_skill_file enabled_path dir;
    mret (Some enabled_path, true)
  else
    disabled ← peek (exists_ disabled_path);
    if disabled : bool then
      _ ← ensure_safe_skill_file disabled_path dir;
      mret (Some disabled_path, false)
    else mret (None, false).

(** [_build_skill_entry]. *)
Definition build_skill_entry (skill_id : string) (enabled : bool) (file_path skill_root : path) : FM SkillEntry :=
  _ ← ensure_safe_skill_file file_path skill_root;
  st ← stat dir_stat file_path;
  if (max_skill_file_size_bytes <? st.1)%Z then throw (ValueErr "skill file exceeds size limit")
  else mret (mkSkillEntry skill_id enabled st.2 st.1).

Fixpoint skill_entries (root : path) (names : list string) : FM (list SkillEntry) :=
  match names with
  | [] => mret []
  | name :: names =>
      let candidate := root ++ [name] in
      dir ← peek (is_dir candidate);
      here ← (if negb dir then mret []
              else
                _ ← ensure_below candidate root symlink_traversal;
                found ← resolve_skill_file candidate;
                match found.1 with
                | None => mret []
                | Some file_path =>
                    e ← build_skill_entry name found.2 file_path candidate;
                    mret [e]
                end);
      rest ← skill_entries root names;
      mret (here ++ rest)
  end.

Definition list_user_skills (user_id : string) : FM (list SkillEntry) :=
  root ← user_root user_id;
  names ← iterdir scandir root;
  skill_entries root (py_sorted lower names).

(** [not skill_dir.exists() or not skill_dir.is_dir()]. *)
Definition require_skill (dir : path) : FM unit :=
  ok ← peek (fun fs => exists_ dir fs && is_dir dir fs);
  if ok : bool then mret tt else throw skill_not_found.

Definition get_user_skill (user_id skill_id : string) : FM SkillDetail :=
  dir ← skill_dir user_id skill_id;
  _ ← require_skill dir;
  found ← resolve_skill_file dir;
  match found.1 with
  | None => throw skill_not_found
  | Some file_path =>
      _ ← ensure_safe_skill_file file_path dir;
      st ← stat dir_stat file_path;
      if (max_skill_file_size_bytes <? st.1)%Z then throw (ValueErr "skill file exceeds size limit")
      else
        content ← read_text file_path;
        mret (mkSkillDetail (path_name dir) found.2 st.2 st.1 content)
  end.

(** A skill path that is a directory is refused. *)
Definition not_a_directory (target : path) : FM unit :=
  bad ← peek (fun fs => exists_ target fs && is_dir target fs);
  if bad : bool then throw (Raised EISDIR "skill path is a directory") else mret tt.

Definition upsert_user_skill (user_id skill_id content : string) (now : Z) : FM SkillDetail :=
  if (max_skill_file_size_bytes <? utf8_len content)%Z then throw (ValueErr "skill content exceeds size limit")
  else
    dir ← skill_dir user_id skill_id;
    _ ← mkdir_parents dir;
    resolved ← check (resolve dir);
    root ← user_root user_id;
    ok ← check (validate_path resolved [root]);
    if negb ok then throw symlink_traversal
    else
      existing ← resolve_skill_file dir;
      let target := default (dir ++ [SKILL_FILENAME]) existing.1 in
      _ ← not_a_directory target;
      _ ← write_text target content now;
      get_user_skill user_id skill_id.

Definition set_user_skill_enabled (user_id skill_id : string) (enabled : bool) : FM SkillDetail :=
  dir ← skill_dir user_id skill_id;
  _ ← require_skill dir;
  current ← resolve_skill_file dir;
  match current.1 with
  | None => throw skill_not_found
  | Some current_file =>
      _ ← (if Bool.eqb current.2 enabled then mret tt
           else
             let target := dir ++ [if enabled then SKILL_FILENAME else DISABLED_SKILL_FILENAME] in
             _ ← not_a_directory target;
             there ← peek (exists_ target);
             _ ← (if there : bool then unlink target else mret tt);
             rename current_file target);
      get_user_skill user_id skill_id
  end.

Definition delete_user_skill (user_id skill_id : string) : FM unit :=
  dir ← skill_dir user_id skill_id;
  _ ← require_skill dir;
  resolved ← check (resolve dir);
  root ← user_root user_id;
  ok ← check (validate_path resolved [root]);
  if negb ok then throw symlink_traversal else rmtree dir.

(** ** The routes, for the user the dependency has resolved *)

Variable system_text : file_error -> string.

Definition map_skills_error (e : file_error) : route_error :=
  let detail := error_text system_text e in
  match e with
  | OSError ENOENT _ | Raised ENOENT _ => Http (404%Z, detail)
  | OSError (EISDIR | ENOTDIR) _ | Raised (EISDIR | ENOTDIR) _ | ValueErr _ | DecodeError => Http (400%Z, detail)
  | FileNotModelled => RouteNotModelled
  | _ => Http (500%Z, "skill operation failed")
  end.

Local Abbreviation R := (M fsys route_error).
Definition list_skills (u : AuthUser) : R (list SkillEntry) := catching map_skills_error (list_user_skills (au_id u)).
Definition get_skill (u : AuthUser) (skill_id : string) : R SkillDetail :=
  catching map_skills_error (get_user_skill (au_id u) skill_id).
Definition put_skill (u : AuthUser) (skill_id content : string) (now : Z) : R SkillDetail :=
  catching map_skills_error (upsert_user_skill (au_id u) skill_id content now).
Definition patch_skill_state (u : AuthUser) (skill_id : string) (enabled : bool) : R SkillDetail :=
  catching map_skills_error (set_user_skill_enabled (au_id u) skill_id enabled).
Definition delete_skill (u : AuthUser) (skill_id : string) : R string :=
  catching map_skills_error (_ ← delete_user_skill (au_id u) skill_id; mret "deleted").
End service.

(** [SkillsService.__init__]: the skills root of an absolute data root. *)
Definition init_skills (data_root : path) : FM path :=
  root ← check (resolve data_root);
  skills_root ← check (resolve (root ++ ["skills"]));
  _ ← mkdir_parents skills_root;
  mret skills_root.

(** ** Examples *)

Definition skills_tree : fsys := list_to_map [(["d"], NDir); (["d"; "skills"], NDir)].

Example skill_life :
  let up := upsert_user_skill no_stat 100 ["d"; "skills"] "u" " writer " "# Writer" 5 skills_tree in
  let off := set_user_skill_enabled no_stat 100 ["d"; "skills"] "u" "writer" false up.2 in
  let again := upsert_user_skill no_stat 100 ["d"; "skills"] "u" "writer" "new" 6 off.2 in
  let gone := delete_user_skill ["d"; "skills"] "u" "writer" again.2 in
  up.1 = Ok (mkSkillDetail "writer" true 5 8 "# Writer") /\ off.1 = Ok (mkSkillDetail "writer" false 5 8 "# Writer") /\
  again.1 = Ok (mkSkillDetail "writer" false 6 3 "new") /\ gone.1 = Ok tt /\
  (get_user_skill no_stat 100 ["d"; "skills"] "u" "writer" gone.2).1 = Err skill_not_found.
Proof. repeat split; vm_compute; reflexivity. Qed.

(** One skill that is too large and none is listed. *)
Example large_skill_hides_the_others :
  let s1 := (upsert_user_skill no_stat 100 ["d"; "skills"] "u" "a" "fine" 5 skills_tree).2 in
  let s2 := (upsert_user_skill no_stat 100 ["d"; "skills"] "u" "b" "a longer text" 5 s1).2 in
  (list_user_skills no_stat names_in 10 ["d"; "skills"] "u" s1).1 = Ok [mkSkillEntry "a" true 5 4] /\
  (list_user_skills no_stat names_in 10 ["d"; "skills"] "u" s2).1 = Err (ValueErr "skill file exceeds size limit").
Proof. split; vm_compute; reflexivity. Qed.

(** A skill file that is a link to nothing is not seen, and written through. *)
Example dangling_skill_link_escapes :
  let s1 := (upsert_user_skill no_stat 100 ["d"; "skills"] "u" "a" "fine" 5 skills_tree).2 in
  let s2 := <[["d"; "skills"; "u"; "a"; "SKILL.md"] := NLink true ["d"; "stolen"]]> s1 in
  let r := upsert_user_skill no_stat 100 ["d"; "skills"] "u" "a" "text" 6 s2 in
  r.1 = Err symlink_traversal /\ r.2 !! ["d"; "stolen"] = Some (NFile "text" 6).
Proof. split; vm_compute; reflexivity. Qed.
