(* ===== verification/SkillsProps.v ===== *)
(** * The skills directory implements a map of skills

    Where there are no links, the directory of a user is a map from the names of its
    directories to their skill, if they hold one: every call answers as the map does and
    changes it as specified, and nothing outside of the directory changes. *)

From stdpp Require Import base tactics gmap list option strings.
From Stdlib Require Import ZArith NArith Lia Ascii.
From S2P Require Import Prelude PyStr PySort Auth SafePath Db PyPath FileSys FileSysProps WorkspaceFiles FileRoutes Skills.

(** ** The abstract machine *)

Record skill := mkSkill { s_enabled : bool; s_bytes : string; s_time : Z }.
Abbreviation skills := (gmap string (option skill)).

Inductive skill_request :=
| SList
| SGet (skill_id : string)
| SPut (skill_id content : string)
| SEnable (skill_id : string) (enabled : bool)
| SDelete (skill_id : string).
Inductive skill_answer := AEntries (l : list SkillEntry) | ADetail (d : SkillDetail) | ADone.

Section spec.
Variable limit : Z.

Definition too_large : file_error := ValueErr "skill file exceeds size limit".
Definition skill_size (s : skill) : Z := Z.of_nat (String.length (s_bytes s)).

Definition spec_detail (id : string) (s : skill) : result file_error SkillDetail :=
  if (limit <? skill_size s)%Z then Err too_large
  else match text_of (s_bytes s) with
       | Decoded c => Ok (mkSkillDetail id (s_enabled s) (s_time s) (skill_size s) c)
       | Undecodable => Err DecodeError
       | BeyondLatin1 => Err FileNotModelled
       end.
Definition spec_get (m : skills) (id : string) : result file_error SkillDetail :=
  match mjoin (m !! id) with Some s => spec_detail id s | None => Err skill_not_found end.

Fixpoint spec_entries (m : skills) (names : list string) : result file_error (list SkillEntry) :=
  match names with
  | [] => Ok []
  | id :: names =>
      match mjoin (m !! id) with
      | Some s =>
          if (limit <? skill_size s)%Z then Err too_large
          else rest ← spec_entries m names; Ok (mkSkillEntry id (s_enabled s) (s_time s) (skill_size s) :: rest)
      | None => spec_entries m names
      end
  end.

Definition spec_step (r : skill_request) (now : Z) (names : list string) (m : skills) : result file_error skill_answer * skills :=
  let with_id (v : string) (k : string -> result file_error skill_answer * skills) :=
    match validate_segment v with Some id => k id | None => (Err (ValueErr "invalid skill id"), m) end in
  match r with
  | SList => (AEntries <$> spec_entries m (py_sorted lower names), m)
  | SGet v => with_id v (fun id => (ADetail <$> spec_get m id, m))
  | SPut v c =>
      if (limit <? utf8_len c)%Z then (Err (ValueErr "skill content exceeds size limit"), m)
      else with_id v (fun id =>
        let e := match mjoin (m !! id) with Some s => s_enabled s | None => true end in
        let m' := <[id := Some (mkSkill e (utf8_encode c) now)]> m in (ADetail <$> spec_get m' id, m'))
  | SEnable v e => with_id v (fun id =>
      match mjoin (m !! id) with
      | Some s => let m' := <[id := Some (mkSkill e (s_bytes s) (s_time s))]> m in (ADetail <$> spec_get m' id, m')
      | None => (Err skill_not_found, m)
      end)
  | SDelete v => with_id v (fun id =>
      match m !! id with Some _ => (Ok ADone, delete id m) | None => (Err skill_not_found, m) end)
  end.
End spec.

(** ** The concrete one *)

Lemma FM_bind_ok {A B} (m : FM A) (f : A -> FM B) s a s' : m s = (Ok a, s') -> (m ≫= f) s = f a s'.
Proof. intros H. unfold mbind, M_bind. by rewrite H. Qed.
Lemma FM_bind_err {A B} (m : FM A) (f : A -> FM B) s e s' : m s = (Err e, s') -> (m ≫= f) s = (Err e, s').
Proof. intros H. unfold mbind, M_bind. by rewrite H. Qed.

Lemma FM_bind_from {A B} (m : FM A) (f : A -> FM B) (n : FM A) s s' : m s = n s' -> (m ≫= f) s = (n ≫= f) s'.
Proof. intros H. unfold mbind, M_bind. by rewrite H. Qed.
Lemma FM_bind_same {A B} (m : FM A) (f : A -> FM B) s s' : m s = m s' -> (m ≫= f) s = (m ≫= f) s'.
Proof. intros H. unfold mbind, M_bind. by rewrite H. Qed.

Section refinement.
Variable dir_stat : fsys -> path -> Z * Z.
Variable scandir : fsys -> path -> list string.
Variables (limit : Z) (skills_root : path).

Definition run_skill (user_id : string) (now : Z) (r : skill_request) : FM skill_answer :=
  match r with
  | SList => l ← list_user_skills dir_stat scandir limit skills_root user_id; mret (AEntries l)
  | SGet v => d ← get_user_skill dir_stat limit skills_root user_id v; mret (ADetail d)
  | SPut v c => d ← upsert_user_skill dir_stat limit skills_root user_id v c now; mret (ADetail d)
  | SEnable v e => d ← set_user_skill_enabled dir_stat limit skills_root user_id v e; mret (ADetail d)
  | SDelete v => _ ← delete_user_skill skills_root user_id v; mret ADone
  end.

Variable uid : string.
Local Abbreviation root := (skills_root ++ [uid]).
Local Abbreviation enabled_file id := (root ++ [id; SKILL_FILENAME]).
Local Abbreviation disabled_file id := (root ++ [id; DISABLED_SKILL_FILENAME]).

(** What the directory of the user is like. *)
Record skills_ok (fs : fsys) : Prop := {
  so_tree : tree fs;
  so_base : node_of fs skills_root = Some NDir;
  so_root : resolved fs root;
  so_dir : fs !! root = None \/ fs !! root = Some NDir;
  so_links : forall p, path_prefix root p = true -> is_link fs p = false;
  so_files : forall id, fs !! enabled_file id <> Some NDir /\ fs !! disabled_file id <> Some NDir;
  so_children : forall id n, fs !! (root ++ [id]) = Some n -> n = NDir;
  so_nulls : forall p, path_prefix root p = true -> is_Some (fs !! p) -> has_null p = false
}.

(** The skill a directory holds. *)
Definition file_skill (enabled : bool) (n : option node) : option skill :=
  match n with Some (NFile data m) => Some (mkSkill enabled data m) | _ => None end.
Definition dir_skill (fs : fsys) (id : string) : option skill :=
  match fs !! enabled_file id with
  | Some n => file_skill true (Some n)
  | None => file_skill false (fs !! disabled_file id)
  end.
Definition skill_at (fs : fsys) (id : string) : option (option skill) :=
  match fs !! (root ++ [id]) with Some NDir => Some (dir_skill fs id) | _ => None end.
Definition abs (fs : fsys) (m : skills) : Prop := forall id, m !! id = skill_at fs id.

Hypothesis root_nulls : has_null root = false.
Hypothesis uid_safe : safe_segment uid = true.

(** A state in which the directory of the user is there. *)
Definition there (fs : fsys) : Prop := skills_ok fs /\ fs !! root = Some NDir.

Lemma snoc_two id n : root ++ [id; n] = (root ++ [id]) ++ [n].
Proof. exact (app_assoc root [id] [n]). Qed.

Lemma path_ne (p q : path) : List.length p <> List.length q -> p <> q.
Proof. intros N ->. done. Qed.

(** ** Steps on the disk *)

Lemma ok_insert fs q n nd :
  skills_ok fs -> path_prefix root (q ++ [n]) = true -> node_of fs q = Some NDir -> ".." ∉ q ++ [n] ->
  has_null (q ++ [n]) = false -> fs !! (q ++ [n]) <> Some NDir -> is_link_node (Some nd) = false ->
  (nd = NDir <-> List.length (q ++ [n]) < List.length root + 2) ->
  skills_ok (<[q ++ [n] := nd]> fs).
Proof.
  intros [T B R D L F C N] P Dq Nu Nn Nd Ln Fn.
  assert (Lk : forall x, is_link (<[q ++ [n] := nd]> fs) x = true -> is_link fs x = true).
  { intros x. unfold is_link. destruct (decide (q ++ [n] = x)) as [<-|Ne]; [by rewrite lookup_insert_eq, Ln|by rewrite lookup_insert_ne]. }
  assert (Lk' : forall x, is_link fs x = false -> is_link (<[q ++ [n] := nd]> fs) x = false).
  { intros x Hx. destruct (is_link (<[q ++ [n] := nd]> fs) x) eqn:E; [|done]. apply Lk in E. congruence. }
  assert (Deep : forall x, List.length x = List.length root + 2 -> fs !! x <> Some NDir -> <[q ++ [n] := nd]> fs !! x <> Some NDir).
  { intros x Lx Hx. destruct (decide (q ++ [n] = x)) as [<-|Ne]; [|by rewrite lookup_insert_ne].
    rewrite lookup_insert_eq. intros [= E]. apply Fn in E. lia. }
  split.
  - apply tree_insert; [done| |by rewrite node_of_lookup]. right. exists q, n. split; [done|]. split; [done|]. by rewrite Dq.
  - destruct skills_root as [|x l] eqn:E; [done|]. cbn in B |- *. rewrite <- E in *. rewrite lookup_insert_ne; [done|].
    intros E'. rewrite E' in P. apply path_prefix_spec in P as [s P]. apply (f_equal List.length) in P.
    rewrite E in P. rewrite !length_app in P. cbn in P. lia.
  - destruct R as [R1 R2]. split; [done|]. intros a b c E. apply Lk'. by apply (R2 a b c).
  - destruct (decide (q ++ [n] = root)) as [E|Ne]; [right; rewrite <- E, lookup_insert_eq|by rewrite lookup_insert_ne].
    f_equal. apply Fn. rewrite E. lia.
  - intros x Px. apply Lk'. by apply L.
  - intros id. split; (apply Deep; [rewrite length_app; cbn; lia|apply F]).
  - intros id nd'. destruct (decide (q ++ [n] = root ++ [id])) as [E|Ne]; [|rewrite lookup_insert_ne by done; apply C].
    rewrite <- E, lookup_insert_eq. intros [= <-]. apply Fn. rewrite E, length_app. cbn. lia.
  - intros x Px Sx. destruct (decide (q ++ [n] = x)) as [<-|Ne]; [done|]. rewrite lookup_insert_ne in Sx by done. by apply N.
Qed.

Lemma ok_sub fs fs' :
  skills_ok fs -> tree fs' -> fs' ⊆ fs -> node_of fs' skills_root = Some NDir -> skills_ok fs'.
Proof.
  intros [T B R D L F C N] T' Sub B'.
  assert (W : forall p n, fs' !! p = Some n -> fs !! p = Some n) by (intros p n H; by eapply (lookup_weaken fs')).
  assert (Lk : forall p, is_link fs p = false -> is_link fs' p = false).
  { intros p. unfold is_link. destruct (fs' !! p) as [n|] eqn:E; [|done]. by rewrite (W _ _ E). }
  split; [done|done| | | | | |].
  - destruct R as [R1 R2]. split; [done|]. intros a b c E. by apply Lk, (R2 a b c).
  - destruct (fs' !! root) as [n|] eqn:E; [right|by left]. apply W in E. destruct D; congruence.
  - intros p P. by apply Lk, L.
  - intros id. split; intros E%W; by apply F in E.
  - intros id n E%W. by apply C in E.
  - intros p P [n E%W]. apply N; [done|by exists n].
Qed.

(** The directory of the user is made by the first call. *)
Lemma ensure_there fs : skills_ok fs -> there (ensure_dir root fs).
Proof.
  intros O. unfold ensure_dir. destruct (fs !! root) as [n|] eqn:E.
  - split; [done|]. destruct (so_dir _ O); congruence.
  - split; [|apply lookup_insert_eq]. apply ok_insert; [done|apply path_prefix_refl|apply O|apply O|done|by rewrite E|done|].
    split; [lia|done].
Qed.

Lemma ensure_dir_there fs : there fs -> ensure_dir root fs = fs.
Proof. intros [_ E]. unfold ensure_dir. by rewrite E. Qed.

Lemma ensure_same fs p : p <> root -> ensure_dir root fs !! p = fs !! p.
Proof. intros N. unfold ensure_dir. destruct (fs !! root); [done|]. by apply lookup_insert_ne. Qed.

Lemma ensure_at fs id : skill_at (ensure_dir root fs) id = skill_at fs id.
Proof.
  unfold skill_at, dir_skill. rewrite !ensure_same; [done|..]; apply path_ne; rewrite !length_app; cbn; lia.
Qed.

(** Paths below the root have no links on them. *)
Lemma resolved_below fs q : there fs -> ".." ∉ q -> resolved fs (root ++ q).
Proof.
  intros [O _] N. induction q as [|n q IH] using rev_ind; [rewrite app_nil_r; apply O|].
  rewrite (app_assoc root q). apply resolved_snoc; [apply IH; set_solver|set_solver|].
  apply (so_links _ O). rewrite <- (app_assoc root q). apply path_prefix_app.
Qed.

(** A name that can be a segment. *)
Definition plain_name (n : string) : Prop := n <> ".." /\ has_null [n] = false.

Lemma safe_plain n : safe_segment n = true -> plain_name n.
Proof.
  intros S. split; [by apply safe_segment_child in S as (_ & _ & ? & _)|].
  unfold has_null. cbn. rewrite orb_false_r. unfold safe_segment in S. destruct (str_chars n) as [|c l]; [done|].
  apply andb_true_iff in S as [S1 S2]. apply not_true_iff_false. rewrite existsb_exists.
  intros (x & [<-|Hx] & Zx); apply N.eqb_eq in Zx.
  - unfold alnum in S1. by rewrite Zx in S1.
  - rewrite forallb_forall in S2. apply S2 in Hx. unfold segment_char, alnum in Hx.
    assert (x = ascii_of_N 0) as -> by (by rewrite <- Zx; unfold code; rewrite ascii_N_embedding). done.
Qed.

Lemma skill_files_plain : plain_name SKILL_FILENAME /\ plain_name DISABLED_SKILL_FILENAME.
Proof. by split; split. Qed.

Lemma root_place fs fl : there fs -> place fl root fs = Ok root.
Proof. intros [O E]. apply dir_found; [apply O|apply O|]. by rewrite node_of_lookup. Qed.

Lemma ensure_below_ok fs p q e :
  there fs -> ".." ∉ p -> ".." ∉ q -> has_null p = false -> has_null q = false ->
  ensure_below ((root ++ p) ++ q) (root ++ p) e fs = (Ok tt, fs).
Proof.
  intros Th Np Nq Zp Zq. pose proof (resolved_below fs p Th Np) as Rp.
  assert (Rq : resolved fs ((root ++ p) ++ q)) by (rewrite <- app_assoc; apply resolved_below; [done|set_solver]).
  assert (Z1 : has_null (root ++ p) = false) by (by rewrite has_null_app, root_nulls, Zp).
  assert (Z2 : has_null ((root ++ p) ++ q) = false) by (by rewrite has_null_app, Z1, Zq).
  unfold ensure_below, mbind, M_bind, check. rewrite resolve_self by done. by rewrite validate_below.
Qed.

Lemma user_root_eval v fs :
  validate_segment v = Some uid -> skills_ok fs -> user_root skills_root v fs = (Ok root, ensure_dir root fs).
Proof.
  intros V O. rewrite has_null_app, orb_false_iff in root_nulls. destruct root_nulls as [Z1 Z2].
  assert (Rs : resolved fs skills_root) by (eapply resolved_prefix, O).
  unfold user_root, validate_skill_segment, mbind, M_bind, check. rewrite V. cbn [mret M_ret].
  rewrite resolve_self; [|apply O|by rewrite has_null_app, Z1, Z2].
  rewrite validate_below; [|done|done|apply O|by rewrite has_null_app, Z1, Z2]. cbn [negb].
  rewrite mkdir_child; [done|apply O|done|apply O|by apply safe_plain|apply (so_links _ O), path_prefix_refl|].
  destruct (so_dir _ O); [by left|by right].
Qed.

Lemma has_null_one n : plain_name n -> has_null [n] = false.
Proof. by intros []. Qed.
Lemma up_one n : plain_name n -> ".." ∉ [n].
Proof. intros [N _] E%list_elem_of_singleton. by rewrite E in N. Qed.
Hint Resolve has_null_one up_one : core.

Lemma skill_dir_eval v sid fs :
  validate_segment v = Some uid -> skills_ok fs ->
  skill_dir skills_root v sid fs =
    match validate_segment sid with
    | Some id => (Ok (root ++ [id]), ensure_dir root fs)
    | None => (Err (ValueErr "invalid skill id"), ensure_dir root fs)
    end.
Proof.
  intros V O. unfold skill_dir, mbind at 1, M_bind at 1. rewrite user_root_eval by done.
  unfold validate_skill_segment. destruct (validate_segment sid) as [id|] eqn:Vs; [|done].
  apply validate_segment_safe in Vs as [_ S%safe_plain]. pose proof (ensure_there _ O) as Th.
  pose proof (ensure_below_ok _ [] [id] symlink_traversal Th ltac:(set_solver) (up_one _ S) eq_refl (has_null_one _ S)) as E.
  rewrite !app_nil_r in E. unfold mbind, M_bind. cbn [mret M_ret]. by rewrite E.
Qed.

(** ** In the directory of a skill *)

Section skill_dir.
Context (fs : fsys) (id : string) (Th : there fs) (Pid : plain_name id).
Local Abbreviation dir := (root ++ [id]).

Lemma dir_stat_node : stat_node dir fs = fs !! dir.
Proof.
  destruct Th as [O E]. apply stat_child; [apply O|apply O|by rewrite node_of_lookup|apply Pid|].
  apply (so_links _ O), path_prefix_app.
Qed.

Lemma require_skill_eval :
  require_skill dir fs = (match fs !! dir with Some _ => Ok tt | None => Err skill_not_found end, fs).
Proof.
  unfold require_skill, mbind, M_bind, peek, gets, exists_, is_dir. rewrite dir_stat_node.
  destruct (fs !! dir) as [n|] eqn:E; [|done]. by rewrite (so_children _ (proj1 Th) _ _ E).
Qed.

Context (D : fs !! dir = Some NDir).

Lemma dir_node_of : node_of fs dir = Some NDir.
Proof. by rewrite node_of_lookup. Qed.
Lemma dir_resolved : resolved fs dir.
Proof. apply resolved_below; [done|by apply up_one]. Qed.

Lemma file_place fl n : plain_name n -> place fl (dir ++ [n]) fs = Ok (dir ++ [n]).
Proof.
  intros [N _]. apply place_child; [apply Th|apply dir_resolved|apply dir_node_of|done|].
  apply (so_links _ (proj1 Th)). rewrite <- app_assoc. apply path_prefix_app.
Qed.

Lemma file_stat n : plain_name n -> stat_node (dir ++ [n]) fs = fs !! (dir ++ [n]).
Proof. intros P. unfold stat_node. by rewrite file_place, node_of_lookup. Qed.

Lemma ensure_file_eval n :
  n = SKILL_FILENAME \/ n = DISABLED_SKILL_FILENAME -> ensure_safe_skill_file (dir ++ [n]) dir fs = (Ok tt, fs).
Proof.
  intros Hn. assert (P : plain_name n) by (destruct Hn as [-> | ->]; apply skill_files_plain).
  unfold ensure_safe_skill_file, mbind at 1, M_bind at 1. rewrite ensure_below_ok by auto.
  unfold path_name. rewrite last_snoc. cbn [default]. by destruct Hn as [-> | ->].
Qed.

(** The file of the skill and its state. *)
Definition found : option path * bool :=
  match fs !! (dir ++ [SKILL_FILENAME]) with
  | Some _ => (Some (dir ++ [SKILL_FILENAME]), true)
  | None =>
      match fs !! (dir ++ [DISABLED_SKILL_FILENAME]) with
      | Some _ => (Some (dir ++ [DISABLED_SKILL_FILENAME]), false)
      | None => (None, false)
      end
  end.

Lemma resolve_skill_file_eval : resolve_skill_file dir fs = (Ok found, fs).
Proof.
  destruct skill_files_plain as [P1 P2].
  unfold resolve_skill_file, found, mbind, M_bind, peek, gets, exists_. rewrite file_stat by done.
  destruct (fs !! (dir ++ [SKILL_FILENAME])); cbn beta iota.
  { by rewrite (ensure_file_eval SKILL_FILENAME (or_introl eq_refl)). }
  rewrite file_stat by done. destruct (fs !! (dir ++ [DISABLED_SKILL_FILENAME])); [|done].
  by rewrite (ensure_file_eval DISABLED_SKILL_FILENAME (or_intror eq_refl)).
Qed.

(** A skill file that is there is a file. *)
Lemma skill_file_node n x :
  n = SKILL_FILENAME \/ n = DISABLED_SKILL_FILENAME -> fs !! (dir ++ [n]) = Some x -> exists data m, x = NFile data m.
Proof.
  intros Hn E. destruct x as [data m| |a p].
  - by exists data, m.
  - exfalso. rewrite <- (snoc_two id n) in E. destruct (so_files _ (proj1 Th) id) as [F1 F2].
    destruct Hn as [-> | ->]; by rewrite E in *.
  - exfalso. pose proof (so_links _ (proj1 Th) (dir ++ [n])) as L. unfold is_link in L. rewrite E in L.
    rewrite <- app_assoc in L. specialize (L (path_prefix_app _ _)). done.
Qed.

(** What [found] says of the skill. *)
Lemma found_skill :
  match found with
  | (Some p, e) => exists n data m, (n = SKILL_FILENAME \/ n = DISABLED_SKILL_FILENAME) /\ p = dir ++ [n] /\
      fs !! p = Some (NFile data m) /\ skill_at fs id = Some (Some (mkSkill e data m)) /\
      e = bool_decide (n = SKILL_FILENAME)
  | (None, e) => skill_at fs id = Some None
  end.
Proof.
  unfold found, skill_at, dir_skill. rewrite D, !snoc_two.
  destruct (fs !! (dir ++ [SKILL_FILENAME])) as [x|] eqn:E1.
  - destruct (skill_file_node _ _ (or_introl eq_refl) E1) as (data & m & ->).
    exists SKILL_FILENAME, data, m. split; [by left|]. done.
  - destruct (fs !! (dir ++ [DISABLED_SKILL_FILENAME])) as [x|] eqn:E2; [|done].
    destruct (skill_file_node _ _ (or_intror eq_refl) E2) as (data & m & ->).
    exists DISABLED_SKILL_FILENAME, data, m. split; [by right|]. done.
Qed.
End skill_dir.

(** ** The operations *)

Lemma stat_file fs p data m : place true p fs = Ok p -> fs !! p = Some (NFile data m) -> p <> [] ->
  stat dir_stat p fs = (Ok (Z.of_nat (String.length data), m), fs).
Proof. intros P E N. unfold stat, located. rewrite P. destruct p; [done|]. cbn [node_of]. by rewrite E. Qed.

Lemma read_file fs p data m : place true p fs = Ok p -> fs !! p = Some (NFile data m) -> p <> [] ->
  read_text p fs = (match text_of data with Decoded s => Ok s | Undecodable => Err DecodeError | BeyondLatin1 => Err FileNotModelled end, fs).
Proof.
  intros P E N. unfold read_text, read_bytes, located, mbind, M_bind. rewrite P. destruct p; [done|]. cbn [node_of]. rewrite E.
  by destruct (text_of data).
Qed.

Lemma dir_file_ne (p : path) (n : string) : p ++ [n] <> [] .
Proof. by destruct p. Qed.

Lemma get_eval v sid id fs :
  validate_segment v = Some uid -> there fs -> validate_segment sid = Some id ->
  get_user_skill dir_stat limit skills_root v sid fs =
    (match mjoin (skill_at fs id) with Some s => spec_detail limit id s | None => Err skill_not_found end, fs).
Proof.
  intros V Th Vs. pose proof (validate_segment_safe _ _ Vs) as [_ Pid%safe_plain].
  unfold get_user_skill, mbind at 1, M_bind at 1. rewrite skill_dir_eval, Vs, ensure_dir_there by (done || apply Th).
  unfold mbind at 1, M_bind at 1. rewrite (require_skill_eval fs id Th Pid).
  destruct (fs !! (root ++ [id])) as [x|] eqn:D; [|unfold skill_at; by rewrite D].
  pose proof (so_children _ (proj1 Th) _ _ D) as ->.
  unfold mbind at 1, M_bind at 1. rewrite (resolve_skill_file_eval fs id Th Pid D).
  pose proof (found_skill fs id Th D) as F. destruct (found fs id) as [[p|] e]; cbn [fst snd]; [|by rewrite F].
  destruct F as (n & data & m & Hn & -> & E & -> & He).
  assert (Pn : plain_name n) by (destruct Hn as [-> | ->]; apply skill_files_plain).
  pose proof (file_place fs id Th Pid D true n Pn) as P.
  unfold mbind, M_bind. rewrite (ensure_file_eval fs id Th Pid n Hn).
  rewrite (stat_file _ _ _ _ P E (dir_file_ne _ _)). cbn [fst snd mjoin option_join]. unfold spec_detail, skill_size. cbn [s_bytes s_enabled s_time].
  destruct (_ <? _)%Z; [done|]. rewrite (read_file _ _ _ _ P E (dir_file_ne _ _)). unfold path_name. rewrite last_snoc.
  by destruct (text_of data).
Qed.

(** Writing a skill file. *)
Lemma there_write fs id n data m :
  there fs -> plain_name id -> fs !! (root ++ [id]) = Some NDir -> n = SKILL_FILENAME \/ n = DISABLED_SKILL_FILENAME ->
  there (<[(root ++ [id]) ++ [n] := NFile data m]> fs).
Proof.
  intros Th Pid D Hn. assert (Pn : plain_name n) by (destruct Hn as [-> | ->]; apply skill_files_plain). split.
  - apply ok_insert; [apply Th|rewrite <- app_assoc; apply path_prefix_app|by rewrite node_of_lookup| | | |done|].
    + rewrite <- app_assoc. apply (resolved_below fs [id; n] Th). destruct Pid, Pn. set_solver.
    + by rewrite has_null_app, (has_null_app root), root_nulls, (has_null_one _ Pid), (has_null_one _ Pn).
    + rewrite <- (snoc_two id n). destruct (so_files _ (proj1 Th) id). by destruct Hn as [-> | ->].
    + split; [done|]. rewrite !length_app. cbn. lia.
  - rewrite lookup_insert_ne; [apply Th|]. apply path_ne. rewrite !length_app. cbn. lia.
Qed.

Lemma at_other fs id id' n x :
  id' <> id -> skill_at (<[(root ++ [id]) ++ [n] := x]> fs) id' = skill_at fs id'.
Proof.
  intros N. unfold skill_at, dir_skill.
  rewrite !lookup_insert_ne; [done|..]; intros E.
  - rewrite <- app_assoc in E. apply app_inv_head in E. injection E as E _. by rewrite E in N.
  - rewrite <- app_assoc in E. apply app_inv_head in E. injection E as E _. by rewrite E in N.
  - apply (f_equal List.length) in E. rewrite !length_app in E. cbn in E. lia.
Qed.

(** What a skill file that is written makes of its directory. *)
Lemma at_write fs id data m n :
  fs !! (root ++ [id]) = Some NDir -> n = SKILL_FILENAME \/ n = DISABLED_SKILL_FILENAME ->
  (n = DISABLED_SKILL_FILENAME -> fs !! ((root ++ [id]) ++ [SKILL_FILENAME]) = None) ->
  skill_at (<[(root ++ [id]) ++ [n] := NFile data m]> fs) id = Some (Some (mkSkill (bool_decide (n = SKILL_FILENAME)) data m)).
Proof.
  intros D Hn Off. unfold skill_at, dir_skill. rewrite !snoc_two.
  rewrite (lookup_insert_ne _ _ (root ++ [id])), D by (apply path_ne; rewrite !length_app; cbn; lia).
  destruct Hn as [-> | ->]; [by rewrite lookup_insert_eq|].
  rewrite lookup_insert_ne, Off, lookup_insert_eq; [done|done|]. intros [_ E]%app_inj_tail. discriminate E.
Qed.

Lemma write_file fs p data now : place true p fs = Ok p -> fs !! p <> Some NDir -> p <> [] ->
  write_bytes p data now fs = (Ok tt, <[p := NFile data now]> fs).
Proof.
  intros P E N. unfold write_bytes, located. rewrite P. destruct p; [done|]. cbn [node_of]. by destruct (fs !! (s :: p)) as [[]|].
Qed.

Lemma not_a_directory_eval fs id n :
  there fs -> plain_name id -> fs !! (root ++ [id]) = Some NDir -> n = SKILL_FILENAME \/ n = DISABLED_SKILL_FILENAME ->
  not_a_directory ((root ++ [id]) ++ [n]) fs = (Ok tt, fs).
Proof.
  intros Th Pid D Hn. assert (Pn : plain_name n) by (destruct Hn as [-> | ->]; apply skill_files_plain).
  unfold not_a_directory, mbind, M_bind, peek, gets, exists_, is_dir. rewrite (file_stat fs id Th Pid D n Pn).
  destruct (fs !! ((root ++ [id]) ++ [n])) as [x|] eqn:E; [|done].
  by destruct (skill_file_node fs id Th n x Hn E) as (data & m & ->).
Qed.

(** The directory of a skill that is made if it is not there. *)
Lemma make_dir fs id : there fs -> plain_name id ->
  let fs' := ensure_dir (root ++ [id]) fs in
  mkdir_parents (root ++ [id]) fs = (Ok tt, fs') /\ there fs' /\ fs' !! (root ++ [id]) = Some NDir /\
  (forall id', id' <> id -> skill_at fs' id' = skill_at fs id') /\ mjoin (skill_at fs' id) = mjoin (skill_at fs id) /\
  (forall p, path_prefix root p = false -> fs' !! p = fs !! p).
Proof.
  intros Th Pid fs'. pose proof (proj1 Th) as O.
  assert (M : mkdir_parents (root ++ [id]) fs = (Ok tt, fs')).
  { apply mkdir_child; [apply O|apply O|rewrite node_of_lookup; apply Th|apply Pid|apply (so_links _ O), path_prefix_app|].
    destruct (fs !! (root ++ [id])) as [x|] eqn:E; [right|by left]. by rewrite (so_children _ O _ _ E). }
  split; [done|]. subst fs'. unfold ensure_dir in *. destruct (fs !! (root ++ [id])) as [x|] eqn:E.
  { pose proof (so_children _ O _ _ E) as ->. done. }
  assert (Ne : forall q, q <> root ++ [id] -> <[root ++ [id] := NDir]> fs !! q = fs !! q) by (intros q N; by rewrite lookup_insert_ne).
  assert (Gone : forall q, fs !! ((root ++ [id]) ++ q) = None) by (intros q; apply missing_below; [apply O|apply dir_file_ne|done]).
  split; [split|split; [|split; [|split]]].
  - apply ok_insert; [done|apply path_prefix_app|rewrite node_of_lookup; apply Th| | |by rewrite E|done|].
    + apply (resolved_below fs [id] Th). by apply up_one.
    + by rewrite has_null_app, root_nulls, (has_null_one _ Pid).
    + split; [intros _; rewrite length_app; cbn; lia|done].
  - rewrite Ne; [apply Th|]. apply path_ne. rewrite !length_app. cbn. lia.
  - apply lookup_insert_eq.
  - intros id' N. unfold skill_at, dir_skill. rewrite !Ne; [done|..]; intros E'; apply app_inv_head in E'; congruence.
  - unfold skill_at, dir_skill. rewrite E, lookup_insert_eq, !Ne; [|apply path_ne; rewrite !length_app; cbn; lia..].
    by rewrite !snoc_two, !Gone.
  - intros p P. apply Ne. intros ->. by rewrite path_prefix_app in P.
Qed.

Lemma outside_write (fs : fsys) id n (x : node) : forall p, path_prefix root p = false -> <[(root ++ [id]) ++ [n] := x]> fs !! p = fs !! p.
Proof.
  intros p P. apply lookup_insert_ne. intros <-. by rewrite <- app_assoc, path_prefix_app in P.
Qed.

Lemma put_eval v sid id content now fs :
  validate_segment v = Some uid -> there fs -> validate_segment sid = Some id -> (limit <? utf8_len content)%Z = false ->
  let e := match mjoin (skill_at fs id) with Some s => s_enabled s | None => true end in
  exists fs', there fs' /\
    upsert_user_skill dir_stat limit skills_root v sid content now fs = get_user_skill dir_stat limit skills_root v sid fs' /\
    skill_at fs' id = Some (Some (mkSkill e (utf8_encode content) now)) /\
    (forall id', id' <> id -> skill_at fs' id' = skill_at fs id') /\
    (forall p, path_prefix root p = false -> fs' !! p = fs !! p).
Proof.
  intros V Th Vs Sz e. pose proof (validate_segment_safe _ _ Vs) as [_ Pid%safe_plain].
  destruct (make_dir fs id Th Pid) as (M & Th1 & D1 & Oth & Same & Out). set (fs1 := ensure_dir (root ++ [id]) fs) in *.
  pose proof (found_skill fs1 id Th1 D1) as F. pose proof (resolve_skill_file_eval fs1 id Th1 Pid D1) as Rf.
  set (n := if (found fs1 id).2 then SKILL_FILENAME else match (found fs1 id).1 with Some _ => DISABLED_SKILL_FILENAME | None => SKILL_FILENAME end).
  assert (T : default ((root ++ [id]) ++ [SKILL_FILENAME]) (found fs1 id).1 = (root ++ [id]) ++ [n]).
  { unfold n, found. destruct (fs1 !! ((root ++ [id]) ++ [SKILL_FILENAME])); [done|].
    by destruct (fs1 !! ((root ++ [id]) ++ [DISABLED_SKILL_FILENAME])). }
  assert (Hn : n = SKILL_FILENAME \/ n = DISABLED_SKILL_FILENAME) by (unfold n; destruct (found fs1 id) as [[?|] []]; auto).
  assert (Pn : plain_name n) by (destruct Hn as [-> | ->]; apply skill_files_plain).
  exists (<[(root ++ [id]) ++ [n] := NFile (utf8_encode content) now]> fs1). split; [by apply there_write|]. split; [|split; [|split]].
  - unfold upsert_user_skill. rewrite Sz. unfold mbind at 1, M_bind at 1.
    rewrite skill_dir_eval, Vs, ensure_dir_there by (done || apply Th). unfold mbind at 1, M_bind at 1. rewrite M.
    unfold mbind at 1, M_bind at 1, check. rewrite resolve_self;
      [|by apply dir_resolved|by rewrite has_null_app, root_nulls, (has_null_one _ Pid)].
    unfold mbind at 1, M_bind at 1. rewrite user_root_eval, ensure_dir_there by (done || apply Th1).
    unfold mbind at 1, M_bind at 1. rewrite validate_below;
      [|apply Th1|done|by apply dir_resolved|by rewrite has_null_app, root_nulls, (has_null_one _ Pid)].
    cbn [negb]. unfold mbind at 1, M_bind at 1. rewrite Rf. cbv zeta. rewrite T.
    unfold mbind at 1, M_bind at 1. rewrite not_a_directory_eval by done.
    unfold mbind at 1, M_bind at 1, write_text. rewrite write_file; [done|by apply file_place| |apply dir_file_ne].
    rewrite <- snoc_two. destruct (so_files _ (proj1 Th1) id). by destruct Hn as [-> | ->].
  - rewrite at_write; [|done|done|].
    + do 3 f_equal. unfold e. rewrite <- Same. unfold n. destruct (found fs1 id) as [[p|] b]; cbn [fst snd] in *.
      * destruct F as (n' & data & m & _ & _ & _ & -> & ->). cbn. by destruct (bool_decide _).
      * rewrite F. cbn. by destruct b.
    + intros En. unfold n, found in En. by destruct (fs1 !! ((root ++ [id]) ++ [SKILL_FILENAME])).
  - intros id' N. rewrite at_other by done. by apply Oth.
  - intros p P. rewrite outside_write by done. by apply Out.
Qed.

(** Fewer nodes, the directory of the user among them. *)
Lemma there_sub fs fs' : there fs -> tree fs' -> fs' ⊆ fs -> fs' !! root = Some NDir -> there fs'.
Proof.
  intros [O D] T Sub D'. split; [|done]. apply (ok_sub fs); [done..|].
  by apply (tree_parent _ T), dir_node in D'.
Qed.

Lemma there_delete fs p : there fs -> fs !! p <> Some NDir -> there (delete p fs).
Proof.
  intros Th N. apply (there_sub fs); [done|apply tree_delete; [apply Th|done]|apply delete_subseteq|].
  rewrite lookup_delete_ne; [apply Th|]. intros ->. by apply N, Th.
Qed.

(** Moving the file of a skill to its other name. *)
Lemma toggle_eval fs id n n' data m :
  there fs -> plain_name id -> fs !! (root ++ [id]) = Some NDir ->
  fs !! ((root ++ [id]) ++ [n]) = Some (NFile data m) ->
  n = SKILL_FILENAME /\ n' = DISABLED_SKILL_FILENAME \/ n = DISABLED_SKILL_FILENAME /\ n' = SKILL_FILENAME ->
  let fs1 := delete ((root ++ [id]) ++ [n]) (delete ((root ++ [id]) ++ [n']) fs) in
  let fs' := <[(root ++ [id]) ++ [n'] := NFile data m]> fs1 in
  (there_ ← peek (exists_ ((root ++ [id]) ++ [n']));
   _ ← (if there_ : bool then unlink ((root ++ [id]) ++ [n']) else mret tt);
   rename ((root ++ [id]) ++ [n]) ((root ++ [id]) ++ [n'])) fs = (Ok tt, fs') /\
  there fs' /\ skill_at fs' id = Some (Some (mkSkill (bool_decide (n' = SKILL_FILENAME)) data m)) /\
  (forall id', id' <> id -> skill_at fs' id' = skill_at fs id') /\
  (forall p, path_prefix root p = false -> fs' !! p = fs !! p).
Proof.
  intros Th Pid D E Hnn fs1 fs'.
  assert (Hn : n = SKILL_FILENAME \/ n = DISABLED_SKILL_FILENAME) by naive_solver.
  assert (Hn' : n' = SKILL_FILENAME \/ n' = DISABLED_SKILL_FILENAME) by naive_solver.
  assert (Pn : plain_name n) by (destruct Hn as [-> | ->]; apply skill_files_plain).
  assert (Pn' : plain_name n') by (destruct Hn' as [-> | ->]; apply skill_files_plain).
  assert (Nn : (root ++ [id]) ++ [n] <> (root ++ [id]) ++ [n']).
  { intros [_ X]%app_inj_tail. by destruct Hnn as [[-> ->]|[-> ->]]. }
  assert (File : fs !! ((root ++ [id]) ++ [n']) <> Some NDir).
  { rewrite <- snoc_two. destruct (so_files _ (proj1 Th) id). by destruct Hn' as [-> | ->]. }
  pose proof (there_delete fs _ Th File) as Th0. set (fs0 := delete ((root ++ [id]) ++ [n']) fs) in *.
  assert (E0 : fs0 !! ((root ++ [id]) ++ [n]) = Some (NFile data m)) by (unfold fs0; by rewrite lookup_delete_ne).
  assert (D0 : fs0 !! (root ++ [id]) = Some NDir) by (unfold fs0; rewrite lookup_delete_ne; [done|apply not_eq_sym, path_ne; rewrite !length_app; cbn; lia]).
  assert (Th1 : there fs1) by (apply there_delete; [done|by rewrite E0]).
  assert (D1 : fs1 !! (root ++ [id]) = Some NDir) by (unfold fs1; rewrite lookup_delete_ne; [done|apply not_eq_sym, path_ne; rewrite !length_app; cbn; lia]).
  split; [|split; [|split; [|split]]].
  - assert (U : (_ ← (if exists_ ((root ++ [id]) ++ [n']) fs then unlink ((root ++ [id]) ++ [n']) else mret tt);
                 rename ((root ++ [id]) ++ [n]) ((root ++ [id]) ++ [n'])) fs = rename ((root ++ [id]) ++ [n]) ((root ++ [id]) ++ [n']) fs0).
    { unfold exists_. rewrite (file_stat fs id Th Pid D n' Pn'). unfold fs0.
      destruct (fs !! ((root ++ [id]) ++ [n'])) as [x|] eqn:E'.
      - unfold mbind, M_bind, unlink, located. rewrite (file_place fs id Th Pid D false n' Pn'), node_of_lookup. rewrite E'.
        by destruct x.
      - by rewrite delete_id. }
    unfold mbind at 1, M_bind at 1, peek, gets. rewrite U. unfold rename, located.
    rewrite (file_place fs0 id Th0 Pid D0 false n Pn), (file_place fs0 id Th0 Pid D0 false n' Pn').
    rewrite !node_of_lookup, E0, bool_decide_eq_false_2 by done. unfold fs0 at 1. by rewrite lookup_delete_eq.
  - by apply there_write.
  - apply at_write; [done|done|]. intros ->. destruct Hnn as [[-> _]|[_ X]]; [|discriminate X]. apply lookup_delete_eq.
  - intros id' N. unfold fs'. rewrite at_other by done. unfold skill_at, dir_skill, fs1, fs0.
    rewrite !lookup_delete_ne; [done|..]; intros X; rewrite <- ?app_assoc in X; apply app_inv_head in X; cbn in X; congruence.
  - intros p P. unfold fs'. rewrite outside_write by done. unfold fs1, fs0.
    rewrite !lookup_delete_ne; [done|..]; intros <-; by rewrite <- app_assoc, path_prefix_app in P.
Qed.

Lemma enable_eval v sid id e fs :
  validate_segment v = Some uid -> there fs -> validate_segment sid = Some id ->
  match mjoin (skill_at fs id) with
  | None => set_user_skill_enabled dir_stat limit skills_root v sid e fs = (Err skill_not_found, fs)
  | Some s => exists fs', there fs' /\
      set_user_skill_enabled dir_stat limit skills_root v sid e fs = get_user_skill dir_stat limit skills_root v sid fs' /\
      skill_at fs' id = Some (Some (mkSkill e (s_bytes s) (s_time s))) /\
      (forall id', id' <> id -> skill_at fs' id' = skill_at fs id') /\
      (forall p, path_prefix root p = false -> fs' !! p = fs !! p)
  end.
Proof.
  intros V Th Vs. pose proof (validate_segment_safe _ _ Vs) as [_ Pid%safe_plain].
  assert (Start : set_user_skill_enabled dir_stat limit skills_root v sid e fs =
    match fs !! (root ++ [id]) with
    | None => (Err skill_not_found, fs)
    | Some _ =>
        match (found fs id).1 with
        | None => (Err skill_not_found, fs)
        | Some current_file =>
            (_ ← (if Bool.eqb (found fs id).2 e then mret tt
                  else
                    _ ← not_a_directory ((root ++ [id]) ++ [if e then SKILL_FILENAME else DISABLED_SKILL_FILENAME]);
                    there_ ← peek (exists_ ((root ++ [id]) ++ [if e then SKILL_FILENAME else DISABLED_SKILL_FILENAME]));
                    _ ← (if there_ : bool then unlink ((root ++ [id]) ++ [if e then SKILL_FILENAME else DISABLED_SKILL_FILENAME]) else mret tt);
                    rename current_file ((root ++ [id]) ++ [if e then SKILL_FILENAME else DISABLED_SKILL_FILENAME]));
             get_user_skill dir_stat limit skills_root v sid) fs
        end
    end).
  { unfold set_user_skill_enabled. rewrite (FM_bind_ok _ _ fs (root ++ [id]) fs)
      by (rewrite skill_dir_eval, Vs, ensure_dir_there by (done || apply Th); done).
    destruct (fs !! (root ++ [id])) as [x|] eqn:D.
    - rewrite (FM_bind_ok _ _ fs tt fs) by (rewrite (require_skill_eval fs id Th Pid); by rewrite D).
      pose proof (so_children _ (proj1 Th) _ _ D) as ->.
      rewrite (FM_bind_ok _ _ fs _ fs (resolve_skill_file_eval fs id Th Pid D)). by destruct (found fs id) as [[p|] b].
    - by rewrite (FM_bind_err _ _ fs skill_not_found fs) by (rewrite (require_skill_eval fs id Th Pid); by rewrite D). }
  rewrite Start. clear Start. destruct (fs !! (root ++ [id])) as [x|] eqn:D; [|unfold skill_at; by rewrite D].
  pose proof (so_children _ (proj1 Th) _ _ D) as ->.
  pose proof (found_skill fs id Th D) as F. destruct (found fs id) as [[p|] e0]; cbn [fst snd]; [|by rewrite F].
  destruct F as (n & data & m & Hn & -> & E & At & ->). rewrite At. cbn [mjoin option_join s_bytes s_time].
  destruct (Bool.eqb (bool_decide (n = SKILL_FILENAME)) e) eqn:Same.
  - apply eqb_prop in Same as <-. exists fs. split; [done|]. split; [done|]. done.
  - set (n' := if e then SKILL_FILENAME else DISABLED_SKILL_FILENAME).
    assert (Hnn : n = SKILL_FILENAME /\ n' = DISABLED_SKILL_FILENAME \/ n = DISABLED_SKILL_FILENAME /\ n' = SKILL_FILENAME).
    { destruct Hn as [-> | ->]; [left|right]; split; try done; unfold n'; by destruct e. }
    assert (En : e = bool_decide (n' = SKILL_FILENAME)) by (unfold n'; by destruct e).
    destruct (toggle_eval fs id n n' data m Th Pid D E Hnn) as (Run & Th' & At' & Oth & Out).
    eexists. split; [exact Th'|]. split; [|split; [by rewrite En|done]].
    refine (FM_bind_ok _ (fun _ => get_user_skill dir_stat limit skills_root v sid) fs tt _ _).
    rewrite (FM_bind_ok _ _ fs tt fs); [exact Run|]. apply not_a_directory_eval; [done..|]. naive_solver.
Qed.

Lemma remove_below_empty r fs : is_empty_dir r (remove_below r fs) = true.
Proof.
  unfold is_empty_dir. rewrite forallb_forall. intros [p n] H%list_elem_of_In%elem_of_map_to_list. cbn.
  apply remove_below_some in H as [_ ->]. done.
Qed.

Lemma remove_below_here r fs : remove_below r fs !! r = fs !! r.
Proof.
  destruct (fs !! r) as [n|] eqn:E.
  - apply remove_below_some. split; [done|]. unfold strictly_below. by rewrite bool_decide_eq_false_2, andb_false_r by auto.
  - apply map_lookup_filter_None. by left.
Qed.

(** A directory that is removed with what is in it. *)
Lemma remove_eval fs id :
  there fs -> plain_name id -> fs !! (root ++ [id]) = Some NDir ->
  let fs' := delete (root ++ [id]) (remove_below (root ++ [id]) fs) in
  rmtree (root ++ [id]) fs = (Ok tt, fs') /\ there fs' /\ skill_at fs' id = None /\
  (forall id', id' <> id -> skill_at fs' id' = skill_at fs id') /\
  (forall p, path_prefix root p = false -> fs' !! p = fs !! p).
Proof.
  intros Th Pid D fs'. pose proof (proj1 Th) as O.
  assert (Keep : forall q, path_prefix (root ++ [id]) q = false -> fs' !! q = fs !! q).
  { intros q Hq. unfold fs'. rewrite lookup_delete_ne; [by apply remove_below_outside|]. intros <-. by rewrite path_prefix_refl in Hq. }
  assert (Up : path_prefix (root ++ [id]) root = false).
  { destruct (path_prefix _ root) eqn:P; [|done]. apply path_prefix_spec in P as [u P]. apply (f_equal List.length) in P.
    rewrite !length_app in P. cbn in P. lia. }
  assert (Th1 : there (remove_below (root ++ [id]) fs)).
  { apply (there_sub fs); [done|apply tree_remove_below, O|apply remove_below_sub|].
    rewrite remove_below_outside; [apply Th|done]. }
  assert (Pl : forall s, there s -> place false (root ++ [id]) s = Ok (root ++ [id])).
  { intros s Ts. apply place_child; [apply Ts|apply Ts|rewrite node_of_lookup; apply Ts|apply Pid|].
    apply (so_links _ (proj1 Ts)), path_prefix_app. }
  split; [|split; [|split; [|split]]].
  - unfold rmtree, located. rewrite Pl, node_of_lookup, D by done. unfold os_rmdir, located.
    rewrite Pl, node_of_lookup, remove_below_here, D by done. rewrite bool_decide_eq_false_2 by apply dir_file_ne.
    rewrite bool_decide_eq_false_2 by (rewrite last_snoc; intros [= E]; by apply Pid). by rewrite remove_below_empty.
  - apply (there_sub (remove_below (root ++ [id]) fs)); [done| |apply delete_subseteq|rewrite Keep; [apply Th|done]].
    apply tree_rmdir; [apply Th1|apply remove_below_empty].
  - unfold skill_at, fs'. by rewrite lookup_delete_eq.
  - intros id' N. assert (K : forall u, fs' !! (root ++ id' :: u) = fs !! (root ++ id' :: u)).
    { intros u. apply Keep. destruct (path_prefix (root ++ [id]) (root ++ id' :: u)) eqn:P; [|done]. apply path_prefix_spec in P as [w P].
      rewrite <- (app_assoc root [id] w) in P. apply (app_inv_head root (id' :: u) (id :: w)) in P. injection P as P _. by rewrite P in N. }
    unfold skill_at, dir_skill. by rewrite !K.
  - intros p P. apply Keep. destruct (path_prefix (root ++ [id]) p) eqn:E; [|done]. apply path_prefix_spec in E as [u ->].
    by rewrite <- (app_assoc root), path_prefix_app in P.
Qed.

Lemma delete_eval v sid id fs :
  validate_segment v = Some uid -> there fs -> validate_segment sid = Some id ->
  match skill_at fs id with
  | None => delete_user_skill skills_root v sid fs = (Err skill_not_found, fs)
  | Some _ => exists fs', there fs' /\ delete_user_skill skills_root v sid fs = (Ok tt, fs') /\ skill_at fs' id = None /\
      (forall id', id' <> id -> skill_at fs' id' = skill_at fs id') /\
      (forall p, path_prefix root p = false -> fs' !! p = fs !! p)
  end.
Proof.
  intros V Th Vs. pose proof (validate_segment_safe _ _ Vs) as [_ Pid%safe_plain]. unfold delete_user_skill.
  rewrite (FM_bind_ok _ _ fs (root ++ [id]) fs) by (rewrite skill_dir_eval, Vs, ensure_dir_there by (done || apply Th); done).
  unfold skill_at. destruct (fs !! (root ++ [id])) as [x|] eqn:D.
  - pose proof (so_children _ (proj1 Th) _ _ D) as ->.
    destruct (remove_eval fs id Th Pid D) as (Run & Th' & At & Oth & Out). eexists. split; [exact Th'|].
    split; [|split; [exact At|split; [exact Oth|exact Out]]].
    rewrite (FM_bind_ok _ _ fs tt fs) by (rewrite (require_skill_eval fs id Th Pid); by rewrite D).
    rewrite (FM_bind_ok _ _ fs (root ++ [id]) fs)
      by (unfold check; by rewrite resolve_self; [|by apply dir_resolved|by rewrite has_null_app, root_nulls, (has_null_one _ Pid)]).
    rewrite (FM_bind_ok _ _ fs root fs) by (by rewrite user_root_eval, ensure_dir_there by (done || apply Th)).
    rewrite (FM_bind_ok _ _ fs true fs); [exact Run|]. unfold check.
    by rewrite validate_below; [|apply Th|done|apply dir_resolved|by rewrite has_null_app, root_nulls, (has_null_one _ Pid)].
  - by rewrite (FM_bind_err _ _ fs skill_not_found fs) by (rewrite (require_skill_eval fs id Th Pid); by rewrite D).
Qed.

(** ** The listing *)

Lemma entry_names fs n : there fs -> is_Some (fs !! (root ++ [n])) -> plain_name n.
Proof.
  intros [O _] [x E]. split.
  - intros ->. apply (tree_name _ (so_tree _ O)) in E. set_solver.
  - pose proof (so_nulls _ O (root ++ [n]) (path_prefix_app _ _) (ex_intro _ x E)) as Z.
    rewrite has_null_app, orb_false_iff in Z. apply Z.
Qed.

Lemma entries_eval fs m names :
  there fs -> abs fs m -> Forall (fun n => is_Some (fs !! (root ++ [n]))) names ->
  skill_entries dir_stat limit root names fs = (spec_entries limit m names, fs).
Proof.
  intros Th A. induction 1 as [|id names S F IH]; [done|]. cbn [skill_entries spec_entries].
  pose proof (entry_names _ _ Th S) as Pid. destruct S as [x D]. pose proof (so_children _ (proj1 Th) _ _ D) as ->.
  assert (Dir : is_dir (root ++ [id]) fs = true) by (unfold is_dir; by rewrite (dir_stat_node fs id Th Pid), D).
  pose proof (ensure_below_ok fs [] [id] symlink_traversal Th ltac:(set_solver) (up_one _ Pid) eq_refl (has_null_one _ Pid)) as Eb.
  rewrite !app_nil_r in Eb.
  rewrite (FM_bind_ok _ _ fs true fs) by (unfold peek, gets; by rewrite Dir). cbn [negb].
  rewrite A. pose proof (found_skill fs id Th D) as Fd. pose proof (resolve_skill_file_eval fs id Th Pid D) as Rf.
  destruct (found fs id) as [[p|] e].
  - destruct Fd as (n & data & t & Hn & -> & E & -> & _). cbn [mjoin option_join s_bytes s_enabled s_time].
    assert (Pn : plain_name n) by (destruct Hn as [-> | ->]; apply skill_files_plain).
    pose proof (file_place fs id Th Pid D true n Pn) as P. unfold skill_size. cbn [s_bytes].
    set (here := _ ← ensure_below _ _ _; _).
    assert (H : here fs = (if (limit <? Z.of_nat (String.length data))%Z then Err too_large
                           else Ok [mkSkillEntry id e t (Z.of_nat (String.length data))], fs)).
    { subst here. rewrite (FM_bind_ok _ _ fs tt fs Eb), (FM_bind_ok _ _ fs _ fs Rf). cbn [fst snd].
      unfold build_skill_entry, mbind, M_bind. rewrite (ensure_file_eval fs id Th Pid n Hn), (stat_file _ _ _ _ P E (dir_file_ne _ _)).
      cbn [fst snd]. by destruct (_ <? _)%Z. }
    destruct (limit <? _)%Z; [by rewrite (FM_bind_err _ _ fs _ fs H)|]. rewrite (FM_bind_ok _ _ fs _ fs H).
    unfold mbind, M_bind. rewrite IH. by destruct (spec_entries limit m names).
  - rewrite Fd. cbn [mjoin option_join].
    rewrite (FM_bind_ok _ _ fs [] fs) by (rewrite (FM_bind_ok _ _ fs tt fs Eb), (FM_bind_ok _ _ fs _ fs Rf); done).
    unfold mbind, M_bind. rewrite IH. by destruct (spec_entries limit m names).
Qed.

(** [os.listdir] gives the names in the directory, in some order. *)
Hypothesis scandir_spec : forall fs r n, n ∈ scandir fs r <-> is_Some (fs !! (r ++ [n])).

Lemma list_eval v fs m :
  validate_segment v = Some uid -> there fs -> abs fs m ->
  list_user_skills dir_stat scandir limit skills_root v fs = (spec_entries limit m (py_sorted lower (scandir fs root)), fs).
Proof.
  intros V Th A. unfold list_user_skills.
  rewrite (FM_bind_ok _ _ fs root fs) by (by rewrite user_root_eval, ensure_dir_there by (done || apply Th)).
  rewrite (FM_bind_ok _ _ fs (scandir fs root) fs).
  - apply entries_eval; [done..|]. apply Forall_forall. intros n Hn. by apply py_sorted_elem, scandir_spec in Hn.
  - unfold iterdir, located. rewrite root_place by done. rewrite node_of_lookup. by rewrite (proj2 Th).
Qed.

(** ** Refinement *)

Lemma abs_ensure fs m : abs fs m -> abs (ensure_dir root fs) m.
Proof. intros A id. by rewrite ensure_at. Qed.

Lemma ensure_outside fs p : path_prefix root p = false -> ensure_dir root fs !! p = fs !! p.
Proof. intros P. apply ensure_same. intros ->. by rewrite path_prefix_refl in P. Qed.

Lemma abs_insert fs fs' m id x :
  abs fs m -> skill_at fs' id = Some x -> (forall id', id' <> id -> skill_at fs' id' = skill_at fs id') -> abs fs' (<[id := x]> m).
Proof.
  intros A At Oth id'. destruct (decide (id' = id)) as [->|N]; [by rewrite lookup_insert_eq|].
  rewrite lookup_insert_ne by done. by rewrite A, Oth.
Qed.
Lemma abs_delete fs fs' m id :
  abs fs m -> skill_at fs' id = None -> (forall id', id' <> id -> skill_at fs' id' = skill_at fs id') -> abs fs' (delete id m).
Proof.
  intros A At Oth id'. destruct (decide (id' = id)) as [->|N]; [by rewrite lookup_delete_eq|].
  rewrite lookup_delete_ne by done. by rewrite A, Oth.
Qed.

(** The first call makes the directory; from then on nothing of that is seen. *)
Lemma skill_dir_start v sid fs :
  validate_segment v = Some uid -> skills_ok fs ->
  skill_dir skills_root v sid fs = skill_dir skills_root v sid (ensure_dir root fs).
Proof.
  intros V O. pose proof (ensure_there fs O) as Th. rewrite !skill_dir_eval by (done || apply Th). by rewrite (ensure_dir_there _ Th).
Qed.

(** A step that starts where the directory is there. *)
Definition refined (now : Z) (r : skill_request) (fs : fsys) (m : skills) (step : result file_error skill_answer * fsys) : Prop :=
  skills_ok step.2 /\ (forall p, path_prefix root p = false -> step.2 !! p = fs !! p) /\
  exists names, (forall id, is_Some (m !! id) -> id ∈ names) /\ step.1 = (spec_step limit r now names m).1 /\
    abs step.2 (spec_step limit r now names m).2.

Lemma names_there fs m id : there fs -> abs fs m -> is_Some (m !! id) -> id ∈ scandir fs root.
Proof. intros Th A [x E]. apply scandir_spec. rewrite A in E. unfold skill_at in E. by destruct (fs !! (root ++ [id])). Qed.

Lemma refined_there now r fs m a fs' names :
  skills_ok fs' -> (forall p, path_prefix root p = false -> fs' !! p = fs !! p) ->
  (forall id, is_Some (m !! id) -> id ∈ names) -> a = (spec_step limit r now names m).1 ->
  abs fs' (spec_step limit r now names m).2 -> refined now r fs m (a, fs').
Proof. intros O Out N E A. split; [done|]. split; [done|]. by exists names. Qed.

(** A detail that the map agrees with. *)
Lemma detail_run v sid id fs m :
  validate_segment v = Some uid -> there fs -> validate_segment sid = Some id -> abs fs m ->
  (d ← get_user_skill dir_stat limit skills_root v sid; mret (ADetail d)) fs = (ADetail <$> spec_get limit m id, fs).
Proof.
  intros V Th Vs A. unfold mbind, M_bind. rewrite (get_eval v sid id fs V Th Vs). unfold spec_get. rewrite A.
  destruct (mjoin (skill_at fs id)) as [s|]; [|done]. by destruct (spec_detail limit id s).
Qed.

(** The case of a step that has been computed: the names are those of the listing. *)
Ltac refined_as Th names := apply (refined_there _ _ _ _ _ _ names); [apply Th|done|done|cbn|cbn].

Lemma refine_there v now r fs m :
  validate_segment v = Some uid -> there fs -> abs fs m -> refined now r fs m (run_skill v now r fs).
Proof.
  intros V Th A. assert (N : forall id, is_Some (m !! id) -> id ∈ scandir fs root) by (intros id; by apply names_there).
  assert (Bad : forall A (f : path -> FM A) sid, validate_segment sid = None ->
            (d ← skill_dir skills_root v sid; f d) fs = (Err (ValueErr "invalid skill id"), fs)).
  { intros A' f sid Vs. apply FM_bind_err. by rewrite skill_dir_eval, Vs, ensure_dir_there by (done || apply Th). }
  destruct r as [|sid|sid c|sid e|sid]; cbn [run_skill].
  - unfold mbind at 1, M_bind at 1. rewrite (list_eval v fs m V Th A).
    destruct (spec_entries limit m _) as [l|e] eqn:E; (eapply (refined_there _ _ _ _ _ _ (scandir fs root)); [apply Th|done|done| |done]);
      cbn; by rewrite E.
  - destruct (validate_segment sid) as [id|] eqn:Vs.
    + rewrite (detail_run v sid id fs m V Th Vs A).
      refined_as Th (scandir fs root); [by rewrite Vs|by rewrite Vs].
    + rewrite (FM_bind_err _ _ fs (ValueErr "invalid skill id") fs) by exact (Bad _ _ sid Vs).
      refined_as Th (scandir fs root); [by rewrite Vs|by rewrite Vs].
  - destruct (limit <? utf8_len c)%Z eqn:Sz.
    { rewrite (FM_bind_err _ _ fs (ValueErr "skill content exceeds size limit") fs) by (unfold upsert_user_skill; by rewrite Sz).
      refined_as Th (scandir fs root); [by rewrite Sz|by rewrite Sz]. }
    destruct (validate_segment sid) as [id|] eqn:Vs.
    + destruct (put_eval v sid id c now fs V Th Vs Sz) as (fs' & Th' & Run & At & Oth & Out).
      rewrite (FM_bind_from _ _ _ _ _ Run).
      pose proof (abs_insert _ _ _ _ _ A At Oth) as A'. rewrite (detail_run v sid id fs' _ V Th' Vs A').
      refined_as Th' (scandir fs root); [rewrite Sz, Vs, A; done|rewrite Sz, Vs, A; exact A'].
    + rewrite (FM_bind_err _ _ fs (ValueErr "invalid skill id") fs) by (unfold upsert_user_skill; rewrite Sz; exact (Bad _ _ sid Vs)).
      refined_as Th (scandir fs root); [by rewrite Sz, Vs|by rewrite Sz, Vs].
  - destruct (validate_segment sid) as [id|] eqn:Vs.
    + pose proof (enable_eval v sid id e fs V Th Vs) as En. rewrite <- A in En. destruct (mjoin (m !! id)) as [s|] eqn:Em.
      * destruct En as (fs' & Th' & Run & At & Oth & Out). rewrite (FM_bind_from _ _ _ _ _ Run).
        pose proof (abs_insert _ _ _ _ _ A At Oth) as A'. rewrite (detail_run v sid id fs' _ V Th' Vs A').
        refined_as Th' (scandir fs root); [rewrite Vs, Em; done|rewrite Vs, Em; exact A'].
      * rewrite (FM_bind_err _ _ fs _ fs En).
        refined_as Th (scandir fs root); [by rewrite Vs, Em|by rewrite Vs, Em].
    + rewrite (FM_bind_err _ _ fs (ValueErr "invalid skill id") fs) by exact (Bad _ _ sid Vs).
      refined_as Th (scandir fs root); [by rewrite Vs|by rewrite Vs].
  - destruct (validate_segment sid) as [id|] eqn:Vs.
    + pose proof (delete_eval v sid id fs V Th Vs) as De. destruct (skill_at fs id) as [x|] eqn:At0.
      * destruct De as (fs' & Th' & Run & At & Oth & Out). rewrite (FM_bind_ok _ _ fs tt fs' Run).
        pose proof (abs_delete _ _ _ _ A At Oth) as A'.
        refined_as Th' (scandir fs root); [by rewrite Vs, A, At0|rewrite Vs, A, At0; exact A'].
      * rewrite (FM_bind_err _ _ fs _ fs De).
        refined_as Th (scandir fs root); [by rewrite Vs, A, At0|by rewrite Vs, A, At0].
    + rewrite (FM_bind_err _ _ fs (ValueErr "invalid skill id") fs) by exact (Bad _ _ sid Vs).
      refined_as Th (scandir fs root); [by rewrite Vs|by rewrite Vs].
Qed.

Lemma run_start v now r fs :
  validate_segment v = Some uid -> skills_ok fs ->
  run_skill v now r fs = run_skill v now r (ensure_dir root fs) \/
  exists sid c, r = SPut sid c /\ (limit <? utf8_len c)%Z = true /\
    run_skill v now r fs = (Err (ValueErr "skill content exceeds size limit"), fs).
Proof.
  intros V O. pose proof (ensure_there fs O) as Th. pose proof (fun sid => skill_dir_start v sid fs V O) as S.
  destruct r as [|sid|sid c|sid e|sid]; cbn [run_skill].
  - left. do 2 apply FM_bind_same. rewrite !user_root_eval by (done || apply Th). by rewrite (ensure_dir_there _ Th).
  - left. do 2 apply FM_bind_same. apply S.
  - destruct (limit <? utf8_len c)%Z eqn:Sz; [right|left].
    + exists sid, c. split; [done|]. split; [done|]. apply FM_bind_err. unfold upsert_user_skill. by rewrite Sz.
    + apply FM_bind_same. unfold upsert_user_skill. rewrite Sz. apply FM_bind_same, S.
  - left. do 2 apply FM_bind_same. apply S.
  - left. do 2 apply FM_bind_same. apply S.
Qed.

(** C10: The directory of a user implements a map of skills. Where there are no links in
    it and its entries are directories, every call for that user answers as the abstract
    machine does, error by error, and leaves the directory as the map says; what is not
    below the directory of the user is as it was. The listing visits the names in the
    order of [sorted], those that differ in their case only as the system lists them. *)
Theorem skills_refine v now r fs m :
  validate_segment v = Some uid -> skills_ok fs -> abs fs m ->
  let step := run_skill v now r fs in
  let spec names := spec_step limit r now names m in
  skills_ok step.2 /\ (forall p, path_prefix root p = false -> step.2 !! p = fs !! p) /\
  exists names, (forall id, is_Some (m !! id) -> id ∈ names) /\ step.1 = (spec names).1 /\ abs step.2 (spec names).2.
Proof.
  intros V O A step spec. pose proof (ensure_there fs O) as Th. pose proof (abs_ensure fs m A) as A1. subst step spec. cbv beta.
  destruct (run_start v now r fs V O) as [->|(sid & c & -> & Sz & ->)].
  - destruct (refine_there v now r _ m V Th A1) as (O' & Out & names & N & E & A'). split; [done|]. split; [|by exists names].
    intros p P. rewrite Out by done. by apply ensure_outside.
  - split; [done|]. split; [done|]. exists (scandir (ensure_dir root fs) root).
    split; [intros id; by apply names_there|]. cbn. by rewrite Sz.
Qed.
End refinement.

(** ** A concrete directory *)

Lemma names_in_spec fs r n : n ∈ names_in fs r <-> is_Some (fs !! (r ++ [n])).
Proof.
  unfold names_in. rewrite list_elem_of_omap. split.
  - intros ([p x] & E & L). cbn in L. destruct (last p) as [k|]; [|done]. case_bool_decide as D; [|done].
    injection L as ->. subst p. apply elem_of_map_to_list in E. by exists x.
  - intros [x E]. exists (r ++ [n], x). split; [by apply elem_of_map_to_list|]. cbn. rewrite last_snoc.
    by rewrite bool_decide_eq_true_2.
Qed.

Lemma skills_tree_ok : skills_ok ["d"; "skills"] "u" skills_tree.
Proof.
  assert (E : forall p x, skills_tree !! p = Some x -> p = ["d"] \/ p = ["d"; "skills"]).
  { intros p x H. unfold skills_tree in H. apply elem_of_list_to_map_2 in H. set_solver. }
  split.
  - apply tree_check_ok. vm_compute. reflexivity.
  - vm_compute. reflexivity.
  - apply resolved_check_ok. vm_compute. reflexivity.
  - left. vm_compute. reflexivity.
  - intros p P. unfold is_link. destruct (skills_tree !! p) eqn:L; [|done]. by apply E in L as [-> | ->].
  - intros id. split; intros L; by apply E in L as [L|L].
  - intros id n L. by apply E in L as [L|L].
  - intros p P [n L]. by apply E in L as [-> | ->].
Qed.

Lemma skills_refine_witness :
  let step := run_skill no_stat names_in 100 ["d"; "skills"] "u" 5 (SPut "writer" "# Writer") skills_tree in
  let spec names := spec_step 100 (SPut "writer" "# Writer") 5 names ∅ in
  skills_ok ["d"; "skills"] "u" step.2 /\
  (forall p, path_prefix ["d"; "skills"; "u"] p = false -> step.2 !! p = skills_tree !! p) /\
  exists names, (forall id, is_Some ((∅ : skills) !! id) -> id ∈ names) /\ step.1 = (spec names).1 /\
    abs ["d"; "skills"] "u" step.2 (spec names).2.
Proof.
  apply (skills_refine no_stat names_in 100 ["d"; "skills"] "u" eq_refl eq_refl names_in_spec "u" 5
           (SPut "writer" "# Writer") skills_tree ∅ eq_refl skills_tree_ok).
  intros id. rewrite lookup_empty. unfold skill_at.
  destruct (skills_tree !! ((["d"; "skills"] ++ ["u"]) ++ [id])) as [x|] eqn:L; [|done].
  unfold skills_tree in L. apply elem_of_list_to_map_2 in L. set_solver.
Defined.
