(* ===== verification/ChatSocket.v ===== *)
(** * The chat websocket ([app/routes/websocket.py], [app/websocket.py])

    A client of [/ws/{group_folder}] sends prompts, which run one at a time through the
    coordinator, and sees what is broadcast to the room of its group. A system is the
    coordinator with the connections over it: the endpoint of each connection, the tasks
    that wait for its runs ([wait_for_result]) and the broadcasts of its event handler, all
    suspended at their [await]s. Sending to a client is one step, which can raise; the other
    callers of the coordinator, its workers and backends can come in between. *)

From stdpp Require Import base gmap strings list option.
From Stdlib Require Import ZArith Ascii.
From S2P Require Import Prelude PyStr PyDict PyJson Execution Coordinator Settings AgentTrigger.

(** ** Rooms ([ConnectionManager]) *)

Abbreviation rooms := (gmap string (gset nat)).
(** [_room_connections]. *)
Definition room_connections (room : string) (m : rooms) : gset nat := default ∅ (m !! room).
Definition join_room (i : nat) (room : string) (m : rooms) : rooms :=
  <[room := room_connections room m ∪ {[i]}]> m.
Definition leave_room (i : nat) (room : string) (m : rooms) : rooms :=
  match m !! room with
  | None => m
  | Some c => let c := c ∖ {[i]} in if bool_decide (c = ∅) then delete room m else <[room := c]> m
  end.
Definition connection_count (room : string) (m : rooms) : nat := size (room_connections room m).

(** ** Messages *)

(** [_parse_cancel_run_id]; a [ValueError] that is not a [JSONDecodeError] is not caught. *)
Definition parse_cancel_run_id (message : string) : result json_error (option string) :=
  match json_loads message with
  | Ok (JObj payload) =>
      Ok (if is_str (field "type" payload) "cancel" then
            match field "run_id" payload with
            | JStr r => if bool_decide (r = "") then None else Some r
            | _ => None
            end
          else None)
  | Ok _ | Err JDecodeError => Ok None
  | Err e => Err e
  end.
(** [_is_run_started_message]. *)
Definition is_run_started_message (message : string) : result json_error bool :=
  match json_loads message with
  | Ok (JObj payload) => Ok (is_str (field "event_type" payload) "run.started")
  | Ok _ | Err JDecodeError => Ok false
  | Err e => Err e
  end.

Definition terminal_event (e : RunEvent) : bool :=
  bool_decide (ev_type e ∈ ["run.completed"; "run.failed"; "run.timeout"]).
Definition optional_str (s : option string) : json := match s with Some s => JStr s | None => JNull end.
Definition failed_event (run_id error : string) : RunEvent := mkRunEvent "run.failed" run_id [("error", JStr error)].
Definition cancelled_event (run_id : string) : RunEvent := mkRunEvent "run.failed" run_id [("status", JStr "cancelled")].

(** Whom a message goes to: the client itself, or the room. *)
Inductive audience := ToSelf | ToRoom.
(** [emit_terminal_event]: nothing, or an event. *)
Definition emit_terminal_event (terminal_event_seen : bool) (r : ExecutionResult) : option (audience * RunEvent) :=
  if terminal_event_seen && bool_decide (rs_status r ∈ [StCompleted; StFailed; StTimeout]) then None
  else
    match rs_status r with
    | StCancelled => Some (ToSelf, cancelled_event (rs_run_id r))
    | StTimeout =>
        Some (ToRoom, mkRunEvent "run.timeout" (rs_run_id r)
          [("status", JStr "timeout");
           ("timeout_ms", match rs_timeout_ms r with Some n => JInt n | None => JNull end)])
    | StCompleted =>
        if bool_decide (rs_backend r = "openai_runtime") then None
        else Some (ToRoom, completed_event (rs_run_id r) (optional_str (rs_final_output r)))
    | StFailed =>
        let error := match rs_error r with
                     | Some e => if bool_decide (e = "") then "execution failed" else e
                     | None => "execution failed"
                     end in
        Some (ToRoom, failed_event (rs_run_id r) error)
    | _ => None
    end.

(** ** Connections and their tasks *)

(** Where an endpoint is: waiting for a message; for the task it has cancelled, after a
    cancel message; for the answer to that to be sent; for its task, on the way out. *)
Inductive phase := PReceiving | PCleaning (run_id : string) (t : nat) | PTelling (run_id : string) | PLeaving (t : nat) | POver.

(** [so_runs], the runs it has submitted, and the origins in [so_frames], what it has been
    sent, are history. *)
Record socket := mkSocket {
  so_room : string;
  so_phase : phase;
  so_active_run : option string;
  so_active_task : option nat;
  so_seen : bool;
  so_runs : list string;
  so_frames : list (nat * string)
}.
Definition with_phase (p : phase) (x : socket) : socket :=
  mkSocket (so_room x) p (so_active_run x) (so_active_task x) (so_seen x) (so_runs x) (so_frames x).
Definition with_active (r : option string) (t : option nat) (x : socket) : socket :=
  mkSocket (so_room x) (so_phase x) r t (so_seen x) (so_runs x) (so_frames x).
Definition with_seen (b : bool) (x : socket) : socket :=
  mkSocket (so_room x) (so_phase x) (so_active_run x) (so_active_task x) b (so_runs x) (so_frames x).
Definition with_run (r : string) (x : socket) : socket :=
  mkSocket (so_room x) (so_phase x) (so_active_run x) (so_active_task x) (so_seen x) (so_runs x ++ [r]) (so_frames x).
Definition with_frame (origin : nat) (m : string) (x : socket) : socket :=
  mkSocket (so_room x) (so_phase x) (so_active_run x) (so_active_task x) (so_seen x) (so_runs x) (so_frames x ++ [(origin, m)]).

(** A task in [wait_for_result]: not started, awaiting the future of its run, sending (what,
    to whom still, and whether this is the [except] branch already), over. *)
Inductive waiter_state :=
| WNew
| WWaiting (f : nat)
| WSending (m : string) (todo : gset nat) (failing : bool)
| WDone.
Record waiter := mkWaiter { wt_socket : nat; wt_run : string; wt_cancel : bool; wt_state : waiter_state }.
Definition with_state (st : waiter_state) (w : waiter) : waiter := mkWaiter (wt_socket w) (wt_run w) (wt_cancel w) st.

(** A call of [broadcast_event] under way. *)
Record broadcast := mkBroadcast { bc_origin : nat; bc_message : string; bc_todo : gset nat }.

(** The calls made on the coordinator, in [ch_trace], are history. *)
Record chat := mkChat {
  ch_coordinator : coordinator;
  ch_trace : list (event * output);
  ch_rooms : rooms;
  ch_sockets : gmap nat socket;
  ch_waiters : gmap nat waiter;
  ch_broadcasts : gmap nat broadcast
}.
Definition init_chat : chat := mkChat init_coordinator [] ∅ ∅ ∅ ∅.
Definition with_rooms (m : rooms) (y : chat) : chat :=
  mkChat (ch_coordinator y) (ch_trace y) m (ch_sockets y) (ch_waiters y) (ch_broadcasts y).
Definition with_sockets (m : gmap nat socket) (y : chat) : chat :=
  mkChat (ch_coordinator y) (ch_trace y) (ch_rooms y) m (ch_waiters y) (ch_broadcasts y).
Definition with_waiters (m : gmap nat waiter) (y : chat) : chat :=
  mkChat (ch_coordinator y) (ch_trace y) (ch_rooms y) (ch_sockets y) m (ch_broadcasts y).
Definition with_broadcasts (m : gmap nat broadcast) (y : chat) : chat :=
  mkChat (ch_coordinator y) (ch_trace y) (ch_rooms y) (ch_sockets y) (ch_waiters y) m.
Definition set_socket (i : nat) (x : socket) (y : chat) : chat := with_sockets (<[i := x]> (ch_sockets y)) y.
Definition set_waiter (t : nat) (w : waiter) (y : chat) : chat := with_waiters (<[t := w]> (ch_waiters y)) y.
(** [send_text] to a client that takes it. *)
Definition send_text (i origin : nat) (m : string) (y : chat) : chat :=
  with_sockets (alter (with_frame origin m) i (ch_sockets y)) y.

Section chat.
Context {POL : ExecutionPolicyProtocol}.
Variable backends : list string.
Variable max_completed_runs : nat.
Variable uuid4_hex : nat -> string.
Variable utcnow : nat -> Z.
Variable float_repr : string -> string.

(** A call of the coordinator. *)
Definition act (ev : event) (y : chat) : option (output * chat) :=
  '(out, c) ← step backends max_completed_runs uuid4_hex utcnow (ch_coordinator y) ev;
  Some (out, mkChat c (ch_trace y ++ [(ev, out)]) (ch_rooms y) (ch_sockets y) (ch_waiters y) (ch_broadcasts y)).

(** The receivers of a message of connection [i]. *)
Definition audience_of (i : nat) (room : string) (a : audience) (y : chat) : gset nat :=
  match a with ToSelf => {[i]} | ToRoom => room_connections room (ch_rooms y) end.
(** [ConnectionScopedBroadcaster.send_message]. *)
Definition scoped_audience (m : string) : result json_error audience :=
  b ← is_run_started_message m; Ok (if (b : bool) then ToSelf else ToRoom).

(** *** [wait_for_result] *)

(** Its [finally]: the variables of the connection are reset if they are still its own. *)
Definition waiter_finally (t : nat) (w : waiter) (y : chat) : chat :=
  let reset x :=
    with_active (if bool_decide (so_active_run x = Some (wt_run w)) then None else so_active_run x)
                (if bool_decide (so_active_task x = Some t) then None else so_active_task x) x in
  set_waiter t (with_state WDone w) (with_sockets (alter reset (wt_socket w) (ch_sockets y)) y).
(** Sending to what is left of the audience, or the end. *)
Definition waiter_sends (t : nat) (w : waiter) (m : string) (todo : gset nat) (failing : bool) (y : chat) : chat :=
  if bool_decide (todo = ∅) then waiter_finally t w y else set_waiter t (with_state (WSending m todo failing) w) y.
(** Its [except Exception]: the room is told. *)
Definition waiter_fails (t : nat) (w : waiter) (exc : string) (y : chat) : chat :=
  let room := match ch_sockets y !! wt_socket w with Some x => so_room x | None => "" end in
  waiter_sends t w (serialize_run_event float_repr (failed_event (wt_run w) exc)) (room_connections room (ch_rooms y)) true y.
(** It has the result; [exc] is the text of what the encoding raises. *)
Definition waiter_emits (t : nat) (w : waiter) (r : ExecutionResult) (exc : string) (y : chat) : option chat :=
  x ← ch_sockets y !! wt_socket w;
  match emit_terminal_event (so_seen x) r with
  | None => Some (waiter_finally t w y)
  | Some (ToSelf, e) => Some (waiter_sends t w (serialize_run_event float_repr e) {[wt_socket w]} false y)
  | Some (ToRoom, e) =>
      let m := serialize_run_event float_repr e in
      match scoped_audience m with
      | Ok a => Some (waiter_sends t w m (audience_of (wt_socket w) (so_room x) a y) false y)
      | Err JOutOfRange => None
      | Err _ => Some (waiter_fails t w exc y)
      end
  end.
(** The future is awaited. *)
Definition waiter_awaits (t : nat) (w : waiter) (f : nat) (exc : string) (y : chat) : option chat :=
  match futures (ch_coordinator y) !! f with
  | Some FPending => Some (set_waiter t (with_state (WWaiting f) w) y)
  | Some (FResult r) => waiter_emits t w r exc y
  | Some FCancelled => Some (waiter_finally t w y)
  | None => None
  end.
(** The task runs: from its start, from its future, or into its cancellation. A task that is
    cancelled before it starts never enters its body. [exc] is the text of an
    exception. *)
Definition run_waiter (t : nat) (exc : string) (y : chat) : option chat :=
  w ← ch_waiters y !! t;
  match wt_state w with
  | WDone => None
  | WNew =>
      if wt_cancel w then Some (set_waiter t (with_state WDone w) y)
      else
        match wait_for_run (wt_run w) (ch_coordinator y) with
        | WaitResult r => waiter_emits t w r exc y
        | WaitFuture f => waiter_awaits t w f exc y
        | WaitKeyError => Some (waiter_fails t w exc y)
        end
  | WWaiting f =>
      if wt_cancel w then Some (waiter_finally t w y)
      else
        match futures (ch_coordinator y) !! f with
        | Some FPending => None
        | _ => waiter_awaits t w f exc y
        end
  | WSending _ _ _ => if wt_cancel w then Some (waiter_finally t w y) else None
  end.
(** A send of the task ends; [exc] is the text of what it raises. *)
Definition waiter_send (t j : nat) (ok : bool) (exc : string) (y : chat) : option chat :=
  w ← ch_waiters y !! t;
  match wt_state w with
  | WSending m todo failing =>
      if bool_decide (j ∈ todo) && negb (wt_cancel w) then
        Some (if ok then waiter_sends t w m (todo ∖ {[j]}) failing (send_text j (wt_socket w) m y)
              else if failing then waiter_finally t w y
              else waiter_fails t w exc y)
      else None
  | _ => None
  end.
(** [task.cancel()]: the future it awaits is cancelled, or the task is when it runs next. *)
Definition cancel_task (t : nat) (y : chat) : option chat :=
  match ch_waiters y !! t with
  | None => Some y
  | Some w =>
      let flag := set_waiter t (mkWaiter (wt_socket w) (wt_run w) true (wt_state w)) y in
      match wt_state w with
      | WDone => Some y
      | WWaiting f =>
          match futures (ch_coordinator y) !! f with
          | Some FPending => snd <$> act (WaiterCancelled f) y
          | _ => Some flag
          end
      | _ => Some flag
      end
  end.

(** *** The endpoint *)

(** [manager.connect], after [accept]. *)
Definition connect (i : nat) (room : string) (y : chat) : chat :=
  set_socket i (mkSocket room PReceiving None None false [] []) (with_rooms (join_room i room (ch_rooms y)) y).
Definition disconnect (i : nat) (x : socket) (y : chat) : chat :=
  set_socket i (with_phase POver x) (with_rooms (leave_room i (so_room x) (ch_rooms y)) y).

(** The [finally] of the endpoint up to its first suspension. *)
Definition leave (i : nat) (x : socket) (y : chat) : option chat :=
  let clean y :=
    match so_active_task x with
    | None => Some (disconnect i x y)
    | Some t => y ← cancel_task t y; Some (set_socket i (with_phase (PLeaving t) x) y)
    end in
  match so_active_run x with
  | None => clean y
  | Some r =>
      '(out, y) ← act (Cancel r) y;
      match out with OBool None => Some (set_socket i (with_phase POver x) y) | _ => clean y end
  end.

(** A cancel message for the active run. *)
Definition request_cancel (i : nat) (x : socket) (r : string) (y : chat) : option chat :=
  '(out, y) ← act (Cancel r) y;
  match out with
  | OBool None => leave i x y
  | _ =>
      match so_active_task x with
      | None => Some (set_socket i (with_phase (PTelling r) (with_seen true (with_active None None x))) y)
      | Some t => y ← cancel_task t y; Some (set_socket i (with_phase (PCleaning r t) x) y)
      end
  end.

Definition prompt_request (i : nat) (group message : string) : ExecutionRequest :=
  mkRequest group group "websocket-user" message SrcWeb "main" None None false None (Some i).
(** A prompt: a run is submitted and a task is created that waits for it, under the name [t]. *)
Definition submit_prompt (i : nat) (x : socket) (message : string) (t : nat) (y : chat) : option chat :=
  '(out, y) ← act (Submit (prompt_request i (so_room x) message)) y;
  match out, ch_waiters y !! t with
  | OHandle h, None =>
      let r := hd_run_id h in
      Some (set_socket i (with_run r (with_active (Some r) (Some t) (with_seen false x)))
             (set_waiter t (mkWaiter i r false WNew) y))
  | _, _ => None
  end.
Definition task_done (t : option nat) (y : chat) : bool :=
  match t with
  | None => true
  | Some t => match ch_waiters y !! t with
              | Some w => match wt_state w with WDone => true | _ => false end
              | None => true
              end
  end.

(** A message. *)
Definition receive (i : nat) (x : socket) (message : string) (t : nat) (y : chat) : option chat :=
  match parse_cancel_run_id message with
  | Err JOutOfRange => None
  | Err _ => leave i x y
  | Ok (Some r) => if bool_decide (so_active_run x = Some r) then request_cancel i x r y else Some y
  | Ok None =>
      if bool_decide (strip message = "") then Some y
      else if negb (task_done (so_active_task x) y) then Some y
      else submit_prompt i x message t y
  end.

(** The cancelled task has ended. *)
Definition cleaned (i : nat) (x : socket) (y : chat) : option chat :=
  match so_phase x with
  | PCleaning r t =>
      if task_done (Some t) y then
        Some (set_socket i (with_phase (PTelling r) (with_seen true (with_active None None x))) y)
      else None
  | PLeaving t => if task_done (Some t) y then Some (disconnect i x y) else None
  | _ => None
  end.
(** The answer to a cancel message has been sent, or sending it has raised. *)
Definition told (i : nat) (x : socket) (ok : bool) (y : chat) : option chat :=
  match so_phase x with
  | PTelling r =>
      if ok then
        Some (set_socket i (with_phase PReceiving (with_frame i (serialize_run_event float_repr (cancelled_event r)) x)) y)
      else leave i x y
  | _ => None
  end.

(** *** [broadcast_event] *)

(** The backend calls the event handler of connection [i]; [b] names the call. *)
Definition emit (i : nat) (e : RunEvent) (b : nat) (y : chat) : option chat :=
  x ← ch_sockets y !! i;
  match ch_broadcasts y !! b with
  | Some _ => None
  | None =>
      let x := if terminal_event e then with_seen true x else x in
      let m := serialize_run_event float_repr e in
      let y := set_socket i x y in
      match scoped_audience m with
      | Ok a => Some (with_broadcasts (<[b := mkBroadcast i m (audience_of i (so_room x) a y)]> (ch_broadcasts y)) y)
      | Err JOutOfRange => None
      | Err _ => Some y
      end
  end.
(** A send of it ends; when it raises, so does the handler. *)
Definition broadcast_send (b j : nat) (ok : bool) (y : chat) : option chat :=
  x ← ch_broadcasts y !! b;
  if bool_decide (j ∈ bc_todo x) then
    Some (if ok then
            with_broadcasts (<[b := mkBroadcast (bc_origin x) (bc_message x) (bc_todo x ∖ {[j]})]> (ch_broadcasts y))
              (send_text j (bc_origin x) (bc_message x) y)
          else with_broadcasts (<[b := mkBroadcast (bc_origin x) (bc_message x) ∅]> (ch_broadcasts y)) y)
  else None.

(** *** Steps *)

Inductive chat_event :=
| VConnect (i : nat) (room : string)
| VReceive (i : nat) (message : string) (t : nat)
| VDisconnect (i : nat)
| VCleaned (i : nat)
| VTold (i : nat) (ok : bool)
| VWaiter (t : nat) (exc : string)
| VWaiterSend (t j : nat) (ok : bool) (exc : string)
| VEmit (i : nat) (e : RunEvent) (b : nat)
| VBroadcastSend (b j : nat) (ok : bool)
| VOther (ev : event).

(** A connection whose endpoint waits for a message. *)
Definition receiving (x : socket) : bool := match so_phase x with PReceiving => true | _ => false end.

Definition chat_step (y : chat) (ev : chat_event) : option chat :=
  match ev with
  | VConnect i room => match ch_sockets y !! i with None => Some (connect i room y) | Some _ => None end
  | VReceive i message t => x ← ch_sockets y !! i; if receiving x then receive i x message t y else None
  | VDisconnect i => x ← ch_sockets y !! i; if receiving x then leave i x y else None
  | VCleaned i => x ← ch_sockets y !! i; cleaned i x y
  | VTold i ok => x ← ch_sockets y !! i; told i x ok y
  | VWaiter t exc => run_waiter t exc y
  | VWaiterSend t j ok exc => waiter_send t j ok exc y
  | VEmit i e b => emit i e b y
  | VBroadcastSend b j ok => broadcast_send b j ok y
  | VOther ev => snd <$> act ev y
  end.

Fixpoint run_chat (evs : list chat_event) (y : chat) : option chat :=
  match evs with
  | [] => Some y
  | ev :: evs => y ← chat_step y ev; run_chat evs y
  end.
End chat.
