(* ===== verification/ChatSocketProps.v ===== *)
(** * Properties of the chat websocket *)

From stdpp Require Import base gmap strings list option.
From Stdlib Require Import ZArith Lia Ascii.
From S2P Require Import Prelude PyStr PyDict PyJson PyJsonProps Workspace Execution Coordinator CoordinatorInv CoordinatorStore CoordinatorSafety CoordinatorLife CoordinatorRuns CoordinatorLive Settings AgentTrigger ChatSocket.

Section props.
Context {POL : ExecutionPolicyProtocol}.
Variable backends : list string.
Variable max_runs : nat.
Variable uuid4_hex : nat -> string.
Variable utcnow : nat -> Z.
Variable float_repr : string -> string.

Local Abbreviation good_reach := (good_reach backends max_runs uuid4_hex utcnow).
Local Abbreviation coordinator_step := (step backends max_runs uuid4_hex utcnow).
Local Abbreviation act := (act backends max_runs uuid4_hex utcnow).
Local Abbreviation chat_step := (chat_step backends max_runs uuid4_hex utcnow float_repr).

(** ** Runs seen from outside the coordinator *)

Definition settled (c : coordinator) (r : string) : Prop := ~ nonterm (statuses c !! r).
(** The future [f] is that of the run [r], or was and carries a result. *)
Definition tracks (c : coordinator) (r : string) (f : nat) : Prop :=
  f < next_id c /\
  (run_futures c !! r = Some f \/ (settled c r /\ exists res, futures c !! f = Some (FResult res))).
(** What an event leaves of what is known of the runs [ids]. *)
Record follows (ids : list string) (c c' : coordinator) : Prop := {
  fo_settled : forall r, r ∈ ids -> settled c r -> settled c' r;
  fo_tracks : forall r f, r ∈ ids -> tracks c r f -> tracks c' r f
}.

Lemma advance_nonterm a b : advance a b -> nonterm b -> nonterm a.
Proof. destruct a as [[]|], b as [[]|]; unfold nonterm; simpl; naive_solver. Qed.

Lemma tracks_settled ids c r f :
  life_inv ids None None c -> tracks c r f -> settled c r -> exists res, futures c !! f = Some (FResult res).
Proof.
  intros L [_ [H|[_ H]]] S; [|done]. destruct S. apply (lf_fut _ _ _ _ L). by exists f.
Qed.
Lemma tracks_result ids c r f res :
  life_inv ids None None c -> tracks c r f -> futures c !! f = Some (FResult res) -> settled c r.
Proof.
  intros L [_ [H|[H _]]] E; [|done]. destruct (lf_fut_pending _ _ _ _ L _ _ H) as [_ P]. congruence.
Qed.
Lemma tracks_future ids c r f :
  life_inv ids None None c -> tracks c r f -> futures c !! f <> Some FCancelled /\ futures c !! f <> None.
Proof.
  intros L [_ [H|[_ [res ->]]]]; [|done]. by destruct (lf_fut_pending _ _ _ _ L _ _ H) as [_ ->].
Qed.

Lemma ensure_worker_futures g c :
  run_futures (ensure_worker g c) = run_futures c /\ futures (ensure_worker g c) = futures c /\
  next_id c <= next_id (ensure_worker g c).
Proof.
  unfold ensure_worker. destruct (match group_workers c !! g with Some _ => _ | None => _ end); cbn;
    (split; [done|split; [done|lia]]).
Qed.
Lemma submit_futures req c :
  let p := submit_execution uuid4_hex utcnow req c in
  run_futures p.2 = <[hd_run_id p.1 := next_id c]> (run_futures c) /\
  futures p.2 = <[next_id c := FPending]> (futures c) /\ next_id c < next_id p.2.
Proof.
  unfold submit_execution.
  set (q := match rq_request_id req with Some _ => _ | None => _ end).
  assert (run_futures q.2 = run_futures c /\ futures q.2 = futures c /\ next_id q.2 = next_id c) as (E1 & E2 & E3)
    by (unfold q; repeat case_match; done).
  destruct q as [r s]. simpl in E1, E2, E3. rewrite <- E1, <- E2, <- E3. cbn [fst snd hd_run_id read_clock].
  match goal with |- context [ensure_worker ?g ?x] =>
    destruct (ensure_worker_futures g x) as (A & B & N); generalize dependent (ensure_worker g x) end.
  intros s' -> -> N. split; [done|]. split; [done|]. cbn in N. lia.
Qed.

Lemma progress_follows ids c c' :
  life_inv ids None None c -> life_inv ids None None c' -> progress c c' -> follows ids c c'.
Proof.
  intros L L' P.
  assert (S : forall r, settled c r -> settled c' r).
  { intros r S N. apply S. eapply advance_nonterm, N. apply (pr_status _ _ P). }
  split; [auto|]. intros r f _ [B T]. split; [pose proof (pr_next _ _ P); lia|].
  destruct T as [T|[T [res E]]].
  - destruct (pr_future _ _ P _ _ T) as [T'|(res & _ & E)]; [by left|]. right. split; [|by exists res].
    intros N. apply (lf_fut _ _ _ _ L') in N as [f' H]. pose proof (pr_owner _ _ P _ _ H) as H'.
    destruct (lf_fut_pending _ _ _ _ L' _ _ H) as [_ E']. congruence.
  - right. split; [auto|]. exists res. by apply (pr_result _ _ P).
Qed.

Lemma used_other tr ev out : (forall h, out <> OHandle h) -> used (tr ++ [(ev, out)]) = used tr.
Proof. intros H. unfold used. rewrite omap_app. destruct out as [h| | |]; [by destruct (H h)|by rewrite app_nil_r..]. Qed.

Lemma step_no_handle c ev out c' :
  coordinator_step c ev = Some (out, c') -> (forall req, ev <> Submit req) -> forall h, out <> OHandle h.
Proof.
  intros E N h ->. destruct ev as [req|r|f|t|i o]; simpl in E.
  - by destruct (N req).
  - by destruct (cancel _ _ _ r c).
  - by destruct (cancel_waiter f c).
  - by destruct (run_worker _ _ _ _ t c) as [[]|].
  - by destruct (backend_step _ i o c).
Qed.
Lemma step_follows tr c ev out c' :
  good_reach tr c -> coordinator_step c ev = Some (out, c') -> sensible tr c ev out -> follows (used tr) c c'.
Proof.
  intros R E S. pose proof (good_reach_life _ _ _ _ _ _ R) as L.
  pose proof (life_step _ _ _ _ _ _ _ _ _ (good_reach_ctl _ _ _ _ _ _ R) L E S) as [L' H].
  destruct ev as [req|r|f|t|i o]; [simpl in E|..].
  1: { pose proof (submit_futures req c) as (F1 & F2 & F3).
    destruct (submit_execution _ _ req c) as [h c1]. simplify_eq. cbn [fst snd] in *. simpl in S.
    destruct H as (H1 & H2 & H3).
    assert (N : forall r, r ∈ used tr -> r <> hd_run_id h) by congruence.
    split.
    - intros r Hr. unfold settled. rewrite H1; [done|by apply N].
    - intros r f Hr [B T]. split; [lia|]. pose proof (N _ Hr) as Hne. unfold settled. rewrite F1, F2, H1 by done.
      rewrite lookup_insert_ne by done. rewrite lookup_insert_ne by lia. exact T. }
  all: assert (H' : forall h, out <> OHandle h) by (by apply (step_no_handle _ _ _ _ E)).
  all: rewrite used_other in L' by done.
  all: assert (progress c c') by (destruct out; [by destruct (H' h)|done..]).
  all: by apply progress_follows.
Qed.

(** Cancelling settles a run, and does not raise. *)
Lemma cancel_settles tr c r out c' :
  good_reach tr c -> coordinator_step c (Cancel r) = Some (out, c') -> settled c' r /\ out <> OBool None.
Proof.
  intros R E. pose proof (good_reach_life _ _ _ _ _ _ R) as L. simpl in E.
  destruct (nonterm_dec (statuses c !! r)) as [N|N].
  - destruct (cancel_unfinished max_runs uuid4_hex utcnow _ r c (good_reach_ctl _ _ _ _ _ _ R) L N)
      as (s2 & res & skip & E2 & <- & Hst & L2 & _ & Hs & _).
    rewrite E2 in E. simplify_eq. split; [|done]. unfold settled. cbn.
    assert (terminal (rs_status res) = true) as T by (by rewrite Hst).
    rewrite (store_nonterm_iff max_runs uuid4_hex utcnow _ _ _ _ _ L2 T). by intros [? _].
  - rewrite (cancel_finished _ _ _ _ _ N) in E. by simplify_eq.
Qed.

(** ** The invariant of the connections *)

Definition waiter_ok (c : coordinator) (w : waiter) : Prop :=
  match wt_state w with
  | WNew => True
  | WWaiting f => tracks c (wt_run w) f
  | _ => settled c (wt_run w)
  end /\ (wt_cancel w = true -> settled c (wt_run w)).
(** The endpoint waits for messages and a task for the run, its active one. *)
Definition waited (y : chat) (x : socket) (r : string) : Prop :=
  so_phase x = PReceiving /\ so_active_run x = Some r /\
  exists t w, so_active_task x = Some t /\ ch_waiters y !! t = Some w /\ wt_run w = r.
Definition socket_ok (y : chat) (x : socket) : Prop :=
  (forall r, r ∈ so_runs x ->
     r ∈ used (ch_trace y) /\ (nonterm (statuses (ch_coordinator y) !! r) -> waited y x r)) /\
  (forall t, so_active_task x = Some t -> exists w, ch_waiters y !! t = Some w /\ wt_run w ∈ so_runs x).
Definition all_settled (y : chat) (x : socket) : Prop :=
  forall r, r ∈ so_runs x -> settled (ch_coordinator y) r.

Record chat_inv (y : chat) : Prop := {
  vi_good : good_reach (ch_trace y) (ch_coordinator y);
  vi_waiter : forall t w, ch_waiters y !! t = Some w ->
    wt_run w ∈ used (ch_trace y) /\ waiter_ok (ch_coordinator y) w;
  vi_socket : forall i x, ch_sockets y !! i = Some x -> socket_ok y x
}.

Lemma chat_inv_init : chat_inv init_chat.
Proof. split; [constructor|intros t w; simpl; by rewrite lookup_empty..]. Qed.

Lemma vi_life y : chat_inv y -> life_inv (used (ch_trace y)) None None (ch_coordinator y).
Proof. intros V. eapply good_reach_life, vi_good, V. Qed.

(** What the invariant speaks of. *)
Definition seen (y : chat) := (ch_coordinator y, ch_trace y, ch_sockets y, ch_waiters y).
Lemma chat_inv_ext y y' : seen y = seen y' -> chat_inv y -> chat_inv y'.
Proof.
  intros [= E1 E2 E3 E4] [V1 V2 V3]. split; rewrite <- ?E1, <- ?E2, <- ?E3, <- ?E4; try done.
  intros i x Hx. destruct (V3 i x Hx) as [S1 S2]. unfold socket_ok, waited. rewrite <- E1, <- E2, <- E4. by split.
Qed.

(** ** A call of the coordinator *)

Lemma used_app tr e : used tr ⊆ used (tr ++ [e]).
Proof. unfold used. rewrite omap_app. set_solver. Qed.

Lemma act_frame ev y out y' :
  act ev y = Some (out, y') ->
  coordinator_step (ch_coordinator y) ev = Some (out, ch_coordinator y') /\
  ch_trace y' = ch_trace y ++ [(ev, out)] /\ ch_rooms y' = ch_rooms y /\ ch_sockets y' = ch_sockets y /\
  ch_waiters y' = ch_waiters y /\ ch_broadcasts y' = ch_broadcasts y.
Proof.
  unfold ChatSocket.act. destruct (coordinator_step _ ev) as [[out' c]|] eqn:E; simpl; [|done].
  intros [= <- <-]. done.
Qed.

Lemma waiter_ok_follows ids c c' w :
  follows ids c c' -> wt_run w ∈ ids -> waiter_ok c w -> waiter_ok c' w.
Proof.
  intros [F1 F2] I [O1 O2]. split; [|intros C; apply F1; auto].
  destruct (wt_state w); [done|by apply F2|by apply F1..].
Qed.

Lemma act_inv ev y out y' :
  chat_inv y -> act ev y = Some (out, y') -> sensible (ch_trace y) (ch_coordinator y) ev out ->
  chat_inv y' /\ follows (used (ch_trace y)) (ch_coordinator y) (ch_coordinator y').
Proof.
  intros V E S. destruct (act_frame _ _ _ _ E) as (E1 & E2 & _ & E4 & E5 & _).
  pose proof (step_follows _ _ _ _ _ (vi_good _ V) E1 S) as F. split; [|done].
  pose proof (used_app (ch_trace y) (ev, out)) as U. split.
  - rewrite E2. by eapply good_step; [apply V| |].
  - rewrite E2, E5. intros t w Hw. destruct (vi_waiter _ V _ _ Hw) as [I O].
    split; [by apply U|by eapply waiter_ok_follows].
  - rewrite E4. intros i x Hx. destruct (vi_socket _ V _ _ Hx) as [S1 S2].
    unfold socket_ok, waited. rewrite E2, E5. split; [|done]. intros r Hr. destruct (S1 r Hr) as [I W].
    split; [by apply U|]. intros N. apply W. destruct (nonterm_dec (statuses (ch_coordinator y) !! r)) as [|T]; [done|].
    by destruct (fo_settled _ _ _ F r I T).
Qed.

Lemma all_settled_act ev y out y' x :
  chat_inv y -> act ev y = Some (out, y') -> sensible (ch_trace y) (ch_coordinator y) ev out ->
  socket_ok y x -> all_settled y x -> all_settled y' x.
Proof.
  intros V E S [O _] A r Hr. destruct (act_inv _ _ _ _ V E S) as [_ F]. apply (fo_settled _ _ _ F); [|by apply A].
  by apply O.
Qed.

(** ** Changes to tasks and connections *)

Lemma set_waiter_inv t w w' y :
  chat_inv y -> ch_waiters y !! t = Some w -> wt_run w' = wt_run w -> waiter_ok (ch_coordinator y) w' ->
  chat_inv (set_waiter t w' y).
Proof.
  intros [V1 V2 V3] Hw R O. split; [done| |].
  - intros t' w2. cbn. rewrite lookup_insert_Some. intros [[<- <-]|[_ H]]; [|by apply (V2 t')].
    rewrite R. by destruct (V2 t w Hw).
  - intros i x Hx. destruct (V3 i x Hx) as [S1 S2]. cbn.
    assert (L : forall t2 w2, ch_waiters y !! t2 = Some w2 -> exists w3, <[t := w']> (ch_waiters y) !! t2 = Some w3 /\ wt_run w3 = wt_run w2).
    { intros t2 w2 H. destruct (decide (t = t2)) as [<-|]; [|rewrite lookup_insert_ne by done; eauto].
      rewrite lookup_insert_eq. simplify_eq. eauto. }
    split.
    + intros r Hr. destruct (S1 r Hr) as [I W]. split; [done|]. intros N. destruct (W N) as (P & A & t2 & w2 & B & H & E).
      destruct (L _ _ H) as (w3 & H3 & E3). split; [done|]. split; [done|]. exists t2, w3. by rewrite E3.
    + intros t2 B. destruct (S2 t2 B) as (w2 & H & I). destruct (L _ _ H) as (w3 & H3 & E3). exists w3. by rewrite E3.
Qed.

Lemma set_socket_inv i x y : chat_inv y -> socket_ok y x -> chat_inv (set_socket i x y).
Proof.
  intros [V1 V2 V3] O. split; [done..|]. intros j x'. cbn. rewrite lookup_insert_Some.
  intros [[<- <-]|[_ H]]; [done|by apply (V3 j)].
Qed.
Lemma alter_socket_inv i f y :
  chat_inv y -> (forall x, ch_sockets y !! i = Some x -> socket_ok y x -> socket_ok y (f x)) ->
  chat_inv (with_sockets (alter f i (ch_sockets y)) y).
Proof.
  intros [V1 V2 V3] O. split; [done..|]. intros j x'. cbn. rewrite lookup_alter_Some.
  intros [(<- & x & H & ->)|[_ H]]; [by eapply O, V3|by apply (V3 j)].
Qed.

(** A connection without unfinished runs is fine whatever its endpoint does. *)
Lemma settled_socket_ok y x x' :
  socket_ok y x -> all_settled y x -> so_runs x' = so_runs x ->
  (so_active_task x' = so_active_task x \/ so_active_task x' = None) -> socket_ok y x'.
Proof.
  intros [O1 O2] A R T. split; rewrite R.
  - intros r Hr. destruct (O1 r Hr). split; [done|]. intros N. by destruct (A r Hr).
  - intros t. destruct T as [-> | ->]; [apply O2|done].
Qed.
Lemma same_socket_ok y x x' :
  socket_ok y x -> so_runs x' = so_runs x -> so_phase x' = so_phase x ->
  so_active_run x' = so_active_run x -> so_active_task x' = so_active_task x -> socket_ok y x'.
Proof. intros O R P A T. unfold socket_ok, waited. by rewrite R, P, A, T. Qed.

Lemma send_text_inv i o m y : chat_inv y -> chat_inv (send_text i o m y).
Proof. intros V. apply alter_socket_inv; [done|]. intros x _ O. by apply (same_socket_ok y x). Qed.

(** ** The task that waits *)

Lemma good_reach_cache tr c : good_reach tr c -> cache_ok max_runs c.
Proof.
  induction 1 as [|tr c ev out c' R IH E S]; [|by eapply step_cache].
  split; [simpl; lia|]. intros r [x H]. simpl in H. by rewrite lookup_empty in H.
Qed.
Lemma wait_for_run_spec tr c r :
  good_reach tr c ->
  match wait_for_run r c with
  | WaitFuture f => tracks c r f
  | _ => settled c r
  end.
Proof.
  intros R. pose proof (good_reach_life _ _ _ _ _ _ R) as L. unfold wait_for_run.
  destruct (completed_results c !! r) as [res|] eqn:E.
  - apply (lf_done _ _ _ _ L), (good_reach_cache _ _ R). eauto.
  - destruct (run_futures c !! r) as [f|] eqn:F.
    + split; [by eapply lf_fut_pending, F|by left].
    + intros N. apply (lf_fut _ _ _ _ L) in N. rewrite F in N. by destruct N.
Qed.

Section waiter.
Variables (t : nat) (w : waiter) (y : chat).
Hypothesis V : chat_inv y.
Hypothesis W : ch_waiters y !! t = Some w.

Lemma waiter_finally_inv : settled (ch_coordinator y) (wt_run w) -> chat_inv (waiter_finally t w y).
Proof.
  intros S. eapply (set_waiter_inv t w); [|done|done|by split].
  apply alter_socket_inv; [done|]. intros x Hx [O1 O2]. split.
  - intros r Hr. destruct (O1 r Hr) as [I O]. split; [done|]. intros N. destruct (O N) as (P & A & t2 & w2 & B & H & E).
    split; [done|]. cbn. rewrite A, B. split.
    + rewrite bool_decide_eq_false_2; [done|]. intros [= ->]. by destruct S.
    + exists t2, w2. rewrite bool_decide_eq_false_2; [done|]. intros [= ->]. simplify_eq. by destruct S.
  - intros t2. cbn. case_bool_decide; [done|apply O2].
Qed.
Lemma waiter_sends_inv m todo failing :
  settled (ch_coordinator y) (wt_run w) -> chat_inv (waiter_sends t w m todo failing y).
Proof.
  intros S. unfold waiter_sends. case_bool_decide; [by apply waiter_finally_inv|].
  by eapply (set_waiter_inv t w).
Qed.
Lemma waiter_fails_inv exc : settled (ch_coordinator y) (wt_run w) -> chat_inv (waiter_fails float_repr t w exc y).
Proof. apply waiter_sends_inv. Qed.
Lemma waiter_emits_inv r exc y' :
  settled (ch_coordinator y) (wt_run w) -> waiter_emits float_repr t w r exc y = Some y' -> chat_inv y'.
Proof.
  intros S. unfold waiter_emits. destruct (ch_sockets y !! wt_socket w) as [x|]; simpl; [|done].
  destruct (emit_terminal_event _ r) as [[[] e]|]; [intros [= <-]; by apply waiter_sends_inv| |intros [= <-]; by apply waiter_finally_inv].
  destruct (scoped_audience _) as [a|[]]; [intros [= <-]; by apply waiter_sends_inv|..|done];
    intros [= <-]; by apply waiter_fails_inv.
Qed.
Lemma waiter_awaits_inv f exc y' :
  tracks (ch_coordinator y) (wt_run w) f -> waiter_awaits float_repr t w f exc y = Some y' -> chat_inv y'.
Proof.
  intros T. unfold waiter_awaits. destruct (tracks_future _ _ _ _ (vi_life _ V) T) as [N1 N2].
  destruct (futures _ !! f) as [[]|] eqn:E; [intros [= <-]|..|done].
  - eapply (set_waiter_inv t w); [done..|]. split; [done|]. by destruct (vi_waiter _ V _ _ W) as [_ [_ ?]].
  - apply waiter_emits_inv. by eapply tracks_result, E; [apply vi_life|].
  - done.
Qed.
Lemma run_waiter_inv exc y' : run_waiter float_repr t exc y = Some y' -> chat_inv y'.
Proof.
  unfold run_waiter. rewrite W. simpl. destruct (vi_waiter _ V _ _ W) as [_ [O C]].
  destruct (wt_state w) as [|f|m todo failing|]; [..|done].
  - destruct (wt_cancel w) eqn:E; [intros [= <-]; eapply (set_waiter_inv t w); [done..|split; simpl; auto]|].
    pose proof (wait_for_run_spec _ _ (wt_run w) (vi_good _ V)) as R.
    destruct (wait_for_run _ _) as [r|f|]; [by apply waiter_emits_inv|by apply waiter_awaits_inv|].
    intros [= <-]. by apply waiter_fails_inv.
  - destruct (wt_cancel w) eqn:E; [intros [= <-]; apply waiter_finally_inv; auto|].
    intros H. apply (waiter_awaits_inv f exc); [done|]. by destruct (futures _ !! f) as [[]|].
  - destruct (wt_cancel w); [|done]. intros [= <-]. by apply waiter_finally_inv.
Qed.
End waiter.

Lemma waiter_send_inv t j ok exc y y' : chat_inv y -> waiter_send float_repr t j ok exc y = Some y' -> chat_inv y'.
Proof.
  intros V. unfold waiter_send. destruct (ch_waiters y !! t) as [w|] eqn:W; simpl; [|done].
  destruct (vi_waiter _ V _ _ W) as [_ [O _]]. destruct (wt_state w) as [|f|m todo failing|]; try done.
  destruct (bool_decide _ && _); [|done]. intros [= <-].
  destruct ok; [|destruct failing; [by apply waiter_finally_inv|by apply waiter_fails_inv]].
  apply waiter_sends_inv; [by apply send_text_inv|done..].
Qed.

(** ** The endpoint *)

(** The endpoint's own calls leave this alone. *)
Record calm (y y2 : chat) : Prop := {
  ca_rooms : ch_rooms y2 = ch_rooms y;
  ca_sockets : ch_sockets y2 = ch_sockets y;
  ca_broadcasts : ch_broadcasts y2 = ch_broadcasts y;
  ca_waiters : forall t w2, ch_waiters y2 !! t = Some w2 ->
    exists w, ch_waiters y !! t = Some w /\ wt_socket w2 = wt_socket w /\ wt_state w2 = wt_state w
}.
Lemma calm_trans y1 y2 y3 : calm y1 y2 -> calm y2 y3 -> calm y1 y3.
Proof.
  intros [A1 A2 A3 A4] [B1 B2 B3 B4]. split; [congruence..|]. intros t w3 H.
  destruct (B4 t w3 H) as (w2 & H2 & E1 & E2). destruct (A4 t w2 H2) as (w & H1 & E3 & E4). exists w. split; [done|]. split; congruence.
Qed.
Lemma act_calm ev y out y' : act ev y = Some (out, y') -> calm y y'.
Proof.
  intros E. destruct (act_frame _ _ _ _ E) as (_ & _ & E3 & E4 & E5 & E6). split; try done. rewrite E5. eauto.
Qed.

(** The task of a connection is only cancelled when its run is over, so no future is. *)
Lemma cancel_task_inv t w y y' :
  chat_inv y -> ch_waiters y !! t = Some w -> settled (ch_coordinator y) (wt_run w) ->
  cancel_task backends max_runs uuid4_hex utcnow t y = Some y' ->
  chat_inv y' /\ calm y y' /\ ch_coordinator y' = ch_coordinator y /\ ch_trace y' = ch_trace y.
Proof.
  intros V W S. unfold cancel_task. rewrite W. destruct (vi_waiter _ V _ _ W) as [_ [O _]].
  set (w' := mkWaiter (wt_socket w) (wt_run w) true (wt_state w)).
  assert (F : chat_inv (set_waiter t w' y) /\ calm y (set_waiter t w' y)).
  { split; [eapply (set_waiter_inv t w); [done..|by split]|]. split; [done..|]. intros t' w2. cbn.
    rewrite lookup_insert_Some. intros [[<- <-]|[_ H]]; eauto. }
  assert (R : calm y y) by (split; eauto).
  destruct (wt_state w) as [|f| |]; try (intros [= <-]; naive_solver).
  destruct (tracks_settled _ _ _ _ (vi_life _ V) O S) as [res ->]. intros [= <-]. naive_solver.
Qed.

(** Cancelling the active run settles all runs of the connection. *)
Lemma cancel_active i x r y out y' :
  chat_inv y -> ch_sockets y !! i = Some x -> so_active_run x = Some r -> act (Cancel r) y = Some (out, y') ->
  chat_inv y' /\ calm y y' /\ ch_sockets y' !! i = Some x /\ all_settled y' x /\ out <> OBool None.
Proof.
  intros V X A E. destruct (act_frame _ _ _ _ E) as (E1 & _ & _ & E4 & _).
  destruct (cancel_settles _ _ _ _ _ (vi_good _ V) E1) as [S O].
  destruct (act_inv _ _ _ _ V E I) as [V' F]. split; [done|]. split; [by eapply act_calm|].
  rewrite E4. split; [done|]. split; [|done].
  intros r' Hr. destruct (vi_socket _ V _ _ X) as [O1 _]. destruct (O1 r' Hr) as [U W].
  destruct (nonterm_dec (statuses (ch_coordinator y) !! r')) as [N|N]; [|by apply (fo_settled _ _ _ F)].
  destruct (W N) as (_ & A' & _). by simplify_eq.
Qed.
Lemma idle_settled y x : socket_ok y x -> so_active_run x = None -> all_settled y x.
Proof. intros [O _] A r Hr N. destruct (O r Hr) as [_ W]. destruct (W N) as (_ & A' & _). congruence. Qed.

Lemma leave_cases i x y y' :
  chat_inv y -> ch_sockets y !! i = Some x -> leave backends max_runs uuid4_hex utcnow i x y = Some y' ->
  exists y2, chat_inv y2 /\ calm y y2 /\ all_settled y2 x /\
    (y' = disconnect i x y2 \/ exists t, y' = set_socket i (with_phase (PLeaving t) x) y2).
Proof.
  intros V X. unfold leave.
  set (k := fun y1 => match so_active_task x with
    | None => Some (disconnect i x y1)
    | Some t => y2 ← cancel_task backends max_runs uuid4_hex utcnow t y1; Some (set_socket i (with_phase (PLeaving t) x) y2)
    end).
  assert (K : forall y1, chat_inv y1 -> calm y y1 -> ch_sockets y1 !! i = Some x -> all_settled y1 x -> k y1 = Some y' ->
    exists y2, chat_inv y2 /\ calm y y2 /\ all_settled y2 x /\
      (y' = disconnect i x y2 \/ exists t, y' = set_socket i (with_phase (PLeaving t) x) y2)).
  { intros y1 V1 C X1 S. unfold k. destruct (so_active_task x) as [t|] eqn:T.
    - destruct (vi_socket _ V1 _ _ X1) as [_ O]. destruct (O t T) as (w & W & Hw).
      destruct (cancel_task _ _ _ _ t y1) as [y2|] eqn:E; simpl; [|done]. intros [= <-].
      destruct (cancel_task_inv t w y1 y2 V1 W (S _ Hw) E) as (V2 & C2 & Ec & _). exists y2.
      split; [done|]. split; [by eapply calm_trans|]. unfold all_settled. rewrite Ec. eauto.
    - intros [= <-]. exists y1. eauto. }
  destruct (so_active_run x) as [r|] eqn:A.
  - destruct (act (Cancel r) y) as [[out y1]|] eqn:E; simpl; [|done].
    destruct (cancel_active _ _ _ _ _ _ V X A E) as (V1 & C & X1 & S & O).
    destruct out as [|[b|]| |]; try done; by apply (K y1).
  - apply (K y); [done|by split; eauto|done|]. eapply idle_settled, A. by eapply vi_socket.
Qed.

Lemma request_cancel_cases i x r y y' :
  chat_inv y -> ch_sockets y !! i = Some x -> so_active_run x = Some r ->
  request_cancel backends max_runs uuid4_hex utcnow i x r y = Some y' ->
  exists y2, chat_inv y2 /\ calm y y2 /\ all_settled y2 x /\
    (y' = set_socket i (with_phase (PTelling r) (with_seen true (with_active None None x))) y2 \/
     exists t, y' = set_socket i (with_phase (PCleaning r t) x) y2).
Proof.
  intros V X A. unfold request_cancel. destruct (act (Cancel r) y) as [[out y1]|] eqn:E; simpl; [|done].
  destruct (cancel_active _ _ _ _ _ _ V X A E) as (V1 & C & X1 & S & O).
  assert (so_active_task x = None -> exists y2, chat_inv y2 /\ calm y y2 /\ all_settled y2 x /\ y2 = y1) as K0 by eauto.
  intros H. assert (match so_active_task x with
    | None => Some (set_socket i (with_phase (PTelling r) (with_seen true (with_active None None x))) y1)
    | Some t => y2 ← cancel_task backends max_runs uuid4_hex utcnow t y1; Some (set_socket i (with_phase (PCleaning r t) x) y2)
    end = Some y') as H' by (by destruct out as [|[b|]| |]).
  clear H. rename H' into H.
  destruct (so_active_task x) as [t|] eqn:T.
  - destruct (vi_socket _ V1 _ _ X1) as [_ O1]. destruct (O1 t T) as (w & W & Hw).
    destruct (cancel_task _ _ _ _ t y1) as [y2|] eqn:E2; simpl in H; [|done]. injection H as <-.
    destruct (cancel_task_inv t w y1 y2 V1 W (S _ Hw) E2) as (V2 & C2 & Ec & _). exists y2.
    split; [done|]. split; [by eapply calm_trans|]. unfold all_settled. rewrite Ec. eauto.
  - injection H as <-. exists y1. eauto.
Qed.

(** ** Steps *)

(** Run ids are not used twice, and the other callers of the coordinator are sensible. *)
Definition polite (y : chat) (ev : chat_event) (y' : chat) : Prop :=
  NoDup (used (ch_trace y')) /\
  match ev with
  | VOther e => forall out c, coordinator_step (ch_coordinator y) e = Some (out, c) -> sensible (ch_trace y) (ch_coordinator y) e out
  | _ => True
  end.

(** A submission of a run id that is not used yet. *)
Lemma submit_prompt_cases i x m t y y' :
  chat_inv y -> ch_sockets y !! i = Some x -> so_phase x = PReceiving -> task_done (so_active_task x) y = true ->
  NoDup (used (ch_trace y')) ->
  submit_prompt backends max_runs uuid4_hex utcnow i x m t y = Some y' ->
  chat_inv y' /\ exists y1 r, calm y y1 /\
    y' = set_socket i (with_run r (with_active (Some r) (Some t) (with_seen false x))) (set_waiter t (mkWaiter i r false WNew) y1).
Proof.
  intros V X P D ND. unfold submit_prompt.
  destruct (act _ y) as [[out y1]|] eqn:E; simpl; [|done]. destruct out as [h| | |]; try done.
  destruct (ch_waiters y1 !! t) as [|] eqn:T; [done|]. intros [= <-]. set (r := hd_run_id h).
  destruct (act_frame _ _ _ _ E) as (E1 & E2 & _ & E4 & E5 & _).
  assert (U : used (ch_trace y1) = used (ch_trace y) ++ [r]) by (rewrite E2; unfold used; by rewrite omap_app).
  assert (N : r ∉ used (ch_trace y)).
  { change (NoDup (used (ch_trace y1))) in ND. rewrite U in ND. apply list.NoDup_app in ND as (_ & N & _). intros H.
    apply (N r H). by left. }
  destruct (act_inv _ _ _ _ V E N) as [V1 F].
  destruct (vi_socket _ V _ _ X) as [O1 O2].
  assert (S : all_settled y1 x).
  { intros r' Hr. destruct (O1 r' Hr) as [I W]. destruct (nonterm_dec (statuses (ch_coordinator y) !! r')) as [Hn|Hn]; [|by apply (fo_settled _ _ _ F)].
    destruct (W Hn) as (_ & _ & t2 & w & A & B & C). rewrite A in D. cbn in D. rewrite B in D.
    destruct (vi_waiter _ V _ _ B) as [_ [O _]]. rewrite C in O. destruct (wt_state w); done. }
  split; [|exists y1, r; split; [by eapply act_calm|done]].
  assert (X1 : ch_sockets y1 !! i = Some x) by (by rewrite E4).
  assert (IR : r ∈ used (ch_trace y1)) by (rewrite U; set_solver).
  destruct V1 as [W1 W2 W3]. split; [done| |].
  - intros t' w. cbn. rewrite lookup_insert_Some. intros [[<- <-]|[_ H]]; [|by apply (W2 t')]. split; [exact IR|by split].
  - assert (L : forall t2 w2, ch_waiters y1 !! t2 = Some w2 -> <[t := mkWaiter i r false WNew]> (ch_waiters y1) !! t2 = Some w2).
    { intros t2 w2 H. rewrite lookup_insert_ne; [done|]. congruence. }
    intros j x'. cbn. rewrite lookup_insert_Some. intros [[<- <-]|[_ H]].
    + split; cbn.
      * intros r' [Hr|Hr]%elem_of_app.
        -- destruct (W3 i x X1) as [O _]. destruct (O r' Hr) as [I _]. split; [done|]. intros Hn. by destruct (S r' Hr).
        -- apply list_elem_of_singleton in Hr as ->. split; [exact IR|]. intros _. split; [done|]. split; [done|].
           exists t, (mkWaiter i r false WNew). cbn. by rewrite lookup_insert_eq.
      * intros t2 [= <-]. exists (mkWaiter i r false WNew). cbn. rewrite lookup_insert_eq. split; [done|]. set_solver.
    + destruct (W3 j x' H) as [P1 P2]. split; cbn.
      * intros r' Hr. destruct (P1 r' Hr) as [I W]. split; [done|]. intros Hn.
        destruct (W Hn) as (Q1 & Q2 & t2 & w & Q3 & Q4 & Q5). split; [done|]. split; [done|]. exists t2, w. eauto.
      * intros t2 H2. destruct (P2 t2 H2) as (w & Q1 & Q2). exists w. eauto.
Qed.

Lemma settled_socket_inv i x x' y :
  chat_inv y -> ch_sockets y !! i = Some x -> all_settled y x -> so_runs x' = so_runs x ->
  (so_active_task x' = so_active_task x \/ so_active_task x' = None) -> chat_inv (set_socket i x' y).
Proof. intros V X S R T. apply set_socket_inv; [done|]. eapply settled_socket_ok; [by eapply vi_socket|done..]. Qed.
Lemma disconnect_inv i x y :
  chat_inv y -> ch_sockets y !! i = Some x -> all_settled y x -> chat_inv (disconnect i x y).
Proof.
  intros V X S. unfold disconnect.
  assert (V' : chat_inv (with_rooms (leave_room i (so_room x) (ch_rooms y)) y)) by (by eapply chat_inv_ext, V).
  eapply settled_socket_inv; [done..|by left].
Qed.
Lemma leave_inv i x y y' :
  chat_inv y -> ch_sockets y !! i = Some x -> leave backends max_runs uuid4_hex utcnow i x y = Some y' -> chat_inv y'.
Proof.
  intros V X L. destruct (leave_cases _ _ _ _ V X L) as (y2 & V2 & C & S & H).
  assert (X2 : ch_sockets y2 !! i = Some x) by (by rewrite (ca_sockets _ _ C)).
  destruct H as [->|[t ->]]; [by apply disconnect_inv|]. eapply settled_socket_inv; [done..|by left].
Qed.

Lemma receive_inv i x m t y y' :
  chat_inv y -> ch_sockets y !! i = Some x -> so_phase x = PReceiving -> NoDup (used (ch_trace y')) ->
  receive backends max_runs uuid4_hex utcnow i x m t y = Some y' -> chat_inv y'.
Proof.
  intros V X P ND. unfold receive. destruct (parse_cancel_run_id m) as [[r|]|e].
  - case_bool_decide as A; [|by intros [= <-]]. intros H.
    destruct (request_cancel_cases _ _ _ _ _ V X A H) as (y2 & V2 & C & S & D).
    assert (X2 : ch_sockets y2 !! i = Some x) by (by rewrite (ca_sockets _ _ C)).
    destruct D as [->|[t' ->]]; eapply settled_socket_inv; try done; [by right|by left].
  - case_bool_decide as B; [by intros [= <-]|]. destruct (task_done (so_active_task x) y) eqn:D; [|by intros [= <-]].
    intros H. exact (proj1 (submit_prompt_cases i x m t y y' V X P D ND H)).
  - destruct e; [by eapply leave_inv..|done].
Qed.

(** In its answer to a cancel message and on its way out, all runs of a connection are over. *)
Lemma parked_settled y x :
  socket_ok y x -> so_phase x <> PReceiving -> all_settled y x.
Proof. intros [O _] P r Hr N. destruct (O r Hr) as [_ W]. by destruct (W N). Qed.

Lemma chat_step_inv y ev y' : chat_inv y -> chat_step y ev = Some y' -> polite y ev y' -> chat_inv y'.
Proof.
  intros V E [ND S]. destruct ev as [i room|i m t|i|i|i ok|t exc|t j ok exc|i e b|b j ok|e]; simpl in E.
  - destruct (ch_sockets y !! i); [done|]. injection E as <-. unfold connect.
    apply set_socket_inv; [by eapply chat_inv_ext, V|]. split; simpl; [set_solver|done].
  - destruct (ch_sockets y !! i) as [x|] eqn:X; simpl in E; [|done]. destruct (receiving x) eqn:R; [|done].
    eapply receive_inv; [done..| |done|done]. unfold receiving in R. by destruct (so_phase x).
  - destruct (ch_sockets y !! i) as [x|] eqn:X; simpl in E; [|done]. destruct (receiving x); [|done]. by eapply leave_inv.
  - destruct (ch_sockets y !! i) as [x|] eqn:X; simpl in E; [|done]. unfold cleaned in E.
    assert (A : so_phase x <> PReceiving) by (intros A; by rewrite A in E).
    pose proof (parked_settled _ _ (vi_socket _ V _ _ X) A) as AS.
    destruct (so_phase x) as [|r t|r|t|]; try done; (destruct (task_done _ y); [|done]); injection E as <-.
    + eapply settled_socket_inv; [done..|by right].
    + by apply disconnect_inv.
  - destruct (ch_sockets y !! i) as [x|] eqn:X; simpl in E; [|done]. unfold told in E.
    assert (A : so_phase x <> PReceiving) by (intros A; by rewrite A in E).
    pose proof (parked_settled _ _ (vi_socket _ V _ _ X) A) as AS.
    destruct (so_phase x) as [|r t|r|t|]; try done. destruct ok; [|by eapply leave_inv].
    injection E as <-. eapply settled_socket_inv; [done..|by left].
  - destruct (ch_waiters y !! t) as [w|] eqn:W; [by eapply run_waiter_inv|]. unfold run_waiter in E. by rewrite W in E.
  - by eapply waiter_send_inv.
  - unfold emit in E. destruct (ch_sockets y !! i) as [x|] eqn:X; simpl in E; [|done].
    destruct (ch_broadcasts y !! b); [done|].
    set (x' := if terminal_event e then with_seen true x else x) in E.
    assert (V' : chat_inv (set_socket i x' y)).
    { apply set_socket_inv; [done|]. apply (same_socket_ok y x); [by eapply vi_socket|unfold x'; by destruct (terminal_event e)..]. }
    destruct (scoped_audience _) as [a|[]]; simplify_eq; [|done..]. by eapply chat_inv_ext, V'.
  - unfold broadcast_send in E. destruct (ch_broadcasts y !! b) as [x|]; simpl in E; [|done]. case_bool_decide; [|done].
    destruct ok; injection E as <-; [|by eapply chat_inv_ext, V]. eapply chat_inv_ext, send_text_inv, V. done.
  - destruct (act e y) as [[out y1]|] eqn:A; simpl in E; [|done]. injection E as <-.
    destruct (act_frame _ _ _ _ A) as (A1 & _). by eapply act_inv, (S _ _ A1).
Qed.

Inductive chat_reach : chat -> Prop :=
| chat_init : chat_reach init_chat
| chat_next y ev y' : chat_reach y -> chat_step y ev = Some y' -> polite y ev y' -> chat_reach y'.

Lemma chat_reach_inv y : chat_reach y -> chat_inv y.
Proof. induction 1; [apply chat_inv_init|by eapply chat_step_inv]. Qed.

(** ** Rooms *)

(** A message of connection [o] may go to connection [j]: they share a room, and the start
    of a run is told to its own client only. *)
Definition reaches (y : chat) (o : nat) (m : string) (j : nat) : Prop :=
  exists xo xj, ch_sockets y !! o = Some xo /\ ch_sockets y !! j = Some xj /\ so_room xo = so_room xj /\
    (is_run_started_message m = Ok true -> o = j).

Record room_inv (y : chat) : Prop := {
  ri_member : forall i g, i ∈ room_connections g (ch_rooms y) <->
    exists x, ch_sockets y !! i = Some x /\ so_room x = g /\ so_phase x <> POver;
  ri_empty : forall g, ch_rooms y !! g <> Some ∅;
  ri_frames : forall i x o m, ch_sockets y !! i = Some x -> (o, m) ∈ so_frames x -> reaches y o m i;
  ri_waiter : forall t w, ch_waiters y !! t = Some w ->
    is_Some (ch_sockets y !! wt_socket w) /\
    forall m todo failing, wt_state w = WSending m todo failing -> forall j, j ∈ todo -> reaches y (wt_socket w) m j;
  ri_broadcast : forall b x j, ch_broadcasts y !! b = Some x -> j ∈ bc_todo x -> reaches y (bc_origin x) (bc_message x) j
}.

Lemma room_inv_init : room_inv init_chat.
Proof.
  assert (N : forall i x, ch_sockets init_chat !! i <> Some x) by (intros i x; cbn; by rewrite lookup_empty).
  split.
  - intros i g. split; [intros H; exfalso; revert H; apply not_elem_of_empty|by intros (x & H%N & _)].
  - intros g H. cbn in H. by rewrite lookup_empty in H.
  - by intros i x o m H%N.
  - intros t w. cbn. by rewrite lookup_empty.
  - intros b x j. cbn. by rewrite lookup_empty.
Qed.

(** No connection goes away or changes its room. *)
Definition stays (y y' : chat) : Prop :=
  forall i x, ch_sockets y !! i = Some x -> exists x', ch_sockets y' !! i = Some x' /\ so_room x' = so_room x.
Lemma reaches_stays y y' o m j : stays y y' -> reaches y o m j -> reaches y' o m j.
Proof.
  intros S (xo & xj & O & J & R & B). destruct (S _ _ O) as (xo' & O' & R1). destruct (S _ _ J) as (xj' & J' & R2).
  exists xo', xj'. split; [done|]. split; [done|]. split; [congruence|done].
Qed.
Lemma stays_same y y' : ch_sockets y' = ch_sockets y -> stays y y'.
Proof. intros E i x. rewrite E. eauto. Qed.
Lemma stays_set i x x' y : ch_sockets y !! i = Some x -> so_room x' = so_room x -> stays y (set_socket i x' y).
Proof.
  intros X R j x2 H. cbn. destruct (decide (i = j)) as [<-|]; [rewrite lookup_insert_eq; naive_solver|].
  rewrite lookup_insert_ne by done. eauto.
Qed.
Lemma reaches_self y i x m : ch_sockets y !! i = Some x -> reaches y i m i.
Proof. intros X. by exists x, x. Qed.

Lemma join_member i g j h m :
  j ∈ room_connections h (join_room i g m) <-> (j = i /\ h = g) \/ j ∈ room_connections h m.
Proof.
  unfold room_connections at 1, join_room. destruct (decide (g = h)) as [<-|N].
  - rewrite lookup_insert_eq. simpl. set_solver.
  - rewrite lookup_insert_ne by done. fold (room_connections h m). naive_solver.
Qed.
Lemma leave_member i g j h m :
  j ∈ room_connections h (leave_room i g m) <-> ~ (j = i /\ h = g) /\ j ∈ room_connections h m.
Proof.
  unfold leave_room. destruct (m !! g) as [c|] eqn:G.
  - case_bool_decide as B; unfold room_connections; destruct (decide (g = h)) as [<-|N];
      rewrite ?lookup_delete_eq, ?lookup_delete_ne, ?lookup_insert_eq, ?lookup_insert_ne by done; rewrite ?G; simpl; set_solver.
  - split; [|tauto]. intros H. split; [|done]. intros [-> ->]. unfold room_connections in H. rewrite G in H. set_solver.
Qed.
Lemma leave_nonempty i g m : (forall h, m !! h <> Some ∅) -> forall h, leave_room i g m !! h <> Some ∅.
Proof.
  intros N h. unfold leave_room. destruct (m !! g) as [c|]; [|done]. case_bool_decide as B; destruct (decide (g = h)) as [<-|];
    rewrite ?lookup_delete_eq, ?lookup_delete_ne, ?lookup_insert_eq, ?lookup_insert_ne by done; try done. congruence.
Qed.

(** An endpoint that goes on, without or with sending something of its own. *)
Lemma room_set_socket i x x' y :
  room_inv y -> ch_sockets y !! i = Some x -> so_room x' = so_room x -> (so_phase x' = POver <-> so_phase x = POver) ->
  (forall o m, (o, m) ∈ so_frames x' -> (o, m) ∈ so_frames x \/ o = i) -> room_inv (set_socket i x' y).
Proof.
  intros [M E F W B] X R P N. pose proof (stays_set i x x' y X R) as S. split; cbn.
  - intros j g. rewrite M. split; intros (x2 & H & G & Q).
    + destruct (decide (i = j)) as [<-|]; [|rewrite lookup_insert_ne by done; eauto].
      rewrite lookup_insert_eq. simplify_eq. exists x'. naive_solver.
    + apply lookup_insert_Some in H as [[<- <-]|[_ H]]; [|eauto]. exists x. rewrite R in G. naive_solver.
  - done.
  - intros j x2 o m. rewrite lookup_insert_Some. intros [[<- <-]|[_ H]] I.
    + destruct (N o m I) as [I'| ->]; [by eapply reaches_stays, (F i x)|].
      apply (reaches_self _ _ x'). cbn. by rewrite lookup_insert_eq.
    + by eapply reaches_stays, (F j x2).
  - intros t w H. destruct (W t w H) as [[x2 H1] H2]. split.
    + destruct (S _ _ H1) as (x3 & H3 & _). by exists x3.
    + intros m todo b H3 j Hj. eapply reaches_stays; [exact S|by eapply H2].
  - intros b x2 j H Hj. eapply reaches_stays; [exact S|by eapply B].
Qed.
Lemma room_disconnect i x y :
  room_inv y -> ch_sockets y !! i = Some x -> so_phase x <> POver -> room_inv (disconnect i x y).
Proof.
  intros [M E F W B] X P.
  assert (S : stays y (disconnect i x y)) by (by apply (stays_set i x (with_phase POver x))).
  split; cbn.
  - intros j g. rewrite leave_member, M. split.
    + intros [N (x2 & H & G & Q)]. destruct (decide (i = j)) as [<-|]; [|rewrite lookup_insert_ne by done; eauto].
      simplify_eq. by destruct N.
    + intros (x2 & H & G & Q). apply lookup_insert_Some in H as [[<- <-]|[N H]]; [done|]. split; [naive_solver|eauto].
  - by apply leave_nonempty.
  - intros j x2 o m. rewrite lookup_insert_Some. intros [[<- <-]|[_ H]] I; eapply reaches_stays; eauto.
  - intros t w H. destruct (W t w H) as [[x2 H1] H2]. split.
    + destruct (S _ _ H1) as (x3 & H3 & _). by exists x3.
    + intros m todo b H3 j Hj. eapply reaches_stays; [exact S|by eapply H2].
  - intros b x2 j H Hj. eapply reaches_stays; [exact S|by eapply B].
Qed.
Lemma room_connect i room y : room_inv y -> ch_sockets y !! i = None -> room_inv (connect i room y).
Proof.
  intros [M E F W B] X.
  assert (S : stays y (connect i room y)).
  { intros j x H. cbn. rewrite lookup_insert_ne by congruence. eauto. }
  split; cbn.
  - intros j g. rewrite join_member, M. split.
    + intros [[-> ->]|(x2 & H & G & Q)].
      * rewrite lookup_insert_eq. eexists. by split.
      * rewrite lookup_insert_ne by congruence. eauto.
    + intros (x2 & H & G & Q). apply lookup_insert_Some in H as [[<- <-]|[N H]]; [by left|right; eauto].
  - intros g. unfold join_room. destruct (decide (room = g)) as [<-|]; [|by rewrite lookup_insert_ne].
    rewrite lookup_insert_eq. intros [= H]. set_solver.
  - intros j x2 o m. rewrite lookup_insert_Some. intros [[<- <-]|[_ H]] I; [by apply elem_of_nil in I|].
    eapply reaches_stays; eauto.
  - intros t w H. destruct (W t w H) as [[x2 H1] H2]. split.
    + destruct (S _ _ H1) as (x3 & H3 & _). by exists x3.
    + intros m todo b H3 j Hj. eapply reaches_stays; [exact S|by eapply H2].
  - intros b x2 j H Hj. eapply reaches_stays; [exact S|by eapply B].
Qed.
Lemma room_calm y y2 : calm y y2 -> room_inv y -> room_inv y2.
Proof.
  intros [C1 C2 C3 C4] [M E F W B]. pose proof (stays_same _ _ C2) as S. split; rewrite ?C1, ?C2, ?C3; try done.
  - intros i x o m H I. eapply reaches_stays; eauto.
  - intros t w2 H. destruct (C4 t w2 H) as (w & H' & -> & ->). destruct (W t w H') as [W1 W2]. split; [done|].
    intros m todo b H3 j Hj. eapply reaches_stays; [exact S|by eapply W2].
  - intros b x j H Hj. eapply reaches_stays; [exact S|by eapply B].
Qed.
(** A task or a broadcast that goes on. *)
Lemma room_set_waiter t w y :
  room_inv y -> is_Some (ch_sockets y !! wt_socket w) ->
  (forall m todo failing, wt_state w = WSending m todo failing -> forall j, j ∈ todo -> reaches y (wt_socket w) m j) ->
  room_inv (set_waiter t w y).
Proof.
  intros [M E F W B] K R. split; try done. intros t' w'. cbn. rewrite lookup_insert_Some.
  intros [[<- <-]|[_ H]]; [done|by eapply W].
Qed.
Lemma room_set_broadcast b x y :
  room_inv y -> (forall j, j ∈ bc_todo x -> reaches y (bc_origin x) (bc_message x) j) ->
  room_inv (with_broadcasts (<[b := x]> (ch_broadcasts y)) y).
Proof.
  intros [M E F W B] R. split; try done. intros b' x' j. cbn. rewrite lookup_insert_Some.
  intros [[<- <-]|[_ H]]; [by apply R|by eapply B].
Qed.
Lemma room_alter i f y :
  room_inv y -> (forall x, so_room (f x) = so_room x /\ so_phase (f x) = so_phase x) ->
  (forall x o m, ch_sockets y !! i = Some x -> (o, m) ∈ so_frames (f x) -> (o, m) ∈ so_frames x \/ reaches y o m i) ->
  room_inv (with_sockets (alter f i (ch_sockets y)) y).
Proof.
  intros [M E F W B] P N.
  assert (S : stays y (with_sockets (alter f i (ch_sockets y)) y)).
  { intros j x H. cbn. destruct (decide (i = j)) as [<-|]; [|rewrite lookup_alter_ne by done; eauto].
    rewrite lookup_alter_eq, H. exists (f x). by destruct (P x). }
  split; cbn.
  - intros j g. rewrite M. split; intros (x2 & H & G & Q).
    + destruct (decide (i = j)) as [<-|]; [|rewrite lookup_alter_ne by done; eauto].
      rewrite lookup_alter_eq, H. destruct (P x2) as [P1 P2]. exists (f x2). rewrite P1, P2. naive_solver.
    + apply lookup_alter_Some in H as [(<- & x3 & H & ->)|[_ H]]; [|eauto]. destruct (P x3) as [P1 P2].
      rewrite P1 in G. rewrite P2 in Q. eauto.
  - done.
  - intros j x2 o m H I. apply (reaches_stays y); [done|].
    apply lookup_alter_Some in H as [(<- & x3 & H & ->)|[_ H]]; [|by eapply F].
    destruct (N _ _ _ H I) as [I'|]; [by eapply F|done].
  - intros t w H. destruct (W t w H) as [[x2 H1] H2]. split.
    + destruct (S _ _ H1) as (x3 & H3 & _). by exists x3.
    + intros m todo b H3 j Hj. eapply reaches_stays; [exact S|by eapply H2].
  - intros b x2 j H Hj. eapply reaches_stays; [exact S|by eapply B].
Qed.
Lemma room_send_text j o m y : room_inv y -> reaches y o m j -> room_inv (send_text j o m y).
Proof.
  intros V R. apply room_alter; [done|done|]. intros x o' m' _ [I|I]%elem_of_app; [by left|].
  apply list_elem_of_singleton in I. simplify_eq. by right.
Qed.

(** The audiences of a connection. *)
Lemma room_reaches i x m j y :
  room_inv y -> ch_sockets y !! i = Some x -> is_run_started_message m <> Ok true ->
  j ∈ room_connections (so_room x) (ch_rooms y) -> reaches y i m j.
Proof. intros V X N (xj & J & R & _)%(ri_member _ V). exists x, xj. split; [done|]. split; [done|]. by split. Qed.
Lemma audience_reaches i x m a j y :
  room_inv y -> ch_sockets y !! i = Some x -> scoped_audience m = Ok a -> j ∈ audience_of i (so_room x) a y -> reaches y i m j.
Proof.
  intros V X. unfold scoped_audience. destruct (is_run_started_message m) as [[]|] eqn:M; simpl; [..|done]; intros [= <-]; cbn.
  - intros ->%elem_of_singleton. by eapply reaches_self.
  - apply room_reaches; [done..|]. by rewrite M.
Qed.
Lemma failed_not_started r e : is_run_started_message (serialize_run_event float_repr (failed_event r e)) <> Ok true.
Proof.
  unfold is_run_started_message, serialize_run_event. rewrite (print_parse float_repr true None); [done|]. cbn.
  unfold od_wf. cbn. repeat split; try done; by apply (bool_decide_unpack _).
Qed.

Section waiter_rooms.
Variables (t : nat) (w : waiter) (y : chat).
Hypothesis V : room_inv y.
Hypothesis W : ch_waiters y !! t = Some w.

Lemma waiter_finally_room : room_inv (waiter_finally t w y).
Proof.
  apply room_set_waiter; [apply room_alter; [done|done|by left]| |done].
  destruct (ri_waiter _ V _ _ W) as [[x X] _]. cbn. rewrite lookup_alter_eq, X. by eexists.
Qed.
Lemma waiter_sends_room m todo failing :
  (forall j, j ∈ todo -> reaches y (wt_socket w) m j) -> room_inv (waiter_sends t w m todo failing y).
Proof.
  intros R. unfold waiter_sends. case_bool_decide; [apply waiter_finally_room|].
  apply room_set_waiter; [done|by destruct (ri_waiter _ V _ _ W)|]. by intros m' todo' b [= <- <- _].
Qed.
Lemma waiter_fails_room exc : room_inv (waiter_fails float_repr t w exc y).
Proof.
  destruct (ri_waiter _ V _ _ W) as [[x X] _]. unfold waiter_fails. rewrite X. apply waiter_sends_room.
  intros j. apply room_reaches; [done..|]. apply failed_not_started.
Qed.
Lemma waiter_emits_room r exc y' : waiter_emits float_repr t w r exc y = Some y' -> room_inv y'.
Proof.
  unfold waiter_emits. destruct (ch_sockets y !! wt_socket w) as [x|] eqn:X; simpl; [|done].
  destruct (emit_terminal_event _ r) as [[[] e]|].
  - intros [= <-]. apply waiter_sends_room. intros j ->%elem_of_singleton. by eapply reaches_self.
  - destruct (scoped_audience _) as [a|[]] eqn:A; [intros [= <-]|intros [= <-]; apply waiter_fails_room..|done].
    apply waiter_sends_room. intros j. by apply audience_reaches.
  - intros [= <-]. apply waiter_finally_room.
Qed.
Lemma waiter_awaits_room f exc y' : waiter_awaits float_repr t w f exc y = Some y' -> room_inv y'.
Proof.
  unfold waiter_awaits. destruct (futures _ !! f) as [[]|]; [|by apply waiter_emits_room| |done]; intros [= <-].
  - apply room_set_waiter; [done|by destruct (ri_waiter _ V _ _ W)|done].
  - apply waiter_finally_room.
Qed.
Lemma run_waiter_room exc y' : run_waiter float_repr t exc y = Some y' -> room_inv y'.
Proof.
  unfold run_waiter. rewrite W. simpl. destruct (wt_state w) as [|f|m todo failing|]; [..|done].
  - destruct (wt_cancel w); [intros [= <-]; apply room_set_waiter; [done|by destruct (ri_waiter _ V _ _ W)|done]|].
    destruct (wait_for_run _ _); [apply waiter_emits_room|apply waiter_awaits_room|intros [= <-]; apply waiter_fails_room].
  - destruct (wt_cancel w); [intros [= <-]; apply waiter_finally_room|]. intros H. apply (waiter_awaits_room f exc).
    by destruct (futures _ !! f) as [[]|].
  - destruct (wt_cancel w); [|done]. intros [= <-]. apply waiter_finally_room.
Qed.
End waiter_rooms.

Lemma waiter_send_room t j ok exc y y' : room_inv y -> waiter_send float_repr t j ok exc y = Some y' -> room_inv y'.
Proof.
  intros V. unfold waiter_send. destruct (ch_waiters y !! t) as [w|] eqn:W; simpl; [|done].
  destruct (wt_state w) as [|f|m todo failing|] eqn:T; try done.
  destruct (bool_decide (j ∈ todo)) eqn:J; simpl; [|done]. apply bool_decide_eq_true in J.
  destruct (negb (wt_cancel w)); [|done]. intros [= <-].
  destruct (ri_waiter _ V _ _ W) as [_ R]. specialize (R _ _ _ T).
  destruct ok; [|destruct failing; [by apply waiter_finally_room|by apply waiter_fails_room]].
  apply waiter_sends_room; [by apply room_send_text, R|done|]. intros k Hk. apply (reaches_stays y).
  - intros i x H. cbn. destruct (decide (j = i)) as [<-|]; [|rewrite lookup_alter_ne by done; eauto].
    rewrite lookup_alter_eq, H. by eexists.
  - apply R. set_solver.
Qed.

Lemma leave_room_inv i x y y' :
  chat_inv y -> room_inv y -> ch_sockets y !! i = Some x -> so_phase x <> POver ->
  leave backends max_runs uuid4_hex utcnow i x y = Some y' -> room_inv y'.
Proof.
  intros V R X P L. destruct (leave_cases _ _ _ _ V X L) as (y2 & _ & C & _ & H).
  assert (X2 : ch_sockets y2 !! i = Some x) by (by rewrite (ca_sockets _ _ C)).
  apply (room_calm _ _ C) in R. destruct H as [->|[t ->]]; [by apply room_disconnect|].
  eapply room_set_socket; [done..|split; [done|intros H; by destruct P]|by left].
Qed.
Lemma receive_room i x m t y y' :
  chat_inv y -> room_inv y -> ch_sockets y !! i = Some x -> so_phase x = PReceiving -> NoDup (used (ch_trace y')) ->
  receive backends max_runs uuid4_hex utcnow i x m t y = Some y' -> room_inv y'.
Proof.
  intros V R X P ND. unfold receive. destruct (parse_cancel_run_id m) as [[r|]|e].
  - case_bool_decide as A; [|by intros [= <-]]. intros H.
    destruct (request_cancel_cases _ _ _ _ _ V X A H) as (y2 & V2 & C & S & D).
    assert (X2 : ch_sockets y2 !! i = Some x) by (by rewrite (ca_sockets _ _ C)). apply (room_calm _ _ C) in R.
    destruct D as [->|[t' ->]]; eapply room_set_socket; try done; try (by left); cbn; rewrite P; by split.
  - case_bool_decide as B; [by intros [= <-]|]. destruct (task_done (so_active_task x) y) eqn:D; [|by intros [= <-]].
    intros H. destruct (submit_prompt_cases i x m t y y' V X P D ND H) as (_ & y1 & r & C & ->).
    assert (X2 : ch_sockets y1 !! i = Some x) by (by rewrite (ca_sockets _ _ C)). apply (room_calm _ _ C) in R.
    eapply room_set_socket; [apply room_set_waiter; [done|by exists x|done]|exact X2|done|cbn; by rewrite P|by left].
  - destruct e; [..|done]; intros H; (eapply leave_room_inv; [exact V|done|exact X|by rewrite P|exact H]).
Qed.

Lemma chat_step_room y ev y' : chat_inv y -> room_inv y -> chat_step y ev = Some y' -> polite y ev y' -> room_inv y'.
Proof.
  intros V R E [ND _]. destruct ev as [i room|i m t|i|i|i ok|t exc|t j ok exc|i e b|b j ok|e]; simpl in E.
  - destruct (ch_sockets y !! i) as [|] eqn:X; [done|]. injection E as <-. by apply room_connect.
  - destruct (ch_sockets y !! i) as [x|] eqn:X; simpl in E; [|done]. destruct (receiving x) eqn:P; [|done].
    eapply receive_room; [done..| |done|done]. unfold receiving in P. by destruct (so_phase x).
  - destruct (ch_sockets y !! i) as [x|] eqn:X; simpl in E; [|done]. destruct (receiving x) eqn:P; [|done].
    eapply leave_room_inv; [done..| |done]. unfold receiving in P. by destruct (so_phase x).
  - destruct (ch_sockets y !! i) as [x|] eqn:X; simpl in E; [|done]. unfold cleaned in E.
    destruct (so_phase x) as [|r t|r|t|] eqn:P; try done; (destruct (task_done _ y); [|done]); injection E as <-.
    + eapply room_set_socket; [done..|cbn; by rewrite P|by left].
    + apply room_disconnect; [done..|by rewrite P].
  - destruct (ch_sockets y !! i) as [x|] eqn:X; simpl in E; [|done]. unfold told in E.
    destruct (so_phase x) as [|r t|r|t|] eqn:P; try done. destruct ok.
    + injection E as <-. eapply room_set_socket; [done..|cbn; by rewrite P|].
      intros o m [I|I]%elem_of_app; [by left|]. apply list_elem_of_singleton in I. simplify_eq. by right.
    + eapply leave_room_inv; [done..|by rewrite P|done].
  - destruct (ch_waiters y !! t) as [w|] eqn:W; [by eapply run_waiter_room|]. unfold run_waiter in E. by rewrite W in E.
  - by eapply waiter_send_room.
  - unfold emit in E. destruct (ch_sockets y !! i) as [x|] eqn:X; simpl in E; [|done].
    destruct (ch_broadcasts y !! b); [done|].
    set (x' := if terminal_event e then with_seen true x else x) in E.
    assert (X' : so_room x' = so_room x /\ so_phase x' = so_phase x /\ so_frames x' = so_frames x)
      by (unfold x'; by destruct (terminal_event e)).
    destruct X' as (X1 & X2 & X3).
    assert (V' : room_inv (set_socket i x' y)).
    { eapply room_set_socket; [done..|by rewrite X2|]. rewrite X3. by left. }
    destruct (scoped_audience _) as [a|[]] eqn:A; simplify_eq; [|done..].
    apply (room_set_broadcast b (mkBroadcast i _ _) (set_socket i x' y) V').
    intros j Hj. apply (audience_reaches i x' _ a j (set_socket i x' y) V'); [cbn; by rewrite lookup_insert_eq|exact A|exact Hj].
  - unfold broadcast_send in E. destruct (ch_broadcasts y !! b) as [x|] eqn:B; simpl in E; [|done]. case_bool_decide as J; [|done].
    pose proof (ri_broadcast _ R _ _ j B J) as RJ.
    destruct ok; injection E as <-; [|apply room_set_broadcast; [done|set_solver]].
    apply (room_set_broadcast b (mkBroadcast (bc_origin x) (bc_message x) (bc_todo x ∖ {[j]})) (send_text j (bc_origin x) (bc_message x) y));
      [by apply room_send_text|]. cbn. intros k Hk. apply (reaches_stays y).
    + intros i x1 H. cbn. destruct (decide (j = i)) as [<-|]; [|rewrite lookup_alter_ne by done; eauto].
      rewrite lookup_alter_eq, H. by eexists.
    + eapply ri_broadcast; [done..|set_solver].
  - destruct (act e y) as [[out y1]|] eqn:A; simpl in E; [|done]. injection E as <-.
    by eapply room_calm, R; eapply act_calm.
Qed.

Lemma chat_reach_room y : chat_reach y -> room_inv y.
Proof. induction 1 as [|y ev y' R IH E P]; [apply room_inv_init|]. by eapply chat_step_room; [apply chat_reach_inv|..]. Qed.

(** ** Theorems *)

(** C3: The chat websocket is a sensible caller of the coordinator. Whatever clients send
    and whenever they leave, the task that waits for a run is cancelled only when the run is
    over, so the future of a run is never cancelled: the coordinator under the websocket is
    in a state of a sensible environment, whose runs are all answered, and the trace of its
    calls holds no cancelled waiter. *)
Theorem chat_is_sensible y :
  chat_reach y ->
  good_reach (ch_trace y) (ch_coordinator y) /\
  forall f out, (WaiterCancelled f, out) ∉ ch_trace y.
Proof.
  intros R. pose proof (vi_good _ (chat_reach_inv _ R)) as G. split; [done|].
  intros f out. induction G as [|tr c ev out' c' G IH E S]; [apply not_elem_of_nil|].
  intros [H|H]%elem_of_app; [done|]. apply list_elem_of_singleton in H. by simplify_eq.
Qed.

(** C4: A connection has one unfinished run at a time, its active one, and leaves none
    behind: when its endpoint is over, every run it has submitted is over too and it is in no
    room. *)
Theorem chat_client_leaves_nothing y i x :
  chat_reach y -> ch_sockets y !! i = Some x ->
  (forall r, r ∈ so_runs x -> nonterm (get_status r (ch_coordinator y)) -> so_active_run x = Some r) /\
  (so_phase x = POver ->
   (forall r, r ∈ so_runs x -> ~ nonterm (get_status r (ch_coordinator y))) /\
   forall g, i ∉ room_connections g (ch_rooms y)).
Proof.
  intros R X. pose proof (vi_socket _ (chat_reach_inv _ R) _ _ X) as O. split.
  - intros r Hr N. destruct O as [O _]. destruct (O r Hr) as [_ W]. by destruct (W N) as (_ & A & _).
  - intros P. split.
    + apply parked_settled; [done|]. by rewrite P.
    + intros g (x' & X' & _ & P')%(ri_member _ (chat_reach_room _ R)). by simplify_eq.
Qed.

(** C5: What a client is sent stays in the room: it comes from a connection to the same
    group, and the start of a run only from its own. A room has the connections to its group
    that are not over, and no room is empty. *)
Theorem chat_stays_in_its_room y :
  chat_reach y ->
  (forall i x o m, ch_sockets y !! i = Some x -> (o, m) ∈ so_frames x ->
     (exists xo, ch_sockets y !! o = Some xo /\ so_room xo = so_room x) /\
     (is_run_started_message m = Ok true -> o = i)) /\
  (forall i g, i ∈ room_connections g (ch_rooms y) <->
     exists x, ch_sockets y !! i = Some x /\ so_room x = g /\ so_phase x <> POver) /\
  (forall g, g ∈ dom (ch_rooms y) -> 0 < connection_count g (ch_rooms y)).
Proof.
  intros R%chat_reach_room. split; [|split; [apply R|]].
  - intros i x o m X F. destruct (ri_frames _ R _ _ _ _ X F) as (xo & xj & O & J & E & B). simplify_eq. eauto.
  - intros g [c H]%elem_of_dom. unfold connection_count, room_connections. rewrite H. simpl.
    destruct (decide (size c = 0)) as [Z|Z]; [|lia]. apply size_empty_inv, leibniz_equiv in Z as ->.
    by destruct (ri_empty _ R g).
Qed.

(** ** Deciding polite events, for concrete runs *)

Definition polite_check (y : chat) (ev : chat_event) (y' : chat) : bool :=
  bool_decide (NoDup (used (ch_trace y'))) &&
  match ev with
  | VOther e =>
      match coordinator_step (ch_coordinator y) e with
      | Some (out, _) => sensible_check (ch_trace y) (ch_coordinator y) e out
      | None => true
      end
  | _ => true
  end.
Lemma polite_check_sound y ev y' : polite_check y ev y' = true -> polite y ev y'.
Proof.
  unfold polite_check. intros [N%bool_decide_eq_true H]%andb_true_iff. split; [done|].
  destruct ev; try done. intros out c E. rewrite E in H. by apply sensible_check_sound.
Qed.
Fixpoint run_polite (evs : list chat_event) (y : chat) : option chat :=
  match evs with
  | [] => Some y
  | ev :: evs =>
      y' ← chat_step y ev;
      if polite_check y ev y' then run_polite evs y' else None
  end.
Lemma run_polite_reach evs y y' : chat_reach y -> run_polite evs y = Some y' -> chat_reach y'.
Proof.
  revert y. induction evs as [|ev evs IH]; intros y R; simpl; [by intros [= <-]|].
  destruct (chat_step y ev) as [y1|] eqn:E; simpl; [|done]. destruct (polite_check y ev y1) eqn:C; [|done].
  apply IH. eapply chat_next; [done..|by apply polite_check_sound].
Qed.
End props.

(** ** Runs of the model *)

Definition ex_float (s : string) : string := s.
Local Abbreviation ex_chat evs := (run_polite default_backends 256 ex_uuid ex_clock ex_float evs init_chat).
Local Abbreviation ex_reach := (chat_reach default_backends 256 ex_uuid ex_clock ex_float).
Definition ex_delta : RunEvent := mkRunEvent "run.token.delta" "uuid-0" [("delta", JStr "Hel")].
Definition ex_started : RunEvent := mkRunEvent "run.started" "uuid-0" [].
(** Two clients of a room; the first leaves while its run goes on. *)
Definition left_early : list chat_event :=
  [VConnect 0 "g"; VConnect 1 "g"; VReceive 0 "hi" 0; VOther (RunWorker 1); VWaiter 0 "";
   VEmit 0 ex_started 0; VBroadcastSend 0 0 true;
   VEmit 0 ex_delta 1; VBroadcastSend 1 1 true; VBroadcastSend 1 0 true;
   VDisconnect 0; VWaiter 0 ""; VCleaned 0].
Definition left_early_state : chat := default init_chat (ex_chat left_early).
Definition frames_of (i : nat) (y : chat) : list (nat * string) :=
  match ch_sockets y !! i with Some x => so_frames x | None => [] end.

Lemma left_early_reach : ex_reach left_early_state.
Proof.
  apply (run_polite_reach _ _ _ _ _ left_early init_chat); [apply chat_init|].
  unfold left_early_state. destruct (ex_chat left_early) eqn:E; [done|]. by vm_compute in E.
Qed.

Lemma chat_is_sensible_witness :
  good_reach default_backends 256 ex_uuid ex_clock (ch_trace left_early_state) (ch_coordinator left_early_state) /\
  forall f out, (WaiterCancelled f, out) ∉ ch_trace left_early_state.
Proof. apply (chat_is_sensible default_backends 256 ex_uuid ex_clock ex_float). exact left_early_reach. Defined.

Lemma chat_client_leaves_nothing_witness :
  exists x, ch_sockets left_early_state !! 0 = Some x /\ so_phase x = POver /\ so_runs x = ["uuid-0"] /\
    ~ nonterm (get_status "uuid-0" (ch_coordinator left_early_state)).
Proof.
  exists (mkSocket "g" POver None None false ["uuid-0"] (frames_of 0 left_early_state)).
  assert (E : ch_sockets left_early_state !! 0 =
    Some (mkSocket "g" POver None None false ["uuid-0"] (frames_of 0 left_early_state))) by (vm_compute; reflexivity).
  split; [exact E|]. split; [done|]. split; [done|].
  apply (chat_client_leaves_nothing default_backends 256 ex_uuid ex_clock ex_float left_early_state 0 _ left_early_reach E); [done|].
  simpl. left.
Defined.

Lemma chat_stays_in_its_room_witness :
  frames_of 1 left_early_state = [(0, serialize_run_event ex_float ex_delta)] /\
  forall i g, i ∈ room_connections g (ch_rooms left_early_state) <->
    exists x, ch_sockets left_early_state !! i = Some x /\ so_room x = g /\ so_phase x <> POver.
Proof.
  split; [vm_compute; reflexivity|].
  apply (chat_stays_in_its_room default_backends 256 ex_uuid ex_clock ex_float left_early_state left_early_reach).
Defined.

(** A client that cancels after it has been told that its run is completed is told that it
    is cancelled, which it then is. *)
Definition ex_completed : RunEvent := completed_event "uuid-0" (JStr "Hello").
Definition cancel_message (r : string) : string := json_dumps ex_float (JObj [("type", JStr "cancel"); ("run_id", JStr r)]).
Example completed_then_cancelled :
  (fun y => (frames_of 0 y, get_status "uuid-0" (ch_coordinator y))) <$>
    ex_chat [VConnect 0 "g"; VReceive 0 "hi" 0; VOther (RunWorker 1); VWaiter 0 ""; VEmit 0 ex_completed 0; VBroadcastSend 0 0 true;
             VReceive 0 (cancel_message "uuid-0") 1; VWaiter 0 ""; VCleaned 0; VTold 0 true] =
  Some ([(0, serialize_run_event ex_float ex_completed); (0, serialize_run_event ex_float (cancelled_event "uuid-0"))],
        Some StCancelled).
Proof. vm_compute. reflexivity. Qed.

(** A client that cannot be reached ends the broadcast: the next client of the room is not
    told, and the event handler raises into the run. *)
Example unreachable_client_ends_the_broadcast :
  (fun y => (frames_of 0 y, frames_of 1 y, bc_todo <$> ch_broadcasts y !! 0)) <$>
    ex_chat [VConnect 0 "g"; VConnect 1 "g"; VConnect 2 "g"; VReceive 0 "hi" 0; VOther (RunWorker 1);
             VEmit 0 ex_delta 0; VBroadcastSend 0 2 true; VBroadcastSend 0 1 false] =
  Some ([], [], Some ∅).
Proof. vm_compute. reflexivity. Qed.

(** A prompt sent while a run goes on is dropped. *)
Example second_prompt_is_dropped :
  (fun y => (so_runs <$> ch_sockets y !! 0, length (ch_trace y))) <$>
    ex_chat [VConnect 0 "g"; VReceive 0 "hi" 0; VReceive 0 "and then" 1] = Some (Some ["uuid-0"], 1).
Proof. vm_compute. reflexivity. Qed.
