(* ===== verification/TelegramHtml.v ===== *)
(** * From Markdown to the HTML of Telegram ([infra/im/telegram.py])

    [markdown_to_html] and what it uses of [re] and [html]: a pattern is a matcher, which
    says what a match at a position takes; the matchers below give the match the
    backtracking of [re] finds first. Texts are lists of characters. *)

From stdpp Require Import base list option strings.
From Stdlib Require Import ZArith NArith Lia Ascii.
From S2P Require Import Prelude PyStr PyDict.

Abbreviation text := (list ascii).
(** A literal. *)
Abbreviation lit s := (str_chars s).
Definition newline : ascii := ascii_of_N 10.

(** ** [re.sub] *)

(** From the character before a position and the text from there: the match and its group. *)
Definition matcher := option ascii -> text -> option (text * text).

(** [re.sub(pattern, f, l)], from position on; [skip] characters belong to a match. *)
Fixpoint sub {S} (m : matcher) (f : text -> text -> S -> text * S) (prev : option ascii) (l : text) (skip : nat) (s : S) :
    text * S :=
  match l with
  | [] => ([], s)
  | c :: l' =>
      match skip with
      | Datatypes.S k => sub m f (Some c) l' k s
      | O =>
          match m prev l with
          | Some (g0, g1) =>
              let '(r, s) := f g0 g1 s in
              let '(out, s) := sub m f (Some c) l' (pred (length g0)) s in (r ++ out, s)
          | None => let '(out, s) := sub m f (Some c) l' 0 s in (c :: out, s)
          end
      end
  end.

(** A greedy run of a class. *)
Fixpoint span (p : ascii -> bool) (l : text) : text * text :=
  match l with
  | c :: l' => if p c then let '(a, b) := span p l' in (c :: a, b) else ([], l)
  | [] => ([], [])
  end.
(** [.*?] and what follows it: what is skipped and what [k] takes after it. *)
Fixpoint lazy (dot : ascii -> bool) (k : text -> option text) (l : text) : option (text * text) :=
  match k l with
  | Some g => Some ([], g)
  | None =>
      match l with
      | c :: l' => if dot c then '(a, g) ← lazy dot k l'; Some (c :: a, g) else None
      | [] => None
      end
  end.
Definition take_lit (p l : text) : option text := if chars_prefix p l then Some p else None.
Definition after_lit (p l : text) : option text := if chars_prefix p l then Some (drop (length p) l) else None.

Definition eqc (c d : ascii) : bool := bool_decide (c = d).
Definition any (c : ascii) : bool := true.
Definition not_newline (c : ascii) : bool := negb (eqc c newline).
(** Neither a star nor a newline. *)
Definition plain (c : ascii) : bool := negb (eqc c "*") && negb (eqc c newline).

(** A fenced block: the rest of the line of the opening fence is taken for a language, the
    group is what follows up to the next fence. Where the first way to match fails, so do
    the others. *)
Definition code_block : matcher := fun _ l =>
  l1 ← after_lit (lit "```") l;
  let '(lang, l2) := span (fun c => negb (eqc c newline) && negb (eqc c "`")) l1 in
  let '(nl, l3) := match l2 with c :: l3 => if eqc c newline then ([c], l3) else ([], l2) | [] => ([], l2) end in
  '(content, close) ← lazy any (take_lit (lit "```")) l3;
  Some (lit "```" ++ lang ++ nl ++ content ++ close, content).

(** A link, a label in brackets and a target in parentheses. *)
Definition markdown_link : matcher := fun _ l =>
  l1 ← after_lit (lit "[") l;
  let '(label, l2) := span (fun c => negb (eqc c "]")) l1 in
  l3 ← after_lit (lit "](") l2;
  let '(url, l4) := span (fun c => negb (eqc c ")")) l3 in
  _ ← after_lit (lit ")") l4;
  if bool_decide (label = []) || bool_decide (url = []) then None
  else Some (lit "[" ++ label ++ lit "](" ++ url ++ lit ")", label).

(** Inline code, between two backticks of a line. *)
Definition inline_code : matcher := fun _ l =>
  l1 ← after_lit (lit "`") l;
  let '(content, l2) := span (fun c => negb (eqc c "`") && not_newline c) l1 in
  _ ← after_lit (lit "`") l2;
  if bool_decide (content = []) then None else Some (lit "`" ++ content ++ lit "`", content).

(** From three stars to the next three of the line. *)
Definition triple_star : matcher := fun _ l =>
  l1 ← after_lit (lit "***") l;
  '(a, close) ← lazy not_newline (take_lit (lit "***")) l1;
  Some (lit "***" ++ a ++ close, []).
(** Plain characters between two literals. *)
Definition run_between (p q l : text) : option text :=
  l1 ← after_lit p l;
  let '(a, l2) := span plain l1 in
  _ ← after_lit q l2;
  Some (p ++ a ++ q).
(** Two stars inside of one, and one inside of two. *)
Definition bold_in_italic : matcher := fun _ l =>
  head ← run_between (lit "*") (lit "**") l;
  '(a, tail) ← lazy not_newline (run_between (lit "**") (lit "*")) (drop (length head) l);
  Some (head ++ a ++ tail, []).
Definition italic_in_bold : matcher := fun _ l =>
  head ← run_between (lit "**") (lit "*") l;
  '(a, tail) ← lazy not_newline (run_between (lit "*") (lit "**")) (drop (length head) l);
  Some (head ++ a ++ tail, []).

(** Plain characters between two stars on either side. *)
Definition bold : matcher := fun _ l =>
  l1 ← after_lit (lit "**") l;
  let '(a, l2) := span plain l1 in
  _ ← after_lit (lit "**") l2;
  if bool_decide (a = []) then None else Some (lit "**" ++ a ++ lit "**", a).
(** Plain characters between two single stars. *)
Definition italic : matcher := fun prev l =>
  if bool_decide (prev = Some "*"%char) then None
  else
    l1 ← after_lit (lit "*") l;
    let '(a, l2) := span plain l1 in
    l3 ← after_lit (lit "*") l2;
    if bool_decide (a = []) || chars_prefix (lit "*") l3 then None else Some (lit "*" ++ a ++ lit "*", a).

(** ** [html.escape] and [str.replace] *)

Definition escape_char (c : ascii) : text :=
  if eqc c "&" then lit "&amp;"
  else if eqc c "<" then lit "&lt;"
  else if eqc c ">" then lit "&gt;"
  else if eqc c (ascii_of_N 34) then lit "&quot;"
  else if eqc c "'" then lit "&#x27;"
  else [c].
Definition escape (l : text) : text := flat_map escape_char l.

(** [l.replace(old, new)]. *)
Fixpoint replace_all (old new l : text) (skip : nat) : text :=
  match l with
  | [] => []
  | c :: l' =>
      match skip with
      | S k => replace_all old new l' k
      | O =>
          if chars_prefix old l then new ++ replace_all old new l' (pred (length old))
          else c :: replace_all old new l' 0
      end
  end.

(** ** [markdown_to_html] *)

(** The calls of [uuid4], and [replacements]: what stands for a token. *)
Record placeholders := mkPlaceholders { ph_draws : nat; ph_replacements : list (string * text) }.

Section html.
Variable uuid4_hex : nat -> string.

Definition token (prefix : string) (n : nat) : string := "@@PORTEX_" +:+ prefix +:+ "_" +:+ uuid4_hex n +:+ "@@".
Definition store_replacement (prefix : string) (replacement : text) (s : placeholders) : text * placeholders :=
  let t := token prefix (ph_draws s) in
  (str_chars t, mkPlaceholders (S (ph_draws s)) (od_set t replacement (ph_replacements s))).

Definition replace_code_block (g0 g1 : text) : placeholders -> text * placeholders :=
  store_replacement "CODE_BLOCK" (lit "<pre><code>" ++ escape g1 ++ lit "</code></pre>").
Definition replace_markdown_link (g0 g1 : text) : placeholders -> text * placeholders :=
  store_replacement "MARKDOWN_LINK" (escape g0).
Definition replace_inline_code (g0 g1 : text) : placeholders -> text * placeholders :=
  store_replacement "INLINE_CODE" (lit "<code>" ++ g1 ++ lit "</code>").
Definition replace_unsupported_emphasis (g0 g1 : text) : placeholders -> text * placeholders :=
  store_replacement "UNSUPPORTED" g0.
(** [re.sub] with a template [before \1 after]. *)
Definition wrap (before after : text) (g0 g1 : text) (s : placeholders) : text * placeholders := (before ++ g1 ++ after, s).

Definition markdown_text (l : text) (draws : nat) : text :=
  let '(l, s) := sub code_block replace_code_block None l 0 (mkPlaceholders draws []) in
  let '(l, s) := sub markdown_link replace_markdown_link None l 0 s in
  let l := escape l in
  let '(l, s) := sub inline_code replace_inline_code None l 0 s in
  let '(l, s) := sub triple_star replace_unsupported_emphasis None l 0 s in
  let '(l, s) := sub bold_in_italic replace_unsupported_emphasis None l 0 s in
  let '(l, s) := sub italic_in_bold replace_unsupported_emphasis None l 0 s in
  let '(l, s) := sub bold (wrap (lit "<b>") (lit "</b>")) None l 0 s in
  let '(l, s) := sub italic (wrap (lit "<i>") (lit "</i>")) None l 0 s in
  foldl (fun l e => replace_all (str_chars e.1) e.2 l 0) l (ph_replacements s).
Definition markdown_to_html (s : string) (draws : nat) : string := of_chars (markdown_text (str_chars s) draws).
End html.

(** ** The examples of the tests, and what gets lost *)

Definition ex_hex (n : nat) : string := of_chars [ascii_of_nat (48 + n)].
Definition lf : string := of_chars [newline].

Example html_tests :
  (fun s => markdown_to_html ex_hex s 0) <$>
    ["1 < 2 & 3 > 1"; "**bold** *italic* `code <tag>`"; "```" +:+ lf +:+ "if x < 1:" +:+ lf +:+ "  **still code**" +:+ lf +:+ "```";
     "Use **bold and *italic"; "[**bold**](https://example.com?a=1&b=2)"; "*italic **bold** inside*"; "`**x**` and `*y*`"] =
    ["1 &lt; 2 &amp; 3 &gt; 1"; "<b>bold</b> <i>italic</i> <code>code &lt;tag&gt;</code>";
     "<pre><code>if x &lt; 1:" +:+ lf +:+ "  **still code**" +:+ lf +:+ "</code></pre>";
     "Use **bold and *italic"; "[**bold**](https://example.com?a=1&amp;b=2)"; "*italic **bold** inside*";
     "<code>**x**</code> and <code>*y*</code>"].
Proof. vm_compute. reflexivity. Qed.

(** A fenced block on one line: its text is taken for the name of a language. *)
Example one_line_block_is_lost : markdown_to_html ex_hex "```ls -la```" 0 = "<pre><code></code></pre>".
Proof. vm_compute. reflexivity. Qed.

(** Placeholders are put back in the order they were made, so one that ended up inside a
    later one stays in the message. *)
Example nested_placeholder_stays :
  markdown_to_html ex_hex "`[a](b)`" 0 = "<code>@@PORTEX_MARKDOWN_LINK_0@@</code>" /\
  markdown_to_html ex_hex "***`x`***" 0 = "***@@PORTEX_INLINE_CODE_0@@***".
Proof. vm_compute. by split. Qed.
