(* ===== verification/TelegramHtmlProps.v ===== *)
(** * The HTML sent to Telegram is well formed *)

From stdpp Require Import base list option strings sets.
From Stdlib Require Import ZArith NArith Lia Ascii.
From S2P Require Import Prelude PyStr PyDict TelegramHtml.

(** ** Well-formed HTML *)

Definition text_char (c : ascii) : Prop := c ∉ [("<")%char; (">")%char; ("&")%char; ascii_of_N 34; ("'")%char].
Definition entities : list text := [lit "&amp;"; lit "&lt;"; lit "&gt;"; lit "&quot;"; lit "&#x27;"].
Definition elements : list (text * text) :=
  [(lit "<pre><code>", lit "</code></pre>"); (lit "<code>", lit "</code>"); (lit "<b>", lit "</b>"); (lit "<i>", lit "</i>")].

(** Text with its special characters escaped and the elements of the code, closed and
    nested; [ok] restricts what is inside of an element. *)
Inductive html (ok : text -> Prop) : text -> Prop :=
| html_nil : html ok []
| html_char c l : text_char c -> html ok l -> html ok (c :: l)
| html_entity e l : e ∈ entities -> html ok l -> html ok (e ++ l)
| html_element o c inner l : (o, c) ∈ elements -> ok inner -> html ok inner -> html ok l -> html ok (o ++ inner ++ c ++ l).

Definition anything (l : text) : Prop := True.
Definition nothing (l : text) : Prop := False.
Definition starless (l : text) : Prop := ("*")%char ∉ l.

Lemma html_app ok a b : html ok a -> html ok b -> html ok (a ++ b).
Proof.
  intros A B. induction A as [|c l T A IH|e l E A IH|o c inner l E K I _ A IH]; [done|..].
  - by apply html_char.
  - rewrite <- app_assoc. by apply html_entity.
  - rewrite <- !app_assoc. by apply html_element.
Qed.
Lemma html_mono (ok ok' : text -> Prop) l : (forall i, ok i -> ok' i) -> html ok l -> html ok' l.
Proof. intros M. induction 1; [apply html_nil|by apply html_char|by apply html_entity|apply html_element; auto]. Qed.
Lemma html_text ok l : Forall text_char l -> html ok l.
Proof. induction 1; [apply html_nil|by apply html_char]. Qed.
Lemma html_wrap (ok ok' : text -> Prop) o c inner :
  (o, c) ∈ elements -> ok' inner -> (forall i, ok i -> ok' i) -> html ok inner -> html ok' (o ++ inner ++ c).
Proof.
  intros E K M H. rewrite <- (app_nil_r c). apply html_element; [done..|by eapply html_mono|apply html_nil].
Qed.

Lemma escape_flat l : html nothing (escape l).
Proof.
  induction l as [|c l IH]; [apply html_nil|]. cbn [escape flat_map]. fold (escape l). unfold escape_char, eqc.
  repeat case_bool_decide; try (apply html_entity; [apply (bool_decide_unpack _); vm_compute; exact I|done]).
  apply html_char; [|done]. unfold text_char. rewrite !not_elem_of_cons. repeat split; try done. apply not_elem_of_nil.
Qed.

(** *** Cutting at a character of the markup *)

(** Not a character of the entities and the tags. *)
Definition marker (c : ascii) : Prop := c = ("*")%char \/ c = ("`")%char.
Lemma marker_text c : marker c -> text_char c.
Proof. intros [->| ->]; apply (bool_decide_unpack _); vm_compute; exact I. Qed.
Lemma marker_entity c e : marker c -> e ∈ entities -> c ∉ e.
Proof.
  intros M. unfold entities. rewrite !elem_of_cons, elem_of_nil.
  destruct M as [->| ->]; intros [->|[->|[->|[->|[->|[]]]]]]; apply (bool_decide_unpack _); vm_compute; exact I.
Qed.
Lemma marker_tags c o e : marker c -> (o, e) ∈ elements -> (c ∉ o) /\ (c ∉ e).
Proof.
  intros M. unfold elements. rewrite !elem_of_cons, elem_of_nil.
  destruct M as [->| ->]; intros [[= -> ->]|[[= -> ->]|[[= -> ->]|[[= -> ->]|[]]]]]; split; apply (bool_decide_unpack _); vm_compute; exact I.
Qed.

Lemma cut_app (x l a b : text) c : x ++ l = a ++ c :: b -> c ∉ x -> exists a', a = x ++ a' /\ l = a' ++ c :: b.
Proof.
  revert a. induction x as [|d x IH]; intros a E N; [by exists a|]. destruct a as [|d' a]; simpl in E; injection E as E1 E; [set_solver|].
  subst d'. destruct (IH a E) as (a' & -> & ->); [set_solver|]. by exists a'.
Qed.
Lemma html_cut ok c a b :
  marker c -> (forall i, ok i -> c ∉ i) -> html ok (a ++ c :: b) -> html ok a /\ html ok b.
Proof.
  intros M O H. remember (a ++ c :: b) as l eqn:E. revert a E.
  induction H as [|d l T H IH|e l N H IH|o e inner l N K I _ H IH]; intros a E.
  - by destruct a.
  - destruct a as [|d' a]; simplify_eq/=; [by split; [apply html_nil|]|]. destruct (IH a eq_refl). split; [by apply html_char|done].
  - apply cut_app in E as (a' & -> & ->); [|by apply marker_entity]. destruct (IH a' eq_refl). split; [by apply html_entity|done].
  - destruct (marker_tags c o e M N) as [N1 N2]. pose proof (O _ K) as N3.
    apply cut_app in E as (a1 & -> & E); [|done]. apply cut_app in E as (a2 & -> & E); [|done].
    apply cut_app in E as (a3 & -> & ->); [|done]. destruct (IH a3 eq_refl). split; [by apply html_element|done].
Qed.

(** ** [re.sub] on HTML *)

Lemma sub_skip {S} (m : matcher) (f : text -> text -> S -> text * S) prev x l s :
  exists prev', sub m f prev (x ++ l) (length x) s = sub m f prev' l 0 s.
Proof. revert prev. induction x as [|c x IH]; intros prev; [by exists prev|]. simpl. apply IH. Qed.
Lemma sub_match {S} (m : matcher) (f : text -> text -> S -> text * S) prev g0 g1 l s :
  g0 <> [] -> m prev (g0 ++ l) = Some (g0, g1) ->
  exists prev', sub m f prev (g0 ++ l) 0 s =
    let '(r, s) := f g0 g1 s in let '(out, s) := sub m f prev' l 0 s in (r ++ out, s).
Proof.
  destruct g0 as [|c g]; [done|]. intros _ E. simpl in *. rewrite E. simpl.
  destruct (f (c :: g) g1 s) as [r s1]. destruct (sub_skip m f (Some c) g l s1) as [prev' ->]. by exists prev'.
Qed.

Lemma sub_state {S} (I : S -> Prop) (m : matcher) (f : text -> text -> S -> text * S) prev l skip s :
  (forall g0 g1 s, I s -> I (f g0 g1 s).2) -> I s -> I (sub m f prev l skip s).2.
Proof.
  intros F. revert prev skip s. induction l as [|c l IH]; intros prev skip s H; [done|]. simpl. destruct skip as [|k]; [|by apply IH].
  destruct (m prev (c :: l)) as [[g0 g1]|].
  - pose proof (F g0 g1 s H) as H1. destruct (f g0 g1 s) as [r s1]. simpl in H1.
    specialize (IH (Some c) (pred (length g0)) s1 H1). by destruct (sub m f (Some c) l _ s1).
  - specialize (IH (Some c) 0 s H). by destruct (sub m f (Some c) l 0 s).
Qed.

(** A match starts and ends with the marker [b]. *)
Definition fenced (m : matcher) (b : ascii) : Prop :=
  forall prev l g0 g1, m prev l = Some (g0, g1) -> exists x rest, g0 = b :: x ++ [b] /\ l = g0 ++ rest.

Lemma sub_html {S} (I : S -> Prop) (ok ok' : text -> Prop) (b : ascii) (m : matcher) (f : text -> text -> S -> text * S) :
  marker b -> fenced m b -> (forall i, ok i -> b ∉ i) -> (forall i, ok i -> ok' i) ->
  (forall prev l g0 g1 s, m prev l = Some (g0, g1) -> html ok g0 -> I s -> html ok' (f g0 g1 s).1 /\ I (f g0 g1 s).2) ->
  forall l prev s, html ok l -> I s -> html ok' (sub m f prev l 0 s).1 /\ I (sub m f prev l 0 s).2.
Proof.
  intros M F O K G.
  assert (L : forall n l u prev s, length l <= n -> html ok (u ++ l) -> I s ->
    html ok' (u ++ (sub m f prev l 0 s).1) /\ I (sub m f prev l 0 s).2).
  { induction n as [|n IH]; intros l u prev s Hn H HI.
    { destruct l; [|simpl in Hn; lia]. split; [by eapply html_mono|done]. }
    destruct l as [|c l]; [split; [by eapply html_mono|done]|].
    destruct (m prev (c :: l)) as [[g0 g1]|] eqn:E.
    - destruct (F _ _ _ _ E) as (x & rest & Eg & El). rewrite El in E, H, Hn |- *.
      assert (length rest <= n) as Hn' by (rewrite Eg in Hn; rewrite length_app in Hn; simpl in Hn; lia).
      assert (HS : html ok u /\ html ok g0 /\ html ok rest).
      { rewrite Eg in H. change (u ++ b :: ((x ++ [b]) ++ rest)) with (u ++ b :: ((x ++ [b]) ++ rest)) in H.
        simpl in H. apply html_cut in H as [Hu H]; [|done..]. rewrite <- app_assoc in H.
        apply html_cut in H as [Hx Hr]; [|done..]. split; [done|]. split; [|done]. rewrite Eg.
        pose proof (marker_text b M). apply html_char; [done|]. apply html_app; [done|]. by apply html_text, Forall_singleton. }
      destruct HS as (Hu & Hg & Hr). destruct (sub_match m f prev g0 g1 rest s) as [prev' ->]; [by rewrite Eg|done|].
      destruct (G _ _ _ _ s E Hg HI) as [G1 G2]. destruct (f g0 g1 s) as [r s1]. cbn [fst snd] in G1, G2.
      destruct (IH rest [] prev' s1 Hn' Hr G2) as [R1 R2]. destruct (sub m f prev' rest 0 s1) as [out s2]. cbn [fst snd] in *.
      split; [|done]. apply html_app; [by eapply html_mono|]. by apply html_app.
    - simpl. rewrite E. simpl in Hn. destruct (IH l (u ++ [c]) (Some c) s) as [R1 R2]; [lia|by rewrite <- app_assoc|done|].
      destruct (sub m f (Some c) l 0 s) as [out s2]. cbn [fst snd] in *. rewrite <- app_assoc in R1. by split. }
  intros l prev s H HI. by apply (L (length l) l [] prev s).
Qed.

(** ** The patterns *)

Lemma after_lit_some p l r : after_lit p l = Some r -> l = p ++ r.
Proof.
  unfold after_lit. destruct (chars_prefix p l) eqn:E; [|done]. intros [= <-].
  apply chars_prefix_spec in E as [r ->]. by rewrite drop_app_length.
Qed.
Lemma take_lit_some p l g : take_lit p l = Some g -> g = p /\ exists r, l = p ++ r.
Proof. unfold take_lit. destruct (chars_prefix p l) eqn:E; [|done]. intros [= <-]. split; [done|]. by apply chars_prefix_spec. Qed.
Lemma span_eq p l a r : span p l = (a, r) -> l = a ++ r /\ Forall (fun c => p c = true) a.
Proof.
  revert a r. induction l as [|c l IH]; simpl; intros a r; [intros [= <- <-]; by split|].
  destruct (p c) eqn:P; [|intros [= <- <-]; by split]. destruct (span p l) as [a' r'] eqn:E. intros [= <- <-].
  destruct (IH a' r' eq_refl) as [-> F]. split; [done|by apply Forall_cons].
Qed.
Lemma lazy_some dot k l a g : lazy dot k l = Some (a, g) -> exists l', l = a ++ l' /\ k l' = Some g.
Proof.
  revert a g. induction l as [|c l IH]; simpl; intros a g.
  { destruct (k []) as [g'|] eqn:E; [|done]. intros [= <- <-]. by exists []. }
  destruct (k (c :: l)) as [g'|] eqn:E; [intros [= <- <-]; by exists (c :: l)|]. destruct (dot c); [|done]. destruct (lazy dot k l) as [[a' g']|]; simpl; [|done]. intros [= <- <-].
  destruct (IH a' g' eq_refl) as (l' & -> & ?). by exists l'.
Qed.
Lemma run_between_some p q l g : run_between p q l = Some g -> exists a r, g = p ++ a ++ q /\ l = g ++ r.
Proof.
  unfold run_between. destruct (after_lit p l) as [l1|] eqn:E1; simpl; [|done]. apply after_lit_some in E1 as ->.
  destruct (span plain l1) as [a l2] eqn:E2. apply span_eq in E2 as [-> _].
  destruct (after_lit q l2) as [l3|] eqn:E3; simpl; [|done]. apply after_lit_some in E3 as ->. intros [= <-].
  exists a, l3. by rewrite <- !app_assoc.
Qed.

Lemma inline_code_fenced : fenced inline_code ("`")%char.
Proof.
  intros prev l g0 g1. unfold inline_code. destruct (after_lit _ l) as [l1|] eqn:E1; simpl; [|done]. apply after_lit_some in E1 as ->.
  destruct (span _ l1) as [a l2] eqn:E2. apply span_eq in E2 as [-> _].
  destruct (after_lit _ l2) as [l3|] eqn:E3; simpl; [|done]. apply after_lit_some in E3 as ->.
  case_bool_decide; [done|]. intros [= <- <-]. exists a, l3. split; [done|]. simpl. by rewrite <- app_assoc.
Qed.
Lemma triple_star_fenced : fenced triple_star ("*")%char.
Proof.
  intros prev l g0 g1. unfold triple_star. destruct (after_lit _ l) as [l1|] eqn:E1; simpl; [|done]. apply after_lit_some in E1 as ->.
  destruct (lazy _ _ l1) as [[a g]|] eqn:E2; simpl; [|done]. apply lazy_some in E2 as (l2 & -> & E2).
  apply take_lit_some in E2 as (-> & r & ->). intros [= <- <-]. exists (lit "**" ++ a ++ lit "**"), r. simpl.
  rewrite <- !app_assoc. by split.
Qed.
Lemma unsupported_fenced p q p' q' (m : matcher) :
  (forall prev l, m prev l =
     head ← run_between p q l; '(a, tail) ← lazy not_newline (run_between p' q') (drop (length head) l); Some (head ++ a ++ tail, [])) ->
  (exists x, p = ("*")%char :: x) -> (exists y, q' = y ++ [("*")%char]) -> fenced m ("*")%char.
Proof.
  intros Em [x ->] [y ->] prev l g0 g1. rewrite Em. destruct (run_between _ q l) as [head|] eqn:E1; simpl; [|done].
  apply run_between_some in E1 as (a1 & r1 & Eh & ->). rewrite drop_app_length.
  destruct (lazy _ _ r1) as [[a tail]|] eqn:E2; simpl; [|done]. apply lazy_some in E2 as (l2 & -> & E2).
  apply run_between_some in E2 as (a2 & r2 & Et & ->). intros [= <- <-].
  exists (x ++ a1 ++ q ++ a ++ p' ++ a2 ++ y), r2. rewrite Eh, Et. simpl. rewrite <- !app_assoc. by split.
Qed.
Lemma bold_some prev l g0 g1 : bold prev l = Some (g0, g1) -> starless g1 /\ exists rest, g0 = lit "**" ++ g1 ++ lit "**" /\ l = g0 ++ rest.
Proof.
  unfold bold. destruct (after_lit _ l) as [l1|] eqn:E1; simpl; [|done]. apply after_lit_some in E1 as ->.
  destruct (span _ l1) as [a l2] eqn:E2. apply span_eq in E2 as [-> F].
  destruct (after_lit _ l2) as [l3|] eqn:E3; simpl; [|done]. apply after_lit_some in E3 as ->.
  case_bool_decide; [done|]. intros [= <- <-]. split.
  - intros I. rewrite Forall_forall in F. by specialize (F _ I).
  - exists l3. simpl. by rewrite <- app_assoc.
Qed.
Lemma italic_some prev l g0 g1 : italic prev l = Some (g0, g1) -> exists rest, g0 = lit "*" ++ g1 ++ lit "*" /\ l = g0 ++ rest.
Proof.
  unfold italic. case_bool_decide; [done|]. destruct (after_lit _ l) as [l1|] eqn:E1; simpl; [|done]. apply after_lit_some in E1 as ->.
  destruct (span _ l1) as [a l2] eqn:E2. apply span_eq in E2 as [-> F].
  destruct (after_lit _ l2) as [l3|] eqn:E3; simpl; [|done]. apply after_lit_some in E3 as ->.
  destruct (_ || _); [done|]. intros [= <- <-]. exists l3. simpl. by rewrite <- app_assoc.
Qed.
Lemma bold_fenced : fenced bold ("*")%char.
Proof.
  intros prev l g0 g1 (_ & rest & -> & ->)%bold_some. exists (lit "*" ++ g1 ++ lit "*"), rest. simpl. by rewrite <- !app_assoc.
Qed.
Lemma italic_fenced : fenced italic ("*")%char.
Proof. intros prev l g0 g1 (rest & -> & ->)%italic_some. by exists g1, rest. Qed.

(** ** Putting a token's text back *)

(** A token starts with a character that is in no tag and no entity, and is text. *)
Definition token_text (t : text) : Prop := exists r, t = ("@")%char :: r /\ Forall text_char t.

Lemma replace_skip old new x l : replace_all old new (x ++ l) (length x) = replace_all old new l 0.
Proof. induction x as [|c x IH]; [done|apply IH]. Qed.
Lemma replace_here old new l : old <> [] -> replace_all old new (old ++ l) 0 = new ++ replace_all old new l 0.
Proof.
  destruct old as [|c old]; [done|]. intros _. simpl.
  rewrite bool_decide_eq_true_2 by done. rewrite (proj2 (chars_prefix_spec old (old ++ l))) by eauto. simpl. by rewrite replace_skip.
Qed.
Lemma replace_next old new c l : chars_prefix old (c :: l) = false -> replace_all old new (c :: l) 0 = c :: replace_all old new l 0.
Proof. intros E. simpl in *. by rewrite E. Qed.

Section replace.
Variables (old new : text).
Hypothesis T : token_text old.

Lemma replace_other c l : c <> ("@")%char -> replace_all old new (c :: l) 0 = c :: replace_all old new l 0.
Proof.
  intros N. destruct T as (r & -> & _). apply replace_next. simpl. rewrite bool_decide_eq_false_2; [done|congruence].
Qed.
Lemma replace_others x l : ("@")%char ∉ x -> replace_all old new (x ++ l) 0 = x ++ replace_all old new l 0.
Proof.
  induction x as [|c x IH]; intros N; [done|]. rewrite <- app_comm_cons, replace_other by set_solver.
  rewrite IH by set_solver. done.
Qed.
(** No occurrence reaches over a character that is not text. *)
Lemma replace_over x c l : ~ text_char c -> replace_all old new (x ++ c :: l) 0 = replace_all old new x 0 ++ c :: replace_all old new l 0.
Proof.
  intros N. destruct T as (r & E & F).
  assert (Nc : c ∉ old) by (intros H; rewrite Forall_forall in F; by apply N, F).
  assert (old <> []) as Ne by (by rewrite E).
  assert (c <> ("@")%char) as Na by (intros ->; apply Nc; rewrite E; left).
  remember (length x) as n eqn:Hn. revert x Hn. induction n as [n IH] using lt_wf_ind. intros x Hn.
  destruct x as [|d x]; [by apply replace_other|].
  destruct (chars_prefix old (d :: x ++ c :: l)) eqn:P.
  - apply chars_prefix_spec in P as [rest P]. symmetry in P. change (old ++ rest = (d :: x) ++ c :: l) in P.
    destruct (cut_app _ _ _ _ _ P Nc) as (a & Ea & ->). rewrite Ea in Hn |- *.
    rewrite <- app_assoc, !replace_here by done. rewrite (IH (length a)) by (rewrite ?Hn, ?length_app, ?E; simpl; lia || done).
    by rewrite app_assoc.
  - rewrite <- app_comm_cons, replace_next by done. rewrite (IH (length x)) by (rewrite ?Hn; simpl; lia || done).
    rewrite (replace_next old new d x); [done|]. destruct (chars_prefix old (d :: x)) eqn:Q; [|done].
    apply chars_prefix_spec in Q as [r' Q]. rewrite app_comm_cons, Q, <- app_assoc in P.
    by rewrite (proj2 (chars_prefix_spec old _)) in P by eauto.
Qed.

Lemma tag_shape o c : (o, c) ∈ elements -> forall x, x = o \/ x = c ->
  exists d y, x = d :: y /\ ~ text_char d /\ ("@")%char ∉ y.
Proof.
  unfold elements. rewrite !elem_of_cons, elem_of_nil. intros E x X.
  assert (L : ~ text_char ("<")%char) by (intros N; apply N; left).
  destruct E as [[= -> ->]|[[= -> ->]|[[= -> ->]|[[= -> ->]|[]]]]]; destruct X as [->| ->];
    (eexists _, _; split; [reflexivity|split; [exact L|apply (bool_decide_unpack _); vm_compute; exact I]]).
Qed.
Lemma entity_plain e : e ∈ entities -> ("@")%char ∉ e.
Proof.
  unfold entities. rewrite !elem_of_cons, elem_of_nil.
  intros [->|[->|[->|[->|[->|[]]]]]]; apply (bool_decide_unpack _); vm_compute; exact I.
Qed.
Lemma html_rest x l : Forall text_char x -> html anything (x ++ l) -> html anything l.
Proof.
  induction 1 as [|c x Tc F IH]; [done|]. intros H. apply IH. simpl in H. remember (c :: x ++ l) as k eqn:E.
  destruct H as [|d k T' H|e k N H|o t inner k N K I H]; [done|by injection E as -> ->|..]; exfalso.
  - unfold entities in N. rewrite !elem_of_cons, elem_of_nil in N.
    assert (L : ~ text_char ("&")%char) by (intros Q; apply Q; right; right; left).
    destruct N as [->|[->|[->|[->|[->|[]]]]]]; injection E as <- _; by apply L.
  - destruct (tag_shape o t N o (or_introl eq_refl)) as (d & y & -> & L & _). injection E as -> _. by apply L.
Qed.

Lemma replace_html l : html anything new -> html anything l -> html anything (replace_all old new l 0).
Proof.
  intros N. remember (length l) as n eqn:Hn. revert l Hn. induction n as [n IH] using lt_wf_ind. intros l Hn H.
  destruct H as [|c l Tc H|e l E H|o t inner l E K Hi H].
  - apply html_nil.
  - destruct (chars_prefix old (c :: l)) eqn:P.
    + apply chars_prefix_spec in P as [rest P]. destruct T as (r & Er & F). rewrite P in Hn |- *.
      rewrite replace_here by (by rewrite Er). apply html_app; [done|].
      apply (IH (length rest)); [rewrite Hn, length_app, Er; simpl; lia|done|]. apply (html_rest old); [done|]. rewrite <- P. by apply html_char.
    + rewrite replace_next by done. apply html_char; [done|]. apply (IH (length l)); [rewrite Hn; simpl; lia|done|done].
  - rewrite replace_others by (by apply entity_plain). apply html_entity; [done|]. apply (IH (length l)); [|done|done].
    rewrite Hn, length_app. unfold entities in E. rewrite !elem_of_cons, elem_of_nil in E.
    destruct E as [->|[->|[->|[->|[->|[]]]]]]; simpl; lia.
  - destruct (tag_shape o t E o (or_introl eq_refl)) as (d & y & -> & L1 & L2).
    destruct (tag_shape _ t E t (or_intror eq_refl)) as (d' & y' & -> & L3 & L4).
    assert (D : d <> ("@")%char) by (intros ->; apply L1; apply (bool_decide_unpack _); vm_compute; exact I).
    rewrite replace_others by set_solver. rewrite <- (app_comm_cons y'), replace_over by done. rewrite replace_others by done.
    rewrite app_comm_cons. apply html_element; [done|done|..].
    + apply (IH (length inner)); [rewrite Hn, !length_app; simpl; lia|done|done].
    + apply (IH (length l)); [rewrite Hn, !length_app; simpl; rewrite ?length_app; lia|done|done].
Qed.
End replace.

(** ** The whole conversion *)

Section html.
Variable uuid4_hex : nat -> string.
(** [uuid4().hex] is made of hexadecimal digits. *)
Hypothesis hex_text : forall n, Forall text_char (str_chars (uuid4_hex n)).

(** What stands for a token is HTML. *)
Definition replacements_ok (s : placeholders) : Prop :=
  Forall (fun e => token_text (str_chars e.1) /\ html anything e.2) (ph_replacements s).

Definition prefixes : list string := ["CODE_BLOCK"; "MARKDOWN_LINK"; "INLINE_CODE"; "UNSUPPORTED"].
Lemma token_ok p n : p ∈ prefixes -> token_text (str_chars (token uuid4_hex p n)).
Proof.
  intros P. unfold token. rewrite !str_chars_app. eexists. split; [reflexivity|].
  assert (Forall text_char (str_chars p)) as Fp.
  { unfold prefixes in P. rewrite !elem_of_cons, elem_of_nil in P.
    destruct P as [->|[->|[->|[->|[]]]]]; apply (bool_decide_unpack _); vm_compute; exact I. }
  repeat apply Forall_app_2; try done; apply (bool_decide_unpack _); vm_compute; exact I.
Qed.
Lemma Forall_od_set {V} (P : string * V -> Prop) k v (d : list (string * V)) : P (k, v) -> Forall P d -> Forall P (od_set k v d).
Proof. intros H. induction 1 as [|e d E F IH]; simpl; [by apply Forall_singleton|]. repeat case_match; subst; by apply Forall_cons. Qed.
Lemma store_ok ok p r s :
  p ∈ prefixes -> html anything r -> replacements_ok s ->
  html ok (store_replacement uuid4_hex p r s).1 /\ replacements_ok (store_replacement uuid4_hex p r s).2.
Proof.
  intros P R K. pose proof (token_ok p (ph_draws s) P) as T. split.
  - destruct T as (r' & _ & F). by apply html_text.
  - by apply Forall_od_set.
Qed.

Lemma html_any ok l : html ok l -> html anything l.
Proof. by apply html_mono. Qed.
Lemma escape_any l : html anything (escape l).
Proof. apply (html_any nothing), escape_flat. Qed.

(** The two passes over the text itself. *)
Lemma raw_pass (m : matcher) p (r : text -> text -> text) l s :
  p ∈ prefixes -> (forall g0 g1, html anything (r g0 g1)) -> replacements_ok s ->
  replacements_ok (sub m (fun g0 g1 => store_replacement uuid4_hex p (r g0 g1)) None l 0 s).2.
Proof. intros P R K. apply (sub_state replacements_ok); [|done]. intros g0 g1 s' K'. by apply (store_ok anything). Qed.
(** A pass over escaped text that leaves tokens. *)
Lemma flat_pass (m : matcher) b p (r : text -> text -> text) l s :
  marker b -> fenced m b -> p ∈ prefixes ->
  (forall prev l g0 g1, m prev l = Some (g0, g1) -> html nothing g0 -> html anything (r g0 g1)) ->
  html nothing l -> replacements_ok s ->
  let p := sub m (fun g0 g1 => store_replacement uuid4_hex p (r g0 g1)) None l 0 s in html nothing p.1 /\ replacements_ok p.2.
Proof.
  intros M F P R. apply (sub_html replacements_ok nothing nothing b); [done|done|done|done|].
  intros prev l' g0 g1 s' E H K. apply store_ok; [done| |done]. by eapply R.
Qed.

Lemma code_pass l s : replacements_ok s -> replacements_ok (sub code_block (replace_code_block uuid4_hex) None l 0 s).2.
Proof.
  apply (raw_pass code_block "CODE_BLOCK" (fun _ g1 => lit "<pre><code>" ++ escape g1 ++ lit "</code></pre>")); [left|].
  intros _ g1. apply (html_wrap anything anything); [left|done|done|apply escape_any].
Qed.
Lemma link_pass l s : replacements_ok s -> replacements_ok (sub markdown_link (replace_markdown_link uuid4_hex) None l 0 s).2.
Proof.
  apply (raw_pass markdown_link "MARKDOWN_LINK" (fun g0 _ => escape g0)); [right; left|]. intros g0 _. apply escape_any.
Qed.
Lemma inline_value prev l g0 g1 :
  inline_code prev l = Some (g0, g1) -> html nothing g0 -> html anything (lit "<code>" ++ g1 ++ lit "</code>").
Proof.
  intros E H. apply (html_wrap anything anything); [apply (bool_decide_unpack _); vm_compute; exact I|done|done|].
  unfold inline_code in E. destruct (after_lit _ l) as [l1|]; simpl in E; [|done]. destruct (span _ l1) as [a l2].
  destruct (after_lit _ l2); simpl in E; [|done]. case_bool_decide; [done|]. injection E as <- <-.
  apply (html_cut nothing ("`")%char []) in H as [_ H]; [|by right|done].
  apply html_cut in H as [H _]; [|by right|done]. by apply html_any in H.
Qed.
Lemma inline_pass l s :
  html nothing l -> replacements_ok s ->
  let p := sub inline_code (replace_inline_code uuid4_hex) None l 0 s in html nothing p.1 /\ replacements_ok p.2.
Proof.
  apply (flat_pass inline_code ("`")%char "INLINE_CODE" (fun _ g1 => lit "<code>" ++ g1 ++ lit "</code>"));
    [by right|apply inline_code_fenced|right; right; left|apply inline_value].
Qed.
Lemma star_pass m l s :
  fenced m ("*")%char -> html nothing l -> replacements_ok s ->
  let p := sub m (replace_unsupported_emphasis uuid4_hex) None l 0 s in html nothing p.1 /\ replacements_ok p.2.
Proof.
  intros F. apply (flat_pass m ("*")%char "UNSUPPORTED" (fun g0 _ => g0)); [by left|done|do 3 right; left|].
  intros prev l' g0 g1 _. apply html_any.
Qed.
Lemma bold_in_italic_fenced : fenced bold_in_italic ("*")%char.
Proof. by eapply unsupported_fenced; [|by eexists []|by eexists []]. Qed.
Lemma italic_in_bold_fenced : fenced italic_in_bold ("*")%char.
Proof. by eapply unsupported_fenced; [|by eexists|by eexists (lit "*")]. Qed.
Lemma bold_pass l s :
  html nothing l -> replacements_ok s ->
  let p := sub bold (wrap (lit "<b>") (lit "</b>")) None l 0 s in html starless p.1 /\ replacements_ok p.2.
Proof.
  apply (sub_html replacements_ok nothing starless ("*")%char); [by left|apply bold_fenced|done|done|].
  intros prev l' g0 g1 s' (S & rest & -> & _)%bold_some H K. split; [|done]. change (html starless (lit "<b>" ++ g1 ++ lit "</b>")).
  apply (html_wrap nothing starless); [apply (bool_decide_unpack _); vm_compute; exact I|done|done|].
  change (lit "**" ++ g1 ++ lit "**") with ([("*")%char] ++ ("*")%char :: g1 ++ ("*")%char :: [("*")%char]) in H.
  apply html_cut in H as [_ H]; [|by left|done]. by apply html_cut in H as [H _]; [|by left|].
Qed.
Lemma italic_pass l s :
  html starless l -> replacements_ok s ->
  let p := sub italic (wrap (lit "<i>") (lit "</i>")) None l 0 s in html anything p.1 /\ replacements_ok p.2.
Proof.
  apply (sub_html replacements_ok starless anything ("*")%char); [by left|apply italic_fenced|done|done|].
  intros prev l' g0 g1 s' (rest & -> & _)%italic_some H K. split; [|done]. change (html anything (lit "<i>" ++ g1 ++ lit "</i>")).
  apply (html_wrap starless anything); [apply (bool_decide_unpack _); vm_compute; exact I|done|done|].
  apply (html_cut starless ("*")%char []) in H as [_ H]; [|by left|done]. by apply html_cut in H as [H _]; [|by left|].
Qed.
Lemma put_back_html (r : list (string * text)) l :
  Forall (fun e => token_text (str_chars e.1) /\ html anything e.2) r -> html anything l ->
  html anything (foldl (fun l e => replace_all (str_chars e.1) e.2 l 0) l r).
Proof. intros F. revert l. induction F as [|e r [T H] F IH]; intros l L; [done|]. simpl. apply IH. by apply replace_html. Qed.

(** C14: The HTML sent to Telegram is well formed, whatever the message: its only tags are
    those of the conversion, closed and properly nested, and every other special character
    of the message is escaped. *)
Theorem telegram_html_wellformed s draws : html anything (str_chars (markdown_to_html uuid4_hex s draws)).
Proof.
  unfold markdown_to_html. rewrite str_chars_of_chars. unfold markdown_text.
  pose proof (code_pass (str_chars s) (mkPlaceholders draws []) (Forall_nil_2 _)) as K.
  destruct (sub code_block _ _ _ _ _) as [l1 s1]. pose proof (link_pass l1 s1 K) as K2.
  destruct (sub markdown_link _ _ _ _ _) as [l2 s2]. pose proof (inline_pass _ s2 (escape_flat l2) K2) as [H K3].
  destruct (sub inline_code _ _ _ _ _) as [l3 s3]. pose proof (star_pass triple_star l3 s3 triple_star_fenced H K3) as [H4 K4].
  destruct (sub triple_star _ _ _ _ _) as [l4 s4]. pose proof (star_pass _ l4 s4 bold_in_italic_fenced H4 K4) as [H5 K5].
  destruct (sub bold_in_italic _ _ _ _ _) as [l5 s5]. pose proof (star_pass _ l5 s5 italic_in_bold_fenced H5 K5) as [H6 K6].
  destruct (sub italic_in_bold _ _ _ _ _) as [l6 s6]. pose proof (bold_pass l6 s6 H6 K6) as [H7 K7].
  destruct (sub bold _ _ _ _ _) as [l7 s7]. pose proof (italic_pass l7 s7 H7 K7) as [H8 K8].
  destruct (sub italic _ _ _ _ _) as [l8 s8]. by apply put_back_html.
Qed.
End html.

Lemma telegram_html_wellformed_witness :
  markdown_to_html (fun _ => "0") "**1 < 2** `<b>`" 0 = "<b>1 &lt; 2</b> <code>&lt;b&gt;</code>" /\
  html anything (str_chars (markdown_to_html (fun _ => "0") "**1 < 2** `<b>`" 0)).
Proof.
  split; [vm_compute; reflexivity|]. apply telegram_html_wellformed.
  intros _. apply (bool_decide_unpack _). vm_compute. exact I.
Defined.
