(* ===== verification/ImClients.v ===== *)
(** * The clients of Feishu and Telegram

    [infra/im/feishu.py] and [infra/im/telegram.py]: the token and the messages sent over
    HTTP, the checks of the answers, the encrypted callbacks, the events read from a payload.
    The remote end is [http], from a request to the JSON of its answer or to the text of an
    exception; the requests made are recorded. AES-CBC and SHA-256 are parameters. *)


From stdpp Require Import base list option strings tactics gmap.
From Stdlib Require Import ZArith NArith Lia Ascii.
From S2P Require Import Prelude PyStr PyInt PyTime PyBase64 PyFloat PyDict PyJson Execution Auth Db Groups Messages PyPath TelegramHtml.

(** ** [str(v)] of a JSON value *)

(** [repr(s)]: in single quotes, or in double ones when only they save escapes. *)
Definition repr_char (q : ascii) (c : ascii) : list ascii :=
  let n := code c in
  if bool_decide (c = q) || bool_decide (c = backslash) then [backslash; c]
  else if (n =? 10)%N then [backslash; "n"%char]
  else if (n =? 13)%N then [backslash; "r"%char]
  else if (n =? 9)%N then [backslash; "t"%char]
  else if (n <? 32)%N || ((127 <=? n) && (n <=? 160))%N || (n =? 173)%N
  then backslash :: "x"%char :: [hex_char (n / 16); hex_char (n mod 16)]
  else [c].
Definition repr_string (s : string) : list ascii :=
  let l := str_chars s in
  let q := if bool_decide ("'"%char ∈ l) && negb (bool_decide (quote ∈ l)) then quote else "'"%char in
  q :: flat_map (repr_char q) l ++ [q].

Section str.
Variable float_repr : string -> string.
Fixpoint repr_json (v : json) : list ascii :=
  match v with
  | JNull => str_chars "None"
  | JBool true => str_chars "True"
  | JBool false => str_chars "False"
  | JInt n => print_int n
  | JFloat literal => str_chars (float_repr literal)
  | JStr s => repr_string s
  | JArr l => "["%char :: join (str_chars ", ") (map repr_json l) ++ ["]"%char]
  | JObj d => "{"%char :: join (str_chars ", ") (map (fun e => repr_string e.1 ++ str_chars ": " ++ repr_json e.2) d) ++ ["}"%char]
  end.
Definition py_str (v : json) : string := match v with JStr s => s | v => of_chars (repr_json v) end.
End str.

(** [v == 0]. *)
Definition equals_zero (v : json) : bool :=
  match v with
  | JInt n => (n =? 0)%Z
  | JBool b => negb b
  | JFloat literal => match float_of_str literal with Some (FFinite m _) => (m =? 0)%Z | _ => false end
  | _ => false
  end.
(** [isinstance(v, str) and v]. *)
Definition nonempty_str (v : option json) : option string :=
  match v with Some (JStr s) => if bool_decide (s = "") then None else Some s | _ => None end.
(** [d.get(k)] of something that may be no dict, which is an [AttributeError]. *)
Definition get (k : string) (v : json) : result handler_error (option json) :=
  match v with JObj d => Ok (od_get k d) | _ => Err OtherException end.
Definition client_error {A} (msg : string) : result handler_error A := Err (ClientError msg).

(** [s.split(sep, 1)[-1]]. *)
Definition after_first (sep s : string) : string :=
  match py_find (str_chars sep) (str_chars s) 0 with
  | Some i => of_chars (drop (i + String.length sep) (str_chars s))
  | None => s
  end.
(** [s.rstrip("/")]. *)
Definition rstrip_slashes (s : string) : string := of_chars (rev (drop_while is_slash (rev (str_chars s)))).

(** ** Requests *)

Record http_request := mkHttp {
  hr_method : string;
  hr_url : string;
  hr_body : json;
  hr_headers : list (string * string)
}.

(** A normalized event, [FeishuMessageEvent] and [TelegramMessageEvent]. *)
Record im_event := mkEvent {
  ev_event_type : string;
  ev_chat_id : string;
  ev_message_id : string;
  ev_sender_id : string;
  ev_message_type : string;
  ev_text : option string;
  ev_raw_event : list (string * json);
  ev_timestamp : Z
}.

(** A timestamp of a platform, in seconds, or in milliseconds when it is large. What
    [fromtimestamp] and [float] of a large [int] raise is not an error of the client. *)
Definition parse_platform_timestamp (bad : string) (v : json) : result handler_error Z :=
  numeric ← match v with
            | JBool _ => client_error bad
            | JStr s => match float_of_str s with Some x => Ok x | None => client_error bad end
            | JInt n => match float_of_int n with Some x => Ok x | None => Err OtherException end
            | JFloat literal => match float_of_str literal with Some x => Ok x | None => Err OtherException end
            | _ => client_error bad
            end;
  let numeric := if abs_at_least numeric 1000000000000 then divide numeric 1000 else numeric in
  match fromtimestamp numeric with PInstant t => Ok t | _ => Err OtherException end.

Section clients.
Variable float_repr : string -> string.
Variable http : http_request -> result string json.

Local Abbreviation H := (M (list http_request) handler_error).
Definition lift {A} (r : result handler_error A) : H A := fun s => (r, s).
(** [client.post(...)] or [client.get(...)] and [response.json()]. *)
Definition fetch (failed : string -> handler_error) (r : http_request) : H json := fun s =>
  (match http r with Ok v => Ok v | Err e => Err (failed e) end, s ++ [r]).

(** [payload.get(key, fallback)], printed: the text of a refusal. *)
Definition refusal (key fallback : string) (v : json) : string :=
  match v with JObj d => py_str float_repr (default (JStr fallback) (od_get key d)) | _ => "" end.

(** ** Feishu *)

Record FeishuClient := mkFeishu {
  fc_app_id : string;
  fc_app_secret : string;
  fc_encrypt_key : option string;
  fc_verification_token : option string;
  fc_base_url : string
}.
Definition FEISHU_BASE_URL : string := "https://open.feishu.cn".

Definition token_request (c : FeishuClient) : http_request :=
  mkHttp "POST" (rstrip_slashes (fc_base_url c) +:+ "/open-apis/auth/v3/tenant_access_token/internal")
    (JObj [("app_id", JStr (fc_app_id c)); ("app_secret", JStr (fc_app_secret c))]) [].
Definition get_access_token (c : FeishuClient) : H string :=
  payload ← fetch (fun _ => OtherException) (token_request c);
  code ← lift (get "code" payload);
  if negb (from_option equals_zero false code)
  then throw (ClientError (refusal "msg" "failed to fetch tenant access token" payload))
  else
    token ← lift (get "tenant_access_token" payload);
    match nonempty_str token with
    | Some s => mret s
    | None => throw (ClientError "tenant_access_token missing from Feishu response")
    end.

Definition serialize_message_content (content : json) : result handler_error string :=
  match content with
  | JStr s => Ok s
  | JObj _ => Ok (of_chars (print_json float_repr true None 0 content))
  | _ => client_error "invalid Feishu message content payload"
  end.

Definition message_request (c : FeishuClient) (receive_id receive_id_type msg_type content token : string) : http_request :=
  mkHttp "POST" (rstrip_slashes (fc_base_url c) +:+ "/open-apis/im/v1/messages?receive_id_type=" +:+ receive_id_type)
    (JObj [("receive_id", JStr receive_id); ("msg_type", JStr msg_type); ("content", JStr content)])
    [("Authorization", "Bearer " +:+ token)].
Definition feishu_send_message (c : FeishuClient) (receive_id : string) (content : list (string * json))
    (receive_id_type : string) : H json :=
  match nonempty_str (od_get "msg_type" content) with
  | None => throw (ClientError "msg_type is required for Feishu message sending")
  | Some msg_type =>
      match od_get "content" content with
      | None | Some JNull => throw (ClientError "content is required for Feishu message sending")
      | Some raw_content =>
          serialized ← lift (serialize_message_content raw_content);
          token ← get_access_token c;
          payload ← fetch (fun _ => OtherException) (message_request c receive_id receive_id_type msg_type serialized token);
          code ← lift (get "code" payload);
          if negb (from_option equals_zero false code)
          then throw (ClientError (refusal "msg" "failed to send Feishu message" payload))
          else mret payload
      end
  end.

(** *** Callbacks *)

(** The hexadecimal digest of SHA-256. *)
Variable sha256_hex : bytes -> string.
Definition is_ascii (s : string) : bool := forallb (fun c => (code c <? 128)%N) (str_chars s).
(** [compare_digest] takes only ASCII texts. *)
Definition verify_signature (c : FeishuClient) (timestamp nonce body signature : string) : result handler_error bool :=
  match fc_verification_token c with
  | None => Ok false
  | Some token =>
      if is_ascii signature
      then Ok (bool_decide (sha256_hex (PyBase64.utf8_encode (timestamp +:+ nonce +:+ token +:+ body)) = signature))
      else Err OtherException
  end.

(** [base64.b64decode], which skips [-] and [_]. *)
Definition b64decode (s : string) : option bytes :=
  if is_ascii s
  then a2b 0 0 0 (filter (fun c => negb (bool_decide (c = "-"%char \/ c = "_"%char))) (str_chars s))
  else None.
(** A [ValueError] of [base64] or of the cipher. *)
Definition or_other {A} (o : option A) : result handler_error A :=
  match o with Some a => Ok a | None => Err OtherException end.

Definition pkcs7_unpad (value : bytes) : result handler_error bytes :=
  match last value with
  | None => client_error "invalid padded payload"
  | Some c =>
      let padding := N.to_nat (code c) in
      if bool_decide (padding = 0) || (16 <? padding)%nat then client_error "invalid padded payload"
      else if bool_decide (drop (length value - padding) value = replicate padding c)
      then Ok (take (length value - padding) value)
      else client_error "invalid padded payload"
  end.

(** [int.from_bytes(l, byteorder="big")]. *)
Definition from_big_endian (l : bytes) : N := fold_left (fun n c => (n * 256 + code c)%N) l 0%N.

(** The text of some bytes, and the value of a text; beyond U+00FF is outside the model. *)
Definition decode_text (l : bytes) : result handler_error string :=
  match utf8_decode (of_chars l) with Decoded s => Ok s | _ => Err OtherException end.
Definition loads (s : string) : result handler_error json :=
  match json_loads s with Ok v => Ok v | Err _ => Err OtherException end.

(** AES in CBC mode: the key, the first block, the text; [None] is a [ValueError]. *)
Variable aes_cbc_decrypt : bytes -> bytes -> bytes -> option bytes.

Definition decrypt_event (c : FeishuClient) (encrypt : string) : result handler_error json :=
  match fc_encrypt_key c with
  | None => client_error "encrypt_key is required to decrypt Feishu events"
  | Some encrypt_key =>
      key ← or_other (b64decode (encrypt_key +:+ "="));
      encrypted ← or_other (b64decode encrypt);
      decrypted ← or_other (aes_cbc_decrypt key (take 16 key) encrypted);
      unpadded ← pkcs7_unpad decrypted;
      let content := drop 16 unpadded in
      if (length content <? 4)%nat then client_error "invalid Feishu encrypted payload"
      else
        let json_length := N.to_nat (from_big_endian (take 4 content)) in
        app_id ← decode_text (drop (4 + json_length) content);
        if negb (bool_decide (app_id = fc_app_id c)) then client_error "Feishu event app_id does not match client"
        else payload ← decode_text (take json_length (drop 4 content)); loads payload
  end.

(** [_extract_event]. *)
Definition extract_event (payload : list (string * json)) : option (string * list (string * json)) :=
  match (header ← od_get "header" payload;
         match header, od_get "event" payload with
         | JObj h, Some (JObj event) => match od_get "event_type" h with Some (JStr t) => Some (t, event) | _ => None end
         | _, _ => None
         end) with
  | Some r => Some r
  | None => match od_get "type" payload with Some (JStr t) => Some (t, payload) | _ => None end
  end.

Definition extract_sender_id (event : list (string * json)) : result handler_error string :=
  match od_get "sender" event with
  | Some (JObj sender) =>
      let found := match od_get "sender_id" sender with
                   | Some (JObj ids) => head (omap (fun k => nonempty_str (od_get k ids)) ["open_id"; "user_id"; "union_id"])
                   | _ => None
                   end in
      match found with Some s => Ok s | None => client_error "invalid Feishu sender payload" end
  | _ => client_error "missing Feishu sender payload"
  end.

(** [_extract_text]: an integer too long to read is not a [JSONDecodeError]. *)
Definition feishu_text (content : option json) : result handler_error (option string) :=
  match content with
  | Some (JStr s) =>
      match json_loads s with
      | Ok (JObj d) => Ok (nonempty_str (od_get "text" d))
      | Ok _ | Err JDecodeError => Ok None
      | Err _ => Err OtherException
      end
  | _ => Ok None
  end.

(** [d.get(k)], where [null] counts as absent. *)
Definition get_value (k : string) (d : list (string * json)) : option json :=
  match od_get k d with Some JNull => None | o => o end.

Definition feishu_timestamp (event message : list (string * json)) (now : Z) : result handler_error Z :=
  match get_value "create_time" message, get_value "create_time" event with
  | Some v, _ | None, Some v => parse_platform_timestamp "invalid Feishu message timestamp" v
  | None, None => Ok now
  end.

Definition handle_webhook_event (c : FeishuClient) (payload : list (string * json)) (now : Z) :
    result handler_error (option im_event) :=
  normalized ← match od_get "encrypt" payload with
               | Some (JStr encrypt) => decrypt_event c encrypt
               | Some _ => client_error "invalid Feishu encrypted payload"
               | None => Ok (JObj payload)
               end;
  match normalized with
  | JObj payload =>
      match extract_event payload with
      | None => Ok None
      | Some (event_type, raw_event) =>
          if negb (bool_decide (event_type = "im.message.receive_v1")) then Ok None
          else
            sender_id ← extract_sender_id raw_event;
            match od_get "message" raw_event with
            | Some (JObj message) =>
                match nonempty_str (od_get "chat_id" message), nonempty_str (od_get "message_id" message),
                      nonempty_str (od_get "message_type" message) with
                | Some chat_id, Some message_id, Some message_type =>
                    text ← feishu_text (od_get "content" message);
                    timestamp ← feishu_timestamp raw_event message now;
                    Ok (Some (mkEvent event_type chat_id message_id sender_id message_type text raw_event timestamp))
                | _, _, _ => client_error "invalid Feishu message payload"
                end
            | _ => client_error "missing Feishu message payload"
            end
      end
  | _ => Err OtherException
  end.

(** ** Telegram *)

Record TelegramClient := mkTelegram { tc_bot_token : string; tc_base_url : string }.
Definition TELEGRAM_BASE_URL : string := "https://api.telegram.org".
Definition telegram_url (c : TelegramClient) (method : string) : string :=
  rstrip_slashes (tc_base_url c) +:+ "/bot" +:+ tc_bot_token c +:+ "/" +:+ method.

(** [str(exc) or fallback]. *)
Definition or_fallback (fallback s : string) : string := if bool_decide (s = "") then fallback else s.
(** The checks of an answer of the Bot API. *)
Definition telegram_answer (fallback : string) (payload : json) : H (list (string * json)) :=
  match payload with
  | JObj d =>
      match od_get "ok" d with
      | Some (JBool true) => mret d
      | _ => throw (ClientError (refusal "description" fallback payload))
      end
  | _ => throw (ClientError "invalid Telegram response payload")
  end.
Definition telegram_fetch (fallback : string) (r : http_request) : H (list (string * json)) :=
  payload ← fetch (fun e => ClientError (or_fallback fallback e)) r; telegram_answer fallback payload.

Definition get_updates (c : TelegramClient) (offset timeout : Z) (allowed_updates : option (list string)) : H (list json) :=
  let params := [("offset", JInt offset); ("timeout", JInt timeout)] ++
                from_option (fun l => [("allowed_updates", JArr (map JStr l))]) [] allowed_updates in
  d ← telegram_fetch "failed to fetch Telegram updates" (mkHttp "GET" (telegram_url c "getUpdates") (JObj params) []);
  match od_get "result" d with
  | Some (JArr l) => mret l
  | _ => throw (ClientError "Telegram response missing result list")
  end.

Variable uuid4_hex : nat -> string.
Definition text_request (c : TelegramClient) (chat_id text : string) (draws : nat) : http_request :=
  mkHttp "POST" (telegram_url c "sendMessage")
    (JObj [("chat_id", JStr chat_id); ("text", JStr (markdown_to_html uuid4_hex text draws)); ("parse_mode", JStr "HTML")]) [].
Definition send_text_message (c : TelegramClient) (chat_id text : string) (draws : nat) : H json :=
  d ← telegram_fetch "failed to send Telegram message" (text_request c chat_id text draws); mret (JObj d).

Definition extract_required_identifier (v : option json) (field_name : string) : result handler_error string :=
  match v with
  | Some (JInt n) => Ok (of_chars (print_int n))
  | v => match nonempty_str v with
         | Some s => Ok s
         | None => client_error ("invalid Telegram " +:+ field_name +:+ " payload")
         end
  end.
Definition extract_message_type (message : list (string * json)) : string :=
  if bool_decide (is_Some (od_get "text" message)) then "text"
  else default "unknown" (find_first (fun k => bool_decide (is_Some (od_get k message)))
                            ["photo"; "document"; "voice"; "sticker"; "video"; "audio"; "animation"]).
Definition telegram_timestamp (message : list (string * json)) (now : Z) : result handler_error Z :=
  match get_value "date" message with
  | None => Ok now
  | Some v => parse_platform_timestamp "invalid Telegram message timestamp" v
  end.

Definition handle_update (update : list (string * json)) (now : Z) : result handler_error (option im_event) :=
  match get_value "message" update with
  | None => Ok None
  | Some (JObj message) =>
      match od_get "chat" message with
      | Some (JObj chat) =>
          match od_get "from" message with
          | Some (JObj sender) =>
              chat_id ← extract_required_identifier (od_get "id" chat) "chat";
              message_id ← extract_required_identifier (od_get "message_id" message) "message";
              sender_id ← extract_required_identifier (od_get "id" sender) "sender";
              timestamp ← telegram_timestamp message now;
              Ok (Some (mkEvent "message" chat_id message_id sender_id (extract_message_type message)
                          (nonempty_str (od_get "text" message)) message timestamp))
          | _ => client_error "invalid Telegram sender payload"
          end
      | _ => client_error "invalid Telegram chat payload"
      end
  | Some _ => client_error "invalid Telegram message payload"
  end.

(** ** The handlers of [app/routes/im.py] *)

Definition _send_feishu_message (c : FeishuClient) (m : UnifiedMessage) : H unit :=
  _ ← feishu_send_message c (after_first "feishu:" (um_chat_jid m))
        [("msg_type", JStr "text"); ("content", JObj [("text", JStr (um_content m))])] "chat_id";
  mret tt.
Definition _send_telegram_message (c : TelegramClient) (draws : nat) (m : UnifiedMessage) : H unit :=
  _ ← send_text_message c (after_first "telegram:" (um_chat_jid m)) (um_content m) draws;
  mret tt.
End clients.

Example str_examples :
  py_str id <$> [JStr "it's"; JNull; JArr [JStr "it's"; JInt (-3); JBool true]; JObj [("a", JFloat "1.5")]] =
    ["it's"; "None"; of_chars (str_chars "[" ++ [quote] ++ str_chars "it's" ++ [quote] ++ str_chars ", -3, True]"); "{'a': 1.5}"] /\
  after_first "feishu:" "feishu:oc_1feishu:2" = "oc_1feishu:2" /\ rstrip_slashes "https://a//" = "https://a".
Proof. vm_compute. done. Qed.

(** * The webhooks of Feishu and Telegram ([app/routes/im.py])

    The clients made from the environment, and the two routes, from the payload of a request
    to the answers sent back through the same platform. *)


(** [IMDispatchResponse]. *)
Inductive im_answer := Ignored | Dispatched (run_id : string).

Section im_routes.
Context {GT MT ST : Type} `{Table GT string RegisteredGroup} `{Table MT (string * string) GroupMember}
  `{Table ST (string * string) ConversationSlot}.

(** [os.getenv]. *)
Variable getenv : string -> option string.
Variable float_repr : string -> string.
Variable http : http_request -> result string json.
Variable aes_cbc_decrypt : bytes -> bytes -> bytes -> option bytes.
Variable uuid4_hex : nat -> string.
Variable sha1_12 : string -> string.
Variable execute : ExecutionRequest -> M (world GT MT ST) dispatch_error ExecutionResult.

Local Abbreviation R := (M (world GT MT ST) http_error).

Definition require_env (name : string) : result http_error string :=
  match getenv name with
  | Some value => if bool_decide (value = "") then Err (503%Z, name +:+ " is not configured") else Ok value
  | None => Err (503%Z, name +:+ " is not configured")
  end.
Definition get_feishu_client : result http_error FeishuClient :=
  app_id ← require_env "PORTEX_FEISHU_APP_ID";
  app_secret ← require_env "PORTEX_FEISHU_APP_SECRET";
  Ok (mkFeishu app_id app_secret (getenv "PORTEX_FEISHU_ENCRYPT_KEY") (getenv "PORTEX_FEISHU_VERIFICATION_TOKEN")
        FEISHU_BASE_URL).
Definition get_telegram_client : result http_error TelegramClient :=
  bot_token ← require_env "PORTEX_TELEGRAM_BOT_TOKEN"; Ok (mkTelegram bot_token TELEGRAM_BASE_URL).

(** The handlers of the router: each makes its client again. What they do and which
    requests they make, the placeholders of a text being drawn from the first on. *)
Definition feishu_handler (m : UnifiedMessage) : result handler_error unit * list http_request :=
  match get_feishu_client with
  | Ok c => _send_feishu_message float_repr http c m []
  | Err _ => (Err OtherException, [])
  end.
Definition telegram_handler (m : UnifiedMessage) : result handler_error unit * list http_request :=
  match get_telegram_client with
  | Ok c => _send_telegram_message float_repr http uuid4_hex c 0 m []
  | Err _ => (Err OtherException, [])
  end.

(** An exception of a client that leaves the route. *)
Definition client_failed (e : handler_error) : http_error :=
  match e with ClientError msg => (400%Z, msg) | OtherException => server_error end.
Definition answer_of {A} (r : result http_error A) : R A := fun w => (r, w).
Definition or_failed {A} (r : result handler_error A) : result http_error A :=
  match r with Ok a => Ok a | Err e => Err (client_failed e) end.

(** [dispatch_inbound_message(event.to_unified_message())]. *)
Definition receive_event (channel : string) (e : im_event) (d : draws) : R im_answer :=
  run_id ← receive_im (fun m => (feishu_handler m).1) (fun m => (telegram_handler m).1) sha1_12 execute channel
             (ev_chat_id e) (ev_sender_id e) (default "" (ev_text e)) (ev_message_id e) (ev_timestamp e) d;
  mret (Dispatched run_id).

(** [POST /im/feishu/webhook] of a JSON object. *)
Definition feishu_webhook (payload : list (string * json)) (d : draws) : R im_answer :=
  client ← answer_of get_feishu_client;
  event ← answer_of (or_failed (handle_webhook_event aes_cbc_decrypt client payload (dr_now d)));
  match event with
  | None => mret Ignored
  | Some e => receive_event "feishu" e d
  end.

(** [POST /im/telegram/updates] of a JSON object. *)
Definition telegram_update (payload : list (string * json)) (d : draws) : R im_answer :=
  client ← answer_of get_telegram_client;
  event ← answer_of (or_failed (handle_update payload (dr_now d)));
  match event with
  | None => mret Ignored
  | Some e =>
      match ev_text e with
      | None => mret Ignored
      | Some text => if bool_decide (strip text = "") then mret Ignored else receive_event "telegram" e d
      end
  end.
End im_routes.
