(* ===== verification/ImRoutesProps.v ===== *)
(** * Properties of the webhooks: where a reply goes, and what an encrypted callback says *)

From stdpp Require Import base tactics list option strings gmap.
From Stdlib Require Import ZArith NArith Lia Ascii.
From S2P Require Import Prelude PyStr PyBase64 PyDict PyJson Execution Auth Db Groups GroupsProps Messages MessagesProps PyPath TelegramHtml ImClients.

(** ** Replies *)

Lemma after_first_app sep s : after_first sep (sep +:+ s) = s.
Proof.
  unfold after_first, py_find. rewrite bool_decide_eq_true_2 by lia. rewrite drop_0, str_chars_app.
  
  assert (F : find_from (str_chars sep) (str_chars sep ++ str_chars s) 0 = Some 0).
  { assert (P : chars_prefix (str_chars sep) (str_chars sep ++ str_chars s) = true) by (apply chars_prefix_spec; eauto).
    destruct (str_chars sep ++ str_chars s); cbn; by rewrite P. }
  rewrite F. cbn. rewrite <- length_str_chars, drop_app_length. apply of_chars_str_chars.
Qed.

Section replies.
Variable float_repr : string -> string.
Variable http : http_request -> result string json.

(** The text message of Feishu with this content. *)
Definition feishu_text_content (text : string) : string :=
  of_chars (print_json float_repr true None 0 (JObj [("text", JStr text)])).

Lemma wp_lift {A} (r : result handler_error A) (Q : A -> list http_request -> Prop) (X : list http_request -> Prop) l :
  (forall a, r = Ok a -> Q a l) -> (forall e, r = Err e -> X l) -> wp (lift r) Q X l.
Proof. intros K HX. unfold wp, lift. destruct r as [a|e]; [by apply K|by apply (HX e)]. Qed.
Lemma wp_fetch f r (Q : json -> list http_request -> Prop) (X : list http_request -> Prop) l :
  (forall v, http r = Ok v -> Q v (l ++ [r])) -> X (l ++ [r]) -> wp (fetch http f r) Q X l.
Proof. intros K HX. unfold wp, fetch. destruct (http r); [by apply K|done]. Qed.
Lemma get_some k v o : get k v = Ok o -> exists d, v = JObj d /\ o = od_get k d.
Proof. destruct v; cbn; intros E; inv_res; try done. eauto. Qed.
Lemma nonempty_str_some o s : nonempty_str o = Some s -> o = Some (JStr s).
Proof. destruct o as [[]|]; try done. cbn. case_bool_decide; [done|]. by intros [= ->]. Qed.

Lemma token_spec c (l : list http_request) :
  wp (get_access_token float_repr http c)
    (fun token l' => l' = l ++ [token_request c] /\
       exists v, http (token_request c) = Ok (JObj v) /\ od_get "tenant_access_token" v = Some (JStr token))
    (fun l' => l' = l ++ [token_request c]) l.
Proof.
  unfold get_access_token. wp_step. apply wp_fetch; [|done]. intros v T. wp_step.
  apply wp_lift; [|done]. intros code (d & -> & ->)%get_some. wp_step; [by wp_step|]. wp_step.
  apply wp_lift; [|done]. intros o [= <-]. destruct (nonempty_str _) as [t|] eqn:N; [|by wp_step]. wp_step.
  apply nonempty_str_some in N. split; [done|]. by exists d.
Qed.

(** The token is asked for first. With it, the message is posted to its chat. *)
Lemma feishu_send_requests c chat m :
  um_chat_jid m = "feishu:" +:+ chat ->
  let p := _send_feishu_message float_repr http c m [] in
  p.2 = [token_request c] /\ p.1 <> Ok tt \/
  exists v token, http (token_request c) = Ok (JObj v) /\ od_get "tenant_access_token" v = Some (JStr token) /\
    let r := message_request c chat "chat_id" "text" (feishu_text_content (um_content m)) token in
    p.2 = [token_request c; r] /\
    (p.1 = Ok tt -> exists a, http r = Ok (JObj a) /\ equals_zero <$> od_get "code" a = Some true).
Proof.
  intros J. cbv zeta. set (Post := fun (ok : bool) (l : list http_request) =>
    (l = [token_request c] /\ ok = false \/
     exists v token, http (token_request c) = Ok (JObj v) /\ od_get "tenant_access_token" v = Some (JStr token) /\
      let r := message_request c chat "chat_id" "text" (feishu_text_content (um_content m)) token in
      l = [token_request c; r] /\
      (ok = true -> exists a, http r = Ok (JObj a) /\ equals_zero <$> od_get "code" a = Some true))).
  assert (W : wp (_send_feishu_message float_repr http c m) (fun _ => Post true) (Post false) []).
  { unfold _send_feishu_message. rewrite J, after_first_app. wp_step. unfold feishu_send_message.
    change (nonempty_str (od_get "msg_type" _)) with (Some "text").
    change (od_get "content" _) with (Some (JObj [("text", JStr (um_content m))])). cbv beta iota. wp_step.
    apply wp_lift; [|done]. intros x [= <-]. fold (feishu_text_content (um_content m)). wp_step.
    eapply wp_mono; [by apply token_spec| |by intros l' ->; left]. intros token l' (-> & v & T & K). wp_step.
    assert (F : forall l, l = [token_request c; message_request c chat "chat_id" "text" (feishu_text_content (um_content m)) token] -> Post false l)
      by (intros l ->; right; by exists v, token).
    apply wp_fetch; [|by apply F]. intros a A. wp_step. apply wp_lift; [|intros; by apply F].
    intros code (d & -> & ->)%get_some. wp_step; [wp_step; by apply F|]. wp_step. wp_step. right. exists v, token.
    split; [done|]. split; [done|]. split; [done|]. intros _. exists d. split; [done|].
    destruct (od_get "code" d); [|done]. cbn in *. by destruct (equals_zero j). }
  unfold wp in W. destruct (_send_feishu_message _ _ _ _ _) as [[[]|e] l]; cbn [fst snd].
  - destruct W as [[_ ?]|(v & token & T & K & P & A)]; [done|]. right. exists v, token. split_and!; try done. intros _. by apply A.
  - destruct W as [[-> _]|(v & token & T & K & P & A)]; [by left|]. right. by exists v, token.
Qed.

Lemma telegram_send_requests uuid4_hex c n chat m :
  um_chat_jid m = "telegram:" +:+ chat ->
  let p := _send_telegram_message float_repr http uuid4_hex c n m [] in
  let r := text_request uuid4_hex c chat (um_content m) n in
  p.2 = [r] /\ (p.1 = Ok tt -> exists a, http r = Ok (JObj a) /\ od_get "ok" a = Some (JBool true)).
Proof.
  intros J. cbv zeta. unfold _send_telegram_message. rewrite J, after_first_app.
  unfold send_text_message, telegram_fetch, fetch, mbind, M_bind. set (r := text_request _ _ _ _ _). cbn -[r].
  destruct (http r) as [v|e] eqn:T; [|by split]. unfold telegram_answer. destruct v as [| | | | | |v]; try (by split).
  destruct (od_get "ok" v) as [[|[]| | | | |]|] eqn:K; try (by split). split; [done|]. intros _. by exists v.
Qed.
End replies.

(** ** What a dispatch sends *)

Section dispatch.
Context {GT MT ST : Type} `{Table GT string RegisteredGroup} `{Table MT (string * string) GroupMember}
  `{Table ST (string * string) ConversationSlot}.
Local Abbreviation W := (world GT MT ST).
Variables feishu_send telegram_send : UnifiedMessage -> result handler_error unit.
Variable sha1_12 : string -> string.
Variable execute : ExecutionRequest -> M W dispatch_error ExecutionResult.
(** What other dispatches send meanwhile is not recorded with this one. *)
Hypothesis execute_sends_nothing : forall r w, w_sent (execute r w).2 = w_sent w.

(** [m] carries the output of a run of the content of [message]. *)
Definition answers_message (message m : UnifiedMessage) : Prop :=
  um_channel m = um_channel message /\ um_chat_jid m = um_chat_jid message /\
  exists r w x w', execute r w = (Ok x, w') /\ rq_prompt r = um_content message /\ rq_chat_jid r = um_chat_jid message /\
    rs_status x = StCompleted /\ rs_final_output x = Some (um_content m).
Definition handler_of (channel : string) : UnifiedMessage -> result handler_error unit :=
  if bool_decide (channel = "feishu") then feishu_send
  else if bool_decide (channel = "telegram") then telegram_send else noop_web_handler.

(** At most one message is sent, the answer; when all went well its handler did not raise. *)
Definition sends (message : UnifiedMessage) (ok : bool) (w w' : W) : Prop :=
  exists out, w_sent w' = w_sent w ++ out /\
    (out = [] \/ exists m, out = [m] /\ answers_message message m /\
                    (ok = true -> handler_of (um_channel message) m = Ok tt)).

Lemma sends_nothing message ok (w w' : W) : w_sent w' = w_sent w -> sends message ok w w'.
Proof. intros E. exists []. rewrite app_nil_r. auto. Qed.

Lemma route_sends m (w : W) :
  wp (route_message feishu_send telegram_send m)
    (fun _ w' => w_sent w' = w_sent w ++ [m] /\ handler_of (um_channel m) m = Ok tt)
    (fun w' => w_sent w' = w_sent w ++ [m] \/ w_sent w' = w_sent w) w.
Proof.
  assert (S : forall h : UnifiedMessage -> result handler_error unit, wp (send h m) (fun _ w' => w_sent w' = w_sent w ++ [m] /\ h m = Ok tt)
                         (fun w' => w_sent w' = w_sent w ++ [m] \/ w_sent w' = w_sent w) w).
  { intros h. unfold send. wp_step. wp_step. destruct (h m) as [[]|] eqn:E; wp_step; [done|by left]. }
  unfold route_message.
  repeat match goal with |- wp (match ?x with _ => _ end) _ _ _ => destruct x end;
    first [by apply S | by apply wp_throw; right].
Qed.

Lemma target_of_chat message now (w : W) :
  um_group_folder message = None ->
  wp (resolve_target sha1_12 message now)
    (fun t w' => tg_chat_jid t = um_chat_jid message /\ w_sent w' = w_sent w) (fun w' => w_sent w' = w_sent w) w.
Proof.
  intros N. unfold resolve_target. rewrite N. unfold resolve_registered_im_target. cbv zeta. wp_step; [by wp_step|]. wp_step.
  eapply wp_mono; [by apply on_db_log| |by intros w1 [_ E]]. intros a w1 [_ E1]. wp_step.
  eapply wp_mono; [by apply on_db_log| |intros w2 [_ E]; congruence]. intros b w2 [_ E2]. wp_step. split; [done|congruence].
Qed.

Lemma dispatch_sends message d (w : W) :
  um_group_folder message = None ->
  wp (dispatch_inbound_message feishu_send telegram_send sha1_12 execute message None d)
    (fun _ => sends message true w) (sends message false w) w.
Proof.
  intros N. unfold dispatch_inbound_message. wp_step; [wp_step; by apply sends_nothing|]. wp_step.
  eapply wp_mono; [by apply target_of_chat| |by intros w1 E; apply sends_nothing]. intros t w1 [J E1]. wp_step.
  eapply wp_mono; [by apply register_target_log| |intros w2 [_ E]; apply sends_nothing; congruence]. intros a2 w2 [_ E2].
  cbv zeta. wp_step. unfold store_message at 1. wp_step. wp_step. wp_step. set (i := mkMessage _ _ _ _ _ false _ _).
  set (w3 := mkWorld _ _ _). wp_step. unfold wp at 1.
  set (req := build_execution_request _ _ _ _ _). pose proof (execute_sends_nothing req w3) as E4.
  destruct (execute req w3) as [[x|e] w4] eqn:Ex; cbn [snd] in E4; [|apply sends_nothing; cbn in E4; congruence].
  assert (E : w_sent w4 = w_sent w) by (cbn in E4; congruence).
  wp_step; [wp_step; by apply sends_nothing|]. bool_hyps. wp_step; [|wp_step; by apply sends_nothing].
  wp_step; [wp_step; by apply sends_nothing|]. wp_step. unfold unified_message. wp_step; [wp_step; by apply sends_nothing|].
  wp_step. set (um := mkUnified _ _ _ _ _ _ _ _).
  assert (A : answers_message message um).
  { split; [done|]. split; [done|]. exists req, w3, x, w4. split; [done|]. split; [done|]. by rewrite <- J. }
  wp_step. eapply wp_mono; [by apply route_sends| |].
  - intros a5 w5 [S Hok]. wp_step. unfold store_message. wp_step. wp_step. wp_step. wp_step. exists [um].
    cbn [w_sent]. split; [congruence|]. right. exists um. by split_and!.
  - intros w5 [S|S]; [|apply sends_nothing; congruence]. exists [um]. split; [congruence|]. right. by exists um.
Qed.
End dispatch.

(** ** The webhooks *)

Section webhooks.
Context {GT MT ST : Type} `{Table GT string RegisteredGroup} `{Table MT (string * string) GroupMember}
  `{Table ST (string * string) ConversationSlot}.
Local Abbreviation W := (world GT MT ST).
Variable getenv : string -> option string.
Variable float_repr : string -> string.
Variable http : http_request -> result string json.
Variable aes_cbc_decrypt : bytes -> bytes -> bytes -> option bytes.
Variable uuid4_hex : nat -> string.
Variable sha1_12 : string -> string.
Variable execute : ExecutionRequest -> M W dispatch_error ExecutionResult.

Inductive platform := Feishu | Telegram.
Definition channel_of (p : platform) : string := match p with Feishu => "feishu" | Telegram => "telegram" end.
Definition webhook (p : platform) (payload : list (string * json)) (d : draws) : M W http_error im_answer :=
  match p with
  | Feishu => feishu_webhook getenv float_repr http aes_cbc_decrypt uuid4_hex sha1_12 execute payload d
  | Telegram => telegram_update getenv float_repr http uuid4_hex sha1_12 execute payload d
  end.

(** The event of a payload that is handed on. *)
Definition received (p : platform) (payload : list (string * json)) (now : Z) : option im_event :=
  match p with
  | Feishu =>
      match get_feishu_client getenv with
      | Ok c => match handle_webhook_event aes_cbc_decrypt c payload now with Ok o => o | Err _ => None end
      | Err _ => None
      end
  | Telegram =>
      match get_telegram_client getenv, handle_update payload now with
      | Ok _, Ok (Some e) => match ev_text e with Some t => if bool_decide (strip t = "") then None else Some e | None => None end
      | _, _ => None
      end
  end.
Definition event_message (p : platform) (e : im_event) : UnifiedMessage :=
  im_message (channel_of p) (ev_chat_id e) (ev_sender_id e) (default "" (ev_text e)) (ev_message_id e) (ev_timestamp e).

(** The requests made to send [m] to the chat of the event, and, with [ok], that the
    platform accepted the last. *)
Definition posted (p : platform) (e : im_event) (m : UnifiedMessage) (ok : bool) : Prop :=
  match p with
  | Feishu =>
      exists c, get_feishu_client getenv = Ok c /\
        (ok = false /\ (feishu_handler getenv float_repr http m).2 = [token_request c] \/
         exists v token, http (token_request c) = Ok (JObj v) /\ od_get "tenant_access_token" v = Some (JStr token) /\
           let r := message_request c (ev_chat_id e) "chat_id" "text" (feishu_text_content float_repr (um_content m)) token in
           (feishu_handler getenv float_repr http m).2 = [token_request c; r] /\
           (ok = true -> exists a, http r = Ok (JObj a) /\ equals_zero <$> od_get "code" a = Some true))
  | Telegram =>
      exists c, get_telegram_client getenv = Ok c /\
        let r := text_request uuid4_hex c (ev_chat_id e) (um_content m) 0 in
        (telegram_handler getenv float_repr http uuid4_hex m).2 = [r] /\
        (ok = true -> exists a, http r = Ok (JObj a) /\ od_get "ok" a = Some (JBool true))
  end.
(** Nothing but at most the output of the run of the event, to its chat. *)
Definition replied (p : platform) (e : im_event) (ok : bool) (w w' : W) : Prop :=
  exists out, w_sent w' = w_sent w ++ out /\
    (out = [] \/ exists m, out = [m] /\ answers_message execute (event_message p e) m /\ posted p e m ok).

Lemma client_known p payload now e : received p payload now = Some e ->
  match p with Feishu => exists c, get_feishu_client getenv = Ok c | Telegram => exists c, get_telegram_client getenv = Ok c end.
Proof. destruct p; cbn; [destruct (get_feishu_client _)|destruct (get_telegram_client _)]; intros; eauto; done. Qed.

Lemma posted_to_its_chat p payload now e m ok :
  received p payload now = Some e -> um_chat_jid m = channel_of p +:+ ":" +:+ ev_chat_id e ->
  (ok = true -> handler_of (fun m => (feishu_handler getenv float_repr http m).1)
                  (fun m => (telegram_handler getenv float_repr http uuid4_hex m).1) (channel_of p) m = Ok tt) ->
  posted p e m ok.
Proof.
  intros R%client_known J K. destruct p, R as [c C]; exists c; (split; [done|]).
  - unfold handler_of in K. cbn in K. unfold feishu_handler in *. rewrite C in *.
    destruct (feishu_send_requests float_repr http c (ev_chat_id e) m J) as [[P N]|(v & token & T & V & P & A)].
    + left. split; [|done]. destruct ok; [|done]. by destruct N; apply K.
    + right. exists v, token. split_and!; try done. intros E. apply A, K, E.
  - unfold handler_of in K. cbn in K. unfold telegram_handler in *. rewrite C in *.
    destruct (telegram_send_requests float_repr http uuid4_hex c 0 (ev_chat_id e) m J) as [P A]. split; [done|]. intros E. apply A, K, E.
Qed.

Lemma receive_replies p payload e d w :
  (forall r w, w_sent (execute r w).2 = w_sent w) -> received p payload (dr_now d) = Some e ->
  wp (receive_event getenv float_repr http uuid4_hex sha1_12 execute (channel_of p) e d)
    (fun _ => replied p e true w) (replied p e false w) w.
Proof.
  intros X R. unfold receive_event, receive_im. wp_step. wp_step. wp_step. wp_step.
  assert (P : forall ok w', sends (fun m => (feishu_handler getenv float_repr http m).1)
                  (fun m => (telegram_handler getenv float_repr http uuid4_hex m).1) execute (event_message p e) ok w w' -> replied p e ok w w').
  { intros ok w' (out & E & O). exists out. split; [done|]. destruct O as [O|(m & -> & A & K)]; [by left|]. right. exists m.
    split; [done|]. split; [done|]. destruct A as (C & J & _). apply (posted_to_its_chat p payload (dr_now d)); [done|done|].
    exact K. }
  unfold unified_message. wp_step; [wp_step; by apply P, sends_nothing|]. wp_step.
  eapply wp_mono; [by apply dispatch_sends| |by intros; apply P]. intros r w' S. wp_step. wp_step. by apply P.
Qed.

(** C12: A reply goes back where the message came from. A request to a webhook makes no
    other request and changes nothing unless its payload has an event; then at most one
    message is sent, the output of a completed run of the text of the event, by the
    requests to the platform that post it to the chat of the event, for Feishu with a token
    just asked for. When the request is answered without an error the platform has accepted
    that message. *)
Theorem replies_go_home p payload d w :
  (forall r w, w_sent (execute r w).2 = w_sent w) ->
  let '(r, w') := webhook p payload d w in
  match received p payload (dr_now d) with
  | None => w' = w /\ (r = Ok Ignored \/ exists e, r = Err e)
  | Some e => replied p e (is_ok r) w w' /\ r <> Ok Ignored
  end.
Proof.
  intros X. assert (K : forall e, received p payload (dr_now d) = Some e ->
    let '(r, w') := receive_event getenv float_repr http uuid4_hex sha1_12 execute (channel_of p) e d w in
    replied p e (is_ok r) w w' /\ r <> Ok Ignored).
  { intros e R. pose proof (receive_replies p payload e d w X R) as S. unfold wp in S.
    destruct (receive_event _ _ _ _ _ _ _ _ _ _) as [[a|x] w'] eqn:E; [|done]. split; [done|]. intros [= ->].
    apply M_bind_ok in E as (? & ? & _ & E). discriminate E. }
  destruct p; cbn [webhook received channel_of] in *.
  - unfold feishu_webhook, answer_of. destruct (get_feishu_client getenv) as [c|x]; [|split; [done|right; by eexists]].
    rewrite (M_bind_eq _ _ _ c w) by done. destruct (handle_webhook_event _ c payload (dr_now d)) as [o|x]; [|split; [done|right; by eexists]].
    rewrite (M_bind_eq _ _ _ o w) by done. destruct o as [e|]; [by apply K|split; [done|by left]].
  - unfold telegram_update, answer_of. destruct (get_telegram_client getenv) as [c|x]; [|split; [done|right; by eexists]].
    rewrite (M_bind_eq _ _ _ c w) by done. destruct (handle_update payload (dr_now d)) as [o|x]; [|split; [done|right; by eexists]].
    rewrite (M_bind_eq _ _ _ o w) by done. destruct o as [e|]; [|split; [done|by left]].
    destruct (ev_text e) as [t|]; [|split; [done|by left]]. case_bool_decide; [split; [done|by left]|by apply K].
Qed.
End webhooks.

(** ** Encrypted callbacks *)

(** The standard alphabet. *)
Definition standard (c : ascii) : ascii :=
  if bool_decide (c = "-"%char) then "+"%char else if bool_decide (c = "_"%char) then "/"%char else c.
Definition b64encode (l : bytes) : string := of_chars (map standard (urlsafe_b64encode l)).

Lemma char_sextet_standard c : char_sextet (standard c) = char_sextet c.
Proof. destruct c as [[] [] [] [] [] [] [] []]; reflexivity. Qed.
Lemma standard_pad c : bool_decide (standard c = pad_char) = bool_decide (c = pad_char).
Proof. destruct c as [[] [] [] [] [] [] [] []]; reflexivity. Qed.
Lemma a2b_standard l pos left pads : a2b pos left pads (map standard l) = a2b pos left pads l.
Proof.
  revert pos left pads. induction l as [|c l IH]; intros pos left pads; [done|]. cbn [map a2b].
  rewrite standard_pad, char_sextet_standard. case_bool_decide; [by rewrite !IH|].
  destruct (char_sextet c); [|done]. destruct pos as [|[|[|]]]; by rewrite IH.
Qed.
(** A character of the alphabet or the pad. *)
Definition b64_char (c : ascii) : bool :=
  (code (standard c) <? 128)%N && negb (bool_decide (standard c = "-"%char \/ standard c = "_"%char)).
Lemma b64_chars l : Forall (fun c => b64_char c = true) (urlsafe_b64encode l).
Proof.
  apply Forall_app. split.
  - apply Forall_forall. intros c (n & Hn & ->)%b64_body_sextet. revert n Hn. apply sextet_cases. vm_compute. reflexivity.
  - unfold b64_pad. destruct (_ `mod` 3) as [|[|]]; repeat constructor.
Qed.
Lemma b64decode_encode l : b64decode (b64encode l) = Some l.
Proof.
  unfold b64decode, b64encode, is_ascii. rewrite str_chars_of_chars.
  assert (F : forall k, Forall (fun c => b64_char c = true) k ->
    forallb (fun c => (code c <? 128)%N) (map standard k) = true /\
    filter (fun c => negb (bool_decide (c = "-"%char \/ c = "_"%char))) (map standard k) = map standard k).
  { induction 1 as [|c k [A B]%andb_true_iff _ [IH1 IH2]]; [done|]. cbn [map forallb]. rewrite A, IH1. split; [done|].
    rewrite filter_cons_True by (rewrite B; exact I). by rewrite IH2. }
  destruct (F _ (b64_chars l)) as [-> ->]. rewrite a2b_standard. apply b64_roundtrip.
Qed.

Definition pkcs7_pad (l : bytes) : bytes :=
  let n := 16 - length l mod 16 in l ++ replicate n (byte_of (N.of_nat n)).
Lemma pkcs7_bound (l : bytes) : 0 < 16 - length l mod 16 <= 16.
Proof. pose proof (Nat.mod_upper_bound (length l) 16). lia. Qed.
Lemma pkcs7_roundtrip l : pkcs7_unpad (pkcs7_pad l) = Ok l.
Proof.
  unfold pkcs7_unpad, pkcs7_pad. cbv zeta. pose proof (pkcs7_bound l) as B. set (n := 16 - length l mod 16) in *. clearbody n.
  assert (L : last (l ++ replicate n (byte_of (N.of_nat n))) = Some (byte_of (N.of_nat n))).
  { destruct n as [|n]; [lia|]. rewrite replicate_S_end, app_assoc. apply last_snoc. }
  rewrite L, code_byte_of, Nat2N.id by lia. rewrite bool_decide_eq_false_2 by lia. cbn [orb].
  rewrite (proj2 (Nat.ltb_ge _ _)) by lia. rewrite length_app, length_replicate.
  replace (length l + n - n) with (length l) by lia. rewrite drop_app_length, take_app_length. by rewrite bool_decide_eq_true_2.
Qed.
Lemma pkcs7_blocks l : length (pkcs7_pad l) mod 16 = 0.
Proof.
  unfold pkcs7_pad. rewrite length_app, length_replicate. pose proof (pkcs7_bound l) as B.
  pose proof (Nat.div_mod_eq (length l) 16) as D.
  replace (length l + (16 - length l mod 16)) with ((length l / 16 + 1) * 16) by lia. apply Nat.Div0.mod_mul.
Qed.

(** [n.to_bytes(4, byteorder="big")]. *)
Definition big_endian (n : N) : bytes := map byte_of [n / 16777216; n / 65536 mod 256; n / 256 mod 256; n mod 256]%N.
Lemma big_endian_roundtrip n : (n < 4294967296)%N -> from_big_endian (big_endian n) = n.
Proof.
  intros L. unfold from_big_endian, big_endian. cbn [map fold_left].
  assert (n / 16777216 < 256)%N by (apply N.Div0.div_lt_upper_bound; lia).
  rewrite !code_byte_of by first [done|apply N.mod_lt; lia].
  zify. Z.to_euclidean_division_equations. lia.
Qed.

Section callbacks.
Variables aes_cbc_encrypt : bytes -> bytes -> bytes -> bytes.
Variable aes_cbc_decrypt : bytes -> bytes -> bytes -> option bytes.
(** With a key of a right length, an initial block and whole blocks, decryption undoes
    encryption. *)
Hypothesis aes_cbc_inverse : forall key iv l,
  length key ∈ [16; 24; 32] -> length iv = 16 -> length l mod 16 = 0 ->
  aes_cbc_decrypt key iv (aes_cbc_encrypt key iv l) = Some l.

(** What the platform sends: random bytes, the length of the payload, the payload and the
    id of the app, padded, encrypted and encoded. *)
Definition envelope (key random : bytes) (payload app_id : string) : string :=
  let json_bytes := str_chars (PyPath.utf8_encode payload) in
  b64encode (aes_cbc_encrypt key (take 16 key)
    (pkcs7_pad (random ++ big_endian (N.of_nat (length json_bytes)) ++ json_bytes ++ str_chars (PyPath.utf8_encode app_id)))).

Lemma decode_text_encoded s : decode_text (str_chars (PyPath.utf8_encode s)) = Ok s.
Proof. unfold decode_text. by rewrite of_chars_str_chars, utf8_roundtrip. Qed.

Lemma decrypt_envelope c k key random payload app_id v :
  fc_encrypt_key c = Some k -> b64decode (k +:+ "=") = Some key -> length key ∈ [16; 24; 32] -> length random = 16 ->
  (utf8_len payload < 4294967296)%Z -> json_loads payload = Ok v ->
  decrypt_event aes_cbc_decrypt c (envelope key random payload app_id) =
    if bool_decide (app_id = fc_app_id c) then Ok v else Err (ClientError "Feishu event app_id does not match client").
Proof.
  intros K B L R S P. unfold decrypt_event. rewrite K, B. cbn [or_other mbind result_bind]. unfold envelope.
  rewrite b64decode_encode. cbn [or_other mbind result_bind]. rewrite aes_cbc_inverse.
  2: done. 2:{ rewrite length_take. apply Nat.min_l. by repeat (apply elem_of_cons in L as [->|L]; [lia|]); apply not_elem_of_nil in L. }
  2: apply pkcs7_blocks. cbn [or_other mbind result_bind]. rewrite pkcs7_roundtrip. cbn [mbind result_bind].
  rewrite drop_app_length' by done. set (j := str_chars (PyPath.utf8_encode payload)). set (a := str_chars (PyPath.utf8_encode app_id)).
  assert (J : (N.of_nat (length j) < 4294967296)%N).
  { unfold j. rewrite length_str_chars. rewrite <- utf8_encode_size in S. lia. }
  set (n := big_endian _). change (length (n ++ j ++ a) <? 4) with false. cbv iota.
  change (take 4 (n ++ j ++ a)) with n. unfold n at 1 3. rewrite big_endian_roundtrip, Nat2N.id by done.
  change (drop 4 (n ++ j ++ a)) with (j ++ a). change (drop (4 + length j) (n ++ j ++ a)) with (drop (length j) (j ++ a)).
  rewrite drop_app_length, take_app_length. unfold a, j. rewrite !decode_text_encoded. cbn [mbind result_bind].
  case_bool_decide; [|done]. unfold loads. by rewrite P.
Qed.

(** C13: An encrypted callback of Feishu is handled as the payload inside it: any JSON text
    the platform encrypts for the app with its key is read back, and one encrypted for
    another app is refused. *)
Theorem encrypted_callback_is_its_payload c k key random payload app_id v now :
  fc_encrypt_key c = Some k -> b64decode (k +:+ "=") = Some key -> length key ∈ [16; 24; 32] -> length random = 16 ->
  (utf8_len payload < 4294967296)%Z -> json_loads payload = Ok (JObj v) -> od_get "encrypt" v = None ->
  handle_webhook_event aes_cbc_decrypt c [("encrypt", JStr (envelope key random payload app_id))] now =
    if bool_decide (app_id = fc_app_id c) then handle_webhook_event aes_cbc_decrypt c v now
    else Err (ClientError "Feishu event app_id does not match client").
Proof.
  intros K B L R S P N. unfold handle_webhook_event. rewrite N.
  change (od_get "encrypt" _) with (Some (JStr (envelope key random payload app_id))). cbv iota.
  rewrite (decrypt_envelope c k key random payload app_id (JObj v)) by done. by case_bool_decide.
Qed.
End callbacks.

(** ** At concrete inputs *)

Definition rx_env (name : string) : option string :=
  od_get name [("PORTEX_FEISHU_APP_ID", "cli"); ("PORTEX_FEISHU_APP_SECRET", "secret"); ("PORTEX_FEISHU_ENCRYPT_KEY", "MDEyMzQ1Njc4OWFiY2RlZg=");
               ("PORTEX_TELEGRAM_BOT_TOKEN", "bot")].
(** The platforms accept what they are sent; Feishu gives a token. *)
Definition rx_http (r : http_request) : result string json :=
  Ok (JObj [("code", JInt 0); ("ok", JBool true); ("tenant_access_token", JStr "t-1")]).
Definition rx_decrypt (key iv l : bytes) : option bytes :=
  if bool_decide (length key ∈ [16; 24; 32] /\ length iv = 16 /\ length l mod 16 = 0) then Some l else None.
Definition rx_client : FeishuClient := mkFeishu "cli" "secret" (Some "MDEyMzQ1Njc4OWFiY2RlZg=") None FEISHU_BASE_URL.
Definition rx_payload : string :=
  of_chars (print_json id true None 0
    (JObj [("header", JObj [("event_type", JStr "im.message.receive_v1")]);
           ("event", JObj [("sender", JObj [("sender_id", JObj [("open_id", JStr "ou_1")])]);
                           ("message", JObj [("chat_id", JStr "oc_1"); ("message_id", JStr "om_1"); ("message_type", JStr "text");
                                             ("content", JStr (of_chars (print_json id true None 0 (JObj [("text", JStr "hi")]))));
                                             ("create_time", JStr "1700000000123")])])])).
Definition rx_event : list (string * json) := match json_loads rx_payload with Ok (JObj v) => v | _ => [] end.
Definition rx_key : bytes := str_chars "0123456789abcdef".

(** Whatever the platform's signature, a payload that is not encrypted is taken although
    the client has a key. *)
Example plain_callback_is_taken :
  received rx_env rx_decrypt Feishu rx_event 5 =
    Some (mkEvent "im.message.receive_v1" "oc_1" "om_1" "ou_1" "text" (Some "hi")
            (match od_get "event" rx_event with Some (JObj e) => e | _ => [] end) 1700000000123000) /\
  fc_encrypt_key rx_client = Some "MDEyMzQ1Njc4OWFiY2RlZg=" /\ get_feishu_client rx_env = Ok rx_client.
Proof. vm_compute. done. Qed.

(** A message of another kind than text is an error for Feishu, and ignored for Telegram. *)
Definition rx_photo (p : platform) : list (string * json) :=
  match p with
  | Feishu => [("type", JStr "im.message.receive_v1"); ("sender", JObj [("sender_id", JObj [("open_id", JStr "ou_1")])]);
               ("message", JObj [("chat_id", JStr "oc_1"); ("message_id", JStr "om_1"); ("message_type", JStr "image")])]
  | Telegram => [("message", JObj [("chat", JObj [("id", JInt 42)]); ("from", JObj [("id", JInt 7)]); ("message_id", JInt 1); ("photo", JArr [])])]
  end.
Definition rx_webhook : platform -> list (string * json) -> M xworld http_error im_answer := fun p payload =>
  webhook rx_env id rx_http rx_decrypt (fun _ => "0") id mx_execute p payload mx_draws.
Example photos :
  (rx_webhook Feishu (rx_photo Feishu) mx_empty).1 = Err (400%Z, "message content cannot be empty") /\
  (rx_webhook Telegram (rx_photo Telegram) mx_empty).1 = Ok Ignored.
Proof. vm_compute. done. Qed.
(** A message with a timestamp beyond the year 9999 or that is no number is an error of the
    server, not of the client. *)
Example far_timestamp :
  (rx_webhook Telegram [("message", JObj [("chat", JObj [("id", JInt 42)]); ("from", JObj [("id", JInt 7)]); ("message_id", JInt 1);
                                          ("text", JStr "hi"); ("date", JStr "nan")])] mx_empty).1 = Err server_error.
Proof. vm_compute. done. Qed.

Lemma replies_go_home_witness :
  let '(r, w') := rx_webhook Feishu rx_event mx_empty in
  r = Ok (Dispatched "run") /\ um_chat_jid <$> w_sent w' = ["feishu:oc_1"] /\
  match received rx_env rx_decrypt Feishu rx_event 2 with
  | None => w' = mx_empty /\ (r = Ok Ignored \/ exists e, r = Err e)
  | Some e => replied rx_env id rx_http (fun _ => "0") mx_execute Feishu e (is_ok r) mx_empty w' /\ r <> Ok Ignored
  end.
Proof.
  assert (E1 : (rx_webhook Feishu rx_event mx_empty).1 = Ok (Dispatched "run")) by (vm_compute; reflexivity).
  assert (E2 : um_chat_jid <$> w_sent (rx_webhook Feishu rx_event mx_empty).2 = ["feishu:oc_1"]) by (vm_compute; reflexivity).
  pose proof (replies_go_home rx_env id rx_http rx_decrypt (fun _ => "0") id mx_execute Feishu rx_event mx_draws mx_empty
                (fun q w => f_equal w_sent (mx_execute_same q w))) as T.
  fold (rx_webhook Feishu rx_event) in T. destruct (rx_webhook Feishu rx_event mx_empty) as [r w'].
  split; [exact E1|]. split; [exact E2|exact T].
Defined.

Lemma encrypted_callback_is_its_payload_witness :
  handle_webhook_event rx_decrypt rx_client
    [("encrypt", JStr (envelope (fun _ _ l => l) rx_key (replicate 16 "r"%char) rx_payload "cli"))] 5 =
  handle_webhook_event rx_decrypt rx_client rx_event 5.
Proof.
  assert (I : forall key iv l, length key ∈ [16; 24; 32] -> length iv = 16 -> length l mod 16 = 0 -> rx_decrypt key iv l = Some l)
    by (intros key iv l A B C; unfold rx_decrypt; by rewrite bool_decide_eq_true_2).
  assert (K : length rx_key ∈ [16; 24; 32]) by (apply (bool_decide_unpack _); vm_compute; exact Logic.I).
  assert (P : json_loads rx_payload = Ok (JObj rx_event)) by (vm_compute; reflexivity).
  assert (N : od_get "encrypt" rx_event = None) by (vm_compute; reflexivity).
  assert (L : (utf8_len rx_payload < 4294967296)%Z) by (vm_compute; reflexivity).
  assert (B : b64decode ("MDEyMzQ1Njc4OWFiY2RlZg=" +:+ "=") = Some rx_key) by (vm_compute; reflexivity).
  pose proof (encrypted_callback_is_its_payload (fun _ _ l => l) rx_decrypt I rx_client _ rx_key
    (replicate 16 "r"%char) rx_payload "cli" rx_event 5 eq_refl B K eq_refl L P N) as T.
  rewrite bool_decide_eq_true_2 in T by reflexivity. exact T.
Defined.
