(* ===== verification/ConfigRoutes.v ===== *)
(** * The routes of the settings and the MCP servers

    [app/routes/settings.py] but for the appearance, and [app/routes/mcp_servers.py], for a
    user who is authenticated. The responses are the configurations of the services. The
    files of the settings and those of the MCP servers are two states. *)

From stdpp Require Import base gmap list option strings.
From Stdlib Require Import ZArith NArith Ascii.
From S2P Require Import Prelude PyStr PyInt PyTime PyJson SafePath Auth Db Settings SettingsStore McpServers McpServersProps FileRoutes.

(** A call of a service on its files: when it raises, they are as before. *)
Definition call {E A} (h : E -> route_error) (f : files -> result E (A * files)) : M files route_error A := fun fs =>
  match f fs with
  | Ok (a, fs') => (Ok a, fs')
  | Err e => (Err (h e), fs)
  end.
(** One that only reads. *)
Definition read {E A} (h : E -> route_error) (f : files -> result E A) : M files route_error A :=
  call h (fun fs => a ← f fs; Ok (a, fs)).

Section settings.
Variable other_iso : string -> option datetime.
Variable float_repr : string -> string.
Variable resolve : path -> path.
Variable settings_root : path.
Variable max_file_size_bytes : Z.

Local Abbreviation R := (M files route_error).

(** [_map_settings_error]. *)
Definition map_settings_error (e : settings_error) : route_error :=
  match e with
  | SettingsValueError msg => Http (400%Z, msg)
  | SettingsOverflowError => Http (500%Z, "settings operation failed")
  | SettingsNotModelled => RouteNotModelled
  end.
(** [require_permission("settings", action)], for a resolved user. *)
Definition require_settings (action : string) (u : AuthUser) : R unit :=
  if has_permission (au_role u) "settings" action then mret tt else throw (Http forbidden).

Definition get_provider_config (u : AuthUser) : R ProviderConfig :=
  read map_settings_error (Settings.get_provider_config other_iso resolve settings_root max_file_size_bytes (au_id u)).
Definition put_provider_config (u : AuthUser) (enabled : bool) (base_url default_model : string) (api_key : option string)
    (now : Z) : R ProviderConfig :=
  call map_settings_error
    (update_provider_config other_iso float_repr resolve settings_root max_file_size_bytes (au_id u) enabled base_url
       default_model api_key now).
Definition get_channels_config (u : AuthUser) : R ChannelsConfig :=
  read map_settings_error (Settings.get_channels_config other_iso resolve settings_root max_file_size_bytes (au_id u)).
Definition put_channels_config (u : AuthUser) (feishu_enabled : bool)
    (app_id app_secret encrypt_key verification_token : string) (telegram_enabled : bool) (bot_token : string)
    (now : Z) : R ChannelsConfig :=
  call map_settings_error
    (update_channels_config other_iso float_repr resolve settings_root max_file_size_bytes (au_id u) feishu_enabled app_id
       app_secret encrypt_key verification_token telegram_enabled bot_token now).
Definition get_registration_policy (u : AuthUser) : R RegistrationPolicyConfig :=
  _ ← require_settings "read" u;
  read map_settings_error (Settings.get_registration_policy other_iso resolve settings_root max_file_size_bytes).
Definition put_registration_policy (u : AuthUser) (allow_registration require_invite_code : bool) (now : Z) :
    R RegistrationPolicyConfig :=
  _ ← require_settings "write" u;
  call map_settings_error
    (update_registration_policy other_iso float_repr resolve settings_root max_file_size_bytes allow_registration
       require_invite_code now).
Definition get_system_settings (u : AuthUser) : R SystemSettingsConfig :=
  _ ← require_settings "read" u;
  read map_settings_error (Settings.get_system_settings other_iso resolve settings_root max_file_size_bytes).
Definition put_system_settings (u : AuthUser) (default_execution_mode : string) (allow_host_execution : bool) (now : Z) :
    R SystemSettingsConfig :=
  _ ← require_settings "write" u;
  call map_settings_error
    (update_system_settings other_iso float_repr resolve settings_root max_file_size_bytes default_execution_mode
       allow_host_execution now).

(** A request to one of them. *)
Inductive settings_request :=
| RGetProvider
| RPutProvider (enabled : bool) (base_url default_model : string) (api_key : option string)
| RGetChannels
| RPutChannels (feishu_enabled : bool) (app_id app_secret encrypt_key verification_token : string)
    (telegram_enabled : bool) (bot_token : string)
| RGetRegistration
| RPutRegistration (allow_registration require_invite_code : bool)
| RGetSystem
| RPutSystem (default_execution_mode : string) (allow_host_execution : bool).

Definition handle_settings (u : AuthUser) (now : Z) (r : settings_request) : R settings_answer :=
  match r with
  | RGetProvider => c ← get_provider_config u; mret (AnsProvider c)
  | RPutProvider e b m k => c ← put_provider_config u e b m k now; mret (AnsProvider c)
  | RGetChannels => c ← get_channels_config u; mret (AnsChannels c)
  | RPutChannels f a s e v t b => c ← put_channels_config u f a s e v t b now; mret (AnsChannels c)
  | RGetRegistration => c ← get_registration_policy u; mret (AnsRegistration c)
  | RPutRegistration a i => c ← put_registration_policy u a i now; mret (AnsRegistration c)
  | RGetSystem => c ← get_system_settings u; mret (AnsSystem c)
  | RPutSystem m a => c ← put_system_settings u m a now; mret (AnsSystem c)
  end.
End settings.

Section mcp.
Variable other_iso : string -> option datetime.
Variable float_repr : string -> string.
Variable resolve : path -> path.
Variable mcp_root : path.
Variable max_file_size_bytes : Z.

Local Abbreviation R := (M files route_error).

(** [_map_mcp_servers_error]. *)
Definition map_mcp_servers_error (e : mcp_error) : route_error :=
  match e with
  | McpNotFound => Http (404%Z, "mcp server not found")
  | McpValueError msg => Http (400%Z, msg)
  | McpOverflow => Http (500%Z, "mcp server operation failed")
  | McpNotModelled => RouteNotModelled
  end.

(** The values of a body, as the service takes them. *)
Definition string_list (l : option (list string)) : json :=
  match l with Some l => JArr (map JStr l) | None => JNull end.
Definition string_dict (d : option (list (string * string))) : json :=
  match d with Some d => JObj (map (fun e => (e.1, JStr e.2)) d) | None => JNull end.

Definition list_mcp_servers (u : AuthUser) : R (list McpServerEntry) :=
  read map_mcp_servers_error (list_user_servers other_iso resolve mcp_root max_file_size_bytes (au_id u)).
Definition get_mcp_server (u : AuthUser) (server_id : string) : R McpServerDetail :=
  read map_mcp_servers_error (get_user_server other_iso resolve mcp_root max_file_size_bytes (au_id u) server_id).
Definition put_mcp_server (u : AuthUser) (server_id transport : string) (command : option string)
    (args : option (list string)) (env : option (list (string * string))) (url : option string)
    (headers : option (list (string * string))) (description : option string) (now : Z) : R McpServerDetail :=
  call map_mcp_servers_error
    (upsert_user_server other_iso float_repr resolve mcp_root max_file_size_bytes (au_id u) server_id transport command
       (string_list args) (string_dict env) url (string_dict headers) description now).
Definition patch_mcp_server_state (u : AuthUser) (server_id : string) (enabled : bool) (now : Z) : R McpServerDetail :=
  call map_mcp_servers_error
    (set_user_server_enabled other_iso float_repr resolve mcp_root max_file_size_bytes (au_id u) server_id enabled now).
Definition delete_mcp_server (u : AuthUser) (server_id : string) : R string :=
  call map_mcp_servers_error
    (fun fs => fs' ← delete_user_server float_repr resolve mcp_root max_file_size_bytes (au_id u) server_id fs;
               Ok ("deleted", fs')).

Inductive mcp_request :=
| RListServers
| RGetServer (server_id : string)
| RPutServer (server_id transport : string) (command : option string) (args : option (list string))
    (env : option (list (string * string))) (url : option string) (headers : option (list (string * string)))
    (description : option string)
| RPatchServer (server_id : string) (enabled : bool)
| RDeleteServer (server_id : string).

Definition handle_mcp (u : AuthUser) (now : Z) (r : mcp_request) : R mcp_answer :=
  match r with
  | RListServers => l ← list_mcp_servers u; mret (AnsEntries l)
  | RGetServer id => d ← get_mcp_server u id; mret (AnsDetail d)
  | RPutServer id t c a e l h d => d ← put_mcp_server u id t c a e l h d now; mret (AnsDetail d)
  | RPatchServer id b => d ← patch_mcp_server_state u id b now; mret (AnsDetail d)
  | RDeleteServer id => _ ← delete_mcp_server u id; mret AnsDeleted
  end.
End mcp.
