(* ===== verification/ConfigRoutesProps.v ===== *)
(** * Properties of the settings and MCP routes: who changes what, and what is never shown *)

From stdpp Require Import base tactics gmap list option strings.
From Stdlib Require Import ZArith NArith Lia Ascii.
From S2P Require Import Prelude PyStr PyInt PyTime PySort PyDict PyJson PyJsonProps SafePath Auth Db Settings SettingsStore McpServers McpServersProps FileRoutes ConfigRoutes.

(** ** Secrets *)

(** Stores that differ in the values of their secrets only. *)
Record same_view (s1 s2 : SettingsStore.store) : Prop := {
  sv_providers : view_provider <$> st_provider s1 = view_provider <$> st_provider s2;
  sv_channels : view_channels <$> st_channels s1 = view_channels <$> st_channels s2;
  sv_registration : st_registration s1 = st_registration s2;
  sv_system : st_system s1 = st_system s2
}.

Lemma default_view {A B} (f : A -> B) (d : A) (m1 m2 : gmap string A) u :
  f <$> m1 = f <$> m2 -> f (default d (m1 !! u)) = f (default d (m2 !! u)).
Proof.
  intros E. assert (L : (f <$> m1) !! u = (f <$> m2) !! u) by (by rewrite E). rewrite !lookup_fmap in L.
  destruct (m1 !! u), (m2 !! u); cbn in *; by inv_res.
Qed.

(** What a call answers, and the view of the store it leaves, depend on the view only. *)
Lemma spec_same_view op now s1 s2 :
  same_view s1 s2 ->
  match spec op now s1, spec op now s2 with
  | Ok (a1, t1), Ok (a2, t2) => a1 = a2 /\ same_view t1 t2
  | Err e1, Err e2 => e1 = e2
  | _, _ => False
  end.
Proof.
  intros S. pose proof S as [P C R Y]. destruct s1 as [p1 c1 r1 y1], s2 as [p2 c2 r2 y2]. cbn in P, C, R, Y. subst r2 y2.
  destruct op; cbn [spec].
  all: try (destruct (valid_user user) as [u|]; [cbn [mbind result_bind]|done]).
  all: try (destruct (normalize_execution_mode _) as [m|]; [cbn [mbind result_bind]|done]).
  all: split; try done.
  - f_equal. by apply default_view.
  - f_equal. pose proof (default_view view_provider no_provider p1 p2 u P) as E. unfold view_provider in E.
    injection E as _ _ _ E _. unfold view_provider. cbn [ap_enabled ap_base_url ap_model ap_api_key ap_updated_at]. by destruct api_key; [|rewrite E].
  - split; try done. cbn [st_provider]. rewrite !fmap_insert, P. f_equal.
    pose proof (default_view view_provider no_provider p1 p2 u P) as E. unfold view_provider in E.
    injection E as _ _ _ E _. unfold view_provider. cbn [ap_enabled ap_base_url ap_model ap_api_key ap_updated_at]. by destruct api_key; [|rewrite E].
  - f_equal. by apply default_view.
  - split; try done. cbn [st_channels]. by rewrite !fmap_insert, C.
Qed.

(** ** The routes as calls of the services *)

Lemma read_answer {E A B : Type} (h : E -> route_error) (f : files -> result E A) (g : A -> B) fs :
  (c ← read h f; mret (g c) : M files route_error B) fs = call h (fun fs => c ← f fs; Ok (g c, fs)) fs.
Proof. unfold read, call, mbind, M_bind, result_bind. by destruct (f fs). Qed.
Lemma call_answer {E A B : Type} (h : E -> route_error) (f : files -> result E (A * files)) (g : A -> B) fs :
  (c ← call h f; mret (g c) : M files route_error B) fs = call h (fun fs => r ← f fs; Ok (g r.1, r.2)) fs.
Proof. unfold call, mbind, M_bind, result_bind. by destruct (f fs) as [[a fs']|e]. Qed.

(** The call of a request, and whether its user may make it. *)
Definition op_of (u : AuthUser) (r : settings_request) : settings_op :=
  match r with
  | RGetProvider => GetProvider (au_id u)
  | RPutProvider e b m k => UpdateProvider (au_id u) e b m k
  | RGetChannels => GetChannels (au_id u)
  | RPutChannels f a s e v t b => UpdateChannels (au_id u) f a s e v t b
  | RGetRegistration => GetRegistration
  | RPutRegistration a i => UpdateRegistration a i
  | RGetSystem => GetSystem
  | RPutSystem m a => UpdateSystem m a
  end.
Definition allowed (u : AuthUser) (r : settings_request) : bool :=
  match r with
  | RGetRegistration | RGetSystem => has_permission (au_role u) "settings" "read"
  | RPutRegistration _ _ | RPutSystem _ _ => has_permission (au_role u) "settings" "write"
  | _ => true
  end.
Definition mcp_op_of (u : AuthUser) (r : mcp_request) : mcp_op :=
  match r with
  | RListServers => ListServers (au_id u)
  | RGetServer id => GetServer (au_id u) id
  | RPutServer id t c a e l h d => Upsert (au_id u) id t c (string_list a) (string_dict e) l (string_dict h) d
  | RPatchServer id b => SetEnabled (au_id u) id b
  | RDeleteServer id => DeleteServer (au_id u) id
  end.
Section routes.
Variable other_iso : string -> option datetime.
Variable float_repr : string -> string.
Variables resolve resolve_mcp : path -> path.
Variables settings_root mcp_root : path.
Variables max_file_size_bytes max_mcp_size : Z.
Hypothesis no_links : forall q, resolve (settings_root ++ q) = settings_root ++ q.
Hypothesis no_mcp_links : forall q, resolve_mcp (mcp_root ++ q) = mcp_root ++ q.

Local Abbreviation run := (SettingsStore.run other_iso float_repr resolve settings_root max_file_size_bytes).
Local Abbreviation handle := (handle_settings other_iso float_repr resolve settings_root max_file_size_bytes).
Local Abbreviation handle_mcp := (handle_mcp other_iso float_repr resolve_mcp mcp_root max_mcp_size).
Local Abbreviation mcp_run := (mcp_run other_iso float_repr resolve_mcp mcp_root max_mcp_size).
Local Abbreviation holds := (SettingsStore.holds float_repr resolve settings_root max_file_size_bytes).
Local Abbreviation mcp_holds := (McpServersProps.mcp_holds float_repr mcp_root max_mcp_size).

Lemma handle_run u now r fs :
  handle u now r fs =
    if allowed u r then call map_settings_error (run (op_of u r) now) fs else (Err (Http forbidden), fs).
Proof.
  destruct r; cbn [allowed op_of SettingsStore.run handle_settings].
  all: first [apply read_answer | apply call_answer | idtac].
  all: unfold get_registration_policy, put_registration_policy, get_system_settings, put_system_settings, require_settings.
  all: destruct (has_permission _ _ _); [|done].
  all: match goal with |- (_ ← (_ ← mret tt; ?m); _) _ = _ => change (_ ← mret tt; m) with m end.
  all: first [apply read_answer | apply call_answer].
Qed.
Lemma handle_mcp_run u now r fs :
  handle_mcp u now r fs = call map_mcp_servers_error (mcp_run (mcp_op_of u r) now) fs.
Proof.
  destruct r; cbn [mcp_op_of McpServersProps.mcp_run ConfigRoutes.handle_mcp]; first [apply read_answer | apply call_answer | idtac].
  unfold delete_mcp_server, McpServersProps.mcp_run, call, mbind, M_bind, result_bind, mret, M_ret. by destruct (delete_user_server _ _ _ _ _ _ _).
Qed.

(** ** Noninterference *)

Definition too_large : route_error := Http (400%Z, "settings file exceeds size limit").
Definition instant (now : Z) : Prop := (datetime_min <= now <= datetime_max)%Z.

Lemma settings_call op now fs s :
  instant now -> holds fs s -> implements other_iso float_repr resolve settings_root max_file_size_bytes op now fs s.
Proof. intros N H. by apply settings_refines. Qed.
Lemma mcp_call op now fs m :
  instant now -> mcp_holds fs m -> mcp_implements other_iso float_repr resolve_mcp mcp_root max_mcp_size op now fs m.
Proof. intros N H. by apply mcp_refines. Qed.

(** One request, over directories with the same view: the same answer, and again the same
    view, unless a size limit is met. *)
Lemma handle_same_view u now r fs1 fs2 s1 s2 :
  instant now -> holds fs1 s1 -> holds fs2 s2 -> same_view s1 s2 ->
  let '(a1, g1) := handle u now r fs1 in let '(a2, g2) := handle u now r fs2 in
  a1 <> Err too_large -> a2 <> Err too_large ->
  within_limit max_file_size_bytes g1 -> within_limit max_file_size_bytes g2 ->
  a1 = a2 /\ exists t1 t2, holds g1 t1 /\ holds g2 t2 /\ same_view t1 t2.
Proof.
  intros N H1 H2 V. rewrite !handle_run. destruct (allowed u r).
  2: { intros _ _ _ _. split; [done|]. by exists s1, s2. }
  pose proof (settings_call (op_of u r) now fs1 s1 N H1) as R1. pose proof (settings_call (op_of u r) now fs2 s2 N H2) as R2.
  pose proof (spec_same_view (op_of u r) now s1 s2 V) as S. unfold implements in R1, R2. unfold call.
  destruct (run (op_of u r) now fs1) as [[b1 g1]|e1], (run (op_of u r) now fs2) as [[b2 g2]|e2]; intros A1 A2 L1 L2.
  - destruct (R1 L1) as (t1 & E1 & K1), (R2 L2) as (t2 & E2 & K2). rewrite E1, E2 in S. destruct S as [-> S].
    split; [done|]. by exists t1, t2.
  - destruct (R1 L1) as (t1 & E1 & K1), R2 as [->|E2]; [done|]. by rewrite E1, E2 in S.
  - destruct (R2 L2) as (t2 & E2 & K2), R1 as [->|E1]; [done|]. by rewrite E1, E2 in S.
  - destruct R1 as [->|E1]; [done|]. destruct R2 as [->|E2]; [done|]. rewrite E1, E2 in S. subst e2. split; [done|]. by exists s1, s2.
Qed.

(** The answers to a sequence of requests of any users at any instants. *)
Definition timed_request : Type := AuthUser * Z * settings_request.
Fixpoint answers (l : list timed_request) (fs : files) : list (result route_error settings_answer) :=
  match l with
  | [] => []
  | (u, now, r) :: l => (handle u now r fs).1 :: answers l (handle u now r fs).2
  end.
(** No size limit is met on the way. *)
Fixpoint fits (l : list timed_request) (fs : files) : Prop :=
  match l with
  | [] => True
  | (u, now, r) :: l =>
      (handle u now r fs).1 <> Err too_large /\ within_limit max_file_size_bytes (handle u now r fs).2 /\
      fits l (handle u now r fs).2
  end.

(** C15: No secret is ever shown. Directories whose stores differ only in the values of the
    API keys, app secrets, encrypt keys, verification tokens and bot tokens that are set
    answer every sequence of requests, of whichever users, in the same way, as long as no
    size limit is met. *)
Theorem secrets_stay_secret l fs1 fs2 s1 s2 :
  holds fs1 s1 -> holds fs2 s2 -> same_view s1 s2 -> Forall (fun q => instant q.1.2) l ->
  fits l fs1 -> fits l fs2 -> answers l fs1 = answers l fs2.
Proof.
  intros H1 H2 V I. revert fs1 fs2 s1 s2 H1 H2 V. induction I as [|[[u now] r] l N I IH]; intros fs1 fs2 s1 s2 H1 H2 V; [done|].
  cbn [fits answers]. pose proof (handle_same_view u now r fs1 fs2 s1 s2 N H1 H2 V) as S.
  destruct (handle u now r fs1) as [a1 g1], (handle u now r fs2) as [a2 g2]. intros (A1 & L1 & F1) (A2 & L2 & F2).
  destruct (S A1 A2 L1 L2) as (-> & t1 & t2 & K1 & K2 & W). f_equal. by eapply IH.
Qed.

(** ** Who changes what *)

(** What a request of [u] may change of the settings and of the MCP servers. *)
Definition settings_kept (u : AuthUser) (s s' : SettingsStore.store) : Prop :=
  (forall v, validate_segment (au_id u) <> Some v ->
     st_provider s' !! v = st_provider s !! v /\ st_channels s' !! v = st_channels s !! v) /\
  (has_permission (au_role u) "settings" "write" = false ->
     st_registration s' = st_registration s /\ st_system s' = st_system s).
Definition servers_kept (u : AuthUser) (m m' : McpServersProps.store) : Prop :=
  forall v, validate_segment (au_id u) <> Some v -> m' !! v = m !! v.

Lemma settings_kept_refl u s : settings_kept u s s.
Proof. done. Qed.

Lemma spec_kept u now r s a s' :
  allowed u r = true -> spec (op_of u r) now s = Ok (a, s') ->
  settings_kept u s s'.
Proof.
  intros A. destruct s as [p c x y]. unfold settings_kept.
  destruct r; cbn [op_of spec allowed] in *; unfold valid_user, mbind, result_bind; intros E; repeat (case_match; try done);
    injection E as _ <-; cbn [st_provider st_channels st_registration st_system]; try done; (split; [|try done; congruence]).
  all: intros v Hv; rewrite ?lookup_insert_ne by congruence; done.
Qed.
Lemma mcp_spec_kept u now r m a m' : mcp_spec (mcp_op_of u r) now m = Ok (a, m') -> servers_kept u m m'.
Proof.
  intros E v Hv. destruct r; cbn [mcp_op_of mcp_spec] in E; unfold valid_id in E; unfold mbind, result_bind in E;
    repeat (case_match; try done); simplify_eq/=; try done; by rewrite lookup_insert_ne by congruence.
Qed.

(** The settings and the MCP servers. *)
Record config_files := mkConfigFiles { cf_settings : files; cf_mcp : files }.
Inductive config_request := ToSettings (r : settings_request) | ToMcp (r : mcp_request).
Inductive config_answer := FromSettings (a : settings_answer) | FromMcp (a : mcp_answer).
Definition handle_config (u : AuthUser) (now : Z) (q : config_request) (w : config_files) :
    result route_error config_answer * config_files :=
  match q with
  | ToSettings r => let '(a, fs) := handle u now r (cf_settings w) in (FromSettings <$> a, mkConfigFiles fs (cf_mcp w))
  | ToMcp r => let '(a, fs) := handle_mcp u now r (cf_mcp w) in (FromMcp <$> a, mkConfigFiles (cf_settings w) fs)
  end.

(** C16: A request to the routes of the settings or of the MCP servers, whatever it asks for,
    leaves the configurations and servers of other users as they are, and those of the
    system unless its user may write settings; one that is answered with an error changes
    nothing, and the settings of the system are answered only to users who may read them. *)
Theorem config_requests_confined u now q w s m :
  instant now -> holds (cf_settings w) s -> mcp_holds (cf_mcp w) m ->
  let '(a, w') := handle_config u now q w in
  within_limit max_file_size_bytes (cf_settings w') -> within_limit max_mcp_size (cf_mcp w') ->
  (exists s' m', holds (cf_settings w') s' /\ mcp_holds (cf_mcp w') m' /\ settings_kept u s s' /\ servers_kept u m m') /\
  (is_ok a = false -> w' = w) /\
  (q = ToSettings RGetRegistration \/ q = ToSettings RGetSystem ->
   has_permission (au_role u) "settings" "read" = false -> a = Err (Http forbidden)).
Proof.
  intros N H M. destruct q as [r|r]; cbn [handle_config].
  - rewrite handle_run. destruct (allowed u r) eqn:A.
    + pose proof (settings_call (op_of u r) now _ s N H) as R. unfold implements in R. unfold call.
      destruct (run (op_of u r) now (cf_settings w)) as [[b g]|e]; cbn [cf_settings cf_mcp fmap result_map]; intros L1 L2.
      * destruct (R L1) as (s' & E & K). apply spec_kept in E; [|done].
        split; [by exists s', m|]. split; [done|]. intros [[= ->]|[= ->]] P; cbn in A; congruence.
      * split; [by exists s, m|]. split; [by destruct w|]. intros [[= ->]|[= ->]] P; cbn in A; congruence.
    + cbn [cf_settings cf_mcp fmap result_map]. intros L1 L2. split; [by exists s, m|]. by destruct w.
  - rewrite handle_mcp_run. pose proof (mcp_call (mcp_op_of u r) now _ m N M) as R. unfold mcp_implements in R. unfold call.
    destruct (mcp_run (mcp_op_of u r) now (cf_mcp w)) as [[b g]|e]; cbn [cf_settings cf_mcp fmap result_map]; intros L1 L2.
    + destruct (R L2) as (m' & E & K). apply mcp_spec_kept in E. split; [by exists s, m'|]. split; [done|]. by intros [?|?].
    + split; [by exists s, m|]. split; [by destruct w|]. by intros [?|?].
Qed.
End routes.

(** ** At concrete inputs *)

Definition cx_user (id role : string) : AuthUser := 
  mkUser id id (Some role) (Some "active") None None None None (Some false) None None None.
Definition cx_provider (key : string) : Provider := mkAProvider true "https://a" "m" key (Some 1000000%Z).
Definition cx_file : path := provider_path (users_root (fun p => p) sx_root ++ ["alice"]).
Definition cx_fs (key : string) : files := <[cx_file := SettingsStore.text_of (fun s => s) (provider_dict (cx_provider key))]> ∅.
Definition cx_store (key : string) : SettingsStore.store := mkStore {["alice" := cx_provider key]} ∅ None None.

Lemma within_limit_dec (limit : Z) (fs : files) :
  bool_decide (map_Forall (fun _ content => st_size content <= limit)%Z fs) = true -> within_limit limit fs.
Proof. intros H%bool_decide_eq_true p c. apply H. Qed.
Lemma cx_holds key :
  bool_decide (map_Forall (fun _ content => st_size content <= 1000)%Z (cx_fs key)) = true ->
  SettingsStore.holds (fun s => s) (fun p => p) sx_root 1000 (cx_fs key) (cx_store key).
Proof.
  intros L. apply (holds_provider (fun s => s) (fun p => p) sx_root 1000 (fun q => eq_refl) ∅ empty_store "alice" (cx_provider key)).
  - apply holds_empty.
  - intros t [= <-]. split; apply Z.leb_le; reflexivity.
  - by apply within_limit_dec.
Qed.

Definition cx_requests : list timed_request :=
  [(cx_user "alice" "member", 2000000%Z, RGetProvider);
   (cx_user "alice" "member", 3000000%Z, RPutProvider true "https://b" "m" None);
   (cx_user "bob" "member", 4000000%Z, RGetSystem);
   (cx_user "alice" "member", 5000000%Z, RGetProvider)].
Definition cx_answers (key : string) : list (result route_error settings_answer) :=
  answers (fun _ => None) (fun s => s) (fun p => p) sx_root 1000 cx_requests (cx_fs key).

Lemma secrets_stay_secret_witness :
  cx_answers "sk-1" = cx_answers "sk-2" /\
  cx_answers "sk-1" = [Ok (AnsProvider (mkProvider true "https://a" "m" true (Some 1000000%Z)));
                       Ok (AnsProvider (mkProvider true "https://b" "m" true (Some 3000000%Z)));
                       Err (Http forbidden);
                       Ok (AnsProvider (mkProvider true "https://b" "m" true (Some 3000000%Z)))].
Proof.
  split; [|vm_compute; reflexivity].
  apply (secrets_stay_secret (fun _ => None) (fun s => s) (fun p => p) sx_root 1000 (fun q => eq_refl)
           cx_requests (cx_fs "sk-1") (cx_fs "sk-2") (cx_store "sk-1") (cx_store "sk-2")).
  - apply cx_holds. vm_compute. reflexivity.
  - apply cx_holds. vm_compute. reflexivity.
  - split; reflexivity.
  - repeat constructor; apply Z.leb_le; reflexivity.
  - repeat (split; [vm_compute; discriminate|split; [apply within_limit_dec; vm_compute; reflexivity|]]). exact I.
  - repeat (split; [vm_compute; discriminate|split; [apply within_limit_dec; vm_compute; reflexivity|]]). exact I.
Defined.

Lemma config_requests_confined_witness :
  let '(a, w') := handle_config (fun _ => None) (fun s => s) (fun p => p) (fun p => p) sx_root ["mcp"] 1000 1000
                    (cx_user "bob" "member") 2000000 (ToSettings (RPutSystem "host" true)) (mkConfigFiles (cx_fs "sk-1") ∅) in
  a = Err (Http forbidden) /\ (is_ok a = false -> w' = mkConfigFiles (cx_fs "sk-1") ∅).
Proof.
  assert (N : instant 2000000) by (split; apply Z.leb_le; reflexivity).
  assert (H : SettingsStore.holds (fun s => s) (fun p => p) sx_root 1000 (cx_fs "sk-1") (cx_store "sk-1"))
    by (apply cx_holds; vm_compute; reflexivity).
  pose proof (config_requests_confined (fun _ => None) (fun s => s) (fun p => p) (fun p => p) sx_root ["mcp"] 1000 1000
    (fun q => eq_refl) (fun q => eq_refl) (cx_user "bob" "member") 2000000 (ToSettings (RPutSystem "host" true))
    (mkConfigFiles (cx_fs "sk-1") ∅) _ _ N H (mcp_holds_empty (fun s => s) ["mcp"] 1000)) as T.
  split; [reflexivity|]. apply T; [apply within_limit_dec; vm_compute; reflexivity|]. apply within_limit_dec. vm_compute. reflexivity.
Defined.
