(* ===== verification/Monitor.v ===== *)
(** * Looking at runs, the monitor and the task routes

    [app/routes/executions.py], [app/routes/monitor.py] with the health probes of
    [services/execution_runtime.py], and [app/routes/tasks.py], over the coordinator, the
    groups and the scheduler, for a user who is authenticated. *)

From stdpp Require Import base tactics list option strings gmap.
From Stdlib Require Import ZArith.
From S2P Require Import Prelude PyStr PyInt PyDict Execution Coordinator Scheduler Auth Db Groups GroupRoutes.

Definition EXECUTION_MODES : list string := ["openai"; "host"; "container"].
(** [_normalize_requested_mode]. *)
Definition normalize_requested_mode (requested_mode : option string) : option string :=
  m ← requested_mode; if bool_decide (m ∈ EXECUTION_MODES) then Some m else None.

Record ExecutionRecoveryResponse := mkRecovery {
  er_attempted : bool;
  er_reason : option string;
  er_succeeded : option bool
}.
Record ExecutionRunStatusResponse := mkRunStatus {
  es_run_id : string;
  es_status : ExecutionStatus;
  es_group_folder : string;
  es_chat_jid : string;
  es_user_id : string;
  es_source : ExecutionSource;
  es_slot_id : string;
  es_requested_mode : option string;
  es_backend : option string;
  es_session_id : option string;
  es_created_at : Z;
  es_started_at : option Z;
  es_finished_at : option Z;
  es_final_output : option string;
  es_error : option string;
  es_timeout_ms : option Z;
  es_recovery : ExecutionRecoveryResponse
}.
Record MonitorRunSummaryResponse := mkRunSummary {
  mr_run_id : string;
  mr_group_id : string;
  mr_chat_jid : string;
  mr_user_id : string;
  mr_source : ExecutionSource;
  mr_slot_id : string;
  mr_status : ExecutionStatus;
  mr_backend : option string;
  mr_requested_mode : option string;
  mr_created_at : Z;
  mr_started_at : option Z;
  mr_finished_at : option Z;
  mr_error : option string;
  mr_timeout_ms : option Z;
  mr_recovery : ExecutionRecoveryResponse
}.
Record MonitorBackendHealthResponse := mkHealth { mb_backend : string; mb_status : string; mb_detail : string }.
Record HealthResponse := mkHealthResponse { hr_status : string; hr_version : string }.
Definition base_health : HealthResponse := mkHealthResponse "ok" "0.1.0".
Record MonitorHealthResponse := mkMonitorHealth {
  mh_api_status : string;
  mh_version : string;
  mh_coordinator_status : string;
  mh_backends : list MonitorBackendHealthResponse
}.
Record MonitorQueueGroupResponse := mkQueueGroup {
  qg_group_id : string;
  qg_queued_runs : Z;
  qg_running_runs : Z;
  qg_active_run_id : option string;
  qg_active_backend : option string
}.
(** The fields [queue.groups] and [runs.items] are the lists themselves. *)
Record MonitorResponse := mkMonitorResponse {
  mo_health : MonitorHealthResponse;
  mo_queue_groups : list MonitorQueueGroupResponse;
  mo_run_items : list MonitorRunSummaryResponse
}.

Definition recovery_of (n : ExecutionRunSnapshot) : ExecutionRecoveryResponse :=
  mkRecovery (sn_recovery_attempted n) (sn_recovery_reason n) (sn_recovery_succeeded n).
Definition to_execution_status_response (n : ExecutionRunSnapshot) : ExecutionRunStatusResponse :=
  mkRunStatus (sn_run_id n) (sn_status n) (sn_group_folder n) (sn_chat_jid n) (sn_user_id n) (sn_source n) (sn_slot_id n)
    (normalize_requested_mode (sn_requested_mode n)) (sn_backend n) (sn_session_id n) (sn_created_at n) (sn_started_at n)
    (sn_finished_at n) (sn_final_output n) (sn_error n) (sn_timeout_ms n) (recovery_of n).
Definition to_monitor_run_summary (n : ExecutionRunSnapshot) : MonitorRunSummaryResponse :=
  mkRunSummary (sn_run_id n) (sn_group_folder n) (sn_chat_jid n) (sn_user_id n) (sn_source n) (sn_slot_id n) (sn_status n)
    (sn_backend n) (normalize_requested_mode (sn_requested_mode n)) (sn_created_at n) (sn_started_at n) (sn_finished_at n)
    (sn_error n) (sn_timeout_ms n) (recovery_of n).

(** [role in {"owner", "admin"}]. *)
Definition is_operator (role : option string) : bool := bool_decide (role = Some "owner" \/ role = Some "admin").

Section executions.
Context {GT MT ST : Type} `{Table GT string RegisteredGroup} `{Table MT (string * string) GroupMember}
  `{Table ST (string * string) ConversationSlot}.

Local Abbreviation R := (M (db GT MT ST) http_error).

(** [_can_read_execution_snapshot]. *)
Definition can_read_execution_snapshot (u : AuthUser) (n : ExecutionRunSnapshot) (now : Z) : M (db GT MT ST) group_error bool :=
  workspace ← get_web_workspace_by_folder (sn_group_folder n) now;
  match workspace with
  | Some w => user_can_access_group (au_id u) (au_role u) w
  | None => mret (is_operator (au_role u) || bool_decide (sn_user_id n = au_id u))
  end.

Definition run_not_found : http_error := (404%Z, "execution run not found").
(** [get_execution_status]: [GET /executions/{run_id}]. *)
Definition get_execution_status (run_id : string) (u : AuthUser) (now : Z) (c : coordinator) : R ExecutionRunStatusResponse :=
  match get_run_snapshot run_id c with
  | None => throw run_not_found
  | Some n =>
      ok ← catching uncaught (can_read_execution_snapshot u n now);
      if ok : bool then mret (to_execution_status_response n) else throw run_not_found
  end.
End executions.

(** ** The monitor *)

Section monitor.
Variable backends : list string.
(** The calls a probe makes: building a runtime, validating the runner root, listing the
    containers; an exception as its text. *)
Variable runtime_factory : result string unit.
Variable validate_runner_root : result string unit.
Variable list_containers : result string unit.

(** [_probe_backend_health]. *)
Definition probe_backend_health (backend_name : string) : MonitorBackendHealthResponse :=
  let probed (r : result string unit) (detail : string) :=
    match r with
    | Ok _ => mkHealth backend_name "ok" detail
    | Err msg => mkHealth backend_name "error" msg
    end in
  if bool_decide (backend_name = "openai_runtime") then probed runtime_factory "runtime factory available"
  else if bool_decide (backend_name = "host_process") then probed validate_runner_root "host runner root validated"
  else if bool_decide (backend_name = "docker_container") then probed list_containers "docker daemon reachable"
  else probed (Ok tt) "backend registered".
Definition build_monitor_backend_health : list MonitorBackendHealthResponse :=
  map (fun backend_name =>
         match get_backend backends backend_name with
         | None => mkHealth backend_name "error" "backend is not registered"
         | Some backend => probe_backend_health backend
         end)
    (list_backend_names backends).

(** [get_monitor_status]: [GET /monitor]. The probes come before the check of the role. *)
Definition get_monitor_status (u : AuthUser) (c : coordinator) : result http_error MonitorResponse :=
  let backend_health := build_monitor_backend_health in
  if negb (is_operator (au_role u)) then raise forbidden
  else
    Ok (mkMonitorResponse
      (mkMonitorHealth (hr_status base_health) (hr_version base_health) "ok" backend_health)
      (map (fun item => mkQueueGroup (mq_group_id item) (mq_queued_runs item) (mq_running_runs item) (mq_active_run_id item)
                          (mq_active_backend item))
         (get_monitor_queue_snapshot c))
      (map to_monitor_run_summary (list_run_snapshots 50 c))).
End monitor.

(** ** Tasks *)

Section tasks.
Variable cron_valid : string -> bool.
Variable cron_next : string -> Z -> option Z.
Variable utcnow : nat -> Z.
Variable uuid4_hex : nat -> string.

Local Abbreviation S := (M scheduler http_error).

(** [require_permission("tasks", action)], for a resolved user. *)
Definition require_tasks (action : string) (u : AuthUser) : S unit :=
  if has_permission (au_role u) "tasks" action then mret tt else throw forbidden.
Definition map_task_error (e : task_error) : http_error :=
  match e with TaskValueError msg => (400%Z, msg) | TaskOverflowError => server_error end.
Definition task_not_found : http_error := (404%Z, "task not found").

(** [POST /tasks], of a body that passed its schema. *)
Definition create_task (u : AuthUser) (group_folder chat_jid prompt schedule_type : string)
    (execution_mode schedule_value : option string) (next_run : option datetime) : S ScheduledTask :=
  _ ← require_tasks "write" u;
  catching map_task_error
    (Scheduler.create_task cron_valid cron_next utcnow uuid4_hex group_folder chat_jid prompt schedule_type execution_mode
       schedule_value next_run).
Definition list_tasks (u : AuthUser) : S (list ScheduledTask) :=
  _ ← require_tasks "read" u; gets Scheduler.list_tasks.
Definition list_task_logs (u : AuthUser) (task_id : string) (limit : Z) : S (list TaskRunLog) :=
  _ ← require_tasks "read" u;
  task ← gets (get_task task_id);
  match task with
  | None => throw task_not_found
  | Some _ => gets (fun s => list_logs task_id (Z.to_nat (Z.min (Z.max limit 1) 200)) (sd_logs s))
  end.
Definition delete_task (u : AuthUser) (task_id : string) : S string :=
  _ ← require_tasks "write" u;
  ok ← (fun s => let '(b, s) := Scheduler.delete_task task_id s in (Ok b, s));
  if ok : bool then mret "removed" else throw task_not_found.
End tasks.
