(* ===== verification/MonitorProps.v ===== *)
(** * Properties of the monitor and of the routes that show runs *)

From stdpp Require Import base tactics list option sets strings gmap.
From Stdlib Require Import ZArith Lia Sorted.
From S2P Require Import Prelude PyStr PyInt PySort PyDict Execution Coordinator CoordinatorInv CoordinatorStore CoordinatorSafety CoordinatorLife CoordinatorRuns CoordinatorProps Scheduler SchedulerProps Auth Db Groups GroupRoutes GroupsProps Monitor.

(** ** One pass over the requests *)

Section pass.
Variable s : coordinator.
Implicit Types (l : list (string * ExecutionRequest)).

Definition in_status (st : ExecutionStatus) (g : string) (p : string * ExecutionRequest) : bool :=
  bool_decide (statuses s !! p.1 = Some st) && bool_decide (rq_group_folder p.2 = g).
Definition queued_in g l := List.filter (in_status StQueued g) l.
Definition running_in g l := List.filter (in_status StRunning g) l.

(** The entry of a group; the active run is the last running one. *)
Definition entry_of (g : string) (q r : list (string * ExecutionRequest)) : MonitorQueueGroupSnapshot :=
  let active := fst <$> last r in
  mkMonitor g (Z.of_nat (length q)) (Z.of_nat (length r)) active (id ← active; n ← od_get id (run_snapshots s); sn_backend n).
Definition group_entry (g : string) l : option MonitorQueueGroupSnapshot :=
  if bool_decide (queued_in g l = [] /\ running_in g l = []) then None
  else Some (entry_of g (queued_in g l) (running_in g l)).
Lemma group_entry_default g l :
  default (mkMonitor g 0 0 None None) (group_entry g l) = entry_of g (queued_in g l) (running_in g l).
Proof. unfold group_entry. case_bool_decide as E; [|done]. by destruct E as [-> ->]. Qed.

Lemma in_status_other st st' g id req :
  statuses s !! id = Some st' -> st <> st' \/ rq_group_folder req <> g -> in_status st g (id, req) = false.
Proof. intros E N. unfold in_status. cbn. rewrite E. destruct N; [rewrite bool_decide_eq_false_2|rewrite (bool_decide_eq_false_2 (_ = g))]; rewrite ?andb_false_r; naive_solver. Qed.
Lemma in_status_here st id req : statuses s !! id = Some st -> in_status st (rq_group_folder req) (id, req) = true.
Proof. intros E. unfold in_status. cbn. by rewrite E, !bool_decide_eq_true_2. Qed.
Lemma in_status_none st g id req : statuses s !! id = None -> in_status st g (id, req) = false.
Proof. intros E. unfold in_status. cbn. by rewrite E. Qed.

Lemma monitor_pass l :
  od_wf (foldl (monitor_add s) [] l) /\ forall g, od_get g (foldl (monitor_add s) [] l) = group_entry g l.
Proof.
  induction l as [|[id req] l [W G]] using rev_ind; [split; [apply od_wf_nil|done]|].
  rewrite foldl_app. cbn [foldl]. set (d := foldl _ _ l) in *. unfold monitor_add.
  split; [destruct (statuses s !! id) as [[]|]; auto with portex|].
  intros g. unfold group_entry, queued_in, running_in in *. rewrite !List.filter_app. cbn [List.filter].
  destruct (statuses s !! id) as [st|] eqn:S; [|by rewrite !in_status_none, !app_nil_r by done].
  destruct st; try (by rewrite !(in_status_other _ _ g _ _ S), !app_nil_r by (left; done)).
  - rewrite (in_status_other StRunning _ g _ _ S), app_nil_r by (by left).
    rewrite od_get_update, od_get_setdefault. destruct (decide (rq_group_folder req = g)) as [<-|N].
    + rewrite in_status_here by done. rewrite decide_True by done. rewrite G. cbn [fmap option_fmap option_map].
      pose proof (group_entry_default (rq_group_folder req) l) as D. unfold group_entry, queued_in, running_in in D.
      rewrite ?G, D. rewrite bool_decide_eq_false_2 by (intros [E%app_nil _]; naive_solver).
      unfold entry_of. cbn. rewrite length_app. do 2 f_equal. cbn. lia.
    + rewrite (in_status_other StQueued _ g _ _ S), app_nil_r by (by right). rewrite od_get_setdefault, decide_False by done. apply G.
  - rewrite (in_status_other StQueued _ g _ _ S), app_nil_r by (by left).
    rewrite od_get_update, od_get_setdefault. destruct (decide (rq_group_folder req = g)) as [<-|N].
    + rewrite in_status_here by done. rewrite decide_True by done. cbn [fmap option_fmap option_map].
      pose proof (group_entry_default (rq_group_folder req) l) as D. unfold group_entry, queued_in, running_in in D.
      rewrite ?G, D. rewrite bool_decide_eq_false_2 by (intros [_ E%app_nil]; naive_solver).
      unfold entry_of. cbn. rewrite length_app, last_snoc. cbn. do 2 f_equal. lia.
    + rewrite (in_status_other StRunning _ g _ _ S), app_nil_r by (by right). rewrite od_get_setdefault, decide_False by done. apply G.
Qed.
End pass.

(** ** What the monitor shows of the queues *)

Section queues.
Context {POL : ExecutionPolicyProtocol}.
Variable backends : list string.
Variable max_runs : nat.
Variable uuid4_hex : nat -> string.
Variable utcnow : nat -> Z.

Local Abbreviation good_reach := (good_reach backends max_runs uuid4_hex utcnow).

(** The run [id] waits in the queue of [g]; it is the one whose backend the worker of [g]
    waits for. *)
Definition waiting (g : string) (s : coordinator) : list string :=
  List.filter (fun id => bool_decide (statuses s !! id = Some StQueued)) (queued_ids g s).
Definition worked_on (g id : string) (s : coordinator) : Prop :=
  statuses s !! id = Some StRunning /\
  exists t e req, group_workers s !! g = Some t /\ worker_tasks s !! t = Some (mkWorker g (WAwait e id req)).

Lemma requested s id req : requests_wf s -> (id, req) ∈ run_requests s -> od_get id (run_requests s) = Some req.
Proof. intros W. by apply od_elem_get. Qed.
Lemma elem_in_status s st g l id req :
  (id, req) ∈ List.filter (in_status s st g) l <->
  (id, req) ∈ l /\ statuses s !! id = Some st /\ rq_group_folder req = g.
Proof.
  rewrite list_elem_of_In, filter_In, <- list_elem_of_In. unfold in_status. cbn.
  by rewrite andb_true_iff, !bool_decide_eq_true.
Qed.

Lemma running_worked_on tr s g id req :
  good_reach tr s -> (id, req) ∈ running_in s g (run_requests s) -> worked_on g id s.
Proof.
  intros R (E & S & <-)%elem_in_status. pose proof (good_reach_life _ _ _ _ _ _ R) as L.
  pose proof (good_reach_ctl _ _ _ _ _ _ R) as C. apply good_reach_reach, reach_requests in R.
  destruct (lf_running _ _ _ _ L id) as (t & e & req' & [_ [g A]] & _ & _ & Q); [done|done|].
  rewrite (requested s id req) in Q by done. injection Q as <-. destruct (ci_await s C _ _ _ _ _ A) as (x & _ & _ & _ & F).
  split; [done|]. exists t, e, req. rewrite F. split; [|done]. by apply (ci_live s C t _ A).
Qed.
Lemma worked_on_one tr s g id id' : good_reach tr s -> worked_on g id s -> worked_on g id' s -> id = id'.
Proof. intros R (_ & t & e & req & G & W) (_ & t' & e' & req' & G' & W'). congruence. Qed.

Lemma keys_filter s p : requests_wf s -> NoDup (List.filter p (run_requests s)).*1.
Proof.
  unfold requests_wf, od_wf, od_keys. induction (run_requests s) as [|e l IH]; [done|]. cbn. intros [N D]%NoDup_cons.
  destruct (p e); [|by apply IH]. cbn. apply NoDup_cons. split; [|by apply IH]. intros H. apply N.
  apply list_elem_of_fmap in H as (y & -> & Y). apply list_elem_of_fmap. exists y. split; [done|].
  apply list_elem_of_In, filter_In in Y as [Y _]. by apply list_elem_of_In.
Qed.

Lemma queued_waiting tr s g :
  good_reach tr s -> (queued_in s g (run_requests s)).*1 ≡ₚ waiting g s.
Proof.
  intros R. pose proof (good_reach_life _ _ _ _ _ _ R) as L. pose proof (good_reach_ctl _ _ _ _ _ _ R) as C.
  apply good_reach_reach, reach_requests in R as W. apply NoDup_Permutation.
  - by apply keys_filter.
  - apply NoDup_ListNoDup, List.NoDup_filter, NoDup_ListNoDup, (lf_queue_nodup _ _ _ _ L).
  - intros id. unfold waiting. rewrite list_elem_of_fmap, list_elem_of_In, filter_In, <- list_elem_of_In, bool_decide_eq_true.
    split.
    + intros ([id' req] & -> & (E & S & <-)%elem_in_status). cbn. split; [|done].
      destruct (lf_queued _ _ _ _ L id') as (req' & Q & G); [done|done|]. rewrite (requested s id' req) in G by done.
      injection G as <-. unfold queued_ids. apply list_elem_of_fmap. by exists (id', req).
    + intros [Q S]. destruct (lf_queued _ _ _ _ L id) as (req & Q' & G); [done|done|].
      exists (id, req). split; [done|]. apply elem_in_status. split; [by apply od_get_Some_elem|]. split; [done|].
      symmetry. apply (lf_queue_one _ _ _ _ L g (rq_group_folder req) id); [done|].
      unfold queued_ids. apply list_elem_of_fmap. by exists (id, req).
Qed.

Lemma running_one tr s g : good_reach tr s -> length (running_in s g (run_requests s)) <= 1.
Proof.
  intros R. pose proof (good_reach_reach _ _ _ _ _ _ R) as W%reach_requests. pose proof (keys_filter s (in_status s StRunning g) W) as N.
  destruct (running_in s g (run_requests s)) as [|[i1 r1] [|[i2 r2] l]] eqn:E; cbn; [lia|lia|].
  assert (A : worked_on g i1 s) by (apply (running_worked_on tr s g i1 r1 R); rewrite E; by left).
  assert (B : worked_on g i2 s) by (apply (running_worked_on tr s g i2 r2 R); rewrite E; by right; left).
  pose proof (worked_on_one tr s g i1 i2 R A B) as ->. unfold running_in in E. rewrite E in N. cbn in N.
  apply NoDup_cons in N as [N _]. by destruct N; left.
Qed.

Lemma worked_on_running tr s g id :
  good_reach tr s -> worked_on g id s -> exists req, (id, req) ∈ running_in s g (run_requests s).
Proof.
  intros R (S & t & e & req & G & A). pose proof (good_reach_life _ _ _ _ _ _ R) as L.
  pose proof (good_reach_ctl _ _ _ _ _ _ R) as C.
  destruct (lf_running _ _ _ _ L id) as (t' & e' & req' & A' & _ & _ & Q); [done|done|].
  assert (A0 : awaits s None t e id req) by (split; [done|by exists g]).
  pose proof (awaits_unique _ _ _ _ _ _ _ _ _ _ C L A0 A') as <-. destruct A' as [_ [g' A']].
  rewrite A in A'. injection A' as <- <- <-.
  destruct (ci_await s C _ _ _ _ _ A) as (x & _ & _ & _ & F).
  exists req. apply elem_in_status. split; [by apply od_get_Some_elem|done].
Qed.

(** The entries of the monitor are the entries of its groups. *)
Lemma monitor_entry s g e :
  e ∈ get_monitor_queue_snapshot s /\ mq_group_id e = g <-> group_entry s g (run_requests s) = Some e.
Proof.
  destruct (monitor_pass s (run_requests s)) as [W G]. unfold get_monitor_queue_snapshot.
  rewrite list_elem_of_fmap. split.
  - intros [([k e'] & -> & E%py_sorted_elem) <-]. cbn. apply (od_elem_get k e') in E; [|done]. rewrite G in E.
    replace (mq_group_id e') with k; [done|]. unfold group_entry in E. case_bool_decide; [done|]. by injection E as <-.
  - intros E. rewrite <- G in E. split.
    + exists (g, e). split; [done|]. apply py_sorted_elem. by apply od_get_Some_elem.
    + rewrite G in E. unfold group_entry in E. case_bool_decide; [done|]. by injection E as <-.
Qed.
Lemma monitor_groups s :
  mq_group_id <$> get_monitor_queue_snapshot s = (py_sorted fst (foldl (monitor_add s) [] (run_requests s))).*1.
Proof.
  destruct (monitor_pass s (run_requests s)) as [W G]. unfold get_monitor_queue_snapshot.
  rewrite <- list_fmap_compose. apply list_fmap_ext. intros i [k e] E%list_elem_of_lookup_2%py_sorted_elem. cbn.
  apply (od_elem_get k e) in E; [|done]. rewrite G in E. unfold group_entry in E. case_bool_decide; [done|].
  by injection E as <-.
Qed.
Lemma monitor_ordered s :
  StronglySorted (fun a b => key_leb (fun k : string => k) a b = true) (mq_group_id <$> get_monitor_queue_snapshot s) /\
  NoDup (mq_group_id <$> get_monitor_queue_snapshot s).
Proof.
  rewrite monitor_groups. destruct (monitor_pass s (run_requests s)) as [W _]. split.
  - pose proof (py_sorted_sorted fst (foldl (monitor_add s) [] (run_requests s))) as S.
    induction S as [|x l S IH F]; cbn; constructor; [done|]. by apply Forall_fmap.
  - rewrite py_sorted_perm. exact W.
Qed.

(** C17: The monitor shows the queues as they are. In every state reached in a sensible
    environment it lists the groups in order and each once: exactly those with a run that
    waits or that is worked on. It counts the runs of the queue of the group that still
    wait, and the active run is the one whose backend the worker of the group waits for,
    with the backend of its snapshot. *)
Theorem monitor_shows_the_queues tr s g :
  good_reach tr s ->
  let m := get_monitor_queue_snapshot s in
  StronglySorted (fun a b => key_leb (fun k : string => k) a b = true) (mq_group_id <$> m) /\ NoDup (mq_group_id <$> m) /\
  (g ∈ mq_group_id <$> m <-> waiting g s <> [] \/ exists id, worked_on g id s) /\
  forall e, e ∈ m -> mq_group_id e = g ->
    mq_queued_runs e = Z.of_nat (length (waiting g s)) /\
    match mq_active_run_id e with
    | None => mq_running_runs e = 0%Z /\ forall id, ~ worked_on g id s
    | Some id => mq_running_runs e = 1%Z /\ worked_on g id s /\
                 mq_active_backend e = (n ← get_run_snapshot id s; sn_backend n)
    end.
Proof.
  intros R m. split; [apply monitor_ordered|]. split; [apply monitor_ordered|].
  pose proof (queued_waiting tr s g R) as Q. pose proof (running_one tr s g R) as L1. split.
  - rewrite list_elem_of_fmap.
    assert ((exists e, g = mq_group_id e /\ e ∈ m) <-> is_Some (group_entry s g (run_requests s))) as ->.
    { split; [intros (e & -> & E)|intros [e E%monitor_entry]]; [exists e; by apply monitor_entry|].
      exists e. naive_solver. }
    unfold group_entry. case_bool_decide as E; split.
    + by intros [].
    + destruct E as [E1 E2]. rewrite E1 in Q. intros [[]|[id W]].
      * by apply Permutation_nil_l in Q.
      * destruct (worked_on_running tr s g id R W) as [req H']. rewrite E2 in H'. by apply not_elem_of_nil in H'.
    + intros _. destruct (queued_in s g (run_requests s)) as [|p q] eqn:E1.
      * right. destruct (running_in s g (run_requests s)) as [|[id req] r] eqn:E2; [by destruct E|].
        exists id. apply (running_worked_on tr s g id req R). rewrite E2. by left.
      * left. intros N. rewrite N in Q. by apply Permutation_nil_r in Q.
    + intros _. eauto.
  - intros e E M. assert (group_entry s g (run_requests s) = Some e) as GE by by apply monitor_entry.
    unfold group_entry in GE. case_bool_decide; [done|]. injection GE as <-. cbn. split.
    + by rewrite <- Q, length_fmap.
    + destruct (running_in s g (run_requests s)) as [|[id req] [|]] eqn:E2; cbn in L1 |- *; [|split; [done|]|lia].
      * split; [done|]. intros id W. destruct (worked_on_running tr s g id R W) as [req H']. rewrite E2 in H'.
        by apply not_elem_of_nil in H'.
      * split; [|done]. apply (running_worked_on tr s g id req R). rewrite E2. by left.
Qed.
End queues.

Lemma monitor_shows_the_queues_witness :
  waiting "g" two_runs_state = ["r2"] /\ ("g" ∈ mq_group_id <$> get_monitor_queue_snapshot two_runs_state) /\
  forall e, e ∈ get_monitor_queue_snapshot two_runs_state -> mq_group_id e = "g" ->
    mq_queued_runs e = 1%Z /\ mq_active_run_id e = Some "r1".
Proof.
  destruct (monitor_shows_the_queues default_backends 256 ex_uuid ex_clock _ _ "g" two_runs_good) as (_ & _ & G & E).
  assert (waiting "g" two_runs_state = ["r2"]) as W by (vm_compute; reflexivity).
  split; [done|]. split; [apply G; left; by rewrite W|]. intros e H M. destruct (E e H M) as [Q A].
  split; [by rewrite Q, W|].
  assert (exists e', get_monitor_queue_snapshot two_runs_state = [e'] /\ mq_active_run_id e' = Some "r1") as (e' & S & A').
  { eexists. vm_compute. split; reflexivity. }
  rewrite S in H. apply list_elem_of_singleton in H as ->. done.
Defined.

(** ** Who reads a run *)

Section runs.
Context {GT MT ST : Type} `{Table GT string RegisteredGroup} `{Table MT (string * string) GroupMember}
  `{Table ST (string * string) ConversationSlot}.
Context `{!TableLaws GT string RegisteredGroup} `{!TableLaws MT (string * string) GroupMember}
  `{!TableLaws ST (string * string) ConversationSlot}.

Local Abbreviation DB := (db GT MT ST).
Implicit Types (s : DB).

(** Who may read a run: whoever sees the web workspace it ran for; without such a
    workspace the operators and its user. *)
Definition may_read (u : AuthUser) (n : ExecutionRunSnapshot) s : bool :=
  match find_web_workspace (sn_group_folder n) s with
  | Some w => may_access (au_id u) (au_role u) w s
  | None => is_operator (au_role u) || bool_decide (sn_user_id n = au_id u)
  end.

Lemma may_access_quiet user_id role w s s' : quiet s s' -> may_access user_id role w s' = may_access user_id role w s.
Proof. intros Q. unfold may_access. by rewrite (quiet_member _ _ _ _ Q). Qed.

Lemma can_read_spec u n now s :
  wf s -> wp (can_read_execution_snapshot u n now) (fun b s' => quiet s s' /\ b = may_read u n s) (fun _ => False) s.
Proof.
  intros W. unfold can_read_execution_snapshot, get_web_workspace_by_folder, may_read. wp_step. wp_step. wp_step.
  destruct (find_web_workspace (sn_group_folder n) s) as [w|] eqn:F; [|wp_step; cbv beta iota; apply wp_ret; by split; [apply quiet_refl|]].
  pose proof (find_web_workspace_some _ _ _ W F) as (G & _).
  wp_step. eapply wp_mono; [apply ensure_workspace_slot_spec; [by apply wf_slot_key|done]| |done]. intros y s' [Q _].
  wp_step. unfold wp. rewrite access_web_group by apply (find_web_workspace_some _ _ _ W F).
  split; [done|]. by apply may_access_quiet.
Qed.

(** C18: Who sees a run. A request for the status of a run is answered with the snapshot of
    the coordinator under that id when the user may read it, and otherwise with the same 404
    whether the run is another's or does not exist, so the answer does not tell one from the
    other. Besides the main slot of the workspace nothing changes. *)
Theorem run_status_confined run_id u now c s :
  wf s ->
  let '(r, s') := get_execution_status run_id u now c s in
  quiet s s' /\
  r = match get_run_snapshot run_id c with
      | Some n => if may_read u n s then Ok (to_execution_status_response n) else Err run_not_found
      | None => Err run_not_found
      end.
Proof.
  intros W. unfold get_execution_status. destruct (get_run_snapshot run_id c) as [n|]; [|by split; [apply quiet_refl|]].
  pose proof (can_read_spec u n now s W) as P. unfold wp in P. unfold catching, mbind, M_bind.
  destruct (can_read_execution_snapshot u n now s) as [[b|e] s'] eqn:E; [|done]. destruct P as [Q ->].
  by destruct (may_read u n s).
Qed.
End runs.

(** The workspace of the runs of [two_runs], of alice. *)
Definition runs_db : gx_db :=
  (handle (fun _ => true) (gx_user "alice" "admin") 1 (RCreateGroup "g" "G") gx_empty).2.
Lemma runs_db_wf : wf runs_db.
Proof. apply (handle_good (fun _ => true) (gx_user "alice" "admin") 1 (RCreateGroup "g" "G") gx_empty gx_wf). Qed.

(** Alice reads the run, another owner does not, as the workspace is hers. *)
Lemma run_status_confined_witness :
  (exists resp, (get_execution_status "r1" (gx_user "alice" "admin") 2 two_runs_state runs_db).1 = Ok resp /\
                es_run_id resp = "r1" /\ es_status resp = StRunning) /\
  (get_execution_status "r1" (gx_user "mallory" "owner") 2 two_runs_state runs_db).1 = Err run_not_found.
Proof.
  pose proof (run_status_confined "r1" (gx_user "alice" "admin") 2 two_runs_state runs_db runs_db_wf) as A.
  pose proof (run_status_confined "r1" (gx_user "mallory" "owner") 2 two_runs_state runs_db runs_db_wf) as M.
  destruct (get_execution_status _ (gx_user "alice" _) _ _ _) as [ra sa]. destruct A as [_ ->].
  destruct (get_execution_status _ (gx_user "mallory" _) _ _ _) as [rm sm]. destruct M as [_ ->].
  split; [eexists; split; [vm_compute; reflexivity|]; by vm_compute|by vm_compute].
Defined.

(** The tasks are not confined to workspaces: a member who sees no workspace at all reads
    the prompt of a task another user stored for hers. *)
Definition tasks_session : M scheduler http_error (list string) :=
  _ ← create_task (fun _ => true) sx_cron sx_clock sx_uuid (gx_user "alice" "admin") "g" "web:g" "for the owners" "interval" None
        (Some "60000") None;
  tasks ← list_tasks (gx_user "mallory" "member");
  mret (st_prompt <$> tasks).
Example tasks_are_not_confined :
  (tasks_session init_scheduler).1 = Ok ["for the owners"] /\
  (require_accessible_workspace "g" (gx_user "mallory" "member") 2 runs_db).1 = Err not_found.
Proof. split; vm_compute; reflexivity. Qed.
